(* ===== verification/_CoqProject ===== *)
-Q . S2P
Prelude.v
CString.v
UHash.v
UList.v
Names.v
Xml.v
Faults.v
Duration.v
Store.v
Envelope.v
Uri.v
Epr.v
Filter.v
Requests.v
Selectors.v
EventPool.v
Base64.v
Md5.v
Buf.v
Client.v
ClientTransport.v
ClientActions.v
Dispatcher.v
DispatchProofs.v
Routing.v
Enumeration.v
EnumProofs.v
Subscribe.v
Indication.v
Eventing.v
EventProofs.v
ClientProofs.v
Invocation.v
ActionProofs.v
Serializer.v
SerializerProofs.v
StructProofs.v
Runtime.v
Transfer.v
Ini.v
Options.v
Repository.v
Startup.v
Daemon.v
ShttpdMd5.v
Http.v
HttpSetup.v
Digest.v
Listener.v
IndicationProofs.v
HttpProofs.v
DigestProofs.v
FileAuth.v
Connection.v
ConnectionProofs.v
Exchange.v
