(* ===== verification/Prelude.v ===== *)
(** * Openwsman: a Rocq development of the WS-Management stack

    Openwsman is a C implementation of WS-Management: a SOAP server that
    receives requests over HTTP, checks their headers, routes them to plugins
    and keeps the state of enumerations and subscriptions between requests,
    and a client library.  This development models the core of both
    (src/src/lib), the containers they are built on (src/src/lib/u) and the HTTP
    server and the daemon around them (src/src/server), as executable functions
    on the program's data, and proves what makes them correct.

    ** The parts and how they interact

    A message enters at [dispatch_inbound_call] (wsman-dispatcher.c), which
    reads the envelope (wsman-soap-envelope.c), finds a dispatch entry for it
    ([wsman_dispatcher]) and processes the operation: the inbound checks, the
    service, the outbound filters.  The services of WS-Enumeration are the
    stubs of wsman-soap.c; they keep enumeration contexts in a hash table
    (u/hash.c) of the SOAP context, lock them while a request works on them,
    and share them with the thread of the timeouts manager.  Those of
    WS-Eventing keep subscriptions in a list (u/list.c); the notification
    manager takes events from the event pool (wsman-event-pool.c) and starts
    senders, the heartbeat generator does so for idle subscriptions.  Every part
    reports errors as fault codes, from which wsman-faults.c makes fault
    documents.  Documents are trees of libxml2, which wsman-xml.c and
    wsman-libxml2-binding.c read and build.  On the other side wsman-client.c
    builds requests from options, sends them over libcurl
    (wsman-client-transport.c, wsman-curl-client-transport.c) and reads the
    responses.

    Around the stack is the daemon: its options come from the command line
    (u/uoption.c) and from a file (u/iniparser.c), a bundled HTTP server
    (shttpd) reads requests from connections, authorizes them and calls the
    listener (wsmand-listener.c), which collects a request over several calls,
    hands it to the dispatcher and sends the response.  Indications of a CIM
    object manager arrive at the same listener and become events of the pool
    (wsman-cimindication-processor.c); subscriptions are kept in files
    (wsman-subscription-repository.c).

    ** The files

    - [Prelude]: conventions, machine integers, counted loops, automation and
      generic lemmas.
    - [CString]: C strings ([strcmp], [strstr], [strchr], [strtol], [atoi]).
    - [UHash]: the extendible hash tables of u/hash.c, every function, with
      the buckets of the directory and the tables' invariant; lookup, insertion,
      deletion and scans refine a finite map.
    - [UList]: the linked lists of u/list.c on a memory of nodes, with the merge
      sort; the functions refine a sequence.
    - [Names]: the string constants of wsman-names.h that the other files use.
    - [Xml]: trees and their accessors (wsman-xml.c and the binding).  What
      libxml2 computes is the class [Libxml2], with the facts the program relies
      on in [Libxml2Laws]; [TreeXml] is an instance to evaluate the model with.
    - [Faults]: wsman-faults.c, with its two tables entry by entry.
    - [Duration]: the parsers of durations and dates of wsman-xml-serialize.c
      and the expiry times of wsman-soap-envelope.c.
    - [Store]: the interface of a table of strings, a class with laws; the hash
      tables of [UHash] are the instance.
    - [Envelope]: wsman-soap-envelope.c: headers, validation, responses and
      fault documents.
    - [Uri]: u/uri.c and the string functions of u/misc.c it uses.
    - [Epr], [Filter]: endpoint references, selectors and filters
      (wsman-epr.c, wsman-key-value.c, wsman-filter.c).
    - [Requests]: what wsman-soap-envelope.c reads from Enumerate and Subscribe
      requests.
    - [Selectors]: the tables of selectors and of method arguments and the
      options that a plugin asks of a request (wsman-soap-envelope.c).
    - [EventPool]: wsman-event-pool.c.
    - [Base64], [Buf]: u/base64.c and u/buf.c.
    - [Client]: the options and requests of wsman-client.c.
    - [ClientTransport]: sending a request, with the lock and the loop that
      authenticates; libcurl and the peer are the class [Curl].
    - [ClientActions]: the actions of wsman-client.c and the enumeration loop.
    - [Dispatcher], [DispatchProofs]: wsman-dispatcher.c: the checks, filters
      and the processing of a message.
    - [Routing]: [wsman_dispatcher] and the search for a release endpoint.
    - [Enumeration], [EnumProofs]: the enumeration contexts and stubs of
      wsman-soap.c and the timeouts manager.
    - [Subscribe]: how wsman-soap.c makes a subscription of a request.
    - [Eventing], [EventProofs]: the stubs of WS-Eventing, the notification
      manager, the heartbeat generator and the senders of wsman-soap.c.
    - [ClientProofs]: the requests of [Client] as the server reads them.
    - [Invocation]: options and method arguments from [Client] to [Selectors].
    - [ActionProofs]: sessions of a client with a peer, the class [Serves].
    - [Serializer], [SerializerProofs], [StructProofs]: the interpreter of
      wsman-xml-serialize.c that writes C structures to XML and reads them back.
    - [Runtime]: the registration of plugins, the dispatch table, the use counts
      of its entries and the life of an operation (wsman-soap.c), with requests
      as threads.
    - [Transfer]: the values of a context and the stubs of Identify, Get, Put
      and Delete (wsman-soap.c).
    - [Indication]: the indications of wsman-cimindication-processor.c, from the
      message to the events and the response.
    - [Repository]: wsman-subscription-repository.c on a map from paths to
      contents.
    - [Startup]: the loading of plugins (wsman-plugins.c), the making of the
      server's listener and context (wsman-server.c, wsman-server-api.c) and the
      subscriptions taken up from the repository; the dynamic linker is the
      class [Linker].
    - [Ini], [Options]: configuration files (u/iniparser.c) and the command line
      (u/uoption.c).
    - [Daemon]: the settings of wsmand-daemon.c and the process of wsmand.c, with
      its signals and shutdown.
    - [Md5], [ShttpdMd5]: the two MD5 implementations, u/md5.c and shttpd/md5.c,
      for both byte orders, and RFC 1321 as their reference.
    - [Http]: URIs, headers, authorization and the decision about a request
      (shttpd.c, io_emb.c, auth.c, adapter.c, string.c of shttpd).
    - [HttpSetup]: the options of the HTTP server and their setters, its ports,
      access control list and workers, and the acceptance of connections
      (shttpd.c, string.c); sockets, users, files and OpenSSL are the class
      [System].
    - [Digest], [DigestProofs]: digest authentication and the file of passwords
      of auth.c.
    - [FileAuth]: the authenticator of authenticators/file/file_auth.c, with
      [crypt] as a parameter.
    - [Listener]: the function of wsmand-listener.c that serves requests and the
      set-up of its paths, port and authenticators.
    - [IndicationProofs]: [Indication] behind [Listener].
    - [HttpProofs]: [Http] and [Listener] composed, from the text of a request to
      the dispatcher.
    - [Connection], [ConnectionProofs]: the buffers of io.h, reading and writing,
      and the turns of the server for a connection (shttpd.c, io_socket.c).
      The class [Callback] is what a connection needs of the function it calls;
      the listener is its instance.  Results are [Ok], or the assertion or
      overflow that ends the server, with weakest preconditions over them.
    - [Exchange]: the whole way of a request and its response over a connection.

    ** What the theorems show

    [UHash] and [UList] refine abstract maps and sequences and keep their
    invariants; sorting sorts and destruction frees once.  [Store] discharges
    the interface that the clients are proved against.  [EnumProofs] lets
    threads interleave in every order, with each critical section one step, and
    shows that no freed context is touched, that a lock excludes, that the stubs
    leave no lock behind and remove a context exactly when they say so, and that
    the timeouts manager collects exactly what has expired; the access check, the
    quota and the expiry of Enumerate are described exactly, errors included.
    [DispatchProofs] shows that a service runs only for messages that pass all
    the checks, what each check accepts, that message identifiers are
    recognised over every sequence of messages, and that every message is
    answered.  [Routing] describes the choice of the endpoint.  [Envelope] and
    [Faults] show that fault documents are complete for the codes with a table
    entry and are decoded again, and that responses correlate with requests.
    [Duration] has the round trip and the bounds of durations.  [EventProofs]
    runs the requests, the manager, the heartbeat generator and the senders in
    every order: its invariant ties the list to the heap and the pending flags
    to the senders, from which the background threads are safe, ended
    subscriptions are removed and queued events are delivered; it also shows
    the interleaving in which a request uses a freed subscription and the one in
    which an event is lost.  [EventPool] refines a queue per subscription.
    [Epr], [Filter], [Uri] and [Base64] have round trips and the equivalence
    with the standard encoding, and the exact conditions under which they hold;
    [Buf] refines a sequence of bytes.  [ClientProofs] composes the two sides:
    the requests of a client are accepted by the server's checks, which read
    back the action, the selectors, the options, the contexts and the delivery
    the client was given; [Invocation] does so for the options and the arguments
    of methods as a plugin reads them, and finds the option that is never read.
    [Selectors] shows that its tables agree with the reading of single
    selectors.  [ClientTransport] and [ActionProofs] show that a
    request ends and leaves the client free, that an enumeration hands over all
    that the peer has, and how it reports a peer that goes away.  [StructProofs]
    has the round trip of structures through XML and shows that freeing one
    frees what reading it allocated; [SerializerProofs] says which numbers are
    read and which tables the interpreter cannot handle.  [Runtime] shows what
    registration yields, that an entry found by a request is alive while requests
    interleave, and the race in which it is not; [Transfer] that Get returns the
    structure the plugin produced and Put hands over the one the client sent.
    [IndicationProofs] shows that a message at the listener puts one event per
    request into the queue of its subscription and into no other, with the class and the properties of
    the instance; [Repository] refines a map from identifiers to documents over
    every sequence of operations.  [Startup] shows that exactly the usable plugins
    are registered and that of the stored subscriptions the expired and the
    endless ones are deleted and each other one is dispatched once.  [Ini] has the round trip of printed
    configuration files, [Options] says what a command line means, [Daemon] what
    the daemon is configured to by both and that it shuts down in order.
    [ShttpdMd5] proves that both digests are those of the RFC however a message
    is cut into pieces; [DigestProofs] that a stored password authorizes exactly
    the responses RFC 2617 derives from it.  [FileAuth] shows that a stored
    password is accepted where no name is the beginning of another, and that
    otherwise part of a name reaches the service.  [HttpProofs] shows that a request
    with credentials is served once and that none reaches the service without
    them, and which paths are not protected; [ConnectionProofs] that a connection
    moves the bytes in order and without loss while a client keeps to the length
    it announced, and the two ways in which a client makes the server fail;
    [HttpSetup] shows that the access control list that is written is the one that
    is enforced, that setting the ports leaks no socket and what the daemon
    listens on; [Exchange] joins the parts: bytes that arrive in pieces of any size are answered
    with exactly the bytes of the response.

    Some theorems state behaviour the code does not intend: they are exact
    descriptions of the branches in which it fails.

    ** Conventions

    A NULL dereference, a failed assertion or an access out of bounds is [None]
    in the option monad; error codes are part of the results.  Integers are [Z]
    with the wrap-around written out.  Loops that are not structural take fuel:
    scans and searches one step more than there are elements (the theorems show
    that this is enough), the merge sort the number of nodes, the duration
    parser the length of the string, the end of the runtime the number of uses
    of its entries.  The loop of a client's authentication takes
    two rounds without a callback, and one round per document enumerates a peer
    with so many.  The lines of a configuration file take one step per character
    and one more; an argument of the command line its characters and two; the
    headers of a request and the words of a list their characters; the blocks of a digest or a file its
    bytes; the walk over the children of a node their number and one more; the
    rounds of a connection the size of its buffer and two, since each further
    round consumes input.  Allocation succeeds unless an argument says
    otherwise, and the current time, generated identifiers and the results of
    third-party libraries are arguments.

    ** What is not modelled

    The management plugins, the PAM authenticator and the bindings (calls into
    other systems); files,
    directories, CGI, SSI, SSL and Kerberos in the HTTP server and the loops of
    its worker threads; reals in the serializer and the client's actions on typed
    data; the accessors of the client's settings and the options of libcurl;
    tree mutation in place, namespaces and XPath (libxml2); the
    threads that the server starts, beyond what they do in a step; random identifiers (u/uuid.c), logging and
    locks, which are the atomicity of the steps of the model. *)

From Stdlib Require Export ZArith Lia.
From stdpp Require Export numbers base gmap strings.
From stdpp Require Export list.

(** ** Conventions

    A C function that can run into an assertion failure, a NULL dereference
    or an out-of-bounds access is modelled in the [option] monad of stdpp
    ([x ← c; k]); [None] stands for that failure and never for an ordinary
    error code, which is part of the returned value. *)

Declare Scope ow_scope.
Delimit Scope ow_scope with ow.

(** [assert (b)]: execution continues only when the condition holds. *)
Definition c_assert (b : bool) : option unit :=
  if b then Some tt else None.

Notation "'assert!' b ; k" := (c_assert b ≫= λ _, k)
  (at level 100, b at level 99, k at level 200, right associativity) : ow_scope.

Lemma some_bind {A B} (x : A) (f : A → option B) : (Some x ≫= f) = f x.
Proof. done. Qed.

(** ** Machine integers *)

Definition wrap (w x : Z) : Z := (x `mod` 2 ^ w)%Z.
#[global] Arguments wrap : simpl never.
Abbreviation wrap64 := (wrap 64).
Abbreviation wrap32 := (wrap 32).
Abbreviation wrap8 := (wrap 8).

(** Conversion to a signed integer of [w] bits, as the compilers the program is
    built with do it. *)
Definition sint (w x : Z) : Z := (wrap w (x + 2 ^ (w - 1)) - 2 ^ (w - 1))%Z.

Definition ULONG_MAX : Z := (2 ^ 64 - 1)%Z.

Lemma wrap_small (w x : Z) : (0 ≤ x < 2 ^ w)%Z → wrap w x = x.
Proof. apply Z.mod_small. Qed.

Lemma wrap_range (w x : Z) : (0 ≤ w)%Z → (0 ≤ wrap w x < 2 ^ w)%Z.
Proof. intros. apply Z.mod_pos_bound. lia. Qed.

Lemma pow2_half (w : Z) : (0 < w → 2 ^ w = 2 * 2 ^ (w - 1))%Z.
Proof. intros Hw. rewrite <- Z.pow_succ_r by lia. f_equal. lia. Qed.

Lemma sint_small (w x : Z) : (0 < w → - 2 ^ (w - 1) ≤ x < 2 ^ (w - 1) → sint w x = x)%Z.
Proof.
  intros Hw Hx. unfold sint. pose proof (pow2_half w Hw). rewrite wrap_small; lia.
Qed.

Lemma sint_range (w x : Z) : (0 < w → - 2 ^ (w - 1) ≤ sint w x < 2 ^ (w - 1))%Z.
Proof.
  intros Hw. unfold sint. pose proof (pow2_half w Hw).
  pose proof (wrap_range w (x + 2 ^ (w - 1)) ltac:(lia)). lia.
Qed.

Lemma wrap_add_l (w x y : Z) : (0 ≤ w → wrap w (wrap w x + y) = wrap w (x + y))%Z.
Proof. intros. unfold wrap. rewrite Z.add_mod_idemp_l; [done|]. pose proof (Z.pow_pos_nonneg 2 w). lia. Qed.

Lemma wrap_add_r (w x y : Z) : (0 ≤ w → wrap w (x + wrap w y) = wrap w (x + y))%Z.
Proof. intros. by rewrite Z.add_comm, wrap_add_l, Z.add_comm. Qed.

Lemma wrap_sint (w x : Z) : (0 < w → wrap w (sint w x) = wrap w x)%Z.
Proof.
  intros. unfold sint. rewrite <- Z.add_opp_r, wrap_add_l by lia. f_equal. lia.
Qed.

(** ** Counted loops

    [for (i = start; i < start + n; i++) s = f(i, s)] where the body may
    fail. *)

Fixpoint for_loop {S : Type} (n i : nat) (f : nat → S → option S) (s : S)
  : option S :=
  match n with
  | O => Some s
  | Datatypes.S n' => s' ← f i s; for_loop n' (Datatypes.S i) f s'
  end.

Lemma for_loop_inv {S : Type} (P : nat → S → Prop) (f : nat → S → option S) :
  ∀ n i s,
    P i s →
    (∀ j t, i ≤ j < i + n → P j t → ∃ t', f j t = Some t' ∧ P (Datatypes.S j) t') →
    ∃ s', for_loop n i f s = Some s' ∧ P (i + n) s'.
Proof.
  induction n as [|n IH]; intros i s Hi Hstep; simpl.
  - exists s. by rewrite Nat.add_0_r.
  - destruct (Hstep i s) as (s1 & Hf & HP); [lia|done|].
    rewrite Hf. simpl.
    destruct (IH (Datatypes.S i) s1) as (s' & Hl & HP'); [done| |].
    + intros j t Hj. apply Hstep. lia.
    + exists s'. split; [done|]. by rewrite Nat.add_succ_r.
Qed.

(** ** Automation *)

Create HintDb ow.

(** Split the [option]-monad binds of a hypothesis [c ≫= k = Some r]. *)
Ltac bind_inv H :=
  repeat match type of H with
  | (_ ≫= _) = Some _ =>
      let E := fresh "E" in
      apply bind_Some in H as (? & E & H)
  end.

(** ** Lists *)

Lemma concat_insert_perm {A} (ls : list (list A)) i l x :
  ls !! i = Some l →
  concat (<[i := x :: l]> ls) ≡ₚ x :: concat ls.
Proof.
  revert i. induction ls as [|l0 ls IH]; intros [|i] Hi; simplify_eq/=.
  - done.
  - rewrite IH by done. by rewrite Permutation_middle.
Qed.

Lemma concat_insert_del_perm {A} (ls : list (list A)) i l x l' :
  ls !! i = Some l →
  l ≡ₚ x :: l' →
  concat ls ≡ₚ x :: concat (<[i := l']> ls).
Proof.
  revert i. induction ls as [|l0 ls IH]; intros [|i] Hi Hp; simplify_eq/=.
  - by rewrite Hp.
  - rewrite IH by done. by rewrite Permutation_middle.
Qed.

Lemma elem_of_concat {A} (ls : list (list A)) x :
  x ∈ concat ls ↔ ∃ l, l ∈ ls ∧ x ∈ l.
Proof.
  induction ls as [|l ls IH]; simpl; [set_solver|].
  rewrite elem_of_app, IH. setoid_rewrite elem_of_cons. naive_solver.
Qed.

(** An element of [pre ++ y :: suf] that is not in [y :: suf] is in [pre]. *)
Lemma app_cons_split {A} (pre suf l1 l2 : list A) (x y : A) :
  pre ++ y :: suf = l1 ++ x :: l2 → x ∉ y :: suf →
  ∃ l3, pre = l1 ++ x :: l3 ∧ l2 = l3 ++ y :: suf.
Proof.
  revert pre. induction l1 as [|z l1 IH]; intros [|w pre] Heq Hn; simpl in Heq;
    injection Heq as Hzw Htl; subst.
  - destruct Hn. by left.
  - by exists pre.
  - destruct Hn. right. set_solver.
  - destruct (IH pre Htl Hn) as (l3 & -> & ->). by exists l3.
Qed.
