(* ===== verification/CString.v ===== *)
(** * C strings

    The functions of <string.h>, <strings.h>, <ctype.h> and <stdlib.h> the
    sources use, on Rocq strings; a C string is the sequence of its bytes
    before the terminating NUL.  Only the sign of a comparison is specified
    by the C standard, so comparisons return -1, 0 or 1. *)

From S2P Require Import Prelude.
From Stdlib Require Import Ascii.
Local Open Scope Z_scope.

Definition code (a : ascii) : Z := Z.of_N (N_of_ascii a).

Lemma code_range (a : ascii) : 0 ≤ code a < 256.
Proof. unfold code. pose proof (N_ascii_bounded a). lia. Qed.

Lemma code_inj (a b : ascii) : code a = code b → a = b.
Proof.
  intros Heq. rewrite <- (ascii_N_embedding a), <- (ascii_N_embedding b).
  unfold code in Heq. f_equal. lia.
Qed.

Fixpoint strcmp (s t : string) : Z :=
  match s, t with
  | EmptyString, EmptyString => 0
  | EmptyString, String _ _ => -1
  | String _ _, EmptyString => 1
  | String a s', String b t' =>
      if code a <? code b then -1
      else if code b <? code a then 1
      else strcmp s' t'
  end.

Definition str_eqb (s t : string) : bool := strcmp s t =? 0.

(** [strcmp] of a string with a pointer that may be NULL. *)
Definition strcmp_ptr (a : string) (b : option string) : option bool :=
  b ← b; Some (str_eqb a b).

(** ASCII lower case, the C locale's [tolower]. *)
Definition tolower (a : ascii) : ascii :=
  if (65 <=? code a) && (code a <=? 90) then ascii_of_N (Z.to_N (code a + 32)) else a.

Fixpoint str_lower (s : string) : string :=
  match s with
  | EmptyString => EmptyString
  | String a s' => String (tolower a) (str_lower s')
  end.

Definition strcasecmp (s t : string) : Z := strcmp (str_lower s) (str_lower t).
Definition strcase_eqb (s t : string) : bool := strcasecmp s t =? 0.

(** [!strncmp(s, pre, strlen(pre))]. *)
Fixpoint str_prefix (pre s : string) : bool :=
  match pre, s with
  | EmptyString, _ => true
  | String a p', String b s' => (code a =? code b) && str_prefix p' s'
  | String _ _, EmptyString => false
  end.

(** The suffix at the first occurrence of [needle]. *)
Fixpoint strstr (hay needle : string) : option string :=
  if str_prefix needle hay then Some hay
  else match hay with
       | EmptyString => None
       | String _ hay' => strstr hay' needle
       end.

Fixpoint strchr (s : string) (c : ascii) : option string :=
  match s with
  | EmptyString => None
  | String a s' => if code a =? code c then Some s else strchr s' c
  end.

Fixpoint strrchr (s : string) (c : ascii) : option string :=
  match s with
  | EmptyString => None
  | String a s' =>
      match strrchr s' c with
      | Some r => Some r
      | None => if code a =? code c then Some s else None
      end
  end.

(** [p + n] on a string pointer; past the terminator is out of bounds. *)
Fixpoint str_drop (n : nat) (s : string) : option string :=
  match n, s with
  | O, _ => Some s
  | S n', String _ s' => str_drop n' s'
  | S _, EmptyString => None
  end.

Definition isdigit (a : ascii) : bool := (48 <=? code a) && (code a <=? 57).

(** The C locale's [isspace]: space and the characters 9 to 13. *)
Definition isspace (a : ascii) : bool :=
  (code a =? 32) || ((9 <=? code a) && (code a <=? 13)).

Fixpoint skip_space (s : string) : string :=
  match s with
  | String a s' => if isspace a then skip_space s' else s
  | EmptyString => EmptyString
  end.

(** The decimal digits at the front of [s], accumulated onto [acc], and what
    follows them. *)
Fixpoint scan_digits (acc : Z) (s : string) : Z * string :=
  match s with
  | String a s' => if isdigit a then scan_digits (acc * 10 + (code a - 48)) s' else (acc, s)
  | EmptyString => (acc, s)
  end.

Definition starts_digit (s : string) : bool :=
  match s with String a _ => isdigit a | EmptyString => false end.

(** An optional sign: whether it was a minus, and the rest. *)
Definition scan_sign (s : string) : bool * string :=
  match s with
  | String a s' => if code a =? 45 then (true, s') else if code a =? 43 then (false, s') else (false, s)
  | EmptyString => (false, s)
  end.

(** An optionally signed decimal number after white space, as [strtol] and the
    [%d] conversion of [sscanf] read it; [None] when there is no number. *)
Definition scan_int (s : string) : option (Z * string) :=
  let '(neg, s2) := scan_sign (skip_space s) in
  if starts_digit s2 then
    let '(v, rest) := scan_digits 0 s2 in Some (if neg then - v else v, rest)
  else None.

(** [strtol(s, &e, 10)]: the value, saturated at the bounds of [long], and
    [e]. *)
Definition strtol (s : string) : Z * string :=
  match scan_int s with
  | Some (v, e) => (Z.max (- 2 ^ 63) (Z.min v (2 ^ 63 - 1)), e)
  | None => (0, s)
  end.

(** [atoi], which is [strtol] converted to [int]. *)
Definition atoi (s : string) : Z := sint 32 (strtol s).1.

(** ** Facts *)

Lemma strcmp_refl (s : string) : strcmp s s = 0.
Proof. induction s as [|a s IH]; simpl; [done|]. by rewrite Z.ltb_irrefl. Qed.

Lemma strcmp_eq (s t : string) : strcmp s t = 0 ↔ s = t.
Proof.
  split; [|intros ->; apply strcmp_refl].
  revert t. induction s as [|a s IH]; intros [|b t]; simpl; try done.
  destruct (Z.ltb_spec (code a) (code b)), (Z.ltb_spec (code b) (code a)); try done.
  intros Heq. f_equal; [apply code_inj; lia|by apply IH].
Qed.

Lemma str_eqb_eq (s t : string) : str_eqb s t = true ↔ s = t.
Proof. unfold str_eqb. by rewrite Z.eqb_eq, strcmp_eq. Qed.

Lemma str_eqb_neq (s t : string) : str_eqb s t = false ↔ s ≠ t.
Proof. rewrite <- str_eqb_eq. by destruct (str_eqb s t). Qed.

Lemma str_eqb_refl (s : string) : str_eqb s s = true.
Proof. by apply str_eqb_eq. Qed.

Lemma str_eqb_spec (s t : string) : reflect (s = t) (str_eqb s t).
Proof. apply iff_reflect. by rewrite str_eqb_eq. Qed.

Lemma strcmp_antisym (s t : string) : strcmp s t = - strcmp t s.
Proof.
  revert t. induction s as [|a s IH]; intros [|b t]; simpl; try done.
  destruct (Z.ltb_spec (code a) (code b)), (Z.ltb_spec (code b) (code a));
    (lia || apply IH).
Qed.

Lemma str_prefix_app (p s : string) : str_prefix p (p +:+ s) = true.
Proof. induction p as [|a p IH]; simpl; [done|]. by rewrite Z.eqb_refl. Qed.

Lemma str_prefix_spec (p s : string) : str_prefix p s = true ↔ ∃ t, s = p +:+ t.
Proof.
  split; [|intros [t ->]; apply str_prefix_app].
  revert s. induction p as [|a p IH]; intros s; simpl; [intros _; by exists s|].
  destruct s as [|b s]; [done|]. intros [E1%Z.eqb_eq E2]%andb_prop.
  apply code_inj in E1 as ->. destruct (IH s E2) as [t ->]. by exists t.
Qed.

Lemma strstr_spec (hay needle r : string) :
  strstr hay needle = Some r → ∃ pre post, hay = pre +:+ needle +:+ post ∧ r = needle +:+ post.
Proof.
  induction hay as [|a hay IH]; simpl.
  - destruct (str_prefix needle "") eqn:E; [|done]. intros [= <-].
    apply str_prefix_spec in E as [t E]. exists "", t. by rewrite <- E.
  - destruct (str_prefix needle (String a hay)) eqn:E.
    + intros [= <-]. apply str_prefix_spec in E as [t E]. exists "", t. by rewrite <- E.
    + intros Hs. destruct (IH Hs) as (pre & post & -> & ->). by exists (String a pre), post.
Qed.

Lemma strstr_found (pre needle post : string) :
  is_Some (strstr (pre +:+ needle +:+ post) needle).
Proof.
  induction pre as [|a pre IH]; simpl.
  - destruct (needle +:+ post) eqn:E; simpl; rewrite <- E, str_prefix_app; eauto.
  - destruct (str_prefix _ _); eauto.
Qed.

#[export] Hint Rewrite str_eqb_refl strcmp_refl : ow.

Lemma strchr_app p c v : strchr p c = None → strchr (p +:+ String c v) c = Some (String c v).
Proof.
  induction p as [|a p IH]; simpl; intros Hp.
  - by rewrite Z.eqb_refl.
  - destruct (code a =? code c); [done|]. by apply IH.
Qed.

Lemma scan_digits_length t : ∀ acc, (String.length (scan_digits acc t).2 ≤ String.length t)%nat.
Proof.
  induction t as [|a t IH]; intros acc; simpl; [done|]. destruct (isdigit a); simpl; [|done].
  specialize (IH (acc * 10 + (code a - 48))). lia.
Qed.

Lemma str_length_app s t : String.length (s +:+ t) = (String.length s + String.length t)%nat.
Proof. induction s as [|a s IH]; simpl; [done|]. by rewrite IH. Qed.

Lemma strtol_rest_length s : (String.length (strtol s).2 ≤ String.length s)%nat.
Proof.
  assert (Hs : (String.length (skip_space s) ≤ String.length s)%nat).
  { induction s as [|a s IH]; simpl; [done|]. destruct (isspace a); simpl; lia. }
  unfold strtol, scan_int. destruct (scan_sign (skip_space s)) as [neg s2] eqn:E.
  assert (String.length s2 ≤ String.length (skip_space s))%nat.
  { unfold scan_sign in E. destruct (skip_space s) as [|a t]; [by simplify_eq|].
    destruct (code a =? 45), (code a =? 43); simplify_eq; simpl; lia. }
  destruct (starts_digit s2); [|done]. pose proof (scan_digits_length s2 0) as Hd.
  destruct (scan_digits 0 s2) as [v rest]. simpl in *. lia.
Qed.

(** ** Printing numbers *)

(** [%d] of a number that is not negative. *)
Fixpoint print_nat_loop (fuel : nat) (x : Z) (acc : string) : string :=
  match fuel with
  | O => acc
  | S fuel =>
      let acc := String (ascii_of_N (Z.to_N (48 + x mod 10))) acc in
      if x <? 10 then acc else print_nat_loop fuel (x / 10) acc
  end.

Definition print_nat (x : Z) : string := print_nat_loop (S (Z.to_nat (Z.log2 x))) x EmptyString.

(** [%d]. *)
Definition print_int (x : Z) : string :=
  if x <? 0 then String (ascii_of_N 45) (print_nat (- x)) else print_nat x.

Lemma digit_code x : 0 ≤ x < 10 → code (ascii_of_N (Z.to_N (48 + x))) = 48 + x.
Proof.
  intros Hx. unfold code. rewrite N_ascii_embedding by lia. lia.
Qed.

Lemma scan_digits_digit acc x rest :
  0 ≤ x < 10 →
  scan_digits acc (String (ascii_of_N (Z.to_N (48 + x))) rest) = scan_digits (acc * 10 + x) rest.
Proof.
  intros Hx. cbn [scan_digits]. unfold isdigit. rewrite digit_code by done.
  replace ((48 <=? 48 + x) && (48 + x <=? 57)) with true
    by (symmetry; apply andb_true_intro; split; apply Z.leb_le; lia).
  f_equal. lia.
Qed.

Lemma print_nat_loop_scan fuel : ∀ x acc,
  0 ≤ x < 2 ^ Z.of_nat fuel →
  ∃ k, ∀ a0, scan_digits a0 (print_nat_loop fuel x acc) = scan_digits (a0 * 10 ^ k + x) acc ∧
       (fuel ≠ O → starts_digit (print_nat_loop fuel x acc) = true) ∧ 0 ≤ k.
Proof.
  induction fuel as [|fuel IH]; intros x acc Hx.
  - exists 0. intros a0. change (2 ^ Z.of_nat 0) with 1 in Hx. assert (x = 0) as -> by lia.
    simpl print_nat_loop. rewrite Z.pow_0_r, Z.mul_1_r, Z.add_0_r. done.
  - cbn [print_nat_loop]. assert (Hm : 0 ≤ x mod 10 < 10) by (apply Z.mod_pos_bound; lia).
    destruct (Z.ltb_spec x 10).
    + exists 1. intros a0. rewrite Z.mod_small by lia. split_and!; [|intros _|lia].
      * rewrite scan_digits_digit by lia. by rewrite Z.pow_1_r.
      * cbn [starts_digit]. unfold isdigit. rewrite digit_code by lia.
        apply andb_true_intro; split; apply Z.leb_le; lia.
    + destruct (IH (x / 10) (String (ascii_of_N (Z.to_N (48 + x mod 10))) acc)) as [k Hk].
      { split; [apply Z.div_pos; lia|]. apply Z.div_lt_upper_bound; [lia|].
        rewrite Nat2Z.inj_succ, Z.pow_succ_r in Hx by lia. lia. }
      exists (k + 1). intros a0. destruct (Hk a0) as (E & Hs & Hk0). split_and!; [|intros _|lia].
      * rewrite E, scan_digits_digit by done. f_equal.
        rewrite Z.pow_add_r by lia. pose proof (Z.div_mod x 10). lia.
      * apply Hs. intros ->. change (2 ^ Z.of_nat 1) with 2 in Hx. lia.
Qed.

Lemma print_nat_loop_app fuel : ∀ x acc r,
  print_nat_loop fuel x (acc +:+ r) = print_nat_loop fuel x acc +:+ r.
Proof.
  induction fuel as [|fuel IH]; intros x acc r; cbn [print_nat_loop]; [done|].
  destruct (x <? 10); [done|]. rewrite <- IH. done.
Qed.

Lemma scan_digits_stop acc s : starts_digit s = false → scan_digits acc s = (acc, s).
Proof. destruct s as [|a s]; simpl; [done|]. by intros ->. Qed.

Lemma print_nat_scan x rest :
  0 ≤ x → starts_digit rest = false →
  scan_digits 0 (print_nat x +:+ rest) = (x, rest) ∧ starts_digit (print_nat x +:+ rest) = true.
Proof.
  intros Hx Hr. unfold print_nat. rewrite <- print_nat_loop_app.
  change (EmptyString +:+ rest) with rest.
  destruct (print_nat_loop_scan (S (Z.to_nat (Z.log2 x))) x rest) as [k Hk].
  - split; [done|]. rewrite Nat2Z.inj_succ, Z2Nat.id by apply Z.log2_nonneg.
    destruct (Z.eq_dec x 0) as [->|Hne]; [done|]. apply Z.log2_spec. lia.
  - destruct (Hk 0) as (-> & Hs & _). rewrite Z.mul_0_l, Z.add_0_l, scan_digits_stop by done.
    split; [done|]. by apply Hs.
Qed.

Lemma starts_digit_plain s :
  starts_digit s = true → skip_space s = s ∧ scan_sign s = (false, s).
Proof.
  destruct s as [|a s]; simpl; [done|]. unfold isdigit, isspace.
  intros [?%Z.leb_le ?%Z.leb_le]%andb_prop.
  rewrite (proj2 (Z.eqb_neq (code a) 32)), (proj2 (Z.eqb_neq (code a) 45)),
    (proj2 (Z.eqb_neq (code a) 43)), (proj2 (Z.leb_gt (code a) 13)) by lia.
  by rewrite andb_false_r.
Qed.

(** Reading back a number that was printed. *)
Lemma scan_int_print x rest :
  0 ≤ x → starts_digit rest = false → scan_int (print_nat x +:+ rest) = Some (x, rest).
Proof.
  intros Hx Hr. destruct (print_nat_scan x rest Hx Hr) as [E Hs]. unfold scan_int.
  destruct (starts_digit_plain _ Hs) as [-> ->]. by rewrite Hs, E.
Qed.

Lemma strtol_print x rest :
  0 ≤ x < 2 ^ 63 → starts_digit rest = false → strtol (print_nat x +:+ rest) = (x, rest).
Proof. intros Hx Hr. unfold strtol. rewrite scan_int_print by (done || lia). f_equal. lia. Qed.

(** ** Characters that do not occur *)

Lemma strchr_none_app a b c : strchr (a +:+ b) c = None ↔ strchr a c = None ∧ strchr b c = None.
Proof.
  induction a as [|x a IH]; simpl; [naive_solver|].
  destruct (code x =? code c); [naive_solver|]. apply IH.
Qed.

Lemma strchr_Some s c p :
  strchr s c = Some p → ∃ l r, s = l +:+ String c r ∧ p = String c r ∧ strchr l c = None.
Proof.
  induction s as [|a s IH]; simpl; [done|]. destruct (Z.eqb_spec (code a) (code c)) as [E|E].
  - intros [= <-]. apply code_inj in E as ->. by exists EmptyString, s.
  - intros (l & r & -> & -> & Hl)%IH. exists (String a l), r. split_and!; [done..|]. simpl.
    by rewrite (proj2 (Z.eqb_neq _ _) E).
Qed.

Lemma str_split_at s k :
  (k ≤ String.length s)%nat → ∃ a b, s = a +:+ b ∧ String.length a = k.
Proof.
  revert k. induction s as [|x s IH]; intros [|k] Hk; simpl in Hk; [by exists EmptyString, EmptyString|lia| |].
  - by exists EmptyString, (String x s).
  - destruct (IH k) as (a & b & -> & <-); [lia|]. by exists (String x a), b.
Qed.

Lemma strstr_char s c : strstr s (String c "") = strchr s c.
Proof.
  induction s as [|a s IH]; simpl; [done|]. rewrite andb_true_r, Z.eqb_sym.
  destruct (code a =? code c); [done|]. apply IH.
Qed.

Lemma strstr_none s c n : strchr s c = None → strstr s (String c n) = None.
Proof.
  induction s as [|a s IH]; simpl; [done|]. rewrite (Z.eqb_sym (code c)).
  destruct (code a =? code c); [done|]. apply IH.
Qed.

Lemma print_nat_loop_chr fuel c : isdigit c = false → ∀ x acc,
  0 ≤ x → strchr acc c = None → strchr (print_nat_loop fuel x acc) c = None.
Proof.
  intros Hc. induction fuel as [|fuel IH]; intros x acc Hx Ha; cbn [print_nat_loop]; [done|].
  set (d := ascii_of_N _).
  assert (strchr (String d acc) c = None) as Hd.
  { cbn. pose proof (Z.mod_pos_bound x 10 ltac:(lia)) as Hm.
    assert (code d = 48 + x mod 10) as -> by (apply digit_code; lia).
    unfold isdigit in Hc. apply andb_false_iff in Hc.
    rewrite (proj2 (Z.eqb_neq _ _)); [done|]. rewrite !Z.leb_gt in Hc. lia. }
  destruct (x <? 10); [done|]. apply IH; [|done]. apply Z.div_pos; lia.
Qed.

Lemma print_nat_chr x c : 0 ≤ x → isdigit c = false → strchr (print_nat x) c = None.
Proof. intros Hx Hc. by apply print_nat_loop_chr. Qed.

(** The prefix of [s] before the position [rest] of it. *)
Definition str_before (s rest : string) : string :=
  String.substring 0 (String.length s - String.length rest) s.

Lemma substring_app p q : String.substring 0 (String.length p) (p +:+ q) = p.
Proof. induction p as [|a p IH]; simpl; [by destruct q|]. by rewrite IH. Qed.

Lemma str_before_app p q : str_before (p +:+ q) q = p.
Proof.
  unfold str_before. rewrite str_length_app, Nat.add_sub. apply substring_app.
Qed.

Lemma str_app_cons a s t : String a s +:+ t = String a (s +:+ t).
Proof. done. Qed.

Lemma str_nil_app (t : string) : EmptyString +:+ t = t.
Proof. done. Qed.

Lemma str_app_assoc a b c : (a +:+ b) +:+ c = a +:+ b +:+ c.
Proof. induction a as [|x a IH]; [done|]. exact (f_equal (String x) IH). Qed.

Lemma str_app_nil s : s +:+ "" = s.
Proof. induction s as [|x s IH]; [done|]. exact (f_equal (String x) IH). Qed.

Lemma strstr_app_first e c n :
  strchr e c = None → strstr (e +:+ String c n) (String c n) = Some (String c n).
Proof.
  induction e as [|a e IH]; simpl; intros He.
  - rewrite Z.eqb_refl. cbn. pose proof (str_prefix_app n "") as H. rewrite str_app_nil in H. by rewrite H.
  - rewrite (Z.eqb_sym (code c)). destruct (code a =? code c); [done|]. by apply IH.
Qed.
