(* ===== verification/UHash.v ===== *)
(** * The hash table of libu (src/src/lib/u/hash.c, src/include/u/hash.h)

    Chained hashing with a table that doubles and halves.  A chain (the
    [hash_next] pointers starting at a table slot) is the list of its nodes;
    [hash_addr] is the address of a node, which is what the code compares
    when it looks for a node to unlink.  [None] is a failed [assert] or an
    access outside the table.  Whether [realloc]/[malloc] succeeds is an
    argument of the operations that call it. *)

From S2P Require Import Prelude.
From S2P Require Import CString.
Local Open Scope Z_scope.
Local Open Scope ow_scope.

Definition INIT_BITS : Z := 6.
Definition INIT_SIZE : Z := Z.shiftl 1 INIT_BITS.
Definition INIT_MASK : Z := INIT_SIZE - 1.
Definition HASH_VAL_T_MAX : Z := ULONG_MAX.
Definition HASHCOUNT_T_MAX : Z := ULONG_MAX.

(** [compute_bits]: shift ones out of [HASH_VAL_T_MAX] while counting. *)
Fixpoint compute_bits_loop (fuel : nat) (val bits : Z) : Z :=
  match fuel with
  | O => bits
  | S f => if val =? 0 then bits else compute_bits_loop f (Z.shiftr val 1) (bits + 1)
  end.

Definition compute_bits : Z := compute_bits_loop 65 HASH_VAL_T_MAX 0.

(** [is_power_of_two]: at most 64 trailing zero bits are shifted out. *)
Fixpoint strip_zeros (fuel : nat) (arg : Z) : Z :=
  match fuel with
  | O => arg
  | S f => if Z.land arg 1 =? 0 then strip_zeros f (Z.shiftr arg 1) else arg
  end.

Definition is_power_of_two (arg : Z) : bool :=
  if arg =? 0 then false else strip_zeros 64 arg =? 1.

Definition compute_mask (size : Z) : option Z :=
  assert! is_power_of_two size;
  assert! (2 <=? size);
  Some (size - 1).

(** ** Nodes, tables and scanners *)

Section Hash.
Context {K V : Type}.

Record hnode := Hnode {
  hash_addr : positive;
  hash_key : K;
  hash_data : V;
  hash_hkey : Z;
}.

Abbreviation chain := (list hnode).

(** The node destructor a table was given: [hnode_free], [hnode_free2],
    [hnode_free3] or a client's function. *)
Inductive hnode_free_t :=
  | hnode_free
  | hnode_free2
  | hnode_free3
  | hnode_free_client.

(** What a destructor releases. *)
Inductive freed :=
  | FreedNode (a : positive)
  | FreedData (v : V)
  | FreedKey (k : K)
  | FreedByClient (n : hnode).

Definition freenode (fr : hnode_free_t) (n : hnode) : list freed :=
  match fr with
  | hnode_free => [FreedNode (hash_addr n)]
  | hnode_free2 => [FreedData (hash_data n); FreedNode (hash_addr n)]
  | hnode_free3 =>
      [FreedData (hash_data n); FreedKey (hash_key n); FreedNode (hash_addr n)]
  | hnode_free_client => [FreedByClient n]
  end.

Record hash_t := Hash {
  hash_table : list chain;
  hash_nchains : Z;
  hash_nodecount : Z;
  hash_maxcount : Z;
  hash_highmark : Z;
  hash_lowmark : Z;
  hash_compare : K → K → Z;
  hash_function : K → Z;
  hash_freenode : hnode_free_t;
  hash_mask : Z;
  hash_dynamic : bool;
}.

Definition set_table (t : list chain) (h : hash_t) : hash_t :=
  Hash t (hash_nchains h) (hash_nodecount h) (hash_maxcount h) (hash_highmark h)
    (hash_lowmark h) (hash_compare h) (hash_function h) (hash_freenode h)
    (hash_mask h) (hash_dynamic h).

Definition set_nodecount (c : Z) (h : hash_t) : hash_t :=
  Hash (hash_table h) (hash_nchains h) c (hash_maxcount h) (hash_highmark h)
    (hash_lowmark h) (hash_compare h) (hash_function h) (hash_freenode h)
    (hash_mask h) (hash_dynamic h).

Definition set_size (t : list chain) (nchains mask low high : Z) (h : hash_t) : hash_t :=
  Hash t nchains (hash_nodecount h) (hash_maxcount h) high low
    (hash_compare h) (hash_function h) (hash_freenode h) mask (hash_dynamic h).

Definition nslots (h : hash_t) : nat := Z.to_nat (hash_nchains h).

Definition clear_table (h : hash_t) : option hash_t :=
  t ← for_loop (nslots h) 0
        (λ i t, assert! (i <? length t)%nat; Some (<[i := []]> t)) (hash_table h);
  Some (set_table t h).

(** ** Consistency check *)

(** The two nested loops of [hash_verify]: [Some None] is the early
    [return 0]. *)
Definition verify_chain (mask : Z) (i : nat) (c : chain) : bool :=
  forallb (λ n, Z.land (hash_hkey n) mask =? Z.of_nat i) c.

Definition hash_verify (h : hash_t) : option bool :=
  if hash_dynamic h &&
     ((hash_highmark h <=? hash_lowmark h)
      || negb (is_power_of_two (hash_highmark h))
      || negb (is_power_of_two (hash_lowmark h)))
  then Some false
  else
    r ← for_loop (nslots h) 0
          (λ i (acc : option Z),
             match acc with
             | None => Some None
             | Some count =>
                 c ← hash_table h !! i;
                 Some (if verify_chain (hash_mask h) i c
                       then Some (wrap64 (count + Z.of_nat (length c))) else None)
             end)
          (Some 0);
    Some (match r with
          | None => false
          | Some count => count =? hash_nodecount h
          end).

Definition assert_verify (h : hash_t) : option hash_t :=
  b ← hash_verify h; assert! b; Some h.

(** ** Growing and shrinking *)

(** Sort the nodes of one chain on the newly exposed hash bit; both result
    chains are built front-first, as the code does. *)
Fixpoint split_chain (bit : Z) (c low high : chain) : chain * chain :=
  match c with
  | [] => (low, high)
  | n :: c' =>
      if Z.land (hash_hkey n) bit =? 0
      then split_chain bit c' (n :: low) high
      else split_chain bit c' low (n :: high)
  end.

Definition grow_chain (bit : Z) (n : nat) (i : nat) (t : list chain) : option (list chain) :=
  c ← t !! i;
  assert! (i + n <? length t)%nat;
  let '(low, high) := split_chain bit c [] [] in
  Some (<[(i + n)%nat := high]> (<[i := low]> t)).

(** [realloc_ok] is the outcome of [realloc]; the upper half of the
    reallocated table is not initialised, and is written before it is
    read. *)
Definition grow_table (realloc_ok : bool) (h : hash_t) : option hash_t :=
  assert! (hash_nchains h <? wrap64 (2 * hash_nchains h));
  h' ← (if realloc_ok then
          let n := nslots h in
          let newtable := take n (hash_table h) ++ replicate n [] in
          let mask := Z.lor (wrap64 (Z.shiftl (hash_mask h) 1)) 1 in
          let exposed_bit := Z.lxor mask (hash_mask h) in
          assert! negb (mask =? hash_mask h);
          t ← for_loop n 0 (grow_chain exposed_bit n) newtable;
          Some (set_size t (wrap64 (hash_nchains h * 2)) mask
                  (wrap64 (hash_lowmark h * 2)) (wrap64 (hash_highmark h * 2)) h)
        else Some h);
  assert_verify h'.

(** Notes 3 to 6 of [shrink_table]: the upper sister chain is tacked onto the
    lower one. *)
Definition shrink_chain (n : nat) (i : nat) (t : list chain) : option (list chain) :=
  low ← t !! i;
  high ← t !! (i + n)%nat;
  Some (match low with
        | [] => match high with [] => t | _ => <[i := high]> t end
        | _ => <[i := low ++ high]> t
        end).

(** When [realloc] fails the old, larger table is kept, its upper half
    unused. *)
Definition shrink_table (realloc_ok : bool) (h : hash_t) : option hash_t :=
  assert! (2 <=? hash_nchains h);
  let nchains := hash_nchains h / 2 in
  let n := Z.to_nat nchains in
  t ← for_loop n 0 (shrink_chain n) (hash_table h);
  let t' := if realloc_ok then take n t else t in
  assert_verify
    (set_size t' nchains (Z.shiftr (hash_mask h) 1)
       (hash_lowmark h / 2) (hash_highmark h / 2) h).

(** ** Creation *)

Definition hash_create_with (malloc_hash malloc_table : bool) (fr : hnode_free_t)
    (maxcount : Z) (compfun : K → K → Z) (hashfun : K → Z) : option (option hash_t) :=
  if malloc_hash && malloc_table then
    h ← clear_table
          (Hash (replicate (Z.to_nat INIT_SIZE) []) INIT_SIZE 0 maxcount (INIT_SIZE * 2)
             (INIT_SIZE / 2) compfun hashfun fr INIT_MASK true);
    h' ← assert_verify h;
    Some (Some h')
  else Some None.

Definition hash_create (m1 m2 : bool) := hash_create_with m1 m2 hnode_free.
Definition hash_create2 (m1 m2 : bool) := hash_create_with m1 m2 hnode_free2.
Definition hash_create3 (m1 m2 : bool) := hash_create_with m1 m2 hnode_free3.

Definition hash_set_allocator (fr : option hnode_free_t) (h : hash_t) : option hash_t :=
  assert! (hash_nodecount h =? 0);
  Some (Hash (hash_table h) (hash_nchains h) (hash_nodecount h) (hash_maxcount h)
    (hash_highmark h) (hash_lowmark h) (hash_compare h) (hash_function h)
    (default hnode_free fr) (hash_mask h) (hash_dynamic h)).

(** The control structure [hash0] is the caller's; the marks and the
    destructor keep whatever it held. *)
Definition hash_init (hash0 : hash_t) (maxcount : Z) (compfun : K → K → Z)
    (hashfun : K → Z) (table : list chain) (nchains : Z) : option hash_t :=
  assert! is_power_of_two nchains;
  mask ← compute_mask nchains;
  h ← clear_table
        (Hash table nchains 0 maxcount (hash_highmark hash0) (hash_lowmark hash0)
           compfun hashfun (hash_freenode hash0) mask false);
  assert_verify h.

(** ** Lookup, insertion, deletion *)

Definition chain_of (h : hash_t) (hkey : Z) : nat :=
  Z.to_nat (Z.land hkey (hash_mask h)).

Fixpoint chain_find (cmp : K → K → Z) (hkey : Z) (k : K) (c : chain) : option hnode :=
  match c with
  | [] => None
  | n :: c' =>
      if (hash_hkey n =? hkey) && (cmp (hash_key n) k =? 0)
      then Some n else chain_find cmp hkey k c'
  end.

Definition hash_lookup (h : hash_t) (k : K) : option (option hnode) :=
  let hkey := hash_function h k in
  c ← hash_table h !! chain_of h hkey;
  Some (chain_find (hash_compare h) hkey k c).

Definition hash_isfull (h : hash_t) : bool := hash_nodecount h =? hash_maxcount h.
Definition hash_isempty (h : hash_t) : bool := hash_nodecount h =? 0.
Definition hash_count (h : hash_t) : Z := hash_nodecount h.

(** [hash_insert(hash, node, key)] where [node] is at address [a] and holds
    [d]. *)
Definition hash_insert (realloc_ok : bool) (h : hash_t) (a : positive) (d : V) (k : K)
  : option hash_t :=
  assert! (hash_nodecount h <? hash_maxcount h);
  r ← hash_lookup h k;
  assert! (match r with None => true | Some _ => false end);
  h1 ← (if hash_dynamic h && (hash_highmark h <=? hash_nodecount h)
        then grow_table realloc_ok h else Some h);
  let hkey := hash_function h1 k in
  let i := chain_of h1 hkey in
  c ← hash_table h1 !! i;
  assert_verify
    (set_nodecount (wrap64 (hash_nodecount h1 + 1))
       (set_table (<[i := Hnode a k d hkey :: c]> (hash_table h1)) h1)).

(** Unlink the node at address [a]; running off the chain is a NULL
    dereference. *)
Fixpoint chain_unlink (a : positive) (c : chain) : option chain :=
  match c with
  | [] => None
  | n :: c' =>
      if decide (hash_addr n = a) then Some c'
      else c'' ← chain_unlink a c'; Some (n :: c'')
  end.

Definition assert_is_node (h : hash_t) (n : hnode) : option unit :=
  r ← hash_lookup h (hash_key n);
  assert! (match r with
           | Some n' => bool_decide (hash_addr n' = hash_addr n)
           | None => false
           end);
  Some tt.

(** The part [hash_delete] and [hash_scan_delete] share: unlink and count. *)
Definition unlink_node (h : hash_t) (n : hnode) : option hash_t :=
  let i := chain_of h (hash_hkey n) in
  c ← hash_table h !! i;
  c' ← chain_unlink (hash_addr n) c;
  assert_verify
    (set_nodecount (wrap64 (hash_nodecount h - 1))
       (set_table (<[i := c']> (hash_table h)) h)).

Definition hash_delete (realloc_ok : bool) (h : hash_t) (n : hnode) : option hash_t :=
  _ ← assert_is_node h n;
  h1 ← (if hash_dynamic h && (hash_nodecount h <=? hash_lowmark h)
           && (INIT_SIZE <? hash_nodecount h)
        then shrink_table realloc_ok h else Some h);
  unlink_node h1 n.

Definition hash_scan_delete (h : hash_t) (n : hnode) : option hash_t :=
  _ ← assert_is_node h n;
  unlink_node h n.

(** [alloc] is what the table's node allocator returned. *)
Definition hash_alloc_insert (alloc : option positive) (realloc_ok : bool)
    (h : hash_t) (k : K) (d : V) : option (hash_t * Z) :=
  match alloc with
  | Some a => h' ← hash_insert realloc_ok h a d k; Some (h', 1)
  | None => Some (h, 0)
  end.

Definition hash_delete_free (realloc_ok : bool) (h : hash_t) (n : option hnode)
  : option (hash_t * list freed) :=
  match n with
  | None => Some (h, [])
  | Some n => h' ← hash_delete realloc_ok h n; Some (h', freenode (hash_freenode h) n)
  end.

Definition hash_scan_delfree (h : hash_t) (n : hnode) : option (hash_t * list freed) :=
  h' ← hash_scan_delete h n; Some (h', freenode (hash_freenode h) n).

(** ** Scanning *)

Record hscan_t := Hscan {
  scan_chain : nat;
  scan_next : option hnode;
}.

(** First non-empty chain at or after [i]. *)
Fixpoint next_chain (t : list chain) (i : nat) : option (nat * hnode) :=
  match t with
  | [] => None
  | (n :: _) :: _ => Some (i, n)
  | [] :: t' => next_chain t' (S i)
  end.

Definition scan_from (h : hash_t) (i : nat) (dflt : nat) : hscan_t :=
  match next_chain (drop i (take (nslots h) (hash_table h))) i with
  | Some (j, n) => Hscan j (Some n)
  | None => Hscan dflt None
  end.

(** [chain0] is the indeterminate [scan->chain] of an empty table. *)
Definition hash_scan_begin (chain0 : nat) (h : hash_t) : hscan_t := scan_from h 0 chain0.

(** The [hash_next] field of the node at address [a]. *)
Fixpoint node_next (a : positive) (c : chain) : option (option hnode) :=
  match c with
  | [] => None
  | n :: c' => if decide (hash_addr n = a) then Some (head c') else node_next a c'
  end.

Definition hash_scan_next (h : hash_t) (s : hscan_t) : option (option hnode * hscan_t) :=
  match scan_next s with
  | None => Some (None, s)
  | Some n =>
      c ← hash_table h !! scan_chain s;
      nx ← node_next (hash_addr n) c;
      Some (Some n,
        match nx with
        | Some n' => Hscan (scan_chain s) (Some n')
        | None => scan_from h (S (scan_chain s)) (scan_chain s)
        end)
  end.

(** The loop of [hash_free_nodes]: fetch, unlink, release. *)
Fixpoint free_nodes_loop (fuel : nat) (h : hash_t) (s : hscan_t) (acc : list freed)
  : option (hash_t * list freed) :=
  match fuel with
  | O => None
  | S f =>
      '(r, s') ← hash_scan_next h s;
      match r with
      | None => Some (h, acc)
      | Some n =>
          h' ← hash_scan_delete h n;
          free_nodes_loop f h' s' (acc ++ freenode (hash_freenode h) n)
      end
  end.

Definition hash_free_nodes (chain0 : nat) (h : hash_t) : option (hash_t * list freed) :=
  '(h', fr) ← free_nodes_loop (S (Z.to_nat (hash_nodecount h))) h (hash_scan_begin chain0 h) [];
  h'' ← clear_table (set_nodecount 0 h');
  Some (h'', fr).

(** [hash_destroy] asserts that the table is empty; [hash_free] releases the
    nodes first. *)
Definition hash_destroy (h : hash_t) : option unit :=
  assert! hash_isempty h; Some tt.

Definition hash_free (chain0 : nat) (h : hash_t) : option (list freed) :=
  '(h', fr) ← hash_free_nodes chain0 h;
  _ ← hash_destroy h';
  Some fr.

End Hash.

Arguments hnode : clear implicits.
Arguments hash_t : clear implicits.
Arguments hscan_t : clear implicits.
Arguments freed : clear implicits.

(** ** Arithmetic of table sizes *)

Lemma INIT_SIZE_val : INIT_SIZE = 64.
Proof. reflexivity. Qed.

Lemma compute_bits_64 : compute_bits = 64.
Proof. reflexivity. Qed.

Lemma half_pow (b : Z) : 1 ≤ b → 2 ^ (b - 1) = 2 ^ b / 2.
Proof. intros. rewrite Z.pow_sub_r by lia. by rewrite Z.pow_1_r. Qed.

Lemma strip_zeros_pow (f : nat) (b : Z) :
  0 ≤ b ≤ Z.of_nat f → strip_zeros f (2 ^ b) = 1.
Proof.
  revert b. induction f as [|f IH]; intros b Hb.
  - by replace b with 0 by lia.
  - simpl. destruct (decide (b = 0)) as [->|Hne]; [done|].
    replace (Z.land (2 ^ b) 1) with 0.
    2: { change 1 with (Z.ones 1). rewrite Z.land_ones by lia.
         replace b with (Z.succ (b - 1)) by lia.
         rewrite Z.pow_succ_r by lia. by rewrite Z.mul_comm, Z.mod_mul. }
    rewrite Z.eqb_refl, Z.shiftr_div_pow2 by lia.
    replace (2 ^ b / 2 ^ 1) with (2 ^ (b - 1)) by (apply half_pow; lia).
    apply IH. lia.
Qed.

Lemma is_power_of_two_pow (b : Z) : 0 ≤ b < 64 → is_power_of_two (2 ^ b) = true.
Proof.
  intros Hb. unfold is_power_of_two.
  replace (2 ^ b =? 0) with false by (symmetry; apply Z.eqb_neq; lia).
  by rewrite strip_zeros_pow by lia.
Qed.

Lemma land_mask (x b : Z) : 0 ≤ b → Z.land x (2 ^ b - 1) = x `mod` 2 ^ b.
Proof.
  intros Hb. replace (2 ^ b - 1) with (Z.ones b) by (rewrite Z.ones_equiv; lia).
  by apply Z.land_ones.
Qed.

Lemma grow_mask (b : Z) : 0 ≤ b < 63 →
  Z.lor (wrap64 (Z.shiftl (2 ^ b - 1) 1)) 1 = 2 ^ (b + 1) - 1.
Proof.
  intros Hb. pose proof (Z.pow_succ_r 2 b ltac:(lia)) as Hs.
  assert (2 ^ (Z.succ b) ≤ 2 ^ 63) by (apply Z.pow_le_mono_r; lia).
  rewrite Z.shiftl_mul_pow2 by lia. rewrite wrap_small by lia.
  change (2 ^ 1) with 2.
  rewrite <- Z.add_nocarry_lor.
  - replace (b + 1) with (Z.succ b) by lia. lia.
  - change 1 with (Z.ones 1). rewrite Z.land_ones by lia.
    change (2 ^ 1) with 2. by rewrite Z.mod_mul.
Qed.

(** The bit the wider mask exposes is bit [b]. *)
Lemma exposed_bit (b : Z) : 0 ≤ b → Z.lxor (2 ^ (b + 1) - 1) (2 ^ b - 1) = 2 ^ b.
Proof.
  intros Hb.
  replace (2 ^ (b + 1) - 1) with (Z.ones (b + 1)) by (rewrite Z.ones_equiv; lia).
  replace (2 ^ b - 1) with (Z.ones b) by (rewrite Z.ones_equiv; lia).
  apply Z.bits_inj'. intros n Hn.
  rewrite Z.lxor_spec, !Z.testbit_ones_nonneg, Z.pow2_bits_eqb by lia.
  destruct (Z.ltb_spec n (b + 1)), (Z.ltb_spec n b), (Z.eqb_spec b n); simpl; lia.
Qed.

(** Which of the two sister chains a hash value selects. *)
Lemma mod_exposed (x b : Z) : 0 ≤ b →
  x `mod` 2 ^ (b + 1) =
    x `mod` 2 ^ b + (if Z.land x (2 ^ b) =? 0 then 0 else 2 ^ b).
Proof.
  intros Hb.
  assert (Hbit : Z.land x (2 ^ b) = if Z.testbit x b then 2 ^ b else 0).
  { apply Z.bits_inj'. intros n Hn. rewrite Z.land_spec, Z.pow2_bits_eqb by lia.
    destruct (Z.eqb_spec b n) as [->|Hne].
    - destruct (Z.testbit x n); [by rewrite Z.pow2_bits_true by lia|by rewrite Z.bits_0].
    - rewrite andb_false_r.
      destruct (Z.testbit x b); [by rewrite Z.pow2_bits_false by lia|by rewrite Z.bits_0]. }
  rewrite Hbit, Z.pow_add_r by lia. change (2 ^ 1) with 2.
  rewrite Z.rem_mul_r by lia.
  pose proof (Z.testbit_spec' x b Hb) as Ht.
  rewrite <- Ht. destruct (Z.testbit x b); simpl Z.b2z.
  - replace (2 ^ b =? 0) with false by (symmetry; apply Z.eqb_neq; lia). lia.
  - rewrite Z.eqb_refl. lia.
Qed.

(** ** Invariant and abstraction *)

Section Theory.
Context {K V : Type} `{Countable K}.
Implicit Types (h : hash_t K V) (n : hnode K V) (c : list (hnode K V)).

Definition chains h : list (list (hnode K V)) := take (nslots h) (hash_table h).
Definition nodes h : list (hnode K V) := concat (chains h).

(** The finite map a table stands for. *)
Definition node_entry n : K * hnode K V := (hash_key n, n).
Definition habs h : gmap K (hnode K V) := list_to_map (node_entry <$> nodes h).

Record hash_wf h : Prop := {
  wf_pow : ∃ b, 1 ≤ b ≤ 62 ∧ hash_nchains h = 2 ^ b;
  wf_mask : hash_mask h = hash_nchains h - 1;
  wf_len : (nslots h ≤ length (hash_table h))%nat;
  wf_marks : hash_dynamic h = true →
    hash_highmark h = 2 * hash_nchains h ∧ hash_lowmark h = hash_nchains h / 2 ∧
    INIT_SIZE ≤ hash_nchains h;
  wf_place : ∀ i c n, chains h !! i = Some c → n ∈ c →
    hash_hkey n = hash_function h (hash_key n) ∧
    Z.land (hash_hkey n) (hash_mask h) = Z.of_nat i;
  wf_count : hash_nodecount h = Z.of_nat (length (nodes h));
  wf_keys : NoDup (hash_key <$> nodes h);
  wf_addrs : NoDup (hash_addr <$> nodes h);
  wf_max : hash_nodecount h ≤ hash_maxcount h < 2 ^ 64;
  wf_cmp : ∀ a b, hash_compare h a b = 0 ↔ a = b;
  wf_fun : ∀ k, 0 ≤ hash_function h k < 2 ^ 64;
}.

Lemma length_chains h : hash_wf h → length (chains h) = nslots h.
Proof. intros W. unfold chains. rewrite length_take. pose proof (wf_len h W). lia. Qed.

Lemma chains_lookup h i :
  hash_wf h → (i < nslots h)%nat → hash_table h !! i = chains h !! i.
Proof. intros W Hi. unfold chains. by rewrite lookup_take_lt. Qed.

Lemma chains_insert h i c :
  (i < nslots h)%nat → take (nslots h) (<[i := c]> (hash_table h)) = <[i := c]> (chains h).
Proof. intros. unfold chains. by rewrite take_insert_lt. Qed.

(** Every hash value selects a slot of the table. *)
Lemma chain_of_lt h x : hash_wf h → (chain_of h x < nslots h)%nat.
Proof.
  intros W. destruct (wf_pow h W) as (b & Hb & Hn).
  unfold chain_of, nslots. rewrite (wf_mask h W), Hn, land_mask by lia.
  pose proof (Z.mod_pos_bound x (2 ^ b)). lia.
Qed.

Lemma chain_of_get h x :
  hash_wf h → ∃ c, hash_table h !! chain_of h x = Some c ∧ chains h !! chain_of h x = Some c.
Proof.
  intros W. pose proof (chain_of_lt h x W) as Hlt.
  destruct (lookup_lt_is_Some_2 (chains h) (chain_of h x)) as [c Hc].
  { by rewrite length_chains. }
  exists c. by rewrite chains_lookup.
Qed.

Lemma elem_of_nodes h n :
  n ∈ nodes h ↔ ∃ i c, chains h !! i = Some c ∧ n ∈ c.
Proof.
  unfold nodes. rewrite elem_of_concat. setoid_rewrite list_elem_of_lookup at 1.
  naive_solver.
Qed.

(** A node sits in the chain its key selects. *)
Lemma node_chain h n :
  hash_wf h → n ∈ nodes h →
  ∃ c, chains h !! chain_of h (hash_hkey n) = Some c ∧ n ∈ c ∧
       hash_hkey n = hash_function h (hash_key n).
Proof.
  intros W (i & c & Hc & Hn)%elem_of_nodes.
  destruct (wf_place h W i c n Hc Hn) as [Hk Hi].
  exists c. unfold chain_of. rewrite Hi, Nat2Z.id. done.
Qed.

Lemma habs_keys h : (node_entry <$> nodes h).*1 = hash_key <$> nodes h.
Proof. rewrite <- list_fmap_compose. by apply list_fmap_ext. Qed.

Lemma habs_Some h k n :
  hash_wf h → habs h !! k = Some n ↔ n ∈ nodes h ∧ hash_key n = k.
Proof.
  intros W. unfold habs. rewrite <- elem_of_list_to_map.
  2: { rewrite habs_keys. apply (wf_keys h W). }
  rewrite list_elem_of_fmap. unfold node_entry. naive_solver.
Qed.

Lemma habs_None h k :
  hash_wf h → habs h !! k = None ↔ ∀ n, n ∈ nodes h → hash_key n ≠ k.
Proof.
  intros W. rewrite eq_None_not_Some. unfold is_Some. setoid_rewrite habs_Some; naive_solver.
Qed.

Lemma nodes_perm_habs (l l' : list (hnode K V)) :
  NoDup (hash_key <$> l) → l ≡ₚ l' →
  (list_to_map (node_entry <$> l) : gmap K (hnode K V)) = list_to_map (node_entry <$> l').
Proof.
  intros Hnd Hp. apply list_to_map_proper.
  - by rewrite <- list_fmap_compose.
  - by rewrite Hp.
Qed.

(** ** Lookup *)

Lemma chain_find_Some cmp hk k c n :
  chain_find cmp hk k c = Some n → n ∈ c ∧ cmp (hash_key n) k = 0.
Proof.
  induction c as [|n0 c IH]; simpl; [done|].
  destruct (hash_hkey n0 =? hk) eqn:E1, (cmp (hash_key n0) k =? 0) eqn:E2; simpl;
    intros; simplify_eq; try (split; [|lia]; by left);
    destruct IH as [? ?]; auto; split; auto; by right.
Qed.

Lemma chain_find_None cmp hk k c :
  chain_find cmp hk k c = None →
  ∀ n, n ∈ c → hash_hkey n = hk → cmp (hash_key n) k ≠ 0.
Proof.
  induction c as [|n0 c IH]; simpl; [set_solver|].
  destruct (hash_hkey n0 =? hk) eqn:E1, (cmp (hash_key n0) k =? 0) eqn:E2; simpl;
    intros Hf n [->|Hn]%elem_of_cons; try done; try lia; by apply IH.
Qed.

Lemma hash_lookup_spec h k : hash_wf h → hash_lookup h k = Some (habs h !! k).
Proof.
  intros W. unfold hash_lookup.
  destruct (chain_of_get h (hash_function h k) W) as (c & -> & Hc). simpl. f_equal.
  symmetry. destruct (chain_find _ _ k c) as [n|] eqn:E.
  - apply chain_find_Some in E as [Hn Hk]. apply (wf_cmp h W) in Hk.
    apply habs_Some; [done|]. split; [|done]. apply elem_of_nodes. eauto.
  - apply habs_None; [done|]. intros n Hn Hk.
    destruct (node_chain h n W Hn) as (c' & Hc' & Hin & Heq).
    rewrite Heq, Hk, Hc in Hc'. simplify_eq.
    eapply chain_find_None in E; [|done|done]. by apply E, (wf_cmp h W).
Qed.

(** ** [hash_verify] accepts exactly the tables the invariant describes *)

Lemma verify_chain_ok h i c :
  hash_wf h → chains h !! i = Some c → verify_chain (hash_mask h) i c = true.
Proof.
  intros W Hc. unfold verify_chain. apply forallb_forall.
  intros n Hn%list_elem_of_In. destruct (wf_place h W i c n Hc Hn) as [_ Hi]. lia.
Qed.

Lemma concat_take_S {A} (ls : list (list A)) i l :
  ls !! i = Some l → concat (take (S i) ls) = concat (take i ls) ++ l.
Proof.
  intros Hl. rewrite (take_S_r _ _ _ Hl), concat_app. simpl. by rewrite app_nil_r.
Qed.

Lemma length_nodes_small h : hash_wf h → Z.of_nat (length (nodes h)) < 2 ^ 64.
Proof. intros W. rewrite <- (wf_count h W). pose proof (wf_max h W). lia. Qed.

Lemma wf_hash_verify h : hash_wf h → hash_verify h = Some true.
Proof.
  intros W. unfold hash_verify.
  replace (hash_dynamic h && _) with false.
  2: { destruct (hash_dynamic h) eqn:D; [|done]. simpl.
       destruct (wf_marks h W D) as (Hh & Hl & Hi).
       destruct (wf_pow h W) as (b & Hb & Hn).
       rewrite Hh, Hl, Hn, <- Z.pow_succ_r by lia.
       replace (2 ^ b / 2) with (2 ^ (b - 1)) by (apply half_pow; lia).
       rewrite !is_power_of_two_pow by lia. simpl. rewrite !orb_false_r.
       symmetry. apply Z.leb_gt. apply Z.pow_lt_mono_r; lia. }
  destruct (for_loop_inv
    (λ i acc, acc = Some (wrap64 (Z.of_nat (length (concat (take i (chains h)))))))
    (λ i (acc : option Z),
       match acc with
       | None => Some None
       | Some count =>
           c ← hash_table h !! i;
           Some (if verify_chain (hash_mask h) i c
                 then Some (wrap64 (count + Z.of_nat (length c))) else None)
       end) (nslots h) 0 (Some 0)) as (r & Hr & HP).
  - done.
  - intros j t Hj ->. rewrite chains_lookup by (done || lia).
    destruct (lookup_lt_is_Some_2 (chains h) j) as [c Hc].
    { rewrite length_chains by done. lia. }
    rewrite Hc. simpl. rewrite verify_chain_ok by done. eexists; split; [done|].
    f_equal. rewrite (concat_take_S _ _ _ Hc), length_app, Nat2Z.inj_add.
    unfold wrap. by rewrite Z.add_mod_idemp_l.
  - rewrite Hr. simpl. rewrite HP, take_ge by (rewrite length_chains by done; lia).
    fold (nodes h). rewrite wrap_small by (pose proof (length_nodes_small h W); lia).
    by rewrite (wf_count h W), Z.eqb_refl.
Qed.

Lemma wf_assert_verify h : hash_wf h → assert_verify h = Some h.
Proof. intros W. unfold assert_verify. by rewrite wf_hash_verify. Qed.

(** ** Growing *)

Lemma split_chain_perm bit c low high :
  (split_chain bit c low high).1 ++ (split_chain bit c low high).2 ≡ₚ c ++ low ++ high.
Proof.
  revert low high. induction c as [|n c IH]; intros low high; simpl; [done|].
  destruct (Z.land (hash_hkey n) bit =? 0); rewrite IH; simpl;
    rewrite <- ?Permutation_middle; done.
Qed.

Lemma split_chain_bits bit c low high n :
  (n ∈ (split_chain bit c low high).1 →
     n ∈ low ∨ n ∈ c ∧ Z.land (hash_hkey n) bit = 0) ∧
  (n ∈ (split_chain bit c low high).2 →
     n ∈ high ∨ n ∈ c ∧ Z.land (hash_hkey n) bit ≠ 0).
Proof.
  revert low high. induction c as [|n0 c IH]; intros low high; simpl; [tauto|].
  destruct (Z.land (hash_hkey n0) bit =? 0) eqn:E;
    [destruct (IH (n0 :: low) high) as [I1 I2]|destruct (IH low (n0 :: high)) as [I1 I2]];
    rewrite !elem_of_cons in *; split; intros Hin;
    try (destruct (I1 Hin) as [[->|]|[]]); try (destruct (I2 Hin) as [[->|]|[]]);
    try (destruct (I1 Hin) as [|[]]); try (destruct (I2 Hin) as [|[]]);
    try (right; split; [by left|lia]); auto.
Qed.

(** The two halves of the grown table. *)
Definition low_half (bit : Z) (cs : list (list (hnode K V))) : list (list (hnode K V)) :=
  (λ c, (split_chain bit c [] []).1) <$> cs.
Definition high_half (bit : Z) (cs : list (list (hnode K V))) : list (list (hnode K V)) :=
  (λ c, (split_chain bit c [] []).2) <$> cs.

Lemma halves_perm bit cs : concat (low_half bit cs ++ high_half bit cs) ≡ₚ concat cs.
Proof.
  rewrite concat_app. induction cs as [|c cs IH]; simpl; [done|].
  rewrite <- IH. pose proof (split_chain_perm bit c [] []) as Hp.
  rewrite !app_nil_r in Hp. rewrite <- Hp at 3. solve_Permutation.
Qed.

(** The loop invariant of [grow_table]: below [i] the two halves hold the
    split chains, from [i] on the lower half is untouched. *)
Definition grow_inv (bit : Z) (cs : list (list (hnode K V))) (i : nat)
    (t : list (list (hnode K V))) : Prop :=
  length t = (length cs + length cs)%nat ∧
  ∀ j, (j < length cs)%nat →
    t !! j = (if (j <? i)%nat then low_half bit cs !! j else cs !! j) ∧
    ((j < i)%nat → t !! (j + length cs)%nat = high_half bit cs !! j).

Lemma grow_chain_step bit cs i t :
  (i < length cs)%nat → grow_inv bit cs i t →
  ∃ t', grow_chain bit (length cs) i t = Some t' ∧ grow_inv bit cs (S i) t'.
Proof.
  intros Hi [Hlen Hj]. unfold grow_chain.
  destruct (Hj i Hi) as [Hti _]. rewrite Nat.ltb_irrefl in Hti.
  destruct (lookup_lt_is_Some_2 cs i Hi) as [c Hc]. rewrite Hti, Hc. simpl.
  replace (i + length cs <? length t)%nat with true by (symmetry; apply Nat.ltb_lt; lia).
  simpl. destruct (split_chain bit c [] []) as [low high] eqn:Es.
  eexists; split; [done|]. split; [by rewrite !length_insert|].
  intros j Hjl. destruct (Hj j Hjl) as [H1 H2].
  rewrite !list_lookup_insert_ne with (i := (i + length cs)%nat) by lia.
  destruct (decide (j = i)) as [->|Hne].
  - rewrite list_lookup_insert_eq by lia.
    rewrite (list_lookup_insert_eq _ (i + length cs)) by (rewrite length_insert; lia).
    replace (i <? S i)%nat with true by (symmetry; apply Nat.ltb_lt; lia).
    unfold low_half, high_half. by rewrite !list_lookup_fmap, Hc; simpl; rewrite Es.
  - rewrite !list_lookup_insert_ne by lia. rewrite H1. split.
    + destruct (Nat.ltb_spec j i), (Nat.ltb_spec j (S i)); (done || lia).
    + intros. apply H2. lia.
Qed.

Lemma grow_loop bit cs :
  for_loop (length cs) 0 (grow_chain bit (length cs)) (cs ++ replicate (length cs) [])
    = Some (low_half bit cs ++ high_half bit cs).
Proof.
  destruct (for_loop_inv (grow_inv bit cs) (grow_chain bit (length cs)) (length cs) 0
              (cs ++ replicate (length cs) [])) as (t & Ht & Hlen & Hj).
  - split; [by rewrite length_app, length_replicate|].
    intros j Hj. rewrite lookup_app_l by done. split; [done|lia].
  - intros j t Hj. apply grow_chain_step. lia.
  - rewrite Ht. f_equal. simpl in Hj.
    assert (Hl1 : length (low_half bit cs) = length cs) by apply length_fmap.
    assert (Hl2 : length (high_half bit cs) = length cs) by apply length_fmap.
    apply list_eq. intros j.
    destruct (decide (j < length cs)%nat) as [Hlt|Hge].
    + destruct (Hj j Hlt) as [-> _]. rewrite lookup_app_l by lia.
      destruct (Nat.ltb_spec j (length cs)); (done || lia).
    + rewrite lookup_app_r, Hl1 by lia.
      destruct (decide (j < length cs + length cs)%nat) as [Hlt2|].
      * destruct (Hj (j - length cs)%nat) as [_ H2]; [lia|].
        rewrite <- H2 by lia. f_equal. lia.
      * rewrite !lookup_ge_None_2; [done|lia|lia].
Qed.

(** Nodes of the grown table sit in the chain the wider mask selects. *)
Lemma halves_place h b i c n :
  hash_wf h → 0 ≤ b → hash_nchains h = 2 ^ b →
  (low_half (2 ^ b) (chains h) ++ high_half (2 ^ b) (chains h)) !! i = Some c → n ∈ c →
  hash_hkey n = hash_function h (hash_key n) ∧
  Z.land (hash_hkey n) (2 ^ (b + 1) - 1) = Z.of_nat i.
Proof.
  intros W Hb Hn Hi Hin. rewrite land_mask, mod_exposed by lia.
  assert (Hl : length (chains h) = Z.to_nat (2 ^ b)).
  { rewrite length_chains by done. unfold nslots. by rewrite Hn. }
  unfold low_half, high_half in Hi.
  apply lookup_app_Some in Hi as [Hi|[Hge Hi]]; [|rewrite length_fmap in *];
    apply list_lookup_fmap_Some in Hi as (c0 & -> & Hc0);
    apply split_chain_bits in Hin as [[]%not_elem_of_nil|[Hin Hbit]];
    destruct (wf_place h W _ _ _ Hc0 Hin) as [Hk Hi]; (split; [done|]);
    rewrite (wf_mask h W), Hn, land_mask in Hi by lia.
  - rewrite Hbit, Z.eqb_refl. lia.
  - apply Z.eqb_neq in Hbit. rewrite Hbit. lia.
Qed.

Lemma pow_double (b : Z) : 0 ≤ b → 2 ^ (b + 1) = 2 * 2 ^ b.
Proof. intros. rewrite <- Z.pow_succ_r by lia. f_equal. Qed.

Lemma pow_half (b : Z) : 1 ≤ b → 2 ^ b = 2 * (2 ^ b / 2).
Proof. intros. rewrite <- half_pow, <- pow_double by lia. f_equal. lia. Qed.

Lemma grow_marks h b :
  hash_wf h → hash_dynamic h = true → 1 ≤ b < 62 → hash_nchains h = 2 ^ b →
  wrap64 (hash_highmark h * 2) = 2 * 2 ^ (b + 1) ∧
  wrap64 (hash_lowmark h * 2) = 2 ^ (b + 1) / 2 ∧ INIT_SIZE ≤ 2 ^ (b + 1).
Proof.
  intros W D Hb Hn. destruct (wf_marks h W D) as (Hh & Hlo & Hi).
  assert (2 ^ b < 2 ^ 62) by (apply Z.pow_lt_mono_r; lia).
  pose proof (pow_half b ltac:(lia)) as Hhalf.
  rewrite Hh, Hlo, Hn, pow_double in * by lia.
  rewrite (Z.mul_comm 2 (2 ^ b)), Z.div_mul, !wrap_small by lia. lia.
Qed.

(** Doubling a well-formed table gives a well-formed table with the same
    nodes. *)
Lemma grow_table_spec ok h :
  hash_wf h → hash_nchains h < 2 ^ 62 →
  ∃ h', grow_table ok h = Some h' ∧ hash_wf h' ∧ nodes h' ≡ₚ nodes h ∧
    hash_function h' = hash_function h ∧ hash_nodecount h' = hash_nodecount h ∧
    hash_maxcount h' = hash_maxcount h ∧ hash_freenode h' = hash_freenode h ∧
    hash_nchains h' = (if ok then 2 * hash_nchains h else hash_nchains h).
Proof.
  intros W Hsmall. destruct (wf_pow h W) as (b & Hb & Hn).
  assert (b < 62) by (apply (Z.pow_lt_mono_r_iff 2); lia).
  pose proof (pow_double b ltac:(lia)) as Hs.
  unfold grow_table. rewrite Hn, (wrap_small 64 (2 * 2 ^ b)) by lia.
  replace (2 ^ b <? 2 * 2 ^ b) with true by (symmetry; apply Z.ltb_lt; lia). simpl.
  destruct ok; simpl; [|rewrite wf_assert_verify by done; eauto 20].
  rewrite (wf_mask h W), Hn, grow_mask, exposed_bit by lia.
  replace (2 ^ (b + 1) - 1 =? 2 ^ b - 1) with false by (symmetry; apply Z.eqb_neq; lia).
  simpl. fold (chains h). rewrite <- (length_chains h W), grow_loop. simpl.
  set (h' := set_size _ _ _ _ _ h).
  assert (Hnc : hash_nchains h' = 2 ^ (b + 1)) by (unfold h'; simpl; rewrite wrap_small; lia).
  assert (Hlen : length (hash_table h') = nslots h').
  { unfold nslots. rewrite Hnc. unfold h'; simpl. unfold low_half, high_half.
    rewrite length_app, !length_fmap, length_chains by done. unfold nslots. rewrite Hn. lia. }
  assert (Hch : chains h' = hash_table h') by (unfold chains; rewrite take_ge; [done|lia]).
  assert (Hp : nodes h' ≡ₚ nodes h) by (unfold nodes; rewrite Hch; apply halves_perm).
  assert (W' : hash_wf h').
  { constructor; try apply W; try (rewrite Hp; apply W).
    - exists (b + 1). split; [lia|done].
    - rewrite Hnc. done.
    - lia.
    - intros D. rewrite Hnc. apply grow_marks; (done || lia).
    - intros i c n Hi Hin. rewrite Hch in Hi.
      exact (halves_place h b i c n W ltac:(lia) Hn Hi Hin). }
  rewrite wf_assert_verify by exact W'. exists h'.
  do 7 (split; [done|]). rewrite Hnc. lia.
Qed.

(** ** Shrinking *)

Definition shrink_inv (cs : list (list (hnode K V))) (n i : nat)
    (t : list (list (hnode K V))) : Prop :=
  length t = length cs ∧
  ∀ j, t !! j = (if (j <? i)%nat then zip_with (++) (take n cs) (take n (drop n cs)) !! j else cs !! j).

Lemma zip_halves_lookup (cs : list (list (hnode K V))) (n i : nat) low high :
  (i < n)%nat → cs !! i = Some low → cs !! (i + n)%nat = Some high →
  zip_with (++) (take n cs) (take n (drop n cs)) !! i = Some (low ++ high).
Proof.
  intros Hi H1 H2. apply lookup_zip_with_Some. exists low, high.
  rewrite !lookup_take_lt, lookup_drop, (Nat.add_comm n i) by done. done.
Qed.

Lemma shrink_chain_step cs (n i : nat) t :
  (n + n ≤ length cs)%nat → (i < n)%nat → shrink_inv cs n i t →
  ∃ t', shrink_chain n i t = Some t' ∧ shrink_inv cs n (S i) t'.
Proof.
  intros Hlen Hi [Hl Hj]. unfold shrink_chain. rewrite !Hj, Nat.ltb_irrefl.
  replace (i + n <? i)%nat with false by (symmetry; apply Nat.ltb_ge; lia).
  destruct (lookup_lt_is_Some_2 cs i) as [low Hlow]; [lia|].
  destruct (lookup_lt_is_Some_2 cs (i + n)) as [high Hhigh]; [lia|].
  rewrite Hlow, Hhigh. simpl. eexists; split; [done|].
  pose proof (zip_halves_lookup cs n i low high Hi Hlow Hhigh) as Hz.
  assert (Ht : ∀ l, l = low ++ high → shrink_inv cs n (S i) (<[i := l]> t)).
  { intros l ->. split; [by rewrite length_insert|]. intros j.
    destruct (decide (j = i)) as [->|Hne].
    - rewrite list_lookup_insert_eq by lia.
      replace (i <? S i)%nat with true by (symmetry; apply Nat.ltb_lt; lia). done.
    - rewrite list_lookup_insert_ne, Hj by done.
      destruct (Nat.ltb_spec j i), (Nat.ltb_spec j (S i)); (done || lia). }
  destruct low as [|a low]; [destruct high as [|a high]|]; [|by apply Ht|by apply Ht].
  replace t with (<[i := []]> t); [by apply Ht|].
  apply list_insert_id. rewrite Hj, Nat.ltb_irrefl. done.
Qed.

Lemma shrink_loop (cs : list (list (hnode K V))) (n : nat) :
  (n + n ≤ length cs)%nat →
  ∃ t, for_loop n 0 (shrink_chain n) cs = Some t ∧ length t = length cs ∧
       take n t = zip_with (++) (take n cs) (take n (drop n cs)).
Proof.
  intros Hlen.
  destruct (for_loop_inv (shrink_inv cs n) (shrink_chain n) n 0 cs) as (t & Ht & Hl & Hj).
  - split; [done|]. done.
  - intros j t Hj. apply shrink_chain_step; lia.
  - exists t. split; [done|]. split; [done|]. apply list_eq. intros j.
    destruct (decide (j < n)%nat).
    + rewrite lookup_take_lt, Hj by done. simpl.
      destruct (Nat.ltb_spec j n); (done || lia).
    + rewrite !lookup_ge_None_2; [done| |]; rewrite ?length_zip_with, !length_take; lia.
Qed.

Lemma concat_zip_app {A} (l1 l2 : list (list A)) :
  length l1 = length l2 → concat (zip_with (++) l1 l2) ≡ₚ concat l1 ++ concat l2.
Proof.
  revert l2. induction l1 as [|x l1 IH]; intros [|y l2] Hl; simplify_eq/=; [done|].
  rewrite IH by done. solve_Permutation.
Qed.

(** A node of the shrunk table sits in the chain the narrower mask selects. *)
Lemma shrink_place h b (n : nat) i c (nd : hnode K V) :
  hash_wf h → 0 ≤ b → hash_nchains h = 2 ^ (b + 1) → n = Z.to_nat (2 ^ b) →
  zip_with (++) (take n (chains h)) (drop n (chains h)) !! i = Some c → nd ∈ c →
  hash_hkey nd = hash_function h (hash_key nd) ∧
  Z.land (hash_hkey nd) (2 ^ b - 1) = Z.of_nat i.
Proof.
  intros W Hb Hn -> Hi Hin. rewrite land_mask by done.
  assert (Hmask : ∀ j c', chains h !! j = Some c' → nd ∈ c' →
    hash_hkey nd = hash_function h (hash_key nd) ∧
    hash_hkey nd `mod` 2 ^ b = Z.of_nat j `mod` 2 ^ b).
  { intros j c' Hc' Hnd. destruct (wf_place h W j c' nd Hc' Hnd) as [Hk Hj].
    split; [done|]. rewrite (wf_mask h W), Hn, land_mask in Hj by lia.
    rewrite <- Hj, pow_double by lia.
    by rewrite (Z.mul_comm 2), Z.rem_mul_r, Z.mul_comm, Z.mod_add, Z.mod_mod by lia. }
  apply lookup_zip_with_Some in Hi as (low & high & -> & Hlow & Hhigh).
  assert (Hlt : (i < Z.to_nat (2 ^ b))%nat).
  { apply lookup_lt_Some in Hlow. rewrite length_take in Hlow. lia. }
  rewrite lookup_take_lt in Hlow by done. rewrite lookup_drop in Hhigh.
  apply elem_of_app in Hin as [Hin|Hin];
    [destruct (Hmask _ _ Hlow Hin) as [Hk ->]|destruct (Hmask _ _ Hhigh Hin) as [Hk ->]];
    (split; [done|]).
  - apply Z.mod_small. lia.
  - rewrite Nat2Z.inj_add, Z2Nat.id by lia.
    rewrite <- (Z.mul_1_l (2 ^ b)) at 1. rewrite Z.add_comm, Z.mod_add by lia.
    apply Z.mod_small. lia.
Qed.

(** Halving a well-formed table of more than [INIT_SIZE] chains gives a
    well-formed table with the same nodes. *)
Lemma shrink_table_spec ok h :
  hash_wf h → hash_dynamic h = true → INIT_SIZE < hash_nchains h →
  ∃ h', shrink_table ok h = Some h' ∧ hash_wf h' ∧ nodes h' ≡ₚ nodes h ∧
    hash_function h' = hash_function h ∧ hash_nodecount h' = hash_nodecount h ∧
    hash_maxcount h' = hash_maxcount h ∧ hash_freenode h' = hash_freenode h ∧
    hash_nchains h' = hash_nchains h / 2.
Proof.
  intros W D Hbig. destruct (wf_pow h W) as (b1 & Hb & Hn).
  rewrite INIT_SIZE_val in Hbig.
  assert (Hb6 : 6 < b1) by (apply (Z.pow_lt_mono_r_iff 2); lia).
  destruct (wf_marks h W D) as (Hh & Hlo & _).
  assert (∃ b, b1 = b + 1) as [b ->] by (exists (b1 - 1); lia).
  pose proof (pow_double b ltac:(lia)) as Hs.
  assert (Hhalf : hash_nchains h / 2 = 2 ^ b) by (rewrite Hn, Hs, Z.mul_comm, Z.div_mul; lia).
  assert (64 ≤ 2 ^ b) by (change 64 with (2 ^ 6); apply Z.pow_le_mono_r; lia).
  unfold shrink_table. rewrite Hhalf.
  replace (2 <=? hash_nchains h) with true by (symmetry; apply Z.leb_le; lia). simpl.
  assert (Hns : nslots h = (Z.to_nat (2 ^ b) + Z.to_nat (2 ^ b))%nat) by (unfold nslots; lia).
  destruct (shrink_loop (hash_table h) (Z.to_nat (2 ^ b))) as (t & -> & Hlen & Htake).
  { pose proof (wf_len h W). lia. }
  simpl. set (h' := set_size _ _ _ _ _ h).
  assert (Hch : chains h' = zip_with (++) (take (Z.to_nat (2 ^ b)) (chains h))
                              (drop (Z.to_nat (2 ^ b)) (chains h))).
  { unfold chains at 1. replace (take (nslots h') (hash_table h')) with (take (Z.to_nat (2 ^ b)) t)
      by (unfold h'; destruct ok; simpl; rewrite ?take_take; f_equal; unfold nslots; simpl; lia).
    rewrite Htake. unfold chains. rewrite Hns, take_take, take_drop_commute.
    f_equal. f_equal. lia. }
  assert (Hm : hash_mask h' = 2 ^ b - 1).
  { unfold h'; simpl. rewrite (wf_mask h W), Hn, Hs, Z.shiftr_div_pow2 by lia.
    change (2 ^ 1) with 2. symmetry. apply (Z.div_unique _ _ _ 1); lia. }
  assert (Hp : nodes h' ≡ₚ nodes h).
  { unfold nodes. rewrite Hch, concat_zip_app, <- concat_app, take_drop; [done|].
    rewrite length_take, length_drop, length_chains by done. lia. }
  assert (W' : hash_wf h').
  { constructor; try apply W; try (rewrite Hp; apply W).
    - exists b. split; [lia|done].
    - done.
    - pose proof (wf_len h W). unfold h', nslots in *; destruct ok; simpl;
        rewrite ?length_take; lia.
    - intros _. unfold h'; simpl. rewrite Hh, Hlo, Hn, Hs, INIT_SIZE_val.
      rewrite (Z.mul_comm 2 (2 * 2 ^ b)), (Z.mul_comm 2 (2 ^ b)), !Z.div_mul by lia. lia.
    - intros i c n Hi Hin. rewrite Hch in Hi. rewrite Hm.
      exact (shrink_place h b _ i c n W ltac:(lia) Hn eq_refl Hi Hin). }
  rewrite wf_assert_verify by exact W'. exists h'. by do 7 (split; [done|]).
Qed.

(** ** Replacing one chain *)

Definition with_chain (i : nat) (c : list (hnode K V)) (cnt : Z) h : hash_t K V :=
  set_nodecount cnt (set_table (<[i := c]> (hash_table h)) h).

Lemma with_chain_chains i c cnt h :
  (i < nslots h)%nat → chains (with_chain i c cnt h) = <[i := c]> (chains h).
Proof. intros. exact (chains_insert h i c ltac:(done)). Qed.

Lemma with_chain_wf i c0 c cnt h :
  hash_wf h → chains h !! i = Some c0 →
  (∀ n, n ∈ c → n ∈ c0 ∨
     hash_hkey n = hash_function h (hash_key n) ∧ chain_of h (hash_hkey n) = i) →
  cnt = Z.of_nat (length (nodes (with_chain i c cnt h))) → cnt ≤ hash_maxcount h →
  NoDup (hash_key <$> nodes (with_chain i c cnt h)) →
  NoDup (hash_addr <$> nodes (with_chain i c cnt h)) →
  hash_wf (with_chain i c cnt h).
Proof.
  intros W Hi Hc Hcnt Hmax Hk Ha.
  assert (Hlt : (i < nslots h)%nat).
  { rewrite <- length_chains by done. by eapply lookup_lt_Some. }
  constructor; try apply W; try done.
  - simpl. rewrite length_insert. apply W.
  - intros j c' n Hj Hn. rewrite with_chain_chains in Hj by done. simpl.
    destruct (decide (i = j)) as [<-|Hne].
    + rewrite list_lookup_insert_eq in Hj by (rewrite length_chains; done). simplify_eq.
      destruct (Hc n Hn) as [Hold|[Hk' Hch]]; [by eapply (wf_place h W)|].
      split; [done|]. rewrite <- Hch. unfold chain_of.
      rewrite Z2Nat.id; [done|]. destruct (wf_pow h W) as (b & Hb & Hn').
      rewrite (wf_mask h W), Hn', land_mask by lia.
      pose proof (Z.mod_pos_bound (hash_hkey n) (2 ^ b)). lia.
    + rewrite list_lookup_insert_ne in Hj by done. by eapply (wf_place h W).
  - simpl. split; [done|]. apply W.
Qed.

(** ** Insertion *)

Lemma nodes_with_cons i c n cnt h :
  hash_wf h → chains h !! i = Some c → (i < nslots h)%nat →
  nodes (with_chain i (n :: c) cnt h) ≡ₚ n :: nodes h.
Proof.
  intros W Hc Hi. unfold nodes. rewrite with_chain_chains by done.
  by apply concat_insert_perm.
Qed.

(** Linking a fresh node into its chain. *)
Lemma link_node_spec h a d k :
  hash_wf h → habs h !! k = None → a ∉ hash_addr <$> nodes h →
  hash_nodecount h < hash_maxcount h →
  let hk := hash_function h k in
  let nd := Hnode a k d hk in
  ∃ c, hash_table h !! chain_of h hk = Some c ∧
    let h' := with_chain (chain_of h hk) (nd :: c) (wrap64 (hash_nodecount h + 1)) h in
    hash_wf h' ∧ habs h' = <[k := nd]> (habs h) ∧
    hash_nodecount h' = hash_nodecount h + 1 ∧ nodes h' ≡ₚ nd :: nodes h.
Proof.
  intros W Hnone Ha Hmax hk nd.
  destruct (chain_of_get h hk W) as (c & Ht & Hc). exists c. split; [done|].
  pose proof (chain_of_lt h hk W) as Hi.
  pose proof (nodes_with_cons _ c nd (wrap64 (hash_nodecount h + 1)) h W Hc Hi) as Hp.
  intros h'. fold h' in Hp. pose proof (wf_max h W). pose proof (wf_count h W) as Hcount.
  assert (Hcnt : wrap64 (hash_nodecount h + 1) = hash_nodecount h + 1)
    by (apply wrap_small; lia).
  assert (Hkeys : NoDup (hash_key <$> nd :: nodes h)).
  { simpl. constructor; [|apply W]. intros (n & Hk & Hn)%list_elem_of_fmap.
    by apply (proj1 (habs_None h k W) Hnone n Hn). }
  assert (W' : hash_wf h').
  { apply with_chain_wf with c; try done.
    - intros n [->|Hn]%elem_of_cons; [right|by left]. done.
    - fold h'. rewrite Hp, Hcnt. simpl. lia.
    - lia.
    - fold h'. by rewrite Hp.
    - fold h'. rewrite Hp. simpl. constructor; [done|apply W]. }
  split; [done|]. split; [|split; [by rewrite <- Hcnt|done]].
  unfold habs. rewrite (nodes_perm_habs (nodes h') (nd :: nodes h)); [done|apply W'|done].
Qed.

Lemma habs_perm h h' :
  hash_wf h' → nodes h' ≡ₚ nodes h → habs h' = habs h.
Proof. intros W Hp. apply nodes_perm_habs; [apply W|done]. Qed.

Lemma hash_insert_spec ok h a d k :
  hash_wf h → habs h !! k = None → a ∉ hash_addr <$> nodes h →
  hash_nodecount h < hash_maxcount h → hash_nodecount h < 2 ^ 62 →
  ∃ h', hash_insert ok h a d k = Some h' ∧ hash_wf h' ∧
    habs h' = <[k := Hnode a k d (hash_function h k)]> (habs h) ∧
    hash_nodecount h' = hash_nodecount h + 1 ∧
    nodes h' ≡ₚ Hnode a k d (hash_function h k) :: nodes h ∧
    hash_maxcount h' = hash_maxcount h.
Proof.
  intros W Hnone Ha Hmax Hsmall. unfold hash_insert.
  replace (hash_nodecount h <? hash_maxcount h) with true by (symmetry; apply Z.ltb_lt; lia).
  simpl. rewrite (hash_lookup_spec h k W), Hnone. simpl.
  assert (∃ h1, (if hash_dynamic h && (hash_highmark h <=? hash_nodecount h)
                 then grow_table ok h else Some h) = Some h1 ∧ hash_wf h1 ∧
            nodes h1 ≡ₚ nodes h ∧ hash_function h1 = hash_function h ∧
            hash_nodecount h1 = hash_nodecount h ∧ hash_maxcount h1 = hash_maxcount h)
    as (h1 & -> & W1 & Hp & Hf & Hnc & Hmx).
  { destruct (hash_dynamic h && _) eqn:E; [|by eauto 10].
    apply andb_prop in E as [D E%Z.leb_le].
    destruct (wf_marks h W D) as (Hh & _ & _).
    destruct (grow_table_spec ok h W) as (h1 & ? & ? & ? & ? & ? & ? & _); [lia|eauto 10]. }
  simpl. rewrite <- Hf in *.
  destruct (link_node_spec h1 a d k W1) as (c & -> & W' & Habs & Hcnt & Hn).
  - by rewrite (habs_perm h h1).
  - by rewrite Hp.
  - lia.
  - simpl. fold (with_chain (chain_of h1 (hash_function h1 k))
      (Hnode a k d (hash_function h1 k) :: c) (wrap64 (hash_nodecount h1 + 1)) h1).
    rewrite wf_assert_verify by done. eexists. split; [done|]. split; [done|].
    by rewrite Habs, (habs_perm h h1), Hcnt, Hn, Hp, Hnc by done.
Qed.

(** ** Deletion *)

Lemma chain_unlink_spec n c :
  NoDup (hash_addr <$> c) → n ∈ c →
  ∃ l1 l2, c = l1 ++ n :: l2 ∧ chain_unlink (hash_addr n) c = Some (l1 ++ l2).
Proof.
  induction c as [|n0 c IH]; simpl; intros Hnd Hn; [by apply not_elem_of_nil in Hn|].
  apply NoDup_cons in Hnd as [Hn0 Hnd].
  destruct (decide (hash_addr n0 = hash_addr n)) as [Heq|Hne].
  - apply elem_of_cons in Hn as [->|Hn]; [by exists [], c|].
    destruct Hn0. rewrite Heq. by apply list_elem_of_fmap_2.
  - apply elem_of_cons in Hn as [->|Hn]; [done|].
    destruct (IH Hnd Hn) as (l1 & l2 & -> & ->). by exists (n0 :: l1), l2.
Qed.

Lemma NoDup_chain_addrs h i c :
  hash_wf h → chains h !! i = Some c → NoDup (hash_addr <$> c).
Proof.
  intros W Hc. pose proof (wf_addrs h W) as Hnd. unfold nodes in Hnd.
  rewrite <- (take_drop_middle (chains h) i c Hc), concat_app in Hnd. simpl in Hnd.
  rewrite !fmap_app in Hnd. apply NoDup_app in Hnd as (_ & _ & Hnd).
  by apply NoDup_app in Hnd as [? _].
Qed.

Lemma unlink_node_spec h n :
  hash_wf h → n ∈ nodes h →
  ∃ l1 l2, let i := chain_of h (hash_hkey n) in
    chains h !! i = Some (l1 ++ n :: l2) ∧
    let h' := with_chain i (l1 ++ l2) (wrap64 (hash_nodecount h - 1)) h in
    unlink_node h n = Some h' ∧ hash_wf h' ∧ habs h' = delete (hash_key n) (habs h) ∧
    nodes h ≡ₚ n :: nodes h' ∧ hash_nodecount h' = hash_nodecount h - 1.
Proof.
  intros W Hn. destruct (node_chain h n W Hn) as (c & Hc & Hin & Hk).
  destruct (chain_unlink_spec n c) as (l1 & l2 & -> & Hu);
    [by eapply NoDup_chain_addrs|done|].
  exists l1, l2. intros i. split; [done|]. intros h'.
  pose proof (chain_of_lt h (hash_hkey n) W) as Hi. fold i in Hi, Hc.
  assert (Hp : nodes h ≡ₚ n :: nodes h').
  { unfold h', nodes. rewrite with_chain_chains by done.
    eapply concat_insert_del_perm; [done|solve_Permutation]. }
  pose proof (wf_max h W). pose proof (wf_count h W) as Hcount.
  assert (Hlen : length (nodes h) = S (length (nodes h'))) by (by rewrite Hp).
  assert (Hcnt : wrap64 (hash_nodecount h - 1) = hash_nodecount h - 1)
    by (apply wrap_small; lia).
  pose proof (wf_keys h W) as Hkeys. rewrite Hp in Hkeys. simpl in Hkeys.
  pose proof (wf_addrs h W) as Haddrs. rewrite Hp in Haddrs. simpl in Haddrs.
  apply NoDup_cons in Hkeys as [Hk1 Hk2]. apply NoDup_cons in Haddrs as [Ha1 Ha2].
  assert (W' : hash_wf h').
  { apply with_chain_wf with (l1 ++ n :: l2); try done.
    - intros n' Hn'. left. set_solver.
    - fold h'. lia.
    - lia. }
  split; [|split; [done|]]; [|split; [|split; [done|by rewrite <- Hcnt]]].
  - unfold unlink_node. fold i. rewrite chains_lookup, Hc by done. simpl. rewrite Hu. simpl.
    fold (with_chain i (l1 ++ l2) (wrap64 (hash_nodecount h - 1)) h).
    by apply wf_assert_verify.
  - unfold habs. rewrite (nodes_perm_habs (nodes h) (n :: nodes h')) by (apply W || done).
    simpl. rewrite delete_insert_id; [done|].
    apply not_elem_of_list_to_map_1. by rewrite habs_keys.
Qed.

Lemma assert_is_node_ok h n : hash_wf h → n ∈ nodes h → assert_is_node h n = Some tt.
Proof.
  intros W Hn. unfold assert_is_node. rewrite (hash_lookup_spec h _ W).
  rewrite (proj2 (habs_Some h (hash_key n) n W)) by done. simpl.
  by rewrite bool_decide_true.
Qed.

Lemma hash_delete_spec ok h n :
  hash_wf h → habs h !! hash_key n = Some n →
  ∃ h', hash_delete ok h n = Some h' ∧ hash_wf h' ∧
    habs h' = delete (hash_key n) (habs h) ∧
    hash_nodecount h' = hash_nodecount h - 1 ∧ nodes h ≡ₚ n :: nodes h'.
Proof.
  intros W [Hn _]%habs_Some; [|done]. unfold hash_delete.
  rewrite assert_is_node_ok by done. simpl.
  assert (∃ h1, (if hash_dynamic h && (hash_nodecount h <=? hash_lowmark h)
                    && (INIT_SIZE <? hash_nodecount h)
                 then shrink_table ok h else Some h) = Some h1 ∧ hash_wf h1 ∧
            nodes h1 ≡ₚ nodes h ∧ hash_nodecount h1 = hash_nodecount h)
    as (h1 & -> & W1 & Hp & Hnc).
  { destruct (_ && _ && _) eqn:E; [|by eauto 10].
    apply andb_prop in E as [[D E1%Z.leb_le]%andb_prop E2%Z.ltb_lt].
    destruct (wf_marks h W D) as (_ & Hl & _). rewrite Hl in E1.
    destruct (shrink_table_spec ok h W D) as (h1 & ? & ? & ? & ? & ? & _); [|eauto 10].
    pose proof (Z.div_le_upper_bound (hash_nchains h) 2 (hash_nchains h)).
    destruct (wf_pow h W) as (b & Hb & Hnb). lia. }
  simpl. destruct (unlink_node_spec h1 n W1) as (l1 & l2 & _ & -> & W' & Ha & Hn' & Hc).
  { by rewrite Hp. }
  eexists. split; [done|]. split; [done|].
  rewrite Ha, (habs_perm h h1) by done. rewrite Hc, Hnc, <- Hn', Hp. done.
Qed.

(** ** Scanning

    [scan_ok h s rest]: the nodes the scanner [s] still has to return are
    [rest], in this order. *)

Definition scan_ok h (s : hscan_t K V) (rest : list (hnode K V)) : Prop :=
  match rest with
  | [] => scan_next s = None
  | n :: _ =>
      scan_next s = Some n ∧
      ∃ pre suf, chains h !! scan_chain s = Some (pre ++ n :: suf) ∧
        rest = (n :: suf) ++ concat (drop (S (scan_chain s)) (chains h))
  end.

Lemma next_chain_spec (t : list (list (hnode K V))) (i : nat) :
  match next_chain t i with
  | Some (j, n) => ∃ k suf, j = (i + k)%nat ∧ t !! k = Some (n :: suf) ∧
                     concat t = n :: suf ++ concat (drop (S k) t)
  | None => concat t = []
  end.
Proof.
  revert i. induction t as [|[|n c] t IH]; intros i; simpl; [done| |].
  - specialize (IH (S i)). destruct (next_chain t (S i)) as [[j n]|]; [|done].
    destruct IH as (k & suf & -> & Hk & Hc). exists (S k), suf.
    split; [lia|]. done.
  - exists 0%nat, c. split; [lia|]. done.
Qed.

Lemma scan_from_ok h i dflt :
  scan_ok h (scan_from h i dflt) (concat (drop i (chains h))).
Proof.
  unfold scan_from. fold (chains h).
  pose proof (next_chain_spec (drop i (chains h)) i) as Hn.
  destruct (next_chain _ i) as [[j n]|]; [|by rewrite Hn].
  destruct Hn as (k & suf & -> & Hk & Hc). rewrite Hc. split; [done|].
  exists [], suf. simpl. rewrite lookup_drop in Hk. split; [done|].
  rewrite drop_drop. do 4 f_equal. lia.
Qed.

Lemma hash_scan_begin_ok chain0 h : scan_ok h (hash_scan_begin chain0 h) (nodes h).
Proof. apply (scan_from_ok h 0). Qed.

Lemma node_next_spec n (pre suf : list (hnode K V)) :
  NoDup (hash_addr <$> pre ++ n :: suf) →
  node_next (hash_addr n) (pre ++ n :: suf) = Some (head suf).
Proof.
  induction pre as [|n0 pre IH]; simpl.
  - intros _. by rewrite decide_True.
  - intros [Hn0 Hnd]%NoDup_cons. rewrite decide_False; [by apply IH|].
    intros Heq. apply Hn0. rewrite Heq. apply list_elem_of_fmap_2. set_solver.
Qed.

Lemma hash_scan_next_ok h s n rest :
  hash_wf h → scan_ok h s (n :: rest) →
  ∃ s', hash_scan_next h s = Some (Some n, s') ∧ scan_ok h s' rest.
Proof.
  intros W (Hn & pre & suf & Hc & Hr). simpl in Hr. simplify_eq.
  unfold hash_scan_next. rewrite Hn.
  rewrite chains_lookup, Hc; [|done|].
  2: { rewrite <- length_chains by done. by eapply lookup_lt_Some. }
  simpl. rewrite node_next_spec by (by eapply NoDup_chain_addrs). simpl.
  eexists. split; [done|]. destruct suf as [|n' suf]; simpl; [apply scan_from_ok|].
  split; [done|]. exists (pre ++ [n]), suf. by rewrite <- app_assoc.
Qed.

Lemma hash_scan_next_end h s : scan_ok h s [] → hash_scan_next h s = Some (None, s).
Proof. unfold scan_ok, hash_scan_next. by intros ->. Qed.

(** Unlinking a node that was already returned does not disturb the scan. *)
Lemma scan_ok_unlink h s n rest i l1 l2 cnt :
  hash_wf h → scan_ok h s rest → n ∉ rest → chains h !! i = Some (l1 ++ n :: l2) →
  scan_ok (with_chain i (l1 ++ l2) cnt h) s rest.
Proof.
  intros W Hs Hn Hi. destruct rest as [|n' rest]; [done|].
  destruct Hs as (Hs & pre & suf & Hc & Hr). split; [done|].
  assert (Hil : (i < nslots h)%nat).
  { rewrite <- length_chains by done. by eapply lookup_lt_Some. }
  rewrite with_chain_chains by done.
  assert (Hge : (i ≤ scan_chain s)%nat).
  { destruct (decide (i ≤ scan_chain s)%nat) as [|Hgt]; [done|]. destruct Hn.
    rewrite Hr. apply elem_of_app. right. apply elem_of_concat.
    exists (l1 ++ n :: l2). split; [|set_solver].
    apply list_elem_of_lookup_2 with (i - S (scan_chain s))%nat.
    rewrite lookup_drop. rewrite <- Hi. f_equal. lia. }
  rewrite drop_insert_lt by lia.
  destruct (decide (i = scan_chain s)) as [->|Hne].
  - rewrite list_lookup_insert_eq by (rewrite length_chains; done).
    rewrite Hc in Hi. injection Hi as Hi. rewrite Hr in Hn.
    assert (Hpre : n ∉ n' :: suf) by set_solver.
    assert (∃ l3, pre = l1 ++ n :: l3 ∧ l2 = l3 ++ n' :: suf) as (l3 & -> & ->).
    { by apply app_cons_split. }
    exists (l1 ++ l3), suf. by rewrite <- app_assoc.
  - rewrite list_lookup_insert_ne by done. by exists pre, suf.
Qed.

Lemma unlink_freenode h n h' : unlink_node h n = Some h' → hash_freenode h' = hash_freenode h.
Proof.
  unfold unlink_node, assert_verify. intros Hu. bind_inv Hu. by simplify_eq.
Qed.

(** One round of a scan that deletes what it returns. *)
Lemma scan_delete_ok h s n rest :
  hash_wf h → scan_ok h s rest → n ∉ rest → n ∈ nodes h →
  ∃ h', hash_scan_delete h n = Some h' ∧ hash_wf h' ∧ scan_ok h' s rest ∧
    habs h' = delete (hash_key n) (habs h) ∧ nodes h ≡ₚ n :: nodes h' ∧
    hash_freenode h' = hash_freenode h ∧ hash_nodecount h' = hash_nodecount h - 1.
Proof.
  intros W Hs Hr Hn. unfold hash_scan_delete. rewrite assert_is_node_ok by done. simpl.
  destruct (unlink_node_spec h n W Hn) as (l1 & l2 & Hc & Hu & W' & Ha & Hp & Hcnt).
  rewrite Hu. eexists. split; [done|]. split; [done|]. split.
  - by eapply scan_ok_unlink.
  - by rewrite (unlink_freenode _ _ _ Hu).
Qed.

Lemma nodes_NoDup h : hash_wf h → NoDup (nodes h).
Proof. intros W. eapply NoDup_fmap_1, (wf_addrs h W). Qed.

Lemma free_nodes_loop_ok rest : ∀ fuel h s acc,
  hash_wf h → scan_ok h s rest → nodes h ≡ₚ rest → (length rest < fuel)%nat →
  ∃ h', free_nodes_loop fuel h s acc =
          Some (h', acc ++ mjoin (freenode (hash_freenode h) <$> rest)) ∧
        hash_wf h' ∧ nodes h' = [].
Proof.
  induction rest as [|n rest IH]; intros [|fuel] h s acc W Hs Hp Hf; simpl in Hf; try lia;
    simpl.
  - rewrite hash_scan_next_end by done. simpl. rewrite app_nil_r.
    exists h. split; [done|]. split; [done|]. by apply Permutation_nil_r.
  - destruct (hash_scan_next_ok h s n rest W Hs) as (s' & -> & Hs'). simpl.
    pose proof (nodes_NoDup h W) as Hnd. rewrite Hp in Hnd.
    apply NoDup_cons in Hnd as [Hn Hnd].
    destruct (scan_delete_ok h s' n rest W Hs' Hn) as (h' & -> & W' & Hs'' & _ & Hp' & Hfr & _).
    { rewrite Hp. set_solver. }
    simpl. destruct (IH fuel h' s' (acc ++ freenode (hash_freenode h) n) W' Hs'')
      as (h'' & -> & W'' & Hn'').
    + apply (Permutation_cons_inv (a := n)). by rewrite <- Hp', Hp.
    + lia.
    + exists h''. split; [|done]. rewrite Hfr, <- app_assoc. done.
Qed.

(** ** Emptying and creating tables *)

Lemma clear_table_spec h :
  (nslots h ≤ length (hash_table h))%nat →
  ∃ t, clear_table h = Some (set_table t h) ∧ length t = length (hash_table h) ∧
       take (nslots h) t = replicate (nslots h) [].
Proof.
  intros Hlen. unfold clear_table.
  destruct (for_loop_inv
    (λ i (t : list (list (hnode K V))), length t = length (hash_table h) ∧
       take i t = replicate i [])
    (λ i t, c_assert (i <? length t)%nat ≫= λ _, Some (<[i := []]> t))
    (nslots h) 0 (hash_table h)) as (t & -> & Hl & Ht).
  - done.
  - intros j t Hj [Hl Ht].
    replace (j <? length t)%nat with true by (symmetry; apply Nat.ltb_lt; lia). simpl.
    eexists. split; [done|]. rewrite length_insert. split; [done|].
    rewrite (take_S_r _ _ []) by (rewrite list_lookup_insert_eq; [done|lia]).
    rewrite take_insert_ge, Ht by lia. by rewrite <- replicate_cons_app.
  - simpl. by exists t.
Qed.

Lemma concat_replicate_nil {A} (m : nat) : concat (replicate m ([] : list A)) = [].
Proof. by induction m. Qed.

(** A table all of whose chains were cleared, with its count reset. *)
Lemma cleared_wf h t :
  take (nslots h) t = replicate (nslots h) [] → (nslots h ≤ length t)%nat →
  (∃ b, 1 ≤ b ≤ 62 ∧ hash_nchains h = 2 ^ b) → hash_mask h = hash_nchains h - 1 →
  (hash_dynamic h = true →
    hash_highmark h = 2 * hash_nchains h ∧ hash_lowmark h = hash_nchains h / 2 ∧
    INIT_SIZE ≤ hash_nchains h) →
  hash_nodecount h = 0 → 0 ≤ hash_maxcount h < 2 ^ 64 →
  (∀ a b, hash_compare h a b = 0 ↔ a = b) → (∀ k, 0 ≤ hash_function h k < 2 ^ 64) →
  hash_wf (set_table t h) ∧ nodes (set_table t h) = [].
Proof.
  intros Ht Hlen Hpow Hmask Hmarks Hcnt Hmax Hcmp Hfun.
  assert (Hch : chains (set_table t h) = replicate (nslots h) []) by done.
  assert (Hn : nodes (set_table t h) = []) by (unfold nodes; rewrite Hch; apply concat_replicate_nil).
  split; [|done]. constructor; simpl; try done.
  - intros i c n Hi Hin. rewrite Hch in Hi. apply lookup_replicate in Hi as [-> _].
    by apply not_elem_of_nil in Hin.
  - by rewrite Hn.
  - rewrite Hn. constructor.
  - rewrite Hn. constructor.
  - lia.
Qed.

Lemma hash_create_spec fr maxcount cmp fn :
  0 ≤ maxcount < 2 ^ 64 → (∀ a b, cmp a b = 0 ↔ a = b) → (∀ k, 0 ≤ fn k < 2 ^ 64) →
  ∃ h, hash_create_with (V := V) true true fr maxcount cmp fn = Some (Some h) ∧
    hash_wf h ∧ nodes h = [] ∧ hash_freenode h = fr ∧ hash_maxcount h = maxcount ∧
    hash_function h = fn.
Proof.
  intros Hm Hcmp Hfun. unfold hash_create_with. cbn [andb].
  set (h0 := Hash _ _ _ _ _ _ _ _ _ _ _).
  destruct (clear_table_spec h0) as (t & -> & Hl & Ht).
  { done. }
  destruct (cleared_wf h0 t Ht) as [W Hn]; try done.
  - by rewrite Hl.
  - exists 6. split; [lia|done].
  - simpl. rewrite wf_assert_verify by done. eexists. split; [done|]. done.
Qed.

Lemma hash_free_nodes_spec chain0 h :
  hash_wf h →
  ∃ h', hash_free_nodes chain0 h = Some (h', mjoin (freenode (hash_freenode h) <$> nodes h)) ∧
        hash_wf h' ∧ nodes h' = [].
Proof.
  intros W. unfold hash_free_nodes.
  destruct (free_nodes_loop_ok (nodes h) (S (Z.to_nat (hash_nodecount h))) h
              (hash_scan_begin chain0 h) []) as (h1 & -> & W1 & Hn1); try done.
  - apply hash_scan_begin_ok.
  - rewrite (wf_count h W). lia.
  - simpl. destruct (clear_table_spec (set_nodecount 0 h1)) as (t & -> & Hl & Ht).
    { apply W1. }
    simpl. eexists. split; [done|]. apply cleared_wf; try apply W1; try done.
    + rewrite Hl. apply W1.
    + simpl. pose proof (wf_max h1 W1). rewrite (wf_count h1 W1) in *. lia.
Qed.

End Theory.

(** ** String keys: the default hash and comparison functions *)

Definition randbox : list Z :=
  [0x49848f1b; 0xe6255dba; 0x36da5bdc; 0x47bf94e9;
   0x8cbcce22; 0x559fc06a; 0xd268f536; 0xe10af79a;
   0xc1af4d69; 0x1d2917b5; 0xec4c304d; 0x9ee5016c;
   0x69232f74; 0xfead7bb3; 0xe9089ab6; 0xf012f6ae].

Definition randbox_at (x : Z) : Z := nth (Z.to_nat (Z.land x 0xf)) randbox 0.

Definition hash_char (acc : Z) (c : Z) : Z :=
  let acc := Z.lxor acc (randbox_at (wrap64 (c + acc))) in
  let acc := wrap64 (Z.lor (wrap64 (Z.shiftl acc 1)) (Z.shiftr acc 31)) in
  let acc := Z.land acc 0xffffffff in
  let acc := Z.lxor acc (randbox_at (wrap64 (Z.shiftr c 4 + acc))) in
  let acc := wrap64 (Z.lor (wrap64 (Z.shiftl acc 2)) (Z.shiftr acc 30)) in
  Z.land acc 0xffffffff.

Fixpoint hash_fun_loop (acc : Z) (key : string) : Z :=
  match key with
  | EmptyString => acc
  | String a key' => hash_fun_loop (hash_char acc (code a)) key'
  end.

Definition hash_fun_default (key : string) : Z := hash_fun_loop 0 key.
Definition hash_comp_default (key1 key2 : string) : Z := strcmp key1 key2.

Lemma hash_char_range acc c : 0 ≤ hash_char acc c < 2 ^ 32.
Proof.
  unfold hash_char. change 0xffffffff with (Z.ones 32).
  rewrite !Z.land_ones by lia. apply Z.mod_pos_bound. lia.
Qed.

Lemma hash_fun_default_range k : 0 ≤ hash_fun_default k < 2 ^ 64.
Proof.
  unfold hash_fun_default.
  assert (∀ acc, 0 ≤ acc < 2 ^ 32 → 0 ≤ hash_fun_loop acc k < 2 ^ 32) as Hl.
  { induction k as [|a k IH]; intros acc Hacc; simpl; [done|]. apply IH, hash_char_range. }
  specialize (Hl 0 ltac:(lia)). lia.
Qed.

(** The tables the program creates: [hash_create(HASHCOUNT_T_MAX, 0, 0)]. *)
Lemma hash_create_default {V} fr :
  ∃ h : hash_t string V,
    hash_create_with true true fr HASHCOUNT_T_MAX hash_comp_default hash_fun_default
      = Some (Some h) ∧ hash_wf h ∧ nodes h = [] ∧ hash_freenode h = fr ∧
    hash_maxcount h = HASHCOUNT_T_MAX ∧ hash_function h = hash_fun_default.
Proof.
  apply hash_create_spec.
  - unfold HASHCOUNT_T_MAX, ULONG_MAX. lia.
  - apply strcmp_eq.
  - apply hash_fun_default_range.
Qed.

(** ** Main theorems *)

Section Claims.
Context {K V : Type} `{Countable K}.
Implicit Types (h : hash_t K V) (n : hnode K V).

(** C27: [hash_insert] on a well-formed table, whether or not the [realloc] of
    a growing table succeeds, runs without a failed assertion, keeps the
    invariant, makes the new node the one its key finds and leaves the lookup
    of every other key unchanged. *)
Theorem hash_insert_refines ok h a d k :
  hash_wf h → hash_lookup h k = Some None → a ∉ hash_addr <$> nodes h →
  hash_count h < hash_maxcount h → hash_count h < 2 ^ 62 →
  ∃ h', hash_insert ok h a d k = Some h' ∧ hash_wf h' ∧
    hash_count h' = hash_count h + 1 ∧
    hash_lookup h' k = Some (Some (Hnode a k d (hash_function h k))) ∧
    ∀ k', k' ≠ k → hash_lookup h' k' = hash_lookup h k'.
Proof.
  intros W Hl Ha Hm Hs. rewrite hash_lookup_spec in Hl by done. injection Hl as Hl.
  destruct (hash_insert_spec ok h a d k W Hl Ha Hm Hs) as (h' & Hi & W' & Habs & Hc & _).
  exists h'. split; [done|]. split; [done|]. split; [done|].
  setoid_rewrite hash_lookup_spec; [|done..]. rewrite Habs. split.
  - by rewrite lookup_insert_eq.
  - intros k' Hne. by rewrite lookup_insert_ne.
Qed.

(** [hash_delete] of a node of the table, whether or not the [realloc] of
    a shrinking table succeeds, runs without a failed assertion, keeps the
    invariant, removes exactly that key, and never leaves a dynamic table
    with fewer than [INIT_SIZE] chains. *)
Theorem hash_delete_refines ok h n :
  hash_wf h → hash_lookup h (hash_key n) = Some (Some n) →
  ∃ h', hash_delete ok h n = Some h' ∧ hash_wf h' ∧
    hash_count h' = hash_count h - 1 ∧
    hash_lookup h' (hash_key n) = Some None ∧
    (∀ k', k' ≠ hash_key n → hash_lookup h' k' = hash_lookup h k') ∧
    (hash_dynamic h' = true → INIT_SIZE ≤ hash_nchains h').
Proof.
  intros W Hl. rewrite hash_lookup_spec in Hl by done. injection Hl as Hl.
  destruct (hash_delete_spec ok h n W Hl) as (h' & Hd & W' & Habs & Hc & _).
  exists h'. split; [done|]. split; [done|]. split; [done|].
  setoid_rewrite hash_lookup_spec; [|done..]. rewrite Habs. split; [|split].
  - by rewrite lookup_delete_eq.
  - intros k' Hne. by rewrite lookup_delete_ne.
  - intros D. by destruct (wf_marks h' W' D) as (_ & _ & ?).
Qed.

(** [hash_free] terminates on every well-formed table and releases each of
    its nodes exactly once with the table's destructor, although it unlinks
    nodes from the chains it is scanning. *)
Theorem hash_free_releases_once chain0 h :
  hash_wf h →
  ∃ l, hash_free chain0 h = Some (mjoin (freenode (hash_freenode h) <$> l)) ∧
    NoDup (hash_addr <$> l) ∧
    ∀ n, n ∈ l ↔ hash_lookup h (hash_key n) = Some (Some n).
Proof.
  intros W. exists (nodes h). split; [|split].
  - unfold hash_free. destruct (hash_free_nodes_spec chain0 h W) as (h' & -> & W' & Hn).
    simpl. unfold hash_destroy, hash_isempty. rewrite (wf_count h' W'), Hn. done.
  - apply W.
  - intros n. rewrite hash_lookup_spec by done. split.
    + intros Hn. f_equal. by apply habs_Some.
    + intros [= Hn]. by apply habs_Some in Hn as [? _].
Qed.

End Claims.

(** ** A table to evaluate the operations on *)

Definition demo_empty : hash_t string Z :=
  Hash (replicate 64 []) 64 0 HASHCOUNT_T_MAX 128 32 hash_comp_default hash_fun_default
    hnode_free2 63 true.

Definition demo_table : hash_t string Z :=
  default demo_empty (hash_insert true demo_empty 1 10 "alpha" ≫= λ h,
                      hash_insert true h 2 20 "beta").

Lemma demo_empty_wf : hash_wf demo_empty ∧ nodes demo_empty = [].
Proof.
  apply (cleared_wf demo_empty (replicate 64 [])).
  - reflexivity.
  - unfold nslots. simpl. lia.
  - exists 6. split; [lia|reflexivity].
  - reflexivity.
  - intros _. vm_compute. repeat split; discriminate.
  - reflexivity.
  - simpl. unfold HASHCOUNT_T_MAX, ULONG_MAX. lia.
  - apply strcmp_eq.
  - apply hash_fun_default_range.
Qed.

Lemma demo_table_wf : hash_wf demo_table.
Proof.
  destruct demo_empty_wf as [W0 N0].
  assert (A0 : habs demo_empty = ∅) by (unfold habs; by rewrite N0).
  destruct (hash_insert_spec true demo_empty 1 10 "alpha" W0)
    as (h1 & E1 & W1 & A1 & C1 & N1 & M1).
  - by rewrite A0.
  - rewrite N0. apply not_elem_of_nil.
  - reflexivity.
  - reflexivity.
  - destruct (hash_insert_spec true h1 2 20 "beta" W1) as (h2 & E2 & W2 & _).
    + rewrite A1, lookup_insert_ne by discriminate. by rewrite A0.
    + rewrite N1, N0. simpl. rewrite list_elem_of_singleton. discriminate.
    + rewrite C1, M1. reflexivity.
    + rewrite C1. reflexivity.
    + unfold demo_table. rewrite E1. cbn [mbind option_bind]. by rewrite E2.
Qed.

Definition demo_alpha : hnode string Z := Hnode 1 "alpha" 10 (hash_fun_default "alpha").

Lemma hash_insert_refines_witness :
  ∃ h', hash_insert false demo_table 3 30 "gamma" = Some h' ∧ hash_wf h' ∧
    hash_count h' = 3 ∧
    hash_lookup h' "gamma" = Some (Some (Hnode 3 "gamma" 30 (hash_fun_default "gamma"))) ∧
    ∀ k', k' ≠ "gamma" → hash_lookup h' k' = hash_lookup demo_table k'.
Proof.
  refine (hash_insert_refines false demo_table 3 30 "gamma" demo_table_wf _ _ _ _).
  - vm_compute. reflexivity.
  - vm_compute. intros Hin. repeat (apply elem_of_cons in Hin as [Hin|Hin]; [discriminate|]).
    by apply not_elem_of_nil in Hin.
  - vm_compute. reflexivity.
  - vm_compute. reflexivity.
Defined.

Lemma hash_delete_refines_witness :
  ∃ h', hash_delete true demo_table demo_alpha = Some h' ∧ hash_wf h' ∧
    hash_count h' = 1 ∧
    hash_lookup h' "alpha" = Some None ∧
    (∀ k', k' ≠ "alpha" → hash_lookup h' k' = hash_lookup demo_table k') ∧
    (hash_dynamic h' = true → INIT_SIZE ≤ hash_nchains h').
Proof.
  refine (hash_delete_refines true demo_table demo_alpha demo_table_wf _).
  vm_compute. reflexivity.
Defined.

Lemma hash_free_releases_once_witness :
  ∃ l, hash_free 0 demo_table = Some (mjoin (freenode hnode_free2 <$> l)) ∧
    NoDup (hash_addr <$> l) ∧
    ∀ n, n ∈ l ↔ hash_lookup demo_table (hash_key n) = Some (Some n).
Proof. exact (hash_free_releases_once 0 demo_table demo_table_wf). Defined.
