(* ===== verification/UList.v ===== *)
(** * Doubly linked lists ([src/src/lib/u/list.c])

    The lists of [u/list.c] are circular: the header embeds a sentinel
    ("nil") node.  Node memory is a finite map from addresses to nodes, so
    that the pointer updates of the code are the updates of the model and a
    node can be reached through several lists; a NULL pointer is [None].  The
    theorems relate a list in memory to the Rocq list of its node addresses. *)

From S2P Require Import Prelude.
From stdpp Require Import fin_map_dom sorting.

#[local] Open Scope Z_scope.
#[local] Open Scope ow_scope.

Definition LISTCOUNT_T_MAX : Z := ULONG_MAX.

Abbreviation loc := positive.
Abbreviation ptr := (option positive).

Section Ops.
Context {D : Type}.

Record lnode_t := Lnode {
  list_next : ptr;
  list_prev : ptr;
  list_data : D;
}.

Record list_t := ListT {
  list_nilnode : loc;
  list_nodecount : Z;
  list_maxcount : Z;
}.

Abbreviation mem := (gmap loc lnode_t).

Definition with_next (p : ptr) (n : lnode_t) : lnode_t :=
  Lnode p (list_prev n) (list_data n).
Definition with_prev (p : ptr) (n : lnode_t) : lnode_t :=
  Lnode (list_next n) p (list_data n).
Definition with_data (d : D) (n : lnode_t) : lnode_t :=
  Lnode (list_next n) (list_prev n) d.
Definition with_count (c : Z) (l : list_t) : list_t :=
  ListT (list_nilnode l) c (list_maxcount l).

(** [p->f] and [p->f = v]; both fail on NULL and on memory that is not
    allocated. *)
Definition deref {A} (f : lnode_t → A) (p : ptr) (m : mem) : option A :=
  a ← p; f <$> m !! a.
Definition assign (f : lnode_t → lnode_t) (p : ptr) (m : mem) : option mem :=
  a ← p; n ← m !! a; Some (<[a := f n]> m).

Definition list_nil (l : list_t) : ptr := Some (list_nilnode l).
Definition list_first_priv (l : list_t) (m : mem) : option ptr := deref list_next (list_nil l) m.
Definition list_last_priv (l : list_t) (m : mem) : option ptr := deref list_prev (list_nil l) m.

(** A bound on the steps of a walk: no ring is longer than the memory. *)
Definition walk_fuel (m : mem) : nat := S (size m).

(** ** Creation *)

Definition list_init (nil : loc) (junk : D) (maxcount : Z) (m : mem)
  : option (mem * list_t) :=
  assert! negb (maxcount =? 0);
  Some (<[nil := Lnode (Some nil) (Some nil) junk]> m, ListT nil 0 maxcount).

Definition list_create (malloc : option loc) (junk : D) (maxcount : Z) (m : mem)
  : option (mem * option list_t) :=
  match malloc with
  | None => Some (m, None)
  | Some new => r ← list_init new junk maxcount m; Some (r.1, Some r.2)
  end.

Definition lnode_init (a : loc) (data : D) (m : mem) : mem :=
  <[a := Lnode None None data]> m.

Definition lnode_create (malloc : option loc) (data : D) (m : mem) : mem * ptr :=
  match malloc with
  | None => (m, None)
  | Some new => (lnode_init new data m, Some new)
  end.

Definition lnode_is_in_a_list (p : ptr) (m : mem) : option bool :=
  nx ← deref list_next p m; pv ← deref list_prev p m;
  Some (match nx, pv with None, None => false | _, _ => true end).

(** [free] takes the node out of the memory. *)
Definition lnode_destroy (p : ptr) (m : mem) : option mem :=
  b ← lnode_is_in_a_list p m;
  assert! negb b;
  a ← p; Some (delete a m).

Definition list_isempty (l : option list_t) : bool :=
  match l with None => true | Some l => list_nodecount l =? 0 end.

Definition list_isfull (l : option list_t) : bool :=
  match l with None => false | Some l => list_nodecount l =? list_maxcount l end.

Definition list_destroy (l : list_t) (m : mem) : option mem :=
  assert! list_isempty (Some l);
  Some (delete (list_nilnode l) m).

(** ** Membership *)

Fixpoint contains_loop (fuel : nat) (nil node : ptr) (n : ptr) (m : mem) : option bool :=
  match fuel with
  | O => None
  | S fuel =>
      if decide (n = nil) then Some false
      else if decide (node = n) then Some true
      else n' ← deref list_next n m; contains_loop fuel nil node n' m
  end.

Definition list_contains (l : list_t) (node : ptr) (m : mem) : option bool :=
  first ← list_first_priv l m;
  contains_loop (walk_fuel m) (list_nil l) node first m.

(** ** Insertion and deletion *)

Definition ins_asserts (l : list_t) (new this : ptr) (m : mem) : option unit :=
  assert! bool_decide (is_Some new);
  c ← list_contains l new m; assert! negb c;
  b ← lnode_is_in_a_list new m; assert! negb b;
  t ← (if decide (this = list_nil l) then Some true else list_contains l this m);
  assert! t;
  c_assert (list_nodecount l <? wrap64 (list_nodecount l + 1)).

Definition list_ins_after (l : list_t) (new this : ptr) (m : mem) : option (mem * list_t) :=
  that ← deref list_next this m;
  _ ← ins_asserts l new this m;
  m ← assign (with_prev this) new m;
  m ← assign (with_next that) new m;
  m ← assign (with_prev new) that m;
  m ← assign (with_next new) this m;
  let l := with_count (wrap64 (list_nodecount l + 1)) l in
  assert! list_nodecount l <=? list_maxcount l;
  Some (m, l).

Definition list_ins_before (l : list_t) (new this : ptr) (m : mem) : option (mem * list_t) :=
  that ← deref list_prev this m;
  _ ← ins_asserts l new this m;
  m ← assign (with_next this) new m;
  m ← assign (with_prev that) new m;
  m ← assign (with_next new) that m;
  m ← assign (with_prev new) this m;
  let l := with_count (wrap64 (list_nodecount l + 1)) l in
  assert! list_nodecount l <=? list_maxcount l;
  Some (m, l).

(** The body [list_delete] and [list_delete2] share; the result is the node
    after the deleted one. *)
Definition unlink (l : list_t) (del : ptr) (m : mem) : option (mem * list_t * ptr) :=
  next ← deref list_next del m;
  prev ← deref list_prev del m;
  c ← list_contains l del m; assert! c;
  m ← assign (with_next next) prev m;
  m ← assign (with_prev prev) next m;
  m ← assign (λ n, with_next None (with_prev None n)) del m;
  Some (m, with_count (wrap64 (list_nodecount l - 1)) l, next).

Definition list_delete (l : list_t) (del : ptr) (m : mem) : option (mem * list_t * ptr) :=
  r ← unlink l del m; Some (r.1, del).

Definition list_delete2 (l : list_t) (del : ptr) (m : mem) : option (mem * list_t * ptr) :=
  r ← unlink l del m;
  Some (r.1, if decide (r.2 = list_nil l) then None else r.2).

Definition list_append (l : list_t) (node : ptr) (m : mem) := list_ins_before l node (list_nil l) m.
Definition list_prepend (l : list_t) (node : ptr) (m : mem) := list_ins_after l node (list_nil l) m.

Definition list_count (l : list_t) : Z := list_nodecount l.

Definition ow_list_first (l : option list_t) (m : mem) : option ptr :=
  match l with
  | None => Some None
  | Some l =>
      n ← list_first_priv l m; Some (if decide (n = list_nil l) then None else n)
  end.

Definition ow_list_last (l : list_t) (m : mem) : option ptr :=
  n ← list_last_priv l m; Some (if decide (n = list_nil l) then None else n).

Definition ow_list_next (l : list_t) (node : ptr) (m : mem) : option ptr :=
  c ← list_contains l node m; assert! c;
  n ← deref list_next node m; Some (if decide (n = list_nil l) then None else n).

Definition ow_list_prev (l : list_t) (node : ptr) (m : mem) : option ptr :=
  c ← list_contains l node m; assert! c;
  n ← deref list_prev node m; Some (if decide (n = list_nil l) then None else n).

Definition ow_list_del_first (l : list_t) (m : mem) : option (mem * list_t * ptr) :=
  n ← list_first_priv l m; list_delete l n m.

Definition ow_list_del_last (l : list_t) (m : mem) : option (mem * list_t * ptr) :=
  n ← list_last_priv l m; list_delete l n m.

Definition lnode_put (p : ptr) (data : D) (m : mem) : option mem := assign (with_data data) p m.
Definition lnode_get (p : ptr) (m : mem) : option D := deref list_data p m.

(** ** Whole-list operations *)

(** [list_destroy_nodes]; the second component is what [u_free] releases. *)
Fixpoint destroy_loop (fuel : nat) (nil lnode : ptr) (m : mem) (freed : list D)
  : option (mem * list D) :=
  match fuel with
  | O => None
  | S fuel =>
      if decide (lnode = nil) then Some (m, freed)
      else
        tmp ← deref list_next lnode m;
        m ← assign (with_next None) lnode m;
        m ← assign (with_prev None) lnode m;
        d ← deref list_data lnode m;
        m ← lnode_destroy lnode m;
        destroy_loop fuel nil tmp m (freed ++ [d])
  end.

Definition list_destroy_nodes (l : list_t) (m : mem) : option (mem * list_t * list D) :=
  lnode ← list_first_priv l m;
  r ← destroy_loop (walk_fuel m) (list_nil l) lnode m [];
  junk ← deref list_data (list_nil l) r.1;
  r' ← list_init (list_nilnode l) junk (list_maxcount l) r.1;
  Some (r', r.2).

(** [list_process]: the callback may change the memory and the header. *)
Fixpoint process_loop {C} (fuel : nat) (f : list_t → ptr → C → mem → option (mem * list_t * C))
    (l : list_t) (node : ptr) (c : C) (m : mem) : option (mem * list_t * C) :=
  match fuel with
  | O => None
  | S fuel =>
      if decide (node = list_nil l) then Some (m, l, c)
      else
        b ← list_contains l node m; assert! b;
        next ← deref list_next node m;
        '(m, l, c) ← f l node c m;
        process_loop fuel f l next c m
  end.

Definition list_process {C} (l : list_t) (c : C)
    (f : list_t → ptr → C → mem → option (mem * list_t * C)) (m : mem)
  : option (mem * list_t * C) :=
  node ← list_first_priv l m; process_loop (walk_fuel m) f l node c m.

(** [while (node != nil && count--)]: when the count runs out first, it has
    wrapped around, so that the final test [count != 0] catches it. *)
Fixpoint verify_loop (fuel : nat) (nil node : ptr) (count : Z) (m : mem) : option bool :=
  match fuel with
  | O => None
  | S fuel =>
      if decide (node = nil) then Some (count =? 0)
      else if count =? 0 then Some false
      else
        next ← deref list_next node m;
        back ← deref list_prev next m;
        if decide (back = node) then verify_loop fuel nil next (count - 1) m
        else Some false
  end.

Definition list_verify (l : list_t) (m : mem) : option bool :=
  node ← list_first_priv l m;
  p ← deref list_prev node m;
  if negb (bool_decide (p = list_nil l)) then Some false
  else if list_maxcount l <? list_nodecount l then Some false
  else verify_loop (S (Z.to_nat (list_nodecount l))) (list_nil l) node (list_nodecount l) m.

Fixpoint count_to (fuel : nat) (first last : ptr) (moved : Z) (m : mem) : option Z :=
  match fuel with
  | O => None
  | S fuel =>
      if decide (first = last) then Some moved
      else n ← deref list_next first m; count_to fuel n last (wrap64 (moved + 1)) m
  end.

(** The pointer updates of a transfer, in the order of the code. *)
Definition transfer_links (dest source : list_t) (first last : ptr) (m : mem) : option mem :=
  fprev ← deref list_prev first m;
  m ← assign (with_prev fprev) (list_nil source) m;
  fprev ← deref list_prev first m;
  m ← assign (with_next (list_nil source)) fprev m;
  m ← assign (with_next (list_nil dest)) last m;
  dlast ← list_last_priv dest m;
  m ← assign (with_prev dlast) first m;
  dlast ← list_last_priv dest m;
  m ← assign (with_next first) dlast m;
  assign (with_prev last) (list_nil dest) m.

Definition ow_list_transfer (dest source : list_t) (first : ptr) (m : mem)
  : option (mem * list_t * list_t) :=
  if decide (first = None) then Some (m, dest, source) else
  c ← list_contains source first m; assert! c;
  last ← list_last_priv source m;
  m ← transfer_links dest source first last m;
  moved ← count_to (walk_fuel m) first last 1 m;
  assert! moved <=? list_nodecount source;
  let source := with_count (wrap64 (list_nodecount source - moved)) source in
  let dest := with_count (wrap64 (list_nodecount dest + moved)) dest in
  sv ← list_verify source m; assert! sv;
  dv ← list_verify dest m; assert! dv;
  Some (m, dest, source).

Section Compare.
Context (compare : D → D → Z).

Fixpoint find_loop (fuel : nat) (nil node : ptr) (key : D) (m : mem) : option ptr :=
  match fuel with
  | O => None
  | S fuel =>
      if decide (node = nil) then Some None
      else
        d ← lnode_get node m;
        if compare d key =? 0 then Some node
        else n ← deref list_next node m; find_loop fuel nil n key m
  end.

Definition list_find (l : list_t) (key : D) (m : mem) : option ptr :=
  first ← list_first_priv l m; find_loop (walk_fuel m) (list_nil l) first key m.

Fixpoint is_sorted_loop (fuel : nat) (nil node next : ptr) (m : mem) : option bool :=
  match fuel with
  | O => None
  | S fuel =>
      if decide (next = nil) then Some true
      else
        a ← lnode_get node m; b ← lnode_get next m;
        if 0 <? compare a b then Some false
        else n ← deref list_next next m; is_sorted_loop fuel nil next n m
  end.

Definition list_is_sorted (l : list_t) (m : mem) : option bool :=
  node ← list_first_priv l m;
  next ← (if decide (node = list_nil l) then Some (list_nil l) else deref list_next node m);
  is_sorted_loop (walk_fuel m) (list_nil l) node next m.

(** The state of the merge loop: memory, both headers, [dn] and [sn]. *)
Fixpoint merge_loop (fuel : nat) (dest source : list_t) (dn sn : ptr) (m : mem)
  : option (mem * list_t * list_t * ptr * ptr) :=
  match fuel with
  | O => None
  | S fuel =>
      if decide (dn = list_nil dest ∨ sn = list_nil source) then Some (m, dest, source, dn, sn)
      else
        a ← lnode_get dn m; b ← lnode_get sn m;
        if 0 <=? compare a b then
          tn ← deref list_next sn m;
          '(m, source, _) ← list_delete source sn m;
          '(m, dest) ← list_ins_before dest sn dn m;
          merge_loop fuel dest source dn tn m
        else
          dn ← deref list_next dn m;
          merge_loop fuel dest source dn sn m
  end.

Definition ow_list_merge (dest source : list_t) (m : mem) : option (mem * list_t * list_t) :=
  if decide (list_nilnode dest = list_nilnode source) then Some (m, dest, source) else
  ss ← list_is_sorted source m; assert! ss;
  ds ← list_is_sorted dest m; assert! ds;
  dn ← list_first_priv dest m;
  sn ← list_first_priv source m;
  '(m, dest, source, dn, sn) ← merge_loop (walk_fuel m) dest source dn sn m;
  if decide (dn ≠ list_nil dest) then Some (m, dest, source)
  else if decide (sn ≠ list_nil source) then ow_list_transfer dest source sn m
  else Some (m, dest, source).

Fixpoint advance (n : nat) (node : ptr) (m : mem) : option ptr :=
  match n with
  | O => Some node
  | S n => node ← deref list_next node m; advance n node m
  end.

(** [extra] is a local variable: it lives at an address that is not in use,
    with whatever its sentinel's data field holds, until the call returns. *)
Fixpoint sort_loop (fuel : nat) (junk : D) (l : list_t) (m : mem) : option (mem * list_t) :=
  match fuel with
  | O => None
  | S fuel =>
      r ← (if 1 <? list_count l then
             let middle := list_count l / 2 in
             node ← list_first_priv l m;
             '(m, extra) ← list_init (fresh (dom m)) junk (list_count l - middle) m;
             node ← advance (Z.to_nat middle) node m;
             '(m, extra, l) ← ow_list_transfer extra l node m;
             '(m, l) ← sort_loop fuel junk l m;
             '(m, extra) ← sort_loop fuel junk extra m;
             '(m, l, extra) ← ow_list_merge l extra m;
             Some (delete (list_nilnode extra) m, l)
           else Some (m, l));
      b ← list_is_sorted r.2 r.1; assert! b;
      Some r
  end.

(** The recursion halves the list: its length bounds the depth. *)
Definition ow_list_sort (junk : D) (l : list_t) (m : mem) : option (mem * list_t) :=
  sort_loop (S (Z.to_nat (list_nodecount l))) junk l m.
End Compare.
End Ops.

#[global] Arguments lnode_t : clear implicits.
#[global] Arguments walk_fuel {D} _ : simpl never.
#[global] Arguments deref {D A} _ _ _ : simpl never.
#[global] Arguments assign {D} _ _ _ : simpl never.
#[global] Arguments list_init {D} _ _ _ _ : simpl never.

(** ** Views of the memory *)

Section Views.
Context {D : Type}.
Implicit Types (m : gmap loc (lnode_t D)) (a b : loc) (l : list loc).

Definition nx m a : option ptr := list_next <$> m !! a.
Definition pv m a : option ptr := list_prev <$> m !! a.
Definition dt m a : option D := list_data <$> m !! a.

Lemma assign_alter (f : lnode_t D → lnode_t D) a m :
  a ∈ dom m → assign f (Some a) m = Some (alter f a m).
Proof.
  intros [n Hn]%elem_of_dom. unfold assign. simpl. rewrite Hn. simpl. f_equal.
  apply map_eq. intros b. destruct (decide (a = b)) as [->|Hne].
  - by rewrite lookup_insert_eq, lookup_alter_eq, Hn.
  - by rewrite lookup_insert_ne, lookup_alter_ne.
Qed.

Lemma nx_with_next v a m b :
  a ∈ dom m → nx (alter (with_next v) a m) b = if decide (b = a) then Some v else nx m b.
Proof.
  intros [n Hn]%elem_of_dom. unfold nx. case_decide as E; [subst b|].
  - by rewrite lookup_alter_eq, Hn.
  - by rewrite lookup_alter_ne.
Qed.
Lemma pv_with_prev v a m b :
  a ∈ dom m → pv (alter (with_prev v) a m) b = if decide (b = a) then Some v else pv m b.
Proof.
  intros [n Hn]%elem_of_dom. unfold pv. case_decide as E; [subst b|].
  - by rewrite lookup_alter_eq, Hn.
  - by rewrite lookup_alter_ne.
Qed.

Lemma view_alter {A} (g : lnode_t D → A) (f : lnode_t D → lnode_t D) a m b :
  (∀ n, g (f n) = g n) → g <$> alter f a m !! b = g <$> m !! b.
Proof.
  intros Hf. destruct (decide (a = b)) as [->|Hne].
  - rewrite lookup_alter_eq. destruct (m !! b); simpl; by rewrite ?Hf.
  - by rewrite lookup_alter_ne.
Qed.
Lemma nx_with_prev v a m b : nx (alter (with_prev v) a m) b = nx m b.
Proof. by apply view_alter. Qed.
Lemma pv_with_next v a m b : pv (alter (with_next v) a m) b = pv m b.
Proof. by apply view_alter. Qed.
Lemma dt_with_next v a m b : dt (alter (with_next v) a m) b = dt m b.
Proof. by apply view_alter. Qed.
Lemma dt_with_prev v a m b : dt (alter (with_prev v) a m) b = dt m b.
Proof. by apply view_alter. Qed.

Lemma deref_next a m : deref list_next (Some a) m = nx m a.
Proof. done. Qed.
Lemma deref_prev a m : deref list_prev (Some a) m = pv m a.
Proof. done. Qed.
Lemma deref_data a m : deref list_data (Some a) m = dt m a.
Proof. done. Qed.

Lemma nx_dom m a v : nx m a = Some v → a ∈ dom m.
Proof. unfold nx. intros (n & ? & _)%fmap_Some. apply elem_of_dom. eauto. Qed.

Lemma dom_nx m a : a ∈ dom m → is_Some (nx m a).
Proof. intros [n Hn]%elem_of_dom. unfold nx. rewrite Hn. eauto. Qed.

Lemma alter_unlink a m :
  alter (λ n, with_next None (with_prev None n)) a m
  = alter (with_next None) a (alter (with_prev None) a m).
Proof.
  apply map_eq. intros b. destruct (decide (a = b)) as [->|Hne].
  - rewrite !lookup_alter_eq. by destruct (m !! b).
  - by rewrite !lookup_alter_ne.
Qed.

(** Two memories that differ only in links, and only on the nodes of [ch]. *)
Record relinked (ch : list loc) m m' : Prop := {
  rl_dom : dom m' = dom m;
  rl_data : ∀ a, dt m' a = dt m a;
  rl_next : ∀ a, a ∉ ch → nx m' a = nx m a;
  rl_prev : ∀ a, a ∉ ch → pv m' a = pv m a;
}.

Lemma relinked_refl ch m : relinked ch m m.
Proof. by constructor. Qed.

Lemma relinked_trans ch1 ch2 ch m1 m2 m3 :
  relinked ch1 m1 m2 → relinked ch2 m2 m3 → ch1 ⊆ ch → ch2 ⊆ ch → relinked ch m1 m3.
Proof.
  intros [D1 E1 N1 P1] [D2 E2 N2 P2] S1 S2. constructor.
  - congruence.
  - intros a. by rewrite E2.
  - intros a Ha. rewrite N2, N1 by set_solver. done.
  - intros a Ha. rewrite P2, P1 by set_solver. done.
Qed.

Lemma relinked_mono ch1 ch2 m m' : relinked ch1 m m' → ch1 ⊆ ch2 → relinked ch2 m m'.
Proof. intros [??? ?] ?. constructor; set_solver. Qed.

Lemma relinked_lookup ch m m' a : relinked ch m m' → a ∉ ch → m' !! a = m !! a.
Proof.
  intros R Ha. pose proof (rl_data _ _ _ R a) as E. pose proof (rl_next _ _ _ R a Ha) as N.
  pose proof (rl_prev _ _ _ R a Ha) as P. unfold nx, pv, dt in *.
  destruct (m' !! a) as [[]|], (m !! a) as [[]|]; simplify_eq/=; done.
Qed.

(** ** Rings *)

Abbreviation SS := (λ a : loc, Some (Some a)).

(** The sentinel [nil] and the nodes [l], linked both ways in a circle. *)
Record ring m (nil : loc) l : Prop := {
  ring_nodup : NoDup (nil :: l);
  ring_nexts : nx m <$> (nil :: l) = SS <$> (l ++ [nil]);
  ring_prevs : pv m <$> (l ++ [nil]) = SS <$> (nil :: l);
}.

Definition hdn (nil : loc) l : loc := default nil (head l).
Definition lastn (nil : loc) l : loc := default nil (last l).

Lemma cons_snoc nil l : ∃ A, nil :: l = A ++ [lastn nil l].
Proof.
  induction l as [|a l IH] using rev_ind; [by exists []|].
  exists (nil :: l). unfold lastn. by rewrite last_snoc.
Qed.
Lemma snoc_cons nil l : ∃ B, l ++ [nil] = hdn nil l :: B.
Proof. destruct l as [|a l]; [by exists []|by exists (l ++ [nil])]. Qed.

Lemma ring_cut m nil l1 l2 A B :
  let x := lastn nil l1 in let y := hdn nil l2 in
  nil :: l1 = A ++ [x] → l2 ++ [nil] = y :: B →
  NoDup (nil :: l1 ++ l2) →
  ring m nil (l1 ++ l2) ↔
  ((nx m <$> A) = (SS <$> l1) ∧ nx m x = SS y ∧ (nx m <$> l2) = (SS <$> B)) ∧
  ((pv m <$> l1) = (SS <$> A) ∧ pv m y = SS x ∧ (pv m <$> B) = (SS <$> l2)).
Proof.
  intros x y HA HB ND.
  assert (LA : length A = length l1).
  { apply (f_equal length) in HA. rewrite length_app in HA. simpl in HA. lia. }
  assert (LB : length B = length l2).
  { apply (f_equal length) in HB. rewrite length_app in HB. simpl in HB. lia. }
  assert (E1 : nil :: l1 ++ l2 = A ++ x :: l2).
  { rewrite app_comm_cons, HA. by rewrite <- app_assoc. }
  assert (E2 : (l1 ++ l2) ++ [nil] = l1 ++ y :: B) by by rewrite <- app_assoc, HB.
  split.
  - intros [_ Hn Hp]. rewrite E1, E2 in Hn, Hp. rewrite !fmap_app, !fmap_cons in Hn, Hp.
    apply app_inj_1 in Hn as [? Hn]; [|by rewrite !length_fmap].
    apply app_inj_1 in Hp as [? Hp]; [|by rewrite !length_fmap].
    by injection Hn as ??; injection Hp as ??.
  - intros ((?&?&?) & ?&?&?). split; [done|..]; rewrite E1, E2, !fmap_app, !fmap_cons; congruence.
Qed.

Lemma ring_next m nil l1 b l2 :
  ring m nil (l1 ++ b :: l2) → nx m b = SS (hdn nil l2).
Proof.
  intros R. pose proof (ring_nexts _ _ _ R) as H.
  apply (f_equal (λ k, k !! S (length l1))) in H. rewrite !list_lookup_fmap in H. simpl in H.
  rewrite list_lookup_middle in H by done. simpl in H.
  rewrite <- app_assoc, lookup_app_r in H by lia.
  replace (S (length l1) - length l1)%nat with 1%nat in H by lia.
  destruct l2; simpl in H; injection H as H; exact H.
Qed.

Lemma ring_first m nil l : ring m nil l → nx m nil = SS (hdn nil l).
Proof.
  intros R. pose proof (ring_nexts _ _ _ R) as H. destruct l; simpl in H; by simplify_eq.
Qed.

Lemma ring_prev m nil l1 b l2 :
  ring m nil (l1 ++ b :: l2) → pv m b = SS (lastn nil l1).
Proof.
  intros R. destruct (cons_snoc nil l1) as [A HA]. destruct (snoc_cons nil (b :: l2)) as [B HB].
  by destruct (proj1 (ring_cut m nil l1 (b :: l2) A B HA HB (ring_nodup _ _ _ R)) R)
    as (_ & _ & ? & _).
Qed.

Lemma ring_last m nil l : ring m nil l → pv m nil = SS (lastn nil l).
Proof.
  intros R. destruct (cons_snoc nil l) as [A HA].
  rewrite <- (app_nil_r l) in R.
  by destruct (proj1 (ring_cut m nil l [] A [] HA eq_refl (ring_nodup _ _ _ R)) R)
    as (_ & _ & ? & _).
Qed.

Lemma ring_dom m nil l a : ring m nil l → a ∈ nil :: l → a ∈ dom m.
Proof.
  intros R Ha. pose proof (ring_nexts _ _ _ R) as H.
  apply list_elem_of_lookup in Ha as [i Hi].
  apply (f_equal (λ k, k !! i)) in H. rewrite !list_lookup_fmap, Hi in H.
  destruct ((l ++ [nil]) !! i) eqn:E; [|done]. simpl in H. injection H as H. by eapply nx_dom.
Qed.

Lemma ring_size m nil l : ring m nil l → (length l < size m)%nat.
Proof.
  intros R. rewrite <- size_dom.
  assert (list_to_set (nil :: l) ⊆ dom m) as Hs.
  { intros a Ha%elem_of_list_to_set. by eapply ring_dom. }
  apply subseteq_size in Hs. rewrite size_list_to_set in Hs by apply R. simpl in Hs. lia.
Qed.

Lemma ring_not_nil m nil l1 b l2 : ring m nil (l1 ++ b :: l2) → b ≠ nil.
Proof. intros R ->. pose proof (ring_nodup _ _ _ R) as [H _]%NoDup_cons. set_solver. Qed.

Lemma fmap_frame {A} (f g : loc → A) l : (∀ a, a ∈ l → f a = g a) → f <$> l = g <$> l.
Proof.
  intros H. apply list_fmap_ext. intros i a Hi. apply H. by eapply list_elem_of_lookup_2.
Qed.

Lemma ring_frame m m' nil l :
  (∀ a, a ∈ nil :: l → nx m' a = nx m a ∧ pv m' a = pv m a) → ring m nil l → ring m' nil l.
Proof.
  intros H [N1 N2 N3]. split; [done|..].
  - rewrite <- N2. apply fmap_frame. apply H.
  - rewrite <- N3. apply fmap_frame. intros a Ha. apply H. set_solver.
Qed.

Lemma ring_relinked m m' ch nil l :
  relinked ch m m' → (∀ a, a ∈ nil :: l → a ∉ ch) → ring m nil l → ring m' nil l.
Proof. intros R H. apply ring_frame. intros a Ha. split; apply R; auto. Qed.

Lemma lastn_in nil l : lastn nil l ∈ nil :: l.
Proof. destruct (cons_snoc nil l) as [A ->]. set_solver. Qed.
Lemma hdn_in nil l : hdn nil l ∈ nil :: l.
Proof. destruct l; set_solver. Qed.

Lemma lastn_app_in nil l1 l2 : lastn nil l1 ∈ nil :: l1 ++ l2.
Proof. pose proof (lastn_in nil l1). set_solver. Qed.
Lemma hdn_app_in nil l1 l2 : hdn nil l2 ∈ nil :: l1 ++ l2.
Proof. pose proof (hdn_in nil l2). set_solver. Qed.

Lemma cut_facts nil l1 l2 A B x y :
  nil :: l1 = A ++ [x] → l2 ++ [nil] = y :: B → NoDup (nil :: l1 ++ l2) →
  x ∉ A ∧ x ∉ l2 ∧ y ∉ B ∧ y ∉ l1 ∧
  ∀ n, n ∉ nil :: l1 ++ l2 → n ∉ A ∧ n ∉ l1 ∧ n ∉ l2 ∧ n ∉ B ∧ n ≠ x ∧ n ≠ y.
Proof.
  intros HA HB ND.
  assert (NoDup (l1 ++ y :: B)) as ND'.
  { rewrite <- HB, app_assoc. by rewrite <- Permutation_cons_append. }
  assert (A ⊆ nil :: l1 ∧ x ∈ nil :: l1) as [??] by (rewrite HA; set_solver).
  assert (B ⊆ l2 ++ [nil] ∧ y ∈ l2 ++ [nil]) as [??] by (rewrite HB; set_solver).
  rewrite app_comm_cons, HA, <- app_assoc in ND. simpl in ND.
  apply NoDup_app in ND as (_ & ? & [? _]%NoDup_cons).
  apply NoDup_app in ND' as (_ & ? & [? _]%NoDup_cons). set_solver.
Qed.

(** Linking [new] in between, and its inverse. *)
Lemma ring_insert m m' nil l1 l2 new :
  let x := lastn nil l1 in let y := hdn nil l2 in
  ring m nil (l1 ++ l2) → new ∉ nil :: l1 ++ l2 →
  (∀ a, nx m' a = if decide (a = x) then SS new else if decide (a = new) then SS y else nx m a) →
  (∀ a, pv m' a = if decide (a = y) then SS new else if decide (a = new) then SS x else pv m a) →
  ring m' nil (l1 ++ new :: l2).
Proof.
  intros x y R Hnew Hnx Hpv. pose proof (ring_nodup _ _ _ R) as ND.
  destruct (cons_snoc nil l1) as [A HA]. destruct (snoc_cons nil l2) as [B HB].
  fold x in HA. fold y in HB.
  destruct (proj1 (ring_cut m nil l1 l2 A B HA HB ND) R) as ((N1 & N2 & N3) & P1 & P2 & P3).
  destruct (cut_facts nil l1 l2 A B x y HA HB ND) as (Hx1 & Hx2 & Hy1 & Hy2 & Hout).
  destruct (Hout new Hnew) as (?&?&?&?&?&?).
  apply (ring_cut m' nil l1 (new :: l2) A (y :: B)); [done|simpl; by rewrite HB|..].
  { rewrite <- Permutation_middle. apply NoDup_cons in ND as [??].
    constructor; [set_solver|]. constructor; [set_solver|done]. }
  assert (F : ∀ l, x ∉ l → new ∉ l → nx m' <$> l = nx m <$> l).
  { intros l ??. apply fmap_frame. intros a Ha. rewrite Hnx.
    by rewrite !decide_False by (intros ->; done). }
  assert (G : ∀ l, y ∉ l → new ∉ l → pv m' <$> l = pv m <$> l).
  { intros l ??. apply fmap_frame. intros a Ha. rewrite Hpv.
    by rewrite !decide_False by (intros ->; done). }
  simpl hdn. fold x. rewrite !fmap_cons, F, F, G, G by done.
  rewrite !Hnx, !Hpv. rewrite !(decide_True _ _ eq_refl), !(decide_False (P := new = _)) by done.
  rewrite N1, N3, P1, P3. repeat split; by case_decide.
Qed.

Lemma ring_delete m m' nil l1 l2 del :
  let x := lastn nil l1 in let y := hdn nil l2 in
  ring m nil (l1 ++ del :: l2) →
  (∀ a, a ≠ del → nx m' a = if decide (a = x) then SS y else nx m a) →
  (∀ a, a ≠ del → pv m' a = if decide (a = y) then SS x else pv m a) →
  ring m' nil (l1 ++ l2).
Proof.
  intros x y R Hnx Hpv. pose proof (ring_nodup _ _ _ R) as ND.
  destruct (cons_snoc nil l1) as [A HA]. destruct (snoc_cons nil l2) as [B HB].
  fold x in HA. fold y in HB.
  destruct (proj1 (ring_cut m nil l1 (del :: l2) A (y :: B) HA
    ltac:(simpl; by rewrite HB) ND) R) as ((N1 & N2 & N3) & P1 & P2 & P3).
  rewrite !fmap_cons in N3, P3. injection N3 as N3 N4. injection P3 as P3 P4.
  assert (ND2 : NoDup (del :: nil :: l1 ++ l2)).
  { by rewrite Permutation_swap, Permutation_middle. }
  apply NoDup_cons in ND2 as [Hdel ND2].
  destruct (cut_facts nil l1 l2 A B x y HA HB ND2) as (Hx1 & Hx2 & Hy1 & Hy2 & Hout).
  destruct (Hout del Hdel) as (?&?&?&?&?&?).
  apply (ring_cut m' nil l1 l2 A B HA HB ND2).
  assert (F : ∀ l, x ∉ l → del ∉ l → nx m' <$> l = nx m <$> l).
  { intros l ??. apply fmap_frame. intros a Ha. rewrite Hnx by (intros ->; done).
    by rewrite !decide_False by (intros ->; done). }
  assert (G : ∀ l, y ∉ l → del ∉ l → pv m' <$> l = pv m <$> l).
  { intros l ??. apply fmap_frame. intros a Ha. rewrite Hpv by (intros ->; done).
    by rewrite !decide_False by (intros ->; done). }
  fold x y. rewrite F, F, G, G, Hnx, Hpv, !(decide_True _ _ eq_refl) by done. done.
Qed.
End Views.

(** ** Representation of a list *)

Section Rep.
Context {D : Type}.
Implicit Types (m : gmap loc (lnode_t D)) (L : list_t) (a b : loc) (l : list loc).

(** The header [L] and the memory [m] represent the nodes [l], in order. *)
Record list_rep m L l : Prop := {
  rep_ring : ring m (list_nilnode L) l;
  rep_count : list_nodecount L = Z.of_nat (length l);
  rep_max : list_nodecount L ≤ list_maxcount L;
  rep_word : list_maxcount L < 2 ^ 64;
}.

(** A node that is allocated and in no list. *)
Definition loose m a : Prop := nx m a = Some None ∧ pv m a = Some None.

Definition header_nodes L l : list loc := list_nilnode L :: l.

Lemma list_rep_relinked m m' ch L l :
  relinked ch m m' → (∀ a, a ∈ header_nodes L l → a ∉ ch) → list_rep m L l → list_rep m' L l.
Proof. intros R H [? ? ?]. split; [|done..]. by eapply ring_relinked. Qed.

Lemma contains_loop_spec m nil node l2 : ∀ l1 fuel,
  ring m nil (l1 ++ l2) → (length l2 < fuel)%nat →
  contains_loop fuel (Some nil) node (Some (hdn nil l2)) m =
    Some (bool_decide (node ∈ Some <$> l2)).
Proof.
  induction l2 as [|b l2 IH]; intros l1 [|fuel] R Hf; simpl in Hf; try lia; simpl.
  - by rewrite decide_True by done.
  - pose proof (ring_not_nil _ _ _ _ _ R). rewrite decide_False by (intros [= ?]; done).
    destruct (decide (node = Some (hdn nil (b :: l2)))) as [E|E]; simpl in E.
    + rewrite bool_decide_eq_true_2; [done|]. rewrite E. by left.
    + change (deref list_next (Some (hdn nil (b :: l2))) m) with (nx m b).
      rewrite (ring_next _ _ _ _ _ R). simpl.
      rewrite (IH (l1 ++ [b])); [|by rewrite <- app_assoc|lia].
      f_equal. apply bool_decide_ext. rewrite elem_of_cons. naive_solver.
Qed.

Lemma list_contains_spec m L l node :
  list_rep m L l →
  list_contains L node m = Some (bool_decide (node ∈ Some <$> l)).
Proof.
  intros [R _ _ _]. unfold list_contains, list_first_priv, list_nil.
  rewrite deref_next, (ring_first _ _ _ R). simpl mbind.
  apply (contains_loop_spec m (list_nilnode L) node l [] (walk_fuel m)); [done|].
  unfold walk_fuel. pose proof (ring_size _ _ _ R). lia.
Qed.

Lemma list_contains_in m L l a :
  list_rep m L l → a ∈ l → list_contains L (Some a) m = Some true.
Proof.
  intros R Ha. rewrite (list_contains_spec _ _ _ _ R), bool_decide_eq_true_2; [done|]. by apply list_elem_of_fmap_2.
Qed.
Lemma list_contains_out m L l a :
  list_rep m L l → a ∉ l → list_contains L (Some a) m = Some false.
Proof.
  intros R Ha. rewrite (list_contains_spec _ _ _ _ R), bool_decide_eq_false_2; [done|].
  by intros (? & [= ->] & ?)%list_elem_of_fmap.
Qed.

Lemma loose_not_ring m nil l a : ring m nil l → loose m a → a ∉ nil :: l.
Proof.
  intros R [Hn _] [->|Ha]%elem_of_cons.
  - rewrite (ring_first _ _ _ R) in Hn. done.
  - apply list_elem_of_split in Ha as (l1 & l2 & ->). rewrite (ring_next _ _ _ _ _ R) in Hn. done.
Qed.

Lemma ins_asserts_spec m L l new this :
  list_rep m L l → loose m new → this ∈ header_nodes L l →
  list_nodecount L < list_maxcount L →
  ins_asserts L (Some new) (Some this) m = Some tt.
Proof.
  intros R [Hn Hp] Ht Hlt. unfold ins_asserts.
  pose proof (loose_not_ring _ _ _ _ (rep_ring _ _ _ R) (conj Hn Hp)) as Hnew.
  rewrite bool_decide_true by eauto. simpl.
  rewrite (list_contains_out _ _ _ new R) by (intros ?; apply Hnew; by right). simpl.
  unfold lnode_is_in_a_list. rewrite deref_next, deref_prev, Hn, Hp. simpl.
  assert ((if decide (Some this = list_nil L) then Some true else list_contains L (Some this) m)
    = Some true) as ->.
  { case_decide as E; [done|]. apply (list_contains_in _ _ l); [done|].
    apply elem_of_cons in Ht as [->|?]; [|done]. by destruct E. }
  simpl. pose proof (rep_word _ _ _ R). rewrite wrap_small by (rewrite (rep_count _ _ _ R) in *; lia).
  by rewrite (proj2 (Z.ltb_lt _ _)) by lia.
Qed.

(** What the four pointer writes of an insertion between [x] and [y] do. *)
Definition inserted m m' (x new y : loc) : Prop :=
  relinked [x; new; y] m m' ∧
  (∀ a, nx m' a = if decide (a = x) then Some (Some new)
                  else if decide (a = new) then Some (Some y) else nx m a) ∧
  (∀ a, pv m' a = if decide (a = y) then Some (Some new)
                  else if decide (a = new) then Some (Some x) else pv m a).

Lemma inserted_intro m m' x new y :
  dom m' = dom m → (∀ a, dt m' a = dt m a) →
  (∀ a, nx m' a = if decide (a = x) then Some (Some new)
                  else if decide (a = new) then Some (Some y) else nx m a) →
  (∀ a, pv m' a = if decide (a = y) then Some (Some new)
                  else if decide (a = new) then Some (Some x) else pv m a) →
  inserted m m' x new y.
Proof.
  intros Hd Hdt Hn Hp. repeat split; try done; intros a Ha.
  - rewrite Hn, !decide_False by set_solver. done.
  - rewrite Hp, !decide_False by set_solver. done.
Qed.

Lemma inserted_rep m m' L l1 l2 new :
  list_rep m L (l1 ++ l2) → loose m new → list_nodecount L < list_maxcount L →
  inserted m m' (lastn (list_nilnode L) l1) new (hdn (list_nilnode L) l2) →
  list_rep m' (with_count (wrap64 (list_nodecount L + 1)) L) (l1 ++ new :: l2).
Proof.
  intros R Hl Hlt (_ & Hn & Hp).
  pose proof (loose_not_ring _ _ _ _ (rep_ring _ _ _ R) Hl) as Hnew.
  pose proof (rep_word _ _ _ R). pose proof (rep_count _ _ _ R) as Hc.
  rewrite wrap_small by (rewrite Hc in *; lia).
  split; [|simpl|simpl; lia|apply R].
  - eapply ring_insert; [apply R|done..].
  - rewrite Hc, !length_app. simpl. lia.
Qed.
End Rep.

(** Push the views through a sequence of link updates. *)
Ltac solve_dom := rewrite ?dom_alter_L; eauto using nx_dom, ring_dom; fail.
Ltac views :=
  repeat first
    [ rewrite nx_with_next by solve_dom | rewrite pv_with_prev by solve_dom
    | rewrite nx_with_prev | rewrite pv_with_next | rewrite dt_with_next | rewrite dt_with_prev
    | rewrite dom_alter_L ].

Section Insert.
Context {D : Type}.
Implicit Types (m : gmap loc (lnode_t D)) (L : list_t) (a b : loc) (l : list loc).

(** The two nodes around a gap of the ring. *)
Lemma gap_facts m L l1 l2 :
  let x := lastn (list_nilnode L) l1 in let y := hdn (list_nilnode L) l2 in
  list_rep m L (l1 ++ l2) →
  nx m x = Some (Some y) ∧ pv m y = Some (Some x) ∧
  x ∈ header_nodes L (l1 ++ l2) ∧ y ∈ header_nodes L (l1 ++ l2) ∧ x ∈ dom m ∧ y ∈ dom m.
Proof.
  intros x y R. destruct (cons_snoc (list_nilnode L) l1) as [A HA].
  destruct (snoc_cons (list_nilnode L) l2) as [B HB].
  destruct (proj1 (ring_cut m _ l1 l2 A B HA HB (ring_nodup _ _ _ (rep_ring _ _ _ R)))
    (rep_ring _ _ _ R)) as ((_ & N & _) & _ & P & _).
  assert (x ∈ header_nodes L (l1 ++ l2)) by apply lastn_app_in.
  assert (y ∈ header_nodes L (l1 ++ l2)) by apply hdn_app_in.
  repeat split; try done; eapply ring_dom; try apply R; done.
Qed.

Lemma list_ins_before_spec m L l1 l2 new :
  list_rep m L (l1 ++ l2) → loose m new → list_nodecount L < list_maxcount L →
  ∃ m' L', list_ins_before L (Some new) (Some (hdn (list_nilnode L) l2)) m = Some (m', L') ∧
    L' = with_count (wrap64 (list_nodecount L + 1)) L ∧
    list_rep m' L' (l1 ++ new :: l2) ∧
    relinked [lastn (list_nilnode L) l1; new; hdn (list_nilnode L) l2] m m'.
Proof.
  intros R Hl Hlt. destruct (gap_facts m L l1 l2 R) as (Hnx & Hpv & Hx & Hy & Dx & Dy).
  set (x := lastn _ _) in *. set (y := hdn _ _) in *.
  assert (Dn : new ∈ dom m) by (eapply nx_dom, Hl).
  unfold list_ins_before. rewrite deref_prev, Hpv, some_bind.
  rewrite (ins_asserts_spec _ _ _ _ _ R Hl Hy Hlt), some_bind.
  do 4 (rewrite assign_alter by solve_dom; rewrite some_bind).
  set (m' := alter _ y _).
  assert (I : inserted m m' x new y) by (apply inserted_intro; intros; unfold m'; views; done).
  pose proof (inserted_rep _ _ _ _ _ _ R Hl Hlt I) as R'.
  rewrite (proj2 (Z.leb_le _ _)) by apply R'. simpl.
  eexists _, _. split; [done|]. split; [done|]. split; [done|apply I].
Qed.

Lemma list_ins_after_spec m L l1 l2 new :
  list_rep m L (l1 ++ l2) → loose m new → list_nodecount L < list_maxcount L →
  ∃ m' L', list_ins_after L (Some new) (Some (lastn (list_nilnode L) l1)) m = Some (m', L') ∧
    L' = with_count (wrap64 (list_nodecount L + 1)) L ∧
    list_rep m' L' (l1 ++ new :: l2) ∧
    relinked [lastn (list_nilnode L) l1; new; hdn (list_nilnode L) l2] m m'.
Proof.
  intros R Hl Hlt. destruct (gap_facts m L l1 l2 R) as (Hnx & Hpv & Hx & Hy & Dx & Dy).
  set (x := lastn _ _) in *. set (y := hdn _ _) in *.
  assert (Dn : new ∈ dom m) by (eapply nx_dom, Hl).
  unfold list_ins_after. rewrite deref_next, Hnx, some_bind.
  rewrite (ins_asserts_spec _ _ _ _ _ R Hl Hx Hlt), some_bind.
  do 4 (rewrite assign_alter by solve_dom; rewrite some_bind).
  set (m' := alter _ x _).
  assert (I : inserted m m' x new y) by (apply inserted_intro; intros; unfold m'; views; done).
  pose proof (inserted_rep _ _ _ _ _ _ R Hl Hlt I) as R'.
  rewrite (proj2 (Z.leb_le _ _)) by apply R'. simpl.
  eexists _, _. split; [done|]. split; [done|]. split; [done|apply I].
Qed.

(** Deletion: the node is loose afterwards, and its address is kept. *)
Lemma unlink_spec m L l1 del l2 :
  list_rep m L (l1 ++ del :: l2) →
  ∃ m', unlink L (Some del) m =
      Some (m', with_count (wrap64 (list_nodecount L - 1)) L, Some (hdn (list_nilnode L) l2)) ∧
    list_rep m' (with_count (wrap64 (list_nodecount L - 1)) L) (l1 ++ l2) ∧
    loose m' del ∧
    relinked [lastn (list_nilnode L) l1; del; hdn (list_nilnode L) l2] m m'.
Proof.
  intros R. pose proof (rep_ring _ _ _ R) as Rg. set (nil := list_nilnode L) in *.
  set (x := lastn nil l1). set (y := hdn nil l2).
  assert (Hx : x ≠ del ∧ y ≠ del).
  { pose proof (ring_nodup _ _ _ Rg) as ND.
    rewrite <- Permutation_middle, Permutation_swap in ND. apply NoDup_cons in ND as [ND _].
    split; intros E; apply ND; rewrite <- E; [apply lastn_app_in|apply hdn_app_in]. }
  destruct Hx as [Hx Hy].
  assert (Dd : del ∈ dom m) by (apply (ring_dom _ _ _ _ Rg); set_solver).
  assert (Dx : x ∈ dom m) by (apply (ring_dom _ _ _ _ Rg), lastn_app_in).
  assert (Dy : y ∈ dom m).
  { apply (ring_dom _ _ _ _ Rg). pose proof (hdn_app_in nil (l1 ++ [del]) l2).
    by rewrite <- app_assoc in H. }
  unfold unlink. rewrite deref_next, deref_prev, (ring_next _ _ _ _ _ Rg), (ring_prev _ _ _ _ _ Rg).
  rewrite !some_bind, (list_contains_in _ _ _ _ R), some_bind by set_solver.
  cbn [c_assert]. rewrite some_bind. do 3 (rewrite assign_alter by solve_dom; rewrite some_bind).
  fold x y. set (m' := alter _ del _). exists m'. split; [done|].
  assert (Hn : ∀ a, nx m' a = if decide (a = del) then Some None
                              else if decide (a = x) then Some (Some y) else nx m a).
  { intros a. unfold m'. rewrite alter_unlink. views. done. }
  assert (Hp : ∀ a, pv m' a = if decide (a = del) then Some None
                              else if decide (a = y) then Some (Some x) else pv m a).
  { intros a. unfold m'. rewrite alter_unlink. views. done. }
  split; [|split; [|split]].
  - pose proof (rep_count _ _ _ R) as Hc. pose proof (rep_max _ _ _ R). pose proof (rep_word _ _ _ R).
    rewrite length_app in Hc. simpl in Hc. rewrite wrap_small by lia.
    split; simpl; rewrite ?length_app; try lia.
    eapply ring_delete; [done|..]; intros a Ha; by rewrite ?Hn, ?Hp, decide_False by done.
  - split; [by rewrite Hn, decide_True|by rewrite Hp, decide_True].
  - unfold m'. rewrite alter_unlink. views. done.
  - intros a. unfold m'. rewrite alter_unlink. by views.
  - intros a Ha. rewrite Hn, !decide_False by set_solver. done.
  - intros a Ha. rewrite Hp, !decide_False by set_solver. done.
Qed.
End Insert.

Section Walks.
Context {D : Type}.
Implicit Types (m : gmap loc (lnode_t D)) (L : list_t) (a b : loc) (l : list loc).

Lemma list_first_priv_spec m L l :
  list_rep m L l → list_first_priv L m = Some (Some (hdn (list_nilnode L) l)).
Proof. intros R. apply (ring_first m _ l), R. Qed.
Lemma list_last_priv_spec m L l :
  list_rep m L l → list_last_priv L m = Some (Some (lastn (list_nilnode L) l)).
Proof. intros R. apply (ring_last m _ l), R. Qed.

Lemma verify_loop_spec m nil l2 : ∀ l1,
  ring m nil (l1 ++ l2) →
  verify_loop (S (length l2)) (Some nil) (Some (hdn nil l2)) (Z.of_nat (length l2)) m = Some true.
Proof.
  induction l2 as [|b l2 IH]; intros l1 R; cbn [verify_loop].
  - by rewrite decide_True.
  - pose proof (ring_not_nil _ _ _ _ _ R). rewrite decide_False by (intros [= ?]; done).
    change (length (b :: l2)) with (S (length l2)).
    rewrite (proj2 (Z.eqb_neq _ _)) by lia.
    change (hdn nil (b :: l2)) with b. rewrite deref_next, (ring_next _ _ _ _ _ R), some_bind.
    assert (R' : ring m nil ((l1 ++ [b]) ++ l2)) by by rewrite <- app_assoc.
    assert (pv m (hdn nil l2) = Some (Some b)) as Hb.
    { destruct l2 as [|c l2].
      - rewrite app_nil_r in R'. change (hdn nil []) with nil. rewrite (ring_last _ _ _ R').
        unfold lastn. by rewrite last_snoc.
      - change (hdn nil (c :: l2)) with c. rewrite (ring_prev _ _ _ _ _ R'). unfold lastn. by rewrite last_snoc. }
    rewrite deref_prev, Hb, some_bind, decide_True by done.
    replace (Z.of_nat (S (length l2)) - 1) with (Z.of_nat (length l2)) by lia. by apply (IH _ R').
Qed.

Lemma list_verify_spec m L l : list_rep m L l → list_verify L m = Some true.
Proof.
  intros R. unfold list_verify. rewrite (list_first_priv_spec _ _ _ R), some_bind.
  destruct (gap_facts m L [] l R) as (_ & Hp & _).
  rewrite deref_prev, Hp, some_bind. rewrite bool_decide_eq_true_2 by done. simpl negb.
  pose proof (rep_max _ _ _ R). rewrite (proj2 (Z.ltb_ge _ _)) by lia.
  rewrite (rep_count _ _ _ R), Nat2Z.id. apply (verify_loop_spec m _ l []), R.
Qed.

Lemma count_to_spec m nil l2 : ∀ l1 a l3 fuel n,
  ring m nil (l1 ++ a :: l2 ++ l3) → (length l2 < fuel)%nat →
  0 ≤ n → n + Z.of_nat (length l2) < 2 ^ 64 →
  count_to fuel (Some a) (Some (lastn a l2)) n m = Some (n + Z.of_nat (length l2)).
Proof.
  induction l2 as [|b l2 IH]; intros l1 a l3 [|fuel] n R Hf H0 Hn; simpl in Hf, Hn; try lia;
    cbn [count_to].
  - rewrite decide_True by done. f_equal. simpl. lia.
  - assert (Hlast : lastn a (b :: l2) = lastn b l2).
    { unfold lastn. rewrite last_cons. by destruct (last l2). }
    rewrite decide_False.
    + rewrite deref_next, (ring_next _ _ _ _ _ R), some_bind, Hlast. simpl hdn.
      rewrite wrap_small by lia.
      rewrite (IH (l1 ++ [a]) b l3); [f_equal; simpl; lia|by rewrite <- app_assoc|lia..].
    + rewrite Hlast. intros [= E].
      pose proof (ring_nodup _ _ _ R) as [_ ND]%NoDup_cons.
      apply NoDup_app in ND as (_ & _ & [ND _]%NoDup_cons). apply ND.
      pose proof (lastn_in b l2). rewrite E. set_solver.
Qed.

Lemma advance_spec m nil l1 : ∀ l0 l2,
  ring m nil (l0 ++ l1 ++ l2) →
  advance (length l1) (Some (hdn nil (l1 ++ l2))) m = Some (Some (hdn nil l2)).
Proof.
  induction l1 as [|a l1 IH]; intros l0 l2 R; [done|]. simpl.
  change (hdn nil (a :: l1 ++ l2)) with a.
  rewrite deref_next, (ring_next _ _ _ _ _ R). cbn [mbind option_bind].
  apply (IH (l0 ++ [a])). by rewrite <- app_assoc.
Qed.

Section Sorted.
Context (compare : D → D → Z).

(** The order of the nodes by their data. *)
Definition le_data m a b : Prop := ∃ x y, dt m a = Some x ∧ dt m b = Some y ∧ compare x y ≤ 0.

Lemma dom_dt m a : a ∈ dom m → is_Some (dt m a).
Proof. intros [n Hn]%elem_of_dom. unfold dt. rewrite Hn. eauto. Qed.

Lemma is_sorted_loop_spec m nil l2 : ∀ l1 a fuel,
  ring m nil (l1 ++ a :: l2) → (length l2 < fuel)%nat →
  is_sorted_loop compare fuel (Some nil) (Some a) (Some (hdn nil l2)) m =
    Some true ↔ Sorted (le_data m) (a :: l2).
Proof.
  induction l2 as [|b l2 IH]; intros l1 a [|fuel] R Hf; simpl in Hf; try lia;
    cbn [is_sorted_loop].
  - rewrite decide_True by done. split; [|done]. intros _. by repeat constructor.
  - assert (R' : ring m nil ((l1 ++ [a]) ++ b :: l2)) by by rewrite <- app_assoc.
    pose proof (ring_not_nil _ _ _ _ _ R'). rewrite decide_False by (intros [= ?]; done).
    change (hdn nil (b :: l2)) with b. unfold lnode_get. rewrite !deref_data.
    destruct (dom_dt m a) as [x Hx]; [apply (ring_dom _ _ _ _ R); set_solver|].
    destruct (dom_dt m b) as [y Hy]; [apply (ring_dom _ _ _ _ R); set_solver|].
    rewrite Hx, Hy, !some_bind. destruct (Z.ltb_spec 0 (compare x y)).
    + split; [done|]. inversion 1 as [|?? _ HR]; subst. inversion HR as [|?? (x' & y' & ?)]; subst.
      naive_solver lia.
    + rewrite deref_next, (ring_next _ _ _ _ _ R'), some_bind, (IH _ _ _ R') by lia.
      split.
      * intros S. constructor; [done|]. constructor. exists x, y. auto.
      * by inversion 1.
Qed.

Lemma list_is_sorted_spec m L l :
  list_rep m L l → list_is_sorted compare L m = Some true ↔ Sorted (le_data m) l.
Proof.
  intros R. unfold list_is_sorted. rewrite (list_first_priv_spec _ _ _ R), some_bind.
  pose proof (ring_size _ _ _ (rep_ring _ _ _ R)). destruct l as [|a l].
  - simpl hdn. rewrite decide_True by done. rewrite some_bind.
    unfold walk_fuel, list_nil. cbn [is_sorted_loop]. rewrite decide_True by done.
    split; [constructor|done].
  - change (hdn _ (a :: l)) with a.
    pose proof (ring_not_nil _ _ [] a l (rep_ring _ _ _ R)).
    rewrite decide_False by (intros [= ?]; done).
    rewrite deref_next, (ring_next _ _ [] a l (rep_ring _ _ _ R)), some_bind.
    apply (is_sorted_loop_spec m _ l [] a); [apply R|]. unfold walk_fuel. simpl in *. lia.
Qed.
End Sorted.
End Walks.

Section Transfer.
Context {D : Type}.
Implicit Types (m : gmap loc (lnode_t D)) (L : list_t) (a b : loc) (l d s : list loc).
Abbreviation SS := (λ a : loc, Some (Some a)).

(** What the pointer writes of a transfer do; [x] and [w] are the nodes
    before the gap in the source and at the end of the destination. *)
Definition transferred m m' nilS nilD x w first last : Prop :=
  (∀ a, nx m' a = if decide (a = w) then SS first else if decide (a = last) then SS nilD
                  else if decide (a = x) then SS nilS else nx m a) ∧
  (∀ a, pv m' a = if decide (a = nilD) then SS last else if decide (a = first) then SS w
                  else if decide (a = nilS) then SS x else pv m a).

Lemma NoDup_snoc_not (A : list loc) x : NoDup (A ++ [x]) → x ∉ A.
Proof. intros (_ & H & _)%NoDup_app. set_solver. Qed.

Lemma frame3 {A} (f g : loc → A) p q r v1 v2 v3 l :
  (∀ a, f a = if decide (a = p) then v1 else if decide (a = q) then v2
              else if decide (a = r) then v3 else g a) →
  p ∉ l → q ∉ l → r ∉ l → f <$> l = g <$> l.
Proof.
  intros Hf ???. apply fmap_frame. intros a Ha.
  rewrite Hf, !decide_False; [done|by intros ->..].
Qed.

Lemma transfer_source m m' nilS nilD s1 first s2 w :
  ring m nilS (s1 ++ first :: s2) → w ∉ nilS :: s1 → nilD ∉ nilS :: s1 →
  transferred m m' nilS nilD (lastn nilS s1) w first (lastn first s2) →
  ring m' nilS s1.
Proof.
  intros R Hw Hd [Hn Hp]. pose proof (ring_nodup _ _ _ R) as ND.
  destruct (cons_snoc nilS s1) as [A HA].
  destruct (proj1 (ring_cut m nilS s1 (first :: s2) A (s2 ++ [nilS]) HA eq_refl ND) R)
    as ((N1 & _) & P1 & _).
  set (x := lastn nilS s1) in *.
  rewrite app_comm_cons in ND. apply NoDup_app in ND as (ND1 & ND2 & ND3).
  assert (Hl : lastn first s2 ∉ nilS :: s1).
  { pose proof (lastn_in first s2). intros ?. eapply ND2; done. }
  assert (Hf : first ∉ nilS :: s1) by (intros ?; eapply ND2; [done|by left]).
  assert (HxA : x ∉ A) by (apply NoDup_snoc_not; by rewrite <- HA).
  assert (Hxin : x ∈ nilS :: s1) by apply lastn_in.
  rewrite <- (app_nil_r s1).
  apply (ring_cut m' nilS s1 [] A [] HA eq_refl); [by rewrite app_nil_r|]. fold x.
  change (hdn nilS []) with nilS. rewrite <- N1, <- P1.
  assert (HAs : A ⊆ nilS :: s1) by (rewrite HA; set_solver).
  apply NoDup_cons in ND1 as [HnS _]. apply not_elem_of_cons in Hw as [??], Hd as [??], Hl as [??], Hf as [??].
  rewrite (frame3 _ _ _ _ _ _ _ _ A Hn), (frame3 _ _ _ _ _ _ _ _ s1 Hp) by set_solver.
  rewrite Hn, Hp, !(decide_True _ _ eq_refl).
  rewrite !decide_False by (intros E; rewrite E in *; set_solver). done.
Qed.

Lemma transfer_dest m m' nilS nilD s1 first s2 d :
  ring m nilS (s1 ++ first :: s2) → ring m nilD d →
  NoDup (nilS :: (s1 ++ first :: s2) ++ nilD :: d) →
  transferred m m' nilS nilD (lastn nilS s1) (lastn nilD d) first (lastn first s2) →
  ring m' nilD (d ++ first :: s2).
Proof.
  intros R Rd ND [Hn Hp].
  destruct (cons_snoc nilS s1) as [A HA]. destruct (cons_snoc nilD d) as [B HB].
  destruct (cons_snoc first s2) as [C HC].
  set (x := lastn nilS s1) in *. set (w := lastn nilD d) in *. set (last := lastn first s2) in *.
  destruct (proj1 (ring_cut m nilS s1 (first :: s2) A (s2 ++ [nilS]) HA eq_refl
    (ring_nodup _ _ _ R)) R) as ((_ & _ & N3) & _ & _ & P3).
  rewrite <- (app_nil_r d) in Rd.
  destruct (proj1 (ring_cut m nilD d [] B [] HB eq_refl (ring_nodup _ _ _ Rd)) Rd)
    as ((M1 & _) & Q1 & _). rewrite app_nil_r in Rd.
  assert (LC : length C = length s2).
  { apply (f_equal length) in HC. rewrite length_app in HC. simpl in HC. lia. }
  rewrite HC, !fmap_app in N3. apply app_inj_1 in N3 as [N3 _]; [|by rewrite !length_fmap].
  rewrite HC, !fmap_app in P3. apply app_inj_1 in P3 as [P3 _]; [|by rewrite !length_fmap].
  assert (NDA : NoDup ((A ++ [x]) ++ (C ++ [last]) ++ (B ++ [w]))).
  { rewrite <- HA, <- HB, <- HC. revert ND. simpl. by rewrite <- app_assoc. }
  assert (NDL : NoDup (nilS :: s1 ++ first :: s2 ++ nilD :: d)).
  { revert ND. by rewrite <- app_assoc. }
  apply (ring_cut m' nilD d (first :: s2) B (s2 ++ [nilD]) HB eq_refl).
  { rewrite app_comm_cons, Permutation_app_comm. rewrite app_comm_cons in NDL.
    by apply NoDup_app in NDL as (_ & _ & ?). }
  fold w. change (hdn nilD (first :: s2)) with first.
  rewrite HC, !fmap_app, <- M1, <- Q1, <- N3, <- P3. cbn [fmap list_fmap].
  assert (H1 : x ∉ C ++ last :: B ++ [w]) by (apply NoDup_app in NDA as (_ & H & _); set_solver).
  assert (H2 : last ∉ C ++ B ++ [w] ∧ w ∉ B ++ C).
  { apply NoDup_app in NDA as (_ & _ & NDA). rewrite <- app_assoc in NDA. simpl in NDA.
    rewrite <- Permutation_middle in NDA. apply NoDup_cons in NDA as [? NDA].
    rewrite app_assoc in NDA. apply NoDup_snoc_not in NDA. set_solver. }
  apply NoDup_cons in NDL as [HnS NDL]. apply NoDup_app in NDL as (_ & Hs1 & NDL).
  apply NoDup_cons in NDL as [Hf NDL]. apply NoDup_app in NDL as (_ & Hs2 & [HnD _]%NoDup_cons).
  clear - Hn Hp H1 H2 HnS Hf Hs2 HnD.
  rewrite (frame3 _ _ _ _ _ _ _ _ B Hn), (frame3 _ _ _ _ _ _ _ _ C Hn) by set_solver.
  rewrite (frame3 _ _ _ _ _ _ _ _ d Hp), (frame3 _ _ _ _ _ _ _ _ s2 Hp) by set_solver.
  rewrite !Hn, !Hp, !(decide_True _ _ eq_refl).
  by rewrite (decide_False (P := last = w)), (decide_False (P := first = nilD)) by set_solver.
Qed.

(** The two lists of a transfer share no node. *)
Definition disjoint L1 l1 L2 l2 : Prop := NoDup (header_nodes L1 l1 ++ header_nodes L2 l2).

Lemma transfer_links_spec m Ld Ls first last x w :
  let nilS := list_nilnode Ls in let nilD := list_nilnode Ld in
  pv m first = Some (Some x) → pv m nilD = Some (Some w) →
  x ∈ dom m → w ∈ dom m → last ∈ dom m → first ∈ dom m → nilS ∈ dom m → nilD ∈ dom m →
  first ≠ nilS → nilD ≠ nilS → nilD ≠ first →
  ∃ m', transfer_links Ld Ls (Some first) (Some last) m = Some m' ∧
    transferred m m' nilS nilD x w first last ∧ relinked [nilS; nilD; first; last; x; w] m m'.
Proof.
  intros nilS nilD Hpf Hpd Dx Dw Dl Df DS DD Hfs Hds Hdf.
  unfold transfer_links, list_last_priv, list_nil. fold nilS nilD.
  rewrite !deref_prev, Hpf, some_bind, assign_alter, some_bind by solve_dom.
  rewrite deref_prev. views. rewrite decide_False, Hpf, some_bind by done.
  do 2 (rewrite assign_alter by solve_dom; rewrite some_bind).
  rewrite deref_prev. views. rewrite decide_False, Hpd, some_bind by done.
  rewrite assign_alter, some_bind by solve_dom.
  rewrite deref_prev. views. rewrite !decide_False, Hpd, some_bind by done.
  do 2 (rewrite assign_alter by solve_dom; rewrite ?some_bind).
  set (m' := alter _ nilD _).
  assert (T : transferred m m' nilS nilD x w first last) by (split; intros a; unfold m'; by views).
  exists m'. split; [done|]. split; [done|]. destruct T as [Hn Hp]. split.
  - unfold m'. by views.
  - intros a. unfold m'. by views.
  - intros a Ha. rewrite Hn, !decide_False; [done|intros ->; set_solver..].
  - intros a Ha. rewrite Hp, !decide_False; [done|intros ->; set_solver..].
Qed.

Lemma NoDup_sep (l1 l2 : list loc) a b : NoDup (l1 ++ l2) → a ∈ l1 → b ∈ l2 → a ≠ b.
Proof. intros (_ & H & _)%NoDup_app ?? ->. by eapply H. Qed.

Lemma transfer_lists m Ld Ls d s1 first s2 :
  let nilS := list_nilnode Ls in let nilD := list_nilnode Ld in
  list_rep m Ls (s1 ++ first :: s2) → list_rep m Ld d → disjoint Ls (s1 ++ first :: s2) Ld d →
  ∃ m', transfer_links Ld Ls (Some first) (Some (lastn first s2)) m = Some m' ∧
    ring m' nilS s1 ∧ ring m' nilD (d ++ first :: s2) ∧
    relinked (header_nodes Ls (s1 ++ first :: s2) ++ header_nodes Ld d) m m'.
Proof.
  intros nilS nilD [R _ _ _] [Rd _ _ _] Dj. unfold disjoint, header_nodes in *.
  fold nilS in R, Dj |- *. fold nilD in Rd, Dj |- *.
  pose proof (lastn_in nilS s1) as Hx. pose proof (lastn_in nilD d) as Hw.
  pose proof (lastn_in first s2) as Hl. pose proof (ring_nodup _ _ _ R) as NS.
  assert (Hfst : first ∈ nilS :: s1 ++ first :: s2) by set_solver.
  destruct (transfer_links_spec m Ld Ls first (lastn first s2) (lastn nilS s1) (lastn nilD d))
    as (m' & E & T & RL).
  - apply (ring_prev _ _ _ _ _ R).
  - apply (ring_last _ _ _ Rd).
  - apply (ring_dom _ _ _ _ R), lastn_app_in.
  - apply (ring_dom _ _ _ _ Rd), Hw.
  - apply (ring_dom _ _ _ _ R). set_solver.
  - apply (ring_dom _ _ _ _ R), Hfst.
  - apply (ring_dom _ _ _ _ R). by left.
  - apply (ring_dom _ _ _ _ Rd). by left.
  - by apply (ring_not_nil _ _ _ _ _ R).
  - apply not_eq_sym, (NoDup_sep _ _ _ _ Dj); by left.
  - apply not_eq_sym, (NoDup_sep _ _ _ _ Dj); [done|by left].
  - exists m'. split; [done|]. split; [|split].
    + eapply transfer_source; [done|..|done]; intros Hin; eapply (NoDup_sep _ _ _ _ Dj);
        [|exact Hw|done| |by left|done]; clear -Hin; set_solver.
    + eapply transfer_dest; [done..|]. done.
    + eapply relinked_mono; [done|]. clear -Hx Hw Hl. intros a. fold nilS nilD.
      pose proof (lastn_app_in nilS s1 (first :: s2)). set_solver.
Qed.

Lemma ow_list_transfer_spec m Ld Ls d s1 first s2 :
  list_rep m Ls (s1 ++ first :: s2) → list_rep m Ld d → disjoint Ls (s1 ++ first :: s2) Ld d →
  Z.of_nat (length (d ++ first :: s2)) ≤ list_maxcount Ld →
  ∃ m', ow_list_transfer Ld Ls (Some first) m =
      Some (m', with_count (Z.of_nat (length (d ++ first :: s2))) Ld,
                with_count (Z.of_nat (length s1)) Ls) ∧
    list_rep m' (with_count (Z.of_nat (length s1)) Ls) s1 ∧
    list_rep m' (with_count (Z.of_nat (length (d ++ first :: s2))) Ld) (d ++ first :: s2) ∧
    relinked (header_nodes Ls (s1 ++ first :: s2) ++ header_nodes Ld d) m m'.
Proof.
  intros R Rd Dj Hmax.
  destruct (transfer_lists m Ld Ls d s1 first s2 R Rd Dj) as (m' & E & R1 & R2 & RL).
  pose proof (rep_count _ _ _ R) as Hc. pose proof (rep_max _ _ _ R). pose proof (rep_word _ _ _ R).
  pose proof (rep_count _ _ _ Rd) as Hcd. pose proof (rep_word _ _ _ Rd).
  rewrite !length_app in *. simpl length in *.
  assert (S1 : list_rep m' (with_count (Z.of_nat (length s1)) Ls) s1) by (split; simpl; [done|lia..]).
  assert (S2 : list_rep m' (with_count (Z.of_nat (length d + S (length s2))) Ld) (d ++ first :: s2)).
  { split; simpl; rewrite ?length_app; simpl; [done|lia..]. }
  unfold ow_list_transfer. rewrite decide_False by done.
  rewrite (list_contains_in _ _ _ _ R), some_bind by set_solver. cbn [c_assert]. rewrite some_bind.
  rewrite (list_last_priv_spec _ _ _ R), some_bind.
  replace (lastn (list_nilnode Ls) (s1 ++ first :: s2)) with (lastn first s2).
  2: { unfold lastn. rewrite last_app, last_cons. by destruct (list.last s2). }
  rewrite E, some_bind, (count_to_spec m' (list_nilnode Ld) s2 d first []).
  - rewrite some_bind, (proj2 (Z.leb_le _ _)) by lia. cbn [c_assert]. rewrite some_bind. cbn zeta.
    rewrite !wrap_small by lia. rewrite Hc, Hcd.
    replace (Z.of_nat (length s1 + S (length s2)) - (1 + Z.of_nat (length s2)))
      with (Z.of_nat (length s1)) by lia.
    replace (Z.of_nat (length d) + (1 + Z.of_nat (length s2)))
      with (Z.of_nat (length d + S (length s2))) by lia.
    rewrite (list_verify_spec _ _ _ S1), (list_verify_spec _ _ _ S2), !some_bind. simpl. eauto.
  - by rewrite app_nil_r.
  - pose proof (ring_size _ _ _ R2) as Hs. rewrite length_app in Hs. simpl in Hs. unfold walk_fuel. lia.
  - lia.
  - lia.
Qed.
End Transfer.

Section Merge.
Context {D : Type} (compare : D → D → Z).
Implicit Types (m : gmap loc (lnode_t D)) (L : list_t) (a b : loc) (l d s : list loc).

(** [compare] is a total preorder, as [list_sort]'s callers must provide. *)
Context (cmp_trans : ∀ x y z, compare x y ≤ 0 → compare y z ≤ 0 → compare x z ≤ 0)
        (cmp_total : ∀ x y, 0 ≤ compare x y → compare y x ≤ 0).

Abbreviation le := (le_data compare).

Lemma le_trans m : Transitive (le m).
Proof.
  intros a b c (x & y & ? & Hb & ?) (y' & z & Hb' & ? & ?). rewrite Hb in Hb'. injection Hb' as <-.
  exists x, z. eauto.
Qed.

Lemma le_ext m m' a b : (∀ a, dt m' a = dt m a) → le m' a b ↔ le m a b.
Proof. intros H. unfold le_data. by setoid_rewrite H. Qed.

Lemma ssorted_ext_in m m' l :
  (∀ a, a ∈ l → dt m' a = dt m a) → StronglySorted (le m) l → StronglySorted (le m') l.
Proof.
  intros H. induction 1 as [|a l _ IH Ha]; constructor.
  - apply IH. intros b Hb. apply H. by right.
  - rewrite Forall_forall in Ha |- *. intros b Hb. unfold le_data.
    rewrite (H a), (H b) by (by left || by right). by apply Ha.
Qed.

Lemma ssorted_ext m m' l :
  (∀ a, dt m' a = dt m a) → StronglySorted (le m) l → StronglySorted (le m') l.
Proof. intros H. by apply ssorted_ext_in. Qed.

Lemma sorted_check m L l :
  list_rep m L l → StronglySorted (le m) l → list_is_sorted compare L m = Some true.
Proof. intros R S. by apply (list_is_sorted_spec _ _ _ _ R), StronglySorted_Sorted. Qed.

(** One node moved from the front of the source in front of [d2]. *)
Lemma merge_move m Ld Ls d1 d2 b s :
  list_rep m Ld (d1 ++ d2) → list_rep m Ls (b :: s) → disjoint Ld (d1 ++ d2) Ls (b :: s) →
  list_nodecount Ld < list_maxcount Ld →
  ∃ m1 m2,
    let Ls' := with_count (wrap64 (list_nodecount Ls - 1)) Ls in
    let Ld' := with_count (wrap64 (list_nodecount Ld + 1)) Ld in
    list_delete Ls (Some b) m = Some (m1, Ls', Some b) ∧
    list_ins_before Ld (Some b) (Some (hdn (list_nilnode Ld) d2)) m1 = Some (m2, Ld') ∧
    list_rep m2 Ld' (d1 ++ b :: d2) ∧ list_rep m2 Ls' s ∧
    disjoint Ld' (d1 ++ b :: d2) Ls' s ∧
    relinked (header_nodes Ld (d1 ++ d2) ++ header_nodes Ls (b :: s)) m m2.
Proof.
  intros Rd Rs Dj Hlt. destruct (unlink_spec m Ls [] b s Rs) as (m1 & E1 & R1 & Hb & RL1).
  unfold disjoint, header_nodes in *.
  pose proof (hdn_in (list_nilnode Ls) s) as Hh.
  set (nilS := list_nilnode Ls) in *. set (nilD := list_nilnode Ld) in *.
  assert (Rd1 : list_rep m1 Ld (d1 ++ d2)).
  { eapply list_rep_relinked; [exact RL1| |done]. intros a Ha Hin.
    eapply (NoDup_sep _ _ _ _ Dj Ha); [|done]. clear - Hin Hh. fold nilS. set_solver. }
  destruct (list_ins_before_spec m1 Ld d1 d2 b Rd1 Hb Hlt) as (m2 & L2 & E2 & -> & R2 & RL2).
  exists m1, m2. unfold list_delete. rewrite E1. simpl. split; [done|]. split; [done|].
  split; [done|]. fold nilS nilD in RL1, RL2 |- *.
  pose proof (lastn_app_in nilD d1 d2). pose proof (hdn_app_in nilD d1 d2).
  split; [|split].
  - eapply list_rep_relinked; [exact RL2| |done]. intros a Ha Hin.
    assert (a ≠ b).
    { intros ->. apply NoDup_app in Dj as (_ & _ & Dj). rewrite Permutation_swap in Dj.
      apply NoDup_cons in Dj as [Dj _]. by destruct Dj. }
    eapply (NoDup_sep _ _ a a Dj); [|fold nilS in Ha; clear - Ha|done]; set_solver.
  - assert (P : (nilD :: d1 ++ d2) ++ nilS :: b :: s ≡ₚ (nilD :: d1 ++ b :: d2) ++ nilS :: s)
      by solve_Permutation.
    by rewrite P in Dj.
  - eapply relinked_trans; [exact RL1|exact RL2|..]; clear - Hh H H0; set_solver.
Qed.

Definition same_header L L' : Prop :=
  list_nilnode L' = list_nilnode L ∧ list_maxcount L' = list_maxcount L.

(** The loop invariant: [d1] is what the cursor has passed in the
    destination, [s] what is left of the source. *)
Record merge_inv m Ld Ls d1 d2 s : Prop := {
  mi_dest : list_rep m Ld (d1 ++ d2);
  mi_src : list_rep m Ls s;
  mi_disj : disjoint Ld (d1 ++ d2) Ls s;
  mi_room : Z.of_nat (length (d1 ++ d2) + length s) ≤ list_maxcount Ld;
  mi_dsort : StronglySorted (le m) (d1 ++ d2);
  mi_ssort : StronglySorted (le m) s;
  mi_le : ∀ a b, a ∈ d1 → b ∈ s → le m a b;
}.

Lemma rep_data m L l a : list_rep m L l → a ∈ l → is_Some (dt m a).
Proof. intros R Ha. apply dom_dt, (ring_dom _ _ _ _ (rep_ring _ _ _ R)). by right. Qed.

Lemma merge_inv_move m m2 Ld Ls Ld' Ls' d1 a d2 b s :
  merge_inv m Ld Ls d1 (a :: d2) (b :: s) → le m b a → (∀ a, dt m2 a = dt m a) →
  list_rep m2 Ld' (d1 ++ b :: a :: d2) → list_rep m2 Ls' s →
  disjoint Ld' (d1 ++ b :: a :: d2) Ls' s → list_maxcount Ld' = list_maxcount Ld →
  merge_inv m2 Ld' Ls' (d1 ++ [b]) (a :: d2) s.
Proof.
  intros [_ _ _ Hr S1 S2 Hle] Hba Hdt R1 R2 Dj Hm.
  apply StronglySorted_app in S1 as (H1 & SD1 & SD2).
  pose proof SD2 as [_ Ha2]%StronglySorted_inv. rewrite Forall_forall in Ha2.
  apply StronglySorted_inv in S2 as [S2 Hb2]. rewrite Forall_forall in Hb2.
  split; rewrite <- ?app_assoc; try done.
  - rewrite Hm. rewrite !length_app in *. simpl in *. lia.
  - apply (ssorted_ext m m2 _ Hdt). apply StronglySorted_app_2; [|done|].
    + intros x y Hx Hy. apply elem_of_cons in Hy as [->|Hy]; [by apply Hle; [|left]|by apply H1].
    + constructor; [done|]. apply Forall_forall. intros y Hy.
      apply elem_of_cons in Hy as [->|Hy]; [done|]. eapply le_trans; eauto.
  - by apply (ssorted_ext m m2 _ Hdt).
  - intros x y Hx Hy. apply (le_ext m m2 x y Hdt). apply elem_of_app in Hx as [Hx|Hx].
    + apply Hle; [done|by right].
    + apply list_elem_of_singleton in Hx as ->. by apply Hb2.
Qed.

Lemma merge_inv_advance m Ld Ls d1 a d2 b s :
  merge_inv m Ld Ls d1 (a :: d2) (b :: s) → le m a b →
  merge_inv m Ld Ls (d1 ++ [a]) d2 (b :: s).
Proof.
  intros [? ? ? ? ? S2 Hle] Hab. split; rewrite <- ?app_assoc; try done.
  apply StronglySorted_inv in S2 as [_ Hb2]. rewrite Forall_forall in Hb2.
  intros x y Hx Hy. apply elem_of_app in Hx as [Hx|Hx]; [by apply Hle|].
  apply list_elem_of_singleton in Hx as ->.
  apply elem_of_cons in Hy as [->|Hy]; [done|]. eapply le_trans; eauto.
Qed.

Lemma merge_loop_spec : ∀ fuel m Ld Ls d1 d2 s,
  merge_inv m Ld Ls d1 d2 s → (length d2 + length s < fuel)%nat →
  ∃ m' Ld' Ls' d1' d2' s',
    merge_loop compare fuel Ld Ls (Some (hdn (list_nilnode Ld) d2))
      (Some (hdn (list_nilnode Ls) s)) m
    = Some (m', Ld', Ls', Some (hdn (list_nilnode Ld) d2'), Some (hdn (list_nilnode Ls) s')) ∧
    merge_inv m' Ld' Ls' d1' d2' s' ∧ (d2' = [] ∨ s' = []) ∧
    (d1' ++ d2') ++ s' ≡ₚ (d1 ++ d2) ++ s ∧ same_header Ld Ld' ∧ same_header Ls Ls' ∧
    relinked (header_nodes Ld (d1 ++ d2) ++ header_nodes Ls s) m m'.
Proof.
  induction fuel as [|fuel IH]; intros m Ld Ls d1 d2 s I Hf; [lia|]. cbn [merge_loop].
  destruct d2 as [|a d2]; [|destruct s as [|b s]].
  - rewrite decide_True by by left. exists m, Ld, Ls, d1, [], s. split_and!; auto using relinked_refl.
    all: done.
  - rewrite decide_True by by right. exists m, Ld, Ls, d1, (a :: d2), []. split_and!; auto using relinked_refl.
    all: done.
  - pose proof (ring_not_nil _ _ _ _ _ (rep_ring _ _ _ (mi_dest _ _ _ _ _ _ I))) as Na.
    pose proof (ring_not_nil _ _ [] _ _ (rep_ring _ _ _ (mi_src _ _ _ _ _ _ I))) as Nb.
    change (hdn _ (a :: d2)) with a. change (hdn _ (b :: s)) with b.
    rewrite decide_False by (intros [[= ?]|[= ?]]; done).
    destruct (rep_data _ _ _ a (mi_dest _ _ _ _ _ _ I)) as [x Hx]; [set_solver|].
    destruct (rep_data _ _ _ b (mi_src _ _ _ _ _ _ I)) as [y Hy]; [set_solver|].
    unfold lnode_get. rewrite !deref_data, Hx, Hy, !some_bind.
    destruct (Z.leb_spec 0 (compare x y)) as [Hc|Hc].
    + assert (Hba : le m b a) by (exists y, x; auto).
      destruct (merge_move m Ld Ls d1 (a :: d2) b s) as (m1 & m2 & E1 & E2 & R1 & R2 & Dj & RL);
        try apply I.
      { pose proof (mi_room _ _ _ _ _ _ I) as Hr. rewrite (rep_count _ _ _ (mi_dest _ _ _ _ _ _ I)).
        simpl in Hr. lia. }
      change (hdn _ (a :: d2)) with a in E2.
      rewrite deref_next, (ring_next _ _ [] _ _ (rep_ring _ _ _ (mi_src _ _ _ _ _ _ I))), some_bind.
      rewrite E1, some_bind, E2, some_bind.
      destruct (IH m2 _ _ (d1 ++ [b]) (a :: d2) s
        (merge_inv_move _ _ _ _ _ _ _ _ _ _ _ I Hba (rl_data _ _ _ RL) R1 R2 Dj eq_refl))
        as (m' & Ld' & Ls' & d1' & d2' & s' & E & I' & Hend & HP & H1 & H2 & RL'); [simpl in *; lia|].
      exists m', Ld', Ls', d1', d2', s'. split; [exact E|]. split_and!; try done.
      * rewrite HP. solve_Permutation.
      * eapply relinked_trans; [exact RL|exact RL'|done|]. clear. unfold header_nodes. simpl. set_solver.
    + assert (Hab : le m a b) by (exists x, y; auto with lia).
      rewrite deref_next, (ring_next _ _ _ _ _ (rep_ring _ _ _ (mi_dest _ _ _ _ _ _ I))), some_bind.
      destruct (IH m Ld Ls (d1 ++ [a]) d2 (b :: s) (merge_inv_advance _ _ _ _ _ _ _ _ I Hab))
        as (m' & Ld' & Ls' & d1' & d2' & s' & E & I' & Hend & HP & H1 & H2 & RL'); [simpl in *; lia|].
      exists m', Ld', Ls', d1', d2', s'. split; [exact E|]. rewrite <- (app_assoc d1 [a] d2) in HP, RL'.
      done.
Qed.

Lemma ow_list_merge_spec m Ld Ls d s :
  list_rep m Ld d → list_rep m Ls s → disjoint Ld d Ls s →
  Z.of_nat (length d + length s) ≤ list_maxcount Ld →
  StronglySorted (le m) d → StronglySorted (le m) s →
  ∃ m' Ld' Ls' l, ow_list_merge compare Ld Ls m = Some (m', Ld', Ls') ∧
    list_rep m' Ld' l ∧ list_rep m' Ls' [] ∧ l ≡ₚ d ++ s ∧ StronglySorted (le m') l ∧
    same_header Ld Ld' ∧ same_header Ls Ls' ∧
    relinked (header_nodes Ld d ++ header_nodes Ls s) m m'.
Proof.
  intros Rd Rs Dj Hmax Sd Ss. unfold ow_list_merge.
  rewrite decide_False by (apply (NoDup_sep _ _ _ _ Dj); by left).
  rewrite (sorted_check _ _ _ Rs Ss), (sorted_check _ _ _ Rd Sd), !some_bind. cbn [c_assert].
  rewrite !some_bind, (list_first_priv_spec _ _ _ Rd), (list_first_priv_spec _ _ _ Rs), !some_bind.
  destruct (merge_loop_spec (walk_fuel m) m Ld Ls [] d s)
    as (m' & Ld' & Ls' & d1 & d2 & s' & -> & I & Hend & HP & [N1 M1] & [N2 M2] & RL).
  { split; try done. intros a b Ha. by apply not_elem_of_nil in Ha. }
  { assert (length (header_nodes Ld d ++ header_nodes Ls s) ≤ size (dom m))%nat as Hs.
    { rewrite <- (size_list_to_set (C := gset loc)) by exact Dj. apply subseteq_size.
      intros a [Ha|Ha]%elem_of_list_to_set%elem_of_app;
        [by apply (ring_dom _ _ _ a (rep_ring _ _ _ Rd))|by apply (ring_dom _ _ _ a (rep_ring _ _ _ Rs))]. }
    rewrite size_dom, length_app in Hs. simpl in Hs. unfold walk_fuel. lia. }
  rewrite some_bind. destruct I as [R1 R2 Dj' Hr S1 S2 Hle]. unfold list_nil.
  rewrite N1, N2. rewrite <- N1, <- N2.
  destruct d2 as [|a d2].
  - rewrite app_nil_r in *. rewrite decide_False by (intros H; by apply H).
    destruct s' as [|b s'].
    + rewrite decide_False by (intros H; by apply H). exists m', Ld', Ls', d1.
      rewrite app_nil_r in HP. by split_and!.
    + pose proof (ring_not_nil _ _ [] _ _ (rep_ring _ _ _ R2)).
      rewrite decide_True by (intros [= ?]; done). change (hdn _ (b :: s')) with b.
      destruct (ow_list_transfer_spec m' Ld' Ls' d1 [] b s') as (m2 & E & R3 & R4 & RL2); try done.
      { unfold disjoint in *. rewrite Permutation_app_comm. exact Dj'. }
      { rewrite length_app. simpl in Hr |- *. lia. }
      rewrite E. eexists m2, _, _, (d1 ++ b :: s'). split; [done|]. split_and!; try done.
      * apply (ssorted_ext m' m2 _ (rl_data _ _ _ RL2)). by apply StronglySorted_app_2.
      * eapply relinked_trans; [exact RL|exact RL2|done|]. unfold header_nodes.
        rewrite N1, N2. intros x Hx.
        assert (x ∈ list_nilnode Ld :: list_nilnode Ls :: d1 ++ b :: s') as Hx' by (clear -Hx; set_solver).
        rewrite HP in Hx'. clear -Hx'. set_solver.
  - destruct Hend as [?| ->]; [done|].
    pose proof (ring_not_nil _ _ _ _ _ (rep_ring _ _ _ R1)).
    rewrite decide_True by (intros [= ?]; done). exists m', Ld', Ls', (d1 ++ a :: d2).
    rewrite app_nil_r in HP. by split_and!.
Qed.

(** Allocating and releasing the local list of [list_sort]. *)
Lemma insert_frame m n e a :
  a ≠ e → nx (<[e := n]> m) a = nx m a ∧ pv (<[e := n]> m) a = pv m a ∧
          dt (<[e := n]> m) a = dt m a.
Proof. intros Hne. unfold nx, pv, dt. by rewrite !lookup_insert_ne by done. Qed.

Lemma list_init_spec m e junk c :
  e ∉ dom m → 0 < c < 2 ^ 64 →
  ∃ m', list_init e junk c m = Some (m', ListT e 0 c) ∧ list_rep m' (ListT e 0 c) [] ∧
    dom m' = {[e]} ∪ dom m ∧
    ∀ a, a ≠ e → nx m' a = nx m a ∧ pv m' a = pv m a ∧ dt m' a = dt m a.
Proof.
  intros He Hc. unfold list_init. rewrite (proj2 (Z.eqb_neq _ _)) by lia. simpl.
  eexists. split; [done|]. split; [|split; [apply dom_insert_L|intros a; apply insert_frame]].
  split; simpl; try lia. split.
  - apply NoDup_singleton.
  - cbn. unfold nx. by rewrite lookup_insert_eq.
  - cbn. unfold pv. by rewrite lookup_insert_eq.
Qed.

Lemma delete_frame m e a :
  a ≠ e → nx (delete e m) a = nx m a ∧ pv (delete e m) a = pv m a ∧ dt (delete e m) a = dt m a.
Proof. intros Hne. unfold nx, pv, dt. by rewrite !lookup_delete_ne by done. Qed.

Lemma list_rep_frame m m' L l :
  (∀ a, a ∈ header_nodes L l → nx m' a = nx m a ∧ pv m' a = pv m a) →
  list_rep m L l → list_rep m' L l.
Proof. intros H [? ? ? ?]. split; try done. by eapply ring_frame. Qed.

Lemma ssorted_short m l : (length l ≤ 1)%nat → StronglySorted (le m) l.
Proof. destruct l as [|a [|b l]]; simpl; intros; [constructor|by repeat constructor|lia]. Qed.

(** Splitting the right half off into a new local list. *)
Lemma sort_split m L l junk :
  list_rep m L l → (2 ≤ length l)%nat →
  let c := Z.of_nat (length l) in let e := fresh (dom m) in
  ∃ l1 first l2 m1 node m2,
    l = l1 ++ first :: l2 ∧ (length l1 < length l)%nat ∧ (length (first :: l2) < length l)%nat ∧
    list_first_priv L m = Some node ∧
    list_init e junk (c - c / 2) m = Some (m1, ListT e 0 (c - c / 2)) ∧
    advance (Z.to_nat (c / 2)) node m1 = Some (Some first) ∧
    let E := ListT e (Z.of_nat (length (first :: l2))) (c - c / 2) in
    let L1 := with_count (Z.of_nat (length l1)) L in
    ow_list_transfer (ListT e 0 (c - c / 2)) L (Some first) m1 = Some (m2, E, L1) ∧
    list_rep m2 L1 l1 ∧ list_rep m2 E (first :: l2) ∧ disjoint L1 l1 E (first :: l2) ∧
    dom m2 = {[e]} ∪ dom m ∧ (∀ a, a ≠ e → dt m2 a = dt m a) ∧
    (∀ a, a ≠ e → a ∉ header_nodes L l → nx m2 a = nx m a ∧ pv m2 a = pv m a).
Proof.
  intros R H2 c e. assert (He : e ∉ dom m) by apply is_fresh.
  assert (He' : ∀ a, a ∈ header_nodes L l → a ≠ e).
  { intros a Ha ->. apply He. by apply (ring_dom _ _ _ _ (rep_ring _ _ _ R)). }
  assert (Hc : c = Z.of_nat (length l)) by done. clearbody c.
  assert (1 ≤ c / 2 < c) by (split; [apply Z.div_le_lower_bound|apply Z.div_lt]; lia).
  pose proof (rep_word _ _ _ R). pose proof (rep_max _ _ _ R). pose proof (rep_count _ _ _ R).
  assert (Hk : (Z.to_nat (c / 2) < length l)%nat) by lia.
  apply lookup_lt_is_Some in Hk as [first Hk].
  pose proof (take_drop_middle l _ first Hk) as El.
  set (l1 := take _ l) in *. set (l2 := drop _ l) in *.
  assert (Ll : length l1 = Z.to_nat (c / 2)) by (unfold l1; rewrite length_take; lia).
  destruct (list_init_spec m e junk (c - c / 2)) as (m1 & Hi & R1 & Hd1 & Hf1); [done|lia|].
  assert (Rl : list_rep m1 L (l1 ++ first :: l2)).
  { rewrite El. eapply list_rep_frame; [|exact R]. intros a Ha.
    by destruct (Hf1 a (He' a Ha)) as (? & ? & _). }
  assert (Dj : disjoint L (l1 ++ first :: l2) (ListT e 0 (c - c / 2)) []).
  { unfold disjoint. rewrite El. apply NoDup_app. split; [apply R|]. split.
    - intros a Ha Hin. apply list_elem_of_singleton in Hin. by apply (He' a).
    - apply NoDup_singleton. }
  assert (Llen : length l = (length l1 + S (length l2))%nat) by (rewrite <- El, length_app; simpl; lia).
  destruct (ow_list_transfer_spec m1 (ListT e 0 (c - c / 2)) L [] l1 first l2 Rl R1 Dj)
    as (m2 & Ht & R2 & R3 & RL); [simpl; lia|].
  exists l1, first, l2, m1, (Some (hdn (list_nilnode L) l)), m2. simpl length in *.
  cbv zeta. split_and!; try done; try lia.
  - by apply list_first_priv_spec.
  - rewrite <- Ll, <- El. apply (advance_spec m1 _ l1 [] (first :: l2)), Rl.
  - unfold disjoint, header_nodes in *. simpl in *.
    assert (P : (list_nilnode L :: (l1 ++ first :: l2) ++ [e])
      ≡ₚ (list_nilnode L :: l1 ++ e :: first :: l2)) by solve_Permutation.
    by rewrite P in Dj.
  - by rewrite (rl_dom _ _ _ RL), Hd1.
  - intros a Ha. rewrite (rl_data _ _ _ RL). by apply Hf1.
  - intros a Ha Hn. rewrite El in RL. rewrite (rl_next _ _ _ RL), (rl_prev _ _ _ RL).
    1: by destruct (Hf1 a Ha) as (? & ? & _).
    all: rewrite elem_of_app; intros [?|?%list_elem_of_singleton]; done.
Qed.

(** Giving the local list back and checking the result. *)
Lemma sort_finish m m2 m5 L L5 l l' e :
  list_rep m L l → list_rep m5 L5 l' → StronglySorted (le m5) l' → l' ≡ₚ l → e ∉ dom m →
  list_nilnode L5 = list_nilnode L → list_maxcount L5 = list_maxcount L →
  relinked (e :: header_nodes L l) m2 m5 → dom m2 = {[e]} ∪ dom m →
  (∀ a, a ≠ e → dt m2 a = dt m a) →
  (∀ a, a ≠ e → a ∉ header_nodes L l → nx m2 a = nx m a ∧ pv m2 a = pv m a) →
  ∃ m' L' l0,
    (b ← list_is_sorted compare L5 (delete e m5); assert! b; Some (delete e m5, L5))
      = Some (m', L') ∧
    list_rep m' L' l0 ∧ l0 ≡ₚ l ∧ StronglySorted (le m') l0 ∧ same_header L L' ∧
    relinked (header_nodes L l) m m'.
Proof.
  intros R R5 S5 Pl He Hnil Hmax RL Hd Hdt Hfr.
  assert (Hne : ∀ a, a ∈ header_nodes L5 l' → a ≠ e).
  { intros a Ha ->. apply He. unfold header_nodes in Ha. rewrite Hnil, Pl in Ha.
    by apply (ring_dom _ _ _ _ (rep_ring _ _ _ R)). }
  assert (R6 : list_rep (delete e m5) L5 l').
  { eapply list_rep_frame; [|exact R5]. intros a Ha.
    by destruct (delete_frame m5 e a (Hne a Ha)) as (? & ? & _). }
  assert (S6 : StronglySorted (le (delete e m5)) l').
  { eapply ssorted_ext_in; [|exact S5]. intros a Ha. apply delete_frame, Hne. by right. }
  rewrite (sorted_check _ _ _ R6 S6), some_bind. cbn [c_assert]. rewrite some_bind.
  exists (delete e m5), L5, l'. split_and!; try done. split.
  - rewrite dom_delete_L, (rl_dom _ _ _ RL), Hd. set_solver.
  - intros a. destruct (decide (a = e)) as [->|Ha].
    + unfold dt. rewrite lookup_delete_eq. by rewrite (proj1 (not_elem_of_dom m e)).
    + rewrite <- Hdt, <- (rl_data _ _ _ RL) by done. by apply delete_frame.
  - intros a Ha. destruct (decide (a = e)) as [->|Hae].
    + unfold nx. rewrite lookup_delete_eq. by rewrite (proj1 (not_elem_of_dom m e)).
    + destruct (delete_frame m5 e a Hae) as (-> & _). destruct (Hfr a Hae Ha) as [<- _].
      apply RL. by rewrite elem_of_cons; intros [?|?].
  - intros a Ha. destruct (decide (a = e)) as [->|Hae].
    + unfold pv. rewrite lookup_delete_eq. by rewrite (proj1 (not_elem_of_dom m e)).
    + destruct (delete_frame m5 e a Hae) as (_ & -> & _). destruct (Hfr a Hae Ha) as [_ <-].
      apply RL. by rewrite elem_of_cons; intros [?|?].
Qed.

Lemma sort_loop_spec junk : ∀ fuel m L l,
  list_rep m L l → (length l < fuel)%nat →
  ∃ m' L' l', sort_loop compare fuel junk L m = Some (m', L') ∧ list_rep m' L' l' ∧
    l' ≡ₚ l ∧ StronglySorted (le m') l' ∧ same_header L L' ∧ relinked (header_nodes L l) m m'.
Proof.
  induction fuel as [|fuel IH]; intros m L l R Hf; [lia|]. cbn [sort_loop].
  unfold list_count. rewrite (rep_count _ _ _ R). destruct (Z.ltb_spec 1 (Z.of_nat (length l))).
  - destruct (sort_split m L l junk R) as (l1 & first & l2 & m1 & node & m2 & El & Hl1 & Hl2 &
      -> & Hi & Ha & Ht & R1 & R2 & Dj & Hd & Hdt & Hfr); [lia|].
    rewrite some_bind, Hi, some_bind, Ha, some_bind, Ht, some_bind.
    set (e := fresh (dom m)) in *. set (E := ListT e (Z.of_nat (length (first :: l2))) _) in *.
    destruct (IH m2 _ l1 R1) as (m3 & L3 & l1' & -> & R3 & P3 & S3 & [N3 M3] & RL3); [lia|].
    assert (RE3 : list_rep m3 E (first :: l2)).
    { eapply list_rep_relinked; [exact RL3| |exact R2]. intros a ? ?.
      by apply (NoDup_sep _ _ a a Dj). }
    destruct (IH m3 E (first :: l2) RE3) as (m4 & E4 & le' & HE4 & R4 & P4 & S4 & [N4 M4] & RL4); [lia|].
    rewrite some_bind, HE4, some_bind.
    assert (RL34 : list_rep m4 L3 l1').
    { eapply list_rep_relinked; [exact RL4| |exact R3]. intros a H1 H2. unfold header_nodes in H1.
      rewrite N3, P3 in H1. by apply (NoDup_sep _ _ a a Dj). }
    destruct (ow_list_merge_spec m4 L3 E4 l1' le')
      as (m5 & L5 & E5 & l' & HE5 & R5 & _ & P5 & S5 & [N5 M5] & [N6 M6] & RL5); try done.
    { unfold disjoint, header_nodes. rewrite N3, N4, P3, P4. exact Dj. }
    { rewrite P3, P4, M3. simpl. pose proof (rep_max _ _ _ R) as Hm.
      rewrite (rep_count _ _ _ R), El, length_app in Hm. simpl in Hm. lia. }
    { by apply (ssorted_ext m3 m4 _ (rl_data _ _ _ RL4)). }
    rewrite HE5, some_bind. cbn [fst snd]. rewrite some_bind.
    replace (list_nilnode E5) with e by (rewrite N6, N4; done).
    assert (Hnil : list_nilnode L5 = list_nilnode L) by (rewrite N5, N3; done).
    assert (Pl : l' ≡ₚ l) by (by rewrite P5, P3, P4, El).
    assert (RLL : relinked (e :: header_nodes L l) m2 m5).
    { assert (HL : header_nodes L l1 ++ header_nodes E (first :: l2) ⊆ e :: header_nodes L l).
      { rewrite El. clear. unfold header_nodes. simpl. set_solver. }
      eapply (relinked_trans (header_nodes L l1 ++ header_nodes E (first :: l2))); [|exact RL5|done|].
      - eapply relinked_trans; [exact RL3|exact RL4|clear; set_solver..].
      - intros a Hin. apply HL. revert Hin. unfold header_nodes. by rewrite N3, N4, P3, P4. }
    apply (sort_finish m m2 m5 L L5 l l' e); try done; [apply is_fresh|by rewrite M5, M3].
  - rewrite some_bind. cbn [fst snd].
    assert (S : StronglySorted (le m) l) by (apply ssorted_short; lia).
    rewrite (sorted_check _ _ _ R S), some_bind. cbn [c_assert]. rewrite some_bind.
    exists m, L, l. split_and!; auto using relinked_refl. done.
Qed.
End Merge.

Section Destroy.
Context {D : Type}.
Implicit Types (m : gmap loc (lnode_t D)) (L : list_t) (a b : loc) (l : list loc).

Lemma destroy_node m a n :
  m !! a = Some n →
  ∃ m1 m2, assign (with_next None) (Some a) m = Some m1 ∧
    assign (with_prev None) (Some a) m1 = Some m2 ∧
    deref list_data (Some a) m2 = Some (list_data n) ∧
    lnode_destroy (Some a) m2 = Some (delete a m).
Proof.
  intros Ha. exists (<[a := with_next None n]> m), (<[a := with_prev None (with_next None n)]> m).
  unfold assign, deref, lnode_destroy, lnode_is_in_a_list, deref. cbn [mbind option_bind].
  rewrite Ha, !lookup_insert_eq. simpl. rewrite insert_insert_eq.
  split_and!; try done. by rewrite delete_insert_eq.
Qed.

(** The nodes of [l] linked forward to [nil], whatever happened to the nodes
    before them. *)
Definition forward m nil l : Prop :=
  ∀ l1 a l2, l = l1 ++ a :: l2 → nx m a = Some (Some (hdn nil l2)).

Lemma forward_cons m m' nil a l :
  forward m nil (a :: l) → (∀ b, b ∈ l → m' !! b = m !! b) → forward m' nil l.
Proof.
  intros F H l1 b l2 ->. unfold nx. rewrite H by set_solver. by apply (F (a :: l1)).
Qed.

Lemma destroy_loop_spec nil l : ∀ m fuel fr,
  forward m nil l → NoDup (nil :: l) → (length l < fuel)%nat →
  ∃ m' ds, destroy_loop fuel (Some nil) (Some (hdn nil l)) m fr = Some (m', fr ++ ds) ∧
    mapM (dt m) l = Some ds ∧ (∀ a, a ∈ l → m' !! a = None) ∧ (∀ a, a ∉ l → m' !! a = m !! a).
Proof.
  induction l as [|a l IH]; intros m [|fuel] fr F ND Hf; simpl in Hf; try lia; cbn [destroy_loop].
  - rewrite decide_True by done. exists m, []. rewrite app_nil_r. split_and!; try done.
    intros a Ha. by apply not_elem_of_nil in Ha.
  - pose proof ND as [Hn [Ha ND']%NoDup_cons]%NoDup_cons.
    change (hdn nil (a :: l)) with a. rewrite decide_False by (intros [= ->]; set_solver).
    pose proof (F [] a l eq_refl) as Hnx. rewrite deref_next, Hnx, some_bind.
    unfold nx in Hnx. apply fmap_Some in Hnx as (n & Hm & _).
    destruct (destroy_node m a n Hm) as (m1 & m2 & -> & E2 & E3 & E4).
    rewrite some_bind, E2, some_bind, E3, some_bind, E4, some_bind.
    assert (Hd : ∀ b, b ∈ l → delete a m !! b = m !! b).
    { intros b Hb. rewrite lookup_delete_ne; [done|]. by intros ->. }
    destruct (IH (delete a m) fuel (fr ++ [list_data n])) as (m' & ds & E & Hds & H1 & H2).
    { by eapply forward_cons. }
    { apply NoDup_cons. split; [set_solver|done]. }
    { lia. }
    exists m', (list_data n :: ds). rewrite E, <- app_assoc. split_and!; [done|..].
    + apply mapM_Some. constructor; [unfold dt; by rewrite Hm|]. apply mapM_Some.
      rewrite <- Hds. apply Forall_mapM_ext, Forall_forall. intros b Hb. unfold dt. by rewrite Hd.
    + intros b [->|Hb]%elem_of_cons; [|by apply H1]. rewrite H2 by done. apply lookup_delete_eq.
    + intros b Hb. rewrite H2 by set_solver. apply lookup_delete_ne. set_solver.
Qed.

Lemma ring_forward m nil l : ring m nil l → forward m nil l.
Proof. intros R l1 a l2 ->. by apply (ring_next _ _ l1). Qed.

(** ** Main theorems *)

(** [list_ins_before] and [list_ins_after], at any position of a list with
    room left and for a node that is in no list, pass all their assertions,
    put the node at exactly that position, and touch no memory but the links
    of the node and of its two new neighbours. *)
Theorem list_insert_refines m L l1 l2 new :
  list_rep m L (l1 ++ l2) → loose m new → list_nodecount L < list_maxcount L →
  let nil := list_nilnode L in
  let L' := with_count (list_nodecount L + 1) L in
  (∃ m', list_ins_before L (Some new) (Some (hdn nil l2)) m = Some (m', L') ∧
     list_rep m' L' (l1 ++ new :: l2) ∧ relinked [lastn nil l1; new; hdn nil l2] m m') ∧
  (∃ m', list_ins_after L (Some new) (Some (lastn nil l1)) m = Some (m', L') ∧
     list_rep m' L' (l1 ++ new :: l2) ∧ relinked [lastn nil l1; new; hdn nil l2] m m').
Proof.
  intros R Hl Hlt nil L'.
  destruct (list_ins_before_spec m L l1 l2 new R Hl Hlt) as (m1 & L1 & E1 & HL1 & R1 & RL1).
  destruct (list_ins_after_spec m L l1 l2 new R Hl Hlt) as (m2 & L2 & E2 & HL2 & R2 & RL2).
  pose proof (rep_word _ _ _ R). pose proof (rep_count _ _ _ R).
  rewrite wrap_small in HL1, HL2 by lia. subst L1 L2. split; [exists m1|exists m2]; done.
Qed.

(** [list_delete] and [list_delete2] of a node of the list unlink exactly
    that node and leave it in no list, so that it can be inserted again or
    destroyed; [list_delete2] returns the node that followed it, and NULL when
    it was the last one. *)
Theorem list_delete_refines m L l1 del l2 :
  list_rep m L (l1 ++ del :: l2) →
  let nil := list_nilnode L in
  let L' := with_count (list_nodecount L - 1) L in
  ∃ m', list_delete L (Some del) m = Some (m', L', Some del) ∧
    list_delete2 L (Some del) m = Some (m', L', head l2) ∧
    list_rep m' L' (l1 ++ l2) ∧ loose m' del ∧
    relinked [lastn nil l1; del; hdn nil l2] m m'.
Proof.
  intros R nil L'. destruct (unlink_spec m L l1 del l2 R) as (m' & E & R' & Hl & RL).
  pose proof (rep_word _ _ _ R). pose proof (rep_count _ _ _ R) as Hc. pose proof (rep_max _ _ _ R).
  rewrite length_app in Hc. simpl in Hc.
  rewrite wrap_small in E, R' by lia. exists m'. unfold list_delete, list_delete2.
  rewrite E. simpl. split_and!; try done. repeat f_equal. unfold list_nil.
  destruct l2 as [|b l2]; simpl; case_decide as Hd; try done.
  assert (R2 : ring m nil ((l1 ++ [del]) ++ b :: l2)) by (rewrite <- app_assoc; apply R).
  injection Hd as Hd. by destruct (ring_not_nil _ _ _ _ _ R2).
Qed.

(** [list_destroy_nodes] terminates, frees the data of every node once and
    in list order, frees the nodes themselves, leaves all other memory but the
    sentinel alone and leaves an empty list. *)
Theorem list_destroy_nodes_frees_once m L l :
  list_rep m L l → 0 < list_maxcount L →
  ∃ m' ds, list_destroy_nodes L m = Some (m', with_count 0 L, ds) ∧
    mapM (dt m) l = Some ds ∧ list_rep m' (with_count 0 L) [] ∧
    (∀ a, a ∈ l → m' !! a = None) ∧
    (∀ a, a ∉ header_nodes L l → m' !! a = m !! a).
Proof.
  intros R Hmax. pose proof (rep_ring _ _ _ R) as Rg. unfold list_destroy_nodes.
  rewrite (list_first_priv_spec _ _ _ R), some_bind.
  destruct (destroy_loop_spec (list_nilnode L) l m (walk_fuel m) []) as (m1 & ds & E & Hds & H1 & H2).
  { by apply ring_forward. }
  { apply Rg. }
  { unfold walk_fuel. pose proof (ring_size _ _ _ Rg). lia. }
  unfold list_nil. rewrite E, some_bind. cbn [fst snd app].
  pose proof (ring_nodup _ _ _ Rg) as [Hnil _]%NoDup_cons.
  destruct (dom_dt m (list_nilnode L)) as [j Hj]; [apply (ring_dom _ _ _ _ Rg); by left|].
  rewrite deref_data. unfold dt in *. rewrite (H2 _ Hnil), Hj, some_bind.
  unfold list_init. rewrite (proj2 (Z.eqb_neq _ _)) by lia. cbn [negb c_assert].
  rewrite !some_bind. cbn [fst]. eexists _, ds. split; [done|]. split; [done|]. split_and!.
  - split; simpl; try lia; [|apply R]. split.
    + apply NoDup_singleton.
    + cbn. unfold nx. by rewrite lookup_insert_eq.
    + cbn. unfold pv. by rewrite lookup_insert_eq.
  - intros a Ha. rewrite lookup_insert_ne by (intros E'; by rewrite E' in Hnil). by apply H1.
  - unfold header_nodes. intros a Ha. rewrite lookup_insert_ne by set_solver. apply H2. set_solver.
Qed.

(** [list_sort] terminates on every list and, for a comparison that is a
    total preorder, passes every assertion on the way (those of
    [list_transfer], [list_merge] and the final [list_is_sorted] included): the
    same nodes, with their data, end up in the list in sorted order, and no
    other memory changes. *)
Theorem list_sort_sorts (compare : D → D → Z) junk m L l :
  (∀ x y z, compare x y ≤ 0 → compare y z ≤ 0 → compare x z ≤ 0) →
  (∀ x y, 0 ≤ compare x y → compare y x ≤ 0) →
  list_rep m L l →
  ∃ m' L' l', ow_list_sort compare junk L m = Some (m', L') ∧
    list_rep m' L' l' ∧ l' ≡ₚ l ∧ Sorted (le_data compare m) l' ∧
    relinked (header_nodes L l) m m'.
Proof.
  intros Ht Hto R. unfold ow_list_sort.
  destruct (sort_loop_spec compare Ht Hto junk (S (Z.to_nat (list_nodecount L))) m L l R)
    as (m' & L' & l' & E & R' & P & S & _ & RL).
  { rewrite (rep_count _ _ _ R). lia. }
  exists m', L', l'. split_and!; try done. apply StronglySorted_Sorted.
  eapply ssorted_ext; [|exact S]. intros a. symmetry. apply RL.
Qed.
End Destroy.

(** ** A list to evaluate the operations on *)

(** A list of the nodes [10], [11] and [12] at capacity 8, and a loose node. *)
Definition demo_header : list_t := ListT 1 3 8.
Definition demo_mem : gmap loc (lnode_t Z) :=
  list_to_map [(1%positive, Lnode (Some 10%positive) (Some 12%positive) 0);
               (10%positive, Lnode (Some 11%positive) (Some 1%positive) 7);
               (11%positive, Lnode (Some 12%positive) (Some 10%positive) 9);
               (12%positive, Lnode (Some 1%positive) (Some 11%positive) 3);
               (20%positive, Lnode None None 5)].

Lemma demo_rep : list_rep demo_mem demo_header [10%positive; 11%positive; 12%positive].
Proof.
  split; [split|..]; try (vm_compute; congruence).
  apply (bool_decide_unpack _). vm_compute. exact I.
Qed.

Lemma demo_loose : loose demo_mem 20.
Proof. split; vm_compute; reflexivity. Qed.

Lemma list_insert_refines_witness :
  let L' := with_count 4 demo_header in
  (∃ m', list_ins_before demo_header (Some 20%positive) (Some 11%positive) demo_mem
           = Some (m', L') ∧
     list_rep m' L' [10; 20; 11; 12]%positive ∧ relinked [10; 20; 11]%positive demo_mem m') ∧
  (∃ m', list_ins_after demo_header (Some 20%positive) (Some 10%positive) demo_mem
           = Some (m', L') ∧
     list_rep m' L' [10; 20; 11; 12]%positive ∧ relinked [10; 20; 11]%positive demo_mem m').
Proof.
  refine (list_insert_refines demo_mem demo_header [10%positive] [11; 12]%positive 20
    demo_rep demo_loose _). reflexivity.
Defined.

Lemma list_delete_refines_witness :
  let L' := with_count 2 demo_header in
  ∃ m', list_delete demo_header (Some 12%positive) demo_mem = Some (m', L', Some 12%positive) ∧
    list_delete2 demo_header (Some 12%positive) demo_mem = Some (m', L', None) ∧
    list_rep m' L' [10; 11]%positive ∧ loose m' 12 ∧ relinked [11; 12; 1]%positive demo_mem m'.
Proof. exact (list_delete_refines demo_mem demo_header [10; 11]%positive 12 [] demo_rep). Defined.

Lemma list_destroy_nodes_frees_once_witness :
  ∃ m' ds, list_destroy_nodes demo_header demo_mem = Some (m', with_count 0 demo_header, ds) ∧
    mapM (dt demo_mem) [10; 11; 12]%positive = Some ds ∧
    list_rep m' (with_count 0 demo_header) [] ∧
    (∀ a, a ∈ [10; 11; 12]%positive → m' !! a = None) ∧
    (∀ a, a ∉ header_nodes demo_header [10; 11; 12]%positive → m' !! a = demo_mem !! a).
Proof.
  refine (list_destroy_nodes_frees_once demo_mem demo_header [10; 11; 12]%positive demo_rep _).
  reflexivity.
Defined.

Lemma list_sort_sorts_witness :
  ∃ m' L' l', ow_list_sort Z.sub 0 demo_header demo_mem = Some (m', L') ∧
    list_rep m' L' l' ∧ l' ≡ₚ [10; 11; 12]%positive ∧ Sorted (le_data Z.sub demo_mem) l' ∧
    relinked (header_nodes demo_header [10; 11; 12]%positive) demo_mem m'.
Proof.
  refine (list_sort_sorts Z.sub 0 demo_mem demo_header [10; 11; 12]%positive _ _ demo_rep);
    intros; lia.
Defined.

Example demo_sorted :
  (ow_list_sort Z.sub 0 demo_header demo_mem ≫= λ r, list_first_priv r.2 r.1)
    = Some (Some 12%positive).
Proof. vm_compute. reflexivity. Qed.
