(* ===== verification/Names.v ===== *)
(** * Names of the protocols ([src/include/wsman-names.h])

    The namespace URIs, element names and action URIs the modelled code uses,
    with the values the header gives them. *)

From S2P Require Import Prelude.

#[local] Open Scope string_scope.

Definition XML_NS_SOAP_1_1 : string := "http://schemas.xmlsoap.org/soap/envelope".
Definition XML_NS_SOAP_1_2 : string := "http://www.w3.org/2003/05/soap-envelope".
Definition XML_NS_XML_NAMESPACES : string := "http://www.w3.org/XML/1998/namespace".
Definition XML_NS_ADDRESSING : string := "http://schemas.xmlsoap.org/ws/2004/08/addressing".
Definition XML_NS_EVENTING : string := "http://schemas.xmlsoap.org/ws/2004/08/eventing".
Definition XML_NS_ENUMERATION : string := "http://schemas.xmlsoap.org/ws/2004/09/enumeration".
Definition XML_NS_TRANSFER : string := "http://schemas.xmlsoap.org/ws/2004/09/transfer".
Definition XML_NS_XML_SCHEMA : string := "http://www.w3.org/2001/XMLSchema".
Definition XML_NS_SCHEMA_INSTANCE : string := "http://www.w3.org/2001/XMLSchema-instance".
Definition XML_NS_POLICY : string := "http://schemas.xmlsoap.org/ws/2004/09/policy".
Definition XML_NS_TRUST : string := "http://schemas.xmlsoap.org/ws/2005/02/trust".
Definition XML_NS_SE : string := "http://docs.oasis-open.org/wss/2004/01/oasis-200401-wss-wssecurity-secext-1.0.xsd".
Definition XML_NS_OPENWSMAN : string := "http://schema.openwsman.org/2006/openwsman".
Definition XML_NS_CIM_BINDING : string := "http://schemas.dmtf.org/wbem/wsman/1/cimbinding.xsd".
Definition XML_NS_WS_MAN : string := "http://schemas.dmtf.org/wbem/wsman/1/wsman.xsd".
Definition XML_NS_WSMAN_FAULT_DETAIL : string := "http://schemas.dmtf.org/wbem/wsman/1/wsman/faultDetail".
Definition XML_NS_WSMAN_ID : string := "http://schemas.dmtf.org/wbem/wsman/identity/1/wsmanidentity.xsd".
Definition WSMID_IDENTIFY : string := "Identify".
Definition WSMID_IDENTIFY_RESPONSE : string := "IdentifyResponse".
Definition XML_SCHEMA_NIL : string := "nil".
Definition WSA_TO_ANONYMOUS : string := "http://schemas.xmlsoap.org/ws/2004/08/addressing/role/anonymous".
Definition WSA_MESSAGE_ID : string := "MessageID".
Definition WSA_ADDRESS : string := "Address".
Definition WSA_EPR : string := "EndpointReference".
Definition WSA_ACTION : string := "Action".
Definition WSA_RELATES_TO : string := "RelatesTo".
Definition WSA_TO : string := "To".
Definition WSA_REPLY_TO : string := "ReplyTo".
Definition WSA_FROM : string := "From".
Definition WSA_FAULT_TO : string := "FaultTo".
Definition WSA_REFERENCE_PROPERTIES : string := "ReferenceProperties".
Definition WSA_REFERENCE_PARAMETERS : string := "ReferenceParameters".
Definition WSA_ACTION_FAULT : string := "http://schemas.xmlsoap.org/ws/2004/08/addressing/fault".
Definition SOAP_ENVELOPE : string := "Envelope".
Definition SOAP_HEADER : string := "Header".
Definition SOAP_BODY : string := "Body".
Definition SOAP_FAULT : string := "Fault".
Definition SOAP_CODE : string := "Code".
Definition SOAP_VALUE : string := "Value".
Definition SOAP_SUBCODE : string := "Subcode".
Definition SOAP_REASON : string := "Reason".
Definition SOAP_TEXT : string := "Text".
Definition SOAP_LANG : string := "lang".
Definition SOAP_DETAIL : string := "Detail".
Definition SOAP_FAULT_DETAIL : string := "FaultDetail".
Definition SOAP_MUST_UNDERSTAND : string := "mustUnderstand".
Definition TRANSFER_GET : string := "Get".
Definition TRANSFER_GET_RESP : string := "GetResponse".
Definition TRANSFER_PUT : string := "Put".
Definition TRANSFER_PUT_RESP : string := "PutResponse".
Definition TRANSFER_CREATE : string := "Create".
Definition TRANSFER_DELETE : string := "Delete".
Definition WSXF_ACTION_FAULT : string := "http://schemas.xmlsoap.org/ws/2004/09/transfer/fault".
Definition WSENUM_ENUMERATE : string := "Enumerate".
Definition WSENUM_ENUMERATE_RESP : string := "EnumerateResponse".
Definition ENUM_ACTION_RELEASE : string := "http://schemas.xmlsoap.org/ws/2004/09/enumeration/Release".
Definition WSENUM_RELEASE : string := "Release".
Definition WSENUM_PULL : string := "Pull".
Definition WSENUM_PULL_RESP : string := "PullResponse".
Definition WSEVENT_SUBSCRIBE : string := "Subscribe".
Definition WSEVENT_SUBSCRIBE_RESP : string := "SubscribeResponse".
Definition EVT_ACTION_PULL : string := "http://schemas.dmtf.org/wbem/wsman/1/wsman/Pull".
Definition EVT_ACTION_UNSUBSCRIBE : string := "http://schemas.xmlsoap.org/ws/2004/08/eventing/Unsubscribe".
Definition WSEVENT_UNSUBSCRIBE : string := "Unsubscribe".
Definition EVT_ACTION_RENEW : string := "http://schemas.xmlsoap.org/ws/2004/08/eventing/Renew".
Definition WSEVENT_RENEW : string := "Renew".
Definition WSEVENT_RENEW_RESP : string := "RenewResponse".
Definition WSMAN_ACTION_HEARTBEAT : string := "http://schemas.xmlsoap.org/wbmem/wsman/1/wsman/Heartbeat".
Definition WSMAN_ACTION_ACK : string := "http://schemas.xmlsoap.org/wbmem/wsman/1/wsman/Ack".
Definition WSMAN_ACTION_EVENT : string := "http://schemas.xmlsoap.org/wbmem/wsman/1/wsman/Event".
Definition WSENUM_ACTION_FAULT : string := "http://schemas.xmlsoap.org/ws/2004/09/enumeration/fault".
Definition WSMAN_ACTION_FAULT : string := "http://schemas.dmtf.org/wbem/wsman/1/wsman/fault".
Definition WSENUM_END_TO : string := "EndTo".
Definition WSENUM_EXPIRES : string := "Expires".
Definition WSENUM_FILTER : string := "Filter".
Definition WSENUM_ENUMERATION_CONTEXT : string := "EnumerationContext".
Definition WSENUM_MAX_ELEMENTS : string := "MaxElements".
Definition WSENUM_MAX_CHARACTERS : string := "MaxCharacters".
Definition WSENUM_ITEMS : string := "Items".
Definition WSEVENT_DELIVERY : string := "Delivery".
Definition WSEVENT_NOTIFY_TO : string := "NotifyTo".
Definition WSEVENT_EXPIRES : string := "Expires".
Definition WSEVENT_DELIVERY_MODE : string := "Mode".
Definition WSEVENT_SUBSCRIPTION_MANAGER : string := "SubscriptionManager".
Definition WSEVENT_IDENTIFIER : string := "Identifier".
Definition WSEVENT_ACTION_FAULT : string := "http://schemas.xmlsoap.org/ws/2004/08/eventing/fault".
Definition WSEVENT_DELIVERY_MODE_PUSH : string := "http://schemas.xmlsoap.org/ws/2004/08/eventing/DeliveryModes/Push".
Definition WSEVENT_DELIVERY_MODE_PUSHWITHACK : string := "http://schemas.dmtf.org/wbem/wsman/1/wsman/PushWithAck".
Definition WSEVENT_DELIVERY_MODE_EVENTS : string := "http://schemas.dmtf.org/wbem/wsman/1/wsman/Events".
Definition WSEVENT_DELIVERY_MODE_PULL : string := "http://schemas.dmtf.org/wbem/wsman/1/wsman/Pull".
Definition WSMB_ASSOCIATED_INSTANCES : string := "AssociatedInstances".
Definition WSMB_ASSOCIATION_INSTANCES : string := "AssociationInstances".
Definition WSMB_OBJECT : string := "Object".
Definition WSMB_ASSOCIATION_CLASS_NAME : string := "AssociationClassName".
Definition WSMB_RESULT_CLASS_NAME : string := "ResultClassName".
Definition WSMB_ROLE : string := "Role".
Definition WSMB_RESULT_ROLE : string := "ResultRole".
Definition WSMB_INCLUDE_RESULT_PROPERTY : string := "IncludeResultProperty".
Definition WSM_LOCALE : string := "Locale".
Definition WSM_RESOURCE_URI : string := "ResourceURI".
Definition WSM_SELECTOR_SET : string := "SelectorSet".
Definition WSM_SELECTOR : string := "Selector".
Definition WSM_NAME : string := "Name".
Definition WSM_REQUEST_TOTAL : string := "RequestTotalItemsCountEstimate".
Definition WSM_TOTAL_ESTIMATE : string := "TotalItemsCountEstimate".
Definition WSM_OPTIMIZE_ENUM : string := "OptimizeEnumeration".
Definition WSM_MAX_ELEMENTS : string := "MaxElements".
Definition WSM_ENUM_EPR : string := "EnumerateEPR".
Definition WSM_ENUM_OBJ_AND_EPR : string := "EnumerateObjectAndEPR".
Definition WSM_ENUM_MODE : string := "EnumerationMode".
Definition WSM_FRAGMENT_TRANSFER : string := "FragmentTransfer".
Definition WSM_OPTION_SET : string := "OptionSet".
Definition WSM_OPTION : string := "Option".
Definition WSM_HEARTBEATS : string := "Heartbeats".
Definition WSM_EVENTS : string := "Events".
Definition WSM_ACTION : string := "Action".
Definition WSM_EVENT : string := "Event".
Definition WSM_ACKREQUESTED : string := "AckRequested".
Definition WSM_MAX_ENVELOPE_SIZE : string := "MaxEnvelopeSize".
Definition WSM_OPERATION_TIMEOUT : string := "OperationTimeout".
Definition WSM_FILTER : string := "Filter".
Definition WSM_DIALECT : string := "Dialect".
Definition WSM_CONTENTCODING : string := "ContentEncoding".
Definition WSM_CONNECTIONRETRY : string := "ConnectionRetry".
Definition WSM_SENDBOOKMARKS : string := "SendBookmarks".
Definition WSM_BOOKMARK : string := "Bookmark".
Definition WSM_AUTH : string := "Auth".
Definition WSM_PROFILE : string := "Profile".
Definition WSM_CERTIFICATETHUMBPRINT : string := "CertificateThumbprint".
Definition WSM_DEFAULTBOOKMARK : string := "http://schemas.dmtf.org/wbem/wsman/1/wsman/bookmark/earliest".
Definition WSMB_POLYMORPHISM_MODE : string := "PolymorphismMode".
Definition WSMB_INCLUDE_SUBCLASS_PROP : string := "IncludeSubClassProperties".
Definition WSMB_EXCLUDE_SUBCLASS_PROP : string := "ExcludeSubClassProperties".
Definition WSMB_NONE : string := "None".
Definition WSMB_ACTION_FAULT : string := "http://schemas.dmtf.org/wbem/wsman/1/cimbinding/fault".
Definition WSMB_SHOW_EXTENSION : string := "ShowExtensions".
Definition WSMB_EXCLUDE_NIL_PROPS : string := "ExcludeNilProperties".
Definition WSM_SELECTOR_FILTER_DIALECT : string := "http://schemas.dmtf.org/wbem/wsman/1/wsman/SelectorFilter".
Definition WSM_WQL_FILTER_DIALECT : string := "http://schemas.microsoft.com/wbem/wsman/1/WQL".
Definition WSM_XPATH_FILTER_DIALECT : string := "http://www.w3.org/TR/1999/REC-xpath-19991116".
Definition WSM_CQL_FILTER_DIALECT : string := "http://schemas.dmtf.org/wbem/cql/1/dsp0202.pdf".
Definition WSM_ASSOCIATION_FILTER_DIALECT : string := "http://schemas.dmtf.org/wbem/wsman/1/cimbinding/associationFilter".
Definition WSFW_RESPONSE_STR : string := "Response".
Definition CIM_NAMESPACE_SELECTOR : string := "__cimnamespace".
Definition CIM_ALL_AVAILABLE_CLASSES : string := "http://schemas.dmtf.org/wbem/wscim/1/*".
Definition WST_ISSUEDTOKENS : string := "IssuedTokens".
Definition WST_REQUESTSECURITYTOKENRESPONSE : string := "RequestSecurityTokenResponse".
Definition WST_TOKENTYPE : string := "TokenType".
Definition WST_REQUESTEDSECURITYTOKEN : string := "RequestedSecurityToken".
Definition WSSE_USERNAMETOKEN : string := "UsernameToken".
Definition WSSE_USERNAME : string := "Username".
Definition WSSE_PASSWORD : string := "Password".
Definition WSP_APPLIESTO : string := "AppliesTo".
Definition WST_USERNAMETOKEN : string := "http://docs.oasis-open.org/wss/2004/01/oasis-200401-wss-username-token-profile-1.0#UsernameToken".
Definition WST_CERTIFICATETHUMBPRINT : string := "http://schemas.dmtf.org/wbem/wsman/1/wsman/token/certificateThumbprint".
Definition WSMAN_SECURITY_PROFILE_HTTP_BASIC : string := "http://schemas.dmtf.org/wbem/wsman/1/wsman/secprofile/http/basic".
Definition WSMAN_SECURITY_PROFILE_HTTP_DIGEST : string := "http://schemas.dmtf.org/wbem/wsman/1/wsman/secprofile/http/digest".
Definition WSMAN_SECURITY_PROFILE_HTTPS_BASIC : string := "http://schemas.dmtf.org/wbem/wsman/1/wsman/secprofile/https/basic".
Definition WSMAN_SECURITY_PROFILE_HTTPS_DIGEST : string := "http://schemas.dmtf.org/wbem/wsman/1/wsman/secprofile/https/digest".
Definition WSMAN_SECURITY_PROFILE_HTTPS_MUTUAL : string := "http://schemas.dmtf.org/wbem/wsman/1/wsman/secprofile/https/mutual".
Definition WSMAN_SECURITY_PROFILE_HTTPS_MUTUAL_BASIC : string := "http://schemas.dmtf.org/wbem/wsman/1/wsman/secprofile/https/mutual/basic".
Definition WSMAN_SECURITY_PROFILE_HTTPS_MUTUAL_DIGEST : string := "http://schemas.dmtf.org/wbem/wsman/1/wsman/secprofile/https/mutual/digest".
Definition WSMAN_SECURITY_PROFILE_HTTPS_SPNEGO_KERBEROS : string := "http://schemas.dmtf.org/wbem/wsman/1/wsman/secprofile/https/spnego-kerberos".
Definition WSMAN_SECURITY_PROFILE_HTTPS_MUTUAL_SPNEGO_KERBEROS : string := "http://schemas.dmtf.org/wbem/wsman/1/wsman/secprofile/https/mutual/spnego-kerberos".
Definition WSMAN_SECURITY_PROFILE_HTTP_SPNEGO_KERBEROS : string := "http://schemas.dmtf.org/wbem/wsman/1/wsman/secprofile/http/spnego-kerberos".
