(* ===== verification/Xml.v ===== *)
(** * XML trees ([wsman-xml.c], [wsman-libxml2-binding.c])

    The trees the parser hands to the program are modelled as libxml2 lays
    them out: element nodes with a name, a namespace, attributes and children,
    and other nodes (text, comments, ...).  What libxml2 computes from a tree
    (the text content of a node, an attribute's value, the serialised form) is
    a parameter, the class [Libxml2].  A NULL handle is [None]. *)

From S2P Require Import Prelude.
From S2P Require Import CString.
From S2P Require Import Names.

#[local] Open Scope string_scope.
#[local] Open Scope list_scope.
#[local] Open Scope Z_scope.

Record xattr := XAttr {
  xa_ns : option string;
  xa_name : string;
  xa_children : string;
}.

(** [XOther] is any node that is not an element. *)
Inductive xnode :=
  | XElement (ns : option string) (name : string) (props : list xattr) (children : list xnode)
  | XOther (content : string).

Class Libxml2 := {
  xmlNodeGetContent : xnode → option string;
  (** [xmlGetProp] and [xmlGetNsProp]: the namespace is NULL or given. *)
  xmlGetProp : xnode → option string → string → option string;
  (** The length of [xmlDocDumpMemoryEnc]'s result in the given encoding. *)
  xmlDocDumpLen : xnode → string → Z;
  (** [xmlNewNode] in a namespace, then [xmlNodeSetContent] of a value. *)
  xmlNewNodeContent : option string → string → option string → xnode;
}.

(** What the program relies on: a node it creates has the name, namespace and
    text it was given, no attribute and no element below it; the text of an
    element is there and is that of its children, empty without any; an element's only attribute
    can be read back. *)
Class Libxml2Laws `{Libxml2} := {
  new_node_empty ns name : xmlNewNodeContent ns name None = XElement ns name [] [];
  new_node_shape ns name v :
    ∃ c, xmlNewNodeContent ns name v = XElement ns name [] c ∧
         Forall (λ n, match n with XElement _ _ _ _ => False | XOther _ => True end) c;
  new_node_text ns name v : xmlNodeGetContent (xmlNewNodeContent ns name (Some v)) = Some v;
  content_element ns name p c : is_Some (xmlNodeGetContent (XElement ns name p c));
  content_empty ns name p : xmlNodeGetContent (XElement ns name p []) = Some EmptyString;
  content_of_children ns name p ns' name' p' c :
    xmlNodeGetContent (XElement ns name p c) = xmlNodeGetContent (XElement ns' name' p' c);
  only_prop ns name a c : xmlGetProp (XElement ns name [a] c) (xa_ns a) (xa_name a) = Some (xa_children a);
}.

Definition is_element (n : xnode) : bool :=
  match n with XElement _ _ _ _ => true | XOther _ => false end.

Definition x_children (n : xnode) : list xnode :=
  match n with XElement _ _ _ c => c | XOther _ => [] end.

Definition x_props (n : xnode) : list xattr :=
  match n with XElement _ _ p _ => p | XOther _ => [] end.

(** ** The binding *)

(** [xml_parser_node_get(node, which)] for a child position: the loop skips
    nodes that are not elements and counts the others. *)
Fixpoint node_get_loop (c : list xnode) (count which : Z) : option xnode :=
  match c with
  | [] => None
  | n :: c' =>
      if is_element n then
        if count =? which then Some n else node_get_loop c' (count + 1) which
      else node_get_loop c' count which
  end.

Definition xml_parser_node_get (node : xnode) (which : Z) : option (option xnode) :=
  _ ← c_assert (0 <=? which); Some (node_get_loop (x_children node) 0 which).

(** The siblings a walk with [xml_parser_get_first_child] and
    [xml_parser_get_next_child] visits. *)
Fixpoint element_children (c : list xnode) : list xnode :=
  match c with
  | [] => []
  | n :: c' => if is_element n then n :: element_children c' else element_children c'
  end.

Fixpoint count_elements (c : list xnode) (count : Z) : Z :=
  match c with
  | [] => count
  | n :: c' => count_elements c' (if is_element n then count + 1 else count)
  end.

Definition xml_parser_attr_get (node : xnode) (which : nat) : option xattr := x_props node !! which.

(** ** Reading names *)

Definition ws_xml_get_node_name_ns (node : option xnode) : option string :=
  match node with Some (XElement ns _ _ _) => ns | _ => None end.

Definition ws_xml_get_node_local_name (node : option xnode) : option string :=
  match node with Some (XElement _ name _ _) => Some name | _ => None end.

Definition ws_xml_get_doc_root (doc : option xnode) : option xnode := doc.

(** A NULL namespace in the query matches every namespace, a NULL name every
    name. *)
Definition ns_matches (nsUri nodeNsUri : option string) : bool :=
  match nsUri, nodeNsUri with
  | None, _ => true
  | Some u, Some v => str_eqb v u
  | Some _, None => false
  end.

Definition ws_xml_is_node_qname (node : option xnode) (nsUri name : option string) : bool :=
  match node with
  | None => false
  | Some _ =>
      ns_matches nsUri (ws_xml_get_node_name_ns node) &&
      match name, ws_xml_get_node_local_name node with
      | None, _ => true
      | Some a, Some b => str_eqb a b
      | Some _, None => false
      end
  end.

(** ** Children *)

Fixpoint get_child_loop (siblings : list xnode) (count index : Z) (nsUri localName : option string)
  : option xnode :=
  match siblings with
  | [] => None
  | n :: rest =>
      if ws_xml_is_node_qname (Some n) nsUri localName then
        if count =? index then Some n
        else get_child_loop rest (count + 1) index nsUri localName
      else get_child_loop rest count index nsUri localName
  end.

Definition ws_xml_get_child (parent : option xnode) (index : Z) (nsUri localName : option string)
  : option xnode :=
  match parent with
  | Some p =>
      if 0 <=? index then
        match nsUri, localName with
        | None, None => default None (xml_parser_node_get p index)
        | _, _ => get_child_loop (element_children (x_children p)) 0 index nsUri localName
        end
      else None
  | None => None
  end.

Definition ws_xml_get_child_count (parent : option xnode) : Z :=
  match parent with Some p => count_elements (x_children p) 0 | None => 0 end.

Fixpoint count_qname_loop (siblings : list xnode) (count : Z) (nsUri name : option string) : Z :=
  match siblings with
  | [] => count
  | n :: rest =>
      count_qname_loop rest
        (if ws_xml_is_node_qname (Some n) nsUri name then count + 1 else count) nsUri name
  end.

Definition ws_xml_get_child_count_by_qname (parent : option xnode) (nsUri name : option string) : Z :=
  match parent with
  | None => 0
  | Some p =>
      match nsUri, name with
      | None, None => ws_xml_get_child_count parent
      | _, _ => count_qname_loop (element_children (x_children p)) 0 nsUri name
      end
  end.

(** ** Walking a tree *)

Section Enum.
Context {S : Type} (callback : xnode → S → Z * S) (bRecursive : bool).

(** A callback result other than 0 stops the walk and is its result.  The
    inner loop is [ws_xml_enum_children]. *)
Fixpoint ws_xml_enum_tree (top : xnode) (data : S) : Z * S :=
  let r := callback top data in
  if (r.1 =? 0) && bRecursive then
    match top with
    | XOther _ => r
    | XElement _ _ _ c =>
        (fix ws_xml_enum_children (c : list xnode) (data : S) : Z * S :=
           match c with
           | [] => (0, data)
           | child :: c' =>
               if is_element child then
                 let r := ws_xml_enum_tree child data in
                 if r.1 =? 0 then ws_xml_enum_children c' r.2 else r
               else ws_xml_enum_children c' data
           end) c r.2
    end
  else r.
End Enum.

Definition find_in_tree_callback (ns name : option string) (node : xnode) (found : option xnode)
  : Z * option xnode :=
  if ws_xml_is_node_qname (Some node) ns name then (1, Some node) else (0, found).

Definition ws_xml_find_in_tree (head : option xnode) (nsUri localName : option string)
    (bRecursive : bool) : option xnode :=
  match head with
  | None => None
  | Some h => (ws_xml_enum_tree (find_in_tree_callback nsUri localName) bRecursive h None).2
  end.

(** ** Envelope parts *)

Definition ws_xml_get_soap_envelope (doc : option xnode) : option xnode :=
  let root := ws_xml_get_doc_root doc in
  if ws_xml_is_node_qname root (Some XML_NS_SOAP_1_2) (Some SOAP_ENVELOPE)
     || ws_xml_is_node_qname root (Some XML_NS_SOAP_1_1) (Some SOAP_ENVELOPE)
  then root else None.

Definition ws_xml_get_soap_element (doc : option xnode) (name : string) : option xnode :=
  let env := ws_xml_get_soap_envelope doc in
  match env with
  | None => None
  | Some _ =>
      let soapUri := ws_xml_get_node_name_ns env in
      let node := ws_xml_get_child env 0 None None in
      match node with
      | None => None
      | Some _ =>
          if negb (ws_xml_is_node_qname node soapUri (Some name)) then
            if negb (str_eqb name SOAP_HEADER) then
              let node := ws_xml_get_child env 1 None None in
              if ws_xml_is_node_qname node soapUri (Some name) then node else None
            else node
          else node
      end
  end.

Definition ws_xml_get_soap_header (doc : option xnode) := ws_xml_get_soap_element doc SOAP_HEADER.
Definition ws_xml_get_soap_body (doc : option xnode) := ws_xml_get_soap_element doc SOAP_BODY.

(** ** Values *)

(** The loop that moves the pointer past leading digits. *)
Fixpoint skip_digits (s : string) : string :=
  match s with
  | String a s' => if isdigit a then skip_digits s' else s
  | EmptyString => EmptyString
  end.

Definition is_xml_val_true (text : string) : bool :=
  match skip_digits text with
  | EmptyString => negb (atoi text =? 0)
  | _ => strcase_eqb text "true" || strcase_eqb text "yes"
  end.

Section Values.
Context `{Libxml2}.

Definition ws_xml_get_node_text (node : option xnode) : option string := n ← node; xmlNodeGetContent n.

Definition ws_xml_get_node_ulong (node : option xnode) : Z :=
  match ws_xml_get_node_text node with Some t => wrap64 (atoi t) | None => 0 end.

Definition attr_matches (attrNs : option string) (attrName : string) (a : xattr) : bool :=
  match attrNs, xa_ns a with
  | None, None => true
  | Some u, Some v => str_eqb v u
  | _, _ => false
  end && str_eqb attrName (xa_name a).

Fixpoint find_attr_loop (attrs : list xattr) (attrNs : option string) (attrName : string)
  : option xattr :=
  match attrs with
  | [] => None
  | a :: rest => if attr_matches attrNs attrName a then Some a else find_attr_loop rest attrNs attrName
  end.

Definition ws_xml_find_node_attr (node : option xnode) (attrNs : option string) (attrName : string)
  : option xattr :=
  match node with Some n => find_attr_loop (x_props n) attrNs attrName | None => None end.

(** [xmlGetProp] for an attribute without a namespace, [xmlGetNsProp]
    otherwise. *)
Definition ws_xml_get_attr_value (node : xnode) (attr : xattr) : option string :=
  xmlGetProp node (xa_ns attr) (xa_name attr).

Definition ws_xml_find_attr_value (node : option xnode) (ns : option string) (attrName : string)
  : option string :=
  n ← node; a ← ws_xml_find_node_attr node ns attrName; ws_xml_get_attr_value n a.

Definition ws_xml_find_attr_bool (node : option xnode) (ns : option string) (attrName : string) : bool :=
  match ws_xml_find_attr_value node ns attrName with
  | Some val => is_xml_val_true val
  | None => false
  end.

Definition ws_xml_find_attr_ulong (node : option xnode) (ns : option string) (attrName : string) : Z :=
  match ws_xml_find_attr_value node ns attrName with
  | Some val => wrap64 (atoi val)
  | None => 0
  end.

Definition check_envelope_size (doc : xnode) (size : Z) (charset : string) : bool :=
  if size =? 0 then false else size <? wrap32 (xmlDocDumpLen doc charset).

(** ** Building *)

(** [ws_xml_add_child]: the new node becomes the last child. *)
Definition ws_xml_add_child (node : xnode) (nsUri : option string) (localName : string)
    (val : option string) : xnode :=
  match node with
  | XElement ns name props c => XElement ns name props (c ++ [xmlNewNodeContent nsUri localName val])
  | XOther _ => node
  end.

(** The first attribute of that name is replaced; the new one is the last. *)
Fixpoint remove_attr (ns : option string) (name : string) (l : list xattr) : list xattr :=
  match l with
  | [] => []
  | a :: l => if attr_matches ns name a then l else a :: remove_attr ns name l
  end.

Definition ws_xml_add_node_attr (node : xnode) (nsUri : option string) (name : string)
    (value : option string) : xnode :=
  match node with
  | XElement ns nm props c =>
      XElement ns nm (remove_attr nsUri name props ++ [XAttr nsUri name (default "" value)]) c
  | XOther _ => node
  end.

Definition ws_xml_get_node_text_safe (node : option xnode) : string :=
  default "" (ws_xml_get_node_text node).

Definition ws_xml_create_doc (rootNsUri : option string) (rootName : string) : xnode :=
  xmlNewNodeContent rootNsUri rootName None.

Definition ws_xml_create_envelope : xnode :=
  let root := ws_xml_create_doc (Some XML_NS_SOAP_1_2) SOAP_ENVELOPE in
  ws_xml_add_child (ws_xml_add_child root (Some XML_NS_SOAP_1_2) SOAP_HEADER None)
    (Some XML_NS_SOAP_1_2) SOAP_BODY None.
End Values.

(** ** Theorems *)

Section Theory.
Implicit Types (n p : xnode) (c : list xnode).

Lemma element_children_filter c : element_children c = filter (λ n, is_element n = true) c.
Proof.
  induction c as [|n c IH]; simpl; [done|]. rewrite filter_cons, IH.
  by destruct (is_element n).
Qed.

Lemma node_get_loop_lookup c : ∀ count which,
  count ≤ which →
  node_get_loop c count which = element_children c !! Z.to_nat (which - count).
Proof.
  induction c as [|n c IH]; intros count which Hle; simpl; [done|].
  destruct (is_element n); [|by apply IH].
  destruct (Z.eqb_spec count which) as [->|Hne].
  - by replace (Z.to_nat (which - which)) with O by lia.
  - rewrite IH by lia. by replace (Z.to_nat (which - count)) with (S (Z.to_nat (which - (count + 1)))) by lia.
Qed.

(** The children a query selects, in document order. *)
Definition matching (nsUri name : option string) (p : xnode) : list xnode :=
  filter (λ n, ws_xml_is_node_qname (Some n) nsUri name = true) (element_children (x_children p)).

Lemma get_child_loop_lookup l : ∀ count index ns name,
  count ≤ index →
  get_child_loop l count index ns name
  = filter (λ n, ws_xml_is_node_qname (Some n) ns name = true) l !! Z.to_nat (index - count).
Proof.
  induction l as [|n l IH]; intros count index ns name Hle; [done|].
  cbn [get_child_loop]. rewrite filter_cons.
  destruct (ws_xml_is_node_qname (Some n) ns name); simpl; [|by apply IH].
  destruct (Z.eqb_spec count index) as [->|Hne].
  - by replace (Z.to_nat (index - index)) with O by lia.
  - rewrite IH by lia. by replace (Z.to_nat (index - count)) with (S (Z.to_nat (index - (count + 1)))) by lia.
Qed.

Lemma wildcard_matches n : is_element n = true → ws_xml_is_node_qname (Some n) None None = true.
Proof. by destruct n. Qed.

Lemma matching_wildcard p : matching None None p = element_children (x_children p).
Proof.
  unfold matching. induction (x_children p) as [|n c IH]; [done|]. cbn [element_children].
  destruct (is_element n) eqn:E; [|done].
  rewrite filter_cons, IH. by rewrite (wildcard_matches n E).
Qed.

Lemma ws_xml_get_child_matching p index ns name :
  0 ≤ index → ws_xml_get_child (Some p) index ns name = matching ns name p !! Z.to_nat index.
Proof.
  intros Hi. unfold ws_xml_get_child. rewrite (proj2 (Z.leb_le _ _)) by done.
  destruct ns as [ns|], name as [name|];
    try (rewrite get_child_loop_lookup by done; unfold matching; by rewrite Z.sub_0_r).
  unfold xml_parser_node_get. rewrite (proj2 (Z.leb_le _ _)) by done. simpl.
  by rewrite node_get_loop_lookup, Z.sub_0_r, matching_wildcard by done.
Qed.

Lemma ws_xml_get_child_elem p index ns name n :
  ws_xml_get_child (Some p) index ns name = Some n →
  n ∈ x_children p ∧ is_element n = true ∧ ws_xml_is_node_qname (Some n) ns name = true.
Proof.
  destruct (decide (0 ≤ index)) as [Hi|Hi].
  - rewrite ws_xml_get_child_matching by done. intros Hn%list_elem_of_lookup_2. unfold matching in Hn.
    rewrite element_children_filter, !list_elem_of_filter in Hn. naive_solver.
  - unfold ws_xml_get_child. by rewrite (proj2 (Z.leb_gt _ _)) by lia.
Qed.

Lemma count_elements_length c : ∀ count,
  count_elements c count = count + Z.of_nat (length (element_children c)).
Proof.
  induction c as [|n c IH]; intros count; simpl; [lia|]. rewrite IH.
  destruct (is_element n); simpl; lia.
Qed.

Lemma count_qname_loop_length l ns name : ∀ count,
  count_qname_loop l count ns name =
  count + Z.of_nat (length (filter (λ n, ws_xml_is_node_qname (Some n) ns name = true) l)).
Proof.
  induction l as [|n l IH]; intros count; cbn [count_qname_loop]; [simpl; lia|].
  rewrite IH, filter_cons. destruct (ws_xml_is_node_qname (Some n) ns name); simpl; lia.
Qed.

Lemma count_by_qname_matching p ns name :
  ws_xml_get_child_count_by_qname (Some p) ns name = Z.of_nat (length (matching ns name p)).
Proof.
  unfold ws_xml_get_child_count_by_qname.
  destruct ns, name; try (rewrite count_qname_loop_length; done).
  simpl. rewrite count_elements_length, matching_wildcard. lia.
Qed.

(** [ws_xml_get_child] is indexing into the element children that match
    the query, wildcards included: it finds a node exactly for the indices
    below [ws_xml_get_child_count_by_qname], and that node is an element child
    of the parent with the requested name. *)
Theorem ws_xml_get_child_indexes p index ns name :
  (is_Some (ws_xml_get_child (Some p) index ns name) ↔
    0 ≤ index < ws_xml_get_child_count_by_qname (Some p) ns name) ∧
  ∀ n, ws_xml_get_child (Some p) index ns name = Some n →
    n ∈ x_children p ∧ is_element n = true ∧ ws_xml_is_node_qname (Some n) ns name = true.
Proof.
  split; [|intros n; apply ws_xml_get_child_elem].
  destruct (decide (0 ≤ index)) as [Hi|Hi].
  - rewrite count_by_qname_matching, ws_xml_get_child_matching, lookup_lt_is_Some by done. lia.
  - unfold ws_xml_get_child. rewrite (proj2 (Z.leb_gt _ _)) by lia.
    split; [by intros [? [=]]|lia].
Qed.

(** The elements of a tree in document order. *)
Fixpoint preorder (n : xnode) : list xnode :=
  match n with
  | XOther _ => [n]
  | XElement _ _ _ c =>
      n :: (fix go (c : list xnode) : list xnode :=
              match c with
              | [] => []
              | x :: c' => if is_element x then preorder x ++ go c' else go c'
              end) c
  end.

Lemma xnode_induction (P : xnode → Prop) :
  (∀ ns name props c, Forall P c → P (XElement ns name props c)) →
  (∀ t, P (XOther t)) → ∀ n, P n.
Proof.
  intros HE HO. fix IH 1. intros [ns name props c|t]; [|apply HO].
  apply HE. induction c as [|x c IHc]; constructor; [apply IH|apply IHc].
Qed.

Lemma find_callback_eq ns name n found :
  find_in_tree_callback ns name n found =
  if ws_xml_is_node_qname (Some n) ns name then (1, Some n) else (0, found).
Proof. done. Qed.

Lemma find_in_tree_spec ns name n : ∀ found,
  ws_xml_enum_tree (find_in_tree_callback ns name) true n found =
  match filter (λ n, ws_xml_is_node_qname (Some n) ns name = true) (preorder n) with
  | x :: _ => (1, Some x)
  | [] => (0, found)
  end.
Proof.
  induction n as [ns' nm props c IH|t] using xnode_induction; intros found;
    cbn [ws_xml_enum_tree preorder]; rewrite filter_cons, !find_callback_eq;
    destruct (ws_xml_is_node_qname (Some _) ns name); try done.
  cbn [fst snd Z.eqb andb]. destruct (decide (false = true)) as [|_]; [done|].
  revert found. induction IH as [|x c Hx _ IHc]; intros found; [done|].
  destruct (is_element x); [|apply IHc]. rewrite filter_app.
  rewrite Hx. destruct (filter _ (preorder x)); cbn [fst snd app Z.eqb]; [apply IHc|done].
Qed.

Lemma ws_xml_find_in_tree_preorder ns name n :
  ws_xml_find_in_tree (Some n) ns name true =
  head (filter (λ n, ws_xml_is_node_qname (Some n) ns name = true) (preorder n)).
Proof. unfold ws_xml_find_in_tree. rewrite find_in_tree_spec. by destruct (filter _ _). Qed.

(** [ws_xml_get_soap_header] of an envelope whose first child is not a
    Header gives that child: for an envelope that holds only a Body, the Body
    is taken for the header and also for the body. *)
Theorem soap_header_is_first_child ns props bprops bname c :
  ns ∈ [Some XML_NS_SOAP_1_2; Some XML_NS_SOAP_1_1] →
  let body := XElement ns bname bprops c in
  let doc := Some (XElement ns SOAP_ENVELOPE props [body]) in
  ws_xml_get_soap_header doc = Some body ∧
  ws_xml_get_soap_body doc = if str_eqb SOAP_BODY bname then Some body else None.
Proof.
  intros Hns body doc.
  assert (Henv : ws_xml_get_soap_envelope doc = doc).
  { unfold doc, ws_xml_get_soap_envelope. set_unfold in Hns.
    destruct Hns as [->|[->|[]]]; reflexivity. }
  assert (Hu : ∀ nm, ws_xml_is_node_qname (Some body) ns (Some nm) = str_eqb nm bname).
  { intros nm. set_unfold in Hns. destruct Hns as [->|[->|[]]]; reflexivity. }
  unfold ws_xml_get_soap_header, ws_xml_get_soap_body, ws_xml_get_soap_element.
  rewrite Henv. unfold doc. cbn [ws_xml_get_node_name_ns].
  change (ws_xml_get_child (Some (XElement ns SOAP_ENVELOPE props [body])) 0 None None)
    with (Some body).
  change (ws_xml_get_child (Some (XElement ns SOAP_ENVELOPE props [body])) 1 None None)
    with (@None xnode).
  cbn match. rewrite !Hu. split.
  - by destruct (str_eqb SOAP_HEADER bname).
  - by destruct (str_eqb SOAP_BODY bname).
Qed.
End Theory.

Lemma soap_header_is_first_child_witness :
  let body := XElement (Some XML_NS_SOAP_1_2) SOAP_BODY [] [] in
  let doc := Some (XElement (Some XML_NS_SOAP_1_2) SOAP_ENVELOPE [] [body]) in
  ws_xml_get_soap_header doc = Some body ∧
  ws_xml_get_soap_body doc = if str_eqb SOAP_BODY SOAP_BODY then Some body else None.
Proof.
  refine (soap_header_is_first_child (Some XML_NS_SOAP_1_2) [] [] SOAP_BODY [] _). by left.
Defined.

(** ** A concrete libxml2

    A small instance of the parameter, to evaluate the program on trees: the
    text of a node is the concatenation of the text nodes below it. *)

Fixpoint tree_text (n : xnode) : string :=
  match n with
  | XOther t => t
  | XElement _ _ _ c =>
      (fix go (c : list xnode) : string :=
         match c with [] => "" | n :: c => tree_text n +:+ go c end) c
  end.

Definition tree_prop (n : xnode) (ns : option string) (name : string) : option string :=
  a ← head (filter (λ a, str_eqb (xa_name a) name && ns_matches ns (xa_ns a) = true) (x_props n));
  Some (xa_children a).

Definition TreeXml : Libxml2 := {|
  xmlNodeGetContent n := Some (tree_text n);
  xmlGetProp := tree_prop;
  xmlDocDumpLen n _ := Z.of_nat (String.length (tree_text n));
  xmlNewNodeContent ns name v :=
    XElement ns name [] (match v with Some t => [XOther t] | None => [] end);
|}.

#[global] Instance TreeXmlLaws : @Libxml2Laws TreeXml.
Proof.
  split.
  - done.
  - intros ns name v. eexists. split; [done|]. destruct v; repeat constructor.
  - intros ns name v. cbn. f_equal. induction v as [|a v IH]; [done|].
    by apply (f_equal (String a)) in IH.
  - intros ns name p c. by eexists.
  - done.
  - done.
  - intros ns name [ans nm v] c. cbn. unfold tree_prop. cbn. rewrite str_eqb_refl. cbn.
    by destruct ans as [u|]; cbn; rewrite ?str_eqb_refl.
Qed.

(** Small trees. *)
Definition el (ns name : string) (c : list xnode) : xnode := XElement (Some ns) name [] c.
Definition txt (ns name t : string) : xnode := el ns name [XOther t].
