(* ===== verification/Faults.v ===== *)
(** * SOAP faults ([wsman-faults.c], [wsman-faults.h])

    The fault codes, the two tables that describe them and the functions that
    turn a fault code into a fault document, an HTTP status or back.  A fault
    document is represented by what [wsman_create_fault_envelope] puts into
    it; the value of an XPath expression on a document, which libxml2
    computes, is an argument. *)

From S2P Require Import Prelude.
From S2P Require Import CString.
From S2P Require Import Names.
From S2P Require Import Xml.
From Stdlib Require Import Ascii.

#[local] Open Scope string_scope.
#[local] Open Scope list_scope.
#[local] Open Scope Z_scope.

Definition FAULT_SENDER_CODE : string := "Sender".
Definition FAULT_MUSTUNDERSTAND_CODE : string := "MustUnderstand".
Definition FAULT_RECEIVER_CODE : string := "Receiver".
Definition FAULT_SENDER_CODE_NS : string := "s:Sender".
Definition FAULT_RECEIVER_CODE_NS : string := "s:Receiver".

(** The fault codes of [enum __WsmanFaultCodeType], in its order. *)
Inductive WsmanFaultCodeType :=
  | WSMAN_RC_OK | WSMAN_ACCESS_DENIED | WSA_ACTION_NOT_SUPPORTED
  | WSMAN_ALREADY_EXISTS | WSEN_CANNOT_PROCESS_FILTER | WSMAN_CANNOT_PROCESS_FILTER
  | WSMAN_CONCURRENCY | WSE_DELIVERY_MODE_REQUESTED_UNAVAILABLE | WSMAN_DELIVERY_REFUSED
  | WSA_DESTINATION_UNREACHABLE | WSMAN_ENCODING_LIMIT | WSA_ENDPOINT_UNAVAILABLE
  | WSMAN_EVENT_DELIVER_TO_UNUSABLE | WSE_EVENT_SOURCE_UNABLE_TO_PROCESS | WSEN_FILTER_DIALECT_REQUESTED_UNAVAILABLE
  | WSE_FILTERING_NOT_SUPPORTED | WSEN_FILTERING_NOT_SUPPORTED | WSE_FILTERING_REQUESTED_UNAVAILABLE
  | WSMAN_FRAGMENT_DIALECT_NOT_SUPPORTED | WSMAN_INTERNAL_ERROR | WSMAN_INVALID_BOOKMARK
  | WSEN_INVALID_ENUMERATION_CONTEXT | WSE_INVALID_EXPIRATION_TIME | WSEN_INVALID_EXPIRATION_TIME
  | WSE_INVALID_MESSAGE | WSA_INVALID_MESSAGE_INFORMATION_HEADER | WSMAN_INVALID_OPTIONS
  | WSMAN_INVALID_PARAMETER | WXF_INVALID_REPRESENTATION | WSMAN_INVALID_SELECTORS
  | WSA_MESSAGE_INFORMATION_HEADER_REQUIRED | WSMAN_NO_ACK | WSMAN_QUOTA_LIMIT
  | WSMAN_SCHEMA_VALIDATION_ERROR | WSEN_TIMED_OUT | WSMAN_TIMED_OUT
  | WSE_UNABLE_TO_RENEW | WSE_UNSUPPORTED_EXPIRATION_TYPE | WSEN_UNSUPPORTED_EXPIRATION_TYPE
  | WSMAN_UNSUPPORTED_FEATURE | SOAP_FAULT_VERSION_MISMATCH | SOAP_FAULT_MUSTUNDERSTAND
  | WSMB_POLYMORPHISM_MODE_NOT_SUPPORTED | WSMAN_UNKNOWN.

(** The fault details of [enum __WsmanFaultDetailType], in its order. *)
Inductive WsmanFaultDetailType :=
  | WSMAN_DETAIL_OK | WSMAN_DETAIL_ACK
  | WSMAN_DETAIL_ACTION_MISMATCH | WSMAN_DETAIL_ALREADY_EXISTS
  | WSMAN_DETAIL_AMBIGUOUS_SELECTORS | WSMAN_DETAIL_ASYNCHRONOUS_REQUEST
  | WSMAN_DETAIL_ADDRESSING_MODE | WSMAN_DETAIL_AUTHERIZATION_MODE
  | WSMAN_DETAIL_BOOKMARKS | WSMAN_DETAIL_CHARECHTER_SET
  | WSMAN_DETAIL_DELIVERY_RETRIES | WSMAN_DETAIL_DUPLICATE_SELECTORS
  | WSMAN_DETAIL_ENCODING_TYPE | WSMAN_DETAIL_ENUMERATION_MODE
  | WSMAN_DETAIL_EXPIRATION_TIME | WSMAN_DETAIL_EXPIRED
  | WSMAN_DETAIL_FILTERING_REQUIRED | WSMAN_DETAIL_FORMAT_MISMATCH
  | WSMAN_DETAIL_FORMAT_SECURITY_TOKEN | WSMAN_DETAIL_FRAGMENT_LEVEL_ACCESS
  | WSMAN_DETAIL_HEARTBEATS | WSMAN_DETAIL_INSECURE_ADDRESS
  | WSMAN_DETAIL_INSUFFICIENT_SELECTORS | WSMAN_DETAIL_INVALID
  | WSMAN_DETAIL_INVALID_ADDRESS | WSMAN_DETAIL_INVALID_FORMAT
  | WSMAN_DETAIL_INVALID_FRAGMENT | WSMAN_DETAIL_INVALID_NAME
  | WSMAN_DETAIL_INVALID_NAMESPACE | WSMAN_DETAIL_INVALID_RESOURCEURI
  | WSMAN_DETAIL_INVALID_SELECTOR_ASSIGNMENT | WSMAN_DETAIL_INVALID_SYSTEM
  | WSMAN_DETAIL_INVALID_TIMEOUT | WSMAN_DETAIL_INVALID_VALUE
  | WSMAN_DETAIL_INVALID_VALUES | WSMAN_DETAIL_LOCALE
  | WSMAN_DETAIL_MAX_ELEMENTS | WSMAN_DETAIL_MAX_ENVELOPE_POLICY
  | WSMAN_DETAIL_MAX_ENVELOPE_SIZE | WSMAN_DETAIL_MAX_TIME
  | WSMAN_DETAIL_MINIMUM_ENVELOPE_LIMIT | WSMAN_DETAIL_MISSING_VALUES
  | WSMAN_DETAIL_NOT_SUPPORTED | WSMAN_DETAIL_OPERATION_TIMEOUT
  | WSMAN_DETAIL_OPTION_LIMIT | WSMAN_DETAIL_OPTION_SET
  | WSMAN_DETAIL_READ_ONLY | WSMAN_DETAIL_RESOURCE_OFFLINE
  | WSMAN_DETAIL_RENAME | WSMAN_DETAIL_SELECTOR_LIMIT
  | WSMAN_DETAIL_SERVICE_ENVELOPE_LIMIT | WSMAN_DETAIL_TARGET_ALREADY_EXISTS
  | WSMAN_DETAIL_TYPE_MISMATCH | WSMAN_DETAIL_UNEXPECTED_SELECTORS
  | WSMAN_DETAIL_UNREPORTABLE_SUCCESS | WSMAN_DETAIL_UNUSABLE_ADDRESS
  | WSMAN_DETAIL_URI_LIMIT_EXCEEDED | WSMAN_DETAIL_WHITESPACE
  | WSA_DETAIL_DUPLICATE_MESSAGE_ID | SOAP_DETAIL_HEADER_NOT_UNDERSTOOD
  | WST_DETAIL_UNSUPPORTED_TOKENTYPE | WSP_DETAIL_INVALID_EPR
  | OWSMAN_DETAIL_ENDPOINT_ERROR | OWSMAN_NO_DETAILS
  | OWSMAN_SYSTEM_ERROR.

#[global] Instance WsmanFaultCodeType_eq_dec : EqDecision WsmanFaultCodeType.
Proof. solve_decision. Defined.
#[global] Instance WsmanFaultDetailType_eq_dec : EqDecision WsmanFaultDetailType.
Proof. solve_decision. Defined.

(** The integer values of the enumerations. *)
Definition all_fault_codes : list WsmanFaultCodeType :=
  [WSMAN_RC_OK; WSMAN_ACCESS_DENIED; WSA_ACTION_NOT_SUPPORTED;
   WSMAN_ALREADY_EXISTS; WSEN_CANNOT_PROCESS_FILTER; WSMAN_CANNOT_PROCESS_FILTER;
   WSMAN_CONCURRENCY; WSE_DELIVERY_MODE_REQUESTED_UNAVAILABLE; WSMAN_DELIVERY_REFUSED;
   WSA_DESTINATION_UNREACHABLE; WSMAN_ENCODING_LIMIT; WSA_ENDPOINT_UNAVAILABLE;
   WSMAN_EVENT_DELIVER_TO_UNUSABLE; WSE_EVENT_SOURCE_UNABLE_TO_PROCESS; WSEN_FILTER_DIALECT_REQUESTED_UNAVAILABLE;
   WSE_FILTERING_NOT_SUPPORTED; WSEN_FILTERING_NOT_SUPPORTED; WSE_FILTERING_REQUESTED_UNAVAILABLE;
   WSMAN_FRAGMENT_DIALECT_NOT_SUPPORTED; WSMAN_INTERNAL_ERROR; WSMAN_INVALID_BOOKMARK;
   WSEN_INVALID_ENUMERATION_CONTEXT; WSE_INVALID_EXPIRATION_TIME; WSEN_INVALID_EXPIRATION_TIME;
   WSE_INVALID_MESSAGE; WSA_INVALID_MESSAGE_INFORMATION_HEADER; WSMAN_INVALID_OPTIONS;
   WSMAN_INVALID_PARAMETER; WXF_INVALID_REPRESENTATION; WSMAN_INVALID_SELECTORS;
   WSA_MESSAGE_INFORMATION_HEADER_REQUIRED; WSMAN_NO_ACK; WSMAN_QUOTA_LIMIT;
   WSMAN_SCHEMA_VALIDATION_ERROR; WSEN_TIMED_OUT; WSMAN_TIMED_OUT;
   WSE_UNABLE_TO_RENEW; WSE_UNSUPPORTED_EXPIRATION_TYPE; WSEN_UNSUPPORTED_EXPIRATION_TYPE;
   WSMAN_UNSUPPORTED_FEATURE; SOAP_FAULT_VERSION_MISMATCH; SOAP_FAULT_MUSTUNDERSTAND;
   WSMB_POLYMORPHISM_MODE_NOT_SUPPORTED; WSMAN_UNKNOWN].
Definition all_fault_details : list WsmanFaultDetailType :=
  [WSMAN_DETAIL_OK; WSMAN_DETAIL_ACK;
   WSMAN_DETAIL_ACTION_MISMATCH; WSMAN_DETAIL_ALREADY_EXISTS;
   WSMAN_DETAIL_AMBIGUOUS_SELECTORS; WSMAN_DETAIL_ASYNCHRONOUS_REQUEST;
   WSMAN_DETAIL_ADDRESSING_MODE; WSMAN_DETAIL_AUTHERIZATION_MODE;
   WSMAN_DETAIL_BOOKMARKS; WSMAN_DETAIL_CHARECHTER_SET;
   WSMAN_DETAIL_DELIVERY_RETRIES; WSMAN_DETAIL_DUPLICATE_SELECTORS;
   WSMAN_DETAIL_ENCODING_TYPE; WSMAN_DETAIL_ENUMERATION_MODE;
   WSMAN_DETAIL_EXPIRATION_TIME; WSMAN_DETAIL_EXPIRED;
   WSMAN_DETAIL_FILTERING_REQUIRED; WSMAN_DETAIL_FORMAT_MISMATCH;
   WSMAN_DETAIL_FORMAT_SECURITY_TOKEN; WSMAN_DETAIL_FRAGMENT_LEVEL_ACCESS;
   WSMAN_DETAIL_HEARTBEATS; WSMAN_DETAIL_INSECURE_ADDRESS;
   WSMAN_DETAIL_INSUFFICIENT_SELECTORS; WSMAN_DETAIL_INVALID;
   WSMAN_DETAIL_INVALID_ADDRESS; WSMAN_DETAIL_INVALID_FORMAT;
   WSMAN_DETAIL_INVALID_FRAGMENT; WSMAN_DETAIL_INVALID_NAME;
   WSMAN_DETAIL_INVALID_NAMESPACE; WSMAN_DETAIL_INVALID_RESOURCEURI;
   WSMAN_DETAIL_INVALID_SELECTOR_ASSIGNMENT; WSMAN_DETAIL_INVALID_SYSTEM;
   WSMAN_DETAIL_INVALID_TIMEOUT; WSMAN_DETAIL_INVALID_VALUE;
   WSMAN_DETAIL_INVALID_VALUES; WSMAN_DETAIL_LOCALE;
   WSMAN_DETAIL_MAX_ELEMENTS; WSMAN_DETAIL_MAX_ENVELOPE_POLICY;
   WSMAN_DETAIL_MAX_ENVELOPE_SIZE; WSMAN_DETAIL_MAX_TIME;
   WSMAN_DETAIL_MINIMUM_ENVELOPE_LIMIT; WSMAN_DETAIL_MISSING_VALUES;
   WSMAN_DETAIL_NOT_SUPPORTED; WSMAN_DETAIL_OPERATION_TIMEOUT;
   WSMAN_DETAIL_OPTION_LIMIT; WSMAN_DETAIL_OPTION_SET;
   WSMAN_DETAIL_READ_ONLY; WSMAN_DETAIL_RESOURCE_OFFLINE;
   WSMAN_DETAIL_RENAME; WSMAN_DETAIL_SELECTOR_LIMIT;
   WSMAN_DETAIL_SERVICE_ENVELOPE_LIMIT; WSMAN_DETAIL_TARGET_ALREADY_EXISTS;
   WSMAN_DETAIL_TYPE_MISMATCH; WSMAN_DETAIL_UNEXPECTED_SELECTORS;
   WSMAN_DETAIL_UNREPORTABLE_SUCCESS; WSMAN_DETAIL_UNUSABLE_ADDRESS;
   WSMAN_DETAIL_URI_LIMIT_EXCEEDED; WSMAN_DETAIL_WHITESPACE;
   WSA_DETAIL_DUPLICATE_MESSAGE_ID; SOAP_DETAIL_HEADER_NOT_UNDERSTOOD;
   WST_DETAIL_UNSUPPORTED_TOKENTYPE; WSP_DETAIL_INVALID_EPR;
   OWSMAN_DETAIL_ENDPOINT_ERROR; OWSMAN_NO_DETAILS;
   OWSMAN_SYSTEM_ERROR].

Definition WSMAN_STATUS_OK : Z := 200.
Definition WSMAN_STATUS_BAD_REQUEST : Z := 400.
Definition WSMAN_STATUS_CONFLICT : Z := 409.
Definition WSMAN_STATUS_INTERNAL_SERVER_ERROR : Z := 500.
Definition WSMAN_STATUS_NOT_FOUND : Z := 404.
Definition WSMAN_STATUS_NOT_IMPLEMENTED : Z := 501.
Definition WSMAN_STATUS_REQUEST_ENTITY_TOO_LARGE : Z := 413.
Definition WSMAN_STATUS_REQUEST_TIMEOUT : Z := 408.
Definition WSMAN_STATUS_SERVICE_UNAVAILABLE : Z := 503.
Definition WSMAN_STATUS_UNAUTHORIZED : Z := 401.
Definition WSMAN_STATUS_UNPROCESSABLE_ENTITY : Z := 422.

Record WsmanFaultDetailTable := DetailEntry {
  detail_code : WsmanFaultDetailType;
  detail_text : option string;
}.

Record WsmanFaultCodeTable := FaultEntry {
  fault_code : WsmanFaultCodeType;
  http_code : Z;
  fault_action : option string;
  subCodeNs : option string;
  fault_soap_code : option string;
  subCode : option string;
  fault_reason : option string;
}.

Definition fault_detail_table : list WsmanFaultDetailTable :=
  [DetailEntry WSMAN_DETAIL_OK None;
   DetailEntry WSMAN_DETAIL_ACK (Some "Ack");
   DetailEntry WSMAN_DETAIL_ACTION_MISMATCH (Some "ActionMismatch");
   DetailEntry WSMAN_DETAIL_ALREADY_EXISTS (Some "AlreadyExists");
   DetailEntry WSMAN_DETAIL_AMBIGUOUS_SELECTORS (Some "AmbigousSelectors");
   DetailEntry WSMAN_DETAIL_ASYNCHRONOUS_REQUEST (Some "AsynchronousRequest");
   DetailEntry WSMAN_DETAIL_ADDRESSING_MODE (Some "AddressingMode");
   DetailEntry WSMAN_DETAIL_AUTHERIZATION_MODE (Some "AutherizationMode");
   DetailEntry WSMAN_DETAIL_BOOKMARKS (Some "Bookmarks");
   DetailEntry WSMAN_DETAIL_CHARECHTER_SET (Some "CharechterSet");
   DetailEntry WSMAN_DETAIL_DELIVERY_RETRIES (Some "DeliveryRetries");
   DetailEntry WSMAN_DETAIL_DUPLICATE_SELECTORS (Some "DuplicateSelectors");
   DetailEntry WSMAN_DETAIL_ENCODING_TYPE (Some "EncodingType");
   DetailEntry WSMAN_DETAIL_ENUMERATION_MODE (Some "EnumerationMode");
   DetailEntry WSMAN_DETAIL_EXPIRATION_TIME (Some "ExpirationTime");
   DetailEntry WSMAN_DETAIL_EXPIRED (Some "Expired");
   DetailEntry WSMAN_DETAIL_FILTERING_REQUIRED (Some "FilteringRequired");
   DetailEntry WSMAN_DETAIL_FORMAT_MISMATCH (Some "FormatMismatch");
   DetailEntry WSMAN_DETAIL_FORMAT_SECURITY_TOKEN (Some "FormatSecurityTocken");
   DetailEntry WSMAN_DETAIL_FRAGMENT_LEVEL_ACCESS (Some "FragmentLevelAccess");
   DetailEntry WSMAN_DETAIL_HEARTBEATS (Some "Heartbeats");
   DetailEntry WSMAN_DETAIL_INSECURE_ADDRESS (Some "InsecureAddress");
   DetailEntry WSMAN_DETAIL_INSUFFICIENT_SELECTORS (Some "InsufficientSelectors");
   DetailEntry WSMAN_DETAIL_INVALID (Some "Invalid");
   DetailEntry WSMAN_DETAIL_INVALID_ADDRESS (Some "InvalidAddress");
   DetailEntry WSMAN_DETAIL_INVALID_FORMAT (Some "InvalidFormat");
   DetailEntry WSMAN_DETAIL_INVALID_FRAGMENT (Some "InvalidFragment");
   DetailEntry WSMAN_DETAIL_INVALID_NAME (Some "InvalidName");
   DetailEntry WSMAN_DETAIL_INVALID_NAMESPACE (Some "InvalidNamespace");
   DetailEntry WSMAN_DETAIL_INVALID_RESOURCEURI (Some "InvalidResourceURI");
   DetailEntry WSMAN_DETAIL_INVALID_SELECTOR_ASSIGNMENT (Some "InvalidSelectorAssignment");
   DetailEntry WSMAN_DETAIL_INVALID_SYSTEM (Some "InvalidSystem");
   DetailEntry WSMAN_DETAIL_INVALID_TIMEOUT (Some "InvalidTimeout");
   DetailEntry WSMAN_DETAIL_INVALID_VALUE (Some "InvalidValue");
   DetailEntry WSMAN_DETAIL_INVALID_VALUES (Some "InvalidValues");
   DetailEntry WSMAN_DETAIL_LOCALE (Some "Locale");
   DetailEntry WSMAN_DETAIL_MAX_ELEMENTS (Some "MaxElements");
   DetailEntry WSMAN_DETAIL_MAX_ENVELOPE_POLICY (Some "MaxEnvelopePolicy");
   DetailEntry WSMAN_DETAIL_MAX_ENVELOPE_SIZE (Some "MaxEnvelopeSize");
   DetailEntry WSMAN_DETAIL_MAX_TIME (Some "MaxTime");
   DetailEntry WSMAN_DETAIL_MINIMUM_ENVELOPE_LIMIT (Some "MinimumEnvelopeLimit");
   DetailEntry WSMAN_DETAIL_MISSING_VALUES (Some "MissingValues");
   DetailEntry WSMAN_DETAIL_NOT_SUPPORTED (Some "NotSupported");
   DetailEntry WSMAN_DETAIL_OPERATION_TIMEOUT (Some "OperationTimeout");
   DetailEntry WSMAN_DETAIL_OPTION_LIMIT (Some "OptionLimit");
   DetailEntry WSMAN_DETAIL_OPTION_SET (Some "OptionSet");
   DetailEntry WSMAN_DETAIL_READ_ONLY (Some "ReadOnly");
   DetailEntry WSMAN_DETAIL_RESOURCE_OFFLINE (Some "ResourceOffline");
   DetailEntry WSMAN_DETAIL_RENAME (Some "Rename");
   DetailEntry WSMAN_DETAIL_SELECTOR_LIMIT (Some "SelectorLimit");
   DetailEntry WSMAN_DETAIL_SERVICE_ENVELOPE_LIMIT (Some "ServiceEnvelopeLimit");
   DetailEntry WSMAN_DETAIL_TARGET_ALREADY_EXISTS (Some "TargetAlreadyExists");
   DetailEntry WSMAN_DETAIL_TYPE_MISMATCH (Some "TypeMismatch");
   DetailEntry WSMAN_DETAIL_UNEXPECTED_SELECTORS (Some "UnexpectedSelectors");
   DetailEntry WSMAN_DETAIL_UNREPORTABLE_SUCCESS (Some "UnreportableSuccess");
   DetailEntry WSMAN_DETAIL_UNUSABLE_ADDRESS (Some "UnusableAddress");
   DetailEntry WSMAN_DETAIL_URI_LIMIT_EXCEEDED (Some "UriLimitExceeded");
   DetailEntry WSMAN_DETAIL_WHITESPACE (Some "Whitespace");
   DetailEntry WSA_DETAIL_DUPLICATE_MESSAGE_ID (Some "DuplicateMessageID");
   DetailEntry SOAP_DETAIL_HEADER_NOT_UNDERSTOOD (Some "HeaderNotUnderstood");
   DetailEntry WST_DETAIL_UNSUPPORTED_TOKENTYPE (Some "UnsupportedTokenType");
   DetailEntry WSP_DETAIL_INVALID_EPR (Some "InvalidEPR");
   DetailEntry OWSMAN_DETAIL_ENDPOINT_ERROR (Some "Unknown");
   DetailEntry OWSMAN_NO_DETAILS (Some "Unknown");
   DetailEntry OWSMAN_SYSTEM_ERROR (Some "Unknown")].

Definition fault_code_table : list WsmanFaultCodeTable :=
  [FaultEntry SOAP_FAULT_MUSTUNDERSTAND WSMAN_STATUS_BAD_REQUEST
     (Some WSA_ACTION_FAULT) (Some XML_NS_SOAP_1_2) (Some FAULT_MUSTUNDERSTAND_CODE)
     (Some "")
     (Some "The WS-Management service cannot process a SOAP header in the request that is marked as mustUnderstand by the client. This could be caused by the use of a version of the protocol which is not supported, or may be an incompatibility between the client and server implementations.");
   FaultEntry WSA_ENDPOINT_UNAVAILABLE WSMAN_STATUS_SERVICE_UNAVAILABLE
     (Some WSA_ACTION_FAULT) (Some XML_NS_ADDRESSING) (Some FAULT_SENDER_CODE)
     (Some "EndpointUnavailable")
     (Some "");
   FaultEntry WSMAN_ACCESS_DENIED WSMAN_STATUS_UNAUTHORIZED
     (Some WSMAN_ACTION_FAULT) (Some XML_NS_WS_MAN) (Some FAULT_SENDER_CODE)
     (Some "AccessDenied")
     (Some "The sender was not authorized to access the resource.");
   FaultEntry WSA_ACTION_NOT_SUPPORTED WSMAN_STATUS_NOT_IMPLEMENTED
     (Some WSA_ACTION_FAULT) (Some XML_NS_ADDRESSING) (Some FAULT_SENDER_CODE)
     (Some "ActionNotSupported")
     (Some "The action is not supported by the service.");
   FaultEntry WSMAN_ALREADY_EXISTS WSMAN_STATUS_BAD_REQUEST
     (Some WSMAN_ACTION_FAULT) (Some XML_NS_WS_MAN) (Some FAULT_SENDER_CODE)
     (Some "AlreadyExists")
     (Some "The sender attempted to create a resource which already exists.");
   FaultEntry WSEN_CANNOT_PROCESS_FILTER WSMAN_STATUS_UNPROCESSABLE_ENTITY
     (Some WSENUM_ACTION_FAULT) (Some XML_NS_ENUMERATION) (Some FAULT_SENDER_CODE)
     (Some "CannotProcessFilter")
     (Some "The requested filter could not be processed.");
   FaultEntry WSMAN_CANNOT_PROCESS_FILTER WSMAN_STATUS_UNPROCESSABLE_ENTITY
     (Some WSMAN_ACTION_FAULT) (Some XML_NS_WS_MAN) (Some FAULT_SENDER_CODE)
     (Some "CannotProcessFilter")
     (Some "The requested filter could not be processed.");
   FaultEntry WSMAN_CONCURRENCY WSMAN_STATUS_CONFLICT
     (Some WSMAN_ACTION_FAULT) (Some XML_NS_WS_MAN) (Some FAULT_SENDER_CODE)
     (Some "Concurrency")
     (Some "The action could not be completed due to concurrency or locking problems.");
   FaultEntry WSA_DESTINATION_UNREACHABLE WSMAN_STATUS_SERVICE_UNAVAILABLE
     (Some WSA_ACTION_FAULT) (Some XML_NS_ADDRESSING) (Some FAULT_SENDER_CODE)
     (Some "DestinationUnreachable")
     (Some "No route can be determined to reach the destination role defined by the WS-Addressing To.");
   FaultEntry WSMAN_ENCODING_LIMIT WSMAN_STATUS_REQUEST_ENTITY_TOO_LARGE
     (Some WSMAN_ACTION_FAULT) (Some XML_NS_WS_MAN) (Some FAULT_SENDER_CODE)
     (Some "EncodingLimit")
     (Some "An internal encoding limit was exceeded in a request or would be violated if the message were processed.");
   FaultEntry WSA_ENDPOINT_UNAVAILABLE WSMAN_STATUS_SERVICE_UNAVAILABLE
     (Some WSA_ACTION_FAULT) (Some XML_NS_ADDRESSING) (Some FAULT_RECEIVER_CODE)
     (Some "EndpointUnavailable")
     (Some "The specified endpoint is currently unavailable.");
   FaultEntry WSEN_FILTER_DIALECT_REQUESTED_UNAVAILABLE WSMAN_STATUS_NOT_IMPLEMENTED
     (Some WSENUM_ACTION_FAULT) (Some XML_NS_ENUMERATION) (Some FAULT_SENDER_CODE)
     (Some "FilterDialectRequestedUnavailable")
     (Some "The requested filtering dialect is not supported.");
   FaultEntry WSEN_FILTERING_NOT_SUPPORTED WSMAN_STATUS_NOT_IMPLEMENTED
     (Some WSENUM_ACTION_FAULT) (Some XML_NS_ENUMERATION) (Some FAULT_SENDER_CODE)
     (Some "FilteringNotSupported")
     (Some "Filtered enumeration is not supported.");
   FaultEntry WSMAN_FRAGMENT_DIALECT_NOT_SUPPORTED WSMAN_STATUS_NOT_IMPLEMENTED
     (Some WSMAN_ACTION_FAULT) (Some XML_NS_WS_MAN) (Some FAULT_RECEIVER_CODE)
     (Some "FragmentDialectNotSupported")
     (Some "The requested fragment filtering dialect or language is not supported.");
   FaultEntry WSMAN_INTERNAL_ERROR WSMAN_STATUS_INTERNAL_SERVER_ERROR
     (Some WSMAN_ACTION_FAULT) (Some XML_NS_WS_MAN) (Some FAULT_RECEIVER_CODE)
     (Some "InternalError")
     (Some "The service cannot comply with the request due to internal processing errors.");
   FaultEntry WSEN_INVALID_ENUMERATION_CONTEXT WSMAN_STATUS_BAD_REQUEST
     (Some WSENUM_ACTION_FAULT) (Some XML_NS_ENUMERATION) (Some FAULT_RECEIVER_CODE)
     (Some "InvalidEnumerationContext")
     (Some "The supplied enumeration context is invalid.");
   FaultEntry WSA_INVALID_MESSAGE_INFORMATION_HEADER WSMAN_STATUS_BAD_REQUEST
     (Some WSA_ACTION_FAULT) (Some XML_NS_ADDRESSING) (Some FAULT_SENDER_CODE)
     (Some "InvalidMessageInformationHeader")
     (Some "A message information header is not valid and the message cannot be processed.");
   FaultEntry WSMAN_INVALID_OPTIONS WSMAN_STATUS_BAD_REQUEST
     (Some WSMAN_ACTION_FAULT) (Some XML_NS_WS_MAN) (Some FAULT_SENDER_CODE)
     (Some "InvalidOptions")
     (Some "One or more options are not valid.");
   FaultEntry WSMAN_INVALID_PARAMETER WSMAN_STATUS_BAD_REQUEST
     (Some WSMAN_ACTION_FAULT) (Some XML_NS_WS_MAN) (Some FAULT_SENDER_CODE)
     (Some "InvalidParameter")
     (Some "An operation parameter is not valid.");
   FaultEntry WXF_INVALID_REPRESENTATION WSMAN_STATUS_BAD_REQUEST
     (Some WSXF_ACTION_FAULT) (Some XML_NS_TRANSFER) (Some FAULT_SENDER_CODE)
     (Some "InvalidRepresentation")
     (Some "The XML content is not valid.");
   FaultEntry WSMAN_INVALID_SELECTORS WSMAN_STATUS_BAD_REQUEST
     (Some WSMAN_ACTION_FAULT) (Some XML_NS_WS_MAN) (Some FAULT_SENDER_CODE)
     (Some "InvalidSelectors")
     (Some "The Selectors for the resource are not valid.");
   FaultEntry WSA_MESSAGE_INFORMATION_HEADER_REQUIRED WSMAN_STATUS_BAD_REQUEST
     (Some WSA_ACTION_FAULT) (Some XML_NS_ADDRESSING) (Some FAULT_SENDER_CODE)
     (Some "MessageInformationHeaderRequired")
     (Some "A required header is missing.");
   FaultEntry WSMAN_NO_ACK WSMAN_STATUS_BAD_REQUEST
     (Some WSMAN_ACTION_FAULT) (Some XML_NS_WS_MAN) (Some FAULT_SENDER_CODE)
     (Some "NoAck")
     (Some "The receiver did not acknowledge the event delivery.");
   FaultEntry WSMAN_QUOTA_LIMIT WSMAN_STATUS_BAD_REQUEST
     (Some WSMAN_ACTION_FAULT) (Some XML_NS_WS_MAN) (Some FAULT_SENDER_CODE)
     (Some "QuotaLimit")
     (Some "The service is busy servicing other requests.");
   FaultEntry WSMAN_SCHEMA_VALIDATION_ERROR WSMAN_STATUS_BAD_REQUEST
     (Some WSMAN_ACTION_FAULT) (Some XML_NS_WS_MAN) (Some FAULT_SENDER_CODE)
     (Some "SchemaValidationError")
     (Some "The supplied SOAP violates the corresponding XML schema definition.");
   FaultEntry WSEN_TIMED_OUT WSMAN_STATUS_REQUEST_TIMEOUT
     (Some WSENUM_ACTION_FAULT) (Some XML_NS_ENUMERATION) (Some FAULT_RECEIVER_CODE)
     (Some "TimedOut")
     (Some "The enumerator has timed out and is no longer valid.");
   FaultEntry WSMAN_TIMED_OUT WSMAN_STATUS_REQUEST_TIMEOUT
     (Some WSMAN_ACTION_FAULT) (Some XML_NS_WS_MAN) (Some FAULT_RECEIVER_CODE)
     (Some "TimedOut")
     (Some "The operation has timed out.");
   FaultEntry WSEN_UNSUPPORTED_EXPIRATION_TYPE WSMAN_STATUS_BAD_REQUEST
     (Some WSENUM_ACTION_FAULT) (Some XML_NS_ENUMERATION) (Some FAULT_RECEIVER_CODE)
     (Some "UnsupportedExpirationType")
     (Some "The specified expiration type is not supported.");
   FaultEntry WSMAN_UNSUPPORTED_FEATURE WSMAN_STATUS_BAD_REQUEST
     (Some WSMAN_ACTION_FAULT) (Some XML_NS_WS_MAN) (Some FAULT_SENDER_CODE)
     (Some "UnsupportedFeature")
     (Some "The specified feature is not supported.");
   FaultEntry WSMAN_UNSUPPORTED_FEATURE WSMAN_STATUS_NOT_IMPLEMENTED
     (Some WSMAN_ACTION_FAULT) (Some XML_NS_CIM_BINDING) (Some FAULT_RECEIVER_CODE)
     (Some "PolymorphismModeNotSupported")
     (Some "The specified feature is not supported.");
   FaultEntry WSMAN_EVENT_DELIVER_TO_UNUSABLE WSMAN_STATUS_BAD_REQUEST
     (Some WSMAN_ACTION_FAULT) (Some XML_NS_CIM_BINDING) (Some FAULT_RECEIVER_CODE)
     (Some "DevliveryToUnusable")
     (Some "The wse:NotifyTo address is not usable because it is incorrect");
   FaultEntry WSMB_POLYMORPHISM_MODE_NOT_SUPPORTED WSMAN_STATUS_NOT_IMPLEMENTED
     (Some WSMB_ACTION_FAULT) (Some XML_NS_WS_MAN) (Some FAULT_RECEIVER_CODE)
     (Some "UnsupportedFeature")
     (Some "The specified feature is not supported.");
   FaultEntry WSE_INVALID_EXPIRATION_TIME WSMAN_STATUS_BAD_REQUEST
     (Some WSEVENT_ACTION_FAULT) (Some XML_NS_EVENTING) (Some FAULT_SENDER_CODE)
     (Some "InvalidExpirationTime")
     (Some "The expiration time is invalid");
   FaultEntry WSE_DELIVERY_MODE_REQUESTED_UNAVAILABLE WSMAN_STATUS_BAD_REQUEST
     (Some WSEVENT_ACTION_FAULT) (Some XML_NS_EVENTING) (Some FAULT_SENDER_CODE)
     (Some "DeliveryModeRequestedUnavailable")
     (Some "The requested delivery mode is not supported");
   FaultEntry WSE_FILTERING_NOT_SUPPORTED WSMAN_STATUS_BAD_REQUEST
     (Some WSEVENT_ACTION_FAULT) (Some XML_NS_EVENTING) (Some FAULT_SENDER_CODE)
     (Some "FilteringNotSupported")
     (Some "Filtering over the event source is not supported");
   FaultEntry WSE_INVALID_MESSAGE WSMAN_STATUS_BAD_REQUEST
     (Some WSEVENT_ACTION_FAULT) (Some XML_NS_EVENTING) (Some FAULT_SENDER_CODE)
     (Some "InvalidMessage")
     (Some "The request message has unknown or invalid content and cannot be processed.");
   FaultEntry WSMAN_UNKNOWN WSMAN_STATUS_NOT_FOUND
     None None None
     None
     None].

(** ** Status of a message *)

Record WsmanStatus := Status {
  st_code : WsmanFaultCodeType;
  st_detail : WsmanFaultDetailType;
  st_msg : option string;
}.

Definition wsman_fault_occured (s : WsmanStatus) : bool :=
  negb (bool_decide (st_code s = WSMAN_RC_OK)).

Definition wsman_set_fault (s : WsmanStatus) (code : WsmanFaultCodeType)
    (detail : WsmanFaultDetailType) (details : option string) : WsmanStatus :=
  if negb (wsman_fault_occured s) then
    Status code detail (match details with Some d => Some d | None => st_msg s end)
  else s.

(** ** Fault documents *)

(** The arguments [wsman_create_fault_envelope] builds the document from;
    [NULL] is passed for the language. *)
Record fault_doc := FaultDoc {
  fd_code : option string;
  fd_subCodeNs : option string;
  fd_subCode : option string;
  fd_action : option string;
  fd_reason : option string;
  fd_detail : option string;
}.

Fixpoint find_fault (t : list WsmanFaultCodeTable) (c : WsmanFaultCodeType)
  : option WsmanFaultCodeTable :=
  match t with
  | [] => None
  | e :: t' => if decide (fault_code e = c) then Some e else find_fault t' c
  end.

(** The integer value of an enumerator. *)
Definition detail_value (d : WsmanFaultDetailType) : nat :=
  default O (fst <$> list_find (d =.) all_fault_details).

(** [fault_detail_table[faultDetail].detail]; [None] is an access past the
    end of the table. *)
Definition detail_at (d : WsmanFaultDetailType) : option (option string) :=
  detail_text <$> fault_detail_table !! detail_value d.

Definition wsman_generate_fault (faultCode : WsmanFaultCodeType)
    (faultDetail : WsmanFaultDetailType) (fault_msg : option string) : option (option fault_doc) :=
  match find_fault fault_code_table faultCode with
  | None => Some None
  | Some e =>
      let reason := match fault_msg with Some m => Some m | None => fault_reason e end in
      detail ← (if (0 <? detail_value faultDetail)%nat then detail_at faultDetail else Some None);
      Some (Some (FaultDoc (fault_soap_code e) (subCodeNs e) (subCode e) (fault_action e)
                    reason detail))
  end.

Definition wsman_find_httpcode_for_fault_code (c : WsmanFaultCodeType) : Z :=
  match find_fault fault_code_table c with
  | Some e => http_code e
  | None => WSMAN_STATUS_INTERNAL_SERVER_ERROR
  end.

(** [xp] is the text at [/s:Envelope/s:Body/s:Fault/s:Code/s:Value]. *)
Definition wsman_find_httpcode_for_value (xp : option string) : Z :=
  match xp with
  | None => WSMAN_STATUS_OK
  | Some v =>
      if str_eqb v FAULT_RECEIVER_CODE_NS then WSMAN_STATUS_INTERNAL_SERVER_ERROR
      else if str_eqb v FAULT_SENDER_CODE_NS then WSMAN_STATUS_BAD_REQUEST
      else WSMAN_STATUS_OK
  end.

Definition wsman_is_fault_envelope (doc : option xnode) : bool :=
  match ws_xml_get_child (ws_xml_get_soap_body doc) 0 (Some XML_NS_SOAP_1_2) (Some SOAP_FAULT) with
  | Some _ => true
  | None => false
  end.

(** The search by subcode; [strcmp] with an entry's NULL subcode fails. *)
Fixpoint find_subcode (t : list WsmanFaultCodeTable) (v : string)
  : option (option WsmanFaultCodeType) :=
  match t with
  | [] => Some None
  | e :: t' =>
      sc ← subCode e;
      if str_eqb v sc then Some (Some (fault_code e)) else find_subcode t' v
  end.

(** [subcode_value] is the text of the fault's Subcode, [calloc_ok] whether
    the buffer can be allocated. *)
Definition wsman_get_fault_status_from_doc (calloc_ok : bool) (subcode_value : option string)
    (s : WsmanStatus) : option WsmanStatus :=
  match subcode_value with
  | None | Some EmptyString => Some s
  | Some v =>
      if negb calloc_ok then Some (Status WSMAN_INTERNAL_ERROR OWSMAN_SYSTEM_ERROR None)
      else
        match strchr v ":"%char with
        | None => Some s
        | Some start_pos =>
            msg ← str_drop 1 start_pos;
            r ← find_subcode fault_code_table msg;
            Some (match r with Some c => Status c WSMAN_DETAIL_OK None | None => s end)
        end
  end.

(** ** Theorems *)

Lemma all_fault_codes_complete c : c ∈ all_fault_codes.
Proof. destruct c; apply (bool_decide_unpack _); vm_compute; exact I. Qed.
Lemma all_fault_details_complete d : d ∈ all_fault_details.
Proof. destruct d; apply (bool_decide_unpack _); vm_compute; exact I. Qed.

(** The codes that have no entry in [fault_code_table]. *)
Definition codes_without_entry : list WsmanFaultCodeType :=
  [WSMAN_RC_OK; WSMAN_DELIVERY_REFUSED; WSE_EVENT_SOURCE_UNABLE_TO_PROCESS;
   WSE_FILTERING_REQUESTED_UNAVAILABLE; WSMAN_INVALID_BOOKMARK; WSEN_INVALID_EXPIRATION_TIME;
   WSE_UNABLE_TO_RENEW; WSE_UNSUPPORTED_EXPIRATION_TYPE; SOAP_FAULT_VERSION_MISMATCH].

Lemma find_fault_entry c :
  if decide (c ∈ codes_without_entry) then find_fault fault_code_table c = None
  else is_Some (find_fault fault_code_table c).
Proof. destruct c; vm_compute; first [reflexivity | eexists; reflexivity]. Qed.

Lemma find_fault_code t c e : find_fault t c = Some e → fault_code e = c ∧ e ∈ t.
Proof.
  induction t as [|e' t IH]; simpl; [done|]. case_decide as E.
  - intros [= ->]. split; [done|by left].
  - intros [? ?]%IH. split; [done|by right].
Qed.

(** The detail table is indexed by the enumeration it describes. *)
Lemma detail_table_indexed d :
  ∃ t, fault_detail_table !! detail_value d = Some (DetailEntry d t).
Proof. destruct d; vm_compute; eexists; reflexivity. Qed.

Lemma detail_at_total d : is_Some (detail_at d).
Proof. unfold detail_at. destruct (detail_table_indexed d) as [t ->]. eauto. Qed.

Lemma generate_fault_entry code detail msg f :
  wsman_generate_fault code detail msg = Some (Some f) →
  ∃ e, e ∈ fault_code_table ∧ fault_code e = code ∧ fd_code f = fault_soap_code e ∧
    fd_subCodeNs f = subCodeNs e ∧ fd_subCode f = subCode e.
Proof.
  unfold wsman_generate_fault. destruct (find_fault _ _) as [e|] eqn:He; [|done].
  intros Hg. bind_inv Hg. injection Hg as <-. apply find_fault_code in He as [Hc Hin]. by exists e.
Qed.

Lemma generate_fault_defined code detail msg : is_Some (wsman_generate_fault code detail msg).
Proof.
  unfold wsman_generate_fault. destruct (find_fault _ _); [|done].
  destruct (detail_at_total detail) as [t ->]. by destruct (_ <? _)%nat.
Qed.

Lemma generate_fault_some code detail msg :
  code ∉ codes_without_entry → ∃ f, wsman_generate_fault code detail msg = Some (Some f).
Proof.
  intros Hc. pose proof (find_fault_entry code) as Hf. rewrite decide_False in Hf by done.
  destruct Hf as [e He]. unfold wsman_generate_fault. rewrite He.
  destruct (detail_at_total detail) as [t ->]. destruct (_ <? _)%nat; by eexists.
Qed.

(** [wsman_generate_fault] never reads outside its tables; it produces a
    document for every fault code but nine, and a document it produces carries
    the code, subcode and action of the code's own table entry, the caller's
    message in place of the table's reason when there is one, and the text the
    detail table has for the detail.  The nine codes without an entry, among
    them [SOAP_FAULT_VERSION_MISMATCH], [WSEN_INVALID_EXPIRATION_TIME] and
    [WSE_UNABLE_TO_RENEW], which the program raises, yield no document. *)
Theorem wsman_generate_fault_total code detail msg :
  if decide (code ∈ codes_without_entry) then wsman_generate_fault code detail msg = Some None
  else ∃ e t, e ∈ fault_code_table ∧ fault_code e = code ∧
    DetailEntry detail t ∈ fault_detail_table ∧
    wsman_generate_fault code detail msg = Some (Some (FaultDoc (fault_soap_code e) (subCodeNs e)
      (subCode e) (fault_action e) (match msg with Some m => Some m | None => fault_reason e end) t)).
Proof.
  pose proof (find_fault_entry code) as Hf. unfold wsman_generate_fault.
  destruct (decide (code ∈ codes_without_entry)); [by rewrite Hf|].
  destruct Hf as [e He]. rewrite He. destruct (find_fault_code _ _ _ He) as [Hc Hin].
  destruct (detail_table_indexed detail) as [t Ht].
  exists e, t. split_and!; [done|done|by eapply list_elem_of_lookup_2|].
  unfold detail_at. rewrite Ht. destruct (Nat.ltb_spec 0 (detail_value detail)) as [|Hz]; [done|].
  assert (detail_value detail = 0%nat) as E by lia. rewrite E in Ht. injection Ht as <- <-. done.
Qed.

(** The first fault of a message is the one that is reported: once a fault
    is set, [wsman_set_fault] changes nothing, and before that it records its
    arguments and makes [wsman_fault_occured] true, unless it is called with
    [WSMAN_RC_OK]. *)
Theorem wsman_set_fault_first_wins s c1 d1 m1 c2 d2 m2 :
  c1 ≠ WSMAN_RC_OK →
  let s1 := wsman_set_fault s c1 d1 m1 in
  wsman_fault_occured s1 = true ∧ wsman_set_fault s1 c2 d2 m2 = s1 ∧
  (wsman_fault_occured s = false → st_code s1 = c1 ∧ st_detail s1 = d1).
Proof.
  intros Hc s1. unfold s1, wsman_set_fault, wsman_fault_occured.
  destruct (bool_decide (st_code s = WSMAN_RC_OK)) eqn:E; simpl.
  - rewrite bool_decide_eq_false_2 by done. done.
  - rewrite E. done.
Qed.

Lemma wsman_set_fault_first_wins_witness :
  let s1 := wsman_set_fault (Status WSMAN_RC_OK WSMAN_DETAIL_OK None) WSMAN_ACCESS_DENIED
              WSMAN_DETAIL_OK None in
  wsman_fault_occured s1 = true ∧
  wsman_set_fault s1 WSMAN_CONCURRENCY WSMAN_DETAIL_LOCALE (Some "late") = s1 ∧
  (wsman_fault_occured (Status WSMAN_RC_OK WSMAN_DETAIL_OK None) = false →
   st_code s1 = WSMAN_ACCESS_DENIED ∧ st_detail s1 = WSMAN_DETAIL_OK).
Proof. refine (wsman_set_fault_first_wins _ _ _ _ _ _ _ _). discriminate. Defined.

(** The entries the search by subcode can meet: all but the last, whose
    subcode is NULL. *)
Lemma find_subcode_spec t v :
  (∀ e, e ∈ t → is_Some (subCode e)) → ∀ last, subCode last = None →
  match find_subcode (t ++ [last]) v with
  | Some (Some c) => ∃ e, e ∈ t ∧ subCode e = Some v ∧ fault_code e = c
  | Some None => False
  | None => ∀ e, e ∈ t → subCode e ≠ Some v
  end.
Proof.
  intros Ht last Hl. induction t as [|e t IH]; cbn [find_subcode app].
  - rewrite Hl. intros e He. by apply not_elem_of_nil in He.
  - destruct (Ht e) as [sc Hsc]; [by left|]. rewrite Hsc, some_bind.
    destruct (str_eqb v sc) eqn:E.
    + apply str_eqb_eq in E as ->. exists e. split; [by left|done].
    + apply str_eqb_neq in E. assert (Ht' : ∀ e', e' ∈ t → is_Some (subCode e')) by (intros; apply Ht; by right).
      specialize (IH Ht').
      destruct (find_subcode (t ++ [last]) v) as [[c|]|].
      * destruct IH as (e' & ? & ? & ?). exists e'. split; [by right|done].
      * done.
      * intros e' [->|He']%elem_of_cons; [congruence|by apply IH].
Qed.

Definition fault_entries : list WsmanFaultCodeTable := removelast fault_code_table.

Lemma fault_table_split :
  ∃ last, fault_code_table = fault_entries ++ [last] ∧ subCode last = None ∧
    ∀ e, e ∈ fault_entries → is_Some (subCode e).
Proof.
  eexists. split; [reflexivity|]. split; [reflexivity|].
  apply Forall_forall. apply (bool_decide_unpack _). vm_compute. exact I.
Qed.

Lemma fault_status_prefixed p v s :
  strchr p ":"%char = None →
  wsman_get_fault_status_from_doc true (Some (p +:+ ":" +:+ v)) s =
  find_subcode fault_code_table v ≫= λ r : option WsmanFaultCodeType,
    Some (match r with Some c => Status c WSMAN_DETAIL_OK None | None => s end).
Proof.
  intros Hp. assert (Hne : ∃ a t, p +:+ ":" +:+ v = String a t) by (destruct p; simpl; eauto).
  destruct Hne as (a & t & Hat). unfold wsman_get_fault_status_from_doc. rewrite Hat, <- Hat.
  change (":" +:+ v) with (String ":"%char v). by rewrite strchr_app by done.
Qed.

(** [wsman_get_fault_status_from_doc] on a subcode [p:v] gives a fault code
    whose table entry has the subcode [v], when there is one; for every other
    [v] the search reaches the last entry of the table, whose subcode is NULL,
    and passes that to [strcmp]. *)
Theorem fault_status_from_subcode p v s :
  strchr p ":"%char = None →
  match wsman_get_fault_status_from_doc true (Some (p +:+ ":" +:+ v)) s with
  | Some s' => ∃ e, e ∈ fault_code_table ∧ subCode e = Some v ∧
                    s' = Status (fault_code e) WSMAN_DETAIL_OK None
  | None => ∀ e, e ∈ fault_code_table → subCode e ≠ Some v
  end.
Proof.
  intros Hp. rewrite fault_status_prefixed by done.
  destruct fault_table_split as (last & -> & Hl & He).
  pose proof (find_subcode_spec fault_entries v He last Hl) as H.
  destruct (find_subcode _ v) as [[c|]|]; cbn [mbind option_bind]; [|done|].
  - destruct H as (e & ? & ? & <-). exists e. split; [|done]. apply elem_of_app. by left.
  - intros e [?|Hlast%list_elem_of_singleton]%elem_of_app; [by apply H|congruence].
Qed.

Lemma fault_status_from_subcode_witness :
  match wsman_get_fault_status_from_doc true (Some ("wsa" +:+ ":" +:+ "NoSuchSubcode"))
          (Status WSMAN_RC_OK WSMAN_DETAIL_OK None) with
  | Some s' => ∃ e, e ∈ fault_code_table ∧ subCode e = Some "NoSuchSubcode" ∧
                    s' = Status (fault_code e) WSMAN_DETAIL_OK None
  | None => ∀ e, e ∈ fault_code_table → subCode e ≠ Some "NoSuchSubcode"
  end.
Proof. exact (fault_status_from_subcode "wsa" "NoSuchSubcode" (Status WSMAN_RC_OK WSMAN_DETAIL_OK None) eq_refl). Defined.
