(* ===== verification/Duration.v ===== *)
(** * Durations and dates ([wsman-xml-serialize.c], [wsman-soap-envelope.c])

    The parsers of XML Schema durations and dates, on which the expiry of
    enumerations and subscriptions and the operation timeout depend.  A string
    pointer is the rest of the string it points to. *)

From S2P Require Import Prelude.
From S2P Require Import CString.
From S2P Require Import Names.
From S2P Require Import Xml.
From S2P Require Import Faults.
From Stdlib Require Import Ascii.

#[local] Open Scope string_scope.
#[local] Open Scope list_scope.
#[local] Open Scope Z_scope.

(** The locals of [ws_deserialize_duration]: the components parsed so far, the
    position mask [got] (64 before the year down to 1 after the seconds) and
    whether the ['T'] was seen. *)
Record dstate := DState {
  d_years : Z; d_months : Z; d_days : Z; d_hours : Z; d_mins : Z; d_secs : Z;
  d_got : Z;
  d_time : bool;
}.

Definition dstate0 : dstate := DState 0 0 0 0 0 0 64 false.

Definition set_time (s : dstate) : dstate :=
  DState (d_years s) (d_months s) (d_days s) (d_hours s) (d_mins s) (d_secs s) (d_got s) true.

(** The [switch] on the designator; [None] is [goto DONE] with an error. *)
Definition designator (c : ascii) (v : Z) (s : dstate) : option dstate :=
  let '(DState y mo d h mi se got time) := s in
  if code c =? 89 (* Y *) then
    if (got <=? 32) || time then None else Some (DState v mo d h mi se 32 time)
  else if code c =? 77 (* M *) then
    if negb time then
      if got <=? 16 then None else Some (DState y v d h mi se 16 time)
    else
      if (got <=? 2) || negb time then None else Some (DState y mo d h v se 2 time)
  else if code c =? 68 (* D *) then
    if (got <=? 8) || time then None else Some (DState y mo v h mi se 8 time)
  else if code c =? 72 (* H *) then
    if (got <=? 4) || negb time then None else Some (DState y mo d v mi se 4 time)
  else if code c =? 83 (* S *) then
    if (got <=? 1) || negb time then None else Some (DState y mo d h mi v 1 time)
  else None.

Definition starts_with (c : Z) (s : string) : bool :=
  match s with String a _ => code a =? c | EmptyString => false end.

Section Duration.
(** [(int)floor(strtod(t, &e) + 0.5)] and [e]: floating point conversion is
    the C library's. *)
Context (strtod_round : string → Z * string).

(** The number at [t] and the rest: whole, or rounded when it is a fraction of
    seconds.  [None] is an error. *)
Definition duration_number (time : bool) (t : string) : option (Z * string) :=
  let '(l, e) := strtol t in
  if (String.length e =? String.length t)%nat then None
  else
    let v := sint 32 l in
    if time && starts_with 46 e then
      let '(r, e) := strtod_round t in
      if starts_with 83 e then Some (if v <? r then sint 32 (v + 1) else v, e) else None
    else Some (v, e).

(** The [while] loop, with [t] already advanced.  The outer [None] is running out
    of fuel, the inner one a parse error. *)
Fixpoint duration_loop (fuel : nat) (t : string) (s : dstate) : option (option dstate) :=
  match fuel with
  | O => None
  | S fuel =>
      match t with
      | EmptyString => Some (Some s)
      | String a t' =>
          if code a =? 84 (* T *) then duration_loop fuel t' (set_time s)
          else
            match duration_number (d_time s) t with
            | None => Some None
            | Some (v, EmptyString) => Some None
            | Some (v, String c rest) =>
                match designator c v s with
                | None => Some None
                | Some s' => duration_loop fuel rest s'
                end
            end
      end
  end.

Definition duration_value (s : dstate) : Z :=
  d_secs s + 60 * d_mins s + 60 * 60 * d_hours s + 60 * 60 * 24 * d_days s +
  60 * 60 * 24 * 30 * d_months s + 60 * 60 * 24 * 30 * 12 * d_years s.

(** [Some (Some v)] is the result 0 with the value, [Some None] the result 1. *)
Definition ws_deserialize_duration (t : option string) : option (option Z) :=
  match t with
  | None => Some None
  | Some t =>
      let '(negative, t) := (if starts_with 45 t then (true, default "" (str_drop 1 t)) else (false, t)) in
      match t with
      | String p rest =>
          if code p =? 80 (* P *) then
            r ← duration_loop (S (String.length rest)) rest dstate0;
            match r with
            | None => Some None
            | Some s =>
                if (d_time s && (4 <? d_got s)) || (64 =? d_got s) then Some None
                else
                  let vs := duration_value s in
                  Some (Some (if negative then 0 - vs else vs))
            end
          else Some None
      | EmptyString => Some None
      end
  end.

(** ** Dates *)

Record tm := Tm {
  tm_year : Z; tm_mon : Z; tm_mday : Z; tm_hour : Z; tm_min : Z; tm_sec : Z; tm_isdst : Z;
}.

Record xml_datetime := XmlDatetime { xdt_tm : tm; tz_min : Z }.

(** A literal character of a [sscanf] format. *)
Definition scan_lit (c : Z) (s : string) : option string :=
  match s with String a s' => if code a =? c then Some s' else None | EmptyString => None end.

(** [sscanf(text, "%d-%d-%dT%d:%d:%d%d:%d", ...)] with all eight conversions
    done; [%d] stores the converted value in an [int]. *)
Definition scan_datetime (text : string) : option (list Z) :=
  '(y, s) ← scan_int text; s ← scan_lit 45 s;
  '(mo, s) ← scan_int s; s ← scan_lit 45 s;
  '(d, s) ← scan_int s; s ← scan_lit 84 s;
  '(h, s) ← scan_int s; s ← scan_lit 58 s;
  '(mi, s) ← scan_int s; s ← scan_lit 58 s;
  '(se, s) ← scan_int s;
  '(zh, s) ← scan_int s; s ← scan_lit 58 s;
  '(zm, s) ← scan_int s;
  Some (sint 32 <$> [y; mo; d; h; mi; se; zh; zm]).

(** [isdst] is the daylight saving flag [localtime_r] gives for the present. *)
Definition ws_deserialize_datetime (isdst : Z) (text : option string) : option xml_datetime :=
  text ← text;
  match scan_datetime text with
  | Some [y; mo; d; h; mi; se; hours; mins] =>
      if (y <? 1900) || (3000 <? y) || (mo <? 1) || (12 <? mo) || (d <? 1) || (31 <? d)
         || (h <? 0) || (23 <? h) || (mi <? 0) || (59 <? mi) || (se <? 0) || (61 <? se)
         || (hours <? -24) || (24 <? hours) || (mins <? 0) || (59 <? mins)
      then None
      else
        Some (XmlDatetime (Tm (y - 1900) (mo - 1) d h mi se isdst)
                (if hours <? 0 then 60 * hours - mins else 60 * hours + mins))
  | _ => None
  end.

(** ** Expiry *)

(** [time_expired(lt)] at the time [now]. *)
Definition time_expired (now lt : Z) : bool :=
  if lt =? 0 then false else negb (now <? lt).

(** [mktime] depends on the time zone. *)
Context (mktime : tm → Z).

(** [wsman_set_expiretime]: the new [*expire], which keeps its old value on an
    error, and the fault code. *)
Definition wsman_set_expiretime (now isdst : Z) (text : option string) (expire : Z)
  : option (Z * WsmanFaultCodeType) :=
  match text with
  | None => Some (expire, WSEN_INVALID_EXPIRATION_TIME)
  | Some t =>
      if starts_with 80 t then
        d ← ws_deserialize_duration text;
        match d with
        | None => Some (expire, WSEN_INVALID_EXPIRATION_TIME)
        | Some timeout => Some (wrap64 (now + timeout), WSMAN_RC_OK)
        end
      else
        match ws_deserialize_datetime isdst text with
        | None => Some (expire, WSEN_UNSUPPORTED_EXPIRATION_TYPE)
        | Some tmx => Some (wrap64 (mktime (xdt_tm tmx) + 60 * tz_min tmx), WSMAN_RC_OK)
        end
  end.

(** ** Theorems *)

(** [strtod] leaves its end pointer inside the string it was given. *)
Context (strtod_suffix : ∀ t, (String.length (strtod_round t).2 ≤ String.length t)%nat).

Lemma duration_number_rest time t v e :
  duration_number time t = Some (v, e) → (String.length e ≤ String.length t)%nat.
Proof.
  unfold duration_number. pose proof (strtol_rest_length t) as Hl.
  pose proof (strtod_suffix t) as Hd. destruct (strtol t) as [l e0], (strtod_round t) as [r e1].
  simpl in *. repeat case_match; intros; simplify_eq; lia.
Qed.

Lemma duration_loop_fuel : ∀ f1 f2 t s,
  (String.length t < f1)%nat → (String.length t < f2)%nat →
  duration_loop f1 t s = duration_loop f2 t s.
Proof.
  induction f1 as [|f1 IH]; intros [|f2] t s H1 H2; try lia. destruct t as [|a t]; [done|].
  simpl in H1, H2. cbn [duration_loop]. destruct (code a =? 84); [apply IH; lia|].
  destruct (duration_number (d_time s) (String a t)) as [[v [|c rest]]|] eqn:E; try done.
  apply duration_number_rest in E. simpl in E.
  destruct (designator c v s); [apply IH; lia|done].
Qed.

Lemma duration_loop_total : ∀ fuel t s,
  (String.length t < fuel)%nat → is_Some (duration_loop fuel t s).
Proof.
  induction fuel as [|fuel IH]; intros t s Hf; [lia|]. destruct t as [|a t]; [by eexists|].
  simpl in Hf. cbn [duration_loop]. destruct (code a =? 84); [apply IH; lia|].
  destruct (duration_number (d_time s) (String a t)) as [[v [|c rest]]|] eqn:E; try by eexists.
  apply duration_number_rest in E. simpl in E.
  destruct (designator c v s); [apply IH; lia|by eexists].
Qed.

(** Every component is an [int]. *)
Definition int_range (v : Z) : Prop := - 2 ^ 31 ≤ v < 2 ^ 31.
Definition components (s : dstate) : list Z :=
  [d_years s; d_months s; d_days s; d_hours s; d_mins s; d_secs s].
Definition ints (s : dstate) : Prop := Forall int_range (components s).

Lemma duration_number_int time t v e : duration_number time t = Some (v, e) → int_range v.
Proof.
  unfold duration_number, int_range. intros H. repeat case_match; simplify_eq; apply (sint_range 32); lia.
Qed.

Lemma designator_ints c v s s' : int_range v → ints s → designator c v s = Some s' → ints s'.
Proof.
  unfold ints, components, designator. intros Hv Hs H. rewrite !Forall_cons in Hs.
  destruct s. simpl in *. destruct Hs as (?&?&?&?&?&?&_).
  repeat case_match; simplify_eq; simpl; rewrite !Forall_cons; by split_and!.
Qed.

Lemma duration_loop_ints : ∀ fuel t s s',
  ints s → duration_loop fuel t s = Some (Some s') → ints s'.
Proof.
  induction fuel as [|fuel IH]; intros t s s' Hs; [done|]. cbn [duration_loop].
  destruct t as [|a t]; [by intros [= <-]|]. destruct (code a =? 84).
  - apply IH. done.
  - destruct (duration_number (d_time s) (String a t)) as [[v [|c rest]]|] eqn:E; try done.
    destruct (designator c v s) as [s1|] eqn:E1; [|done].
    apply IH. eapply designator_ints; [by eapply duration_number_int|done..].
Qed.

Lemma duration_value_bound s : ints s → - 2 ^ 57 < duration_value s < 2 ^ 57.
Proof.
  unfold ints, components, int_range, duration_value. rewrite !Forall_cons. lia.
Qed.

Lemma dstate0_ints : ints dstate0.
Proof. unfold ints, components, int_range, dstate0. simpl. rewrite !Forall_cons. split_and!; (done || lia). Qed.
End Duration.

(** The canonical lexical form of a duration. *)
Definition print_duration (y mo d h mi se : Z) : string :=
  "P" +:+ print_nat y +:+ "Y" +:+ print_nat mo +:+ "M" +:+ print_nat d +:+ "DT" +:+
  print_nat h +:+ "H" +:+ print_nat mi +:+ "M" +:+ print_nat se +:+ "S".

Lemma print_duration_eq y mo d h mi se :
  print_duration y mo d h mi se =
  String "P" (print_nat y +:+ String "Y" (print_nat mo +:+ String "M" (print_nat d +:+
    String "D" (String "T" (print_nat h +:+ String "H" (print_nat mi +:+ String "M"
      (print_nat se +:+ String "S" ""))))))).
Proof. reflexivity. Qed.

Section Claims.
Context (strtod_round : string → Z * string).

Lemma duration_defined t :
  (∀ t, (String.length (strtod_round t).2 ≤ String.length t)%nat) →
  is_Some (ws_deserialize_duration strtod_round (Some t)).
Proof.
  intros Hs. unfold ws_deserialize_duration.
  destruct (if starts_with 45 t then _ else _) as [negative [|p rest]]; [done|].
  destruct (code p =? 80); [|done].
  destruct (duration_loop_total strtod_round Hs (S (String.length rest)) rest dstate0) as [r Hr];
    [lia|]. rewrite Hr, some_bind. destruct r as [s|]; [|done]. by destruct (_ || _).
Qed.

Lemma expiretime_defined (mktime : tm → Z) now isdst text e :
  (∀ t, (String.length (strtod_round t).2 ≤ String.length t)%nat) →
  is_Some (wsman_set_expiretime strtod_round mktime now isdst text e).
Proof.
  intros Hs. unfold wsman_set_expiretime. destruct text as [t|]; [|by eexists].
  destruct (starts_with 80 t).
  - destruct (duration_defined t Hs) as [[d|] ->]; by eexists.
  - destruct (ws_deserialize_datetime _ _); by eexists.
Qed.

(** [ws_deserialize_duration] terminates on every string, and a value it
    accepts stays below 2^57 seconds in magnitude, so that none of its
    products and sums overflows [time_t], although the numbers in the string
    are not limited. *)
Theorem ws_deserialize_duration_bounded t :
  (∀ t, (String.length (strtod_round t).2 ≤ String.length t)%nat) →
  match ws_deserialize_duration strtod_round t with
  | Some (Some v) => - 2 ^ 57 < v < 2 ^ 57
  | Some None => True
  | None => False
  end.
Proof.
  intros Hs. destruct t as [t|]; [|done]. unfold ws_deserialize_duration.
  destruct (if starts_with 45 t then _ else _) as [negative [|p rest]]; [done|].
  destruct (code p =? 80); [|done].
  destruct (duration_loop_total strtod_round Hs (S (String.length rest)) rest dstate0) as [r Hr];
    [lia|]. rewrite Hr, some_bind. destruct r as [s|]; [|done].
  pose proof (duration_value_bound s (duration_loop_ints _ _ _ _ _ dstate0_ints Hr)).
  destruct (_ || _); [done|]. destruct negative; lia.
Qed.

Lemma number_step fuel n c rest s s' :
  int_range n → 0 ≤ n → starts_digit (String c rest) = false → code c ≠ 46 →
  designator c n s = Some s' →
  duration_loop strtod_round (S fuel) (print_nat n +:+ String c rest) s
  = duration_loop strtod_round fuel rest s'.
Proof.
  unfold int_range. intros Hn H0 Hd Hc Hs.
  destruct (print_nat_scan n (String c rest) H0 Hd) as [_ Hdig].
  assert (Hnum : duration_number strtod_round (d_time s) (print_nat n +:+ String c rest)
                 = Some (n, String c rest)).
  { unfold duration_number. rewrite strtol_print by (done || lia).
    assert (Hlen : String.length (print_nat n +:+ String c rest) ≠ String.length (String c rest)).
    { rewrite str_length_app. destruct (print_nat n) as [|a q] eqn:E; [|simpl; lia].
      simpl in Hdig, Hd. congruence. }
    rewrite (proj2 (Nat.eqb_neq _ _)) by done.
    rewrite sint_small by lia. cbn [starts_with]. rewrite (proj2 (Z.eqb_neq _ _)) by done.
    by rewrite andb_false_r. }
  destruct (print_nat n +:+ String c rest) as [|a t] eqn:E; [done|]. cbn [duration_loop].
  rewrite (proj2 (Z.eqb_neq (code a) 84)).
  - by rewrite Hnum, Hs.
  - simpl in Hdig. unfold isdigit in Hdig. apply andb_prop in Hdig as [_ ?%Z.leb_le]. lia.
Qed.

Lemma time_step fuel t s :
  duration_loop strtod_round (S fuel) (String "T" t) s
  = duration_loop strtod_round fuel t (set_time s).
Proof. reflexivity. Qed.

(** A duration printed in canonical form, with every component up to the
    largest [int], is parsed back to its length in seconds, a month counting
    30 days and a year 12 months. *)
Theorem ws_deserialize_duration_roundtrip y mo d h mi se :
  Forall (λ v, 0 ≤ v < 2 ^ 31) [y; mo; d; h; mi; se] →
  ws_deserialize_duration strtod_round (Some (print_duration y mo d h mi se)) =
    Some (Some (se + 60 * mi + 3600 * h + 86400 * d + 86400 * 30 * mo + 86400 * 360 * y)).
Proof.
  rewrite !Forall_cons. intros (?&?&?&?&?&?&_). unfold ws_deserialize_duration. rewrite print_duration_eq.
  cbn [starts_with]. set (rest := print_nat y +:+ _). change (code "P" =? 45) with false.
  change (code "P" =? 80) with true. cbv iota.
  assert (7 ≤ String.length rest)%nat as Hlen.
  { unfold rest. repeat (rewrite str_length_app; cbn [String.length]). lia. }
  replace (S (String.length rest)) with (S (S (S (S (S (S (S (S (String.length rest - 7))))))))) by lia.
  unfold rest. unfold int_range in *.
  rewrite (number_step _ y _ _ _ (DState y 0 0 0 0 0 32 false)) by (done || (unfold int_range; lia)).
  rewrite (number_step _ mo _ _ _ (DState y mo 0 0 0 0 16 false)) by (done || (unfold int_range; lia)).
  rewrite (number_step _ d _ _ _ (DState y mo d 0 0 0 8 false)) by (done || (unfold int_range; lia)).
  rewrite time_step.
  rewrite (number_step _ h _ _ _ (DState y mo d h 0 0 4 true)) by (done || (unfold int_range; lia)).
  rewrite (number_step _ mi _ _ _ (DState y mo d h mi 0 2 true)) by (done || (unfold int_range; lia)).
  rewrite (number_step _ se _ _ _ (DState y mo d h mi se 1 true)) by (done || (unfold int_range; lia)).
  cbn [duration_loop]. rewrite some_bind. cbn [d_time d_got]. change (4 <? 1) with false.
  change (64 =? 1) with false. cbn [andb orb]. unfold duration_value.
  cbn [d_years d_months d_days d_hours d_mins d_secs]. done.
Qed.
End Claims.

(** Exact decimal rounding of an unsigned number with a fraction, to evaluate
    the parser. *)
Definition decimal_round (t : string) : Z * string :=
  let '(n, e) := scan_digits 0 t in
  match e with
  | String _ e1 =>
      let up := match e1 with String a _ => 53 <=? code a | EmptyString => false end in
      (if up then n + 1 else n, (scan_digits 0 e1).2)
  | EmptyString => (n, e)
  end.

Lemma decimal_round_suffix t : (String.length (decimal_round t).2 ≤ String.length t)%nat.
Proof.
  unfold decimal_round. pose proof (scan_digits_length t 0) as H1.
  destruct (scan_digits 0 t) as [n [|a e1]]; simpl in *; [lia|].
  pose proof (scan_digits_length e1 0). lia.
Qed.

Example duration_sample :
  ws_deserialize_duration decimal_round (Some "P0Y0M0DT0H0M60.50S") = Some (Some 61).
Proof. vm_compute. reflexivity. Qed.

Lemma ws_deserialize_duration_bounded_witness :
  match ws_deserialize_duration decimal_round (Some "-P99999999999999999999D") with
  | Some (Some v) => - 2 ^ 57 < v < 2 ^ 57
  | Some None => True
  | None => False
  end.
Proof. exact (ws_deserialize_duration_bounded decimal_round (Some "-P99999999999999999999D") decimal_round_suffix). Defined.

Lemma ws_deserialize_duration_roundtrip_witness :
  ws_deserialize_duration decimal_round (Some (print_duration 1 2 3 4 5 6)) =
    Some (Some (6 + 60 * 5 + 3600 * 4 + 86400 * 3 + 86400 * 30 * 2 + 86400 * 360 * 1)).
Proof.
  refine (ws_deserialize_duration_roundtrip decimal_round 1 2 3 4 5 6 _).
  repeat constructor; lia.
Defined.

(** The sign of a time zone offset of less than an hour is lost. *)
Example datetime_zone_sign :
  tz_min <$> ws_deserialize_datetime 0 (Some "2010-06-01T12:00:00-00:30") = Some 30.
Proof. vm_compute. reflexivity. Qed.
