(* ===== verification/Store.v ===== *)
(** * String-keyed stores

    What the SOAP runtime relies on when it keeps objects in hash tables by a
    string key: an interface with its laws, against which the clients are
    proved, and its implementation by the tables of [u/hash.c] with their
    default hash and comparison functions. *)

From S2P Require Import Prelude.
From S2P Require Import CString.
From S2P Require Import UHash.

#[local] Open Scope Z_scope.

(** [None] is a failed assertion or an invalid access.  [store_extract p]
    scans the store, removing the values that satisfy [p], and returns them in
    the order of the scan. *)
Class Store (T : Type → Type) := {
  store_map : ∀ {V}, T V → gmap string V;
  store_ok : ∀ {V}, T V → Prop;
  store_new : ∀ {V}, option (T V);
  store_find : ∀ {V}, T V → string → option (option V);
  store_add : ∀ {V}, T V → string → V → option (T V);
  store_del : ∀ {V}, T V → string → option (T V);
  store_count : ∀ {V}, T V → Z;
  store_extract : ∀ {V}, (V → bool) → T V → option (T V * list V);
}.

(** The bound under which a table can always take another node. *)
Definition store_capacity : Z := 2 ^ 62.

Class StoreLaws (T : Type → Type) `{Store T} := {
  store_new_spec {V} : ∃ t : T V, store_new = Some t ∧ store_ok t ∧ store_map t = ∅;
  store_find_spec {V} (t : T V) k : store_ok t → store_find t k = Some (store_map t !! k);
  store_add_spec {V} (t : T V) k v :
    store_ok t → store_map t !! k = None → store_count t < store_capacity →
    ∃ t', store_add t k v = Some t' ∧ store_ok t' ∧ store_map t' = <[k := v]> (store_map t);
  store_del_spec {V} (t : T V) k :
    store_ok t →
    ∃ t', store_del t k = Some t' ∧ store_ok t' ∧ store_map t' = delete k (store_map t);
  store_count_spec {V} (t : T V) : store_ok t → store_count t = Z.of_nat (size (store_map t));
  store_extract_spec {V} (p : V → bool) (t : T V) :
    store_ok t →
    ∃ t' vs, store_extract p t = Some (t', vs) ∧ store_ok t' ∧
      store_map t' = filter (λ kv, p kv.2 = false) (store_map t) ∧
      ∃ kvs, NoDup kvs ∧ vs = kvs.*2 ∧
        ∀ k v, (k, v) ∈ kvs ↔ store_map t !! k = Some v ∧ p v = true;
}.

(** ** The hash tables as a store *)

Definition hstore (V : Type) : Type := hash_t string V.

(** A node address that is not in use, as [malloc] returns. *)
Definition fresh_node {V} (h : hash_t string V) : positive :=
  fresh (list_to_set (hash_addr <$> nodes h) : gset positive).

Definition hstore_new {V} : option (hstore V) :=
  r ← hash_create_with true true hnode_free_client HASHCOUNT_T_MAX hash_comp_default
        hash_fun_default; r.

Definition hstore_find {V} (h : hash_t string V) (k : string) : option (option V) :=
  hash_lookup h k ≫= λ r : option (hnode string V), Some (hash_data <$> r).

Definition hstore_add {V} (h : hash_t string V) (k : string) (v : V) : option (hstore V) :=
  hash_insert true h (fresh_node h) v k.

Definition hstore_del {V} (h : hash_t string V) (k : string) : option (hstore V) :=
  n ← hash_lookup h k; r ← hash_delete_free true h n; Some r.1.

Fixpoint extract_loop {V} (p : V → bool) (fuel : nat) (h : hash_t string V) (s : hscan_t string V)
    (acc : list V) : option (hstore V * list V) :=
  match fuel with
  | O => None
  | S f =>
      '(r, s') ← hash_scan_next h s;
      match r with
      | None => Some (h, acc)
      | Some n =>
          if p (hash_data n) then
            r ← hash_scan_delfree h n;
            extract_loop p f r.1 s' (acc ++ [hash_data n])
          else extract_loop p f h s' acc
      end
  end.

Definition hstore_extract {V} (p : V → bool) (h : hash_t string V) : option (hstore V * list V) :=
  extract_loop p (S (Z.to_nat (hash_count h))) h (hash_scan_begin 0 h) [].

(** The tables of the program: the default functions, no limit. *)
Record hstore_ok {V} (h : hash_t string V) : Prop := {
  hs_wf : hash_wf h;
  hs_max : hash_maxcount h = HASHCOUNT_T_MAX;
}.

#[global] Instance HashStore : Store hstore := {|
  store_map V h := hash_data <$> habs h;
  store_ok := @hstore_ok;
  store_new := @hstore_new;
  store_find := @hstore_find;
  store_add := @hstore_add;
  store_del := @hstore_del;
  store_count V h := hash_count h;
  store_extract := @hstore_extract;
|}.

Section Proofs.
Context {V : Type}.
Implicit Types (h : hash_t string V) (k : string).

Lemma hmap_Some h k v :
  hash_wf h →
  (hash_data <$> habs h) !! k = Some v ↔ ∃ n, n ∈ nodes h ∧ hash_key n = k ∧ hash_data n = v.
Proof.
  intros W. rewrite lookup_fmap, fmap_Some. setoid_rewrite habs_Some; [|done]. naive_solver.
Qed.

Lemma fresh_node_spec h : fresh_node h ∉ hash_addr <$> nodes h.
Proof.
  unfold fresh_node. pose proof (is_fresh (list_to_set (hash_addr <$> nodes h) : gset positive)) as H.
  by rewrite elem_of_list_to_set in H.
Qed.

Lemma assert_verify_max h h' : assert_verify h = Some h' → h' = h.
Proof. unfold assert_verify. intros H. bind_inv H. by simplify_eq. Qed.

Lemma unlink_node_max h n h' : unlink_node h n = Some h' → hash_maxcount h' = hash_maxcount h.
Proof.
  unfold unlink_node. intros H. bind_inv H. apply assert_verify_max in H as ->. done.
Qed.

Lemma hash_delete_max ok h n h' :
  hash_delete ok h n = Some h' → hash_maxcount h' = hash_maxcount h.
Proof.
  unfold hash_delete. intros H. bind_inv H. apply unlink_node_max in H as ->.
  match goal with E : (if ?b then _ else _) = Some _ |- _ => destruct b; [|by simplify_eq] end.
  unfold shrink_table in *. match goal with E : _ ≫= _ = Some _ |- _ => bind_inv E end.
  by match goal with E : assert_verify _ = Some _ |- _ => apply assert_verify_max in E as -> end.
Qed.

Lemma hash_scan_delete_max h n h' :
  hash_scan_delete h n = Some h' → hash_maxcount h' = hash_maxcount h.
Proof. unfold hash_scan_delete. intros H. bind_inv H. by apply unlink_node_max in H. Qed.

Lemma extract_loop_spec p rest : ∀ fuel h s acc kept,
  hash_wf h → scan_ok h s rest → nodes h ≡ₚ kept ++ rest → (length rest < fuel)%nat →
  ∃ h', extract_loop p fuel h s acc =
      Some (h', acc ++ (hash_data <$> filter (λ n, p (hash_data n) = true) rest)) ∧
    hash_wf h' ∧ nodes h' ≡ₚ kept ++ filter (λ n, p (hash_data n) = false) rest ∧
    hash_maxcount h' = hash_maxcount h.
Proof.
  induction rest as [|n rest IH]; intros [|fuel] h s acc kept W Hs Hp Hf; simpl in Hf; try lia;
    cbn [extract_loop].
  - rewrite hash_scan_next_end by done. rewrite some_bind. exists h.
    rewrite app_nil_r in Hp. cbn. by rewrite !app_nil_r.
  - destruct (hash_scan_next_ok h s n rest W Hs) as (s' & -> & Hs'). rewrite some_bind, !filter_cons.
    pose proof (nodes_NoDup h W) as Hnd. rewrite Hp, <- Permutation_middle in Hnd.
    apply NoDup_cons in Hnd as [Hn Hnd]. destruct (p (hash_data n)) eqn:E; simpl.
    + destruct (scan_delete_ok h s' n rest W Hs') as (h' & Hd & W' & Hs'' & _ & Hp' & Hfr & _).
      { set_solver. }
      { rewrite Hp. set_solver. }
      unfold hash_scan_delfree. rewrite Hd. cbn [mbind option_bind fst].
      destruct (IH fuel h' s' (acc ++ [hash_data n]) kept W' Hs'') as (h'' & -> & W'' & Hp'' & Hm).
      * apply (Permutation_cons_inv (a := n)). by rewrite <- Hp', Hp, Permutation_middle.
      * lia.
      * exists h''. rewrite <- app_assoc. split_and!; try done.
        by rewrite Hm, (hash_scan_delete_max _ _ _ Hd).
    + destruct (IH fuel h s' acc (kept ++ [n]) W Hs') as (h'' & -> & W'' & Hp'' & Hm).
      * by rewrite <- app_assoc.
      * lia.
      * exists h''. rewrite <- app_assoc in Hp''. done.
Qed.

Lemma hmap_fresh h k : (hash_data <$> habs h) !! k = None → habs h !! k = None.
Proof. rewrite lookup_fmap. by destruct (habs h !! k). Qed.

Lemma hmap_size h : hash_wf h → size (hash_data <$> habs h) = length (nodes h).
Proof.
  intros W. rewrite map_size_fmap. unfold habs.
  rewrite map_size_list_to_map, length_fmap; [done|]. rewrite habs_keys. apply W.
Qed.

Lemma extract_map h h' (p : V → bool) :
  hash_wf h → hash_wf h' → nodes h' ≡ₚ filter (λ n, p (hash_data n) = false) (nodes h) →
  hash_data <$> habs h' = filter (λ kv : string * V, p kv.2 = false) (hash_data <$> habs h).
Proof.
  intros W W' Hp. apply map_eq. intros k. apply option_eq. intros v.
  rewrite map_lookup_filter_Some, !hmap_Some by done. setoid_rewrite Hp.
  setoid_rewrite list_elem_of_filter. split.
  - intros (n & [? ?] & <- & <-). eauto.
  - intros [(n & ? & <- & <-) ?]. eauto.
Qed.
End Proofs.

#[global] Instance HashStoreLaws : StoreLaws hstore.
Proof.
  split; simpl.
  - intros V. unfold hstore_new. destruct (hash_create_default (V := V) hnode_free_client)
      as (h & -> & W & Hn & _ & Hm & _). exists h. split; [done|]. split; [by split|].
    unfold habs. by rewrite Hn.
  - intros V h k [W _]. unfold hstore_find. by rewrite hash_lookup_spec, lookup_fmap by done.
  - intros V h k v [W Hm] Hk%hmap_fresh Hc. unfold hash_count, store_capacity in Hc. unfold hstore_add.
    destruct (hash_insert_spec true h (fresh_node h) v k W Hk (fresh_node_spec h))
      as (h' & -> & W' & Ha & _ & _ & Hm').
    + rewrite Hm. unfold HASHCOUNT_T_MAX, ULONG_MAX. lia.
    + done.
    + exists h'. split; [done|]. split; [split; congruence|]. by rewrite Ha, fmap_insert.
  - intros V h k [W Hm]. unfold hstore_del. rewrite hash_lookup_spec, some_bind by done.
    destruct (habs h !! k) as [n|] eqn:E; simpl.
    + apply habs_Some in E as [Hn <-]; [|done].
      destruct (hash_delete_spec true h n W) as (h' & Hd & W' & Ha & _); [by apply habs_Some|].
      rewrite Hd. simpl. exists h'. split; [done|]. split.
      * split; [done|]. by rewrite (hash_delete_max _ _ _ _ Hd).
      * by rewrite Ha, fmap_delete.
    + exists h. split; [done|]. split; [done|]. by rewrite delete_id by (rewrite lookup_fmap, E; done).
  - intros V h [W _]. unfold hash_count. by rewrite (wf_count h W), hmap_size.
  - intros V p h [W Hm]. unfold hstore_extract.
    destruct (extract_loop_spec p (nodes h) (S (Z.to_nat (hash_count h))) h (hash_scan_begin 0 h) [] [])
      as (h' & -> & W' & Hp & Hm'); [done|apply hash_scan_begin_ok|done| |].
    { unfold hash_count. rewrite (wf_count h W). lia. }
    exists h', (hash_data <$> filter (λ n, p (hash_data n) = true) (nodes h)).
    split; [done|]. split; [split; congruence|]. split; [by apply extract_map|].
    exists ((λ n, (hash_key n, hash_data n)) <$> filter (λ n, p (hash_data n) = true) (nodes h)).
    split_and!.
    + apply (NoDup_fmap_1 fst). rewrite <- list_fmap_compose.
      eapply sublist_NoDup; [apply (wf_keys h W)|]. apply (fmap_sublist hash_key), sublist_filter.
    + rewrite <- list_fmap_compose. by apply list_fmap_ext.
    + intros k v. rewrite hmap_Some, list_elem_of_fmap by done.
      setoid_rewrite list_elem_of_filter. naive_solver.
Qed.
