(* ===== verification/Envelope.v ===== *)
(** * SOAP envelopes ([wsman-soap-envelope.c])

    Reading the headers of a request, checking that an envelope is well formed
    and building the envelopes of responses and faults, as functions on the
    trees of [Xml].  A handler reads the document it is given or, when that is
    NULL, the document of its context. *)

From Stdlib Require Import Ascii.
From S2P Require Import Prelude.
From S2P Require Import CString.
From S2P Require Import Names.
From S2P Require Import Xml.
From S2P Require Import Faults.

#[local] Open Scope string_scope.
#[local] Open Scope list_scope.
#[local] Open Scope Z_scope.


(** [doc == NULL ? cntx->indoc : doc] *)
Definition pick_doc (cntx_doc doc : option xnode) : option xnode :=
  match doc with None => cntx_doc | Some _ => doc end.

(** A qualified child of a node. *)
Definition child (n : option xnode) (ns name : string) : option xnode :=
  ws_xml_get_child n 0 (Some ns) (Some name).

Section Reading.
Context `{Libxml2}.

Definition wsman_get_soap_header_element (doc : option xnode) (nsUri name : option string)
  : option xnode :=
  let node := ws_xml_get_soap_header doc in
  match node, name with
  | Some _, Some _ => ws_xml_find_in_tree node nsUri name true
  | _, _ => node
  end.

Definition wsman_get_soap_header_value (doc : option xnode) (nsUri name : option string)
  : option string :=
  match wsman_get_soap_header_element doc nsUri name with
  | Some n => ws_xml_get_node_text (Some n)
  | None => None
  end.

Definition wsman_is_identify_request (doc : option xnode) : bool :=
  bool_decide (is_Some (child (ws_xml_get_soap_body doc) XML_NS_WSMAN_ID WSMID_IDENTIFY)).

Definition wsman_is_event_related_request (doc : option xnode) : bool :=
  match ws_xml_get_node_text (child (ws_xml_get_soap_header doc) XML_NS_ADDRESSING WSA_ACTION) with
  | None => false
  | Some action =>
      str_eqb action EVT_ACTION_UNSUBSCRIBE || str_eqb action EVT_ACTION_RENEW ||
      str_eqb action EVT_ACTION_PULL
  end.

Definition wsman_get_resource_uri (cntx_doc doc : option xnode) : option string :=
  match pick_doc cntx_doc doc with
  | None => None
  | d =>
      match child (ws_xml_get_soap_header d) XML_NS_WS_MAN WSM_RESOURCE_URI with
      | None => None
      | node => ws_xml_get_node_text node
      end
  end.

Definition wsman_get_action (cntx_doc doc : option xnode) : option string :=
  match pick_doc cntx_doc doc with
  | None => None
  | d =>
      match child (ws_xml_get_soap_header d) XML_NS_ADDRESSING WSA_ACTION with
      | None => None
      | node => ws_xml_get_node_text node
      end
  end.

(** The part of a string after its last slash. *)
Definition after_last_slash (s : string) : option string :=
  tmp ← strrchr s "/"%char; str_drop 1 tmp.

Definition wsman_get_method_name (cntx_doc : option xnode) : option string :=
  match wsman_get_action cntx_doc None with
  | Some (String a m) => after_last_slash (String a m)
  | _ => None
  end.

Definition wsman_get_class_name (cntx_doc : option xnode) : option string :=
  match wsman_get_resource_uri cntx_doc None with
  | Some uri => after_last_slash uri
  | None => None
  end.

Definition wsman_get_max_elements (cntx_doc doc : option xnode) : Z :=
  match pick_doc cntx_doc doc with
  | None => 0
  | d =>
      match child (child (ws_xml_get_soap_body d) XML_NS_ENUMERATION WSENUM_PULL)
              XML_NS_ENUMERATION WSENUM_MAX_ELEMENTS with
      | None => 1
      | node => match ws_xml_get_node_text node with Some text => atoi text | None => 1 end
      end
  end.

(** A mustUnderstand attribute with exactly the value [true]. *)
Definition mu_true (node : option xnode) : bool :=
  match ws_xml_find_attr_value node (Some XML_NS_SOAP_1_2) SOAP_MUST_UNDERSTAND with
  | Some mu => str_eqb mu "true"
  | None => false
  end.

Definition ws_deserialize_uint32 (parent : option xnode) (index : Z) (nameNs name : string) : Z :=
  match ws_xml_get_child parent index (Some nameNs) (Some name) with
  | Some n => ws_xml_get_node_ulong (Some n)
  | None => 0
  end.

Definition wsman_get_max_envelope_size (cntx_doc doc : option xnode) : Z :=
  let header := ws_xml_get_soap_header (pick_doc cntx_doc doc) in
  let maxsize := child header XML_NS_WS_MAN WSM_MAX_ENVELOPE_SIZE in
  if mu_true maxsize then ws_deserialize_uint32 header 0 XML_NS_WS_MAN WSM_MAX_ENVELOPE_SIZE else 0.

Definition wsman_get_fragment_string (cntx_doc doc : option xnode) : option string :=
  let n := child (ws_xml_get_soap_header (pick_doc cntx_doc doc)) XML_NS_WS_MAN
             WSM_FRAGMENT_TRANSFER in
  match n with
  | Some _ => if mu_true n then ws_xml_get_node_text n else None
  | None => None
  end.

(** [fragment_flag], [element], [index].  The text after [[] is cut at the
    first []]], which may stand before it. *)
Definition wsman_get_fragment_type (fragstr : option string) : Z * option string * Z :=
  match fragstr with
  | None => (0, None, 0)
  | Some s =>
      match strstr s "/text()" with
      | Some p => (2, Some (str_before s p), 0)
      | None =>
          match strstr s "[", strstr s "]" with
          | Some p1, Some p2 =>
              let p1' := if (String.length p1 <? String.length p2)%nat then p1 else str_before p1 p2 in
              (3, Some (str_before s p1), atoi (default "" (str_drop 1 p1')))
          | _, _ => (1, Some s, 0)
          end
      end
  end.

(** ** Selectors *)

(** The Name attribute of a Selector, with or without the namespace. *)
Definition selector_name (selector : xnode) : option string :=
  match ws_xml_find_attr_value (Some selector) (Some XML_NS_WS_MAN) WSM_NAME with
  | Some v => Some v
  | None => ws_xml_find_attr_value (Some selector) None WSM_NAME
  end.

(** The children of a node that [ws_xml_get_child] gives with increasing
    index, until it gives NULL. *)
Fixpoint children_from (fuel : nat) (index : Z) (node : option xnode) (nsUri name : option string)
  : list xnode :=
  match fuel with
  | O => []
  | S f =>
      match ws_xml_get_child node index nsUri name with
      | None => []
      | Some s => s :: children_from f (index + 1) node nsUri name
      end
  end.

(** One more step than there are children. *)
Definition children (node : option xnode) (nsUri name : option string) : list xnode :=
  match node with
  | None => []
  | Some n => children_from (S (length (x_children n))) 0 node nsUri name
  end.

Definition selectors (node : option xnode) : list xnode :=
  children node (Some XML_NS_WS_MAN) (Some WSM_SELECTOR).

Fixpoint get_selector_loop (name : string) (l : list xnode) : option string :=
  match l with
  | [] => None
  | s :: l' =>
      match selector_name s with
      | Some v => if str_eqb v name then ws_xml_get_node_text (Some s) else get_selector_loop name l'
      | None => get_selector_loop name l'
      end
  end.

Definition wsman_get_selector (cntx_doc doc : option xnode) (name : string) (index : Z)
  : option string :=
  match pick_doc cntx_doc doc with
  | None => None
  | d =>
      match ws_xml_get_child (ws_xml_get_soap_header d) index (Some XML_NS_WS_MAN)
              (Some WSM_SELECTOR_SET) with
      | None => None
      | node => get_selector_loop name (selectors node)
      end
  end.
End Reading.

(** ** Validation *)

Section Valid.
Context `{Libxml2}.

(** The status of the message after the checks; the first check that fails
    sets the fault.  [None] is [strcmp] with the NULL name of a root that is
    not an element. *)
Definition wsman_is_valid_envelope (st : WsmanStatus) (doc : xnode) : option (bool * WsmanStatus) :=
  let root := ws_xml_get_doc_root (Some doc) in
  name ← ws_xml_get_node_local_name root;
  let fail code detail msg := Some (false, wsman_set_fault st code detail msg) in
  if negb (str_eqb SOAP_ENVELOPE name) then
    fail WSA_INVALID_MESSAGE_INFORMATION_HEADER WSMAN_DETAIL_OK (Some "No Envelope")
  else
    match ws_xml_get_node_name_ns root with
    | None => fail WSMAN_INTERNAL_ERROR WSMAN_DETAIL_OK None
    | Some soapNsUri =>
        if negb (str_eqb soapNsUri XML_NS_SOAP_1_2) then
          fail SOAP_FAULT_VERSION_MISMATCH WSMAN_DETAIL_OK None
        else if bool_decide (ws_xml_get_soap_body (Some doc) = None) then
          fail WSA_INVALID_MESSAGE_INFORMATION_HEADER WSMAN_DETAIL_OK (Some "No Body")
        else
          let header := ws_xml_get_soap_header (Some doc) in
          if bool_decide (header = None) then
            fail WSA_INVALID_MESSAGE_INFORMATION_HEADER WSMAN_DETAIL_OK (Some "No Header")
          else if negb (wsman_is_identify_request (Some doc)) &&
                  negb (wsman_is_event_related_request (Some doc)) then
            let absent ns n := bool_decide (child header ns n = None) in
            if absent XML_NS_WS_MAN WSM_RESOURCE_URI then
              fail WSA_DESTINATION_UNREACHABLE WSMAN_DETAIL_INVALID_RESOURCEURI None
            else if absent XML_NS_ADDRESSING WSA_ACTION then
              fail WSA_ACTION_NOT_SUPPORTED WSMAN_DETAIL_OK None
            else if absent XML_NS_ADDRESSING WSA_REPLY_TO then
              fail WSA_MESSAGE_INFORMATION_HEADER_REQUIRED WSMAN_DETAIL_OK None
            else if absent XML_NS_ADDRESSING WSA_TO then
              fail WSA_DESTINATION_UNREACHABLE WSMAN_DETAIL_OK None
            else Some (true, st)
          else Some (true, st)
    end.

Definition wsman_is_valid_xml_envelope (doc : xnode) : option bool :=
  let root := ws_xml_get_doc_root (Some doc) in
  name ← ws_xml_get_node_local_name root;
  if negb (str_eqb SOAP_ENVELOPE name) then Some false
  else
    match ws_xml_get_node_name_ns root with
    | None => Some false
    | Some soapNsUri =>
        if negb (str_eqb soapNsUri XML_NS_SOAP_1_2) then Some false
        else Some (bool_decide (is_Some (ws_xml_get_soap_body (Some doc))))
    end.

(** [ws_xml_read_memory] of the request is the argument [parsed]; the result
    is the document, whether it is an Identify request, and the status. *)
Definition wsman_build_inbound_envelope (parsed : option xnode) (st : WsmanStatus)
  : option (option xnode * bool * WsmanStatus) :=
  match parsed with
  | None =>
      Some (None, false, wsman_set_fault st WSA_INVALID_MESSAGE_INFORMATION_HEADER WSMAN_DETAIL_OK None)
  | Some doc =>
      '(_, st) ← wsman_is_valid_envelope st doc;
      Some (Some doc, wsman_is_identify_request (Some doc), st)
  end.

Definition wsman_check_identify (parsed : option xnode) : bool :=
  match parsed with None => false | Some doc => wsman_is_identify_request (Some doc) end.
End Valid.

(** ** Building responses *)

#[global] Instance xattr_eq_dec : EqDecision xattr.
Proof. solve_decision. Defined.

Section Building.
Context `{LX : Libxml2}.

(** The prefix of a namespace in the document ([xml_parser_ns_find] adds the
    namespace at the root when it is not there yet). *)
Context (ns_prefix : string → option string).

Definition make_qname (uri name : string) : string :=
  match ns_prefix uri with Some p => p +:+ ":" +:+ name | None => name end.

(** A new element whose content is the text [v]. *)
Definition text_node (ns : option string) (name : string) (v : option string) : xnode :=
  xmlNewNodeContent ns name v.

Definition add_node (n c : xnode) : xnode :=
  match n with
  | XElement ns name props cs => XElement ns name props (cs ++ [c])
  | XOther _ => n
  end.

Definition ws_xml_duplicate_attr (src : xnode) : list xattr :=
  (λ a, XAttr (xa_ns a) (xa_name a) (default "" (ws_xml_get_attr_value src a))) <$> x_props src.

(** The copy that [ws_xml_duplicate_tree] adds to its destination: elements
    and attributes, and the text of the elements without element children. *)
Fixpoint ws_xml_duplicate_tree (src : xnode) : xnode :=
  match src with
  | XOther t => XOther t
  | XElement ns name props c =>
      let kids :=
        (fix go (c : list xnode) : list xnode :=
           match c with
           | [] => []
           | n :: c' => if is_element n then ws_xml_duplicate_tree n :: go c' else go c'
           end) c in
      XElement ns name (ws_xml_duplicate_attr src)
        (match kids with
         | [] => x_children (text_node ns name (xmlNodeGetContent src))
         | _ => kids
         end)
  end.

Definition duplicate_children (n : option xnode) : list xnode :=
  match n with
  | Some n => ws_xml_duplicate_tree <$> element_children (x_children n)
  | None => []
  end.

(** The headers [wsman_epr_from_request_to_response] adds. *)
Definition wsman_epr_from_request_to_response (epr : option xnode) : list xnode :=
  let node := match epr with
              | None => None
              | Some _ => child epr XML_NS_ADDRESSING WSA_ADDRESS
              end in
  text_node (Some XML_NS_ADDRESSING) WSA_TO
    (match node with None => Some WSA_TO_ANONYMOUS | Some _ => ws_xml_get_node_text node end)
  :: match epr with
     | None => []
     | Some _ =>
         duplicate_children (child epr XML_NS_ADDRESSING WSA_REFERENCE_PROPERTIES) ++
         duplicate_children (child epr XML_NS_ADDRESSING WSA_REFERENCE_PARAMETERS)
     end.

(** An envelope with the given headers and body. *)
Definition envelope (headers body : list xnode) : xnode :=
  match ws_xml_create_envelope with
  | XElement ns name props [h; b] =>
      XElement ns name props [foldl add_node h headers; foldl add_node b body]
  | e => e
  end.

(** The headers of a response to [rqstDoc]. *)
Definition response_headers (rqstDoc : xnode) (action : option string) : list xnode :=
  if wsman_is_identify_request (Some rqstDoc) then []
  else
    match ws_xml_get_soap_header (Some rqstDoc) with
    | None => []
    | srcHeader =>
        let action' :=
          match action with
          | Some a => Some a
          | None =>
              a ← ws_xml_get_node_text (child srcHeader XML_NS_ADDRESSING WSA_ACTION);
              Some (a +:+ WSFW_RESPONSE_STR)
          end in
        wsman_epr_from_request_to_response (child srcHeader XML_NS_ADDRESSING WSA_REPLY_TO) ++
        (match action' with
         | Some a => [text_node (Some XML_NS_ADDRESSING) WSA_ACTION (Some a)]
         | None => []
         end) ++
        (match child srcHeader XML_NS_ADDRESSING WSA_MESSAGE_ID with
         | Some n => [text_node (Some XML_NS_ADDRESSING) WSA_RELATES_TO (ws_xml_get_node_text (Some n))]
         | None => []
         end)
    end.

Definition wsman_create_response_envelope (rqstDoc : xnode) (action : option string) : xnode :=
  envelope (response_headers rqstDoc action) [].

(** The Fault element.  [ws_xml_set_node_qname_val] leaves the value empty
    without a name. *)
Definition fault_element (f : fault_doc) : xnode :=
  let ns := Some XML_NS_SOAP_1_2 in
  let el name kids := foldl add_node (text_node ns name None) kids in
  el SOAP_FAULT
    (el SOAP_CODE
       (text_node ns SOAP_VALUE (make_qname XML_NS_SOAP_1_2 <$> fd_code f) ::
        match fd_subCode f with
        | Some (String a s) =>
            [el SOAP_SUBCODE
               [text_node ns SOAP_VALUE
                  (Some (match fd_subCodeNs f with
                         | Some u => make_qname u (String a s)
                         | None => String a s
                         end))]]
        | _ => []
        end) ::
     (match fd_reason f with
      | Some r =>
          [el SOAP_REASON
             [match text_node ns SOAP_TEXT (Some r) with
              | XElement n1 nm ps c => XElement n1 nm (ps ++ [XAttr (Some XML_NS_XML_NAMESPACES) SOAP_LANG "en"]) c
              | n => n
              end]]
      | None => []
      end) ++
     (match fd_detail f with
      | Some d =>
          [el SOAP_DETAIL
             [text_node (Some XML_NS_WS_MAN) SOAP_FAULT_DETAIL
                (Some (XML_NS_WSMAN_FAULT_DETAIL +:+ "/" +:+ d))]]
      | None => []
      end)).

(** [uuid] is the identifier [generate_uuid] makes for the message. *)
Definition wsman_create_fault_envelope (uuid : string) (rqstDoc : option xnode) (f : fault_doc) : xnode :=
  let headers := match rqstDoc with
                 | Some d => response_headers d (fd_action f)
                 | None => []
                 end in
  envelope (headers ++ [text_node (Some XML_NS_ADDRESSING) WSA_MESSAGE_ID (Some uuid)])
    [fault_element f].

(** [wsman_generate_fault] with the document it builds. *)
Definition generate_fault_document (uuid : string) (rqstDoc : option xnode) (c : WsmanFaultCodeType)
    (d : WsmanFaultDetailType) (m : option string) : option (option xnode) :=
  wsman_generate_fault c d m ≫= λ f : option fault_doc,
    Some (wsman_create_fault_envelope uuid rqstDoc <$> f).
End Building.

(** ** Theorems *)

Section Theory.
Context `{LX : Libxml2} {LL : Libxml2Laws}.
Context (ns_prefix : string → option string).

Lemma children_from_lookup n ns name : ∀ fuel k,
  (length (matching ns name n) - k < fuel)%nat →
  children_from fuel (Z.of_nat k) (Some n) ns name = drop k (matching ns name n).
Proof.
  induction fuel as [|fuel IH]; intros k Hf; [lia|]. cbn [children_from].
  rewrite ws_xml_get_child_matching, Nat2Z.id by lia.
  destruct (matching _ _ n !! k) as [s|] eqn:E.
  - rewrite (drop_S _ s k) by done. f_equal. rewrite <- IH.
    + f_equal. lia.
    + apply lookup_lt_Some in E. lia.
  - rewrite drop_ge; [done|]. by apply lookup_ge_None.
Qed.

Lemma matching_length ns name n : (length (matching ns name n) ≤ length (x_children n))%nat.
Proof.
  unfold matching. rewrite element_children_filter.
  etransitivity; [apply length_filter|]. apply length_filter.
Qed.

Lemma children_matching n ns name : children (Some n) ns name = matching ns name n.
Proof.
  unfold children. rewrite (children_from_lookup n _ _ _ 0).
  - by rewrite drop_0.
  - pose proof (matching_length ns name n). lia.
Qed.

(** The two forms of a fragment expression are parsed back: [e[i]] gives
    the element [e] and the index [i], and [e/text()] the text of [e]. *)
Theorem fragment_type_roundtrip e i :
  strchr e "["%char = None → strchr e "]"%char = None → strchr e "/"%char = None → 0 ≤ i < 2 ^ 31 →
  wsman_get_fragment_type (Some (e +:+ "[" +:+ print_nat i +:+ "]")) = (3, Some e, i) ∧
  wsman_get_fragment_type (Some (e +:+ "/text()")) = (2, Some e, 0).
Proof.
  intros H1 H2 H3 Hi. assert (Hd : ∀ c, isdigit c = false → strchr (print_nat i) c = None)
    by (intros c; apply print_nat_chr; lia).
  split; unfold wsman_get_fragment_type.
  - rewrite strstr_none by by rewrite !strchr_none_app, Hd.
    rewrite !strstr_char. set (ix := print_nat i) in *.
    assert (strchr (e +:+ "[" +:+ ix +:+ "]") "["%char = Some ("[" +:+ ix +:+ "]")) as Ea
      by by apply (strchr_app e "["%char (ix +:+ "]")).
    assert (strchr (e +:+ "[" +:+ ix +:+ "]") "]"%char = Some "]") as Eb.
    { rewrite <- !str_app_assoc. apply (strchr_app ((e +:+ "[") +:+ ix) "]"%char "").
      by rewrite !strchr_none_app, Hd. }
    rewrite Ea, Eb, str_before_app.
    assert (str_before ("[" +:+ ix +:+ "]") "]" = "[" +:+ ix) as ->.
    { rewrite <- str_app_assoc. apply str_before_app. }
    rewrite (proj2 (Nat.ltb_ge _ _)) by (rewrite !str_length_app; cbn; lia).
    change (default "" (str_drop 1 ("[" +:+ ix))) with ix. unfold atoi.
    assert (strtol ix = (i, "")) as ->.
    { unfold ix. rewrite <- (str_app_nil (print_nat i)). rewrite strtol_print; [done|lia|done]. }
    cbn [fst]. by rewrite sint_small by lia.
  - assert (strstr (e +:+ "/text()") "/text()" = Some "/text()") as -> by by apply strstr_app_first.
    by rewrite str_before_app.
Qed.

(** ** The parts of an envelope we build *)

Lemma foldl_add_node ns name props l : ∀ c,
  foldl add_node (XElement ns name props c) l = XElement ns name props (c ++ l).
Proof.
  induction l as [|x l IH]; intros c; cbn; [by rewrite app_nil_r|].
  rewrite IH, <- app_assoc. done.
Qed.

Lemma create_envelope_eq :
  ws_xml_create_envelope =
  XElement (Some XML_NS_SOAP_1_2) SOAP_ENVELOPE []
    [XElement (Some XML_NS_SOAP_1_2) SOAP_HEADER [] []; XElement (Some XML_NS_SOAP_1_2) SOAP_BODY [] []].
Proof. unfold ws_xml_create_envelope, ws_xml_create_doc, ws_xml_add_child. by rewrite !new_node_empty. Qed.

Lemma envelope_eq hs bs :
  envelope hs bs =
  XElement (Some XML_NS_SOAP_1_2) SOAP_ENVELOPE []
    [XElement (Some XML_NS_SOAP_1_2) SOAP_HEADER [] hs; XElement (Some XML_NS_SOAP_1_2) SOAP_BODY [] bs].
Proof. unfold envelope. rewrite create_envelope_eq. cbn. by rewrite !foldl_add_node. Qed.

Lemma envelope_header hs bs :
  ws_xml_get_soap_header (Some (envelope hs bs)) = Some (XElement (Some XML_NS_SOAP_1_2) SOAP_HEADER [] hs).
Proof. rewrite envelope_eq. reflexivity. Qed.

Lemma envelope_body hs bs :
  ws_xml_get_soap_body (Some (envelope hs bs)) = Some (XElement (Some XML_NS_SOAP_1_2) SOAP_BODY [] bs).
Proof. rewrite envelope_eq. reflexivity. Qed.

(** The first child of a node with a given qualified name. *)
Lemma child_here ns name ns' nm props c props' c' :
  child (Some (XElement ns' nm props' (XElement (Some ns) name props c :: c'))) ns name
  = Some (XElement (Some ns) name props c).
Proof.
  unfold child. rewrite ws_xml_get_child_matching by done. unfold matching.
  cbn [x_children element_children is_element]. rewrite filter_cons_True; [done|]. unfold ws_xml_is_node_qname. cbn. by rewrite !str_eqb_refl.
Qed.

Lemma text_node_named ns name v :
  ∃ c, text_node ns name v = XElement ns name [] c.
Proof. destruct (new_node_shape ns name v) as (c & E & _). by exists c. Qed.

(** [/s:Envelope/s:Body/s:Fault/s:Code]: what the XPath queries of the fault
    decoder start with. *)
Definition fault_code_node (doc : xnode) : option xnode :=
  child (child (ws_xml_get_soap_body (Some doc)) XML_NS_SOAP_1_2 SOAP_FAULT) XML_NS_SOAP_1_2 SOAP_CODE.

(** The texts at [s:Value] and at [s:Subcode/s:Value] below it. *)
Definition fault_code_text (doc : xnode) : option string :=
  ws_xml_get_node_text (child (fault_code_node doc) XML_NS_SOAP_1_2 SOAP_VALUE).
Definition fault_subcode_text (doc : xnode) : option string :=
  ws_xml_get_node_text
    (child (child (fault_code_node doc) XML_NS_SOAP_1_2 SOAP_SUBCODE) XML_NS_SOAP_1_2 SOAP_VALUE).

Lemma fault_document_code uuid rqst f :
  ∃ c rest, fault_code_node (wsman_create_fault_envelope ns_prefix uuid rqst f) =
    Some (XElement (Some XML_NS_SOAP_1_2) SOAP_CODE [] (XElement (Some XML_NS_SOAP_1_2) SOAP_VALUE [] c :: rest)) ∧
    text_node (Some XML_NS_SOAP_1_2) SOAP_VALUE (make_qname ns_prefix XML_NS_SOAP_1_2 <$> fd_code f) =
      XElement (Some XML_NS_SOAP_1_2) SOAP_VALUE [] c ∧
    rest = match fd_subCode f with
           | Some (String a s) =>
               [XElement (Some XML_NS_SOAP_1_2) SOAP_SUBCODE []
                  [text_node (Some XML_NS_SOAP_1_2) SOAP_VALUE
                     (Some (match fd_subCodeNs f with
                            | Some u => make_qname ns_prefix u (String a s)
                            | None => String a s
                            end))]]
           | _ => []
           end.
Proof.
  unfold wsman_create_fault_envelope, fault_code_node. rewrite envelope_body. unfold fault_element.
  destruct (text_node_named (Some XML_NS_SOAP_1_2) SOAP_VALUE
              (make_qname ns_prefix XML_NS_SOAP_1_2 <$> fd_code f)) as [c Ec].
  rewrite Ec. unfold text_node. rewrite !new_node_empty, !foldl_add_node. cbn [app].
  rewrite !child_here. exists c. eexists. split; [done|]. split; [done|].
  destruct (fd_subCode f) as [[|a s]|]; [done| |done]. by rewrite foldl_add_node.
Qed.

Lemma fault_document_is_fault uuid rqst f :
  wsman_is_fault_envelope (Some (wsman_create_fault_envelope ns_prefix uuid rqst f)) = true.
Proof.
  unfold wsman_is_fault_envelope, wsman_create_fault_envelope. rewrite envelope_body.
  unfold fault_element, text_node. rewrite new_node_empty, foldl_add_node.
  change (ws_xml_get_child ?b 0 (Some ?n) (Some ?m)) with (child b n m). by rewrite child_here.
Qed.

Lemma fault_document_code_text uuid rqst f code :
  fd_code f = Some code →
  fault_code_text (wsman_create_fault_envelope ns_prefix uuid rqst f) =
    Some (make_qname ns_prefix XML_NS_SOAP_1_2 code).
Proof.
  intros Hc. destruct (fault_document_code uuid rqst f) as (c & rest & E & Ec & _).
  unfold fault_code_text. rewrite E, child_here. rewrite <- Ec, Hc. apply new_node_text.
Qed.

Lemma child_skip ns name ns' nm props' n c :
  ws_xml_is_node_qname (Some n) (Some ns) (Some name) = false →
  child (Some (XElement ns' nm props' (n :: c))) ns name = child (Some (XElement ns' nm props' c)) ns name.
Proof.
  intros Hn. unfold child. rewrite !ws_xml_get_child_matching by done. unfold matching. cbn [x_children].
  f_equal. cbn [element_children]. destruct (is_element n); [|done].
  rewrite filter_cons_False; [done|]. by rewrite Hn.
Qed.

Lemma fault_document_subcode_text uuid rqst f :
  fault_subcode_text (wsman_create_fault_envelope ns_prefix uuid rqst f) =
  match fd_subCode f with
  | Some (String a s) => Some (match fd_subCodeNs f with
                               | Some u => make_qname ns_prefix u (String a s)
                               | None => String a s
                               end)
  | _ => None
  end.
Proof.
  destruct (fault_document_code uuid rqst f) as (c & rest & E & _ & ->).
  unfold fault_subcode_text. rewrite E, child_skip by done.
  destruct (fd_subCode f) as [[|a s]|]; [done| |done]. rewrite child_here.
  destruct (text_node_named (Some XML_NS_SOAP_1_2) SOAP_VALUE (Some (match fd_subCodeNs f with
    | Some u => make_qname ns_prefix u (String a s) | None => String a s end))) as [c' Ec'].
  rewrite Ec', child_here, <- Ec'. apply new_node_text.
Qed.

Lemma fault_document_some uuid rqst c d m :
  c ∉ codes_without_entry →
  ∃ doc, generate_fault_document ns_prefix uuid rqst c d m = Some (Some doc) ∧
    wsman_is_fault_envelope (Some doc) = true.
Proof.
  intros Hc. destruct (generate_fault_some c d m Hc) as [f Hf]. unfold generate_fault_document.
  rewrite Hf, some_bind. eexists. split; [done|]. apply fault_document_is_fault.
Qed.

(** A fault with a subcode has a namespace for it. *)
Lemma subcode_has_ns e a s :
  e ∈ fault_code_table → subCode e = Some (String a s) → is_Some (subCodeNs e).
Proof.
  assert (Forall (λ e, bool_decide (is_Some (subCodeNs e)) ||
                       bool_decide (subCode e = None) || bool_decide (subCode e = Some "") = true)
            fault_code_table) as Hall.
  { apply (bool_decide_unpack _). vm_compute. exact I. }
  rewrite Forall_forall in Hall. intros He Hs. specialize (Hall e He).
  apply orb_prop in Hall as [[Hb|Hb]%orb_prop|Hb]; apply bool_decide_eq_true in Hb; congruence.
Qed.

(** C19: a fault document the server builds is recognised as a fault and
    decoded by the client to the fault code it was built from, or to another
    code with the same subcode where the table has several; a fault without a
    subcode leaves the client's status as it was. *)
Theorem fault_roundtrip uuid rqst code detail msg doc s :
  (∀ u, ∃ p, ns_prefix u = Some p ∧ strchr p ":"%char = None) →
  generate_fault_document ns_prefix uuid rqst code detail msg = Some (Some doc) →
  wsman_is_fault_envelope (Some doc) = true ∧
  ∃ e, e ∈ fault_code_table ∧ fault_code e = code ∧
    match subCode e with
    | None | Some EmptyString =>
        wsman_get_fault_status_from_doc true (fault_subcode_text doc) s = Some s
    | Some v => ∃ e', e' ∈ fault_code_table ∧ subCode e' = Some v ∧
        wsman_get_fault_status_from_doc true (fault_subcode_text doc) s =
          Some (Status (fault_code e') WSMAN_DETAIL_OK None)
    end.
Proof.
  intros Hns Hg. unfold generate_fault_document in Hg.
  destruct (wsman_generate_fault code detail msg) as [[f|]|] eqn:Hf; try done.
  injection Hg as <-. split; [apply fault_document_is_fault|].
  destruct (generate_fault_entry _ _ _ _ Hf) as (e & He & Hc & _ & Hn & Hs).
  exists e. split; [done|]. split; [done|]. rewrite fault_document_subcode_text, Hs, Hn.
  destruct (subCode e) as [[|a v]|] eqn:Hsub; [done| |done].
  destruct (subcode_has_ns e a v He Hsub) as [u Hu]. rewrite Hu. unfold make_qname.
  destruct (Hns u) as (p & -> & Hp). rewrite fault_status_prefixed by done.
  destruct fault_table_split as (last & Ht & Hl & Hall). rewrite Ht in He |- *.
  pose proof (find_subcode_spec fault_entries (String a v) Hall last Hl) as Hfind.
  apply elem_of_app in He as [He|He%list_elem_of_singleton]; [|congruence].
  destruct (find_subcode _ _) as [[c|]|]; [|done|by destruct (Hfind e)].
  destruct Hfind as (e' & He' & Hs' & <-). exists e'. rewrite some_bind.
  split_and!; [|done|done]. apply elem_of_app. by left.
Qed.

(** ** Validation *)

(** The status after the checks, from a status without a fault. *)
Lemma valid_envelope_status st root_ns name props c :
  st_code st = WSMAN_RC_OK →
  ∃ ok st', wsman_is_valid_envelope st (XElement root_ns name props c) = Some (ok, st') ∧
    (st_code st' = WSMAN_RC_OK ∨ st_code st' ∉ codes_without_entry ∨
     st_code st' = SOAP_FAULT_VERSION_MISMATCH).
Proof.
  intros Hst. unfold wsman_is_valid_envelope, wsman_set_fault, wsman_fault_occured. rewrite Hst.
  cbn [ws_xml_get_doc_root ws_xml_get_node_local_name ws_xml_get_node_name_ns mbind option_bind].
  repeat (case_match || (eexists _, _; split; [done|])); cbn;
    first [by left|right; left; by apply (bool_decide_unpack _)|by right; right].
Qed.

(** A check that fails. *)
Ltac reject Hf := eexists _, _; split; [done|]; split; [split; [done|]|by apply Hf].

(** An envelope is accepted exactly when its root is an Envelope of SOAP
    1.2 with a Body and a first child to read headers from and, unless it is
    an Identify or an event request, with the ResourceURI, Action, ReplyTo and
    To headers; a rejected message has a fault recorded and an accepted one
    keeps its status. *)
Theorem valid_envelope_spec st root_ns name props c :
  let doc := XElement root_ns name props c in
  let header := ws_xml_get_soap_header (Some doc) in
  ∃ ok st', wsman_is_valid_envelope st doc = Some (ok, st') ∧
    (ok = true ↔
       name = SOAP_ENVELOPE ∧ root_ns = Some XML_NS_SOAP_1_2 ∧
       is_Some (ws_xml_get_soap_body (Some doc)) ∧ is_Some header ∧
       (wsman_is_identify_request (Some doc) = true ∨ wsman_is_event_related_request (Some doc) = true ∨
        Forall (λ q, is_Some (child header q.1 q.2))
          [(XML_NS_WS_MAN, WSM_RESOURCE_URI); (XML_NS_ADDRESSING, WSA_ACTION);
           (XML_NS_ADDRESSING, WSA_REPLY_TO); (XML_NS_ADDRESSING, WSA_TO)])) ∧
    (if ok : bool then st' = st else wsman_fault_occured st' = true).
Proof.
  intros doc header.
  assert (Hf : ∀ cd d m, cd ≠ WSMAN_RC_OK → wsman_fault_occured (wsman_set_fault st cd d m) = true).
  { intros cd d m Hcd. unfold wsman_set_fault. destruct (wsman_fault_occured st) eqn:E; [done|].
    unfold wsman_fault_occured. cbn. by apply negb_true_iff, bool_decide_eq_false. }
  unfold wsman_is_valid_envelope. cbn [ws_xml_get_doc_root ws_xml_get_node_local_name
    ws_xml_get_node_name_ns mbind option_bind doc]. fold doc. fold header.
  destruct (str_eqb_spec SOAP_ENVELOPE name) as [<-|Hn]; cbn [negb]; [|reject Hf; by intros [-> _]].
  destruct root_ns as [u|]; [|reject Hf; by intros (_ & ? & _)].
  destruct (str_eqb_spec u XML_NS_SOAP_1_2) as [->|Hn]; cbn [negb];
    [|reject Hf; by intros (_ & [= ->] & _)].
  destruct (ws_xml_get_soap_body (Some doc)) as [b|] eqn:Eb;
    [|reject Hf; by intros (_ & _ & [? ?] & _)].
  destruct header as [h|] eqn:Eh; [|reject Hf; by intros (_ & _ & _ & [? ?] & _)].
  rewrite !bool_decide_false by done.
  destruct (wsman_is_identify_request (Some doc)), (wsman_is_event_related_request (Some doc));
    cbn [negb andb]; try (eexists _, _; split; [done|]; split; [|done]; split; [|done];
      intros _; split_and!; try done; first [by left|by right; left]).
  do 4 (let Hx := fresh "Hx" in case_bool_decide as Hx;
    [reject Hf; intros (_ & _ & _ & _ & [?|[?|Hall]]); [done..|];
     rewrite !Forall_cons in Hall; cbn [fst snd] in Hall; rewrite Hx in Hall;
     destruct_and! Hall; by match goal with H : is_Some None |- _ => destruct H end
    |apply not_eq_None_Some in Hx]).
  eexists _, _. split; [done|]. split; [|done]. split; [|done]. intros _. split_and!; try done.
  right; right. by repeat constructor.
Qed.

(** ** Responses *)

Lemma child_text_here ns name v ns' nm ps c :
  child (Some (XElement ns' nm ps (text_node (Some ns) name v :: c))) ns name =
  Some (text_node (Some ns) name v).
Proof. destruct (text_node_named (Some ns) name v) as [c' ->]. apply child_here. Qed.

Lemma child_text_skip ns name ns0 name0 v ns' nm ps c :
  ns0 ≠ ns ∨ name0 ≠ name →
  child (Some (XElement ns' nm ps (text_node (Some ns0) name0 v :: c))) ns name =
  child (Some (XElement ns' nm ps c)) ns name.
Proof.
  intros Hne. destruct (text_node_named (Some ns0) name0 v) as [c' ->]. apply child_skip.
  unfold ws_xml_is_node_qname. cbn. destruct (str_eqb_spec ns0 ns), (str_eqb_spec name name0); cbn; try done.
  destruct Hne; congruence.
Qed.

(** The response to a request with a MessageID relates to it, carries the
    given action or else the request's action with [Response] appended, and
    goes to the address the request asked to reply to, or to the anonymous
    address; here for a reply address without reference properties or
    parameters, which would be copied between these headers. *)
Theorem response_correlates rqst action hdr id a to :
  ws_xml_get_soap_header (Some rqst) = Some hdr →
  wsman_is_identify_request (Some rqst) = false →
  ws_xml_get_node_text (child (Some hdr) XML_NS_ADDRESSING WSA_MESSAGE_ID) = Some id →
  ws_xml_get_node_text (child (Some hdr) XML_NS_ADDRESSING WSA_ACTION) = Some a →
  let epr := child (Some hdr) XML_NS_ADDRESSING WSA_REPLY_TO in
  match child epr XML_NS_ADDRESSING WSA_ADDRESS with
  | None => to = WSA_TO_ANONYMOUS
  | node => ws_xml_get_node_text node = Some to
  end →
  child epr XML_NS_ADDRESSING WSA_REFERENCE_PROPERTIES = None →
  child epr XML_NS_ADDRESSING WSA_REFERENCE_PARAMETERS = None →
  let h := ws_xml_get_soap_header (Some (wsman_create_response_envelope rqst action)) in
  ws_xml_get_node_text (child h XML_NS_ADDRESSING WSA_RELATES_TO) = Some id ∧
  ws_xml_get_node_text (child h XML_NS_ADDRESSING WSA_ACTION) =
    Some (match action with Some x => x | None => a +:+ "Response" end) ∧
  ws_xml_get_node_text (child h XML_NS_ADDRESSING WSA_TO) = Some to.
Proof.
  intros Hh Hi Hid Ha epr Hto Hp1 Hp2 h.
  set (act := match action with Some x => x | None => a +:+ "Response" end).
  assert (Hhs : response_headers rqst action =
    [text_node (Some XML_NS_ADDRESSING) WSA_TO (Some to);
     text_node (Some XML_NS_ADDRESSING) WSA_ACTION (Some act);
     text_node (Some XML_NS_ADDRESSING) WSA_RELATES_TO (Some id)]).
  { unfold response_headers. rewrite Hi, Hh. fold epr.
    assert (wsman_epr_from_request_to_response epr =
      [text_node (Some XML_NS_ADDRESSING) WSA_TO (Some to)]) as ->.
    { unfold wsman_epr_from_request_to_response. rewrite Hp1, Hp2. cbn [duplicate_children app].
      destruct epr as [n|].
      - destruct (child (Some n) XML_NS_ADDRESSING WSA_ADDRESS); [by rewrite Hto|by subst].
      - by rewrite (Hto : to = WSA_TO_ANONYMOUS). }
    destruct (child (Some hdr) XML_NS_ADDRESSING WSA_MESSAGE_ID) as [n|]; [|done].
    rewrite Hid, Ha. unfold act. by destruct action. }
  unfold h, wsman_create_response_envelope. rewrite envelope_header, Hhs.
  rewrite !(child_text_skip XML_NS_ADDRESSING WSA_RELATES_TO) by (by right).
  rewrite (child_text_skip XML_NS_ADDRESSING WSA_ACTION) by (by right).
  rewrite !child_text_here. split_and!; apply new_node_text.
Qed.
End Theory.

(** ** Samples *)

Definition sample_prefix (u : string) : option string :=
  Some (if str_eqb u XML_NS_SOAP_1_2 then "s" else "ns").

Definition sample_header : xnode :=
  el XML_NS_SOAP_1_2 SOAP_HEADER
    [txt XML_NS_ADDRESSING WSA_TO "http://host/wsman";
     txt XML_NS_ADDRESSING WSA_MESSAGE_ID "uuid:42";
     txt XML_NS_ADDRESSING WSA_ACTION "http://example/Get";
     el XML_NS_ADDRESSING WSA_REPLY_TO [txt XML_NS_ADDRESSING WSA_ADDRESS "http://client/"];
     txt XML_NS_WS_MAN WSM_RESOURCE_URI "http://example/Disk"].
Definition sample_request : xnode :=
  el XML_NS_SOAP_1_2 SOAP_ENVELOPE [sample_header; el XML_NS_SOAP_1_2 SOAP_BODY []].

Lemma fragment_type_roundtrip_witness :
  wsman_get_fragment_type (Some ("Name" +:+ "[" +:+ print_nat 12 +:+ "]")) = (3, Some "Name", 12) ∧
  wsman_get_fragment_type (Some ("Name" +:+ "/text()")) = (2, Some "Name", 0).
Proof. refine (fragment_type_roundtrip "Name" 12 eq_refl eq_refl eq_refl _). lia. Defined.

Lemma fault_roundtrip_witness :
  ∃ doc, @generate_fault_document TreeXml sample_prefix "uuid:1" (Some sample_request)
           WSMAN_CONCURRENCY WSMAN_DETAIL_OK None = Some (Some doc) ∧
    wsman_is_fault_envelope (Some doc) = true ∧
    @wsman_get_fault_status_from_doc true (@fault_subcode_text TreeXml doc)
      (Status WSMAN_RC_OK WSMAN_DETAIL_OK None) = Some (Status WSMAN_CONCURRENCY WSMAN_DETAIL_OK None).
Proof.
  eexists. split; [vm_compute; reflexivity|]. split; [|vm_compute; reflexivity].
  refine (proj1 (@fault_roundtrip TreeXml TreeXmlLaws sample_prefix "uuid:1" (Some sample_request)
    WSMAN_CONCURRENCY WSMAN_DETAIL_OK None _ (Status WSMAN_RC_OK WSMAN_DETAIL_OK None) _ _)).
  - intros u. unfold sample_prefix. destruct (str_eqb u XML_NS_SOAP_1_2); eexists; split; reflexivity.
  - vm_compute. reflexivity.
Defined.

Lemma response_correlates_witness :
  let h := ws_xml_get_soap_header (Some (@wsman_create_response_envelope TreeXml sample_request None)) in
  @ws_xml_get_node_text TreeXml (child h XML_NS_ADDRESSING WSA_RELATES_TO) = Some "uuid:42" ∧
  @ws_xml_get_node_text TreeXml (child h XML_NS_ADDRESSING WSA_ACTION) =
    Some ("http://example/Get" +:+ "Response") ∧
  @ws_xml_get_node_text TreeXml (child h XML_NS_ADDRESSING WSA_TO) = Some "http://client/".
Proof.
  apply (@response_correlates TreeXml TreeXmlLaws sample_request None sample_header "uuid:42"
           "http://example/Get" "http://client/"); vm_compute; reflexivity.
Defined.
