(* ===== verification/Uri.v ===== *)
(** * URIs and query strings ([u/uri.c], [u/misc.c])

    C strings are [string]s without their terminator.  [None] is an access
    outside a string; the error results of the functions are values. *)

From Stdlib Require Import Ascii.
From S2P Require Import Prelude.
From S2P Require Import CString.

#[local] Open Scope string_scope.
#[local] Open Scope list_scope.
#[local] Open Scope Z_scope.
#[local] Open Scope ow_scope.

Definition chr (c : Z) : ascii := ascii_of_N (Z.to_N c).

(** ** Helpers of [misc.c] *)

Definition PTRDIFF_MAX : Z := 2 ^ 63 - 1.

(** [u_strndup(s, len)] with an unsigned [len]: NULL when the allocation is
    too large; copying past the terminator is out of bounds. *)
Definition u_strndup (s : string) (len : Z) : option (option string) :=
  let len := wrap64 len in
  if PTRDIFF_MAX <? wrap64 (len + 1) then Some None
  else
    assert! len <=? Z.of_nat (String.length s) + 1;
    Some (Some (String.substring 0 (Z.to_nat len) s)).

Definition u_isblank (a : ascii) : bool := (code a =? 32) || (code a =? 9).
Definition u_isquote (a : ascii) : bool := code a =? 34.

Fixpoint rev_string (s acc : string) : string :=
  match s with EmptyString => acc | String a s => rev_string s (String a acc) end.

Fixpoint skip_while (p : ascii → bool) (s : string) : string :=
  match s with
  | String a s' => if p a then skip_while p s' else s
  | EmptyString => EmptyString
  end.

(** The backwards loop stops at the first character of the string, which is
    kept for the forward loop. *)
Definition trim_tail (p : ascii → bool) (s : string) : string :=
  match s with
  | EmptyString => EmptyString
  | String a s' => String a (rev_string (skip_while p (rev_string s' "")) "")
  end.

Definition trim_with (p : ascii → bool) (s : string) : string := skip_while p (trim_tail p s).
Definition u_trim (s : string) : string := trim_with u_isblank s.
Definition u_trim_quotes (s : string) : string := trim_with u_isquote s.

(** ** Parsing a URI *)

Record u_uri_t := Uri {
  scheme : option string;
  user : option string;
  pwd : option string;
  host : option string;
  port : Z;
  path : option string;
  uquery : option string;
}.

(** [split]: the parts before and after the first [c] among the first [len]
    characters; the inner [None] is its error result. *)
Definition split (s : string) (len : Z) (c : ascii) : option (option (string * option string)) :=
  u_strndup s len ≫= λ buf : option string,
  match buf with
  | None => Some None
  | Some buf =>
      match strchr buf c with
      | Some p =>
          let n := Z.of_nat (String.length buf - String.length p) in
          u_strndup s n ≫= λ l : option string,
          q ← str_drop 1 p;
          u_strndup q (len - n - 1) ≫= λ r : option string,
          match l, r with
          | Some l, Some r => Some (Some (l, Some r))
          | _, _ => Some None
          end
      | None =>
          u_strndup buf len ≫= λ l : option string,
          match l with Some l => Some (Some (l, None)) | None => Some None end
      end
  end.

Definition parse_userinfo (s : string) (len : Z) (u : u_uri_t) : option (Z * u_uri_t) :=
  split s len (chr 58) ≫= λ r : option (string * option string),
  match r with
  | None => Some (-1, u)
  | Some (l, r) => Some (0, Uri (scheme u) (Some l) r (host u) (port u) (path u) (uquery u))
  end.

(** The port is a [short]. *)
Definition parse_hostinfo (s : string) (len : Z) (u : u_uri_t) : option (Z * u_uri_t) :=
  split s len (chr 58) ≫= λ r : option (string * option string),
  match r with
  | None => Some (-1, u)
  | Some (l, r) =>
      Some (0, Uri (scheme u) (user u) (pwd u) (Some l)
                 (match r with Some p => sint 16 (atoi p) | None => port u end) (path u) (uquery u))
  end.

(** The at-sign is looked for in all of [s], not in its first [len]
    characters. *)
Definition parse_middle (s : string) (len : Z) (u : u_uri_t) : option (Z * u_uri_t) :=
  match strchr s (chr 64) with
  | None => parse_hostinfo s len u
  | Some p =>
      let n := Z.of_nat (String.length s - String.length p) in
      '(r1, u) ← parse_userinfo s n u;
      q ← str_drop 1 p;
      '(r2, u) ← parse_hostinfo q (len - n - 1) u;
      Some (r1 + r2, u)
  end.

(** From the first [/] on. *)
Definition find_path (s : string) : string := skip_while (λ a, negb (code a =? 47)) s.

Definition uri_query (s : string) : option string :=
  q ← strchr s (chr 63);
  match q with
  | String _ EmptyString => None
  | String _ q => Some q
  | EmptyString => None
  end.

(** The inner [None] is the error result. *)
Definition u_uri_parse (s : string) : option (option u_uri_t) :=
  match strchr s (chr 58) with
  | None => Some None
  | Some p =>
      match p with
      | String _ (String a (String b p0)) =>
          if (code a =? 47) && (code b =? 47) then
            let rest := find_path p0 in
            let n := Z.of_nat (String.length p0 - String.length rest) in
            let u := Uri (Some (str_before s p)) None None None 0 None None in
            '(r, u) ← (if n =? 0 then Some (0, u) else parse_middle p0 n u);
            if negb (r =? 0) then Some None
            else
              Some (Some (Uri (scheme u) (user u) (pwd u) (host u) (port u)
                            (match rest with EmptyString => None | _ => Some rest end) (uri_query s)))
          else Some None
      | _ => Some None
      end
  end.

(** ** Query strings *)

Definition isxdigit (a : ascii) : bool :=
  isdigit a || ((65 <=? code a) && (code a <=? 70)) || ((97 <=? code a) && (code a <=? 102)).

Definition xdigit (a : ascii) : Z :=
  if isdigit a then code a - 48
  else if code a <=? 70 then code a - 55 else code a - 87.

(** The characters after the loop; [None] is the failure result. *)
Fixpoint unify_chars (s : string) : option string :=
  match s with
  | EmptyString => Some EmptyString
  | String a s1 =>
      if code a =? 37 then
        match s1 with
        | String h1 (String h2 s2) =>
            if isxdigit h1 && isxdigit h2 then
              r ← unify_chars s2; Some (String (chr (xdigit h1 * 16 + xdigit h2)) r)
            else None
        | _ => None
        end
      else r ← unify_chars s1; Some (String a r)
  end.

(** A C string ends at the first NUL. *)
Fixpoint cut_nul (s : string) : string :=
  match s with
  | EmptyString => EmptyString
  | String a s => if code a =? 0 then EmptyString else String a (cut_nul s)
  end.

Definition u_string_unify (s : string) : option string := r ← unify_chars s; Some (cut_nul r).

(** The tokens [strtok_r] returns: maximal non-empty runs without a
    separator. *)
Definition is_sep (sep : string) (a : ascii) : bool :=
  match strchr sep a with Some _ => true | None => false end.

Fixpoint tokens (sep s cur : string) : list string :=
  match s with
  | EmptyString => if str_eqb cur "" then [] else [cur]
  | String a s =>
      if is_sep sep a then
        if str_eqb cur "" then tokens sep s "" else cur :: tokens sep s ""
      else tokens sep s (cur +:+ String a "")
  end.

(** One name=value pair: [inl] when the equals sign is missing. *)
Definition parse_pair (tok : string) : unit + option (string * string) :=
  match strchr tok (chr 61) with
  | None => inl tt
  | Some p =>
      let key := u_trim (str_before tok p) in
      let val := u_trim_quotes (u_trim (match p with String _ v => v | EmptyString => "" end)) in
      inr (k ← u_string_unify key; v ← u_string_unify val; Some (k, v))
  end.

(** The table, as the pairs in the order they were inserted: a key that is
    there already is not added again.  [None] is NULL. *)
Fixpoint parse_pairs (toks : list string) (h : list (string * string)) : option (list (string * string)) :=
  match toks with
  | [] => Some h
  | tok :: toks =>
      match parse_pair tok with
      | inl _ => None
      | inr None => parse_pairs toks h
      | inr (Some (k, v)) =>
          if bool_decide (k ∈ h.*1) then parse_pairs toks h else parse_pairs toks (h ++ [(k, v)])
      end
  end.

Definition _u_parse (query : option string) (sep : string) : option (list (string * string)) :=
  q ← query; parse_pairs (tokens sep q "") [].

Definition u_parse_query (query : option string) := _u_parse query "&;".
Definition u_parse_list (l : option string) := _u_parse l ",".

(** ** Theorems on parsing *)

(** Strings that fit in memory. *)
Definition fits (s : string) : Prop := Z.of_nat (String.length s) < 2 ^ 62.

Lemma strndup_prefix p q :
  fits (p +:+ q) → u_strndup (p +:+ q) (Z.of_nat (String.length p)) = Some (Some p).
Proof.
  unfold fits, u_strndup, PTRDIFF_MAX. rewrite str_length_app. intros Hl.
  rewrite !wrap_small by (rewrite ?wrap_small; lia).
  rewrite (proj2 (Z.ltb_ge _ _)) by lia. unfold c_assert. rewrite (proj2 (Z.leb_le _ _)) by lia.
  simpl. by rewrite Nat2Z.id, substring_app.
Qed.

Lemma strndup_all p : fits p → u_strndup p (Z.of_nat (String.length p)) = Some (Some p).
Proof. intros Hp. rewrite <- (str_app_nil p) at 1. apply strndup_prefix. by rewrite str_app_nil. Qed.

(** A negative length is a failed allocation. *)
Lemma strndup_negative s k : 2 ≤ k < 2 ^ 63 → u_strndup s (- k) = Some None.
Proof.
  intros Hk. unfold u_strndup. assert (wrap64 (- k) = 2 ^ 64 - k) as ->.
  { unfold wrap. symmetry. apply Z.mod_unique with (-1); lia. }
  rewrite wrap_small by lia. by rewrite (proj2 (Z.ltb_lt _ _)) by (unfold PTRDIFF_MAX; lia).
Qed.

Lemma strchr_app_skip a b c : strchr a c = None → strchr (a +:+ b) c = strchr b c.
Proof.
  induction a as [|x a IH]; [done|]. simpl. destruct (code x =? code c); [done|]. apply IH.
Qed.

Lemma fits_app a b : fits (a +:+ b) → fits a ∧ fits b.
Proof. unfold fits. rewrite str_length_app. lia. Qed.

Lemma split_none l rest c :
  fits (l +:+ rest) → strchr l c = None →
  split (l +:+ rest) (Z.of_nat (String.length l)) c = Some (Some (l, None)).
Proof.
  intros Hf Hl. unfold split. rewrite strndup_prefix by done. simpl. rewrite Hl.
  by rewrite strndup_all by (by apply fits_app in Hf as [??]).
Qed.

Lemma split_found l r rest c :
  fits (l +:+ String c r +:+ rest) → strchr l c = None →
  split (l +:+ String c r +:+ rest) (Z.of_nat (String.length (l +:+ String c r))) c
  = Some (Some (l, Some r)).
Proof.
  intros Hf Hl. unfold split. rewrite <- str_app_assoc in Hf |- *. rewrite strndup_prefix by done.
  cbn [mbind option_bind]. rewrite strchr_app by done. rewrite str_length_app.
  cbn [String.length str_drop]. rewrite str_app_assoc in Hf |- *.
  replace (String.length l + S (String.length r) - S (String.length r))%nat with (String.length l) by lia.
  rewrite strndup_prefix by done. cbn [mbind option_bind].
  replace (Z.of_nat (String.length l + S (String.length r)) - Z.of_nat (String.length l) - 1)
    with (Z.of_nat (String.length r)) by lia.
  rewrite strndup_all; [done|]. apply fits_app in Hf as [_ Hf]. unfold fits in *. simpl in Hf.
  rewrite str_length_app in Hf. lia.
Qed.

(** *** Components of an authority *)

Definition colon_part (v : option string) : string := match v with Some v => ":" +:+ v | None => "" end.

Definition no (c : Z) (s : string) : Prop := strchr s (chr c) = None.

Lemma split_part l r rest :
  fits (l +:+ colon_part r +:+ rest) → no 58 l →
  split (l +:+ colon_part r +:+ rest) (Z.of_nat (String.length (l +:+ colon_part r))) (chr 58)
  = Some (Some (l, r)).
Proof.
  intros Hf Hl. destruct r as [r|]; cbn [colon_part] in *.
  - by apply (split_found l r rest (chr 58)).
  - rewrite str_app_nil. by apply split_none.
Qed.

Definition userinfo (ui : option (string * option string)) : string :=
  match ui with Some (u, p) => u +:+ colon_part p +:+ "@" | None => "" end.

Definition print_authority (ui : option (string * option string)) (h : string) (po : option Z) : string :=
  userinfo ui +:+ h +:+ colon_part (print_nat <$> po).

Definition print_uri (sch : string) (ui : option (string * option string)) (h : string) (po : option Z)
    (pa : string) : string :=
  sch +:+ "://" +:+ print_authority ui h po +:+ pa.

Record uri_parts (sch : string) (ui : option (string * option string)) (h : string) (po : option Z)
    (pa : string) : Prop := {
  parts_scheme : no 58 sch;
  parts_host : h ≠ "" ∧ no 58 h ∧ no 47 h ∧ no 64 h;
  parts_user : match ui with
               | Some (u, p) => no 58 u ∧ no 47 (u +:+ default "" p) ∧ no 64 (u +:+ default "" p)
               | None => True
               end;
  parts_port : match po with Some p => 0 ≤ p < 2 ^ 31 | None => True end;
  parts_path : pa = "" ∨ ∃ r, pa = "/" +:+ r;
  parts_fit : fits (print_uri sch ui h po pa);
}.

Lemma no_app c a b : no c (a +:+ b) ↔ no c a ∧ no c b.
Proof. apply strchr_none_app. Qed.

Lemma no_string c a s : no c (String a s) ↔ code a ≠ code (chr c) ∧ no c s.
Proof. unfold no. simpl. destruct (Z.eqb_spec (code a) (code (chr c))); naive_solver. Qed.

Lemma no_colon_part c v : c ≠ 58 → 0 ≤ c < 256 → no c (default "" v) → no c (colon_part v).
Proof.
  intros Hc Hr Hv. destruct v as [v|]; [|done]. cbn [colon_part]. rewrite str_app_cons, str_nil_app. apply no_string. split; [|done].
  unfold chr, code. rewrite N_ascii_embedding by lia. simpl. lia.
Qed.

Lemma find_path_spec m pa :
  no 47 m → pa = "" ∨ (∃ r, pa = "/" +:+ r) → find_path (m +:+ pa) = pa.
Proof.
  intros Hm Hpa. induction m as [|a m IH].
  - by destruct Hpa as [->|[r ->]].
  - apply no_string in Hm as [Ha Hm]. rewrite str_app_cons. unfold find_path. cbn [skip_while].
    change (code (chr 47)) with 47 in Ha. apply Z.eqb_neq in Ha. cbv beta. rewrite Ha. by apply IH.
Qed.

Lemma hostinfo_spec h po rest u :
  fits (h +:+ colon_part (print_nat <$> po) +:+ rest) → no 58 h →
  match po with Some p => 0 ≤ p < 2 ^ 31 | None => True end →
  parse_hostinfo (h +:+ colon_part (print_nat <$> po) +:+ rest)
    (Z.of_nat (String.length (h +:+ colon_part (print_nat <$> po)))) u
  = Some (0, Uri (scheme u) (user u) (pwd u) (Some h)
               (match po with Some p => sint 16 p | None => port u end) (path u) (uquery u)).
Proof.
  intros Hf Hh Hp. unfold parse_hostinfo. rewrite split_part by done. cbn [mbind option_bind].
  destruct po as [p|]; [|done]. cbn [fmap option_fmap option_map].
  assert (atoi (print_nat p) = p) as ->; [|done]. unfold atoi.
  rewrite <- (str_app_nil (print_nat p)), strtol_print by (done || lia). apply sint_small; lia.
Qed.

Lemma print_nat_no c p : 0 ≤ p → isdigit (chr c) = false → no c (print_nat p).
Proof. intros Hp Hc. by apply print_nat_chr. Qed.

Lemma port_part_no c po :
  match po with Some p => 0 ≤ p < 2 ^ 31 | None => True end → c = 47 ∨ c = 64 →
  no c (colon_part (print_nat <$> po)).
Proof.
  intros Hp Hc. apply no_colon_part; [lia|lia|]. destruct po as [p|]; [|done]. cbn [fmap option_fmap option_map default].
  apply print_nat_no; [lia|]. by destruct Hc as [->| ->].
Qed.

Lemma authority_no_slash ui h po :
  no 47 h → match ui with
            | Some (u, p) => no 58 u ∧ no 47 (u +:+ default "" p) ∧ no 64 (u +:+ default "" p)
            | None => True
            end →
  match po with Some p => 0 ≤ p < 2 ^ 31 | None => True end →
  no 47 (print_authority ui h po).
Proof.
  intros Hh Hu Hp. unfold print_authority. rewrite !no_app. split_and!; [|done|apply port_part_no; [done|by left]].
  destruct ui as [[u p]|]; [|done]. destruct Hu as (_ & Hu & _). rewrite no_app in Hu. destruct Hu as [Hu Hpw].
  cbn [userinfo]. rewrite !no_app. split_and!; [done|by apply no_colon_part|done].
Qed.

(** What [parse_middle] finds in an authority followed by [rest]; without user
    information the rest must not contain an at-sign. *)
Lemma parse_middle_spec ui h po rest u0 :
  fits (print_authority ui h po +:+ rest) → no 58 h → no 64 h →
  match ui with
  | Some (u, p) => no 58 u ∧ no 47 (u +:+ default "" p) ∧ no 64 (u +:+ default "" p)
  | None => no 64 rest
  end →
  match po with Some p => 0 ≤ p < 2 ^ 31 | None => True end →
  parse_middle (print_authority ui h po +:+ rest) (Z.of_nat (String.length (print_authority ui h po))) u0
  = Some (0, Uri (scheme u0) (match ui with Some (u, _) => Some u | None => user u0 end)
               (match ui with Some (_, p) => p | None => pwd u0 end) (Some h)
               (match po with Some p => sint 16 p | None => port u0 end) (path u0) (uquery u0)).
Proof.
  intros Hf Hh Ha Hu Hp. unfold parse_middle, print_authority in *.
  set (hp := h +:+ colon_part (print_nat <$> po)) in *.
  assert (Hhp : no 64 hp) by (apply no_app; split; [done|apply port_part_no; [done|by right]]).
  destruct ui as [[u p]|]; cbn [userinfo] in *.
  - destruct Hu as (H58 & _ & H64). apply no_app in H64 as [H64 H64p].
    set (up := u +:+ colon_part p).
    assert (Hup : no 64 up) by (apply no_app; split; [done|by apply no_colon_part]).
    assert (Hs : ((u +:+ colon_part p +:+ "@") +:+ hp) +:+ rest = up +:+ String (chr 64) (hp +:+ rest))
      by (unfold up; by rewrite !str_app_assoc).
    rewrite Hs in *. rewrite (strchr_app up (chr 64) (hp +:+ rest)) by done.
    assert ((String.length (up +:+ String (chr 64) (hp +:+ rest)) -
      String.length (String (chr 64) (hp +:+ rest)))%nat = String.length up) as ->
      by (rewrite str_length_app; lia).
    unfold parse_userinfo. pose proof (split_part u p (String (chr 64) (hp +:+ rest))) as Hsp.
    rewrite <- str_app_assoc in Hsp. fold up in Hsp. rewrite Hsp by done. unfold up.
    cbn [mbind option_bind str_drop].
    replace (Z.of_nat (String.length ((u +:+ colon_part p +:+ "@") +:+ hp)) -
      Z.of_nat (String.length (u +:+ colon_part p)) - 1) with (Z.of_nat (String.length hp))
      by (rewrite !str_length_app; simpl; lia).
    unfold hp in *. rewrite str_app_assoc, hostinfo_spec; [done| |done..].
    apply fits_app in Hf as [_ Hf]. unfold fits in *. simpl in Hf. rewrite !str_length_app in *. lia.
  - rewrite str_nil_app in *. unfold no in Hu, Hhp. rewrite strchr_app_skip, Hu by done.
    unfold hp in *. rewrite str_app_assoc, hostinfo_spec; [done| |done..]. by rewrite <- str_app_assoc.
Qed.

Lemma str_before_eq a b : str_before (a +:+ b) b = a.
Proof. apply str_before_app. Qed.

(** The scheme and the authority of a printed URI. *)
Lemma u_uri_parse_step sch rest pa m :
  no 58 sch → rest = m +:+ pa → no 47 m → pa = "" ∨ (∃ r, pa = "/" +:+ r) →
  let s := sch +:+ "://" +:+ rest in
  u_uri_parse s =
  ('(r, u) ← (if Z.of_nat (String.length m) =? 0 then Some (0, Uri (Some sch) None None None 0 None None)
              else parse_middle rest (Z.of_nat (String.length m)) (Uri (Some sch) None None None 0 None None));
   if negb (r =? 0) then Some None
   else Some (Some (Uri (scheme u) (user u) (pwd u) (host u) (port u)
                      (match pa with EmptyString => None | _ => Some pa end) (uri_query s)))).
Proof.
  intros Hs -> Hm Hpa s. unfold u_uri_parse, s.
  change ("://" +:+ m +:+ pa) with (String (chr 58) ("//" +:+ m +:+ pa)).
  rewrite strchr_app by done. rewrite !str_app_cons, str_nil_app.
  change ((code "/" =? 47) && (code "/" =? 47)) with true. cbn match.
  rewrite find_path_spec by done.
  replace (String.length (m +:+ pa) - String.length pa)%nat with (String.length m)
    by (rewrite str_length_app; lia).
  by rewrite str_before_app.
Qed.

(** Parsing a URI gives its scheme, user, password, host, port, path and
    query back, for every combination of optional parts (an at-sign in the
    path needs user information before it); a port is reduced to a signed
    16-bit integer. *)
Theorem u_uri_parse_print sch ui h po pa :
  uri_parts sch ui h po pa → (ui = None → no 64 pa) →
  u_uri_parse (print_uri sch ui h po pa) =
  Some (Some (Uri (Some sch) (fst <$> ui) (ui ≫= snd) (Some h) (match po with Some p => sint 16 p | None => 0 end)
                (match pa with EmptyString => None | _ => Some pa end)
                (uri_query (print_uri sch ui h po pa)))).
Proof.
  intros [Hs (Hne & H58 & H47 & H64) Hu Hp Hpa Hf] Hat. unfold print_uri in *.
  rewrite (u_uri_parse_step sch _ pa (print_authority ui h po)); [|done|done|by apply authority_no_slash|done].
  assert (Hm : Z.of_nat (String.length (print_authority ui h po)) =? 0 = false).
  { apply Z.eqb_neq. unfold print_authority. rewrite !str_length_app. destruct h; [done|]. simpl. lia. }
  rewrite Hm. apply fits_app in Hf as [_ Hf]. apply (fits_app "://") in Hf as [_ Hf].
  rewrite parse_middle_spec; [|done|done|done| |done].
  - cbn [mbind option_bind negb Z.eqb]. by destruct ui as [[u p]|].
  - destruct ui as [[u p]|]; [done|]. by apply Hat.
Qed.

Lemma split_defined s k c :
  (k ≤ String.length s)%nat → fits s → is_Some (split s (Z.of_nat k) c).
Proof.
  intros Hk Hf. destruct (str_split_at s k Hk) as (a & b & -> & <-).
  destruct (strchr a c) as [p|] eqn:E.
  - apply strchr_Some in E as (l & r & -> & -> & Hl). rewrite str_app_assoc in *.
    rewrite split_found by done. by eexists.
  - rewrite split_none by done. by eexists.
Qed.

(** A URI without user information whose path contains an at-sign is
    rejected: the at-sign is looked for in the whole rest of the string and
    the length of the host becomes negative. *)
Theorem u_uri_parse_at_in_path sch h po r1 r2 :
  let pa := "/" +:+ r1 +:+ "@" +:+ r2 in
  uri_parts sch None h po pa → no 64 r1 →
  u_uri_parse (print_uri sch None h po pa) = Some None.
Proof.
  intros pa [Hs (Hne & H58 & H47 & H64) _ Hp Hpa Hf] Hr. unfold print_uri in *.
  set (m := print_authority None h po) in *.
  rewrite (u_uri_parse_step sch _ pa m); [|done|done|by apply authority_no_slash|done].
  assert (Hm0 : Z.of_nat (String.length m) =? 0 = false).
  { apply Z.eqb_neq. unfold m, print_authority. rewrite !str_length_app. destruct h; [done|]. simpl. lia. }
  rewrite Hm0. apply fits_app in Hf as [_ Hf]. apply (fits_app "://") in Hf as [_ Hf].
  assert (Hm : no 64 m).
  { apply no_app. split; [done|]. apply no_app. split; [done|]. apply port_part_no; [done|by right]. }
  unfold parse_middle.
  assert (Hsp : m +:+ pa = (m +:+ "/" +:+ r1) +:+ String (chr 64) r2)
    by (unfold pa; by rewrite !str_app_assoc).
  rewrite Hsp in *. rewrite (strchr_app (m +:+ "/" +:+ r1) (chr 64) r2)
    by (apply no_app; split; [done|]; by apply no_app).
  assert ((String.length ((m +:+ "/" +:+ r1) +:+ String (chr 64) r2) - String.length (String (chr 64) r2))%nat
    = String.length (m +:+ "/" +:+ r1)) as -> by (rewrite str_length_app; lia).
  unfold parse_userinfo.
  destruct (split_defined ((m +:+ "/" +:+ r1) +:+ String (chr 64) r2) (String.length (m +:+ "/" +:+ r1)) (chr 58))
    as [ui ->]; [rewrite (str_length_app (m +:+ "/" +:+ r1)); lia|done|].
  assert (Hh : ∀ u, parse_hostinfo r2 (Z.of_nat (String.length m) - Z.of_nat (String.length (m +:+ "/" +:+ r1)) - 1) u
    = Some (-1, u)).
  { intros u. unfold parse_hostinfo, split. rewrite !str_length_app.
    replace (Z.of_nat (String.length m) - _ - 1) with (- (Z.of_nat (String.length r1) + 2)) by (simpl; lia).
    rewrite strndup_negative; [done|]. unfold fits in Hf. rewrite !str_length_app in Hf. simpl in Hf. lia. }
  cbn [mbind option_bind].
  destruct ui as [[l r]|]; cbn [mbind option_bind str_drop]; rewrite Hh; done.
Qed.

(** ** Query strings that are read back *)

Fixpoint str_all (p : ascii → bool) (s : string) : bool :=
  match s with EmptyString => true | String a s => p a && str_all p s end.

(** Characters that a query does not interpret. *)
Definition plain_char (a : ascii) : bool :=
  negb (u_isblank a || u_isquote a || (code a =? 37) || (code a =? 0) || (code a =? 38) || (code a =? 59)).
Definition plain (s : string) : bool := str_all plain_char s.
Definition plain_key (s : string) : bool := str_all (λ a, plain_char a && negb (code a =? 61)) s.

Lemma str_all_impl (p q : ascii → bool) s :
  (∀ a, p a = true → q a = true) → str_all p s = true → str_all q s = true.
Proof.
  intros H. induction s as [|a s IH]; [done|]. simpl. rewrite !andb_true_iff. naive_solver.
Qed.

Lemma str_all_app p s t : str_all p (s +:+ t) = str_all p s && str_all p t.
Proof. induction s as [|a s IH]; [done|]. rewrite str_app_cons. simpl. by rewrite IH, andb_assoc. Qed.

Lemma rev_string_app s : ∀ acc, rev_string s acc = rev_string s "" +:+ acc.
Proof.
  induction s as [|a s IH]; intros acc; [done|]. simpl. rewrite IH, (IH (String a "")), str_app_assoc. done.
Qed.

Lemma rev_string_involutive s : rev_string (rev_string s "") "" = s.
Proof.
  assert (H : ∀ t acc, rev_string (rev_string s t) acc = rev_string t (s +:+ acc)).
  { induction s as [|a s IH]; intros t acc; [done|]. simpl. by rewrite IH. }
  rewrite H. apply str_app_nil.
Qed.

Lemma str_all_rev p s : ∀ acc, str_all p (rev_string s acc) = str_all p s && str_all p acc.
Proof.
  induction s as [|a s IH]; intros acc; [done|]. simpl. rewrite IH. simpl.
  by destruct (p a), (str_all p s).
Qed.

Lemma skip_while_none (p : ascii → bool) s : str_all (λ a, negb (p a)) s = true → skip_while p s = s.
Proof.
  destruct s as [|a s]; [done|]. simpl. rewrite andb_true_iff, negb_true_iff. by intros [-> _].
Qed.

Lemma trim_none (p : ascii → bool) s : str_all (λ a, negb (p a)) s = true → trim_with p s = s.
Proof.
  intros Hs. unfold trim_with. assert (trim_tail p s = s) as ->; [|by apply skip_while_none].
  destruct s as [|a s]; [done|]. simpl in *. apply andb_true_iff in Hs as [Ha Hs].
  rewrite skip_while_none by (by rewrite str_all_rev, Hs). by rewrite rev_string_involutive.
Qed.

Lemma unify_plain s : plain s = true → u_string_unify s = Some s.
Proof.
  intros Hs. unfold u_string_unify.
  assert (unify_chars s = Some s ∧ cut_nul s = s) as [-> Hc]; [|simpl; by rewrite Hc].
  induction s as [|a s IH]; [done|]. cbn [plain str_all] in Hs. apply andb_true_iff in Hs as [Ha Hs].
  unfold plain_char in Ha. rewrite negb_true_iff, !orb_false_iff in Ha.
  destruct Ha as ((((_ & H37) & H0) & _) & _). cbn [unify_chars cut_nul]. rewrite H37, H0.
  destruct (IH Hs) as [-> ->]. done.
Qed.

Lemma plain_blank a : plain_char a = true → negb (u_isblank a) = true.
Proof. unfold plain_char. rewrite !negb_true_iff, !orb_false_iff. tauto. Qed.
Lemma plain_quote a : plain_char a = true → negb (u_isquote a) = true.
Proof. unfold plain_char. rewrite !negb_true_iff, !orb_false_iff. tauto. Qed.

Lemma plain_key_plain k : plain_key k = true → plain k = true ∧ strchr k (chr 61) = None.
Proof.
  intros Hk. split; [revert Hk; apply str_all_impl; intros a; rewrite andb_true_iff; tauto|].
  induction k as [|a k IH]; [done|]. cbn [plain_key str_all] in Hk.
  rewrite !andb_true_iff, negb_true_iff in Hk. destruct Hk as ((_ & Ha) & Hk). simpl.
  change (code (chr 61)) with 61. rewrite Ha. by apply IH.
Qed.

Lemma parse_pair_plain k v :
  plain_key k = true → plain v = true → parse_pair (k +:+ "=" +:+ v) = inr (Some (k, v)).
Proof.
  intros [Hk H61]%plain_key_plain Hv. unfold parse_pair.
  change ("=" +:+ v) with (String (chr 61) v). rewrite strchr_app by done.
  rewrite str_before_app. unfold u_trim, u_trim_quotes.
  rewrite (trim_none u_isblank k), (trim_none u_isblank v), (trim_none u_isquote v).
  - by rewrite (unify_plain k), (unify_plain v).
  - revert Hv. apply str_all_impl, plain_quote.
  - revert Hv. apply str_all_impl, plain_blank.
  - revert Hk. apply str_all_impl, plain_blank.
Qed.

(** [k1=v1&k2=v2...] *)
Definition pair_string (kv : string * string) : string := kv.1 +:+ "=" +:+ kv.2.

Fixpoint join_pairs (kvs : list (string * string)) : string :=
  match kvs with
  | [] => ""
  | [kv] => pair_string kv
  | kv :: kvs => pair_string kv +:+ "&" +:+ join_pairs kvs
  end.

Lemma tokens_run sep t : ∀ rest cur,
  str_all (λ a, negb (is_sep sep a)) t = true → tokens sep (t +:+ rest) cur = tokens sep rest (cur +:+ t).
Proof.
  induction t as [|a t IH]; intros rest cur Ht; [by rewrite str_nil_app, str_app_nil|].
  simpl in Ht. rewrite andb_true_iff, negb_true_iff in Ht. destruct Ht as [Ha Ht].
  rewrite str_app_cons. cbn [tokens]. rewrite Ha, IH by done. by rewrite str_app_assoc.
Qed.

Lemma plain_not_sep a : plain_char a = true → negb (is_sep "&;" a) = true.
Proof.
  unfold plain_char, is_sep. rewrite !negb_true_iff, !orb_false_iff. intros ((_ & H38) & H59).
  cbn [strchr]. change (code "&") with 38. change (code ";") with 59.
  by rewrite (Z.eqb_sym 38), H38, (Z.eqb_sym 59), H59.
Qed.

Lemma pair_no_sep k v :
  plain_key k = true → plain v = true → str_all (λ a, negb (is_sep "&;" a)) (pair_string (k, v)) = true.
Proof.
  intros [Hk _]%plain_key_plain Hv. unfold pair_string. cbn [fst snd]. rewrite !str_all_app, !andb_true_iff.
  split_and!; [|done|].
  - revert Hk. apply str_all_impl, plain_not_sep.
  - revert Hv. apply str_all_impl, plain_not_sep.
Qed.

Definition plain_pairs (kvs : list (string * string)) : Prop :=
  Forall (λ kv, plain_key kv.1 = true ∧ plain kv.2 = true) kvs.

Lemma pair_nonempty kv : str_eqb (pair_string kv) "" = false.
Proof. apply str_eqb_neq. unfold pair_string. by destruct kv as [[|a k] v]. Qed.

Lemma tokens_join kvs : plain_pairs kvs → tokens "&;" (join_pairs kvs) "" = pair_string <$> kvs.
Proof.
  induction 1 as [|[k v] kvs [Hk Hv] Hs IH]; [done|].
  destruct kvs as [|kv' kvs].
  - cbn [join_pairs fmap list_fmap]. rewrite <- (str_app_nil (pair_string (k, v))) at 1.
    rewrite tokens_run by (by apply pair_no_sep). cbn [tokens]. by rewrite str_nil_app, pair_nonempty.
  - change (join_pairs ((k, v) :: kv' :: kvs)) with (pair_string (k, v) +:+ "&" +:+ join_pairs (kv' :: kvs)).
    rewrite tokens_run by (by apply pair_no_sep). rewrite str_nil_app, str_app_cons, str_nil_app.
    cbn [tokens]. change (is_sep "&;" "&") with true. cbn match. rewrite pair_nonempty. by rewrite IH.
Qed.

Lemma parse_pairs_plain kvs : ∀ h,
  plain_pairs kvs → NoDup (h.*1 ++ kvs.*1) → parse_pairs (pair_string <$> kvs) h = Some (h ++ kvs).
Proof.
  induction kvs as [|[k v] kvs IH]; intros h Hp Hn; [by rewrite app_nil_r|].
  apply Forall_cons in Hp as [[Hk Hv] Hp]. cbn [fmap list_fmap parse_pairs]. unfold pair_string at 1.
  cbn [fst snd] in *. rewrite parse_pair_plain by done.
  assert (Hni : k ∉ h.*1).
  { apply NoDup_app in Hn as (_ & Hn & _). intros Hin. apply (Hn k Hin). by left. }
  rewrite bool_decide_eq_false_2 by done. rewrite (IH (h ++ [(k, v)])); [by rewrite <- app_assoc|done|].
  by rewrite fmap_app, <- app_assoc.
Qed.

(** A query string of plain names and values with distinct names is read
    back as the list of its pairs. *)
Lemma u_parse_query_roundtrip kvs :
  plain_pairs kvs → NoDup kvs.*1 → u_parse_query (Some (join_pairs kvs)) = Some kvs.
Proof.
  intros Hp Hn. unfold u_parse_query, _u_parse. cbn [mbind option_bind].
  rewrite tokens_join by done. by apply (parse_pairs_plain kvs []).
Qed.

Lemma u_uri_parse_print_witness :
  u_uri_parse (print_uri "http" (Some ("joe", Some "pw")) "host" (Some 40000) "/a@b?x=1") =
  Some (Some (Uri (Some "http") (Some "joe") (Some "pw") (Some "host") (sint 16 40000) (Some "/a@b?x=1")
    (uri_query (print_uri "http" (Some ("joe", Some "pw")) "host" (Some 40000) "/a@b?x=1")))).
Proof.
  refine (u_uri_parse_print "http" (Some ("joe", Some "pw")) "host" (Some 40000) "/a@b?x=1" _ _); [|done].
  split; try done. right. by exists "a@b?x=1".
Defined.

Lemma u_uri_parse_at_in_path_witness :
  u_uri_parse (print_uri "http" None "host" None ("/" +:+ "users/joe" +:+ "@" +:+ "example")) = Some None.
Proof.
  refine (u_uri_parse_at_in_path "http" "host" None "users/joe" "example" _ _); [|done].
  split; try done. right. by exists "users/joe@example".
Defined.
