(* ===== verification/Epr.v ===== *)
(** * Endpoint references ([wsman-epr.c], [wsman-key-value.c])

    An endpoint reference names a resource by its URI and a set of selectors,
    each a text or another reference.  Strings are pointers, since the code
    leaves some of them NULL, uninitialised or dangling: [CInvalid] stands for
    a pointer that must not be read any more, and [None] is the result of
    using one or of writing past a buffer.  Memory is never exhausted. *)

From S2P Require Import Prelude.
From S2P Require Import CString.
From S2P Require Import Names.
From S2P Require Import Xml.
From S2P Require Import Envelope.
From S2P Require Import Uri.

#[local] Open Scope string_scope.
#[local] Open Scope list_scope.
#[local] Open Scope Z_scope.
#[local] Open Scope ow_scope.

Inductive cstr :=
  | CInvalid
  | CNull
  | CStr (s : string).

Inductive epr_t :=
  | Epr (address uri : cstr) (selectors : list key_value_t)
with key_value_t :=
  | KeyValue (key : cstr) (v : kv_val)
with kv_val :=
  | VText (text : cstr)
  | VEpr (e : option epr_t).

Definition address (e : epr_t) : cstr := match e with Epr a _ _ => a end.
Definition epr_uri (e : epr_t) : cstr := match e with Epr _ u _ => u end.
Definition selectors (e : epr_t) : list key_value_t := match e with Epr _ _ s => s end.
Definition kv_key (kv : key_value_t) : cstr := match kv with KeyValue k _ => k end.
Definition kv_v (kv : key_value_t) : kv_val := match kv with KeyValue _ v => v end.

(** Reading the string a pointer points to. *)
Definition deref (c : cstr) : option string :=
  match c with CStr s => Some s | _ => None end.

Definition of_option (s : option string) : cstr :=
  match s with Some s => CStr s | None => CNull end.

Definition ptr_eqb (a b : cstr) : option bool :=
  a ← deref a; b ← deref b; Some (str_eqb a b).

(** [if (p) q = u_strdup(p); else q = NULL;] *)
Definition dup_or_null (c : cstr) : option cstr :=
  match c with CInvalid => None | _ => Some c end.

(** ** Selectors and copies *)

Section Copy.
Context (copy : epr_t → option epr_t).

Definition kv_copy_value (v : kv_val) : option kv_val :=
  match v with
  | VText t => s ← deref t; Some (VText (CStr s))
  | VEpr None => Some (VEpr None)
  | VEpr (Some e) => e ← copy e; Some (VEpr (Some e))
  end.

Definition key_value_copy (from : key_value_t) : option key_value_t :=
  match from with
  | KeyValue k v => k ← dup_or_null k; v ← kv_copy_value v; Some (KeyValue k v)
  end.
End Copy.

(** The address is only set when there is one to copy. *)
Fixpoint epr_copy (e : epr_t) : option epr_t :=
  match e with
  | Epr a u sel =>
      a ← (match a with CStr s => Some (CStr s) | CNull => Some CInvalid | CInvalid => None end);
      u ← deref u;
      sel ← mapM (key_value_copy epr_copy) sel;
      Some (Epr a (CStr u) sel)
  end.

Definition key_value_create (key text : option string) (epr : option epr_t) : option key_value_t :=
  match text with
  | Some t => Some (KeyValue (of_option key) (VText (CStr t)))
  | None =>
      match epr with
      | None => Some (KeyValue (of_option key) (VEpr None))
      | Some e => e ← epr_copy e; Some (KeyValue (of_option key) (VEpr (Some e)))
      end
  end.

Section Destroy.
Context (destroy : epr_t → option unit).

(** Freeing: NULL is accepted, a pointer that is not valid is not. *)
Definition c_free (c : cstr) : option unit :=
  match c with CInvalid => None | _ => Some tt end.

Definition key_value_destroy (kv : key_value_t) : option unit :=
  match kv with
  | KeyValue k v =>
      _ ← c_free k;
      match v with
      | VText t => c_free t
      | VEpr None => Some tt
      | VEpr (Some e) => destroy e
      end
  end.
End Destroy.

Fixpoint epr_destroy (e : epr_t) : option unit :=
  match e with
  | Epr a u sel => _ ← c_free a; _ ← c_free u; _ ← mapM (key_value_destroy epr_destroy) sel; Some tt
  end.

(** ** Operations on references *)

(** The entries are those a scan of the table visits: key and value. *)
Definition epr_create (uri : string) (sel : option (list (string * kv_val))) (addr : option string)
  : option epr_t :=
  let a := CStr (default WSA_TO_ANONYMOUS addr) in
  match sel with
  | None => Some (Epr a (CStr uri) [])
  | Some entries =>
      sel ← mapM (λ '(k, v),
        match v with
        | VText t => s ← deref t; key_value_create (Some k) (Some s) None
        | VEpr e => key_value_create (Some k) None e
        end) entries;
      Some (Epr a (CStr uri) sel)
  end.

Fixpoint selector_by_name_loop (name : string) (l : list key_value_t) : option (option string) :=
  match l with
  | [] => Some None
  | KeyValue k v :: l =>
      eq ← ptr_eqb k (CStr name);
      match eq, v with
      | true, VText t => s ← deref t; Some (Some s)
      | _, _ => selector_by_name_loop name l
      end
  end.

Definition wsman_epr_selector_by_name (e : epr_t) (name : string) : option (option string) :=
  selector_by_name_loop name (selectors e).

Definition epr_selector_count (e : option epr_t) : Z :=
  match e with None => 0 | Some e => Z.of_nat (length (selectors e)) end.

Definition epr_get_resource_uri (e : option epr_t) : cstr :=
  match e with None => CNull | Some e => epr_uri e end.

(** The loop that looks for a selector of the same name. *)
Fixpoint has_key (name : string) (l : list key_value_t) : option bool :=
  match l with
  | [] => Some false
  | KeyValue k _ :: l =>
      eq ← (match k with CNull => Some false | _ => ptr_eqb (CStr name) k end);
      if eq : bool then Some true else has_key name l
  end.

Definition epr_add_selector (e : epr_t) (name : string) (text : option string) (added : option epr_t)
  : option (Z * epr_t) :=
  dup ← has_key name (selectors e);
  if dup : bool then Some (-1, e)
  else
    kv ← key_value_create (Some name) text added;
    Some (0, Epr (address e) (epr_uri e) (selectors e ++ [kv])).

Definition epr_add_selector_text (e : epr_t) (name text : string) := epr_add_selector e name (Some text) None.
Definition epr_add_selector_epr (e : epr_t) (name : string) (added : option epr_t) :=
  epr_add_selector e name None added.

Fixpoint selector_index (name : string) (l : list key_value_t) (i : nat) : option (option nat) :=
  match l with
  | [] => Some None
  | KeyValue k _ :: l =>
      eq ← ptr_eqb (CStr name) k;
      if eq : bool then Some (Some i) else selector_index name l (S i)
  end.

(** When the last selector goes, [realloc(selectors, 0)] frees the array and
    returns NULL, which is taken for a failure: the count stays 1 and the
    array is dangling. *)
Definition epr_delete_selector (e : epr_t) (name : string) : option (Z * epr_t) :=
  found ← selector_index name (selectors e) 0;
  match found with
  | None => Some (-1, e)
  | Some i =>
      kv ← selectors e !! i;
      _ ← key_value_destroy epr_destroy kv;
      if decide (length (selectors e) = 1)%nat then
        Some (-1, Epr (address e) (epr_uri e) [KeyValue CInvalid (VText CInvalid)])
      else Some (0, Epr (address e) (epr_uri e) (delete i (selectors e)))
  end.

Section Compare.
Context (cmp : epr_t → epr_t → option Z).

(** The inner comparison of two selectors: 1 for a match. *)
Definition selector_matches (p1 p2 : key_value_t) : option Z :=
  match p1, p2 with
  | KeyValue k1 v1, KeyValue k2 v2 =>
      keq ← ptr_eqb k1 k2;
      if negb keq then Some 0
      else match v1, v2 with
           | VText t1, VText t2 => teq ← ptr_eqb t1 t2; Some (if teq : bool then 1 else 0)
           | VEpr (Some e1), VEpr (Some e2) => r ← cmp e1 e2; Some (if r =? 1 then 0 else 1)
           | VEpr _, VEpr _ => None
           | _, _ => Some 0
           end
  end.

Fixpoint count_matches (p1 : key_value_t) (l : list key_value_t) : option Z :=
  match l with
  | [] => Some 0
  | p2 :: l => m ← selector_matches p1 p2; r ← count_matches p1 l; Some (m + r)
  end.
End Compare.

(** Both pointers of the inner loop run over the selectors of the first
    reference. *)
Fixpoint epr_cmp (epr1 epr2 : epr_t) : option Z :=
  match epr1 with
  | Epr _ u1 sel1 =>
      ueq ← ptr_eqb u1 (epr_uri epr2);
      if negb ueq then Some 1
      else if negb (Nat.eqb (length sel1) (length (selectors epr2))) then Some 1
      else
        ms ← mapM (λ p1, count_matches epr_cmp p1 sel1) sel1;
        Some (if foldr Z.add 0 ms =? Z.of_nat (length sel1) then 0 else 1)
  end.

(** ** Printing *)

Section Print.
Context (print : epr_t → option string).

(** What a selector's value adds to the computed length, and what is written
    for it. *)
Definition value_string (v : kv_val) : option (option string) :=
  match v with
  | VText t => s ← deref t; Some (Some s)
  | VEpr None => Some None
  | VEpr (Some e) => s ← print e; Some (Some s)
  end.

Definition selector_length (kv : key_value_t) : option Z :=
  match kv with
  | KeyValue k v =>
      k ← deref k;
      value_string v ≫= λ s : option string,
      Some (Z.of_nat (String.length k) + 1 +
            match s with Some s => Z.of_nat (String.length s) + 1 | None => 0 end)
  end.

Definition selector_string (first : bool) (kv : key_value_t) : option string :=
  match kv with
  | KeyValue k v =>
      k ← deref k;
      value_string v ≫= λ s : option string,
      Some ((if first then "?" else "&") +:+ k +:+ "=" +:+ default "" s)
  end.
End Print.

Fixpoint concat_strings (l : list string) : string :=
  match l with [] => "" | s :: l => s +:+ concat_strings l end.

(** The buffer has room for the computed length and a terminator. *)
Fixpoint epr_to_string (e : epr_t) : option string :=
  match e with
  | Epr _ u sel =>
      u ← deref u;
      lens ← mapM (selector_length epr_to_string) sel;
      let len := Z.of_nat (String.length u) + foldr Z.add 0 lens in
      parts ← (match sel with
               | [] => Some []
               | kv :: sel =>
                   p ← selector_string epr_to_string true kv;
                   ps ← mapM (selector_string epr_to_string false) sel;
                   Some (p :: ps)
               end);
      let buf := u +:+ concat_strings parts in
      assert! Z.of_nat (String.length buf) <=? len;
      Some buf
  end.

Fixpoint get_cimnamespace_from_selectorset (l : list key_value_t) : option cstr :=
  match l with
  | [] => Some CNull
  | KeyValue k v :: l =>
      eq ← ptr_eqb k (CStr CIM_NAMESPACE_SELECTOR);
      if eq : bool then match v with VText t => Some t | VEpr _ => Some CInvalid end
      else get_cimnamespace_from_selectorset l
  end.

(** [scan] is the order in which the tables of the selectors are visited. *)
Definition epr_from_string (scan : list (string * string) → list (string * string)) (str : string)
  : option epr_t :=
  match strchr str (chr 63) with
  | None => epr_create str None None
  | Some p =>
      let uri := str_before str p in
      let query := match p with String _ q => q | EmptyString => "" end in
      match u_parse_query (Some query) with
      | None => epr_create uri None None
      | Some h => epr_create uri (Some ((λ kv, (kv.1, VText (CStr kv.2))) <$> scan h)) None
      end
  end.

(** ** XML *)

Section Serialize.
Context {LX : Libxml2}.

(** A NULL string adds no text; an invalid pointer must not be passed. *)
Definition c_val (c : cstr) : option (option string) :=
  match c with CInvalid => None | CNull => Some None | CStr s => Some (Some s) end.

Definition add_child_ptr (node : xnode) (ns name : string) (v : cstr) : option xnode :=
  v ← c_val v; Some (ws_xml_add_child node (Some ns) name v).

Section Selectors.
Context (serialize : epr_t → xnode → option xnode).

Definition selector_element (kv : key_value_t) : option xnode :=
  match kv with
  | KeyValue k v =>
      temp ←
        (match v with
         | VText t => c_val t ≫= λ t : option string, Some (xmlNewNodeContent (Some XML_NS_WS_MAN) WSM_SELECTOR t)
         | VEpr None => Some (xmlNewNodeContent (Some XML_NS_WS_MAN) WSM_SELECTOR None)
         | VEpr (Some e) => serialize e (xmlNewNodeContent (Some XML_NS_WS_MAN) WSM_SELECTOR None)
         end);
      c_val k ≫= λ k : option string,
      Some (ws_xml_add_node_attr temp None WSM_NAME k)
  end.

(** The resource URI and the selector set, added below [rp]. *)
Definition add_refparams (uri : cstr) (sel : list key_value_t) (rp : xnode) : option xnode :=
  rp ← add_child_ptr rp XML_NS_WS_MAN WSM_RESOURCE_URI uri;
  els ← mapM selector_element sel;
  Some (add_node rp (foldl add_node (xmlNewNodeContent (Some XML_NS_WS_MAN) WSM_SELECTOR_SET None) els)).
End Selectors.

(** The result is the node the reference was added to.  Without the embedded
    form, the reference parameters go to [node] itself. *)
Fixpoint epr_serialize (e : epr_t) (ns name : option string) (embedded : bool) (node : xnode)
  : option xnode :=
  match e with
  | Epr a u sel =>
      let refparams :=
        add_refparams (λ e, epr_serialize e (Some XML_NS_ADDRESSING) (Some WSA_EPR) true) u sel in
      let with_address n :=
        add_child_ptr n XML_NS_ADDRESSING (if embedded then WSA_ADDRESS else WSA_TO) a in
      let new_refparams :=
        refparams (xmlNewNodeContent (Some XML_NS_ADDRESSING) WSA_REFERENCE_PARAMETERS None) in
      match name with
      | Some name =>
          eprnode ← with_address (xmlNewNodeContent ns name None);
          if embedded then rp ← new_refparams; Some (add_node node (add_node eprnode rp))
          else refparams (add_node node eprnode)
      | None =>
          eprnode ← with_address node;
          if embedded then rp ← new_refparams; Some (add_node eprnode rp)
          else refparams eprnode
      end
  end.

(** The i-th selector: a key that is not there stays uninitialised. *)
Definition deserialize_selector (deserialize : xnode → option (option epr_t))
    (selectorset : option xnode) (i : nat) : option key_value_t :=
  let temp := ws_xml_get_child selectorset (Z.of_nat i) (Some XML_NS_WS_MAN) (Some WSM_SELECTOR) in
  key ← (match temp, ws_xml_find_node_attr temp None WSM_NAME with
         | Some n, Some a => s ← ws_xml_get_attr_value n a; Some (CStr s)
         | _, _ => Some CInvalid
         end);
  match temp, child temp XML_NS_ADDRESSING WSA_EPR with
  | Some n, Some _ => e ← deserialize n; Some (KeyValue key (VEpr e))
  | _, _ => Some (KeyValue key (VText (CStr (ws_xml_get_node_text_safe temp))))
  end.

Fixpoint epr_deserialize_fuel (fuel : nat) (ns name : option string) (embedded : bool) (node : xnode)
  : option (option epr_t) :=
  match fuel with
  | O => None
  | S f =>
      let eprnode := match name with
                     | Some _ => ws_xml_get_child (Some node) 0 ns name
                     | None => Some node
                     end in
      let addr := child eprnode XML_NS_ADDRESSING (if embedded then WSA_ADDRESS else WSA_TO) in
      let refparamnode :=
        if embedded then child eprnode XML_NS_ADDRESSING WSA_REFERENCE_PARAMETERS else Some node in
      let uri := child refparamnode XML_NS_WS_MAN WSM_RESOURCE_URI in
      match eprnode, addr, refparamnode, uri with
      | Some _, Some _, Some _, Some _ =>
          let selectorset := child refparamnode XML_NS_WS_MAN WSM_SELECTOR_SET in
          sel ← mapM (deserialize_selector
                        (epr_deserialize_fuel f (Some XML_NS_ADDRESSING) (Some WSA_EPR) true) selectorset)
                  (seq 0 (Z.to_nat (ws_xml_get_child_count selectorset)));
          Some (Some (Epr (CStr (ws_xml_get_node_text_safe addr)) (CStr (ws_xml_get_node_text_safe uri)) sel))
      | _, _, _, _ => Some None
      end
  end.

Fixpoint xdepth (n : xnode) : nat :=
  match n with
  | XOther _ => O
  | XElement _ _ _ c =>
      S ((fix go (c : list xnode) : nat :=
            match c with [] => O | n :: c => Nat.max (xdepth n) (go c) end) c)
  end.

(** Nested references are deeper in the tree. *)
Definition epr_deserialize (ns name : option string) (embedded : bool) (node : xnode)
  : option (option epr_t) :=
  epr_deserialize_fuel (S (xdepth node)) ns name embedded node.
End Serialize.

(** ** Complete references: every string is there, at every level *)

Section Complete.
Context (complete : epr_t → bool).

Definition ptr_valid (c : cstr) : bool := match c with CStr _ => true | _ => false end.

Definition kv_complete (kv : key_value_t) : bool :=
  match kv with
  | KeyValue k v =>
      ptr_valid k &&
      match v with
      | VText t => ptr_valid t
      | VEpr None => false
      | VEpr (Some e) => complete e
      end
  end.
End Complete.

Fixpoint epr_complete (e : epr_t) : bool :=
  match e with
  | Epr a u sel => ptr_valid a && ptr_valid u && forallb (kv_complete epr_complete) sel
  end.

Definition nested (P : epr_t → Prop) (kv : key_value_t) : Prop :=
  match kv with KeyValue _ (VEpr (Some e)) => P e | _ => True end.

Lemma epr_induction (P : epr_t → Prop) :
  (∀ a u sel, Forall (nested P) sel → P (Epr a u sel)) → ∀ e, P e.
Proof.
  intros H. fix IH 1. intros [a u sel]. apply H.
  induction sel as [|[k0 [t|[e0|]]] sel IHs]; constructor; try exact IHs; try exact I. apply IH.
Qed.

Lemma forallb_Forall {A} (f : A → bool) l : forallb f l = true ↔ Forall (λ x, f x = true) l.
Proof.
  induction l as [|x l IH]; simpl; [split; [constructor|done]|].
  by rewrite andb_true_iff, Forall_cons, IH.
Qed.

(** A complete reference, with its strings. *)
Lemma complete_inv a u sel :
  epr_complete (Epr a u sel) = true →
  ∃ a' u', a = CStr a' ∧ u = CStr u' ∧ Forall (λ kv, kv_complete epr_complete kv = true) sel.
Proof.
  destruct a as [| |a], u as [| |u]; simpl; try done. rewrite forallb_Forall. intros H. by exists a, u.
Qed.

Lemma kv_complete_inv kv :
  kv_complete epr_complete kv = true →
  ∃ k, (∃ t, kv = KeyValue (CStr k) (VText (CStr t))) ∨
       (∃ e, kv = KeyValue (CStr k) (VEpr (Some e)) ∧ epr_complete e = true).
Proof.
  destruct kv as [[| |k] [[| |t]|[e|]]]; simpl; try done; intros H; exists k; eauto.
Qed.

Lemma mapM_id {A} (f : A → option A) l : Forall (λ x, f x = Some x) l → mapM f l = Some l.
Proof. induction 1 as [|x l Hx _ IH]; simpl; [done|]. by rewrite Hx; simpl; rewrite IH. Qed.

(** [epr_copy] makes an equal reference, and never fails, on complete ones. *)
Lemma epr_copy_id e : epr_complete e = true → epr_copy e = Some e.
Proof.
  induction e as [a u sel IH] using epr_induction. intros (a' & u' & -> & -> & Hs)%complete_inv.
  simpl. rewrite (mapM_id _ sel); [done|]. clear -IH Hs. induction Hs as [|kv sel Hkv _ IHs]; [constructor|].
  apply Forall_cons in IH as [Hn IH]. constructor; [|by apply IHs].
  apply kv_complete_inv in Hkv as (k & [(t & ->)|(e & -> & He)]); simpl; [done|].
  by rewrite (Hn He).
Qed.

Lemma epr_destroy_complete e : epr_complete e = true → epr_destroy e = Some tt.
Proof.
  induction e as [a u sel IH] using epr_induction. intros (a' & u' & -> & -> & Hs)%complete_inv.
  simpl. assert (is_Some (mapM (key_value_destroy epr_destroy) sel)) as [x ->]; [|done].
  apply mapM_is_Some. clear -IH Hs. induction Hs as [|kv sel Hkv _ IHs]; [constructor|].
  apply Forall_cons in IH as [Hn IH]. constructor; [|by apply IHs].
  apply kv_complete_inv in Hkv as (k & [(t & ->)|(e & -> & He)]); simpl; [by eexists|].
  by rewrite (Hn He); eexists.
Qed.

(** ** The selector set as a map *)

#[global] Instance cstr_eq_dec : EqDecision cstr.
Proof. solve_decision. Defined.

Definition keys (sel : list key_value_t) : list cstr := kv_key <$> sel.

(** Complete, and no two selectors of a reference share a name, at every
    level. *)
Fixpoint epr_wf (e : epr_t) : bool :=
  match e with
  | Epr a u sel =>
      ptr_valid a && ptr_valid u && forallb (kv_complete epr_wf) sel && bool_decide (NoDup (keys sel))
  end.

Lemma epr_wf_inv a u sel :
  epr_wf (Epr a u sel) = true →
  ∃ a' u', a = CStr a' ∧ u = CStr u' ∧ Forall (λ kv, kv_complete epr_wf kv = true) sel ∧ NoDup (keys sel).
Proof.
  destruct a as [| |a], u as [| |u]; simpl; try done.
  rewrite andb_true_iff, forallb_Forall, bool_decide_eq_true. intros [H1 H2]. by exists a, u.
Qed.

Lemma kv_wf_inv kv :
  kv_complete epr_wf kv = true →
  ∃ k, (∃ t, kv = KeyValue (CStr k) (VText (CStr t))) ∨
       (∃ e, kv = KeyValue (CStr k) (VEpr (Some e)) ∧ epr_wf e = true).
Proof.
  destruct kv as [[| |k] [[| |t]|[e|]]]; simpl; try done; intros H; exists k; eauto.
Qed.

Lemma epr_wf_complete e : epr_wf e = true → epr_complete e = true.
Proof.
  induction e as [a u sel IH] using epr_induction.
  intros (a' & u' & -> & -> & Hs & _)%epr_wf_inv. simpl. apply forallb_Forall.
  induction Hs as [|kv sel Hkv _ IHs]; constructor; apply Forall_cons in IH as [Hn IH]; [|by apply IHs].
  apply kv_wf_inv in Hkv as (k & [(t & ->)|(e & -> & He)]); simpl; [done|]. by apply Hn.
Qed.

Lemma ptr_eqb_str a b : ptr_eqb (CStr a) (CStr b) = Some (bool_decide (a = b)).
Proof. unfold ptr_eqb. simpl. f_equal. destruct (str_eqb_spec a b); by case_bool_decide. Qed.

(** ** Comparison *)

Lemma count_matches_other cmp k v l :
  CStr k ∉ keys l → Forall (λ kv, kv_complete epr_wf kv = true) l →
  count_matches cmp (KeyValue (CStr k) v) l = Some 0.
Proof.
  induction l as [|kv l IH]; intros Hk Hs; [done|]. apply not_elem_of_cons in Hk as [Hk Hks].
  apply Forall_cons in Hs as [Hkv Hs]. cbn [count_matches].
  apply kv_wf_inv in Hkv as (k' & [(t & ->)|(e & -> & He)]); cbn [selector_matches kv_key] in *;
    rewrite ptr_eqb_str, bool_decide_eq_false_2 by congruence; simpl; by rewrite IH.
Qed.

Lemma count_matches_self p l :
  p ∈ l → NoDup (keys l) → Forall (λ kv, kv_complete epr_wf kv = true) l →
  selector_matches epr_cmp p p = Some 1 →
  count_matches epr_cmp p l = Some 1.
Proof.
  induction l as [|q l IH]; intros Hp Hn Hs Hpp; [by apply not_elem_of_nil in Hp|].
  apply NoDup_cons in Hn as [Hk Hn]; apply Forall_cons in Hs as [Hq Hs]; cbn [count_matches].
  apply elem_of_cons in Hp as [->|Hp].
  - rewrite Hpp. simpl. apply kv_wf_inv in Hq as (k & Hq).
    destruct q as [kp v]. destruct Hq as [(t & [= -> ->])|(e & [= -> ->] & _)];
      by rewrite count_matches_other.
  - assert (Hne : kv_key p ≠ kv_key q) by (intros Heq; apply Hk; rewrite <- Heq; by apply list_elem_of_fmap_2).
    assert (Hpw : kv_complete epr_wf p = true) by (rewrite Forall_forall in Hs; by apply Hs).
    apply kv_wf_inv in Hq as (k & Hq). apply kv_wf_inv in Hpw as (kp & Hpw).
    assert (Hm : selector_matches epr_cmp p q = Some 0).
    { destruct Hq as [(t & ->)|(e & -> & He)], Hpw as [(t' & ->)|(e' & -> & He')];
        cbn [selector_matches kv_key] in *;
        by rewrite (ptr_eqb_str kp k), bool_decide_eq_false_2 by congruence. }
    rewrite Hm. simpl. by rewrite IH.
Qed.

Lemma sum_ones {A} (l : list A) : foldr Z.add 0 ((λ _, 1) <$> l) = Z.of_nat (length l).
Proof. induction l as [|x l IH]; [done|]. cbn [fmap list_fmap foldr length]. rewrite IH. lia. Qed.

Lemma mapM_const {A B} (f : A → option B) b l :
  Forall (λ x, f x = Some b) l → mapM f l = Some ((λ _, b) <$> l).
Proof. induction 1 as [|x l Hx _ IH]; simpl; [done|]. by rewrite Hx; simpl; rewrite IH. Qed.

Lemma epr_cmp_eq epr1 epr2 u1 u2 :
  epr_wf epr1 = true → epr_uri epr1 = CStr u1 → epr_uri epr2 = CStr u2 →
  epr_cmp epr1 epr2 =
  Some (if decide (u1 = u2 ∧ length (selectors epr1) = length (selectors epr2)) then 0 else 1).
Proof.
  revert epr2 u1 u2. induction epr1 as [a u sel IH] using epr_induction.
  intros epr2 u1 u2 (a' & u' & -> & -> & Hs & Hn)%epr_wf_inv [= ->] Hu2. cbn [epr_cmp selectors].
  rewrite Hu2, ptr_eqb_str. simpl. case_bool_decide as Hu; simpl; [|by rewrite decide_False by naive_solver].
  destruct (Nat.eqb_spec (length sel) (length (selectors epr2))) as [Hl|Hl]; simpl;
    [|by rewrite decide_False by naive_solver].
  rewrite decide_True by done. rewrite (mapM_const _ 1).
  - simpl. by rewrite sum_ones, Z.eqb_refl.
  - apply Forall_forall. intros p Hp. apply count_matches_self; [done..|].
    rewrite Forall_forall in IH, Hs. specialize (IH p Hp). specialize (Hs p Hp).
    apply kv_wf_inv in Hs as (k & [(t & ->)|(e & -> & He)]); cbn [selector_matches nested] in *;
      rewrite (ptr_eqb_str k k), bool_decide_eq_true_2 by done; cbn [mbind option_bind negb].
    + by rewrite ptr_eqb_str, bool_decide_eq_true_2.
    + destruct e as [ea [| |eu] esel]; [by apply epr_wf_complete, complete_inv in He as (?&?&?&?&?)..|].
      by rewrite (IH _ eu eu), decide_True.
Qed.

(** [epr_cmp] compares the selectors of the first reference with
    themselves: two references to the same resource with the same number of
    selectors compare equal whatever the selectors are. *)
Theorem epr_cmp_ignores_selectors epr1 epr2 u1 u2 :
  epr_wf epr1 = true → epr_uri epr1 = CStr u1 → epr_uri epr2 = CStr u2 →
  epr_cmp epr1 epr2 = Some 0 ↔ u1 = u2 ∧ length (selectors epr1) = length (selectors epr2).
Proof. intros H1 H2 H3. rewrite (epr_cmp_eq _ _ u1 u2) by done. case_decide; naive_solver. Qed.

(** ** The buffer of [epr_to_string] *)

(** 1 for a selector whose reference is NULL. *)
Definition null_value (kv : key_value_t) : Z :=
  match kv with KeyValue _ (VEpr None) => 1 | _ => 0 end.

Definition total (l : list Z) : Z := foldr Z.add 0 l.
Definition str_len (s : string) : Z := Z.of_nat (String.length s).

Lemma str_len_app a b : str_len (a +:+ b) = str_len a + str_len b.
Proof. unfold str_len. rewrite str_length_app. lia. Qed.

Lemma selector_written print b kv n :
  selector_length print kv = Some n →
  ∃ s, selector_string print b kv = Some s ∧ str_len s = n + null_value kv.
Proof.
  destruct kv as [[| |k] v]; try done. cbn [selector_length selector_string deref mbind option_bind].
  destruct (value_string print v) as [o|] eqn:E; [|done]. intros [= <-]. eexists. split; [done|].
  rewrite !str_len_app. unfold str_len at 1 3.
  replace (Z.of_nat (String.length (if b then "?" else "&"))) with 1 by (by destruct b).
  destruct v as [t|[e|]]; simpl in E; simplify_eq/=; [destruct (deref t) as [s|]|destruct (print e) as [s|]|];
    simplify_eq/=; unfold str_len; cbn [String.length]; lia.
Qed.

Lemma selectors_written print b sel : ∀ lens,
  mapM (selector_length print) sel = Some lens →
  ∃ parts, mapM (selector_string print b) sel = Some parts ∧
    str_len (concat_strings parts) = total lens + total (null_value <$> sel).
Proof.
  induction sel as [|kv sel IH]; intros lens Hl; [injection Hl as <-; by exists []|].
  cbn [mapM] in *. bind_inv Hl. injection Hl as <-.
  destruct (selector_written print b kv _ E) as (s & Hs & Hn). destruct (IH _ E0) as (ps & Hp & Ht).
  cbn [fmap list_fmap]. unfold total in *. exists (s :: ps). split; [by rewrite Hs; simpl; rewrite Hp|].
  cbn [concat_strings foldr]. rewrite str_len_app. lia.
Qed.

Lemma epr_to_string_defined a u sel :
  is_Some (epr_to_string (Epr a (CStr u) sel)) ↔
  is_Some (mapM (selector_length epr_to_string) sel) ∧ total (null_value <$> sel) ≤ 0.
Proof.
  cbn [epr_to_string deref mbind option_bind].
  destruct (mapM (selector_length epr_to_string) sel) as [lens|] eqn:E; cbn [mbind option_bind];
    [|split; [by intros [? [=]]|by intros [[? [=]] _]]].
  assert (∃ parts, match sel with
               | [] => Some []
               | kv :: sel =>
                   p ← selector_string epr_to_string true kv;
                   ps ← mapM (selector_string epr_to_string false) sel;
                   Some (p :: ps)
               end = Some parts ∧
    str_len (concat_strings parts) = total lens + total (null_value <$> sel)) as (parts & -> & Hp).
  { destruct sel as [|kv sel]; [injection E as <-; by exists []|]. cbn [mapM] in E. bind_inv E.
    injection E as <-. destruct (selector_written epr_to_string true kv _ E0) as (s & -> & Hn).
    destruct (selectors_written epr_to_string false sel _ E1) as (ps & -> & Ht).
    eexists. split; [done|]. cbn [concat_strings fmap list_fmap]. unfold total in *. cbn [foldr].
    rewrite str_len_app. lia. }
  cbn [mbind option_bind]. fold (total lens). pose proof (str_len_app u (concat_strings parts)) as Ha.
  unfold str_len in *. unfold c_assert.
  destruct (Z.leb_spec (Z.of_nat (String.length (u +:+ concat_strings parts)))
              (Z.of_nat (String.length u) + total lens)); simpl.
  - split; [|by eexists]. intros _. split; [by eexists|lia].
  - split; [by intros [? [=]]|]. intros [_ ?]. lia.
Qed.

(** Every string is there; references in selectors may be NULL. *)
Section Valid.
Context (valid : epr_t → bool).
Definition kv_strings (kv : key_value_t) : bool :=
  match kv with
  | KeyValue k v =>
      ptr_valid k && match v with VText t => ptr_valid t | VEpr None => true | VEpr (Some e) => valid e end
  end.
End Valid.

Fixpoint epr_strings (e : epr_t) : bool :=
  match e with
  | Epr a u sel => ptr_valid a && ptr_valid u && forallb (kv_strings epr_strings) sel
  end.

Lemma null_values_nonneg sel : 0 ≤ total (null_value <$> sel).
Proof.
  induction sel as [|[k [t|[e|]]] sel IH]; unfold total in *; cbn [fmap list_fmap foldr null_value]; lia.
Qed.

(** [epr_to_string] stays inside the buffer it allocates exactly when no
    selector, at any level, holds a NULL reference; for such a selector the
    equals sign it writes was not counted. *)
Theorem epr_to_string_in_bounds e :
  epr_strings e = true → is_Some (epr_to_string e) ↔ epr_complete e = true.
Proof.
  induction e as [a u sel IH] using epr_induction. intros Hv.
  destruct a as [| |a], u as [| |u]; simpl in Hv; try done.
  rewrite epr_to_string_defined, mapM_is_Some. cbn [epr_complete ptr_valid andb].
  induction sel as [|[k v] sel IHs]; [simpl; split; [done|]; split; [constructor|done]|].
  apply Forall_cons in IH as [Hn IH]. cbn [forallb] in *.
  apply andb_true_iff in Hv as [Hkv Hv]. rewrite andb_true_iff, <- (IHs IH Hv), Forall_cons.
  pose proof (null_values_nonneg sel). cbn [kv_strings kv_complete] in *.
  destruct k as [| |k]; try done. cbn [ptr_valid andb] in *.
  unfold total in *. cbn [fmap list_fmap foldr null_value].
  destruct v as [[| |t]|[e|]]; try done; simpl.
  - split; [intros ((_ & ?) & ?)|intros [_ [??]]]; split_and!; try done; by eexists.
  - rewrite <- (Hn Hkv). destruct (epr_to_string e) as [s|]; simpl.
    + split; [intros ((_ & ?) & ?)|intros [_ [??]]]; split_and!; try done; by eexists.
    + split; [intros (([? [=]] & _) & _)|intros [[? [=]] _]].
  - split; [|by intros [[=] _]]. intros ((_ & ?) & ?). lia.
Qed.

(** ** The set of selectors *)

Lemma has_key_spec name sel :
  Forall (λ kv, kv_complete epr_wf kv = true) sel →
  has_key name sel = Some (bool_decide (CStr name ∈ keys sel)).
Proof.
  induction 1 as [|kv sel Hkv _ IH]; [done|].
  apply kv_wf_inv in Hkv as (k & Hk).
  assert (has_key name (kv :: sel) =
    (ptr_eqb (CStr name) (CStr k) ≫= λ b : bool, if b then Some true else has_key name sel)) as ->
    by (by destruct Hk as [(t & ->)|(e & -> & _)]).
  assert (keys (kv :: sel) = CStr k :: keys sel) as -> by (by destruct Hk as [(t & ->)|(e & -> & _)]).
  rewrite ptr_eqb_str. cbn [mbind option_bind]. destruct (bool_decide_reflect (name = k)) as [->|Hc].
  - rewrite bool_decide_eq_true_2; [done|]. rewrite elem_of_cons. by left.
  - rewrite IH. f_equal. apply bool_decide_ext. rewrite elem_of_cons. naive_solver.
Qed.

Lemma epr_wf_eq a u sel :
  Forall (λ kv, kv_complete epr_wf kv = true) sel → NoDup (keys sel) →
  epr_wf (Epr (CStr a) (CStr u) sel) = true.
Proof. intros Hs Hn. simpl. rewrite (proj2 (forallb_Forall _ _) Hs). by apply bool_decide_eq_true. Qed.

Lemma selector_by_name_app name sel kv :
  Forall (λ kv, kv_complete epr_wf kv = true) sel → CStr name ∉ keys sel →
  selector_by_name_loop name (sel ++ [kv]) = selector_by_name_loop name [kv].
Proof.
  induction 1 as [|kv' sel Hkv _ IH]; [done|]. intros [Hk Hks]%not_elem_of_cons.
  apply kv_wf_inv in Hkv as (k & [(t & ->)|(e & -> & _)]); cbn [app selector_by_name_loop kv_key] in *;
    rewrite (ptr_eqb_str k name), bool_decide_eq_false_2 by congruence; cbn [mbind option_bind];
    by apply IH.
Qed.

(** C36: adding a text selector to a well-formed reference keeps it well-formed:
    a name already in use is refused and leaves it unchanged, otherwise the
    selector is appended and can be looked up. *)
Theorem epr_add_selector_spec e name text :
  epr_wf e = true →
  ∃ r e', epr_add_selector_text e name text = Some (r, e') ∧ epr_wf e' = true ∧
    (if decide (CStr name ∈ keys (selectors e)) then r = -1 ∧ e' = e
     else r = 0 ∧ selectors e' = selectors e ++ [KeyValue (CStr name) (VText (CStr text))] ∧
          wsman_epr_selector_by_name e' name = Some (Some text)).
Proof.
  destruct e as [a u sel]. intros He.
  destruct (epr_wf_inv _ _ _ He) as (a' & u' & -> & -> & Hs & Hn).
  unfold epr_add_selector_text, epr_add_selector. cbn [selectors]. rewrite has_key_spec by done.
  cbn [mbind option_bind]. destruct (decide (CStr name ∈ keys sel)) as [Hc|Hc];
    [rewrite bool_decide_eq_true_2 by done|rewrite bool_decide_eq_false_2 by done].
  - by exists (-1), (Epr (CStr a') (CStr u') sel).
  - eexists _, _. split; [done|]. cbn [selectors address epr_uri of_option]. split_and!; try done.
    + apply epr_wf_eq; [apply Forall_app; by repeat constructor|]. unfold keys. rewrite fmap_app.
      apply NoDup_app. split_and!; [done| |repeat constructor; apply not_elem_of_nil].
      intros x Hx Hx'%list_elem_of_singleton. by subst.
    + unfold wsman_epr_selector_by_name. cbn [selectors]. rewrite selector_by_name_app by done.
      cbn [selector_by_name_loop]. by rewrite ptr_eqb_str, bool_decide_eq_true_2.
Qed.

Lemma selector_index_spec name sel : ∀ i,
  Forall (λ kv, kv_complete epr_wf kv = true) sel →
  match selector_index name sel i with
  | None => False
  | Some None => CStr name ∉ keys sel
  | Some (Some j) => ∃ d kv, j = (i + d)%nat ∧ sel !! d = Some kv ∧ kv_key kv = CStr name
  end.
Proof.
  induction sel as [|kv sel IH]; intros i Hs; [apply not_elem_of_nil|].
  apply Forall_cons in Hs as [Hkv Hs]. apply kv_wf_inv in Hkv as (k & Hk).
  assert (Hkk : kv_key kv = CStr k) by (by destruct Hk as [(t & ->)|(e & -> & _)]).
  destruct kv as [kk v]. simpl in Hkk. subst kk. cbn [selector_index].
  rewrite ptr_eqb_str. cbn [mbind option_bind]. case_bool_decide as Hc.
  - subst. exists O, (KeyValue (CStr k) v). split_and!; [lia|done..].
  - specialize (IH (S i) Hs). destruct (selector_index name sel (S i)) as [[j|]|]; [|..|done].
    + destruct IH as (d & kv & -> & Hd & Hkv). exists (S d), kv. split_and!; [lia|done..].
    + unfold keys. rewrite fmap_cons, not_elem_of_cons. split; [simpl; congruence|done].
Qed.

(** Deleting a selector of a well-formed reference with several of them
    removes exactly that one; deleting the only selector frees it, reports a
    failure and leaves the reference with a dangling array, which can be
    neither printed nor destroyed. *)
Theorem epr_delete_selector_spec e name :
  epr_wf e = true → CStr name ∈ keys (selectors e) →
  ∃ r e', epr_delete_selector e name = Some (r, e') ∧
    if decide (length (selectors e) = 1)%nat
    then r = -1 ∧ epr_to_string e' = None ∧ epr_destroy e' = None
    else r = 0 ∧ epr_wf e' = true ∧ CStr name ∉ keys (selectors e') ∧
         S (length (selectors e')) = length (selectors e) ∧
         ∀ kv, kv_key kv ≠ CStr name → kv ∈ selectors e' ↔ kv ∈ selectors e.
Proof.
  destruct e as [a u sel]. intros He Hin.
  destruct (epr_wf_inv _ _ _ He) as (a' & u' & -> & -> & Hs & Hn). cbn [selectors] in *.
  unfold epr_delete_selector. cbn [selectors].
  pose proof (selector_index_spec name sel 0 Hs) as Hi.
  destruct (selector_index name sel 0) as [[j|]|]; [|done..].
  destruct Hi as (d & kv & -> & Hd & Hk). cbn [mbind option_bind Nat.add]. rewrite Hd. cbn [mbind option_bind].
  assert (Hkv : kv_complete epr_wf kv = true) by (by eapply Forall_lookup_1 in Hs).
  assert (key_value_destroy epr_destroy kv = Some tt) as ->.
  { apply kv_wf_inv in Hkv as (k & [(t & ->)|(e & -> & Hw)]); simpl; [done|].
    by rewrite epr_destroy_complete by (by apply epr_wf_complete). }
  cbn [mbind option_bind]. case_decide as Hl; [by eexists _, _|].
  eexists _, _. split; [done|]. cbn [selectors address epr_uri].
  pose proof (delete_Permutation _ _ _ Hd) as Hp.
  assert (Hnd : NoDup (kv_key kv :: keys (delete d sel))).
  { unfold keys. rewrite <- fmap_cons. by rewrite <- Hp. }
  rewrite Hk in Hnd. apply NoDup_cons in Hnd as [Hni Hnd].
  assert (Hw : Forall (λ kv, kv_complete epr_wf kv = true) (delete d sel)) by (by apply Forall_delete).
  split_and!; [done|by apply epr_wf_eq|done| |].
  - rewrite Hp at 2. done.
  - intros kv' Hne. rewrite Hp at 2. rewrite elem_of_cons. naive_solver.
Qed.

(** ** Reading references from XML terminates *)

Section Fuel.
Context {LX : Libxml2}.

Lemma xdepth_child n c : n ∈ x_children c → (xdepth n < xdepth c)%nat.
Proof.
  destruct c as [ns name props c|t]; [|by intros []%not_elem_of_nil].
  cbn [x_children xdepth]. induction c as [|x c IH]; [by intros []%not_elem_of_nil|].
  intros [->|Hn]%elem_of_cons; [lia|]. specialize (IH Hn). lia.
Qed.

Lemma get_child_depth p i ns name n :
  ws_xml_get_child p i ns name = Some n → ∃ c, p = Some c ∧ (xdepth n < xdepth c)%nat.
Proof.
  destruct p as [c|]; [|done]. intros (Hn & _)%ws_xml_get_child_elem. exists c. split; [done|].
  by apply xdepth_child.
Qed.

(** The depth of a handle. *)
Definition hdepth (n : option xnode) : nat := match n with Some n => xdepth n | None => O end.

Lemma child_depth p ns name : (hdepth (child p ns name) ≤ hdepth p)%nat.
Proof.
  destruct (child p ns name) as [n|] eqn:E; simpl; [|lia].
  apply get_child_depth in E as (c & -> & H). simpl. lia.
Qed.

Lemma deserialize_selector_ext d1 d2 sel i :
  (∀ n, (xdepth n < hdepth sel)%nat → d1 n = d2 n) →
  deserialize_selector d1 sel i = deserialize_selector d2 sel i.
Proof.
  intros Hd. unfold deserialize_selector.
  destruct (ws_xml_get_child sel (Z.of_nat i) _ _) as [n|] eqn:E; [|done].
  apply get_child_depth in E as (c & -> & Hn). rewrite (Hd n) by done. done.
Qed.

(** The fuel does not matter once it exceeds the depth of the tree, so the
    fuel of [epr_deserialize] is enough. *)
Lemma epr_deserialize_fuel_enough f1 : ∀ f2 ns name embedded node,
  (xdepth node < f1)%nat → (xdepth node < f2)%nat →
  epr_deserialize_fuel f1 ns name embedded node = epr_deserialize_fuel f2 ns name embedded node.
Proof.
  induction f1 as [|f1 IH]; intros [|f2] ns name embedded node H1 H2; [lia..|].
  cbn [epr_deserialize_fuel].
  set (eprnode := match name with Some _ => ws_xml_get_child (Some node) 0 ns name | None => Some node end).
  assert (He : (hdepth eprnode ≤ xdepth node)%nat).
  { unfold eprnode. destruct name as [name|]; [|done].
    destruct (ws_xml_get_child (Some node) 0 ns (Some name)) as [n|] eqn:E; simpl; [|lia].
    apply get_child_depth in E as (c & [= <-] & H). lia. }
  set (rp := if embedded then child eprnode XML_NS_ADDRESSING WSA_REFERENCE_PARAMETERS else Some node).
  assert (Hr : (hdepth rp ≤ xdepth node)%nat).
  { unfold rp. destruct embedded; [|done].
    pose proof (child_depth eprnode XML_NS_ADDRESSING WSA_REFERENCE_PARAMETERS). lia. }
  clearbody rp. destruct eprnode as [n|]; [|done].
  destruct (child (Some n) XML_NS_ADDRESSING _); [|done]. destruct rp as [r|]; [|done]. destruct (child _ XML_NS_WS_MAN WSM_RESOURCE_URI); [|done].
  rewrite (mapM_ext _ (deserialize_selector (epr_deserialize_fuel f2 (Some XML_NS_ADDRESSING) (Some WSA_EPR)
    true) (child (Some r) XML_NS_WS_MAN WSM_SELECTOR_SET))); [done|].
  intros i. apply deserialize_selector_ext. intros m Hm.
  pose proof (child_depth (Some r) XML_NS_WS_MAN WSM_SELECTOR_SET). simpl in *.
  apply IH; lia.
Qed.
End Fuel.

(** ** Serialising and reading back *)

Section RoundTrip.
Context {LX : Libxml2} {LL : Libxml2Laws}.

(** The element of a complete reference. *)
Fixpoint epr_element (ns : option string) (name : string) (e : epr_t) : xnode :=
  match e with
  | Epr a u sel =>
      XElement ns name []
        [text_node (Some XML_NS_ADDRESSING) WSA_ADDRESS (deref a);
         XElement (Some XML_NS_ADDRESSING) WSA_REFERENCE_PARAMETERS []
           [text_node (Some XML_NS_WS_MAN) WSM_RESOURCE_URI (deref u);
            XElement (Some XML_NS_WS_MAN) WSM_SELECTOR_SET []
              ((λ kv, match kv with
                      | KeyValue k v =>
                          XElement (Some XML_NS_WS_MAN) WSM_SELECTOR [XAttr None WSM_NAME (default "" (deref k))]
                            match v with
                            | VText t => x_children (text_node (Some XML_NS_WS_MAN) WSM_SELECTOR (deref t))
                            | VEpr (Some e) => [epr_element (Some XML_NS_ADDRESSING) WSA_EPR e]
                            | VEpr None => []
                            end
                      end) <$> sel)]]
  end.

Definition selector_tree (kv : key_value_t) : xnode :=
  match kv with
  | KeyValue k v =>
      XElement (Some XML_NS_WS_MAN) WSM_SELECTOR [XAttr None WSM_NAME (default "" (deref k))]
        match v with
        | VText t => x_children (text_node (Some XML_NS_WS_MAN) WSM_SELECTOR (deref t))
        | VEpr (Some e) => [epr_element (Some XML_NS_ADDRESSING) WSA_EPR e]
        | VEpr None => []
        end
  end.

Lemma epr_element_eq ns name a u sel :
  epr_element ns name (Epr a u sel) =
  XElement ns name []
    [text_node (Some XML_NS_ADDRESSING) WSA_ADDRESS (deref a);
     XElement (Some XML_NS_ADDRESSING) WSA_REFERENCE_PARAMETERS []
       [text_node (Some XML_NS_WS_MAN) WSM_RESOURCE_URI (deref u);
        XElement (Some XML_NS_WS_MAN) WSM_SELECTOR_SET [] (selector_tree <$> sel)]].
Proof. done. Qed.

Lemma mapM_fmap {A B} (f : A → option B) (g : A → B) l :
  Forall (λ x, f x = Some (g x)) l → mapM f l = Some (g <$> l).
Proof. induction 1 as [|x l Hx _ IH]; simpl; [done|]. by rewrite Hx; simpl; rewrite IH. Qed.

Lemma text_node_children ns name v :
  text_node ns name v = XElement ns name [] (x_children (text_node ns name v)).
Proof. by destruct (text_node_named ns name v) as [c ->]. Qed.

Lemma epr_serialize_tree e : ∀ ns name node,
  epr_complete e = true →
  epr_serialize e ns (Some name) true node = Some (add_node node (epr_element ns name e)).
Proof.
  induction e as [a u sel IH] using epr_induction. intros ns name node He.
  destruct (complete_inv _ _ _ He) as (a' & u' & -> & -> & Hs). rewrite epr_element_eq.
  cbn [epr_serialize]. unfold add_refparams, add_child_ptr. cbn [c_val mbind option_bind].
  rewrite (mapM_fmap _ selector_tree).
  - cbn [mbind option_bind]. unfold ws_xml_add_child. rewrite !new_node_empty. cbn [app].
    by rewrite foldl_add_node.
  - clear He. induction Hs as [|kv sel Hkv _ IHs]; [constructor|].
    apply Forall_cons in IH as [Hn IH]. constructor; [|by apply IHs].
    apply kv_complete_inv in Hkv as (k & [(t & ->)|(e & -> & He)]);
      cbn [selector_element nested c_val mbind option_bind selector_tree deref default] in *.
    + fold (text_node (Some XML_NS_WS_MAN) WSM_SELECTOR (Some t)).
      by rewrite (text_node_children _ _ (Some t)) at 1.
    + rewrite (Hn (Some XML_NS_ADDRESSING) WSA_EPR _ He). by rewrite new_node_empty.
Qed.

Lemma text_of_node ns name v : ws_xml_get_node_text_safe (Some (text_node ns name (Some v))) = v.
Proof. unfold ws_xml_get_node_text_safe, text_node. simpl. by rewrite new_node_text. Qed.

(** Below a text node there is no element. *)
Lemma text_children_no_child ns0 nm0 p ns name v ns' name' :
  child (Some (XElement ns0 nm0 p (x_children (text_node ns name v)))) ns' name' = None.
Proof.
  unfold child. rewrite ws_xml_get_child_matching by done. unfold matching. cbn [x_children].
  destruct (new_node_shape ns name v) as (c & E & Hc). unfold text_node. rewrite E. cbn [x_children].
  assert (element_children c = []) as ->; [|done].
  clear E. induction Hc as [|n c Hn _ IH]; [done|]. destruct n; [done|exact IH].
Qed.

Definition is_selector (n : xnode) : Prop :=
  is_element n = true ∧ ws_xml_is_node_qname (Some n) (Some XML_NS_WS_MAN) (Some WSM_SELECTOR) = true.

Lemma selector_tree_is_selector kv : is_selector (selector_tree kv).
Proof. by destruct kv. Qed.

Lemma selector_at sel i kv props :
  sel !! i = Some kv →
  ws_xml_get_child (Some (XElement (Some XML_NS_WS_MAN) WSM_SELECTOR_SET props (selector_tree <$> sel)))
    (Z.of_nat i) (Some XML_NS_WS_MAN) (Some WSM_SELECTOR) = Some (selector_tree kv).
Proof.
  intros Hi. rewrite ws_xml_get_child_matching, Nat2Z.id by lia. unfold matching. cbn [x_children].
  assert (filter (λ n, ws_xml_is_node_qname (Some n) (Some XML_NS_WS_MAN) (Some WSM_SELECTOR) = true)
            (element_children (selector_tree <$> sel)) = selector_tree <$> sel) as ->.
  { clear. induction sel as [|kv sel IH]; [done|]. rewrite fmap_cons. cbn [element_children].
    destruct (selector_tree_is_selector kv) as [-> Hq].
    by rewrite filter_cons_True, IH. }
  by rewrite list_lookup_fmap, Hi.
Qed.

Lemma selectorset_count props sel :
  ws_xml_get_child_count (Some (XElement (Some XML_NS_WS_MAN) WSM_SELECTOR_SET props (selector_tree <$> sel)))
  = Z.of_nat (length sel).
Proof.
  cbn [ws_xml_get_child_count x_children]. rewrite count_elements_length.
  assert (element_children (selector_tree <$> sel) = selector_tree <$> sel) as ->.
  { induction sel as [|kv sel IH]; [done|]. rewrite fmap_cons. cbn [element_children].
    destruct (selector_tree_is_selector kv) as [-> _]. by rewrite IH. }
  rewrite length_fmap. lia.
Qed.

Lemma mapM_seq_lookup {A} (f : nat → option A) (l : list A) : ∀ k,
  (∀ i x, l !! i = Some x → f (k + i)%nat = Some x) → mapM f (seq k (length l)) = Some l.
Proof.
  induction l as [|x l IH]; intros k H; [done|]. cbn [length seq mapM].
  rewrite <- (Nat.add_0_r k) at 1. rewrite (H O x) by done. cbn [mbind option_bind].
  rewrite (IH (S k)); [done|]. intros i y Hi. rewrite Nat.add_succ_comm. by apply H.
Qed.

Lemma eventually_Forall {A} (P : nat → A → Prop) l :
  Forall (λ x, ∃ f0, ∀ f, (f0 ≤ f)%nat → P f x) l →
  ∃ f0, ∀ f, (f0 ≤ f)%nat → Forall (P f) l.
Proof.
  induction 1 as [|x l [f1 H1] _ [f2 H2]]; [exists O; constructor|].
  exists (Nat.max f1 f2). intros f Hf. constructor; [apply H1; lia|apply H2; lia].
Qed.

(** The attribute and the value of one selector. *)
Lemma deserialize_selector_tree d sel i kv :
  sel !! i = Some kv → kv_complete epr_complete kv = true →
  match kv with
  | KeyValue _ (VEpr (Some e)) => d (selector_tree kv) = Some (Some e)
  | _ => True
  end →
  deserialize_selector d
    (Some (XElement (Some XML_NS_WS_MAN) WSM_SELECTOR_SET [] (selector_tree <$> sel))) i = Some kv.
Proof.
  intros Hi Hkv Hd. unfold deserialize_selector. rewrite (selector_at _ _ kv) by done.
  apply kv_complete_inv in Hkv as (k & [(t & ->)|(e & -> & He)]); cbn [selector_tree deref default] in *.
  all: unfold ws_xml_find_node_attr, ws_xml_get_attr_value; cbn [x_props find_attr_loop attr_matches xa_ns xa_name andb].
  all: rewrite str_eqb_refl, only_prop; cbn [mbind option_bind xa_children].
  - rewrite text_children_no_child. unfold ws_xml_get_node_text_safe. cbn [ws_xml_get_node_text mbind option_bind].
    rewrite (content_of_children _ _ _ (Some XML_NS_WS_MAN) WSM_SELECTOR []), <- text_node_children.
    unfold text_node. by rewrite new_node_text.
  - destruct e as [ea eu esel]. rewrite epr_element_eq, child_here, <- epr_element_eq, Hd. done.
Qed.

(** Reading the element back, with enough fuel. *)
Lemma epr_deserialize_tree e : ∀ ns name node,
  epr_complete e = true → ws_xml_get_child (Some node) 0 ns (Some name) = Some (epr_element ns name e) →
  ∃ f0, ∀ f, (f0 ≤ f)%nat → epr_deserialize_fuel f ns (Some name) true node = Some (Some e).
Proof.
  induction e as [a u sel IH] using epr_induction. intros ns name node He Hc.
  destruct (complete_inv _ _ _ He) as (a' & u' & -> & -> & Hs).
  assert (Hev : ∃ f0, ∀ f, (f0 ≤ f)%nat → Forall (λ kv,
    match kv with
    | KeyValue _ (VEpr (Some e)) =>
        epr_deserialize_fuel f (Some XML_NS_ADDRESSING) (Some WSA_EPR) true (selector_tree kv) = Some (Some e)
    | _ => True
    end) sel).
  { apply eventually_Forall. clear He Hc. induction Hs as [|kv sel Hkv _ IHs]; [constructor|].
    apply Forall_cons in IH as [Hn IH]. constructor; [|by apply IHs].
    apply kv_complete_inv in Hkv as (k & [(t & ->)|(e & -> & He)]); [by exists O|].
    apply Hn; [done|]. destruct e as [ea eu esel]. cbn [selector_tree deref]. rewrite epr_element_eq.
    apply child_here. }
  destruct Hev as [f0 Hf]. exists (S f0). intros [|f] Hle; [lia|]. specialize (Hf f ltac:(lia)).
  cbn [epr_deserialize_fuel]. rewrite Hc, epr_element_eq. cbn [deref].
  rewrite child_text_here, child_text_skip, child_here by (by right). rewrite child_text_here.
  rewrite child_text_skip, child_here by (by right). rewrite selectorset_count, Nat2Z.id.
  rewrite (mapM_seq_lookup _ sel); [by rewrite !text_of_node|].
  intros i kv Hi. rewrite Forall_forall in Hs, Hf. pose proof (list_elem_of_lookup_2 _ _ _ Hi).
  apply deserialize_selector_tree; [done|by apply Hs|by apply (Hf kv)].
Qed.

Lemma epr_deserialize_element e ns name node :
  epr_complete e = true → ws_xml_get_child (Some node) 0 ns (Some name) = Some (epr_element ns name e) →
  epr_deserialize ns (Some name) true node = Some (Some e).
Proof.
  intros He Hc. destruct (epr_deserialize_tree e ns name node He Hc) as [f0 Hf]. unfold epr_deserialize.
  rewrite (epr_deserialize_fuel_enough _ (S (Nat.max f0 (xdepth node)))) by lia. apply Hf. lia.
Qed.

(** A child added last is found when there was none of its name. *)
Lemma child_added ns0 nm0 props c ns name p cs :
  child (Some (XElement ns0 nm0 props c)) ns name = None →
  child (Some (XElement ns0 nm0 props (c ++ [XElement (Some ns) name p cs]))) ns name
  = Some (XElement (Some ns) name p cs).
Proof.
  unfold child. rewrite !ws_xml_get_child_matching by done. unfold matching. cbn [x_children].
  rewrite !element_children_filter, !filter_app. intros Hno%lookup_ge_None.
  rewrite lookup_app_r by (simpl in *; lia).
  replace (length _) with O by (simpl in *; lia).
  rewrite (filter_cons_True (λ n, is_element n = true)) by done.
  rewrite filter_cons_True; [done|]. unfold ws_xml_is_node_qname. cbn. by rewrite !str_eqb_refl.
Qed.

(** References survive a round trip through XML.  A complete reference,
    with references nested in selectors to any depth, serialised in embedded
    form below a node that has no such child yet, is read back unchanged. *)
Theorem epr_roundtrip e ns name ns0 nm0 props c :
  epr_complete e = true →
  ws_xml_get_child (Some (XElement ns0 nm0 props c)) 0 (Some ns) (Some name) = None →
  ∃ node, epr_serialize e (Some ns) (Some name) true (XElement ns0 nm0 props c) = Some node ∧
          epr_deserialize (Some ns) (Some name) true node = Some (Some e).
Proof.
  intros He Hno. eexists. split; [by apply epr_serialize_tree|].
  set (node := add_node _ _).
  assert (Hc : ws_xml_get_child (Some node) 0 (Some ns) (Some name) = Some (epr_element (Some ns) name e)).
  { unfold node. cbn [add_node]. destruct e as [a u sel]. rewrite epr_element_eq. by apply child_added. }
  by apply epr_deserialize_element.
Qed.
End RoundTrip.

(** ** Printing and reading back *)

Definition text_selector (kv : string * string) : key_value_t := KeyValue (CStr kv.1) (VText (CStr kv.2)).

(** What [epr_to_string] prints for text selectors. *)
Lemma epr_to_string_text a u kvs :
  epr_to_string (Epr a (CStr u) (text_selector <$> kvs)) =
  Some (u +:+ match kvs with [] => "" | _ => "?" +:+ join_pairs kvs end).
Proof.
  assert (Hd : is_Some (epr_to_string (Epr (CStr "") (CStr u) (text_selector <$> kvs)))).
  { apply epr_to_string_defined. split.
    - apply mapM_is_Some, Forall_fmap, Forall_true. intros kv. by eexists.
    - induction kvs as [|kv kvs IH]; [done|]. rewrite !fmap_cons. unfold total in *.
      cbn [foldr null_value text_selector]. lia. }
  destruct Hd as [s Hs]. assert (Hs' : epr_to_string (Epr a (CStr u) (text_selector <$> kvs)) = Some s) by done.
  rewrite Hs'. f_equal. clear Hs'. cbn [epr_to_string deref mbind option_bind] in Hs.
  apply bind_Some in Hs as (lens & _ & Hs). apply bind_Some in Hs as (parts & Hp & Hs).
  apply bind_Some in Hs as (_ & _ & [= <-]). f_equal.
  assert (Htail : ∀ kvs ps, mapM (selector_string epr_to_string false) (text_selector <$> kvs) = Some ps →
    concat_strings ps = match kvs with [] => "" | _ => "&" +:+ join_pairs kvs end).
  { clear. induction kvs as [|kv kvs IH]; intros ps H; [injection H as <-; done|].
    rewrite fmap_cons in H. cbn [mapM] in H. apply bind_Some in H as (p & [= <-] & H).
    apply bind_Some in H as (ps' & H & [= <-]). cbn [concat_strings]. rewrite (IH _ H).
    destruct kvs as [|kv' kvs]; cbn [join_pairs]; rewrite !str_app_assoc; unfold pair_string; cbn [default];
      by rewrite ?str_app_nil, ?str_app_assoc. }
  destruct kvs as [|kv kvs]; [injection Hp as <-; done|]. rewrite fmap_cons in Hp.
  apply bind_Some in Hp as (p & [= <-] & Hp). apply bind_Some in Hp as (ps & Hp & [= <-]).
  cbn [concat_strings]. rewrite (Htail _ _ Hp).
  destruct kvs as [|kv' kvs]; cbn [join_pairs]; rewrite !str_app_assoc; unfold pair_string; cbn [default];
    by rewrite ?str_app_nil, ?str_app_assoc.
Qed.

(** A reference with plain, distinct text selectors, printed and read
    back, names the same resource with the same selectors, in the order of
    the table; its address becomes the anonymous one. *)
Theorem epr_string_roundtrip scan a u kvs :
  (∀ l, scan l ≡ₚ l) → strchr u (chr 63) = None → plain_pairs kvs → NoDup kvs.*1 →
  ∃ s sel, epr_to_string (Epr a (CStr u) (text_selector <$> kvs)) = Some s ∧
    epr_from_string scan s = Some (Epr (CStr WSA_TO_ANONYMOUS) (CStr u) sel) ∧
    sel ≡ₚ text_selector <$> kvs.
Proof.
  intros Hscan Hu Hp Hn. rewrite epr_to_string_text. unfold epr_from_string.
  destruct kvs as [|kv kvs]; [exists u, []; by rewrite str_app_nil, Hu|].
  exists (u +:+ "?" +:+ join_pairs (kv :: kvs)), (text_selector <$> scan (kv :: kvs)). split_and!; [done| |by rewrite Hscan].
  change ("?" +:+ join_pairs (kv :: kvs)) with (String (chr 63) (join_pairs (kv :: kvs))).
  rewrite strchr_app by done. rewrite u_parse_query_roundtrip by done. rewrite str_before_app.
  unfold epr_create. rewrite (mapM_fmap _ (λ kv, KeyValue (CStr kv.1) kv.2)).
  - cbn [mbind option_bind default]. by rewrite <- list_fmap_compose.
  - apply Forall_fmap, Forall_true. intros [k v]. done.
Qed.

(** ** Sample references *)

Definition sample_epr : epr_t :=
  Epr (CStr "http://localhost:5985/wsman") (CStr "urn:disk")
    [KeyValue (CStr "Name") (VText (CStr "sda"));
     KeyValue (CStr "Parent") (VEpr (Some (Epr (CStr WSA_TO_ANONYMOUS) (CStr "urn:bus") [])))].

Definition other_epr : epr_t :=
  Epr (CStr WSA_TO_ANONYMOUS) (CStr "urn:disk")
    [KeyValue (CStr "Name") (VText (CStr "sdb")); KeyValue (CStr "Slot") (VText (CStr "2"))].

Lemma epr_cmp_ignores_selectors_witness :
  epr_cmp sample_epr other_epr = Some 0 ↔
  "urn:disk" = "urn:disk" ∧ length (selectors sample_epr) = length (selectors other_epr).
Proof.
  exact (epr_cmp_ignores_selectors sample_epr other_epr "urn:disk" "urn:disk" eq_refl eq_refl eq_refl).
Defined.

Lemma epr_to_string_in_bounds_witness :
  is_Some (epr_to_string sample_epr) ↔ epr_complete sample_epr = true.
Proof. exact (epr_to_string_in_bounds sample_epr eq_refl). Defined.

Lemma epr_add_selector_spec_witness :
  ∃ r e', epr_add_selector_text sample_epr "Slot" "2" = Some (r, e') ∧ epr_wf e' = true ∧
    (if decide (CStr "Slot" ∈ keys (selectors sample_epr)) then r = -1 ∧ e' = sample_epr
     else r = 0 ∧ selectors e' = selectors sample_epr ++ [KeyValue (CStr "Slot") (VText (CStr "2"))] ∧
          wsman_epr_selector_by_name e' "Slot" = Some (Some "2")).
Proof. exact (epr_add_selector_spec sample_epr "Slot" "2" eq_refl). Defined.

Lemma epr_delete_selector_spec_witness :
  ∃ r e', epr_delete_selector other_epr "Slot" = Some (r, e') ∧
    if decide (length (selectors other_epr) = 1)%nat
    then r = -1 ∧ epr_to_string e' = None ∧ epr_destroy e' = None
    else r = 0 ∧ epr_wf e' = true ∧ CStr "Slot" ∉ keys (selectors e') ∧
         S (length (selectors e')) = length (selectors other_epr) ∧
         ∀ kv, kv_key kv ≠ CStr "Slot" → kv ∈ selectors e' ↔ kv ∈ selectors other_epr.
Proof.
  refine (epr_delete_selector_spec other_epr "Slot" eq_refl _). by apply (bool_decide_unpack _).
Defined.

Lemma epr_roundtrip_witness :
  ∃ node, @epr_serialize TreeXml sample_epr (Some XML_NS_ADDRESSING) (Some WSA_EPR) true (el "urn:a" "r" [])
          = Some node ∧
          @epr_deserialize TreeXml (Some XML_NS_ADDRESSING) (Some WSA_EPR) true node = Some (Some sample_epr).
Proof.
  exact (@epr_roundtrip TreeXml TreeXmlLaws sample_epr XML_NS_ADDRESSING WSA_EPR (Some "urn:a") "r" [] []
           eq_refl eq_refl).
Defined.

Lemma epr_string_roundtrip_witness :
  ∃ s sel, epr_to_string (Epr CNull (CStr "urn:disk") (text_selector <$> [("Name", "sda"); ("Slot", "2")])) = Some s ∧
    epr_from_string reverse s = Some (Epr (CStr WSA_TO_ANONYMOUS) (CStr "urn:disk") sel) ∧
    sel ≡ₚ text_selector <$> [("Name", "sda"); ("Slot", "2")].
Proof.
  refine (epr_string_roundtrip reverse CNull "urn:disk" [("Name", "sda"); ("Slot", "2")] _ eq_refl _ _).
  - intros l. apply reverse_Permutation.
  - repeat constructor.
  - by apply (bool_decide_unpack _).
Defined.
