(* ===== verification/Filter.v ===== *)
(** * Filters ([wsman-filter.c])

    A filter of an enumeration or a subscription is a query string, an
    association query about a reference, or a set of selectors.  NULL strings
    are [None]; an entry of the selector array that was never written is a
    [KeyValue] of invalid pointers. *)

From S2P Require Import Prelude.
From S2P Require Import CString.
From S2P Require Import Names.
From S2P Require Import Xml.
From S2P Require Import Envelope.
From S2P Require Import Epr.

#[local] Open Scope string_scope.
#[local] Open Scope list_scope.
#[local] Open Scope Z_scope.
#[local] Open Scope ow_scope.

(** [resultProp] is NULL or an array, of which the first [PropNum] entries
    count. *)
Record filter_t := Filter {
  dialect : option string;
  query : option string;
  f_epr : option epr_t;
  selectorset : list key_value_t;
  assocType : Z;
  assocClass : option string;
  resultClass : option string;
  role : option string;
  resultRole : option string;
  resultProp : option (list string);
}.

Definition filter_initialize : filter_t :=
  Filter None None None [] 0 None None None None None.

Definition copy_epr (e : option epr_t) : option (option epr_t) :=
  match e with None => Some None | Some e => e ← epr_copy e; Some (Some e) end.

(** [if (new) field = u_strdup(new);] *)
Definition set_if (new old : option string) : option string :=
  match new with Some _ => new | None => old end.

Definition filter_set (f : filter_t) (dia qry : option string) (epr : option epr_t)
    (sel : option (list (string * kv_val))) (aType : Z) (aClass rClass rl rRole : option string)
    (rProp : option (list string)) : option (Z * filter_t) :=
  let d := Some (default WSM_XPATH_FILTER_DIALECT dia) in
  match qry, epr, sel with
  | Some _, _, _ =>
      Some (0, Filter d qry (f_epr f) (selectorset f) (assocType f) (assocClass f) (resultClass f)
                 (role f) (resultRole f) (resultProp f))
  | None, Some e, _ =>
      e ← epr_copy e;
      Some (0, Filter d (query f) (Some e) (selectorset f) aType (set_if aClass (assocClass f))
                 (set_if rClass (resultClass f)) (set_if rl (role f)) (set_if rRole (resultRole f))
                 (match rProp with
                  | Some [] | None => resultProp f
                  | Some _ => rProp
                  end))
  | None, None, Some entries =>
      sel ← mapM (λ '(k, v),
        match v with
        | VText t => s ← deref t; key_value_create (Some k) (Some s) None
        | VEpr e => key_value_create (Some k) None e
        end) entries;
      Some (0, Filter d (query f) (f_epr f) sel (assocType f) (assocClass f) (resultClass f)
                 (role f) (resultRole f) (resultProp f))
  | None, None, None =>
      Some (1, Filter d (query f) (f_epr f) (selectorset f) (assocType f) (assocClass f)
                 (resultClass f) (role f) (resultRole f) (resultProp f))
  end.

(** NULL when there is nothing to filter by. *)
Definition filter_create (dia qry : option string) (epr : option epr_t)
    (sel : option (list (string * kv_val))) (aType : Z) (aClass rClass rl rRole : option string)
    (rProp : option (list string)) : option (option filter_t) :=
  '(r, f) ← filter_set filter_initialize dia qry epr sel aType aClass rClass rl rRole rProp;
  Some (if r =? 1 then None else Some f).

Definition filter_create_simple (dia qry : option string) :=
  filter_create dia qry None None 0 None None None None None.
Definition filter_create_assoc (epr : option epr_t) (aType : Z) (aClass rClass rl rRole : option string)
    (rProp : option (list string)) :=
  filter_create (Some WSM_ASSOCIATION_FILTER_DIALECT) None epr None aType aClass rClass rl rRole rProp.
Definition filter_create_selector (sel : list (string * kv_val)) :=
  filter_create (Some WSM_SELECTOR_FILTER_DIALECT) None None (Some sel) 0 None None None None None.

Fixpoint filter_has_key (key : string) (l : list key_value_t) : option bool :=
  match l with
  | [] => Some false
  | KeyValue k _ :: l =>
      eq ← ptr_eqb (CStr key) k;
      if eq : bool then Some true else filter_has_key key l
  end.

Definition set_selectorset (s : list key_value_t) (f : filter_t) : filter_t :=
  Filter (dialect f) (query f) (f_epr f) s (assocType f) (assocClass f) (resultClass f) (role f)
    (resultRole f) (resultProp f).

Definition _filter_add_selector (f : filter_t) (key : string) (value : option string) (epr : option epr_t)
  : option (Z * filter_t) :=
  match value, epr with
  | None, None => Some (0, f)
  | _, _ =>
      dup ← filter_has_key key (selectorset f);
      if dup : bool then Some (-1, f)
      else kv ← key_value_create (Some key) value epr; Some (0, set_selectorset (selectorset f ++ [kv]) f)
  end.

(** The role is not copied. *)
Definition filter_copy (f : filter_t) : option filter_t :=
  e ← copy_epr (f_epr f);
  sel ← mapM (key_value_copy epr_copy) (selectorset f);
  Some (Filter (dialect f) (query f) e sel (assocType f) (assocClass f) (resultClass f) None
          (resultRole f) (resultProp f)).

Definition filter_destroy (f : filter_t) : option unit :=
  _ ← (match f_epr f with Some e => epr_destroy e | None => Some tt end);
  _ ← mapM (key_value_destroy epr_destroy) (selectorset f);
  Some tt.

Section Xml.
Context {LX : Libxml2}.

(** An optional child with a text. *)
Definition opt_child (ns name : string) (v : option string) : list xnode :=
  match v with Some _ => [xmlNewNodeContent (Some ns) name v] | None => [] end.

Definition selector_filter_node (acc : option xnode) (kv : key_value_t) : option xnode :=
  node ← acc;
  match kv with
  | KeyValue k (VText t) =>
      c_val t ≫= λ t : option string,
      c_val k ≫= λ k : option string,
      Some (add_node node (ws_xml_add_node_attr (xmlNewNodeContent (Some XML_NS_WS_MAN) WSM_SELECTOR t)
                             None WSM_NAME k))
  | KeyValue _ (VEpr None) => Some node
  | KeyValue _ (VEpr (Some e)) => epr_serialize e None None true node
  end.

(** The Filter element, or the error code. *)
Definition filter_element (f : filter_t) (ns : string) : option (Z + xnode) :=
  match query f, f_epr f, selectorset f with
  | Some _, _, _ => Some (inr (xmlNewNodeContent (Some ns) WSM_FILTER (query f)))
  | None, Some e, _ =>
      inst ← epr_serialize e (Some XML_NS_CIM_BINDING) (Some WSMB_OBJECT) true
        (xmlNewNodeContent (Some XML_NS_CIM_BINDING)
           (if assocType f =? 0 then WSMB_ASSOCIATED_INSTANCES else WSMB_ASSOCIATION_INSTANCES) None);
      let B := XML_NS_CIM_BINDING in
      let inst := foldl add_node inst
        (opt_child B WSMB_ASSOCIATION_CLASS_NAME (assocClass f) ++ opt_child B WSMB_ROLE (role f) ++
         opt_child B WSMB_RESULT_CLASS_NAME (resultClass f) ++
         opt_child B WSMB_RESULT_ROLE (resultRole f) ++
         ((λ p, xmlNewNodeContent (Some B) WSMB_INCLUDE_RESULT_PROPERTY (Some p))
            <$> default [] (resultProp f))) in
      Some (inr (add_node (xmlNewNodeContent (Some ns) WSM_FILTER None) inst))
  | None, None, _ :: _ =>
      set ← foldl selector_filter_node
              (Some (xmlNewNodeContent (Some XML_NS_WS_MAN) WSM_SELECTOR_SET None)) (selectorset f);
      Some (inr (add_node (xmlNewNodeContent (Some ns) WSM_FILTER None) set))
  | None, None, [] => Some (inl (-1))
  end.

Definition filter_serialize (node : xnode) (f : filter_t) (ns : string) : option (Z * xnode) :=
  r ← filter_element f ns;
  match r with
  | inl e => Some (e, node)
  | inr fn =>
      let fn := match dialect f with
                | Some d => ws_xml_add_node_attr fn None WSM_DIALECT (Some d)
                | None => fn
                end in
      Some (0, add_node node fn)
  end.

(** *** Reading *)

(** The dialect: the attribute of that name, else the first attribute, else
    XPath; duplicating a NULL value is an invalid access. *)
Definition filter_dialect (filter_node : xnode) : option string :=
  match ws_xml_find_attr_value (Some filter_node) None WSM_DIALECT with
  | Some d => Some d
  | None =>
      match xml_parser_attr_get filter_node 0 with
      | Some a => ws_xml_get_attr_value filter_node a
      | None => Some WSM_XPATH_FILTER_DIALECT
      end
  end.

Definition opt_text (n : option xnode) : option string :=
  match n with Some _ => Some (ws_xml_get_node_text_safe n) | None => None end.

(** The loop over the result properties, at most [properNum] of them. *)
Fixpoint result_props (fuel : nat) (i : Z) (inst : option xnode) : list string :=
  match fuel with
  | O => []
  | S f =>
      match ws_xml_get_child inst i (Some XML_NS_CIM_BINDING) (Some WSMB_INCLUDE_RESULT_PROPERTY) with
      | None => []
      | n => ws_xml_get_node_text_safe n :: result_props f (i + 1) inst
      end
  end.

(** An association query; [u_zalloc] of a negative count fails. *)
Definition deserialize_association (d : string) (filter_node : xnode) : option (option filter_t) :=
  let get name := child (Some filter_node) XML_NS_CIM_BINDING name in
  let '(inst, ty) :=
    match get WSMB_ASSOCIATED_INSTANCES with
    | Some n => (Some n, 0)
    | None => (get WSMB_ASSOCIATION_INSTANCES, 1)
    end in
  match inst with
  | None => Some None
  | Some n =>
      e ← epr_deserialize (Some XML_NS_CIM_BINDING) (Some WSMB_OBJECT) true n;
      let field name := opt_text (child inst XML_NS_CIM_BINDING name) in
      let properNum := ws_xml_get_child_count inst - 4 in
      if properNum <? 0 then Some None
      else
        Some (Some (Filter (Some d) None e [] ty (field WSMB_ASSOCIATION_CLASS_NAME)
          (field WSMB_RESULT_CLASS_NAME) (field WSMB_ROLE) (field WSMB_RESULT_ROLE)
          (Some (result_props (Z.to_nat properNum) 0 inst))))
  end.

Definition invalid_selector : key_value_t := KeyValue CInvalid (VText CInvalid).

Definition filter_selector (entry_node : xnode) : option key_value_t :=
  let key := match ws_xml_find_node_attr (Some entry_node) None WSM_NAME with
             | Some a => ws_xml_get_attr_value entry_node a
             | None => None
             end in
  match child (Some entry_node) XML_NS_ADDRESSING WSA_EPR with
  | Some n => e ← epr_deserialize None None true n; key_value_create key None e
  | None => key_value_create key (Some (ws_xml_get_node_text_safe (Some entry_node))) None
  end.

(** [n] entries from the i-th Selector on; the rest of the array stays
    uninitialised when there are fewer. *)
Fixpoint filter_selectors (n : nat) (i : Z) (set : option xnode) : option (list key_value_t) :=
  match n with
  | O => Some []
  | S n' =>
      match ws_xml_get_child set i (Some XML_NS_WS_MAN) (Some WSM_SELECTOR) with
      | None => Some (replicate n invalid_selector)
      | Some entry => kv ← filter_selector entry; l ← filter_selectors n' (i + 1) set; Some (kv :: l)
      end
  end.

Definition deserialize_selectors (d : string) (filter_node : xnode) : option (option filter_t) :=
  let set := child (Some filter_node) XML_NS_WS_MAN WSM_SELECTOR_SET in
  match set with
  | None => Some None
  | Some _ =>
      sel ← filter_selectors (Z.to_nat (ws_xml_get_child_count set)) 0 set;
      Some (Some (set_selectorset sel (Filter (Some d) None None [] 0 None None None None None)))
  end.

Definition filter_deserialize (node : option xnode) (ns : string) : option (option filter_t) :=
  match child node ns WSM_FILTER with
  | None => Some None
  | Some filter_node =>
      d ← filter_dialect filter_node;
      if str_eqb d WSM_ASSOCIATION_FILTER_DIALECT then deserialize_association d filter_node
      else if str_eqb d WSM_SELECTOR_FILTER_DIALECT then deserialize_selectors d filter_node
      else
        Some (Some (Filter (Some d) (Some (ws_xml_get_node_text_safe (Some filter_node))) None [] 0 None
                      None None None None))
  end.
End Xml.

(** ** Copies *)

Definition filter_complete (f : filter_t) : bool :=
  match f_epr f with Some e => epr_complete e | None => true end &&
  forallb (kv_complete epr_complete) (selectorset f).

Lemma kv_copy_id kv : kv_complete epr_complete kv = true → key_value_copy epr_copy kv = Some kv.
Proof.
  intros (k & [(t & ->)|(e & -> & He)])%kv_complete_inv; simpl; [done|]. by rewrite epr_copy_id.
Qed.

(** A copy of a filter is equal to it except that the role of an
    association filter is lost. *)
Theorem filter_copy_drops_role f :
  filter_complete f = true →
  filter_copy f = Some (Filter (dialect f) (query f) (f_epr f) (selectorset f) (assocType f)
                          (assocClass f) (resultClass f) None (resultRole f) (resultProp f)).
Proof.
  intros [He Hs]%andb_true_iff. unfold filter_copy, copy_epr. rewrite (mapM_id _ (selectorset f)).
  - by destruct (f_epr f) as [e|]; cbn [mbind option_bind]; rewrite ?epr_copy_id.
  - apply forallb_Forall in Hs. eapply Forall_impl; [done|]. intros kv. apply kv_copy_id.
Qed.

(** ** Serialising and reading back *)

Section RoundTrip.
Context {LX : Libxml2} {LL : Libxml2Laws}.

(** The element children of a given name. *)
Definition named (ns name : string) (c : list xnode) : list xnode :=
  filter (λ n, ws_xml_is_node_qname (Some n) (Some ns) (Some name) = true) (element_children c).

Lemma named_app ns name c1 c2 : named ns name (c1 ++ c2) = named ns name c1 ++ named ns name c2.
Proof. unfold named. by rewrite !element_children_filter, !filter_app. Qed.

Lemma get_child_named ns0 nm0 p c i ns name :
  0 ≤ i → ws_xml_get_child (Some (XElement ns0 nm0 p c)) i (Some ns) (Some name) = named ns name c !! Z.to_nat i.
Proof. intros Hi. by rewrite ws_xml_get_child_matching by done. Qed.

Lemma child_named ns0 nm0 p c ns name : child (Some (XElement ns0 nm0 p c)) ns name = head (named ns name c).
Proof. unfold child. rewrite get_child_named by done. by destruct (named ns name c). Qed.

Lemma qname_element ns name p c ns' name' :
  ws_xml_is_node_qname (Some (XElement (Some ns) name p c)) (Some ns') (Some name')
  = bool_decide (ns = ns') && bool_decide (name = name').
Proof.
  unfold ws_xml_is_node_qname. cbn.
  destruct (str_eqb_spec ns ns'), (str_eqb_spec name' name); simplify_eq; repeat case_bool_decide; try done;
    congruence.
Qed.

Lemma named_element ns name p c ns' name' l :
  named ns' name' (XElement (Some ns) name p c :: l) =
  (if decide (ns = ns' ∧ name = name') then [XElement (Some ns) name p c] else []) ++ named ns' name' l.
Proof.
  unfold named. cbn [element_children is_element]. rewrite filter_cons, qname_element.
  repeat case_decide; try case_bool_decide; try case_bool_decide; naive_solver.
Qed.

Lemma named_text ns name v ns' name' l :
  named ns' name' (text_node (Some ns) name v :: l) =
  (if decide (ns = ns' ∧ name = name') then [text_node (Some ns) name v] else []) ++ named ns' name' l.
Proof. destruct (text_node_named (Some ns) name v) as [c ->]. apply named_element. Qed.

Lemma named_opt ns name v ns' name' :
  named ns' name' (opt_child ns name v) = if decide (ns = ns' ∧ name = name') then opt_child ns name v else [].
Proof.
  destruct v as [v|]; cbn [opt_child]; [|by case_decide].
  fold (text_node (Some ns) name (Some v)). rewrite named_text. by case_decide.
Qed.

Definition prop_nodes (ps : list string) : list xnode :=
  (λ p, text_node (Some XML_NS_CIM_BINDING) WSMB_INCLUDE_RESULT_PROPERTY (Some p)) <$> ps.

Lemma named_props name ps :
  named XML_NS_CIM_BINDING name (prop_nodes ps) =
  if decide (WSMB_INCLUDE_RESULT_PROPERTY = name) then prop_nodes ps else [].
Proof.
  induction ps as [|p ps IH]; [by case_decide|]. cbn [prop_nodes fmap list_fmap]. rewrite named_text.
  fold (prop_nodes ps). rewrite IH. repeat case_decide; naive_solver.
Qed.

Lemma opt_text_child ns name v : opt_text (head (opt_child ns name v)) = v.
Proof. destruct v as [v|]; [|done]. cbn. by rewrite new_node_text. Qed.

(** The dialect attribute is read back. *)
Lemma dialect_added ns name c d :
  filter_dialect (ws_xml_add_node_attr (XElement ns name [] c) None WSM_DIALECT (Some d)) = Some d.
Proof.
  cbn [ws_xml_add_node_attr remove_attr app default]. unfold filter_dialect, ws_xml_find_attr_value.
  cbn [mbind option_bind ws_xml_find_node_attr x_props find_attr_loop attr_matches xa_ns xa_name andb].
  rewrite str_eqb_refl. cbn [mbind option_bind]. unfold ws_xml_get_attr_value. by rewrite only_prop.
Qed.

(** The Filter element of a node is the one that is read. *)
Lemma filter_deserialize_found node ns fc d :
  let fn := ws_xml_add_node_attr (XElement (Some ns) WSM_FILTER [] fc) None WSM_DIALECT (Some d) in
  child node ns WSM_FILTER = Some fn →
  filter_deserialize node ns =
  if str_eqb d WSM_ASSOCIATION_FILTER_DIALECT then deserialize_association d fn
  else if str_eqb d WSM_SELECTOR_FILTER_DIALECT then deserialize_selectors d fn
  else Some (Some (Filter (Some d) (Some (ws_xml_get_node_text_safe (Some fn))) None [] 0 None
                     None None None None)).
Proof. intros fn Hc. unfold filter_deserialize, fn in *. by rewrite Hc, dialect_added. Qed.

(** *** Queries and selectors *)

Definition query_filter (d q : string) : filter_t :=
  Filter (Some d) (Some q) None [] 0 None None None None None.
Definition selector_filter (kvs : list (string * string)) : filter_t :=
  Filter (Some WSM_SELECTOR_FILTER_DIALECT) None None (text_selector <$> kvs) 0 None None None None None.

Lemma selector_nodes kvs : ∀ ns name p c,
  foldl selector_filter_node (Some (XElement ns name p c)) (text_selector <$> kvs) =
  Some (XElement ns name p (c ++ (selector_tree <$> (text_selector <$> kvs)))).
Proof.
  induction kvs as [|kv kvs IH]; intros ns name p c; [by rewrite app_nil_r|].
  rewrite !fmap_cons. cbn [foldl].
  assert (selector_filter_node (Some (XElement ns name p c)) (text_selector kv) =
          Some (XElement ns name p (c ++ [selector_tree (text_selector kv)]))) as ->.
  { cbn [selector_filter_node text_selector mbind option_bind c_val].
    fold (text_node (Some XML_NS_WS_MAN) WSM_SELECTOR (Some kv.2)).
    by rewrite (text_node_children _ _ (Some kv.2)) at 1. }
  by rewrite IH, <- app_assoc.
Qed.

Lemma filter_selector_tree kv : filter_selector (selector_tree (text_selector kv)) = Some (text_selector kv).
Proof.
  unfold filter_selector, text_selector. cbn [selector_tree deref default].
  rewrite text_children_no_child.
  unfold ws_xml_find_node_attr, ws_xml_get_attr_value. cbn [x_props find_attr_loop attr_matches xa_ns xa_name andb].
  rewrite str_eqb_refl, only_prop. unfold ws_xml_get_node_text_safe. cbn [ws_xml_get_node_text mbind option_bind].
  rewrite (content_of_children _ _ _ (Some XML_NS_WS_MAN) WSM_SELECTOR []), <- text_node_children.
  unfold text_node. by rewrite new_node_text.
Qed.

Lemma filter_selectors_trees sel all : ∀ i,
  drop i all = sel → (i + length sel)%nat = length all → Forall (λ kv, ∃ s, kv = text_selector s) sel →
  filter_selectors (length sel) (Z.of_nat i)
    (Some (XElement (Some XML_NS_WS_MAN) WSM_SELECTOR_SET [] (selector_tree <$> all))) = Some sel.
Proof.
  induction sel as [|kv sel IH]; intros i Hd Hl Ht; [done|]. cbn [length filter_selectors].
  assert (Hi : all !! i = Some kv) by (rewrite <- (Nat.add_0_r i), <- lookup_drop, Hd; done).
  rewrite (selector_at _ _ kv) by done. apply Forall_cons in Ht as [[s ->] Ht].
  rewrite filter_selector_tree. cbn [mbind option_bind].
  replace (Z.of_nat i + 1) with (Z.of_nat (S i)) by lia. rewrite IH; [done| |simpl in Hl; lia|done].
  rewrite <- Nat.add_1_r, <- drop_drop, Hd. done.
Qed.

Lemma selector_filter_element kvs ns :
  kvs ≠ [] →
  filter_element (selector_filter kvs) ns =
  Some (inr (XElement (Some ns) WSM_FILTER []
    [XElement (Some XML_NS_WS_MAN) WSM_SELECTOR_SET [] (selector_tree <$> (text_selector <$> kvs))])).
Proof.
  intros Hne. unfold filter_element, selector_filter. cbn [query f_epr selectorset].
  rewrite !new_node_empty, selector_nodes. by destruct kvs.
Qed.

(** The filters without a reference: a query, or selectors with texts. *)
Definition text_filter (f : filter_t) : Prop :=
  (∃ d q, f = query_filter d q ∧ d ≠ WSM_ASSOCIATION_FILTER_DIALECT ∧ d ≠ WSM_SELECTOR_FILTER_DIALECT) ∨
  (∃ kvs, f = selector_filter kvs ∧ kvs ≠ []).

(** Such a filter adds one element, which is read as the filter wherever it is
    found. *)
Lemma text_filter_element f ns :
  text_filter f →
  ∃ p c, let fn := XElement (Some ns) WSM_FILTER p c in
    (∀ node, filter_serialize node f ns = Some (0, add_node node fn)) ∧
    (∀ node, child node ns WSM_FILTER = Some fn → filter_deserialize node ns = Some (Some f)).
Proof.
  intros [(d & q & -> & Ha & Hs)|(kvs & -> & Hne)]; unfold filter_serialize.
  - unfold filter_element. cbn [query f_epr selectorset dialect query_filter].
    fold (text_node (Some ns) WSM_FILTER (Some q)). rewrite (text_node_children _ _ (Some q)).
    eexists _, _. split; [done|]. intros node Hn. rewrite (filter_deserialize_found _ _ _ _ Hn).
    rewrite (proj2 (str_eqb_neq _ _) Ha), (proj2 (str_eqb_neq _ _) Hs). unfold query_filter. do 4 f_equal.
    unfold ws_xml_get_node_text_safe. cbn [ws_xml_add_node_attr ws_xml_get_node_text mbind option_bind].
    rewrite (content_of_children _ _ _ (Some ns) WSM_FILTER []), <- text_node_children.
    unfold text_node. by rewrite new_node_text.
  - rewrite selector_filter_element by done. cbn [mbind option_bind dialect selector_filter].
    eexists _, _. split; [done|]. intros node Hn. rewrite (filter_deserialize_found _ _ _ _ Hn).
    change (str_eqb WSM_SELECTOR_FILTER_DIALECT WSM_ASSOCIATION_FILTER_DIALECT) with false.
    rewrite str_eqb_refl. unfold deserialize_selectors. cbn [ws_xml_add_node_attr remove_attr app].
    rewrite child_here, selectorset_count, Nat2Z.id.
    rewrite (filter_selectors_trees _ (text_selector <$> kvs) O); [done|done|done|].
    apply Forall_fmap, Forall_true. intros s. by exists s.
Qed.

(** Query filters and filters made of text selectors survive a round trip
    through XML. *)
Theorem filter_roundtrip f ns ns0 nm0 props c :
  text_filter f →
  child (Some (XElement ns0 nm0 props c)) ns WSM_FILTER = None →
  ∃ node, filter_serialize (XElement ns0 nm0 props c) f ns = Some (0, node) ∧
          filter_deserialize (Some node) ns = Some (Some f).
Proof.
  intros Hf Hno. destruct (text_filter_element f ns Hf) as (p & fc & Hs & Hd).
  eexists. split; [apply Hs|]. apply Hd. by apply child_added.
Qed.

(** *** Association queries *)

Definition assoc_filter (e : epr_t) (ty : Z) (ac rc rl rr : option string) (ps : list string) : filter_t :=
  Filter (Some WSM_ASSOCIATION_FILTER_DIALECT) None (Some e) [] ty ac rc rl rr (Some ps).

Definition assoc_name (ty : Z) : string :=
  if ty =? 0 then WSMB_ASSOCIATED_INSTANCES else WSMB_ASSOCIATION_INSTANCES.

Definition assoc_children (e : epr_t) (ac rc rl rr : option string) (ps : list string) : list xnode :=
  epr_element (Some XML_NS_CIM_BINDING) WSMB_OBJECT e ::
  opt_child XML_NS_CIM_BINDING WSMB_ASSOCIATION_CLASS_NAME ac ++
  opt_child XML_NS_CIM_BINDING WSMB_ROLE rl ++
  opt_child XML_NS_CIM_BINDING WSMB_RESULT_CLASS_NAME rc ++
  opt_child XML_NS_CIM_BINDING WSMB_RESULT_ROLE rr ++ prop_nodes ps.

(** The optional fields that are present. *)
Definition fields (ac rc rl rr : option string) : nat :=
  length (option_list ac ++ option_list rc ++ option_list rl ++ option_list rr).

Lemma assoc_filter_element e ty ac rc rl rr ps ns :
  epr_complete e = true →
  filter_element (assoc_filter e ty ac rc rl rr ps) ns =
  Some (inr (XElement (Some ns) WSM_FILTER []
    [XElement (Some XML_NS_CIM_BINDING) (assoc_name ty) [] (assoc_children e ac rc rl rr ps)])).
Proof.
  intros He. unfold filter_element, assoc_filter.
  cbn [query f_epr assocType assocClass role resultClass resultRole resultProp default].
  rewrite epr_serialize_tree by done. cbn [mbind option_bind]. rewrite !new_node_empty.
  cbn [add_node app]. by rewrite foldl_add_node.
Qed.

Lemma assoc_named name e ac rc rl rr ps :
  WSMB_OBJECT ≠ name →
  named XML_NS_CIM_BINDING name (assoc_children e ac rc rl rr ps) =
  (if decide (WSMB_ASSOCIATION_CLASS_NAME = name) then opt_child XML_NS_CIM_BINDING WSMB_ASSOCIATION_CLASS_NAME ac else []) ++
  (if decide (WSMB_ROLE = name) then opt_child XML_NS_CIM_BINDING WSMB_ROLE rl else []) ++
  (if decide (WSMB_RESULT_CLASS_NAME = name) then opt_child XML_NS_CIM_BINDING WSMB_RESULT_CLASS_NAME rc else []) ++
  (if decide (WSMB_RESULT_ROLE = name) then opt_child XML_NS_CIM_BINDING WSMB_RESULT_ROLE rr else []) ++
  (if decide (WSMB_INCLUDE_RESULT_PROPERTY = name) then prop_nodes ps else []).
Proof.
  intros Hne. unfold assoc_children. destruct e as [a u sel]. rewrite epr_element_eq, named_element.
  rewrite decide_False by naive_solver. rewrite !named_app, !named_opt, named_props. cbn [app].
  repeat f_equal; repeat case_decide; naive_solver.
Qed.

Lemma assoc_fields e ac rc rl rr ps :
  let B := XML_NS_CIM_BINDING in
  let field name := head (named B name (assoc_children e ac rc rl rr ps)) in
  field WSMB_ASSOCIATION_CLASS_NAME = head (opt_child B WSMB_ASSOCIATION_CLASS_NAME ac) ∧
  field WSMB_RESULT_CLASS_NAME = head (opt_child B WSMB_RESULT_CLASS_NAME rc) ∧
  field WSMB_ROLE = head (opt_child B WSMB_ROLE rl) ∧
  field WSMB_RESULT_ROLE = head (opt_child B WSMB_RESULT_ROLE rr) ∧
  named B WSMB_INCLUDE_RESULT_PROPERTY (assoc_children e ac rc rl rr ps) = prop_nodes ps.
Proof.
  cbn zeta. rewrite !assoc_named by done.
  split_and!; destruct ac, rc, rl, rr; reflexivity.
Qed.

Lemma opt_child_elements ns name v : element_children (opt_child ns name v) = opt_child ns name v.
Proof.
  destruct v as [v|]; [|done]. cbn. fold (text_node (Some ns) name (Some v)).
  by destruct (text_node_named (Some ns) name (Some v)) as [c ->].
Qed.

Lemma prop_nodes_elements ps : element_children (prop_nodes ps) = prop_nodes ps.
Proof.
  induction ps as [|p ps IH]; [done|]. cbn [prop_nodes fmap list_fmap element_children].
  destruct (text_node_named (Some XML_NS_CIM_BINDING) WSMB_INCLUDE_RESULT_PROPERTY (Some p)) as [c ->].
  cbn [is_element]. f_equal. apply IH.
Qed.

Lemma assoc_count ns0 nm0 p e ac rc rl rr ps :
  ws_xml_get_child_count (Some (XElement ns0 nm0 p (assoc_children e ac rc rl rr ps)))
  = 1 + Z.of_nat (fields ac rc rl rr + length ps).
Proof.
  cbn [ws_xml_get_child_count x_children]. rewrite count_elements_length. unfold assoc_children.
  destruct e as [a u sel]. rewrite epr_element_eq. cbn [element_children is_element].
  rewrite !element_children_filter, !filter_app, <- !element_children_filter.
  rewrite !opt_child_elements, prop_nodes_elements. unfold fields, prop_nodes.
  destruct ac, rc, rl, rr; cbn [length opt_child app option_list]; rewrite ?length_app, length_fmap; simpl; lia.
Qed.

Lemma result_props_take fuel ns0 nm0 p c ps : ∀ i,
  named XML_NS_CIM_BINDING WSMB_INCLUDE_RESULT_PROPERTY c = prop_nodes ps →
  result_props fuel (Z.of_nat i) (Some (XElement ns0 nm0 p c)) = take fuel (drop i ps).
Proof.
  induction fuel as [|fuel IH]; intros i Hc; [done|]. cbn [result_props].
  rewrite get_child_named, Nat2Z.id, Hc by lia. unfold prop_nodes. rewrite list_lookup_fmap.
  destruct (ps !! i) as [x|] eqn:E; cbn [fmap option_fmap option_map].
  - rewrite text_of_node, (drop_S _ _ _ E). cbn [take]. f_equal.
    replace (Z.of_nat i + 1) with (Z.of_nat (S i)) by lia. by apply IH.
  - apply lookup_ge_None in E. by rewrite drop_ge.
Qed.

(** An association filter does not survive a round trip through XML in
    general: the reader allocates room for the number of children less four
    result properties.  With fewer than three fields and properties it reports
    no filter; otherwise every field is read back but only the first
    [fields + properties - 3] properties, all of them exactly when at least
    three optional fields are present. *)
Theorem association_filter_roundtrip e ty ac rc rl rr ps ns ns0 nm0 props c :
  epr_complete e = true → ty = 0 ∨ ty = 1 →
  child (Some (XElement ns0 nm0 props c)) ns WSM_FILTER = None →
  let k := (fields ac rc rl rr + length ps)%nat in
  ∃ node, filter_serialize (XElement ns0 nm0 props c) (assoc_filter e ty ac rc rl rr ps) ns = Some (0, node) ∧
          filter_deserialize (Some node) ns =
          Some (if (k <? 3)%nat then None
                else Some (assoc_filter e ty ac rc rl rr (take (k - 3) ps))).
Proof.
  intros He Hty Hno k. eexists (add_node _ _). unfold filter_serialize.
  rewrite assoc_filter_element by done. cbn [mbind option_bind dialect assoc_filter]. split; [done|].
  erewrite filter_deserialize_found by (by apply child_added). rewrite str_eqb_refl. unfold deserialize_association.
  cbn [ws_xml_add_node_attr remove_attr app].
  set (inst := XElement (Some XML_NS_CIM_BINDING) (assoc_name ty) [] (assoc_children e ac rc rl rr ps)).
  assert (Hi : match child (Some (XElement (Some ns) WSM_FILTER [XAttr None WSM_DIALECT
      (default "" (Some WSM_ASSOCIATION_FILTER_DIALECT))] [inst])) XML_NS_CIM_BINDING WSMB_ASSOCIATED_INSTANCES with
    | Some n => (Some n, 0)
    | None => (child (Some (XElement (Some ns) WSM_FILTER [XAttr None WSM_DIALECT
      (default "" (Some WSM_ASSOCIATION_FILTER_DIALECT))] [inst])) XML_NS_CIM_BINDING WSMB_ASSOCIATION_INSTANCES, 1)
    end = (Some inst, ty)).
  { rewrite !child_named. unfold inst. rewrite !named_element. by destruct Hty as [->| ->]. }
  rewrite Hi.
  assert (Hd : epr_deserialize (Some XML_NS_CIM_BINDING) (Some WSMB_OBJECT) true inst = Some (Some e)).
  { apply epr_deserialize_element; [done|]. destruct e as [a u sel]. unfold inst, assoc_children.
    rewrite epr_element_eq. apply child_here. }
  rewrite Hd. cbn [mbind option_bind]. unfold inst. rewrite assoc_count.
  rewrite !child_named. destruct (assoc_fields e ac rc rl rr ps) as (-> & -> & -> & -> & Hps).
  rewrite !opt_text_child. fold k. destruct (Nat.ltb_spec k 3) as [Hk|Hk].
  - by rewrite (proj2 (Z.ltb_lt _ _)) by lia.
  - rewrite (proj2 (Z.ltb_ge _ _)) by lia. rewrite (result_props_take _ _ _ _ _ ps O).
    + unfold assoc_filter. by replace (Z.to_nat (1 + Z.of_nat k - 4)) with (k - 3)%nat by lia.
    + done.
Qed.
End RoundTrip.

Lemma filter_copy_drops_role_witness :
  let f := assoc_filter sample_epr 0 None None (Some "Antecedent") None [] in
  filter_copy f = Some (Filter (dialect f) (query f) (f_epr f) (selectorset f) (assocType f)
                          (assocClass f) (resultClass f) None (resultRole f) (resultProp f)).
Proof.
  exact (filter_copy_drops_role (assoc_filter sample_epr 0 None None (Some "Antecedent") None []) eq_refl).
Defined.

Lemma filter_roundtrip_witness :
  ∃ node, @filter_serialize TreeXml (el "urn:a" "r" []) (selector_filter [("Name", "sda")]) XML_NS_WS_MAN
          = Some (0, node) ∧
          @filter_deserialize TreeXml (Some node) XML_NS_WS_MAN = Some (Some (selector_filter [("Name", "sda")])).
Proof.
  refine (@filter_roundtrip TreeXml TreeXmlLaws (selector_filter [("Name", "sda")]) XML_NS_WS_MAN
           (Some "urn:a") "r" [] [] _ eq_refl).
  right. by exists [("Name", "sda")].
Defined.

Lemma association_filter_roundtrip_witness :
  let k := (fields (Some "CIM_Assoc") None None None + length ["Status"; "Health"])%nat in
  ∃ node, @filter_serialize TreeXml (el "urn:a" "r" [])
            (assoc_filter sample_epr 0 (Some "CIM_Assoc") None None None ["Status"; "Health"]) XML_NS_WS_MAN
          = Some (0, node) ∧
          @filter_deserialize TreeXml (Some node) XML_NS_WS_MAN =
          Some (if (k <? 3)%nat then None
                else Some (assoc_filter sample_epr 0 (Some "CIM_Assoc") None None None
                             (take (k - 3) ["Status"; "Health"]))).
Proof.
  exact (@association_filter_roundtrip TreeXml TreeXmlLaws sample_epr 0 (Some "CIM_Assoc") None None None
           ["Status"; "Health"] XML_NS_WS_MAN (Some "urn:a") "r" [] [] eq_refl (or_introl eq_refl) eq_refl).
Defined.
