(* ===== verification/Requests.v ===== *)
(** * Reading requests ([wsman-soap-envelope.c])

    The options, credentials and filters the bodies and headers of Enumerate
    and Subscribe requests carry.  A request that is refused is a fault code
    with its detail; [None] is an access through a NULL string. *)

From S2P Require Import Prelude.
From S2P Require Import CString.
From S2P Require Import Names.
From S2P Require Import Xml.
From S2P Require Import Faults.
From S2P Require Import Envelope.
From S2P Require Import Epr.
From S2P Require Import Filter.

#[local] Open Scope string_scope.
#[local] Open Scope list_scope.
#[local] Open Scope Z_scope.
#[local] Open Scope ow_scope.

Definition WSMAN_ENUMINFO_POLY_NONE : Z := 0x000020.
Definition WSMAN_ENUMINFO_POLY_INCLUDE : Z := 0x000040.
Definition WSMAN_ENUMINFO_POLY_EXCLUDE : Z := 0x000080.
Definition WSMAN_ENUMINFO_OPT : Z := 0x000200.
Definition WSMAN_ENUMINFO_EPR : Z := 0x000400.
Definition WSMAN_ENUMINFO_OBJEPR : Z := 0x000800.
Definition WSMAN_ENUMINFO_ASSOC : Z := 0x020000.
Definition WSMAN_ENUMINFO_REF : Z := 0x040000.
Definition WSMAN_ENUMINFO_CQL : Z := 0x080000.
Definition WSMAN_ENUMINFO_WQL : Z := 0x100000.
Definition WSMAN_ENUMINFO_SELECTOR : Z := 0x200000.
Definition WSMAN_ENUMINFO_XPATH : Z := 0x800000.

Definition WSMAN_SUBSCRIPTION_CQL : Z := 0x10.
Definition WSMAN_SUBSCRIPTION_WQL : Z := 0x20.
Definition WSMAN_SUBSCRIPTION_SELECTORSET : Z := 0x40.

(** A check ends with a fault or goes on with a value. *)
Definition checked (A : Type) : Type := (WsmanFaultCodeType * WsmanFaultDetailType) + A.

Section Requests.
Context {LX : Libxml2}.

(** ** Enumerate *)

(** Queries in XPath are never interpreted. *)
Definition interpretxpath (xpath : option string) : bool := false.

Definition or_flag (b : bool) (f flags : Z) : Z := if b then Z.lor flags f else flags.

(** What the options of an Enumerate body add to the flags. *)
Definition enum_mode_flags (node : option xnode) (flags : Z) : Z :=
  match ws_xml_get_node_text (child node XML_NS_WS_MAN WSM_ENUM_MODE) with
  | Some text =>
      if str_eqb text WSM_ENUM_EPR then Z.lor flags WSMAN_ENUMINFO_EPR
      else or_flag (str_eqb text WSM_ENUM_OBJ_AND_EPR) WSMAN_ENUMINFO_OBJEPR flags
  | None => flags
  end.

Definition polymorphism_flags (node : option xnode) (flags : Z) : Z :=
  match child node XML_NS_CIM_BINDING WSMB_POLYMORPHISM_MODE with
  | None => Z.lor flags WSMAN_ENUMINFO_POLY_INCLUDE
  | opt =>
      match ws_xml_get_node_text opt with
      | Some mode =>
          if str_eqb mode WSMB_EXCLUDE_SUBCLASS_PROP then Z.lor flags WSMAN_ENUMINFO_POLY_EXCLUDE
          else if str_eqb mode WSMB_INCLUDE_SUBCLASS_PROP then Z.lor flags WSMAN_ENUMINFO_POLY_INCLUDE
          else or_flag (str_eqb mode WSMB_NONE) WSMAN_ENUMINFO_POLY_NONE flags
      | None => flags
      end
  end.

Definition optimize_flags (node : option xnode) (flags maxItems : Z) : Z * Z :=
  match child node XML_NS_WS_MAN WSM_OPTIMIZE_ENUM with
  | None => (flags, maxItems)
  | Some _ =>
      (Z.lor flags WSMAN_ENUMINFO_OPT,
       match child node XML_NS_WS_MAN WSM_MAX_ELEMENTS with
       | None => 1
       | max => match ws_xml_get_node_text max with Some text => atoi text | None => maxItems end
       end)
  end.

(** The flag of a filter's dialect. *)
Definition filter_flag (f : filter_t) : option (checked Z) :=
  d ← dialect f;
  Some (if str_eqb d WSM_ASSOCIATION_FILTER_DIALECT then
          inr (if assocType f =? 0 then WSMAN_ENUMINFO_ASSOC else WSMAN_ENUMINFO_REF)
        else if str_eqb d WSM_CQL_FILTER_DIALECT then inr WSMAN_ENUMINFO_CQL
        else if str_eqb d WSM_WQL_FILTER_DIALECT then inr WSMAN_ENUMINFO_WQL
        else if str_eqb d WSM_SELECTOR_FILTER_DIALECT then inr WSMAN_ENUMINFO_SELECTOR
        else if interpretxpath (query f) then inr WSMAN_ENUMINFO_XPATH
        else inl (WSEN_CANNOT_PROCESS_FILTER, WSMAN_DETAIL_NOT_SUPPORTED)).

(** The flags, the maximum of items and the filter of the context. *)
Record enum_request := EnumRequest {
  er_flags : Z;
  er_maxItems : Z;
  er_filter : option filter_t;
}.

Definition wsman_parse_enum_request (indoc : option xnode) (flags maxItems : Z)
  : option (checked enum_request) :=
  match indoc with
  | None => Some (inl (WSMAN_INVALID_PARAMETER, WSMAN_DETAIL_INVALID_VALUE))
  | Some _ =>
      match child (ws_xml_get_soap_body indoc) XML_NS_ENUMERATION WSENUM_ENUMERATE with
      | None => Some (inr (EnumRequest flags maxItems None))
      | node =>
          let flags := polymorphism_flags node (enum_mode_flags node flags) in
          let '(flags, maxItems) := optimize_flags node flags maxItems in
          filter_deserialize node XML_NS_WS_MAN ≫= λ f : option filter_t,
          match f with
          | None => Some (inr (EnumRequest flags maxItems None))
          | Some f =>
              r ← filter_flag f;
              Some (match r with
                    | inl e => inl e
                    | inr fl => inr (EnumRequest (Z.lor flags fl) maxItems (Some f))
                    end)
          end
      end
  end.

(** ** Credentials and filters *)

Record credentials := Credentials {
  c_username : option string;
  c_password : option string;
  c_thumbprint : option string;
}.

(** The address of the AppliesTo element must be the event sink: [strcmp] with
    a NULL sink is an invalid access. *)
Definition applies_to (tnode : xnode) (notifyto : option string) : option (checked unit) :=
  match child (child (child (Some tnode) XML_NS_POLICY WSP_APPLIESTO) XML_NS_ADDRESSING WSA_EPR)
          XML_NS_ADDRESSING WSA_ADDRESS with
  | None => Some (inr tt)
  | node =>
      match ws_xml_get_node_text node with
      | Some text =>
          same ← strcmp_ptr text notifyto;
          Some (if same : bool then inr tt else inl (WSMAN_INVALID_PARAMETER, WSMAN_DETAIL_INVALID_ADDRESS))
      | None => Some (inl (WSMAN_INVALID_PARAMETER, WSMAN_DETAIL_INVALID_ADDRESS))
      end
  end.

(** One token of the request. *)
Definition read_token (tnode : xnode) (cr : credentials) : checked credentials :=
  let token := child (Some tnode) XML_NS_TRUST WST_REQUESTEDSECURITYTOKEN in
  match ws_xml_get_node_text (child (Some tnode) XML_NS_TRUST WST_TOKENTYPE) with
  | None => inl (WSMAN_INVALID_OPTIONS, WST_DETAIL_UNSUPPORTED_TOKENTYPE)
  | Some value =>
      if str_eqb value WST_USERNAMETOKEN then
        let node := child token XML_NS_SE WSSE_USERNAMETOKEN in
        let get name old :=
          match child node XML_NS_SE name with None => old | n => ws_xml_get_node_text n end in
        inr (Credentials (get WSSE_USERNAME (c_username cr)) (get WSSE_PASSWORD (c_password cr))
               (c_thumbprint cr))
      else if str_eqb value WST_CERTIFICATETHUMBPRINT then
        inr (Credentials (c_username cr) (c_password cr)
               (match child token XML_NS_WS_MAN WSM_CERTIFICATETHUMBPRINT with
                | None => c_thumbprint cr
                | n => ws_xml_get_node_text n
                end))
      else inl (WSMAN_INVALID_OPTIONS, WST_DETAIL_UNSUPPORTED_TOKENTYPE)
  end.

Fixpoint read_tokens (notifyto : option string) (l : list xnode) (cr : credentials)
  : option (checked credentials) :=
  match l with
  | [] => Some (inr cr)
  | tnode :: l =>
      a ← applies_to tnode notifyto;
      match a with
      | inl f => Some (inl f)
      | inr _ =>
          match read_token tnode cr with
          | inl f => Some (inl f)
          | inr cr => read_tokens notifyto l cr
          end
      end
  end.

Definition wsman_parse_credentials (doc : xnode) (notifyto : option string)
  : option (checked credentials) :=
  read_tokens notifyto
    (children (child (ws_xml_get_soap_header (Some doc)) XML_NS_TRUST WST_ISSUEDTOKENS)
       (Some XML_NS_TRUST) (Some WST_REQUESTSECURITYTOKENRESPONSE))
    (Credentials None None None).

(** A selector set in the header stands for an existing filter, which is left
    empty; [None] is the result -1. *)
Definition is_existing_filter_epr (node : option xnode) : option filter_t :=
  match ws_xml_get_node_text (child node XML_NS_WS_MAN WSM_RESOURCE_URI),
        child node XML_NS_WS_MAN WSM_SELECTOR_SET with
  | Some uri, Some _ => if str_eqb uri CIM_ALL_AVAILABLE_CLASSES then None else Some filter_initialize
  | _, _ => None
  end.

(** The flags of a subscription and its filter. *)
Definition wsman_parse_event_request (doc : xnode) (flags : Z)
  : option (checked (Z * option filter_t)) :=
  match child (ws_xml_get_soap_body (Some doc)) XML_NS_EVENTING WSEVENT_SUBSCRIBE with
  | None => Some (inr (flags, None))
  | node =>
      filter_deserialize node XML_NS_WS_MAN ≫= λ wsman_f : option filter_t,
      filter_deserialize node XML_NS_EVENTING ≫= λ wse_f : option filter_t,
      match wsman_f, wse_f with
      | Some _, Some _ => Some (inl (WSE_INVALID_MESSAGE, WSMAN_DETAIL_OK))
      | Some f, None | None, Some f =>
          d ← dialect f;
          Some (if str_eqb d WSM_CQL_FILTER_DIALECT then inr (Z.lor flags WSMAN_SUBSCRIPTION_CQL, Some f)
                else if str_eqb d WSM_WQL_FILTER_DIALECT then
                  inr (Z.lor flags WSMAN_SUBSCRIPTION_WQL, Some f)
                else inl (WSE_FILTERING_NOT_SUPPORTED, WSMAN_DETAIL_OK))
      | None, None =>
          match is_existing_filter_epr (ws_xml_get_soap_header (Some doc)) with
          | None => Some (inl (WSE_FILTERING_NOT_SUPPORTED, WSMAN_DETAIL_OK))
          | Some f => Some (inr (Z.lor flags WSMAN_SUBSCRIPTION_SELECTORSET, Some f))
          end
      end
  end.
End Requests.
