(* ===== verification/Selectors.v ===== *)
(** * Selectors, options and method arguments as tables ([wsman-soap-envelope.c])

    What a plugin asks of a request: the table of its selectors, of those of
    the instance a filter names, the arguments of a method and the value of an
    option.  The tables are any [Store]; [None] is an access through a NULL or
    uninitialised string.  Memory is never exhausted. *)

From S2P Require Import Prelude.
From S2P Require Import CString.
From S2P Require Import Names.
From S2P Require Import Xml.
From S2P Require Import Store.
From S2P Require Import Envelope.
From S2P Require Import Epr.

#[local] Open Scope string_scope.
#[local] Open Scope list_scope.
#[local] Open Scope Z_scope.
#[local] Open Scope ow_scope.

Definition METHOD_ARGS_KEY : string := "method_args".

(** An argument of a method: its name and its value. *)
Record methodarglist_t := MethodArg {
  ma_key : string;
  ma_arraycount : Z;
  ma_data : key_value_t;
}.

Section Tables.
Context {T : Type → Type} {ST : Store T} {LX : Libxml2}.

(** A table that stayed empty is destroyed: the result is NULL. *)
Definition unless_empty {V} (h : T V) : option (T V) := if store_count h =? 0 then None else Some h.

(** ** Options *)

(** An option without a text is set. *)
Fixpoint get_option_loop (op : string) (l : list xnode) : option string :=
  match l with
  | [] => None
  | o :: l =>
      match ws_xml_find_attr_value (Some o) None WSM_NAME with
      | Some attrVal =>
          if str_eqb attrVal op then
            optval ← ws_xml_get_node_text (Some o);
            Some (if str_eqb optval "" then "true" else optval)
          else get_option_loop op l
      | None => get_option_loop op l
      end
  end.

Definition wsman_get_option_set (cntx_doc doc : option xnode) (op : string) : option string :=
  match pick_doc cntx_doc doc with
  | None => None
  | d =>
      match child (ws_xml_get_soap_header d) XML_NS_WS_MAN WSM_OPTION_SET with
      | None => None
      | node => get_option_loop op (children node (Some XML_NS_WS_MAN) (Some WSM_OPTION))
      end
  end.

(** ** Selectors *)

(** A copy of the reference is kept, the one that was read is freed. *)
Definition keep_epr (e : option epr_t) : option key_value_t :=
  kv ← key_value_create None None e;
  _ ← match e with Some e => epr_destroy e | None => Some tt end;
  Some kv.

Definition selector_entry (selector : xnode) : option key_value_t :=
  match child (Some selector) XML_NS_ADDRESSING WSA_EPR with
  | Some _ =>
      epr_deserialize (Some XML_NS_ADDRESSING) (Some WSA_EPR) true selector ≫= λ e : option epr_t, keep_epr e
  | None => key_value_create None (ws_xml_get_node_text (Some selector)) None
  end.

(** The first selector of a name counts. *)
Fixpoint selectors_loop (l : list xnode) (h : T key_value_t) : option (T key_value_t) :=
  match l with
  | [] => Some h
  | s :: l =>
      match selector_name s with
      | None => selectors_loop l h
      | Some attrVal =>
          store_find h attrVal ≫= λ found : option key_value_t,
          match found with
          | Some _ => selectors_loop l h
          | None => sentry ← selector_entry s; store_add h attrVal sentry ≫= selectors_loop l
          end
      end
  end.

Definition wsman_get_selectors_from_epr (epr_node : option xnode) : option (option (T key_value_t)) :=
  h ← @store_new T ST key_value_t;
  match child epr_node XML_NS_WS_MAN WSM_SELECTOR_SET with
  | None => Some None
  | node => h ← selectors_loop (Envelope.selectors node) h; Some (unless_empty h)
  end.

Definition wsman_get_selector_list (cntx_doc doc : option xnode) : option (option (T key_value_t)) :=
  match pick_doc cntx_doc doc with
  | None => Some None
  | d =>
      match ws_xml_get_soap_header d with
      | None => Some None
      | header => wsman_get_selectors_from_epr header
      end
  end.

(** The instance that the associations of a filter start from. *)
Definition filter_object (d : option xnode) : option xnode :=
  let node := child (ws_xml_get_soap_body d) XML_NS_ENUMERATION WSENUM_ENUMERATE in
  let filter := child node XML_NS_WS_MAN WSENUM_FILTER in
  let assInst :=
    match child filter XML_NS_CIM_BINDING WSMB_ASSOCIATION_INSTANCES with
    | None => child filter XML_NS_CIM_BINDING WSMB_ASSOCIATED_INSTANCES
    | n => n
    end in
  child assInst XML_NS_CIM_BINDING WSMB_OBJECT.

Definition wsman_get_selector_list_from_filter (cntx_doc doc : option xnode)
  : option (option (T key_value_t)) :=
  match pick_doc cntx_doc doc with
  | None => Some None
  | d =>
      match child (filter_object d) XML_NS_ADDRESSING WSA_REFERENCE_PARAMETERS with
      | None => Some None
      | node => wsman_get_selectors_from_epr node
      end
  end.

(** ** Arguments of a method *)

Definition method_arg (arg : xnode) : option methodarglist_t :=
  key ← ws_xml_get_node_local_name (Some arg);
  data ← match child (Some arg) XML_NS_ADDRESSING WSA_REFERENCE_PARAMETERS with
         | Some _ => epr_deserialize None None true arg ≫= λ e : option epr_t, keep_epr e
         | None => key_value_create None (ws_xml_get_node_text (Some arg)) None
         end;
  Some (MethodArg key 0 data).

(** The element of the arguments, in the namespace of the resource or of its
    schema. *)
Definition input_of (body : option xnode) (resource_uri mn : string) : option xnode :=
  let input := mn +:+ "_INPUT" in
  match child body resource_uri input with
  | None => child body (resource_uri +:+ ".xsd") input
  | n => n
  end.

(** Printing a NULL method name is an invalid access. *)
Definition wsman_get_method_args (indoc : option xnode) (resource_uri : string)
  : option (option (T (list methodarglist_t))) :=
  h ← @store_new T ST (list methodarglist_t);
  match indoc with
  | None => Some None
  | Some _ =>
      mn ← wsman_get_method_name indoc;
      match input_of (ws_xml_get_soap_body indoc) resource_uri mn with
      | None => Some None
      | in_node =>
          arglist ← mapM method_arg (children in_node None None);
          h ← @store_add T ST _ h METHOD_ARGS_KEY arglist; Some (unless_empty h)
      end
  end.

(** Every entry of the list is freed with its value. *)
Definition wsman_free_method_list (l : list methodarglist_t) : option unit :=
  _ ← mapM (λ a, key_value_destroy epr_destroy (ma_data a)) l; Some tt.

(** Called by the table for each of its nodes. *)
Definition wsman_free_method_hnode (key : string) (l : list methodarglist_t) : option unit :=
  if str_eqb METHOD_ARGS_KEY key then wsman_free_method_list l else Some tt.

(** ** The tables and the document *)

(** The first selector of a name. *)
Fixpoint first_selector (name : string) (l : list xnode) : option xnode :=
  match l with
  | [] => None
  | s :: l =>
      match selector_name s with
      | Some v => if str_eqb v name then Some s else first_selector name l
      | None => first_selector name l
      end
  end.

(** What a table, if there is one, says of a name. *)
Definition table_entry {V} (r : option (T V)) (name : string) : option V :=
  match r with Some h => @store_map T ST V h !! name | None => None end.

Definition entries_readable (l : list xnode) : Prop :=
  ∀ name s, first_selector name l = Some s → is_Some (selector_entry s).

Context {SL : StoreLaws T}.

Lemma unless_empty_entry {V} (h : T V) name :
  store_ok h → table_entry (unless_empty h) name = store_map h !! name.
Proof.
  intros Hok. unfold unless_empty. rewrite store_count_spec by done.
  destruct (Z.eqb_spec (Z.of_nat (size (store_map h))) 0) as [E|]; [|done]. cbn [table_entry].
  assert (store_map h = ∅) as -> by (apply map_size_empty_iff; lia). by rewrite lookup_empty.
Qed.

(** The loop keeps what is there and adds the first selector of each other name. *)
Lemma selectors_loop_spec l : ∀ h,
  store_ok h → store_count h + Z.of_nat (length l) < store_capacity →
  (∀ name s, store_map h !! name = None → first_selector name l = Some s → is_Some (selector_entry s)) →
  ∃ h', selectors_loop l h = Some h' ∧ store_ok h' ∧
    ∀ name, store_map h' !! name =
      match store_map h !! name with
      | Some kv => Some kv
      | None => s ← first_selector name l; selector_entry s
      end.
Proof.
  induction l as [|s l IH]; intros h Hok Hcap Hr.
  { exists h. split_and!; [done..|]. intros name. by destruct (store_map h !! name). }
  cbn [selectors_loop first_selector length] in *. destruct (selector_name s) as [v|]; [|apply IH; [done|lia|done]].
  rewrite store_find_spec by done. cbn [mbind option_bind].
  destruct (store_map h !! v) as [kv|] eqn:Ev.
  - destruct (IH h Hok ltac:(lia)) as (h' & E & Hok' & Hm).
    { intros name s' Hn Hs. apply (Hr name s' Hn). destruct (str_eqb_spec v name); [congruence|done]. }
    exists h'. split_and!; [done..|]. intros name. rewrite Hm. destruct (store_map h !! name) eqn:En; [done|].
    destruct (str_eqb_spec v name); [congruence|done].
  - destruct (Hr v s Ev) as [kv Hkv]; [by rewrite str_eqb_refl|]. rewrite Hkv. cbn [mbind option_bind].
    destruct (store_add_spec h v kv Hok Ev ltac:(lia)) as (h1 & E1 & Hok1 & Hm1). rewrite E1. cbn [mbind option_bind].
    assert (Hc : store_count h1 = store_count h + 1).
    { rewrite !store_count_spec, Hm1, map_size_insert_None by done. lia. }
    destruct (IH h1 Hok1 ltac:(lia)) as (h' & E & Hok' & Hm).
    { intros name s' Hn Hs. rewrite Hm1, lookup_insert_None in Hn. destruct Hn as [Hn Hne]. apply (Hr name s' Hn).
      destruct (str_eqb_spec v name); [done|done]. }
    exists h'. split_and!; [done..|]. intros name. rewrite Hm, Hm1. destruct (str_eqb_spec v name) as [<-|Hne].
    + by rewrite lookup_insert_eq, Ev.
    + by rewrite lookup_insert_ne by done.
Qed.

(** Reading a selector set: for each name the first selector of that name. *)
Lemma selectors_from_epr_spec epr_node :
  let l := Envelope.selectors (child epr_node XML_NS_WS_MAN WSM_SELECTOR_SET) in
  Z.of_nat (length l) < store_capacity → entries_readable l →
  ∃ r, wsman_get_selectors_from_epr epr_node = Some r ∧
    ∀ name, table_entry r name = (s ← first_selector name l; selector_entry s).
Proof.
  intros l Hcap Hr. unfold wsman_get_selectors_from_epr.
  destruct (@store_new_spec T ST SL key_value_t) as (t & -> & Ht & Hm). cbn [mbind option_bind].
  destruct (child epr_node XML_NS_WS_MAN WSM_SELECTOR_SET) as [set|]; [|by eexists].
  fold l. destruct (selectors_loop_spec l t Ht) as (h & -> & Hok & Hh).
  { by rewrite store_count_spec, Hm, map_size_empty by done. }
  { intros name s _. apply Hr. }
  cbn [mbind option_bind]. eexists. split; [done|]. intros name.
  by rewrite unless_empty_entry, Hh, Hm, lookup_empty by done.
Qed.

Lemma get_selector_first name l :
  get_selector_loop name l = (s ← first_selector name l; ws_xml_get_node_text (Some s)).
Proof.
  induction l as [|s l IH]; [done|]. cbn [get_selector_loop first_selector].
  destruct (selector_name s) as [v|]; [|done]. by destruct (str_eqb v name).
Qed.

(** An entry is the text of the selector or a reference. *)
Lemma selector_entry_text s kv :
  selector_entry s = Some kv →
  (∃ e, kv = KeyValue CNull (VEpr e)) ∨
  (∃ t, ws_xml_get_node_text (Some s) = Some t ∧ kv = KeyValue CNull (VText (CStr t))).
Proof.
  unfold selector_entry, keep_epr, key_value_create. intros H. destruct (child _ _ _) as [n|].
  - left. destruct (epr_deserialize _ _ _ _) as [[e|]|]; [| |done]; cbn [mbind option_bind] in *; [|naive_solver].
    destruct (epr_copy e); [|done]. cbn [mbind option_bind] in *. destruct (epr_destroy e); naive_solver.
  - destruct (ws_xml_get_node_text (Some s)); injection H as <-; eauto.
Qed.

(** The table of the selectors that a plugin gets and the reading of single
    selectors by name agree: for a request whose references are complete, the
    table exists (or is NULL, when there is nothing to hold) and its text for
    a name is what [wsman_get_selector] finds; a name that has a text there
    has an entry in the table, which is that text or, when the selector holds an
    endpoint reference, the reference. *)
Theorem selector_table_agrees cntx_doc doc :
  let l := Envelope.selectors
             (child (ws_xml_get_soap_header (pick_doc cntx_doc doc)) XML_NS_WS_MAN WSM_SELECTOR_SET) in
  Z.of_nat (length l) < store_capacity → entries_readable l →
  ∃ r, wsman_get_selector_list cntx_doc doc = Some r ∧
    ∀ name t,
      (table_entry r name = Some (KeyValue CNull (VText (CStr t))) → wsman_get_selector cntx_doc doc name 0 = Some t) ∧
      (wsman_get_selector cntx_doc doc name 0 = Some t →
       table_entry r name = Some (KeyValue CNull (VText (CStr t))) ∨
       ∃ e, table_entry r name = Some (KeyValue CNull (VEpr e))).
Proof.
  intros l Hcap Hr. unfold wsman_get_selector_list, wsman_get_selector.
  destruct (pick_doc cntx_doc doc) as [d|]; [|by eexists].
  destruct (ws_xml_get_soap_header (Some d)) as [h|] eqn:Eh; [|by eexists]. destruct (selectors_from_epr_spec (Some h) Hcap Hr) as (r & E & Hm).
  exists r. split; [done|]. intros name t. rewrite Hm. fold l. fold (child (Some h) XML_NS_WS_MAN WSM_SELECTOR_SET).
  assert (Hget : match child (Some h) XML_NS_WS_MAN WSM_SELECTOR_SET with
                 | None => None
                 | node => get_selector_loop name (Envelope.selectors node)
                 end = (s ← first_selector name l; ws_xml_get_node_text (Some s))).
  { unfold l. destruct (child _ _ _); [apply get_selector_first|done]. }
  rewrite Hget. destruct (first_selector name l) as [s|] eqn:Es; [|by split]. cbn [mbind option_bind].
  destruct (Hr name s Es) as [kv Hkv]. rewrite Hkv.
  destruct (selector_entry_text s kv Hkv) as [[e ->]|(t' & -> & ->)]; split; intros ?; simplify_eq; eauto.
Qed.
End Tables.

(** ** Examples *)

(** A selector of each kind, and a second one of the same name. *)
Definition sample_selectors : list xnode :=
  [@selector_tree TreeXml (KeyValue (CStr "Name") (VText (CStr "sda")));
   @selector_tree TreeXml (KeyValue (CStr "System") (VEpr (Some sample_epr)));
   @selector_tree TreeXml (KeyValue (CStr "Name") (VText (CStr "sdb")))].

Definition sample_selector_doc : xnode :=
  XElement (Some XML_NS_SOAP_1_2) SOAP_ENVELOPE []
    [XElement (Some XML_NS_SOAP_1_2) SOAP_HEADER []
       [XElement (Some XML_NS_WS_MAN) WSM_SELECTOR_SET [] sample_selectors];
     XElement (Some XML_NS_SOAP_1_2) SOAP_BODY [] []].

Lemma sample_selectors_read :
  Envelope.selectors (child (ws_xml_get_soap_header (Some sample_selector_doc)) XML_NS_WS_MAN WSM_SELECTOR_SET)
  = sample_selectors.
Proof. vm_compute. reflexivity. Qed.

Lemma sample_selectors_readable : @entries_readable TreeXml sample_selectors.
Proof.
  intros name s H. unfold sample_selectors in H. cbn [first_selector] in H.
  repeat match type of H with
  | context [selector_name ?x] => let v := eval vm_compute in (selector_name x) in change (selector_name x) with v in H
  end.
  cbn in H. repeat case_match; simplify_eq; vm_compute; by eexists.
Qed.

(** The reference arrives complete. *)
Example sample_reference_entry :
  (@wsman_get_selector_list hstore HashStore TreeXml None (Some sample_selector_doc) ≫= λ r,
   @table_entry hstore HashStore _ r "System") = Some (KeyValue CNull (VEpr (Some sample_epr))).
Proof. vm_compute. reflexivity. Qed.

Definition sample_table : option (option (hstore key_value_t)) :=
  @wsman_get_selector_list hstore HashStore TreeXml None (Some sample_selector_doc).

Lemma selector_table_agrees_witness :
  ∃ r, @wsman_get_selector_list hstore HashStore TreeXml None (Some sample_selector_doc) = Some r ∧
       @table_entry hstore HashStore _ r "Name" = Some (KeyValue CNull (VText (CStr "sda"))) ∧
       @wsman_get_selector TreeXml None (Some sample_selector_doc) "Name" 0 = Some "sda".
Proof.
  destruct (@selector_table_agrees hstore HashStore TreeXml _ None (Some sample_selector_doc)) as (r & E & H).
  - cbn [pick_doc]. rewrite sample_selectors_read. done.
  - cbn [pick_doc]. rewrite sample_selectors_read. apply sample_selectors_readable.
  - assert (Hname : ∀ r', sample_table = Some r' → @table_entry hstore HashStore _ r' "Name" =
      (sample_table ≫= λ r', @table_entry hstore HashStore _ r' "Name")) by (by intros r' ->).
    exists r. split; [done|]. fold sample_table in E. rewrite (Hname r E).
    split; [vm_compute; reflexivity|]. apply (proj1 (H "Name" "sda")). rewrite (Hname r E). vm_compute. reflexivity.
Defined.
