(* ===== verification/EventPool.v ===== *)
(** * The event pool ([wsman-event-pool.c])

    The in-memory pool of notifications: a global list of entries, one per
    subscription that ever got an event, each with the queue of its events.
    Lists are the sequences the list library implements ([UList]).  Entries
    are found by [strcasecmp], so two identifiers that differ in case share a
    queue.  [None] is the overflow of the [EUIDLEN] bytes of an entry's
    identifier; memory is never exhausted. *)

From S2P Require Import Prelude.
From S2P Require Import CString.
From S2P Require Import Xml.

#[local] Open Scope string_scope.
#[local] Open Scope list_scope.
#[local] Open Scope Z_scope.
#[local] Open Scope ow_scope.

Definition EUIDLEN : Z := 64.

Record WsNotificationInfo := Notification {
  headerOpaqueData : option xnode;
  EventAction : option string;
  EventContent : option xnode;
}.

Record event_entry := EventEntry {
  subscription_id : string;
  event_content_list : list WsNotificationInfo;
}.

Record event_pool := EventPool {
  global_event_list : list event_entry;
  max_pull_event_number : Z;
}.

(** The pool as the program starts it: [opaqueData] points to a limit, or is
    NULL. *)
Definition MemEventPoolInit (opaqueData : option Z) : Z * event_pool :=
  (0, EventPool [] (default 16 opaqueData)).

(** The walk of each operation: the position of the entry of a subscription. *)
Fixpoint find_entry (uuid : string) (l : list event_entry) : option (nat * event_entry) :=
  match l with
  | [] => None
  | e :: l =>
      if strcase_eqb (subscription_id e) uuid then Some (O, e)
      else '(i, e) ← find_entry uuid l; Some (S i, e)
  end.

Definition set_queue (q : list WsNotificationInfo) (e : event_entry) : event_entry :=
  EventEntry (subscription_id e) q.

Definition set_entries (l : list event_entry) (p : event_pool) : event_pool :=
  EventPool l (max_pull_event_number p).

Definition MemEventPoolCount (uuid : string) (p : event_pool) : Z :=
  match find_entry uuid (global_event_list p) with
  | Some (_, e) => sint 32 (Z.of_nat (length (event_content_list e)))
  | None => 0
  end.

(** The entry of a subscription, created empty at the end of the list when
    there is none. *)
Definition ensure_entry (uuid : string) (p : event_pool) : option (nat * event_entry * event_pool) :=
  match find_entry uuid (global_event_list p) with
  | Some (i, e) => Some (i, e, p)
  | None =>
      assert! Z.of_nat (String.length uuid) <? EUIDLEN;
      let e := EventEntry uuid [] in
      Some (length (global_event_list p), e, set_entries (global_event_list p ++ [e]) p)
  end.

Definition append_event (i : nat) (e : event_entry) (n : WsNotificationInfo) (p : event_pool)
  : event_pool :=
  set_entries (<[i := set_queue (event_content_list e ++ [n]) e]> (global_event_list p)) p.

Definition MemEventPoolAddEvent (uuid : string) (notification : option WsNotificationInfo)
    (p : event_pool) : option (Z * event_pool) :=
  match notification with
  | None => Some (0, p)
  | Some n => '(i, e, p) ← ensure_entry uuid p; Some (0, append_event i e n p)
  end.

(** The limit is an [int] compared with an unsigned count. *)
Definition MemEventPoolAddPullEvent (uuid : string) (notification : option WsNotificationInfo)
    (p : event_pool) : option (Z * event_pool) :=
  match notification with
  | None => Some (0, p)
  | Some n =>
      '(i, e, p) ← ensure_entry uuid p;
      if wrap64 (max_pull_event_number p) <? Z.of_nat (length (event_content_list e))
      then Some (-1, p)
      else Some (0, append_event i e n p)
  end.

Definition MemEventPoolGetAndDeleteEvent (uuid : string) (p : event_pool)
  : Z * option WsNotificationInfo * event_pool :=
  match find_entry uuid (global_event_list p) with
  | None => (-1, None, p)
  | Some (i, e) =>
      match event_content_list e with
      | [] => (-1, None, p)
      | n :: q => (0, Some n, set_entries (<[i := set_queue q e]> (global_event_list p)) p)
      end
  end.

(** The result holds the events [proc] is called on, in order, when it is not
    NULL. *)
Definition MemEventPoolClearEvent (uuid : string) (proc : bool) (p : event_pool)
  : Z * list WsNotificationInfo * event_pool :=
  match find_entry uuid (global_event_list p) with
  | None => (-1, [], p)
  | Some (i, e) =>
      (0, if proc then event_content_list e else [],
       set_entries (delete i (global_event_list p)) p)
  end.

(** ** The abstract pool: a queue per identifier, up to case *)

Definition queue_key (e : event_entry) : string := str_lower (subscription_id e).

Definition pool_abs (p : event_pool) : gmap string (list WsNotificationInfo) :=
  list_to_map ((λ e, (queue_key e, event_content_list e)) <$> global_event_list p).

Definition queue (uuid : string) (p : event_pool) : list WsNotificationInfo :=
  default [] (pool_abs p !! str_lower uuid).

(** No two entries are found by the same identifier, and identifiers fit. *)
Record pool_ok (p : event_pool) : Prop := {
  pool_keys : NoDup (queue_key <$> global_event_list p);
  pool_ids : Forall (λ e, Z.of_nat (String.length (subscription_id e)) < EUIDLEN)
               (global_event_list p);
}.

Section Proofs.
Implicit Types (p : event_pool) (l : list event_entry) (u : string) (n : WsNotificationInfo).

Lemma strcase_eqb_lower s t : strcase_eqb s t = true ↔ str_lower s = str_lower t.
Proof. apply (str_eqb_eq (str_lower s) (str_lower t)). Qed.

Lemma find_entry_Some u l i e :
  find_entry u l = Some (i, e) → l !! i = Some e ∧ queue_key e = str_lower u.
Proof.
  revert i. induction l as [|x l IH]; intros i Hf; simpl in Hf; [done|].
  destruct (strcase_eqb (subscription_id x) u) eqn:E.
  - injection Hf as <- <-. split; [done|]. by apply strcase_eqb_lower.
  - apply bind_Some in Hf as ([j e'] & Hf & [= <- <-]). by apply IH.
Qed.

Lemma find_entry_None u l : find_entry u l = None ↔ str_lower u ∉ queue_key <$> l.
Proof.
  induction l as [|x l IH]; simpl; [split; [intros _; apply not_elem_of_nil|done]|].
  rewrite not_elem_of_cons, <- IH. unfold queue_key at 1.
  destruct (strcase_eqb (subscription_id x) u) eqn:E.
  - apply strcase_eqb_lower in E. split; [done|]. intros [Hn _]. congruence.
  - assert (str_lower u ≠ str_lower (subscription_id x))
      by (intros Heq; by rewrite (proj2 (strcase_eqb_lower _ _) (eq_sym Heq)) in E).
    destruct (find_entry u l) as [[j e]|]; simpl; naive_solver.
Qed.

Lemma abs_lookup p k q :
  pool_ok p → pool_abs p !! k = Some q ↔
  ∃ e, e ∈ global_event_list p ∧ queue_key e = k ∧ event_content_list e = q.
Proof.
  intros [Hk _]. unfold pool_abs. rewrite <- elem_of_list_to_map.
  - rewrite list_elem_of_fmap. naive_solver.
  - by rewrite <- list_fmap_compose.
Qed.

Lemma find_entry_abs u p :
  pool_ok p → pool_abs p !! str_lower u = (λ ie, event_content_list ie.2) <$> find_entry u (global_event_list p).
Proof.
  intros Hp. destruct (find_entry u (global_event_list p)) as [[i e]|] eqn:E; simpl.
  - apply find_entry_Some in E as [Hi Hu]. apply abs_lookup; [done|].
    exists e. split_and!; [by eapply list_elem_of_lookup_2|done..].
  - apply find_entry_None in E. apply not_elem_of_list_to_map_1.
    by rewrite <- list_fmap_compose.
Qed.

Lemma key_set_queue q e : queue_key (set_queue q e) = queue_key e.
Proof. done. Qed.

Lemma insert_queue_ok p i e q :
  pool_ok p → global_event_list p !! i = Some e →
  pool_ok (set_entries (<[i := set_queue q e]> (global_event_list p)) p).
Proof.
  intros [Hk Hf] Hi. split; simpl.
  - by rewrite list_fmap_insert, list_insert_id by (by rewrite list_lookup_fmap, Hi).
  - apply Forall_insert; [done|]. by eapply (Forall_lookup_1 _ _ _ _ Hf Hi).
Qed.

Lemma insert_queue_abs p i e q :
  pool_ok p → global_event_list p !! i = Some e →
  pool_abs (set_entries (<[i := set_queue q e]> (global_event_list p)) p)
  = <[queue_key e := q]> (pool_abs p).
Proof.
  intros [Hk _]. unfold pool_abs. simpl. revert i. induction (global_event_list p) as [|x l IH];
    intros [|i] Hi; simplify_eq/=.
  - by rewrite insert_insert_eq.
  - apply NoDup_cons in Hk as [Hx Hk]. rewrite IH by done. apply insert_insert_ne.
    intros Heq. apply Hx. rewrite Heq. apply list_elem_of_fmap_2, list_elem_of_lookup_2 with i, Hi.
Qed.

Lemma ensure_entry_spec u p :
  pool_ok p → (Z.of_nat (String.length u) < EUIDLEN ∨ is_Some (pool_abs p !! str_lower u)) →
  ∃ i e p', ensure_entry u p = Some (i, e, p') ∧ pool_ok p' ∧
    global_event_list p' !! i = Some e ∧ queue_key e = str_lower u ∧
    event_content_list e = queue u p ∧ max_pull_event_number p' = max_pull_event_number p ∧
    pool_abs p' = <[str_lower u := queue u p]> (pool_abs p).
Proof.
  intros Hp Hu. unfold ensure_entry, queue. rewrite find_entry_abs in * by done.
  destruct (find_entry u (global_event_list p)) as [[i e]|] eqn:E; simpl.
  - apply find_entry_Some in E as [Hi Hk]. exists i, e, p. split_and!; try done.
    symmetry. apply insert_id, abs_lookup; [done|]. exists e.
    split_and!; [by eapply list_elem_of_lookup_2|done..].
  - destruct Hu as [Hu|[? [=]]]. rewrite (proj2 (Z.ltb_lt _ _) Hu). simpl.
    apply find_entry_None in E. destruct Hp as [Hk Hf].
    eexists _, _, _. split_and!; [done| |simpl; by rewrite lookup_app_r, Nat.sub_diag|done..|].
    + split; simpl.
      * rewrite fmap_app. apply NoDup_app. split_and!; [done| |repeat constructor; apply not_elem_of_nil].
        simpl. intros x Hx ->%list_elem_of_singleton. by apply E.
      * apply Forall_app. split; [done|]. by repeat constructor.
    + unfold pool_abs. simpl. rewrite fmap_app, list_to_map_app. simpl.
      apply map_eq. intros k. destruct (decide (k = str_lower u)) as [->|Hne].
      * rewrite lookup_insert_eq, lookup_union_r, lookup_insert_eq; [done|].
        apply not_elem_of_list_to_map_1. by rewrite <- list_fmap_compose.
      * rewrite lookup_insert_ne by done. rewrite lookup_union_l; [done|].
        unfold queue_key. simpl. by rewrite lookup_insert_ne, lookup_empty by done.
Qed.

Lemma append_event_spec p i e n :
  pool_ok p → global_event_list p !! i = Some e →
  pool_ok (append_event i e n p) ∧
  pool_abs (append_event i e n p) = <[queue_key e := event_content_list e ++ [n]]> (pool_abs p).
Proof. intros Hp Hi. split; [by apply insert_queue_ok|by apply insert_queue_abs]. Qed.

Lemma delete_entry_spec p i e :
  pool_ok p → global_event_list p !! i = Some e →
  pool_ok (set_entries (delete i (global_event_list p)) p) ∧
  pool_abs (set_entries (delete i (global_event_list p)) p) = delete (queue_key e) (pool_abs p).
Proof.
  intros [Hk Hf] Hi. split.
  - split; simpl.
    + apply (sublist_NoDup _ (queue_key <$> global_event_list p)); [done|].
      apply fmap_sublist, sublist_delete.
    + by apply Forall_delete.
  - unfold pool_abs. simpl. clear Hf. revert i Hi. induction (global_event_list p) as [|x l IH];
      intros [|i] Hi; simplify_eq/=; apply NoDup_cons in Hk as [Hx Hk].
    + rewrite delete_insert_id; [done|]. apply not_elem_of_list_to_map_1.
      by rewrite <- list_fmap_compose.
    + rewrite IH by done. rewrite delete_insert_ne; [done|]. intros Heq. apply Hx. rewrite <- Heq.
      apply list_elem_of_fmap_2, list_elem_of_lookup_2 with i, Hi.
Qed.
(** ** What each operation does to the queues *)

Definition fits u p : Prop :=
  Z.of_nat (String.length u) < EUIDLEN ∨ is_Some (pool_abs p !! str_lower u).

Lemma add_event_spec u n p :
  pool_ok p → fits u p →
  ∃ p', MemEventPoolAddEvent u (Some n) p = Some (0, p') ∧ pool_ok p' ∧
    max_pull_event_number p' = max_pull_event_number p ∧
    pool_abs p' = <[str_lower u := queue u p ++ [n]]> (pool_abs p).
Proof.
  intros Hp Hu. destruct (ensure_entry_spec u p Hp Hu) as (i & e & p1 & He & Hp1 & Hi & Hk & Hq & Hm & Ha).
  unfold MemEventPoolAddEvent. rewrite He. simpl.
  destruct (append_event_spec p1 i e n Hp1 Hi) as [Hok Habs].
  eexists. split_and!; [done|done|done|]. by rewrite Habs, Ha, Hk, Hq, insert_insert_eq.
Qed.

Lemma add_pull_event_spec u n p :
  pool_ok p → fits u p →
  let full := wrap64 (max_pull_event_number p) <? Z.of_nat (length (queue u p)) in
  ∃ p', MemEventPoolAddPullEvent u (Some n) p = Some (if full then -1 else 0, p') ∧ pool_ok p' ∧
    max_pull_event_number p' = max_pull_event_number p ∧
    pool_abs p' = <[str_lower u := queue u p ++ (if full then [] else [n])]> (pool_abs p).
Proof.
  intros Hp Hu. destruct (ensure_entry_spec u p Hp Hu) as (i & e & p1 & He & Hp1 & Hi & Hk & Hq & Hm & Ha).
  unfold MemEventPoolAddPullEvent. rewrite He. simpl. rewrite Hm, Hq.
  destruct (wrap64 (max_pull_event_number p) <? Z.of_nat (length (queue u p))).
  - exists p1. by rewrite app_nil_r.
  - destruct (append_event_spec p1 i e n Hp1 Hi) as [Hok Habs].
    eexists. split_and!; [done|done|done|]. by rewrite Habs, Ha, Hk, Hq, insert_insert_eq.
Qed.

Lemma remove_event_spec u p :
  pool_ok p →
  match queue u p with
  | [] => MemEventPoolGetAndDeleteEvent u p = (-1, None, p)
  | n :: q =>
      ∃ p', MemEventPoolGetAndDeleteEvent u p = (0, Some n, p') ∧ pool_ok p' ∧
        max_pull_event_number p' = max_pull_event_number p ∧
        pool_abs p' = <[str_lower u := q]> (pool_abs p)
  end.
Proof.
  intros Hp. unfold queue, MemEventPoolGetAndDeleteEvent. rewrite find_entry_abs by done.
  destruct (find_entry u (global_event_list p)) as [[i e]|] eqn:E; simpl; [|done].
  apply find_entry_Some in E as [Hi Hk].
  destruct (event_content_list e) as [|n q]; [done|].
  eexists. split_and!; [done|by apply insert_queue_ok|done|]. by rewrite insert_queue_abs, Hk.
Qed.

Lemma clear_event_spec u proc p :
  pool_ok p →
  if bool_decide (is_Some (pool_abs p !! str_lower u)) then
    ∃ p', MemEventPoolClearEvent u proc p = (0, if proc then queue u p else [], p') ∧ pool_ok p' ∧
      max_pull_event_number p' = max_pull_event_number p ∧
      pool_abs p' = delete (str_lower u) (pool_abs p)
  else MemEventPoolClearEvent u proc p = (-1, [], p).
Proof.
  intros Hp. unfold queue, MemEventPoolClearEvent. rewrite find_entry_abs by done.
  destruct (find_entry u (global_event_list p)) as [[i e]|] eqn:E; simpl; [|done].
  apply find_entry_Some in E as [Hi Hk]. destruct (delete_entry_spec p i e Hp Hi) as [Hok Habs].
  eexists. split_and!; [done|done|done|]. by rewrite Habs, Hk.
Qed.

Lemma count_event_spec u p :
  pool_ok p → Z.of_nat (length (queue u p)) < 2 ^ 31 →
  MemEventPoolCount u p = Z.of_nat (length (queue u p)).
Proof.
  intros Hp. unfold queue, MemEventPoolCount. rewrite find_entry_abs by done.
  destruct (find_entry u (global_event_list p)) as [[i e]|] eqn:E; simpl; [|done].
  intros Hlt. apply sint_small; lia.
Qed.

Lemma queue_insert u v q p p' :
  pool_abs p' = <[str_lower u := q]> (pool_abs p) →
  queue v p' = if bool_decide (str_lower v = str_lower u) then q else queue v p.
Proof.
  intros Ha. unfold queue. rewrite Ha. case_bool_decide as Hc.
  - by rewrite Hc, lookup_insert_eq.
  - by rewrite lookup_insert_ne.
Qed.

Lemma queue_delete u v p p' :
  pool_abs p' = delete (str_lower u) (pool_abs p) →
  queue v p' = if bool_decide (str_lower v = str_lower u) then [] else queue v p.
Proof.
  intros Ha. unfold queue. rewrite Ha. case_bool_decide as Hc.
  - by rewrite Hc, lookup_delete_eq.
  - by rewrite lookup_delete_ne.
Qed.

(** ** Runs *)

Inductive pool_op :=
  | PAdd (uuid : string) (n : WsNotificationInfo)
  | PAddPull (uuid : string) (n : WsNotificationInfo)
  | PRemove (uuid : string)
  | PClear (uuid : string).

Definition op_id (o : pool_op) : string :=
  match o with PAdd u _ | PAddPull u _ | PRemove u | PClear u => u end.

(** An operation's effect: the events it put in the pool, those it took out,
    and the pool after it. *)
Definition pool_step (o : pool_op) (p : event_pool)
  : option (list WsNotificationInfo * list WsNotificationInfo * event_pool) :=
  match o with
  | PAdd u n => '(_, p') ← MemEventPoolAddEvent u (Some n) p; Some ([n], [], p')
  | PAddPull u n =>
      '(r, p') ← MemEventPoolAddPullEvent u (Some n) p;
      Some (if r =? 0 then [n] else [], [], p')
  | PRemove u => let '(_, n, p') := MemEventPoolGetAndDeleteEvent u p in Some ([], option_list n, p')
  | PClear u => let '(_, ns, p') := MemEventPoolClearEvent u true p in Some ([], ns, p')
  end.

(** The events of subscription [u] a run accepts and gives out, in order. *)
Fixpoint pool_run (u : string) (os : list pool_op) (p : event_pool)
  : option (list WsNotificationInfo * list WsNotificationInfo * event_pool) :=
  match os with
  | [] => Some ([], [], p)
  | o :: os =>
      '(a, r, p) ← pool_step o p;
      '(a', r', p) ← pool_run u os p;
      let mine := bool_decide (str_lower u = str_lower (op_id o)) in
      Some ((if mine then a else []) ++ a', (if mine then r else []) ++ r', p)
  end.

Lemma pool_step_spec o p :
  pool_ok p → fits (op_id o) p →
  ∃ a r p', pool_step o p = Some (a, r, p') ∧ pool_ok p' ∧
    max_pull_event_number p' = max_pull_event_number p ∧
    queue (op_id o) p ++ a = r ++ queue (op_id o) p' ∧
    (∀ v, str_lower v ≠ str_lower (op_id o) → queue v p' = queue v p).
Proof.
  intros Hp Hu. destruct o as [u n|u n|u|u]; cbn [pool_step op_id] in *.
  - destruct (add_event_spec u n p Hp Hu) as (p' & -> & Hp' & Hm & Ha). simpl.
    eexists _, _, p'. split_and!; [done..| |].
    + by rewrite (queue_insert u u _ _ _ Ha), bool_decide_eq_true_2.
    + intros v Hv. by rewrite (queue_insert u v _ _ _ Ha), bool_decide_eq_false_2.
  - destruct (add_pull_event_spec u n p Hp Hu) as (p' & -> & Hp' & Hm & Ha). simpl.
    eexists _, _, p'. split_and!; [done..| |].
    + rewrite (queue_insert u u _ _ _ Ha), bool_decide_eq_true_2 by done. by case_match.
    + intros v Hv. by rewrite (queue_insert u v _ _ _ Ha), bool_decide_eq_false_2.
  - pose proof (remove_event_spec u p Hp) as Hr. destruct (queue u p) as [|n q] eqn:E.
    + rewrite Hr. eexists _, _, p. by rewrite E.
    + destruct Hr as (p' & -> & Hp' & Hm & Ha). eexists _, _, p'. split_and!; [done..| |].
      * by rewrite (queue_insert u u _ _ _ Ha), bool_decide_eq_true_2, app_nil_r.
      * intros v Hv. by rewrite (queue_insert u v _ _ _ Ha), bool_decide_eq_false_2.
  - pose proof (clear_event_spec u true p Hp) as Hr. case_bool_decide as Hs.
    + destruct Hr as (p' & -> & Hp' & Hm & Ha). eexists _, _, p'. split_and!; [done..| |].
      * by rewrite (queue_delete u u _ _ Ha), bool_decide_eq_true_2.
      * intros v Hv. by rewrite (queue_delete u v _ _ Ha), bool_decide_eq_false_2.
    + rewrite Hr. eexists _, _, p. split_and!; try done. by rewrite app_nil_r.
Qed.

Lemma queue_init limit u : queue u (MemEventPoolInit limit).2 = [].
Proof. unfold queue, pool_abs. simpl. by rewrite lookup_empty. Qed.

Definition short_ids (os : list pool_op) : Prop :=
  Forall (λ o, Z.of_nat (String.length (op_id o)) < EUIDLEN) os.

Lemma pool_run_spec u os : ∀ p,
  pool_ok p → short_ids os →
  ∃ a r p', pool_run u os p = Some (a, r, p') ∧ pool_ok p' ∧ queue u p ++ a = r ++ queue u p'.
Proof.
  induction os as [|o os IH]; intros p Hp Hs; [by eexists [], [], p; rewrite app_nil_r|].
  apply Forall_cons in Hs as [Ho Hs].
  destruct (pool_step_spec o p Hp (or_introl Ho)) as (a & r & p1 & Hst & Hp1 & _ & Hq & Hne).
  destruct (IH p1 Hp1 Hs) as (a' & r' & p2 & Hrun & Hp2 & Hq').
  cbn [pool_run]. rewrite Hst. cbn [mbind option_bind]. rewrite Hrun. cbn [mbind option_bind].
  eexists _, _, p2. split_and!; [done|done|]. case_bool_decide as Hc.
  - unfold queue in *. rewrite Hc in *. by rewrite <- app_assoc, <- Hq', app_assoc, Hq, <- app_assoc.
  - by rewrite <- Hne by done.
Qed.

(** C30: no event is lost, duplicated or reordered.  Over any run of the pool's
    operations from an initialised pool, the events that left the queue of a
    subscription (taken by a sender or handed to the clear procedure), in the
    order they left, followed by those still queued, are exactly the events
    accepted for it, in the order they were added; the operations of other
    subscriptions do not interfere. *)
Theorem event_pool_fifo limit u os :
  short_ids os →
  ∃ accepted removed p,
    pool_run u os (MemEventPoolInit limit).2 = Some (accepted, removed, p) ∧
    accepted = removed ++ queue u p.
Proof.
  intros Hs. destruct (pool_run_spec u os (MemEventPoolInit limit).2) as (a & r & p & Hr & _ & Hq).
  - split; constructor.
  - done.
  - rewrite queue_init in Hq. by exists a, r, p.
Qed.

(** A pull subscription keeps at most [max_pull_event_number + 1] events:
    in a run that only adds pull events, exactly the first
    [max_pull_event_number + 1] are accepted, one more than the limit. *)
Theorem pull_queue_bound limit u ns :
  0 ≤ limit < 2 ^ 31 → Z.of_nat (String.length u) < EUIDLEN →
  ∃ p, pool_run u (PAddPull u <$> ns) (MemEventPoolInit (Some limit)).2
       = Some (take (Z.to_nat (limit + 1)) ns, [], p) ∧
       queue u p = take (Z.to_nat (limit + 1)) ns.
Proof.
  intros Hl Hu.
  assert (Hgen : ∀ ns p, pool_ok p → max_pull_event_number p = limit →
    Z.of_nat (length (queue u p)) ≤ limit + 1 →
    let k := (Z.to_nat (limit + 1) - length (queue u p))%nat in
    ∃ p', pool_run u (PAddPull u <$> ns) p = Some (take k ns, [], p') ∧
          queue u p' = queue u p ++ take k ns).
  { clear ns. induction ns as [|n ns IH]; intros p Hp Hm Hq k.
    { exists p. by rewrite take_nil, app_nil_r. }
    destruct (add_pull_event_spec u n p Hp (or_introl Hu)) as (p1 & Hst & Hp1 & Hm1 & Ha).
    pose proof (queue_insert u u _ _ _ Ha) as Hq1. rewrite bool_decide_eq_true_2 in Hq1 by done.
    cbn [pool_run fmap list_fmap pool_step op_id]. rewrite Hst. cbn [mbind option_bind].
    rewrite Hm, wrap_small in Hst, Hq1 |- * by lia.
    rewrite (bool_decide_eq_true_2 (str_lower u = str_lower u)) by done.
    destruct (Z.ltb_spec limit (Z.of_nat (length (queue u p)))) as [Hfull|Hfree].
    - rewrite app_nil_r in Hq1. destruct (IH p1) as (p2 & Hrun & Hq2); [done|congruence|by rewrite Hq1|].
      rewrite Hrun. cbn [mbind option_bind]. exists p2. rewrite Hq1 in *.
      replace k with O by lia. rewrite Hq2.
      by replace (Z.to_nat (limit + 1) - length (queue u p))%nat with O by lia.
    - assert (Hlen : length (queue u p1) = S (length (queue u p))) by (rewrite Hq1, length_app; simpl; lia).
      destruct (IH p1) as (p2 & Hrun & Hq2); [done|congruence|lia|].
      rewrite Hrun. cbn [mbind option_bind]. exists p2. rewrite Hlen, Hq1 in *.
      replace k with (S (Z.to_nat (limit + 1) - S (length (queue u p)))) by lia.
      split; [done|]. by rewrite Hq2, <- app_assoc. }
  destruct (Hgen ns (MemEventPoolInit (Some limit)).2) as (p & Hr & Hq).
  - split; constructor.
  - done.
  - rewrite queue_init. simpl. lia.
  - rewrite queue_init, Nat.sub_0_r in Hr, Hq. by exists p.
Qed.
End Proofs.

Definition sample_event : WsNotificationInfo := Notification None None None.

Lemma event_pool_fifo_witness :
  let os := [PAdd "a" sample_event; PAdd "b" sample_event; PRemove "A"; PClear "b"] in
  short_ids os ∧
  ∃ accepted removed p,
    pool_run "a" os (MemEventPoolInit None).2 = Some (accepted, removed, p) ∧
    accepted = removed ++ queue "a" p.
Proof.
  intros os. assert (H : short_ids os) by (repeat constructor).
  split; [exact H|]. exact (event_pool_fifo None "a" os H).
Defined.

Lemma pull_queue_bound_witness :
  ∃ p, pool_run "a" (PAddPull "a" <$> replicate 5 sample_event) (MemEventPoolInit (Some 2)).2
       = Some (take (Z.to_nat (2 + 1)) (replicate 5 sample_event), [], p) ∧
       queue "a" p = take (Z.to_nat (2 + 1)) (replicate 5 sample_event).
Proof. apply (pull_queue_bound 2 "a" (replicate 5 sample_event)); [lia|reflexivity]. Defined.
