(* ===== verification/Base64.v ===== *)
(** * Base 64 ([u/base64.c])

    Bytes are integers in [[0, 256)]; [char] is signed, as on the platforms the
    program is built for.  Writes go to an output sequence; [None] is a read
    outside a table. *)

From S2P Require Import Prelude.
From S2P Require Import CString.

#[local] Open Scope string_scope.
#[local] Open Scope list_scope.
#[local] Open Scope Z_scope.
#[local] Open Scope ow_scope.

Definition byte (b : Z) : Prop := 0 ≤ b < 256.
Definition char_of (b : Z) : Z := sint 8 b.

Fixpoint codes (s : string) : list Z :=
  match s with EmptyString => [] | String a s => code a :: codes s end.

Definition ETable : list Z :=
  codes "ABCDEFGHIJKLMNOPQRSTUVWXYZabcdefghijklmnopqrstuvwxyz0123456789+/".

(** The loops of [init_DTable] as ranges, the later assignments first. *)
Definition in_range (i lo hi : Z) : bool := (lo <=? i) && (i <=? hi).

Definition DTable_at (i : Z) : Z :=
  if i =? 61 then 0                              (* '=' *)
  else if i =? 47 then 63                        (* '/' *)
  else if i =? 43 then 62                        (* '+' *)
  else if in_range i 48 57 then 52 + (i - 48)    (* '0'..'9' *)
  else if in_range i 115 122 then 44 + (i - 115) (* 's'..'z' *)
  else if in_range i 106 114 then 35 + (i - 106) (* 'j'..'r' *)
  else if in_range i 97 105 then 26 + (i - 97)   (* 'a'..'i' *)
  else if in_range i 83 90 then 18 + (i - 83)    (* 'S'..'Z' *)
  else if in_range i 74 82 then 9 + (i - 74)     (* 'J'..'R' *)
  else if in_range i 65 73 then i - 65           (* 'A'..'I' *)
  else if in_range i 0 254 then 0x80
  else 0.

(** [DTable[(unsigned int)c]] for a signed character: the index of a negative
    one is outside the table. *)
Definition DTable_get (b : Z) : option Z :=
  let i := wrap32 (char_of b) in
  if i <? 256 then Some (DTable_at i) else None.

(** ** Encoding *)

Definition enc (v : Z) : Z := default 0 (ETable !! Z.to_nat v).

(** One block: [in0 in1 in2] is the buffer, [n] the number of bytes read into
    it. *)
Definition encode_block (n : nat) (in0 in1 in2 : Z) : list Z :=
  let o0 := enc (Z.land (Z.shiftr in0 2) 0x3f) in
  let o1 := enc (Z.lor (Z.shiftl (Z.land in0 3) 4) (Z.land (Z.shiftr in1 4) 0x0f)) in
  let o2 := enc (Z.lor (Z.shiftl (Z.land in1 0xf) 2) (Z.land (Z.shiftr in2 6) 0x03)) in
  let o3 := enc (Z.land in2 0x3f) in
  [o0; o1; if (n <? 2)%nat then 61 else o2; if (n <? 3)%nat then 61 else o3].

(** The buffer keeps the bytes of the previous block. *)
Fixpoint encode_loop (s : list Z) (in1 in2 : Z) : list Z :=
  match s with
  | [] => []
  | [a] => encode_block 1 (char_of a) in1 in2
  | [a; b] => encode_block 2 (char_of a) (char_of b) in2
  | a :: b :: c :: s =>
      encode_block 3 (char_of a) (char_of b) (char_of c) ++ encode_loop s (char_of b) (char_of c)
  end.

(** The characters written, without the terminator. *)
Definition ws_base64_encode (from : list Z) : list Z := encode_loop from 0 0.

(** ** Decoding *)

(** What one block of four characters gives: [None] inside is a character that
    is refused. *)
Definition decode_block (a0 a1 a2 a3 : Z) : option (option (list Z)) :=
  b0 ← DTable_get a0;
  if negb (Z.land b0 0x80 =? 0) then Some None
  else b1 ← DTable_get a1;
  if negb (Z.land b1 0x80 =? 0) then Some None
  else b2 ← DTable_get a2;
  if negb (Z.land b2 0x80 =? 0) then Some None
  else b3 ← DTable_get a3;
  if negb (Z.land b3 0x80 =? 0) then Some None
  else
    let o0 := wrap8 (Z.lor (Z.shiftl b0 2) (Z.shiftr b1 4)) in
    let o1 := wrap8 (Z.lor (Z.shiftl b1 4) (Z.shiftr b2 2)) in
    let o2 := wrap8 (Z.lor (Z.shiftl b2 6) b3) in
    let i := if a2 =? 61 then 1%nat else if a3 =? 61 then 2%nat else 3%nat in
    Some (Some (take i [o0; o1; o2])).

(** The bytes written, and whether every character was accepted. *)
Fixpoint decode_loop (s : list Z) : option (list Z * bool) :=
  match s with
  | a0 :: a1 :: a2 :: a3 :: s =>
      decode_block a0 a1 a2 a3 ≫= λ r : option (list Z),
      match r with
      | None => Some ([], false)
      | Some o => '(o', ok) ← decode_loop s; Some (o ++ o', ok)
      end
  | _ => Some ([], true)
  end.

(** The bytes written to [to], and the result: 0 for a malformed input. *)
Definition ws_base64_decode (from : list Z) (to_len : Z) : option (list Z * Z) :=
  let len := Z.of_nat (length from) in
  if negb (len mod 4 =? 0) then Some ([], 0)
  else if to_len <? len / 4 * 3 then Some ([], 0)
  else
    '(o, ok) ← decode_loop from;
    Some (o, if ok : bool then Z.of_nat (length o) else 0).

(** ** Finite checks *)

Definition all_below (n : nat) (P : Z → bool) : bool := forallb (λ i, P (Z.of_nat i)) (seq 0 n).

Lemma all_below_spec n P v : all_below n P = true → 0 ≤ v < Z.of_nat n → P v = true.
Proof.
  unfold all_below. rewrite forallb_forall. intros H Hv. rewrite <- (Z2Nat.id v) by lia.
  apply H, in_seq. lia.
Qed.

(** A character of the alphabet decodes to the value it encodes. *)
Lemma enc_dec v :
  0 ≤ v < 64 → DTable_get (enc v) = Some v ∧ Z.land v 0x80 = 0 ∧ enc v ≠ 61.
Proof.
  intros Hv.
  assert (H : all_below 64 (λ v, bool_decide (DTable_get (enc v) = Some v ∧ Z.land v 0x80 = 0 ∧ enc v ≠ 61)) = true)
    by (vm_compute; reflexivity).
  apply (all_below_spec _ _ v H) in Hv. by apply bool_decide_eq_true in Hv.
Qed.

Definition six (v : Z) : Prop := 0 ≤ v < 64.

(** The four values of a block. *)
Definition v0 (in0 : Z) : Z := Z.land (Z.shiftr in0 2) 0x3f.
Definition v1 (in0 in1 : Z) : Z := Z.lor (Z.shiftl (Z.land in0 3) 4) (Z.land (Z.shiftr in1 4) 0x0f).
Definition v2 (in1 in2 : Z) : Z := Z.lor (Z.shiftl (Z.land in1 0xf) 2) (Z.land (Z.shiftr in2 6) 0x03).
Definition v3 (in2 : Z) : Z := Z.land in2 0x3f.

Definition o_0 (b0 b1 : Z) : Z := wrap8 (Z.lor (Z.shiftl b0 2) (Z.shiftr b1 4)).
Definition o_1 (b1 b2 : Z) : Z := wrap8 (Z.lor (Z.shiftl b1 4) (Z.shiftr b2 2)).
Definition o_2 (b2 b3 : Z) : Z := wrap8 (Z.lor (Z.shiftl b2 6) b3).

(** The bit fields of a character, checked on all bytes; the combinations,
    checked on all values of the fields. *)
Definition field_check (b : Z) : bool :=
  let c := char_of b in
  (v0 c =? b / 4) && (Z.land c 3 =? b mod 4) && (Z.land (Z.shiftr c 4) 0x0f =? b / 16) &&
  (Z.land c 0xf =? b mod 16) && (Z.land (Z.shiftr c 6) 0x03 =? b / 64) && (v3 c =? b mod 64).

Lemma char_fields b :
  byte b →
  v0 (char_of b) = b / 4 ∧ Z.land (char_of b) 3 = b mod 4 ∧
  Z.land (Z.shiftr (char_of b) 4) 0x0f = b / 16 ∧ Z.land (char_of b) 0xf = b mod 16 ∧
  Z.land (Z.shiftr (char_of b) 6) 0x03 = b / 64 ∧ v3 (char_of b) = b mod 64.
Proof.
  intros Hb. assert (H : all_below 256 field_check = true) by (vm_compute; reflexivity).
  apply (all_below_spec _ _ b H) in Hb. unfold field_check in Hb.
  rewrite !andb_true_iff, !Z.eqb_eq in Hb. tauto.
Qed.

Lemma lor_fields x y k n :
  0 ≤ k → 0 ≤ y < 2 ^ k → n = 2 ^ k → Z.lor (Z.shiftl x k) y = x * n + y.
Proof.
  intros Hk Hy ->. rewrite Z.shiftl_mul_pow2 by done. rewrite <- Z.add_nocarry_lor; [done|].
  apply Z.bits_inj'. intros i Hi. rewrite Z.land_spec, Z.bits_0.
  destruct (decide (i < k)) as [Hlt|Hge].
  - by rewrite Z.mul_pow2_bits_low.
  - destruct (decide (y = 0)) as [->|]; [by rewrite Z.bits_0, andb_false_r|].
    rewrite (Z.bits_above_log2 y i), andb_false_r; [done|lia|]. apply Z.log2_lt_pow2; [lia|].
    apply Z.lt_le_trans with (2 ^ k); [lia|]. apply Z.pow_le_mono_r; lia.
Qed.

Lemma v1_eq a b : byte a → byte b → v1 (char_of a) (char_of b) = (a mod 4) * 16 + b / 16.
Proof.
  intros Ha Hb. unfold v1. destruct (char_fields a Ha) as (_ & -> & _), (char_fields b Hb) as (_ & _ & -> & _).
  apply lor_fields; [done| |done]. unfold byte in Hb. split; [apply Z.div_pos; lia|apply Z.div_lt_upper_bound; lia].
Qed.

Lemma v2_eq b c : byte b → byte c → v2 (char_of b) (char_of c) = (b mod 16) * 4 + c / 64.
Proof.
  intros Hb Hc. unfold v2.
  destruct (char_fields b Hb) as (_ & _ & _ & -> & _), (char_fields c Hc) as (_ & _ & _ & _ & -> & _).
  apply lor_fields; [done| |done]. unfold byte in Hc. split; [apply Z.div_pos; lia|apply Z.div_lt_upper_bound; lia].
Qed.

Lemma decode_fields b0 b1 b2 b3 :
  six b0 → six b1 → six b2 → six b3 →
  o_0 b0 b1 = b0 * 4 + b1 / 16 ∧ o_1 b1 b2 = (b1 mod 16) * 16 + b2 / 4 ∧ o_2 b2 b3 = (b2 mod 4) * 64 + b3.
Proof.
  unfold six, o_0, o_1, o_2, wrap. intros H0 H1 H2 H3.
  rewrite !Z.shiftr_div_pow2 by done. change (2 ^ 4) with 16. change (2 ^ 2) with 4.
  rewrite (lor_fields b0 (b1 / 16) 2 4), (lor_fields b1 (b2 / 4) 4 16), (lor_fields b2 b3 6 64);
    try lia; change (2 ^ 8) with 256; Z.to_euclidean_division_equations; lia.
Qed.

(** ** Blocks *)

(** A block whose values are all in the alphabet. *)
Lemma decode_block_enc w0 w1 w2 w3 p2 p3 :
  six w0 → six w1 → six w2 → six w3 → (p2 = true → p3 = true) →
  decode_block (enc w0) (enc w1) (if p2 then 61 else enc w2) (if p3 then 61 else enc w3)
  = Some (Some (take (if p2 then 1 else if p3 then 2 else 3)%nat
      [o_0 w0 w1; o_1 w1 (if p2 then 0 else w2); o_2 (if p2 then 0 else w2) (if p3 then 0 else w3)])).
Proof.
  intros H0 H1 H2 H3 Hp.
  destruct (enc_dec w0 H0) as (D0 & L0 & _), (enc_dec w1 H1) as (D1 & L1 & _),
    (enc_dec w2 H2) as (D2 & L2 & N2), (enc_dec w3 H3) as (D3 & L3 & N3).
  unfold decode_block. rewrite D0, D1. cbn [mbind option_bind]. rewrite L0, L1.
  destruct p2; [rewrite (Hp eq_refl) in *|destruct p3].
  - done.
  - rewrite D2. cbn [mbind option_bind]. rewrite L2. apply Z.eqb_neq in N2. rewrite N2. done.
  - rewrite D2, D3. cbn [mbind option_bind]. rewrite L2, L3. apply Z.eqb_neq in N2, N3. by rewrite N2, N3.
Qed.

Lemma values_six a b c :
  byte a → byte b → byte c →
  six (v0 (char_of a)) ∧ six (v1 (char_of a) (char_of b)) ∧ six (v2 (char_of b) (char_of c)) ∧
  six (v3 (char_of c)).
Proof.
  intros Ha Hb Hc. rewrite v1_eq, v2_eq by done.
  destruct (char_fields a Ha) as (-> & _), (char_fields c Hc) as (_ & _ & _ & _ & _ & ->).
  unfold six, byte in *. Z.to_euclidean_division_equations. lia.
Qed.

Lemma values_decode a b c :
  byte a → byte b → byte c →
  o_0 (v0 (char_of a)) (v1 (char_of a) (char_of b)) = a ∧
  o_1 (v1 (char_of a) (char_of b)) (v2 (char_of b) (char_of c)) = b ∧
  o_2 (v2 (char_of b) (char_of c)) (v3 (char_of c)) = c.
Proof.
  intros Ha Hb Hc. destruct (values_six a b c Ha Hb Hc) as (S0 & S1 & S2 & S3).
  destruct (decode_fields _ _ _ _ S0 S1 S2 S3) as (-> & -> & ->). rewrite v1_eq, v2_eq by done.
  destruct (char_fields a Ha) as (-> & _), (char_fields c Hc) as (_ & _ & _ & _ & _ & ->).
  clear S0 S1 S2 S3. unfold byte in *. split_and!; Z.to_euclidean_division_equations; lia.
Qed.

(** Decoding a block gives its bytes back, whatever the buffer held after
    them. *)
Lemma decode_encode_block n a b c :
  byte a → byte b → byte c → (1 ≤ n ≤ 3)%nat →
  ∃ x0 x1 x2 x3, encode_block n (char_of a) (char_of b) (char_of c) = [x0; x1; x2; x3] ∧
    decode_block x0 x1 x2 x3 = Some (Some (take n [a; b; c])).
Proof.
  intros Ha Hb Hc Hn. eexists _, _, _, _. split; [done|].
  destruct (values_six a b c Ha Hb Hc) as (S0 & S1 & S2 & S3).
  destruct (values_decode a b c Ha Hb Hc) as (E0 & E1 & E2).
  fold (v0 (char_of a)) (v1 (char_of a) (char_of b)) (v2 (char_of b) (char_of c)) (v3 (char_of c)).
  rewrite decode_block_enc by (try done; destruct n as [|[|[|]]]; simpl; lia || done).
  destruct n as [|[|[|[|n]]]]; [lia|..|lia]; cbn; by rewrite ?E0, ?E1, ?E2.
Qed.

Lemma list_ind3 {A} (P : list A → Prop) :
  P [] → (∀ a, P [a]) → (∀ a b, P [a; b]) → (∀ a b c l, P l → P (a :: b :: c :: l)) → ∀ l, P l.
Proof.
  intros H0 H1 H2 H3. fix IH 1. intros [|a [|b [|c l]]]; [done|done|done|]. apply H3, IH.
Qed.

Lemma decode_encode_loop s : ∀ i1 i2,
  Forall byte s → byte i1 → byte i2 →
  decode_loop (encode_loop s (char_of i1) (char_of i2)) = Some (s, true) ∧
  Z.of_nat (length (encode_loop s (char_of i1) (char_of i2))) = (Z.of_nat (length s) + 2) / 3 * 4.
Proof.
  induction s as [|a|a b|a b c s IH] using list_ind3; intros i1 i2 Hs H1 H2.
  - done.
  - apply Forall_cons in Hs as [Ha _].
    destruct (decode_encode_block 1 a i1 i2) as (x0 & x1 & x2 & x3 & Ee & Ed); [done..|lia|].
    cbn [encode_loop]. rewrite Ee. split; [|done]. cbn [decode_loop]. by rewrite Ed.
  - apply Forall_cons in Hs as [Ha [Hb _]%Forall_cons].
    destruct (decode_encode_block 2 a b i2) as (x0 & x1 & x2 & x3 & Ee & Ed); [done..|lia|].
    cbn [encode_loop]. rewrite Ee. split; [|done]. cbn [decode_loop]. by rewrite Ed.
  - apply Forall_cons in Hs as [Ha [Hb [Hc Hs]%Forall_cons]%Forall_cons].
    destruct (decode_encode_block 3 a b c) as (x0 & x1 & x2 & x3 & Ee & Ed); [done..|lia|].
    destruct (IH b c Hs Hb Hc) as [IHd IHl]. cbn [encode_loop]. rewrite Ee. split.
    + cbn [app decode_loop]. rewrite Ed. cbn [mbind option_bind]. by rewrite IHd.
    + rewrite length_app, Nat2Z.inj_add, IHl. cbn [length].
      replace (Z.of_nat (S (S (S (length s)))) + 2) with (Z.of_nat (length s) + 2 + 1 * 3) by lia.
      rewrite Z.div_add by lia. lia.
Qed.

(** Decoding what was encoded gives the bytes back, for every input and
    every output buffer with room for whole blocks, although the encoder
    leaves bytes of the previous block in its buffer. *)
Theorem base64_roundtrip s to_len :
  Forall byte s → (Z.of_nat (length s) + 2) / 3 * 3 ≤ to_len →
  ws_base64_decode (ws_base64_encode s) to_len = Some (s, Z.of_nat (length s)).
Proof.
  intros Hs Hl. unfold ws_base64_encode. change 0 with (char_of 0).
  destruct (decode_encode_loop s 0 0 Hs) as [Hd Hn]; [done..|].
  unfold ws_base64_decode. rewrite Hn, Hd, Z.mod_mul, Z.div_mul by lia. cbn [negb Z.eqb].
  by rewrite (proj2 (Z.ltb_ge _ _)).
Qed.

(** ** Bounds *)

Lemma DTable_get_spec b :
  byte b → if decide (b < 128) then is_Some (DTable_get b) else DTable_get b = None.
Proof.
  intros Hb.
  assert (H : all_below 256 (λ b, if b <? 128 then bool_decide (is_Some (DTable_get b))
                                  else bool_decide (DTable_get b = None)) = true) by (vm_compute; reflexivity).
  apply (all_below_spec _ _ b H) in Hb.
  case_decide as Hc; [rewrite (proj2 (Z.ltb_lt _ _) Hc) in Hb|rewrite (proj2 (Z.ltb_ge _ _)) in Hb by lia];
    by apply bool_decide_eq_true in Hb.
Qed.

Lemma DTable_get_defined b : byte b → b < 128 → is_Some (DTable_get b).
Proof. intros Hb Hlt. pose proof (DTable_get_spec b Hb) as H. by rewrite decide_True in H. Qed.

Lemma decode_block_length a0 a1 a2 a3 o :
  decode_block a0 a1 a2 a3 = Some (Some o) → (length o ≤ 3)%nat.
Proof.
  unfold decode_block. intros H. repeat (case_match || (bind_inv H; simplify_eq)); simplify_eq;
    rewrite length_take; simpl; lia.
Qed.

Lemma list_ind4 {A} (P : list A → Prop) :
  P [] → (∀ a, P [a]) → (∀ a b, P [a; b]) → (∀ a b c, P [a; b; c]) →
  (∀ a b c d l, P l → P (a :: b :: c :: d :: l)) → ∀ l, P l.
Proof.
  intros H0 H1 H2 H3 H4. fix IH 1. intros [|a [|b [|c [|d l]]]]; [done|done|done|done|]. apply H4, IH.
Qed.

Lemma decode_loop_length s : ∀ o ok,
  decode_loop s = Some (o, ok) → Z.of_nat (length o) ≤ Z.of_nat (length s) / 4 * 3.
Proof.
  induction s as [| | | |a b c d s IH] using list_ind4; intros o ok H; try (injection H as <- <-; done).
  cbn [decode_loop] in H. cbn [length].
  replace (Z.of_nat (S (S (S (S (length s)))))) with (Z.of_nat (length s) + 1 * 4) by lia.
  rewrite Z.div_add by lia. assert (0 ≤ Z.of_nat (length s) / 4) by (apply Z.div_pos; lia).
  destruct (decode_block a b c d) as [[o1|]|] eqn:E; cbn [mbind option_bind] in H; [|injection H as <- <-; simpl; lia|done].
  apply bind_Some in H as ([o2 ok2] & H & [= <- <-]). apply IH in H.
  apply decode_block_length in E. rewrite length_app. lia.
Qed.

Lemma decode_block_defined a0 a1 a2 a3 :
  byte a0 → byte a1 → byte a2 → byte a3 → a0 < 128 → a1 < 128 → a2 < 128 → a3 < 128 →
  is_Some (decode_block a0 a1 a2 a3).
Proof.
  intros B0 B1 B2 B3 H0 H1 H2 H3. unfold decode_block.
  destruct (DTable_get_defined a0 B0 H0) as [? ->], (DTable_get_defined a1 B1 H1) as [? ->],
    (DTable_get_defined a2 B2 H2) as [? ->], (DTable_get_defined a3 B3 H3) as [? ->].
  cbn [mbind option_bind]. by repeat case_match.
Qed.

Lemma decode_loop_defined s :
  Forall byte s → Forall (λ b, b < 128) s → is_Some (decode_loop s).
Proof.
  induction s as [| | | |a b c d s IH] using list_ind4; intros Hb Hs; try (by eexists).
  rewrite !Forall_cons in Hb, Hs. destruct Hb as (Ba & Bb & Bc & Bd & Bs), Hs as (Ha & Hb & Hc & Hd & Hs).
  cbn [decode_loop]. destruct (decode_block_defined a b c d) as [r ->]; [done..|].
  cbn [mbind option_bind]. destruct r; [|by eexists].
  destruct (IH Bs Hs) as [[o ok] ->]. by eexists.
Qed.

(** The decoder never writes more than the [to_len] bytes it was given,
    and on 7-bit input it reads only its table; but a byte of 128 or more in
    the first block of an input of whole blocks is used as a huge index and
    read outside it. *)
Theorem base64_decode_bounds s to_len :
  Forall byte s → 0 ≤ to_len →
  (∀ o n, ws_base64_decode s to_len = Some (o, n) → Z.of_nat (length o) ≤ to_len ∧ 0 ≤ n ≤ to_len) ∧
  (Forall (λ b, b < 128) s → is_Some (ws_base64_decode s to_len)) ∧
  (∀ b s', s = b :: s' → 128 ≤ b → (length s mod 4 = 0)%nat →
     Z.of_nat (length s) / 4 * 3 ≤ to_len → ws_base64_decode s to_len = None).
Proof.
  intros Hs Hl. unfold ws_base64_decode. split_and!.
  - intros o n. destruct (negb _); [intros [= <- <-]; simpl; lia|].
    destruct (Z.ltb_spec to_len (Z.of_nat (length s) / 4 * 3)); [intros [= <- <-]; simpl; lia|].
    intros ([o' ok] & E & [= <- <-])%bind_Some. apply decode_loop_length in E. destruct ok; lia.
  - intros H7. repeat case_match; try (by eexists). destruct (decode_loop_defined s Hs H7) as [[o ok] ->].
    by eexists.
  - intros b s' -> Hb Hm Hr.
    assert (Hm' : Z.of_nat (length (b :: s')) mod 4 = 0).
    { change 4 with (Z.of_nat 4). rewrite <- Nat2Z.inj_mod, Hm. done. }
    rewrite Hm', (proj2 (Z.ltb_ge _ _)) by done. cbn [negb Z.eqb].
    destruct s' as [|c [|d [|e s']]]; [done|done|done|]. cbn [decode_loop].
    apply Forall_cons in Hs as [Bb _]. pose proof (DTable_get_spec b Bb) as D.
    rewrite decide_False in D by lia. unfold decode_block at 1. by rewrite D.
Qed.

(** ** Comparison with the standard encoding *)

(** RFC 4648: the missing bytes of the last block are zero. *)
Fixpoint rfc4648 (s : list Z) : list Z :=
  match s with
  | [] => []
  | [a] => encode_block 1 (char_of a) (char_of 0) (char_of 0)
  | [a; b] => encode_block 2 (char_of a) (char_of b) (char_of 0)
  | a :: b :: c :: s => encode_block 3 (char_of a) (char_of b) (char_of c) ++ rfc4648 s
  end.

(** The bits of the previous block that end up in the last one. *)
Fixpoint stale_bits (s : list Z) (i1 i2 : Z) : Z :=
  match s with
  | [] => 0
  | [a] => i1 / 16
  | [a; b] => i2 / 64
  | _ :: b :: c :: s => stale_bits s b c
  end.

Lemma enc_inj v w : six v → six w → enc v = enc w → v = w.
Proof. intros Hv Hw He. destruct (enc_dec v Hv) as (Dv & _), (enc_dec w Hw) as (Dw & _). congruence. Qed.

Lemma encode_loop_standard s : ∀ i1 i2,
  Forall byte s → byte i1 → byte i2 →
  encode_loop s (char_of i1) (char_of i2) = rfc4648 s ↔ stale_bits s i1 i2 = 0.
Proof.
  assert (B0 : byte 0) by done.
  induction s as [|a|a b|a b c s IH] using list_ind3; intros i1 i2 Hs H1 H2.
  - done.
  - apply Forall_cons in Hs as [Ha _]. cbn [encode_loop rfc4648 stale_bits]. unfold encode_block.
    fold (v1 (char_of a) (char_of i1)) (v1 (char_of a) (char_of 0)) (v0 (char_of a)). split.
    + intros [= E%enc_inj]; [|by apply (values_six a i1 0)|by apply (values_six a 0 0)].
      rewrite !v1_eq, Z.div_0_l in E by done. lia.
    + intros E. by rewrite !v1_eq, E, Z.div_0_l by done.
  - apply Forall_cons in Hs as [Ha [Hb _]%Forall_cons]. cbn [encode_loop rfc4648 stale_bits]. unfold encode_block.
    fold (v2 (char_of b) (char_of i2)) (v2 (char_of b) (char_of 0)). split.
    + intros [= E%enc_inj]; [|by apply (values_six a b i2)|by apply (values_six a b 0)].
      rewrite !v2_eq, Z.div_0_l in E by done. lia.
    + intros E. by rewrite !v2_eq, E, Z.div_0_l by done.
  - rewrite !Forall_cons in Hs. destruct Hs as (Ha & Hb & Hc & Hs).
    cbn [encode_loop rfc4648 stale_bits]. rewrite <- (IH b c Hs Hb Hc).
    split; [by intros E%app_inv_head|by intros ->].
Qed.

(** The encoder agrees with the standard encoding exactly when no bits of
    the previous block are left over in the last one; in particular for
    inputs of whole blocks and for inputs of a single block. *)
Theorem base64_encode_standard s :
  Forall byte s → ws_base64_encode s = rfc4648 s ↔ stale_bits s 0 0 = 0.
Proof. intros Hs. by apply (encode_loop_standard s 0 0). Qed.

Lemma base64_roundtrip_witness :
  ws_base64_decode (ws_base64_encode [97; 98; 99; 200]) 6 = Some ([97; 98; 99; 200], Z.of_nat 4).
Proof.
  refine (base64_roundtrip [97; 98; 99; 200] 6 _ _); [|done]. unfold byte. repeat constructor; lia.
Defined.

Lemma base64_decode_bounds_witness :
  (∀ o n, ws_base64_decode [200; 65; 65; 65] 3 = Some (o, n) → Z.of_nat (length o) ≤ 3 ∧ 0 ≤ n ≤ 3) ∧
  (Forall (λ b, b < 128) [200; 65; 65; 65] → is_Some (ws_base64_decode [200; 65; 65; 65] 3)) ∧
  (∀ b s', [200; 65; 65; 65] = b :: s' → 128 ≤ b → (length [200; 65; 65; 65] mod 4 = 0)%nat →
     Z.of_nat (length [200; 65; 65; 65]) / 4 * 3 ≤ 3 → ws_base64_decode [200; 65; 65; 65] 3 = None).
Proof.
  refine (base64_decode_bounds [200; 65; 65; 65] 3 _ _); [|lia]. unfold byte. repeat constructor; lia.
Defined.

(** "abcd" is encoded as "YWJjZG==" instead of "YWJjZA==". *)
Lemma base64_encode_standard_witness :
  ws_base64_encode [97; 98; 99; 100] = rfc4648 [97; 98; 99; 100] ↔ stale_bits [97; 98; 99; 100] 0 0 = 0.
Proof.
  refine (base64_encode_standard [97; 98; 99; 100] _). unfold byte. repeat constructor; lia.
Defined.
