(* ===== verification/Md5.v ===== *)
(** * Message digests ([u/md5.c])

    The MD5 of u/md5.c, statement by statement, the algorithm of RFC 1321 as a
    loop over sixty-four steps, and the proof that hashing a message in any
    number of pieces gives the digest of the RFC.  Bytes are integers in
    [[0, 256)], words integers in [[0, 2 ^ 32)]; the byte order of the machine is
    an argument ([le], little endian).  The digest of the HTTP server
    ([ShttpdMd5]) is proved against the same reference. *)

From Stdlib Require Import ZifyNat.
From S2P Require Import Prelude.
From S2P Require Import CString.
From S2P Require Import Base64.

#[local] Open Scope string_scope.
#[local] Open Scope list_scope.
#[local] Open Scope Z_scope.
#[local] Open Scope ow_scope.

(** ** Words and bytes in memory *)

Abbreviation regs := (Z * Z * Z * Z)%type.

(** [p[0] + (p[1] << 8) + (p[2] << 16) + (p[3] << 24)], over the integers. *)
Definition sum4 (b0 b1 b2 b3 : Z) : Z :=
  b0 + Z.shiftl b1 8 + Z.shiftl b2 16 + Z.shiftl b3 24.

(** A word of memory as a machine of either byte order reads it, and the bytes
    it stores. *)
Definition load (le : bool) (b0 b1 b2 b3 : Z) : Z :=
  if le then sum4 b0 b1 b2 b3 else sum4 b3 b2 b1 b0.

Definition byte_of (w j : Z) : Z := wrap8 (Z.shiftr w (8 * j)).
Definition le_bytes (w : Z) : list Z := [byte_of w 0; byte_of w 1; byte_of w 2; byte_of w 3].
Definition store (le : bool) (w : Z) : list Z := if le then le_bytes w else rev (le_bytes w).

(** An array of words over an array of bytes, each word read by [f]. *)
Fixpoint words (f : Z → Z → Z → Z → Z) (bs : list Z) : list Z :=
  match bs with
  | b0 :: b1 :: b2 :: b3 :: bs => f b0 b1 b2 b3 :: words f bs
  | _ => []
  end.

(** [memcpy (b + off, xs, n)] for the [n] bytes of [xs]. *)
Definition write_at (b : list Z) (off : nat) (xs : list Z) : list Z :=
  take off b ++ xs ++ drop (off + length xs) b.

(** ** The constants *)

Definition T_MASK : Z := 0xffffffff.
Definition T1 : Z := Z.lxor T_MASK 0x28955b87.
Definition T2 : Z := Z.lxor T_MASK 0x173848a9.
Definition T3 : Z := 0x242070db.
Definition T4 : Z := Z.lxor T_MASK 0x3e423111.
Definition T5 : Z := Z.lxor T_MASK 0x0a83f050.
Definition T6 : Z := 0x4787c62a.
Definition T7 : Z := Z.lxor T_MASK 0x57cfb9ec.
Definition T8 : Z := Z.lxor T_MASK 0x02b96afe.
Definition T9 : Z := 0x698098d8.
Definition T10 : Z := Z.lxor T_MASK 0x74bb0850.
Definition T11 : Z := Z.lxor T_MASK 0x0000a44e.
Definition T12 : Z := Z.lxor T_MASK 0x76a32841.
Definition T13 : Z := 0x6b901122.
Definition T14 : Z := Z.lxor T_MASK 0x02678e6c.
Definition T15 : Z := Z.lxor T_MASK 0x5986bc71.
Definition T16 : Z := 0x49b40821.
Definition T17 : Z := Z.lxor T_MASK 0x09e1da9d.
Definition T18 : Z := Z.lxor T_MASK 0x3fbf4cbf.
Definition T19 : Z := 0x265e5a51.
Definition T20 : Z := Z.lxor T_MASK 0x16493855.
Definition T21 : Z := Z.lxor T_MASK 0x29d0efa2.
Definition T22 : Z := 0x02441453.
Definition T23 : Z := Z.lxor T_MASK 0x275e197e.
Definition T24 : Z := Z.lxor T_MASK 0x182c0437.
Definition T25 : Z := 0x21e1cde6.
Definition T26 : Z := Z.lxor T_MASK 0x3cc8f829.
Definition T27 : Z := Z.lxor T_MASK 0x0b2af278.
Definition T28 : Z := 0x455a14ed.
Definition T29 : Z := Z.lxor T_MASK 0x561c16fa.
Definition T30 : Z := Z.lxor T_MASK 0x03105c07.
Definition T31 : Z := 0x676f02d9.
Definition T32 : Z := Z.lxor T_MASK 0x72d5b375.
Definition T33 : Z := Z.lxor T_MASK 0x0005c6bd.
Definition T34 : Z := Z.lxor T_MASK 0x788e097e.
Definition T35 : Z := 0x6d9d6122.
Definition T36 : Z := Z.lxor T_MASK 0x021ac7f3.
Definition T37 : Z := Z.lxor T_MASK 0x5b4115bb.
Definition T38 : Z := 0x4bdecfa9.
Definition T39 : Z := Z.lxor T_MASK 0x0944b49f.
Definition T40 : Z := Z.lxor T_MASK 0x4140438f.
Definition T41 : Z := 0x289b7ec6.
Definition T42 : Z := Z.lxor T_MASK 0x155ed805.
Definition T43 : Z := Z.lxor T_MASK 0x2b10cf7a.
Definition T44 : Z := 0x04881d05.
Definition T45 : Z := Z.lxor T_MASK 0x262b2fc6.
Definition T46 : Z := Z.lxor T_MASK 0x1924661a.
Definition T47 : Z := 0x1fa27cf8.
Definition T48 : Z := Z.lxor T_MASK 0x3b53a99a.
Definition T49 : Z := Z.lxor T_MASK 0x0bd6ddbb.
Definition T50 : Z := 0x432aff97.
Definition T51 : Z := Z.lxor T_MASK 0x546bdc58.
Definition T52 : Z := Z.lxor T_MASK 0x036c5fc6.
Definition T53 : Z := 0x655b59c3.
Definition T54 : Z := Z.lxor T_MASK 0x70f3336d.
Definition T55 : Z := Z.lxor T_MASK 0x00100b82.
Definition T56 : Z := Z.lxor T_MASK 0x7a7ba22e.
Definition T57 : Z := 0x6fa87e4f.
Definition T58 : Z := Z.lxor T_MASK 0x01d3191f.
Definition T59 : Z := Z.lxor T_MASK 0x5cfebceb.
Definition T60 : Z := 0x4e0811a1.
Definition T61 : Z := Z.lxor T_MASK 0x08ac817d.
Definition T62 : Z := Z.lxor T_MASK 0x42c50dca.
Definition T63 : Z := 0x2ad7d2bb.
Definition T64 : Z := Z.lxor T_MASK 0x14792c6e.

(** ** Processing a block *)

Definition ROTATE_LEFT (x n : Z) : Z := Z.lor (wrap32 (Z.shiftl x n)) (Z.shiftr x (32 - n)).
Definition not32 (x : Z) : Z := Z.lxor T_MASK x.
Definition F (x y z : Z) : Z := Z.lor (Z.land x y) (Z.land (not32 x) z).
Definition G (x y z : Z) : Z := Z.lor (Z.land x z) (Z.land y (not32 z)).
Definition H (x y z : Z) : Z := Z.lxor (Z.lxor x y) z.
Definition I (x y z : Z) : Z := Z.lxor y (Z.lor x (not32 z)).

Definition X_at (X : list Z) (k : nat) : Z := default 0 (X !! k).

(** The value [SET] assigns to its first register. *)
Definition SET (f : Z → Z → Z → Z) (X : list Z) (a b c d : Z) (k : nat) (s Ti : Z) : Z :=
  let t := wrap32 (a + f b c d + X_at X k + Ti) in
  wrap32 (ROTATE_LEFT t s + b).

Definition round1 (X : list Z) (a b c d : Z) : Z * Z * Z * Z :=
  let a := SET F X a b c d 0 7 T1 in
  let d := SET F X d a b c 1 12 T2 in
  let c := SET F X c d a b 2 17 T3 in
  let b := SET F X b c d a 3 22 T4 in
  let a := SET F X a b c d 4 7 T5 in
  let d := SET F X d a b c 5 12 T6 in
  let c := SET F X c d a b 6 17 T7 in
  let b := SET F X b c d a 7 22 T8 in
  let a := SET F X a b c d 8 7 T9 in
  let d := SET F X d a b c 9 12 T10 in
  let c := SET F X c d a b 10 17 T11 in
  let b := SET F X b c d a 11 22 T12 in
  let a := SET F X a b c d 12 7 T13 in
  let d := SET F X d a b c 13 12 T14 in
  let c := SET F X c d a b 14 17 T15 in
  let b := SET F X b c d a 15 22 T16 in
  (a, b, c, d).

Definition round2 (X : list Z) (a b c d : Z) : Z * Z * Z * Z :=
  let a := SET G X a b c d 1 5 T17 in
  let d := SET G X d a b c 6 9 T18 in
  let c := SET G X c d a b 11 14 T19 in
  let b := SET G X b c d a 0 20 T20 in
  let a := SET G X a b c d 5 5 T21 in
  let d := SET G X d a b c 10 9 T22 in
  let c := SET G X c d a b 15 14 T23 in
  let b := SET G X b c d a 4 20 T24 in
  let a := SET G X a b c d 9 5 T25 in
  let d := SET G X d a b c 14 9 T26 in
  let c := SET G X c d a b 3 14 T27 in
  let b := SET G X b c d a 8 20 T28 in
  let a := SET G X a b c d 13 5 T29 in
  let d := SET G X d a b c 2 9 T30 in
  let c := SET G X c d a b 7 14 T31 in
  let b := SET G X b c d a 12 20 T32 in
  (a, b, c, d).

Definition round3 (X : list Z) (a b c d : Z) : Z * Z * Z * Z :=
  let a := SET H X a b c d 5 4 T33 in
  let d := SET H X d a b c 8 11 T34 in
  let c := SET H X c d a b 11 16 T35 in
  let b := SET H X b c d a 14 23 T36 in
  let a := SET H X a b c d 1 4 T37 in
  let d := SET H X d a b c 4 11 T38 in
  let c := SET H X c d a b 7 16 T39 in
  let b := SET H X b c d a 10 23 T40 in
  let a := SET H X a b c d 13 4 T41 in
  let d := SET H X d a b c 0 11 T42 in
  let c := SET H X c d a b 3 16 T43 in
  let b := SET H X b c d a 6 23 T44 in
  let a := SET H X a b c d 9 4 T45 in
  let d := SET H X d a b c 12 11 T46 in
  let c := SET H X c d a b 15 16 T47 in
  let b := SET H X b c d a 2 23 T48 in
  (a, b, c, d).

Definition round4 (X : list Z) (a b c d : Z) : Z * Z * Z * Z :=
  let a := SET I X a b c d 0 6 T49 in
  let d := SET I X d a b c 7 10 T50 in
  let c := SET I X c d a b 14 15 T51 in
  let b := SET I X b c d a 5 21 T52 in
  let a := SET I X a b c d 12 6 T53 in
  let d := SET I X d a b c 3 10 T54 in
  let c := SET I X c d a b 10 15 T55 in
  let b := SET I X b c d a 1 21 T56 in
  let a := SET I X a b c d 8 6 T57 in
  let d := SET I X d a b c 15 10 T58 in
  let c := SET I X c d a b 6 15 T59 in
  let b := SET I X b c d a 13 21 T60 in
  let a := SET I X a b c d 4 6 T61 in
  let d := SET I X d a b c 11 10 T62 in
  let c := SET I X c d a b 2 15 T63 in
  let b := SET I X b c d a 9 21 T64 in
  (a, b, c, d).

(** The sixteen words of a block: read in place or from a copy on a little
    endian machine, put together from the bytes on a big endian one, where
    [xp[3] << 24] is a shift of a signed [int]. *)
Definition xbuf_word (b0 b1 b2 b3 : Z) : Z :=
  wrap32 (b0 + Z.shiftl b1 8 + Z.shiftl b2 16 + sint 32 (Z.shiftl b3 24)).

Definition block_words (le : bool) (data : list Z) : list Z :=
  if le then words (load le) data else words xbuf_word data.

Definition md5_process (le : bool) (abcd : regs) (data : list Z) : regs :=
  let '(a0, b0, c0, d0) := abcd in
  let X := block_words le data in
  let '(a, b, c, d) := round1 X a0 b0 c0 d0 in
  let '(a, b, c, d) := round2 X a b c d in
  let '(a, b, c, d) := round3 X a b c d in
  let '(a, b, c, d) := round4 X a b c d in
  (wrap32 (a0 + a), wrap32 (b0 + b), wrap32 (c0 + c), wrap32 (d0 + d)).

(** ** The digest *)

Record md5_state := Md5State { p_count0 : Z; p_count1 : Z; p_abcd : regs; p_buf : list Z }.

(** [buf] is what the uninitialised memory of the state holds. *)
Definition md5_init (buf : list Z) : md5_state :=
  Md5State 0 0 (0x67452301, Z.lxor T_MASK 0x10325476, Z.lxor T_MASK 0x67452301, 0x10325476) buf.

(** [for (; left >= 64; p += 64, left -= 64)]: the registers, what is left of
    the data and how many bytes. *)
Fixpoint process_blocks (le : bool) (fuel : nat) (abcd : regs) (p : list Z) (nleft : Z) : regs * list Z * Z :=
  match fuel with
  | O => (abcd, p, nleft)
  | S fuel =>
      if 64 <=? nleft
      then process_blocks le fuel (md5_process le abcd (take 64 p)) (drop 64 p) (nleft - 64)
      else (abcd, p, nleft)
  end.

(** The full blocks and the final partial block. *)
Definition append_rest (le : bool) (pms : md5_state) (p : list Z) (nleft : Z) : md5_state :=
  let '(abcd, p, nleft) := process_blocks le (Z.to_nat nleft) (p_abcd pms) p nleft in
  let buf := if nleft =? 0 then p_buf pms else write_at (p_buf pms) 0 (take (Z.to_nat nleft) p) in
  Md5State (p_count0 pms) (p_count1 pms) abcd buf.

(** The data, after the message length is updated: an initial partial block,
    then the rest. *)
Definition append_data (le : bool) (pms : md5_state) (offset : Z) (data : list Z) (nbytes : Z) : md5_state :=
  if offset =? 0 then append_rest le pms data nbytes else
  let copy := if 64 <? sint 32 (offset + nbytes) then 64 - offset else nbytes in
  let buf := write_at (p_buf pms) (Z.to_nat offset) (take (Z.to_nat copy) data) in
  if offset + copy <? 64 then Md5State (p_count0 pms) (p_count1 pms) (p_abcd pms) buf else
  append_rest le (Md5State (p_count0 pms) (p_count1 pms) (md5_process le (p_abcd pms) buf) buf)
    (drop (Z.to_nat copy) data) (nbytes - copy).

(** [None]: more bytes asked for than the data has. *)
Definition md5_append (le : bool) (pms : md5_state) (data : list Z) (nbytes : Z) : option md5_state :=
  let offset := Z.land (Z.shiftr (p_count0 pms) 3) 63 in
  let nbits := wrap32 (Z.shiftl nbytes 3) in
  if nbytes <=? 0 then Some pms else
  assert! nbytes <=? Z.of_nat (length data);
  let count1 := wrap32 (p_count1 pms + Z.shiftr nbytes 29) in
  let count0 := wrap32 (p_count0 pms + nbits) in
  let count1 := if count0 <? nbits then wrap32 (count1 + 1) else count1 in
  Some (append_data le (Md5State count0 count1 (p_abcd pms) (p_buf pms)) offset data nbytes).

Definition pad : list Z := 0x80 :: replicate 63 0.

Definition regs_words (r : regs) : list Z := let '(a, b, c, d) := r in [a; b; c; d].

(** The digest and the state that is left. *)
Definition md5_finish (le : bool) (pms : md5_state) : option (list Z * md5_state) :=
  let data := le_bytes (p_count0 pms) ++ le_bytes (p_count1 pms) in
  pms ← md5_append le pms pad (Z.land (wrap32 (55 - Z.shiftr (p_count0 pms) 3)) 63 + 1);
  pms ← md5_append le pms data 8;
  Some (mjoin (le_bytes <$> regs_words (p_abcd pms)), pms).

Definition ctbl : string := "0123456789abcdef".
Definition hex_digit (v : Z) : Ascii.ascii := default Ascii.zero (String.get (Z.to_nat v) ctbl).

Fixpoint md52char (digest : list Z) : string :=
  match digest with
  | [] => EmptyString
  | b :: digest =>
      String (hex_digit (Z.land (Z.shiftr b 4) 0xf)) (String (hex_digit (Z.land b 0xf)) (md52char digest))
  end.

(** A digest as its users make it: the pieces are appended in turn. *)
Fixpoint md5_append_all (le : bool) (pms : md5_state) (chunks : list (list Z)) : option md5_state :=
  match chunks with
  | [] => Some pms
  | c :: chunks => pms ← md5_append le pms c (Z.of_nat (length c)); md5_append_all le pms chunks
  end.

Definition md5_digest (le : bool) (mem : list Z) (chunks : list (list Z)) : option (list Z) :=
  pms ← md5_append_all le (md5_init mem) chunks;
  '(d, _) ← md5_finish le pms;
  Some d.

(** ** RFC 1321 *)

(** [T[i]] is the integer part of [2 ^ 32 * |sin i|]. *)
Definition rfc_T : list Z :=
  [0xd76aa478; 0xe8c7b756; 0x242070db; 0xc1bdceee; 0xf57c0faf; 0x4787c62a; 0xa8304613; 0xfd469501;
   0x698098d8; 0x8b44f7af; 0xffff5bb1; 0x895cd7be; 0x6b901122; 0xfd987193; 0xa679438e; 0x49b40821;
   0xf61e2562; 0xc040b340; 0x265e5a51; 0xe9b6c7aa; 0xd62f105d; 0x02441453; 0xd8a1e681; 0xe7d3fbc8;
   0x21e1cde6; 0xc33707d6; 0xf4d50d87; 0x455a14ed; 0xa9e3e905; 0xfcefa3f8; 0x676f02d9; 0x8d2a4c8a;
   0xfffa3942; 0x8771f681; 0x6d9d6122; 0xfde5380c; 0xa4beea44; 0x4bdecfa9; 0xf6bb4b60; 0xbebfbc70;
   0x289b7ec6; 0xeaa127fa; 0xd4ef3085; 0x04881d05; 0xd9d4d039; 0xe6db99e5; 0x1fa27cf8; 0xc4ac5665;
   0xf4292244; 0x432aff97; 0xab9423a7; 0xfc93a039; 0x655b59c3; 0x8f0ccc92; 0xffeff47d; 0x85845dd1;
   0x6fa87e4f; 0xfe2ce6e0; 0xa3014314; 0x4e0811a1; 0xf7537e82; 0xbd3af235; 0x2ad7d2bb; 0xeb86d391].

(** The functions, message words and shifts of step [i]. *)
Definition rfc_fun (i : nat) : Z → Z → Z → Z :=
  match (i / 16)%nat with O => F | 1%nat => G | 2%nat => H | _ => I end.

Definition rfc_k (i : nat) : nat :=
  match (i / 16)%nat with
  | O => i
  | 1%nat => (5 * i + 1) mod 16
  | 2%nat => (3 * i + 5) mod 16
  | _ => (7 * i) mod 16
  end.

Definition rfc_s (i : nat) : Z :=
  default 0 (default [] ([[7; 12; 17; 22]; [5; 9; 14; 20]; [4; 11; 16; 23]; [6; 10; 15; 21]] !! (i / 16)%nat)
               !! (i mod 4)%nat).

(** [a = b + ((a + f(b,c,d) + X[k] + T[i]) <<< s)]; the registers change places
    after each step. *)
Definition rfc_step (X : list Z) (r : regs) (i : nat) : regs :=
  let '(a, b, c, d) := r in
  (d, wrap32 (b + ROTATE_LEFT (wrap32 (a + rfc_fun i b c d + X_at X (rfc_k i) + X_at rfc_T i)) (rfc_s i)), b, c).

Definition rfc_block (r : regs) (block : list Z) : regs :=
  let '(a0, b0, c0, d0) := r in
  let '(a, b, c, d) := foldl (rfc_step (words sum4 block)) r (seq 0 64) in
  (wrap32 (a0 + a), wrap32 (b0 + b), wrap32 (c0 + c), wrap32 (d0 + d)).

Fixpoint rfc_blocks (n : nat) (r : regs) (m : list Z) : regs :=
  match n with O => r | S n => rfc_blocks n (rfc_block r (take 64 m)) (drop 64 m) end.

Definition rfc_init : regs := (0x67452301, 0xefcdab89, 0x98badcfe, 0x10325476).

Definition rfc_pad (m : list Z) : list Z :=
  let bits := 8 * Z.of_nat (length m) in
  m ++ 0x80 :: replicate (Z.to_nat ((55 - Z.of_nat (length m)) mod 64)) 0 ++
  le_bytes (wrap32 bits) ++ le_bytes (wrap32 (bits / 2 ^ 32)).

Definition rfc_md5 (m : list Z) : list Z :=
  mjoin (le_bytes <$> regs_words (rfc_blocks (length (rfc_pad m) / 64) rfc_init (rfc_pad m))).

(** The test suite of the RFC and the example of RFC 2617 that test_md5.c
    uses. *)
Example rfc_abc : md52char (rfc_md5 (codes "abc")) = "900150983cd24fb0d6963f7d28e17f72".
Proof. vm_compute. reflexivity. Qed.

Example md5_test_suite :
  (λ s, md52char <$> md5_digest true (replicate 64 0) [codes s]) <$>
    [""; "a"; "abc"; "message digest"; "abcdefghijklmnopqrstuvwxyz"] =
  Some <$> ["d41d8cd98f00b204e9800998ecf8427e"; "0cc175b9c0f1b6a831c399e269772661";
            "900150983cd24fb0d6963f7d28e17f72"; "f96b697d7cb7938d525a2f31aaf161d0";
            "c3fcd3d76192e4007dfb496cca67e13b"].
Proof. vm_compute. reflexivity. Qed.

Example md5_ha1 :
  md52char <$> md5_digest false (replicate 64 0)
    [codes "Mufasa"; codes ":"; codes "testrealm@host.com"; codes ":"; codes "Circle Of Life"] =
  Some "939e7578ed9e3c518a452acee763bce9".
Proof. vm_compute. reflexivity. Qed.

(** ** A block *)

Lemma sum4_range (b0 b1 b2 b3 : Z) :
  byte b0 → byte b1 → byte b2 → byte b3 → 0 ≤ sum4 b0 b1 b2 b3 < 2 ^ 32.
Proof. unfold byte, sum4. rewrite !Z.shiftl_mul_pow2 by lia. lia. Qed.

Lemma xbuf_word_sum4 (b0 b1 b2 b3 : Z) :
  byte b0 → byte b1 → byte b2 → byte b3 → xbuf_word b0 b1 b2 b3 = sum4 b0 b1 b2 b3.
Proof.
  intros. unfold xbuf_word. rewrite <- (wrap_add_r 32), wrap_sint, (wrap_add_r 32) by lia.
  by apply wrap_small, sum4_range.
Qed.

(** Reading an array word by word, four bytes at a time. *)
Lemma words_ext (P : Z → Prop) (f g : Z → Z → Z → Z → Z) :
  (∀ b0 b1 b2 b3, P b0 → P b1 → P b2 → P b3 → f b0 b1 b2 b3 = g b0 b1 b2 b3) →
  ∀ n bs, (length bs ≤ n)%nat → Forall P bs → words f bs = words g bs.
Proof.
  intros Hfg. induction n as [|n IH]; intros [|b0 [|b1 [|b2 [|b3 bs]]]] Hl Hb; simpl in *; try done; [lia|].
  decompose_Forall. f_equal; [by apply Hfg|]. apply IH; [lia|done].
Qed.

Lemma block_words_sum4 (le : bool) (data : list Z) :
  Forall byte data → block_words le data = words sum4 data.
Proof.
  intros Hb. destruct le; [done|].
  apply (words_ext byte) with (length data); [exact xbuf_word_sum4|lia|done].
Qed.

Lemma set_step (X : list Z) (f : Z → Z → Z → Z) (a b c d : Z) (i : nat) (k : nat) (s Ti : Z) :
  f = rfc_fun i → k = rfc_k i → s = rfc_s i → Ti = X_at rfc_T i →
  rfc_step X (a, b, c, d) i = (d, SET f X a b c d k s Ti, b, c).
Proof. intros -> -> -> ->. simpl. unfold SET. by rewrite Z.add_comm. Qed.

(** Both sides do the next step: the [let] of the code and the step of the
    loop on known registers, which [tac] relates. *)
Ltac next_step tac :=
  match goal with
  | |- (let x := ?e in @?k x) = ?r =>
      match r with
      | context C [rfc_step ?X (?a, ?b, ?c, ?d) ?i] =>
          replace (rfc_step X (a, b, c, d) i) with (d, e, b, c) by (symmetry; tac);
          let r' := context C [(d, e, b, c)] in
          change (k e = r'); generalize e; intros ?; cbv beta
      end
  end.

Ltac run_round rnd tac := cbv beta delta [rnd]; cbn beta match fix delta [seq foldl]; repeat next_step tac; reflexivity.

Lemma round1_rfc (X : list Z) (a b c d : Z) :
  round1 X a b c d = foldl (rfc_step X) (a, b, c, d) (seq 0 16).
Proof. run_round round1 ltac:(by apply set_step). Qed.

Lemma round2_rfc (X : list Z) (a b c d : Z) :
  round2 X a b c d = foldl (rfc_step X) (a, b, c, d) (seq 16 16).
Proof. run_round round2 ltac:(by apply set_step). Qed.

Lemma round3_rfc (X : list Z) (a b c d : Z) :
  round3 X a b c d = foldl (rfc_step X) (a, b, c, d) (seq 32 16).
Proof. run_round round3 ltac:(by apply set_step). Qed.

Lemma round4_rfc (X : list Z) (a b c d : Z) :
  round4 X a b c d = foldl (rfc_step X) (a, b, c, d) (seq 48 16).
Proof. run_round round4 ltac:(by apply set_step). Qed.

(** The sixty-four steps are the four rounds. *)
Lemma rfc_rounds (X : list Z) (r : regs) :
  foldl (rfc_step X) r (seq 0 64) =
  foldl (rfc_step X) (foldl (rfc_step X) (foldl (rfc_step X) (foldl (rfc_step X) r (seq 0 16))
    (seq 16 16)) (seq 32 16)) (seq 48 16).
Proof. rewrite <- !foldl_app. reflexivity. Qed.

Lemma md5_process_rfc (le : bool) (r : regs) (data : list Z) :
  Forall byte data → md5_process le r data = rfc_block r data.
Proof.
  intros Hb. destruct r as [[[a0 b0] c0] d0]. unfold md5_process, rfc_block.
  rewrite block_words_sum4, rfc_rounds by done.
  rewrite round1_rfc. destruct (foldl _ _ (seq 0 16)) as [[[a1 b1] c1] d1].
  rewrite round2_rfc. destruct (foldl _ _ (seq 16 16)) as [[[a2 b2] c2] d2].
  rewrite round3_rfc. destruct (foldl _ _ (seq 32 16)) as [[[a3 b3] c3] d3].
  by rewrite round4_rfc.
Qed.

(** ** Pieces of a message *)

Lemma rfc_blocks_app (n : nat) (r : regs) (m x : list Z) :
  (64 * n ≤ length m)%nat → rfc_blocks n r (m ++ x) = rfc_blocks n r m.
Proof.
  revert r m. induction n as [|n IH]; intros r m Hl; cbn [rfc_blocks]; [done|].
  rewrite take_app_le, drop_app_le by lia. apply IH. rewrite length_drop. lia.
Qed.

Lemma rfc_blocks_plus (n k : nat) (r : regs) (m : list Z) :
  rfc_blocks (n + k) r m = rfc_blocks k (rfc_blocks n r m) (drop (64 * n) m).
Proof.
  revert r m. induction n as [|n IH]; intros r m.
  - by rewrite Nat.mul_0_r, drop_0.
  - cbn [Nat.add rfc_blocks]. rewrite IH, drop_drop. do 2 f_equal. lia.
Qed.

(** What a context holds after the message [m]: the counters its length in bits,
    the registers its full blocks, the buffer the rest. *)
Record absorbed (lo hi : Z) (r : regs) (b m : list Z) : Prop := Absorbed {
  ab_lo : lo = wrap32 (8 * Z.of_nat (length m));
  ab_hi : hi = wrap32 (8 * Z.of_nat (length m) / 2 ^ 32);
  ab_regs : r = rfc_blocks (length m / 64) rfc_init m;
  ab_len : length b = 64%nat;
  ab_rest : take (length m mod 64) b = drop (64 * (length m / 64)) m;
}.

Ltac lia_div := zify; Z.to_euclidean_division_equations; lia.

Lemma absorbed_init (b : list Z) : length b = 64%nat → absorbed 0 0 rfc_init b [].
Proof. intros. by constructor. Qed.

(** The offset the code computes from the low counter. *)
Lemma offset_eq (n : nat) : Z.land (Z.shiftr (wrap32 (8 * Z.of_nat n)) 3) 63 = Z.of_nat (n mod 64).
Proof.
  rewrite Z.shiftr_div_pow2 by lia. change 63 with (Z.ones 6). rewrite Z.land_ones by lia.
  unfold wrap. change (2 ^ 3) with 8. change (2 ^ 6) with 64. change (2 ^ 32) with (8 * 2 ^ 29).
  rewrite Z.mul_mod_distr_l, Z.mul_comm, Z.div_mul by lia.
  rewrite Nat2Z.inj_mod, Z.mod_mod_divide; [done|]. by exists (2 ^ 23).
Qed.

(** The pieces together: [off] bytes were left over, and the blocks of what was
    left over and the new data are processed. *)
Lemma absorbed_app (lo hi lo' hi' : Z) (r : regs) (b b' m d : list Z) :
  absorbed lo hi r b m →
  let rest := drop (64 * (length m / 64)) m ++ d in
  lo' = wrap32 (8 * Z.of_nat (length (m ++ d))) →
  hi' = wrap32 (8 * Z.of_nat (length (m ++ d)) / 2 ^ 32) →
  length b' = 64%nat →
  take (length rest mod 64) b' = drop (64 * (length rest / 64)) rest →
  absorbed lo' hi' (rfc_blocks (length rest / 64) r rest) b' (m ++ d).
Proof.
  intros [_ _ -> Hb Hr] rest Hlo Hhi Hb' Hr'.
  set (q := (length m / 64)%nat) in *.
  assert (Hq : (64 * q ≤ length m)%nat) by (subst q; lia_div).
  assert (Hrest : rest = drop (64 * q) (m ++ d)) by (subst rest; by rewrite drop_app_le).
  assert (Hlen : (length (m ++ d) = 64 * q + length rest)%nat) by (rewrite Hrest, length_drop, length_app; lia).
  assert (Hdiv : (length (m ++ d) / 64 = q + length rest / 64)%nat) by (rewrite Hlen; lia_div).
  assert (Hmod : (length (m ++ d) mod 64 = length rest mod 64)%nat) by (rewrite Hlen; lia_div).
  constructor; [done|done| |done|].
  - by rewrite Hdiv, rfc_blocks_plus, rfc_blocks_app, <- Hrest.
  - rewrite Hmod, Hr', Hdiv, Hrest, drop_drop. f_equal. lia.
Qed.

Section absorb.
Context (lo hi lo' hi' : Z) (r : regs) (b b' m d : list Z).
Context (Hab : absorbed lo hi r b m).
Context (Hlo : lo' = wrap32 (8 * Z.of_nat (length (m ++ d)))).
Context (Hhi : hi' = wrap32 (8 * Z.of_nat (length (m ++ d)) / 2 ^ 32)).

Abbreviation off := (length m mod 64)%nat.
Abbreviation tail := (drop (64 * (length m / 64)) m).

Lemma length_tail : length tail = off.
Proof. rewrite length_drop. lia_div. Qed.

(** Data that do not fill the buffer. *)
Lemma absorbed_short :
  (off + length d < 64)%nat → absorbed lo' hi' r (write_at b off d) (m ++ d).
Proof.
  intros Hs. pose proof length_tail as Ht. pose proof (ab_rest _ _ _ _ _ Hab) as Hr.
  pose proof (ab_len _ _ _ _ _ Hab) as Hb.
  assert (Hdiv : (length (tail ++ d) / 64 = 0)%nat) by (rewrite length_app, Ht; lia_div).
  assert (Hmod : (length (tail ++ d) mod 64 = off + length d)%nat) by (rewrite length_app, Ht; lia_div).
  epose proof (absorbed_app _ _ lo' hi' _ _ (write_at b off d) _ d Hab Hlo Hhi _ _) as HA.
  by rewrite Hdiv in HA.
  Unshelve.
  - unfold write_at. rewrite !length_app, length_take, length_drop. lia.
  - rewrite Hdiv, Hmod, Nat.mul_0_r, drop_0. unfold write_at. rewrite Hr, app_assoc.
    apply take_app_length'. rewrite length_app, Ht. lia.
Qed.

(** Data that fill it: the first block is what was left over and the data up to
    [copy]. *)
Lemma absorbed_full (copy : nat) :
  (off + copy = 64)%nat → (copy ≤ length d)%nat →
  let p := drop copy d in
  length b' = 64%nat → take (length p mod 64) b' = drop (64 * (length p / 64)) p →
  absorbed lo' hi' (rfc_blocks (length p / 64) (rfc_block r (take off b ++ take copy d)) p) b' (m ++ d).
Proof.
  intros Hc Hl p Hb' Hp. pose proof length_tail as Ht. pose proof (ab_rest _ _ _ _ _ Hab) as Hr.
  assert (Hpl : length p = (length d - copy)%nat) by (subst p; apply length_drop).
  assert (Hdiv : (length (tail ++ d) / 64 = S (length p / 64))%nat)
    by (rewrite length_app, Ht, Hpl; lia_div).
  assert (Hmod : (length (tail ++ d) mod 64 = length p mod 64)%nat)
    by (rewrite length_app, Ht, Hpl; lia_div).
  assert (Hd : drop 64 (tail ++ d) = p) by (rewrite drop_app_ge by lia; subst p; f_equal; lia).
  assert (Htk : take 64 (tail ++ d) = take off b ++ take copy d)
    by (rewrite take_app_ge by lia; rewrite Hr; do 2 f_equal; lia).
  epose proof (absorbed_app _ _ lo' hi' _ _ b' _ d Hab Hlo Hhi Hb' _) as HA.
  rewrite Hdiv in HA. cbn [rfc_blocks] in HA. by rewrite Hd, Htk in HA.
  Unshelve.
  rewrite Hdiv, Hmod, Hp, Nat.mul_succ_r, Nat.add_comm, <- drop_drop, Hd. done.
Qed.

(** Data after a whole number of blocks. *)
Lemma absorbed_aligned :
  off = O → length b' = 64%nat → take (length d mod 64) b' = drop (64 * (length d / 64)) d →
  absorbed lo' hi' (rfc_blocks (length d / 64) r d) b' (m ++ d).
Proof.
  intros Ho Hb' Hd. pose proof length_tail as Ht. rewrite Ho in Ht. apply nil_length_inv in Ht.
  epose proof (absorbed_app _ _ lo' hi' _ _ b' _ d Hab Hlo Hhi Hb' _) as HA.
  by rewrite Ht in HA. Unshelve. by rewrite Ht.
Qed.

End absorb.

(** ** The counters *)

Lemma carry_l (x y : Z) : 0 ≤ x < 2 ^ 32 → 0 ≤ y < 2 ^ 32 → (wrap32 (x + y) <? y) = (2 ^ 32 <=? x + y).
Proof.
  intros Hx Hy. unfold wrap. destruct (Z.leb_spec (2 ^ 32) (x + y)).
  - apply Z.ltb_lt. rewrite <- (Z.mod_unique (x + y) (2 ^ 32) 1 (x + y - 2 ^ 32)); lia.
  - apply Z.ltb_ge. rewrite Z.mod_small; lia.
Qed.

Lemma count_lo (n k : nat) :
  wrap32 (wrap32 (8 * Z.of_nat n) + wrap32 (Z.shiftl (Z.of_nat k) 3)) = wrap32 (8 * Z.of_nat (n + k)).
Proof. rewrite wrap_add_l, wrap_add_r, Z.shiftl_mul_pow2 by lia. f_equal. lia. Qed.

(** The high counter with the carry of the low one. *)
Lemma count_hi (n k : nat) :
  let lo := wrap32 (8 * Z.of_nat n) in
  let nbits := wrap32 (Z.shiftl (Z.of_nat k) 3) in
  let hi := wrap32 (wrap32 (8 * Z.of_nat n / 2 ^ 32) + Z.shiftr (Z.of_nat k) 29) in
  (if 2 ^ 32 <=? lo + nbits then wrap32 (hi + 1) else hi) = wrap32 (8 * Z.of_nat (n + k) / 2 ^ 32).
Proof.
  intros lo nbits hi. subst hi.
  rewrite Z.shiftr_div_pow2, !wrap_add_l by lia. rewrite <- Z.add_assoc, wrap_add_l, Z.add_assoc by lia.
  assert (Hk : nbits = wrap32 (8 * Z.of_nat k))
    by (subst nbits; rewrite Z.shiftl_mul_pow2 by lia; f_equal; lia).
  assert (Hd : Z.of_nat k / 2 ^ 29 = 8 * Z.of_nat k / 2 ^ 32)
    by (change (2 ^ 32) with (8 * 2 ^ 29); by rewrite Z.div_mul_cancel_l by lia).
  rewrite Hk, Hd. subst lo. unfold wrap. rewrite Nat2Z.inj_add, Z.mul_add_distr_l.
  generalize (8 * Z.of_nat n), (8 * Z.of_nat k). intros x y.
  pose proof (Z.mod_pos_bound x (2 ^ 32) ltac:(lia)). pose proof (Z.mod_pos_bound y (2 ^ 32) ltac:(lia)).
  pose proof (Z.div_mod x (2 ^ 32) ltac:(lia)). pose proof (Z.div_mod y (2 ^ 32) ltac:(lia)).
  destruct (Z.leb_spec (2 ^ 32) (x mod 2 ^ 32 + y mod 2 ^ 32)); rewrite ?Z.add_mod_idemp_l by lia; f_equal.
  - apply (Z.div_unique _ _ _ (x mod 2 ^ 32 + y mod 2 ^ 32 - 2 ^ 32)); lia.
  - apply (Z.div_unique _ _ _ (x mod 2 ^ 32 + y mod 2 ^ 32)); lia.
Qed.

(** ** Appending *)

Lemma process_blocks_rfc (le : bool) :
  ∀ (fuel n : nat) (r : regs) (p : list Z),
  (n ≤ fuel)%nat → (n ≤ length p)%nat → Forall byte p →
  process_blocks le fuel r p (Z.of_nat n) =
  (rfc_blocks (n / 64) r p, drop (64 * (n / 64)) p, Z.of_nat (n mod 64)).
Proof.
  induction fuel as [|fuel IH]; intros n r p Hf Hl Hb; cbn [process_blocks].
  - by replace n with O by lia.
  - destruct (Z.leb_spec 64 (Z.of_nat n)) as [Hn|Hn].
    + replace (Z.of_nat n - 64) with (Z.of_nat (n - 64)) by lia.
      rewrite IH by (rewrite ?length_drop; try lia; by apply Forall_drop).
      rewrite md5_process_rfc by by apply Forall_take.
      replace (n / 64)%nat with (S ((n - 64) / 64)) by lia_div.
      cbn [rfc_blocks]. rewrite drop_drop. do 2 f_equal; [f_equal; lia|]. lia_div.
    + replace (n / 64)%nat with O by lia_div. cbn [rfc_blocks]. rewrite Nat.mul_0_r, drop_0.
      do 2 f_equal. lia_div.
Qed.

Lemma append_rest_rfc (le : bool) (c0 c1 : Z) (r : regs) (b p d : list Z) :
  d `prefix_of` p → Forall byte p →
  append_rest le (Md5State c0 c1 r b) p (Z.of_nat (length d)) =
  Md5State c0 c1 (rfc_blocks (length d / 64) r d)
    (write_at b 0 (take (length d mod 64) (drop (64 * (length d / 64)) d))).
Proof.
  intros [x ->] Hb. unfold append_rest. cbn [p_abcd p_buf p_count0 p_count1].
  rewrite process_blocks_rfc by (done || rewrite ?length_app; lia). rewrite Nat2Z.id.
  assert (Hq : (64 * (length d / 64) ≤ length d)%nat) by lia_div.
  rewrite rfc_blocks_app, drop_app_le, take_app_le by (rewrite ?length_drop; lia_div).
  destruct (Z.eqb_spec (Z.of_nat (length d mod 64)) 0) as [E|E]; [|done].
  replace (length d mod 64)%nat with O by lia. rewrite take_0. unfold write_at. by rewrite drop_0.
Qed.

Lemma length_write_at (b : list Z) (off : nat) (xs : list Z) :
  (off + length xs ≤ length b)%nat → length (write_at b off xs) = length b.
Proof. intros. unfold write_at. rewrite !length_app, length_take, length_drop. lia. Qed.

Lemma take_write_at (b : list Z) (off : nat) (xs : list Z) :
  (off ≤ length b)%nat → take (off + length xs) (write_at b off xs) = take off b ++ xs.
Proof.
  intros. unfold write_at. rewrite app_assoc. apply take_app_length'.
  rewrite length_app, length_take. lia.
Qed.

Lemma fill_buffer (b : list Z) (off : nat) (xs : list Z) :
  (off + length xs = length b)%nat → write_at b off xs = take off b ++ xs.
Proof. intros E. unfold write_at. by rewrite E, drop_all, app_nil_r. Qed.

(** The bytes left over from whole blocks, copied to the start of the buffer. *)
Lemma keep_rest (b d : list Z) :
  length b = 64%nat →
  let b' := write_at b 0 (take (length d mod 64) (drop (64 * (length d / 64)) d)) in
  length b' = 64%nat ∧ take (length d mod 64) b' = drop (64 * (length d / 64)) d.
Proof.
  intros Hb b'. set (rest := drop _ d) in *.
  assert (Hl : length rest = (length d mod 64)%nat) by (subst rest; rewrite length_drop; lia_div).
  subst b'. rewrite <- Hl, firstn_all. split.
  - rewrite length_write_at; [done|]. rewrite Hl, Hb. lia_div.
  - exact (take_write_at b 0 rest ltac:(lia)).
Qed.

(** The context of u/md5.c after the message [m]. *)
Definition holds (pms : md5_state) (m : list Z) : Prop :=
  absorbed (p_count0 pms) (p_count1 pms) (p_abcd pms) (p_buf pms) m.

Lemma rest_bytes (lo hi : Z) (r : regs) (b m : list Z) :
  absorbed lo hi r b m → Forall byte m → Forall byte (take (length m mod 64) b).
Proof. intros [_ _ _ _ ->] Hm. by apply Forall_drop. Qed.

Lemma append_data_absorbs (le : bool) (c0 c1 lo hi : Z) (r : regs) (b m data d : list Z) :
  absorbed c0 c1 r b m → Forall byte m → Forall byte data → d `prefix_of` data →
  Z.of_nat (length d) < 2 ^ 31 - 64 →
  lo = wrap32 (8 * Z.of_nat (length (m ++ d))) →
  hi = wrap32 (8 * Z.of_nat (length (m ++ d)) / 2 ^ 32) →
  holds (append_data le (Md5State lo hi r b) (Z.of_nat (length m mod 64)) data (Z.of_nat (length d))) (m ++ d).
Proof.
  intros Hab Hm Hdata [x ->] Hmax Hlo Hhi. pose proof (rest_bytes _ _ _ _ _ Hab Hm) as Hrb.
  pose proof (ab_len _ _ _ _ _ Hab) as Hb.
  pose proof (Nat.mod_upper_bound (length m) 64 ltac:(lia)) as Hoff.
  unfold append_data. cbn [p_count0 p_count1 p_abcd p_buf].
  destruct (Z.eqb_spec (Z.of_nat (length m mod 64)) 0) as [Ho|Ho].
  - rewrite append_rest_rfc by (done || by apply prefix_app_r).
    destruct (keep_rest b d Hb). apply (absorbed_aligned _ _ _ _ _ _ _ _ _ Hab); [done|done|lia|done|done].
  - rewrite sint_small, Nat2Z.id by lia. set (off := (length m mod 64)%nat) in *.
    destruct (decide (off + length d < 64)%nat) as [Hs|Hs].
    + rewrite (proj2 (Z.ltb_ge 64 _)), (proj2 (Z.ltb_lt _ 64)), Nat2Z.id, take_app_length by lia.
      by apply (absorbed_short _ _ _ _ _ _ _ _ Hab).
    + set (copy := (64 - off)%nat).
      replace (if 64 <? _ then _ else _) with (Z.of_nat copy)
        by (destruct (Z.ltb_spec 64 (Z.of_nat off + Z.of_nat (length d))); lia).
      rewrite (proj2 (Z.ltb_ge _ 64)), Nat2Z.id, take_app_le, drop_app_le by lia.
      rewrite (fill_buffer b off (take copy d)) by (rewrite ?length_take; lia).
      rewrite md5_process_rfc
        by (apply Forall_app; split; [done|]; apply Forall_app in Hdata as [? _]; by apply Forall_take).
      replace (_ - Z.of_nat copy) with (Z.of_nat (length (drop copy d))) by (rewrite length_drop; lia).
      rewrite append_rest_rfc by (by apply prefix_app_r || by apply (Forall_drop _ copy) in Hdata;
        rewrite drop_app_le in Hdata by lia).
      destruct (keep_rest (take off b ++ take copy d) (drop copy d));
        [rewrite length_app, !length_take; lia|].
      apply (absorbed_full _ _ _ _ _ _ _ _ _ Hab); by try lia.
Qed.

Lemma append_absorbs (le : bool) (pms : md5_state) (m data d : list Z) :
  holds pms m → Forall byte m → Forall byte data → d `prefix_of` data → Z.of_nat (length d) < 2 ^ 31 - 64 →
  ∃ pms', md5_append le pms data (Z.of_nat (length d)) = Some pms' ∧ holds pms' (m ++ d).
Proof.
  intros Hh Hm Hdata Hpre Hmax. unfold md5_append.
  destruct (Z.leb_spec (Z.of_nat (length d)) 0) as [H0|H0].
  { exists pms. destruct d; [|simpl in *; lia]. by rewrite app_nil_r. }
  pose proof (prefix_length _ _ Hpre) as Hl.
  rewrite (proj2 (Z.leb_le (Z.of_nat (length d)) (Z.of_nat (length data))) ltac:(lia)).
  cbn [c_assert mbind option_bind]. eexists. split; [done|].
  pose proof (ab_lo _ _ _ _ _ Hh) as Hc0. pose proof (ab_hi _ _ _ _ _ Hh) as Hc1.
  rewrite carry_l by (rewrite ?Hc0; apply (wrap_range 32); lia). rewrite Hc0, Hc1, offset_eq.
  apply append_data_absorbs with (wrap32 (8 * Z.of_nat (length m))) (wrap32 (8 * Z.of_nat (length m) / 2 ^ 32));
    try done.
  - unfold holds in Hh. by rewrite Hc0, Hc1 in Hh.
  - by rewrite count_lo, length_app.
  - by rewrite count_hi, length_app.
Qed.

Lemma byte_of_byte (w j : Z) : byte (byte_of w j).
Proof. apply (wrap_range 8). lia. Qed.

Lemma le_bytes_bytes (w : Z) : Forall byte (le_bytes w).
Proof. repeat constructor; apply byte_of_byte. Qed.

Lemma rfc_pad_length (m : list Z) : (length (rfc_pad m) mod 64 = 0)%nat.
Proof.
  unfold rfc_pad. rewrite length_app. cbn [length]. rewrite !length_app, length_replicate.
  unfold le_bytes. cbn [length]. lia_div.
Qed.

(** The length of the padding. *)
Lemma pad_count (n : nat) :
  Z.land (wrap32 (55 - Z.shiftr (wrap32 (8 * Z.of_nat n)) 3)) 63 = (55 - Z.of_nat n) mod 64.
Proof.
  rewrite Z.shiftr_div_pow2 by lia. change 63 with (Z.ones 6). rewrite Z.land_ones by lia.
  unfold wrap. change (2 ^ 3) with 8. change (2 ^ 6) with 64. change (2 ^ 32) with (8 * 2 ^ 29) at 1.
  rewrite Z.mul_mod_distr_l, Z.mul_comm, Z.div_mul, Z.mod_mod_divide by (lia || by exists (2 ^ 26)).
  rewrite Zminus_mod, Z.mod_mod_divide, <- Zminus_mod by (by exists (2 ^ 23)). done.
Qed.

Lemma finish_digest (le : bool) (pms : md5_state) (m : list Z) :
  holds pms m → Forall byte m → ∃ pms', md5_finish le pms = Some (rfc_md5 m, pms').
Proof.
  intros Hh Hm. unfold md5_finish.
  pose proof (ab_lo _ _ _ _ _ Hh) as Hc0. pose proof (ab_hi _ _ _ _ _ Hh) as Hc1.
  set (z := Z.to_nat ((55 - Z.of_nat (length m)) mod 64)). set (p := 0x80 :: replicate z 0).
  assert (Hz : (z ≤ 63)%nat) by (subst z; lia_div).
  assert (Hl : length p = S z) by (subst p; cbn [length]; by rewrite length_replicate).
  assert (Hpp : pad = p ++ replicate (63 - z) 0)
    by (subst p; unfold pad; rewrite <- app_comm_cons, <- replicate_add; do 2 f_equal; lia).
  assert (Hpb : Forall byte pad) by (apply Forall_cons; split; [done|by apply Forall_replicate]).
  assert (Hmp : Forall byte (m ++ p)) by (apply Forall_app; split; [done|]; rewrite Hpp in Hpb;
    by apply Forall_app in Hpb as [? _]).
  replace (_ + 1) with (Z.of_nat (length p)) by (rewrite Hc0, pad_count, Hl; subst z; lia_div).
  destruct (append_absorbs le pms m pad p) as (pms1 & -> & H1);
    [done|done|done|by rewrite Hpp; apply prefix_app_r|lia|].
  cbn [mbind option_bind].
  destruct (append_absorbs le pms1 (m ++ p) (le_bytes (p_count0 pms) ++ le_bytes (p_count1 pms))
    (le_bytes (p_count0 pms) ++ le_bytes (p_count1 pms))) as (pms2 & E2 & H2);
    [done|done|apply Forall_app; split; apply le_bytes_bytes|done|done|].
  simpl length in E2. change (Z.of_nat 8) with 8 in E2. rewrite E2. cbn [mbind option_bind]. exists pms2.
  rewrite (ab_regs _ _ _ _ _ H2). unfold rfc_md5, rfc_pad. cbv zeta. by rewrite <- Hc0, <- Hc1, <- app_assoc.
Qed.

Lemma append_all_absorbs (le : bool) (chunks : list (list Z)) :
  ∀ (pms : md5_state) (m : list Z),
  holds pms m → Forall byte m →
  Forall (λ c, Forall byte c ∧ Z.of_nat (length c) < 2 ^ 31 - 64) chunks →
  ∃ pms', md5_append_all le pms chunks = Some pms' ∧ holds pms' (m ++ mjoin chunks).
Proof.
  induction chunks as [|c chunks IH]; intros pms m Hh Hm Hc; cbn [md5_append_all mjoin list_join].
  - exists pms. by rewrite app_nil_r.
  - apply Forall_cons in Hc as [[Hcb Hcl] Hc].
    destruct (append_absorbs le pms m c c) as (pms1 & -> & H1); [done..|]. cbn [mbind option_bind].
    destruct (IH pms1 (m ++ c)) as (pms' & -> & H'); [done|by apply Forall_app|done|].
    exists pms'. by rewrite <- app_assoc in H'.
Qed.

(** However a message is cut into pieces, and whatever the byte order of the
    machine and the memory the state starts with, the digest is that of the
    RFC. *)
Lemma md5_digest_rfc (le : bool) (mem : list Z) (chunks : list (list Z)) :
  length mem = 64%nat →
  Forall (λ c, Forall byte c ∧ Z.of_nat (length c) < 2 ^ 31 - 64) chunks →
  md5_digest le mem chunks = Some (rfc_md5 (mjoin chunks)).
Proof.
  intros Hmem Hc. unfold md5_digest.
  destruct (append_all_absorbs le chunks (md5_init mem) []) as (pms & -> & Hh);
    [by apply absorbed_init|constructor|done|].
  cbn [mbind option_bind]. destruct (finish_digest le pms (mjoin chunks)) as (pms' & ->); [done| |done].
  clear Hh. induction Hc as [|c chunks [Hb _] _ IH]; [constructor|]. apply Forall_app. by split.
Qed.
