(* ===== verification/Buf.v ===== *)
(** * Buffers ([u/buf.c])

    A growable block of bytes with a terminating NUL.  The block is a list of
    cells, one more than the size of the buffer, and [None] is a cell that was
    never written; sizes are [size_t].  An access outside of the block is
    [None], an error code a value.  The files and the allocator are arguments. *)

From S2P Require Import Prelude.

#[local] Open Scope Z_scope.
#[local] Open Scope ow_scope.

Record u_buf_t := Buf {
  b_data : option (list (option Z));
  b_size : Z;
  b_len : Z;
}.

Definition ERR : Z := -1.

(** ** Memory *)

(** [u_realloc] to [n] bytes. *)
Definition realloc (old : option (list (option Z))) (n : Z) : list (option Z) :=
  let old := default [] old in
  take (Z.to_nat n) old ++ replicate (Z.to_nat n - length old) None.

(** Storing bytes from position [i] on. *)
Definition store (d : list (option Z)) (i : Z) (l : list Z) : option (list (option Z)) :=
  assert! (0 <=? i) && (i + Z.of_nat (length l) <=? Z.of_nat (length d));
  Some (list_inserts (Z.to_nat i) (Some <$> l) d).

(** [memcpy] of the first [n] bytes. *)
Definition bytes_of (data : list Z) (n : Z) : option (list Z) :=
  assert! n <=? Z.of_nat (length data); Some (take (Z.to_nat n) data).

(** ** Operations *)

Definition u_buf_create : u_buf_t := Buf None 0 0.

Definition u_buf_reserve (alloc : bool) (b : u_buf_t) (size : Z) : option (Z * u_buf_t) :=
  if size <=? b_size b then Some (0, b)
  else if negb alloc then Some (ERR, b)
  else
    d ← store (realloc (b_data b) (wrap64 (size + 1))) size [0];
    Some (0, Buf (Some d) size (b_len b)).

Definition u_buf_append (alloc : bool) (b : u_buf_t) (data : option (list Z)) (size : Z)
  : option (Z * u_buf_t) :=
  if size =? 0 then Some (ERR, b)
  else
    '(r, b) ← (if wrap64 (b_size b - b_len b) <? size
               then u_buf_reserve alloc b (wrap64 (b_size b + b_len b + 2 * size))
               else Some (0, b));
    if negb (r =? 0) then Some (ERR, b)
    else
      match data with
      | None => Some (0, b)
      | Some data =>
          l ← bytes_of data size;
          d ← b_data b;
          d ← store d (b_len b) l;
          let len := wrap64 (b_len b + size) in
          d ← store d len [0];
          Some (0, Buf (Some d) (b_size b) len)
      end.

Definition u_buf_set_len (b : u_buf_t) (len : Z) : u_buf_t := Buf (b_data b) (b_size b) len.
Definition u_buf_detach (b : u_buf_t) : Z * u_buf_t := (0, Buf None 0 0).
Definition u_buf_size (b : option u_buf_t) : Z := match b with Some b => b_size b | None => 0 end.
Definition u_buf_len (b : option u_buf_t) : Z := match b with Some b => b_len b | None => 0 end.
Definition u_buf_clear (b : u_buf_t) : Z * u_buf_t := (0, Buf (b_data b) (b_size b) 0).

Definition u_buf_set (alloc : bool) (b : u_buf_t) (data : option (list Z)) (size : Z) : option (Z * u_buf_t) :=
  match data with
  | None => Some (ERR, b)
  | Some _ =>
      if size =? 0 then Some (ERR, b)
      else
        '(r, b) ← u_buf_append alloc (u_buf_clear b).2 data size;
        Some (if r =? 0 then 0 else ERR, b)
  end.

Definition u_buf_steal (b : u_buf_t) : option (list (option Z)) * u_buf_t := (b_data b, Buf None 0 0).
Definition u_buf_ptr (b : option u_buf_t) : option (list (option Z)) := b ≫= b_data.

(** [u_buf_construct]: the new block has the size the caller says. *)
Definition u_buf_construct (b : u_buf_t) (ptr : option (list (option Z))) (size len : Z) : Z * u_buf_t :=
  (0, Buf ptr size len).

(** The file is NULL when [stat] fails; [readable] is whether it can be opened.
    [fread] of one item of zero bytes reads no item. *)
Definition u_buf_load (alloc : bool) (b : u_buf_t) (file : option (list Z)) (readable : bool)
  : option (Z * u_buf_t) :=
  match file with
  | None => Some (ERR, b)
  | Some l =>
      let n := Z.of_nat (length l) in
      '(r, b) ← u_buf_reserve alloc (u_buf_clear b).2 n;
      if negb (r =? 0) || negb readable || (n =? 0) then Some (ERR, b)
      else d ← b_data b; d ← store d 0 l; Some (0, Buf (Some d) (b_size b) n)
  end.

(** ** What a buffer holds *)

(** The contents followed by the free cells, the last of which is the room for
    the NUL. *)
Definition buf_model (b : u_buf_t) (vs : list Z) : Prop :=
  0 ≤ b_size b < 2 ^ 64 ∧ b_len b = Z.of_nat (length vs) ∧ b_len b ≤ b_size b ∧
  match b_data b with
  | None => b_size b = 0
  | Some d => ∃ extra, d = (Some <$> vs) ++ extra ∧ Z.of_nat (length d) = b_size b + 1
  end.

(** The contents can be used as a C string. *)
Definition terminated (b : u_buf_t) : Prop :=
  ∃ d, b_data b = Some d ∧ d !! Z.to_nat (b_len b) = Some (Some 0).

Lemma create_model : buf_model u_buf_create [].
Proof. by repeat split. Qed.

Lemma store_app d1 d2 i l :
  i = Z.of_nat (length d1) → (length l ≤ length d2)%nat →
  store (d1 ++ d2) i l = Some (d1 ++ (Some <$> l) ++ drop (length l) d2).
Proof.
  intros -> Hl. unfold store. rewrite length_app.
  rewrite (proj2 (Z.leb_le _ _)), (proj2 (Z.leb_le _ _)) by lia. cbn [c_assert andb mbind option_bind].
  rewrite Nat2Z.id. f_equal. rewrite <- (Nat.add_0_r (length d1)), list_inserts_app_r. f_equal.
  rewrite <- (take_drop (length l) d2) at 1. rewrite list_inserts_0_r; [done|].
  rewrite length_fmap, length_take. lia.
Qed.

(** Room for [size] bytes, when the size and the NUL fit into a [size_t]. *)
Lemma reserve_model b vs size :
  buf_model b vs → 0 ≤ size < 2 ^ 64 - 1 →
  ∃ b', u_buf_reserve true b size = Some (0, b') ∧ buf_model b' vs ∧ b_size b' = Z.max (b_size b) size.
Proof.
  intros (Hs & Hl & Hle & Hd) Hsize. unfold u_buf_reserve.
  destruct (Z.leb_spec size (b_size b)).
  { exists b. split_and!; [done|by repeat split; try lia|lia]. }
  cbn [negb]. rewrite wrap_small by lia. set (n := (Z.to_nat (size + 1))).
  assert (Hr : ∃ extra, realloc (b_data b) (size + 1) = ((Some <$> vs) ++ extra) ++ [None]
     ∧ Z.of_nat (length ((Some <$> vs) ++ extra)) = size).
  { unfold realloc. fold n. destruct (b_data b) as [d|] eqn:E.
    - destruct Hd as (extra & -> & Hlen). rewrite length_app, length_fmap in Hlen. cbn [default id].
      rewrite take_ge by (rewrite length_app, length_fmap; lia). rewrite length_app, length_fmap.
      replace (n - (length vs + length extra))%nat with ((n - 1 - (length vs + length extra)) + 1)%nat by lia.
      rewrite replicate_add, !app_assoc. cbn [replicate].
      exists (extra ++ replicate (n - 1 - (length vs + length extra)) None). split; [by rewrite !app_assoc|].
      rewrite !length_app, length_fmap, length_replicate. lia.
    - assert (vs = []) as -> by (apply nil_length_inv; lia). cbn [default id fmap list_fmap app].
      rewrite take_nil. exists (replicate (n - 1) None). cbn [app length].
      replace (n - 0)%nat with ((n - 1) + 1)%nat by lia. rewrite replicate_add, length_replicate. split; [done|lia]. }
  destruct Hr as (extra & -> & Hlen). rewrite store_app by (cbn; lia). cbn [mbind option_bind].
  eexists. split_and!; [done| |cbn; lia]. repeat split; cbn [b_size b_len b_data]; [lia..|].
  exists (extra ++ [Some 0]). rewrite <- app_assoc. split; [done|]. rewrite !length_app in *. cbn [fmap list_fmap length app].
  rewrite drop_ge by (cbn; lia). cbn [length]. lia.
Qed.

Lemma append_model b vs data n :
  buf_model b vs → 0 < n ≤ Z.of_nat (length data) → b_size b + b_len b + 2 * n < 2 ^ 64 - 1 →
  ∃ b', u_buf_append true b (Some data) n = Some (0, b') ∧ buf_model b' (vs ++ take (Z.to_nat n) data) ∧
        terminated b' ∧ b_size b' ≤ Z.max (b_size b) (3 * (b_len b + n)).
Proof.
  intros Hb Hn Hfit. pose proof Hb as (Hs & Hl & Hle & Hd). unfold u_buf_append.
  rewrite (proj2 (Z.eqb_neq _ _)) by lia. rewrite wrap_small by lia.
  assert (Hroom : ∃ b', (if b_size b - b_len b <? n
      then u_buf_reserve true b (wrap64 (b_size b + b_len b + 2 * n)) else Some (0, b)) = Some (0, b') ∧
    buf_model b' vs ∧ b_len b + n ≤ b_size b' < 2 ^ 64 ∧ b_size b' ≤ Z.max (b_size b) (3 * (b_len b + n))).
  { destruct (Z.ltb_spec (b_size b - b_len b) n); [|exists b; split_and!; done || lia].
    rewrite wrap_small by lia.
    destruct (reserve_model b vs (b_size b + b_len b + 2 * n) Hb ltac:(lia)) as (b' & -> & Hm & Hsz).
    exists b'. split_and!; [done|done|lia..]. }
  destruct Hroom as (b' & -> & (Hs' & Hl' & Hle' & Hd') & Hroom & Hgrow). cbn [mbind option_bind negb].
  rewrite Z.eqb_refl. cbn [negb]. unfold bytes_of. rewrite (proj2 (Z.leb_le _ _)) by lia.
  cbn [c_assert mbind option_bind]. set (l := take (Z.to_nat n) data).
  assert (Hll : Z.of_nat (length l) = n) by (unfold l; rewrite length_take; lia).
  destruct (b_data b') as [d|]; [|lia]. destruct Hd' as (extra & -> & Hlen). rewrite length_app, length_fmap in Hlen.
  cbn [mbind option_bind]. rewrite store_app by (rewrite ?length_fmap; lia). cbn [mbind option_bind].
  rewrite wrap_small by lia. rewrite app_assoc, <- fmap_app.
  rewrite store_app; [|rewrite length_fmap, length_app; lia|rewrite length_drop; cbn; lia].
  cbn [mbind option_bind]. eexists. split_and!; [done| | |cbn; lia].
  - repeat split; cbn [b_size b_len b_data]; [lia|lia|rewrite length_app; lia|lia|].
    eexists. split; [done|]. rewrite !length_app, !length_fmap, !length_drop, length_app. cbn [length]. lia.
  - eexists. split; [done|]. cbn [b_len]. rewrite lookup_app_r by (rewrite length_fmap, length_app; lia).
    rewrite length_fmap, length_app. replace (_ - _)%nat with O by lia. done.
Qed.

(** ** Sequences of operations *)

Inductive buf_op :=
  | Append (l : list Z)
  | Reserve (n : Z)
  | Clear
  | Set_ (l : list Z)
  | Detach.

(** The operation and the contents it should leave. *)
Definition run_op (op : buf_op) (b : u_buf_t) : option u_buf_t :=
  match op with
  | Append l => '(_, b) ← u_buf_append true b (Some l) (Z.of_nat (length l)); Some b
  | Reserve n => '(_, b) ← u_buf_reserve true b n; Some b
  | Clear => Some (u_buf_clear b).2
  | Set_ l => '(_, b) ← u_buf_set true b (Some l) (Z.of_nat (length l)); Some b
  | Detach => Some (u_buf_detach b).2
  end.

Definition spec_op (op : buf_op) (vs : list Z) : list Z :=
  match op with
  | Append l => vs ++ l
  | Reserve _ => vs
  | Clear | Detach => []
  | Set_ l => match l with [] => vs | _ => l end
  end.

(** What an operation may add to the size. *)
Definition demand (op : buf_op) : Z :=
  match op with Append l | Set_ l => Z.of_nat (length l) | Reserve n => n | Clear | Detach => 0 end.
Definition op_ok (op : buf_op) : Prop := 0 ≤ demand op.
Definition demands (ops : list buf_op) : Z := foldr (λ op n, demand op + n) 0 ops.

Fixpoint run (ops : list buf_op) (b : u_buf_t) : option u_buf_t :=
  match ops with [] => Some b | op :: ops => b ← run_op op b; run ops b end.

Lemma clear_model b vs : buf_model b vs → buf_model (u_buf_clear b).2 [].
Proof.
  intros (Hs & Hl & Hle & Hd). repeat split; cbn [u_buf_clear snd b_data b_size b_len]; [lia..|].
  destruct (b_data b) as [d|]; [|done]. exists d. split; [done|]. destruct Hd as (? & ? & ?). done.
Qed.

Lemma run_op_model op b vs t :
  buf_model b vs → op_ok op → b_len b ≤ t → b_size b ≤ 3 * t → t + demand op < 2 ^ 60 →
  ∃ b', run_op op b = Some b' ∧ buf_model b' (spec_op op vs) ∧
        b_len b' ≤ t + demand op ∧ b_size b' ≤ 3 * (t + demand op).
Proof.
  intros Hb Hop Hlen Hsize Ht. unfold op_ok in Hop. pose proof Hb as (? & Hl & ? & _). pose proof (clear_model _ _ Hb) as Hc.
  assert (Happ : ∀ b vs l, buf_model b vs → l ≠ [] → b_len b ≤ t → b_size b ≤ 3 * t → t + Z.of_nat (length l) < 2 ^ 60 →
    ∃ b', u_buf_append true b (Some l) (Z.of_nat (length l)) = Some (0, b') ∧ buf_model b' (vs ++ l) ∧
          b_len b' ≤ t + Z.of_nat (length l) ∧ b_size b' ≤ 3 * (t + Z.of_nat (length l))).
  { clear. intros b vs l Hb Hne Hlen Hsize Ht. pose proof Hb as (? & Hl & ? & _).
    assert (0 < Z.of_nat (length l)) by (destruct l; [done|cbn; lia]).
    destruct (append_model b vs l (Z.of_nat (length l)) Hb ltac:(lia) ltac:(lia)) as (b' & E & Hm & _ & Hg).
    rewrite Nat2Z.id, take_ge in Hm by lia. exists b'. split_and!; [done|done| |lia].
    destruct Hm as (_ & -> & _). rewrite length_app. lia. }
  destruct op as [[|x l]|n| |[|x l]|]; cbn [run_op spec_op demand] in *.
  - exists b. rewrite app_nil_r. split_and!; [done|done|cbn; lia..].
  - destruct (Happ b vs (x :: l) Hb ltac:(done) ltac:(lia) ltac:(lia) ltac:(lia)) as (b' & -> & ? & ? & ?). by exists b'.
  - destruct (reserve_model b vs n Hb ltac:(lia)) as (b' & -> & Hm & Hs). exists b'. split_and!; [done|done| |lia].
    destruct Hm as (_ & -> & _). lia.
  - eexists. split_and!; [done|done|cbn; lia..].
  - exists b. split_and!; [done|done|cbn; lia..].
  - unfold u_buf_set. rewrite (proj2 (Z.eqb_neq _ 0)) by (cbn; lia).
    destruct (Happ _ [] (x :: l) Hc ltac:(done) ltac:(cbn; lia) ltac:(cbn; lia) ltac:(lia)) as (b' & -> & ? & ? & ?).
    by exists b'.
  - exists u_buf_create. split_and!; [done|apply create_model|cbn; lia..].
Qed.

Lemma run_model ops : ∀ b vs t,
  buf_model b vs → Forall op_ok ops → 0 ≤ t → b_len b ≤ t → b_size b ≤ 3 * t → t + demands ops < 2 ^ 60 →
  ∃ b', run ops b = Some b' ∧ buf_model b' (foldl (λ vs op, spec_op op vs) vs ops).
Proof.
  induction ops as [|op ops IH]; intros b vs t Hb Hok H0 Hl Hs Ht; [by exists b|].
  apply Forall_cons in Hok as [Hop Hok]. cbn [demands foldr] in Ht. fold (demands ops) in Ht.
  assert (0 ≤ demands ops).
  { clear -Hok. induction Hok as [|op ops Hop _ IH]; [done|]. cbn. fold (demands ops). unfold op_ok in Hop. lia. }
  unfold op_ok in Hop.
  destruct (run_op_model op b vs t Hb Hop Hl Hs ltac:(lia)) as (b' & E & Hb' & Hl' & Hs').
  cbn [run]. rewrite E. cbn [mbind option_bind]. apply (IH b' (spec_op op vs) (t + demand op)); done || lia.
Qed.

(** A buffer is a growable sequence of bytes: whatever is done with a new
    buffer, as long as less than 2^60 bytes are appended and reserved in all, no
    operation writes outside of its block (the block always has room for the
    NUL), and the contents are those of the sequence. *)
Theorem buf_refines_bytes ops :
  Forall op_ok ops → demands ops < 2 ^ 60 →
  ∃ b, run ops u_buf_create = Some b ∧ buf_model b (foldl (λ vs op, spec_op op vs) [] ops).
Proof. intros Hok Hd. apply (run_model ops u_buf_create [] 0); [apply create_model|done|cbn; lia..]. Qed.

Lemma buf_refines_bytes_witness :
  ∃ b, run [Append [104; 105]; Reserve 10; Append [33]; Clear; Append [111; 107]] u_buf_create = Some b ∧
       buf_model b [111; 107].
Proof.
  apply (buf_refines_bytes [Append [104; 105]; Reserve 10; Append [33]; Clear; Append [111; 107]]);
    [repeat constructor; unfold op_ok; cbn; lia|cbn; lia].
Defined.
