(* ===== verification/Client.v ===== *)
(** * The client's requests ([wsman-client.c], [wsman-soap-envelope.c])

    The options of a client, the selectors it adds to a header, and the
    documents it builds for every action.  A document under construction is its
    header and its body.  [None] is an access through a NULL or invalid
    pointer; a NULL document is a value.  A [float] is what [%f] prints of it,
    zero is [None]. *)

From S2P Require Import Prelude.
From S2P Require Import CString.
From S2P Require Import Names.
From S2P Require Import Xml.
From S2P Require Import Duration.
From S2P Require Import Envelope.
From S2P Require Import Uri.
From S2P Require Import Epr.
From S2P Require Import Filter.

#[local] Open Scope string_scope.
#[local] Open Scope list_scope.
#[local] Open Scope Z_scope.
#[local] Open Scope ow_scope.

Inductive WsmanAction :=
  | WSMAN_ACTION_NONE | WSMAN_ACTION_TRANSFER_GET | WSMAN_ACTION_TRANSFER_PUT | WSMAN_ACTION_ENUMERATION
  | WSMAN_ACTION_PULL | WSMAN_ACTION_RELEASE | WSMAN_ACTION_CUSTOM | WSMAN_ACTION_TRANSFER_CREATE
  | WSMAN_ACTION_TRANSFER_DELETE | WSMAN_ACTION_IDENTIFY | WSMAN_ACTION_ANON_IDENTIFY | WSMAN_ACTION_SUBSCRIBE
  | WSMAN_ACTION_UNSUBSCRIBE | WSMAN_ACTION_RENEW | WSMAN_ACTION_ASSOCIATORS | WSMAN_ACTION_REFERENCES
  | WSMAN_ACTION_TEST.

Inductive WsmanDeliveryMode :=
  | WSMAN_DELIVERY_PUSH | WSMAN_DELIVERY_PUSHWITHACK | WSMAN_DELIVERY_EVENTS | WSMAN_DELIVERY_PULL.

Inductive WsManDeliverySecurityMode :=
  | WSMAN_DELIVERY_SEC_AUTO | WSMAN_DELIVERY_SEC_HTTP_BASIC | WSMAN_DELIVERY_SEC_HTTP_DIGEST
  | WSMAN_DELIVERY_SEC_HTTPS_BASIC | WSMAN_DELIVERY_SEC_HTTPS_DIGEST | WSMAN_DELIVERY_SEC_HTTPS_MUTUAL
  | WSMAN_DELIVERY_SEC_HTTPS_MUTUAL_BASIC | WSMAN_DELIVERY_SEC_HTTPS_MUTUAL_DIGEST
  | WSMAN_DELIVERY_SEC_HTTPS_SPNEGO_KERBEROS | WSMAN_DELIVERY_SEC_HTTPS_MUTUAL_SPNEGO_KERBEROS
  | WSMAN_DELIVERY_SEC_HTTP_SPNEGO_KERBEROS.

#[export] Instance action_eq_dec : EqDecision WsmanAction.
Proof. solve_decision. Defined.
#[export] Instance delivery_mode_eq_dec : EqDecision WsmanDeliveryMode.
Proof. solve_decision. Defined.
#[export] Instance sec_mode_eq_dec : EqDecision WsManDeliverySecurityMode.
Proof. solve_decision. Defined.

Definition FLAG_ENUMERATION_COUNT_ESTIMATION : Z := 0x0001.
Definition FLAG_ENUMERATION_OPTIMIZATION : Z := 0x0002.
Definition FLAG_ENUMERATION_ENUM_EPR : Z := 0x0004.
Definition FLAG_ENUMERATION_ENUM_OBJ_AND_EPR : Z := 0x0008.
Definition FLAG_IncludeSubClassProperties : Z := 0x0020.
Definition FLAG_ExcludeSubClassProperties : Z := 0x0040.
Definition FLAG_POLYMORPHISM_NONE : Z := 0x0080.
Definition FLAG_MUND_MAX_ESIZE : Z := 0x0100.
Definition FLAG_CIM_EXTENSIONS : Z := 0x1000.
Definition FLAG_CIM_REFERENCES : Z := 0x2000.
Definition FLAG_EVENT_SENDBOOKMARK : Z := 0x8000.
Definition FLAG_EXCLUDE_NIL_PROPS : Z := 0x20000.
Definition FLAG_SUPRESS_100_CONTINUE : Z := 0x40000.
Definition WSMAN_CLIENT_SUPRESS_100_CONTINUE : Z := 2.

(** [options] holds the entries of the option table in the order of a scan. *)
Record client_opt_t := ClientOpt {
  o_flags : Z;
  o_fragment : option string;
  o_cim_ns : option string;
  delivery_uri : option string;
  o_reference : option string;
  o_delivery_mode : WsmanDeliveryMode;
  delivery_sec_mode : WsManDeliverySecurityMode;
  delivery_username : option string;
  delivery_password : option string;
  delivery_certificatethumbprint : option string;
  heartbeat_interval : option string;
  o_expires : option string;
  o_selectors : list key_value_t;
  o_properties : list key_value_t;
  o_timeout : Z;
  o_max_envelope_size : Z;
  o_max_elements : Z;
  o_options : list (string * string);
  o_locale : option string;
}.

Definition wsmc_options_init : client_opt_t :=
  ClientOpt 0 None None None None WSMAN_DELIVERY_PUSH WSMAN_DELIVERY_SEC_AUTO None None None None None [] []
    0 0 0 [] None.

Definition set_o_flags (f : Z) (o : client_opt_t) : client_opt_t :=
  ClientOpt f (o_fragment o) (o_cim_ns o) (delivery_uri o) (o_reference o) (o_delivery_mode o) (delivery_sec_mode o)
    (delivery_username o) (delivery_password o) (delivery_certificatethumbprint o) (heartbeat_interval o)
    (o_expires o) (o_selectors o) (o_properties o) (o_timeout o) (o_max_envelope_size o) (o_max_elements o)
    (o_options o) (o_locale o).
Definition set_selectors (l : list key_value_t) (o : client_opt_t) : client_opt_t :=
  ClientOpt (o_flags o) (o_fragment o) (o_cim_ns o) (delivery_uri o) (o_reference o) (o_delivery_mode o)
    (delivery_sec_mode o) (delivery_username o) (delivery_password o) (delivery_certificatethumbprint o)
    (heartbeat_interval o) (o_expires o) l (o_properties o) (o_timeout o) (o_max_envelope_size o)
    (o_max_elements o) (o_options o) (o_locale o).
Definition set_properties (l : list key_value_t) (o : client_opt_t) : client_opt_t :=
  ClientOpt (o_flags o) (o_fragment o) (o_cim_ns o) (delivery_uri o) (o_reference o) (o_delivery_mode o)
    (delivery_sec_mode o) (delivery_username o) (delivery_password o) (delivery_certificatethumbprint o)
    (heartbeat_interval o) (o_expires o) (o_selectors o) l (o_timeout o) (o_max_envelope_size o)
    (o_max_elements o) (o_options o) (o_locale o).

Definition wsmc_set_action_option (o : client_opt_t) (flag : Z) : client_opt_t :=
  set_o_flags (Z.lor (o_flags o) flag) o.
Definition wsmc_clear_action_option (o : client_opt_t) (flag : Z) : client_opt_t :=
  set_o_flags (Z.land (o_flags o) (Z.lnot flag)) o.

(** The setters free the old value and copy the new one, which may be NULL; the
    intervals are texts of [%f], [None] for zero. *)
Definition wsmc_set_delivery_uri (x : option string) (o : client_opt_t) : client_opt_t :=
  ClientOpt (o_flags o) (o_fragment o) (o_cim_ns o) x (o_reference o) (o_delivery_mode o) (delivery_sec_mode o)
    (delivery_username o) (delivery_password o) (delivery_certificatethumbprint o) (heartbeat_interval o)
    (o_expires o) (o_selectors o) (o_properties o) (o_timeout o) (o_max_envelope_size o) (o_max_elements o)
    (o_options o) (o_locale o).
Definition wsmc_set_cim_ns (x : option string) (o : client_opt_t) : client_opt_t :=
  ClientOpt (o_flags o) (o_fragment o) x (delivery_uri o) (o_reference o) (o_delivery_mode o)
    (delivery_sec_mode o) (delivery_username o) (delivery_password o) (delivery_certificatethumbprint o)
    (heartbeat_interval o) (o_expires o) (o_selectors o) (o_properties o) (o_timeout o) (o_max_envelope_size o)
    (o_max_elements o) (o_options o) (o_locale o).
Definition wsmc_set_fragment (x : option string) (o : client_opt_t) : client_opt_t :=
  ClientOpt (o_flags o) x (o_cim_ns o) (delivery_uri o) (o_reference o) (o_delivery_mode o)
    (delivery_sec_mode o) (delivery_username o) (delivery_password o) (delivery_certificatethumbprint o)
    (heartbeat_interval o) (o_expires o) (o_selectors o) (o_properties o) (o_timeout o) (o_max_envelope_size o)
    (o_max_elements o) (o_options o) (o_locale o).
Definition wsmc_set_reference (x : option string) (o : client_opt_t) : client_opt_t :=
  ClientOpt (o_flags o) (o_fragment o) (o_cim_ns o) (delivery_uri o) x (o_delivery_mode o) (delivery_sec_mode o)
    (delivery_username o) (delivery_password o) (delivery_certificatethumbprint o) (heartbeat_interval o)
    (o_expires o) (o_selectors o) (o_properties o) (o_timeout o) (o_max_envelope_size o) (o_max_elements o)
    (o_options o) (o_locale o).
Definition wsmc_set_sub_expiry (x : option string) (o : client_opt_t) : client_opt_t :=
  ClientOpt (o_flags o) (o_fragment o) (o_cim_ns o) (delivery_uri o) (o_reference o) (o_delivery_mode o)
    (delivery_sec_mode o) (delivery_username o) (delivery_password o) (delivery_certificatethumbprint o)
    (heartbeat_interval o) x (o_selectors o) (o_properties o) (o_timeout o) (o_max_envelope_size o)
    (o_max_elements o) (o_options o) (o_locale o).
Definition wsmc_set_heartbeat_interval (x : option string) (o : client_opt_t) : client_opt_t :=
  ClientOpt (o_flags o) (o_fragment o) (o_cim_ns o) (delivery_uri o) (o_reference o) (o_delivery_mode o)
    (delivery_sec_mode o) (delivery_username o) (delivery_password o) (delivery_certificatethumbprint o) x
    (o_expires o) (o_selectors o) (o_properties o) (o_timeout o) (o_max_envelope_size o) (o_max_elements o)
    (o_options o) (o_locale o).
Definition wsmc_set_delivery_mode (x : WsmanDeliveryMode) (o : client_opt_t) : client_opt_t :=
  ClientOpt (o_flags o) (o_fragment o) (o_cim_ns o) (delivery_uri o) (o_reference o) x (delivery_sec_mode o)
    (delivery_username o) (delivery_password o) (delivery_certificatethumbprint o) (heartbeat_interval o)
    (o_expires o) (o_selectors o) (o_properties o) (o_timeout o) (o_max_envelope_size o) (o_max_elements o)
    (o_options o) (o_locale o).
Definition wsmc_set_delivery_security_mode (x : WsManDeliverySecurityMode) (o : client_opt_t) : client_opt_t :=
  ClientOpt (o_flags o) (o_fragment o) (o_cim_ns o) (delivery_uri o) (o_reference o) (o_delivery_mode o) x
    (delivery_username o) (delivery_password o) (delivery_certificatethumbprint o) (heartbeat_interval o)
    (o_expires o) (o_selectors o) (o_properties o) (o_timeout o) (o_max_envelope_size o) (o_max_elements o)
    (o_options o) (o_locale o).
Definition wsmc_set_locale (x : option string) (o : client_opt_t) : client_opt_t :=
  ClientOpt (o_flags o) (o_fragment o) (o_cim_ns o) (delivery_uri o) (o_reference o) (o_delivery_mode o)
    (delivery_sec_mode o) (delivery_username o) (delivery_password o) (delivery_certificatethumbprint o)
    (heartbeat_interval o) (o_expires o) (o_selectors o) (o_properties o) (o_timeout o) (o_max_envelope_size o)
    (o_max_elements o) (o_options o) x.

(** [(options->flags & f) == f]. *)
Definition has_opt (o : client_opt_t) (f : Z) : bool := Z.land (o_flags o) f =? f.

(** ** Lists of keys and values *)

Definition list_key_compare (key : string) (kv : key_value_t) : option bool :=
  k ← deref (kv_key kv); Some (str_eqb k key).

Fixpoint list_find_key (l : list key_value_t) (key : string) : option bool :=
  match l with
  | [] => Some false
  | kv :: l => b ← list_key_compare key kv; if b : bool then Some true else list_find_key l key
  end.

(** Ambiguous calls, calls without a key and duplicates leave the list as it
    is. *)
Definition _wsmc_add_key_value (l : list key_value_t) (key str : option string) (epr : option epr_t)
    (useArray : bool) : option (list key_value_t) :=
  match str, epr, key with
  | Some _, Some _, _ | _, _, None => Some l
  | _, _, Some k =>
      dup ← (if useArray then Some false else list_find_key l k);
      if dup : bool then Some l else kv ← key_value_create key str epr; Some (l ++ [kv])
  end.

Definition wsmc_add_property_array_item (o : client_opt_t) (key value : option string) : option client_opt_t :=
  l ← _wsmc_add_key_value (o_properties o) key value None true; Some (set_properties l o).
Definition wsmc_add_property (o : client_opt_t) (key value : option string) : option client_opt_t :=
  l ← _wsmc_add_key_value (o_properties o) key value None false; Some (set_properties l o).
Definition wsmc_add_property_epr (o : client_opt_t) (key : option string) (value : option epr_t)
  : option client_opt_t :=
  l ← _wsmc_add_key_value (o_properties o) key None value false; Some (set_properties l o).
Definition wsmc_add_selector (o : client_opt_t) (key value : option string) : option client_opt_t :=
  l ← _wsmc_add_key_value (o_selectors o) key value None false; Some (set_selectors l o).
Definition wsmc_add_selector_epr (o : client_opt_t) (key : option string) (value : option epr_t)
  : option client_opt_t :=
  l ← _wsmc_add_key_value (o_selectors o) key None value false; Some (set_selectors l o).

(** Pairs are added one after the other; [scan] is the order in which a scan of
    the parsed table visits them. *)
Fixpoint add_pairs (l : list key_value_t) (ps : list (string * string)) : option (list key_value_t) :=
  match ps with
  | [] => Some l
  | (k, v) :: ps => l ← _wsmc_add_key_value l (Some k) (Some v) None false; add_pairs l ps
  end.

Section Scan.
Context (scan : list (string * string) → list (string * string)).

(** The list is replaced when the query can be parsed. *)
Definition _wsmc_add_uri_to_list (l : list key_value_t) (query : option string) : option (list key_value_t) :=
  match query with
  | None => Some l
  | _ => match u_parse_query query with
         | Some h => add_pairs [] (scan h)
         | None => Some l
         end
  end.

Definition wsmc_add_selectors_from_str (o : client_opt_t) (query : option string) : option client_opt_t :=
  l ← _wsmc_add_uri_to_list (o_selectors o) query; Some (set_selectors l o).
Definition wsmc_add_prop_from_str (o : client_opt_t) (query : option string) : option client_opt_t :=
  l ← _wsmc_add_uri_to_list (o_properties o) query; Some (set_properties l o).

Definition wsmc_set_selectors_from_uri (resource_uri : string) (o : client_opt_t) : option client_opt_t :=
  let o := set_selectors [] o in
  u_uri_parse resource_uri ≫= λ r : option u_uri_t,
  match r with
  | None => Some o
  | Some u => wsmc_add_selectors_from_str o (uquery u)
  end.
End Scan.

(** ** Clients *)

Record WsManClient := Client {
  cl_scheme : string;
  cl_hostname : string;
  cl_port : Z;
  cl_path : string;
  cl_user : option string;
  cl_pwd : option string;
  cl_endpoint : string;
  cl_flags : Z;
}.

Definition wsmc_create (hostname : option string) (port : Z) (path scheme username pwd : option string)
  : WsManClient :=
  let scheme := default "http" scheme in
  let hostname := default "localhost" hostname in
  let path := default "/wsman" path in
  Client scheme hostname port path username pwd
    (scheme +:+ "://" +:+ hostname +:+ ":" +:+ print_int port +:+
     (if starts_with 47 path then "" else "/") +:+ path) 0.

Definition wsmc_create_from_uri (endpoint : option string) : option (option WsManClient) :=
  match endpoint with
  | None => Some None
  | Some e =>
      u_uri_parse e ≫= λ r : option u_uri_t,
      Some (u ← r; Some (wsmc_create (host u) (port u) (path u) (scheme u) (user u) (pwd u)))
  end.

(** ** Names of actions and modes *)

Definition wsman_make_action (uri op_name : option string) : option string :=
  u ← uri; n ← op_name; Some (u +:+ "/" +:+ n).

Definition wsmc_create_action_str (action : WsmanAction) : option string :=
  let make ns n := wsman_make_action (Some ns) (Some n) in
  match action with
  | WSMAN_ACTION_ASSOCIATORS | WSMAN_ACTION_REFERENCES | WSMAN_ACTION_ENUMERATION =>
      make XML_NS_ENUMERATION WSENUM_ENUMERATE
  | WSMAN_ACTION_PULL => make XML_NS_ENUMERATION WSENUM_PULL
  | WSMAN_ACTION_RELEASE => make XML_NS_ENUMERATION WSENUM_RELEASE
  | WSMAN_ACTION_TRANSFER_CREATE => make XML_NS_TRANSFER TRANSFER_CREATE
  | WSMAN_ACTION_TRANSFER_DELETE => make XML_NS_TRANSFER TRANSFER_DELETE
  | WSMAN_ACTION_TRANSFER_GET => make XML_NS_TRANSFER TRANSFER_GET
  | WSMAN_ACTION_TRANSFER_PUT => make XML_NS_TRANSFER TRANSFER_PUT
  | WSMAN_ACTION_SUBSCRIBE => make XML_NS_EVENTING WSEVENT_SUBSCRIBE
  | WSMAN_ACTION_UNSUBSCRIBE => make XML_NS_EVENTING WSEVENT_UNSUBSCRIBE
  | WSMAN_ACTION_RENEW => make XML_NS_EVENTING WSEVENT_RENEW
  | WSMAN_ACTION_NONE | WSMAN_ACTION_IDENTIFY | WSMAN_ACTION_ANON_IDENTIFY | WSMAN_ACTION_TEST
  | WSMAN_ACTION_CUSTOM => None
  end.

Definition wsmc_create_delivery_mode_str (mode : WsmanDeliveryMode) : string :=
  match mode with
  | WSMAN_DELIVERY_PUSH => WSEVENT_DELIVERY_MODE_PUSH
  | WSMAN_DELIVERY_PUSHWITHACK => WSEVENT_DELIVERY_MODE_PUSHWITHACK
  | WSMAN_DELIVERY_EVENTS => WSEVENT_DELIVERY_MODE_EVENTS
  | WSMAN_DELIVERY_PULL => WSEVENT_DELIVERY_MODE_PULL
  end.

Definition wsmc_create_delivery_sec_mode_str (mode : WsManDeliverySecurityMode) : option string :=
  match mode with
  | WSMAN_DELIVERY_SEC_HTTP_BASIC => Some WSMAN_SECURITY_PROFILE_HTTP_BASIC
  | WSMAN_DELIVERY_SEC_HTTP_DIGEST => Some WSMAN_SECURITY_PROFILE_HTTP_DIGEST
  | WSMAN_DELIVERY_SEC_HTTPS_BASIC => Some WSMAN_SECURITY_PROFILE_HTTPS_BASIC
  | WSMAN_DELIVERY_SEC_HTTPS_DIGEST => Some WSMAN_SECURITY_PROFILE_HTTPS_DIGEST
  | WSMAN_DELIVERY_SEC_HTTPS_MUTUAL => Some WSMAN_SECURITY_PROFILE_HTTPS_MUTUAL
  | WSMAN_DELIVERY_SEC_HTTPS_MUTUAL_BASIC => Some WSMAN_SECURITY_PROFILE_HTTPS_MUTUAL_BASIC
  | WSMAN_DELIVERY_SEC_HTTPS_MUTUAL_DIGEST => Some WSMAN_SECURITY_PROFILE_HTTPS_MUTUAL_DIGEST
  | WSMAN_DELIVERY_SEC_HTTPS_SPNEGO_KERBEROS => Some WSMAN_SECURITY_PROFILE_HTTPS_SPNEGO_KERBEROS
  | WSMAN_DELIVERY_SEC_HTTPS_MUTUAL_SPNEGO_KERBEROS =>
      Some WSMAN_SECURITY_PROFILE_HTTPS_MUTUAL_SPNEGO_KERBEROS
  | WSMAN_DELIVERY_SEC_HTTP_SPNEGO_KERBEROS => Some WSMAN_SECURITY_PROFILE_HTTP_SPNEGO_KERBEROS
  | WSMAN_DELIVERY_SEC_AUTO => None
  end.

(** ** Building *)

Section Building.
Context {LX : Libxml2}.

(** [ws_xml_read_memory]: the root of the document in a string. *)
Context (read_memory : string → option xnode).

Abbreviation tnode ns name t := (text_node (Some ns) name t).

(** [enforce_mustunderstand], in a SOAP 1.2 envelope. *)
Definition enforce_mustunderstand (n : xnode) : xnode :=
  ws_xml_add_node_attr n (Some XML_NS_SOAP_1_2) SOAP_MUST_UNDERSTAND (Some "true").

Definition ws_serialize_str (parent : xnode) (str ns name : string) (mustunderstand : bool) : xnode :=
  let n := tnode ns name (Some str) in
  add_node parent (if mustunderstand then enforce_mustunderstand n else n).

(** The text is only set when it fits in twelve bytes. *)
Definition ws_serialize_uint32 (parent : xnode) (val : Z) (ns name : string) (mustunderstand : bool) : xnode :=
  let t := print_nat val in
  let n := tnode ns name (if (String.length t <? 12)%nat then Some t else None) in
  add_node parent (if mustunderstand then enforce_mustunderstand n else n).

(** Replaces the first child with a given name. *)
Fixpoint alter_first_match (ns name : string) (f : xnode → xnode) (l : list xnode) : list xnode :=
  match l with
  | [] => []
  | n :: l =>
      if is_element n && ws_xml_is_node_qname (Some n) (Some ns) (Some name) then f n :: l
      else n :: alter_first_match ns name f l
  end.

Definition alter_child (ns name : string) (f : xnode → xnode) (n : xnode) : xnode :=
  match n with
  | XElement ns' name' ps c => XElement ns' name' ps (alter_first_match ns name f c)
  | XOther _ => n
  end.

(** A value that looks like an endpoint reference is parsed as one. *)
Definition selector_node (name : string) (val : option string) (epr : option epr_t) : option xnode :=
  let named n := ws_xml_add_node_attr n None WSM_NAME (Some name) in
  match val with
  | Some v =>
      let doc := match strstr v WSA_EPR with Some _ => read_memory v | None => None end in
      Some (match doc with
            | Some d => named (add_node (tnode XML_NS_WS_MAN WSM_SELECTOR None) (ws_xml_duplicate_tree d))
            | None => named (tnode XML_NS_WS_MAN WSM_SELECTOR (Some v))
            end)
  | None =>
      match epr with
      | Some e => epr_serialize e (Some XML_NS_ADDRESSING) (Some WSA_EPR) true
                    (named (tnode XML_NS_WS_MAN WSM_SELECTOR None))
      | None => Some (named (tnode XML_NS_WS_MAN WSM_SELECTOR None))
      end
  end.

Definition _wsman_add_selector (base : xnode) (name : string) (val : option string) (epr : option epr_t)
  : option xnode :=
  s ← selector_node name val epr;
  Some (match child (Some base) XML_NS_WS_MAN WSM_SELECTOR_SET with
        | Some _ => alter_child XML_NS_WS_MAN WSM_SELECTOR_SET (λ set, add_node set s) base
        | None => add_node base (add_node (tnode XML_NS_WS_MAN WSM_SELECTOR_SET None) s)
        end).

Definition wsman_add_selector (base : xnode) (name : string) (val : option string) : option xnode :=
  _wsman_add_selector base name val None.
Definition wsman_add_selector_epr (base : xnode) (name : string) (val : option epr_t) : option xnode :=
  _wsman_add_selector base name None val.

Fixpoint wsmc_add_selector_from_options (header : xnode) (l : list key_value_t) : option xnode :=
  match l with
  | [] => Some header
  | KeyValue k v :: l =>
      k ← deref k;
      header ← match v with
               | VText t => t ← deref t; wsman_add_selector header k (Some t)
               | VEpr e => wsman_add_selector_epr header k e
               end;
      wsmc_add_selector_from_options header l
  end.

(** [xmlNodeSetLang]. *)
Definition ws_xml_set_node_lang (n : xnode) (lang : string) : xnode :=
  ws_xml_add_node_attr n (Some XML_NS_XML_NAMESPACES) "lang" (Some lang).

Definition opt_add {A} (o : option A) (f : xnode → A → xnode) (h : xnode) : xnode :=
  match o with Some a => f h a | None => h end.

(** The header up to the reply address. *)
Definition address_headers (muuid : string) (action reply_to : string) (resource_uri : option string) (to : string)
    (o : client_opt_t) (h : xnode) : xnode :=
  let h := ws_serialize_str h action XML_NS_ADDRESSING WSA_ACTION true in
  let h := ws_serialize_str h to XML_NS_ADDRESSING WSA_TO true in
  let h := opt_add resource_uri (λ h u, ws_serialize_str h u XML_NS_WS_MAN WSM_RESOURCE_URI true) h in
  let h := if str_eqb muuid "" then h else ws_serialize_str h muuid XML_NS_ADDRESSING WSA_MESSAGE_ID true in
  let h := if o_timeout o =? 0 then h
           else ws_serialize_str h
                  ("PT" +:+ print_nat (wrap32 (o_timeout o) / 1000) +:+ "." +:+ print_nat (wrap32 (o_timeout o) mod 1000) +:+ "S")
                  XML_NS_WS_MAN WSM_OPERATION_TIMEOUT false in
  let h := if o_max_envelope_size o =? 0 then h
           else ws_serialize_uint32 h (o_max_envelope_size o) XML_NS_WS_MAN WSM_MAX_ENVELOPE_SIZE
                  (negb (Z.land (o_flags o) FLAG_MUND_MAX_ESIZE =? 0)) in
  let h := opt_add (o_fragment o) (λ h f, ws_serialize_str h f XML_NS_WS_MAN WSM_FRAGMENT_TRANSFER true) h in
  let h := opt_add (o_locale o)
             (λ h l, add_node h (ws_xml_add_node_attr
                (ws_xml_set_node_lang (tnode XML_NS_WS_MAN WSM_LOCALE None) l)
                (Some XML_NS_SOAP_1_2) SOAP_MUST_UNDERSTAND (Some "false"))) h in
  add_node h (add_node (tnode XML_NS_ADDRESSING WSA_REPLY_TO None)
                (tnode XML_NS_ADDRESSING WSA_ADDRESS (Some reply_to))).

(** The selectors of the options and the CIM namespace, unless the options are
    for reference instances. *)
Definition selector_headers (o : client_opt_t) (h : xnode) : option xnode :=
  if has_opt o FLAG_CIM_REFERENCES then Some h
  else
    h ← wsmc_add_selector_from_options h (o_selectors o);
    match o_cim_ns o with
    | None => Some h
    | Some ns =>
        dup ← list_find_key (o_selectors o) CIM_NAMESPACE_SELECTOR;
        if dup : bool then Some h else wsman_add_selector h CIM_NAMESPACE_SELECTOR (Some ns)
    end.

Definition header0 : xnode := tnode XML_NS_SOAP_1_2 SOAP_HEADER None.
Definition body0 : xnode := tnode XML_NS_SOAP_1_2 SOAP_BODY None.

Definition wsmc_build_envelope (muuid action : string) (reply_to resource_uri to : option string)
    (o : client_opt_t) : option xnode :=
  selector_headers o
    (address_headers muuid action (default WSA_TO_ANONYMOUS reply_to) resource_uri (default WSA_TO_ANONYMOUS to) o
       header0).

(** *** Enumerate *)

Definition enumeration_options (o : client_opt_t) (filter : option filter_t) (node : xnode) : option xnode :=
  let node := if has_opt o FLAG_ENUMERATION_OPTIMIZATION
              then add_node node (tnode XML_NS_WS_MAN WSM_OPTIMIZE_ENUM None) else node in
  let mode t := add_node node (tnode XML_NS_WS_MAN WSM_ENUM_MODE (Some t)) in
  let node := if has_opt o FLAG_ENUMERATION_ENUM_EPR then mode WSM_ENUM_EPR
              else if has_opt o FLAG_ENUMERATION_ENUM_OBJ_AND_EPR then mode WSM_ENUM_OBJ_AND_EPR else node in
  let poly t := add_node node (tnode XML_NS_CIM_BINDING WSMB_POLYMORPHISM_MODE (Some t)) in
  let node := if has_opt o FLAG_IncludeSubClassProperties then poly WSMB_INCLUDE_SUBCLASS_PROP
              else if has_opt o FLAG_ExcludeSubClassProperties then poly WSMB_EXCLUDE_SUBCLASS_PROP
              else if has_opt o FLAG_POLYMORPHISM_NONE then poly "None" else node in
  match filter with
  | None => Some node
  | Some f => '(_, node) ← filter_serialize node f XML_NS_WS_MAN; Some node
  end.

(** *** Subscribe *)

(** [snprintf] into [n] bytes. *)
Definition snprintf_cut (n : nat) (s : string) : string := String.substring 0 (n - 1) s.

Definition applies_to_node (o : client_opt_t) : xnode :=
  add_node (tnode XML_NS_POLICY WSP_APPLIESTO None)
    (add_node (tnode XML_NS_ADDRESSING WSA_EPR None) (tnode XML_NS_ADDRESSING WSA_ADDRESS (delivery_uri o))).

Definition token_response (type : string) (token : xnode) (o : client_opt_t) : xnode :=
  foldl add_node (tnode XML_NS_TRUST WST_REQUESTSECURITYTOKENRESPONSE None)
    [tnode XML_NS_TRUST WST_TOKENTYPE (Some type);
     add_node (tnode XML_NS_TRUST WST_REQUESTEDSECURITYTOKEN None) token;
     applies_to_node o].

Definition thumbprint_token (o : client_opt_t) : list xnode :=
  match delivery_certificatethumbprint o with
  | Some t => [token_response WST_CERTIFICATETHUMBPRINT (tnode XML_NS_WS_MAN WSM_CERTIFICATETHUMBPRINT (Some t)) o]
  | None => []
  end.

Definition opt_node (ns name : string) (t : option string) : list xnode :=
  match t with Some t => [tnode ns name (Some t)] | None => [] end.

Definition username_token (o : client_opt_t) : list xnode :=
  match delivery_username o, delivery_password o with
  | None, None => []
  | u, p =>
      [token_response WST_USERNAMETOKEN
         (foldl add_node (tnode XML_NS_SE WSSE_USERNAMETOKEN None)
            (opt_node XML_NS_SE WSSE_USERNAME u ++ opt_node XML_NS_SE WSSE_PASSWORD p)) o]
  end.

(** The element for the reference properties. *)
Definition reference_properties (o : client_opt_t) : option xnode :=
  r ← o_reference o;
  Some (match read_memory r with
        | Some d => add_node (tnode XML_NS_ADDRESSING WSA_REFERENCE_PROPERTIES None) (ws_xml_duplicate_tree d)
        | None => tnode XML_NS_ADDRESSING WSA_REFERENCE_PROPERTIES None
        end).

Fixpoint add_to_last (n : xnode) (l : list xnode) : list xnode :=
  match l with
  | [] => []
  | [x] => [add_node x n]
  | x :: l => x :: add_to_last n l
  end.

(** Without an event sink the reference properties go to the last token. *)
Definition issued_tokens (o : client_opt_t) : list xnode :=
  let ts := thumbprint_token o ++ username_token o in
  match delivery_uri o, reference_properties o with
  | None, Some n => add_to_last n ts
  | _, _ => ts
  end.

Definition notify_to (o : client_opt_t) : list xnode :=
  match delivery_uri o with
  | None => []
  | Some u =>
      [foldl add_node (tnode XML_NS_EVENTING WSEVENT_NOTIFY_TO None)
         (tnode XML_NS_ADDRESSING WSA_ADDRESS (Some u) ::
          match reference_properties o with Some n => [n] | None => [] end)]
  end.

Definition heartbeats_node (o : client_opt_t) : list xnode :=
  match heartbeat_interval o with
  | Some f => [tnode XML_NS_WS_MAN WSM_HEARTBEATS (Some (snprintf_cut 32 ("PT" +:+ f +:+ "S")))]
  | None => []
  end.

(** With a security mode the heartbeats are added to the Auth element. *)
Definition delivery_node (o : client_opt_t) : xnode :=
  foldl add_node
    (ws_xml_add_node_attr (tnode XML_NS_EVENTING WSEVENT_DELIVERY None) None WSEVENT_DELIVERY_MODE
       (Some (wsmc_create_delivery_mode_str (o_delivery_mode o))))
    (notify_to o ++
     match wsmc_create_delivery_sec_mode_str (delivery_sec_mode o) with
     | Some profile =>
         [foldl add_node
            (ws_xml_add_node_attr (tnode XML_NS_WS_MAN WSM_AUTH None) None WSM_PROFILE (Some profile))
            (heartbeats_node o)]
     | None => heartbeats_node o
     end).

Definition subscribe_node (o : client_opt_t) (filter : option filter_t) : option xnode :=
  let node :=
    foldl add_node (tnode XML_NS_EVENTING WSEVENT_SUBSCRIBE None)
      (delivery_node o ::
       match o_expires o with
       | Some f => [tnode XML_NS_EVENTING WSEVENT_EXPIRES (Some (snprintf_cut 32 ("PT" +:+ f +:+ "S")))]
       | None => []
       end) in
  node ← match filter with
         | None => Some node
         | Some f => '(_, node) ← filter_serialize node f XML_NS_WS_MAN; Some node
         end;
  Some (if negb (Z.land (o_flags o) FLAG_EVENT_SENDBOOKMARK =? 0)
        then add_node node (tnode XML_NS_WS_MAN WSM_SENDBOOKMARKS None) else node).

(** The header and the body. *)
Definition wsman_set_subscribe_options (o : client_opt_t) (filter : option filter_t) (header body : xnode)
  : option (xnode * xnode) :=
  let header :=
    match issued_tokens o with
    | [] => header
    | ts => add_node header
              (foldl add_node
                 (ws_xml_add_node_attr (tnode XML_NS_TRUST WST_ISSUEDTOKENS None) (Some XML_NS_SOAP_1_2)
                    SOAP_MUST_UNDERSTAND (Some "true")) ts)
    end in
  node ← subscribe_node o filter; Some (header, add_node body node).

(** *** All actions *)

(** The elements of the option set: the two flags and the table. *)
Definition option_node (ns name : string) (t : option string) : xnode :=
  ws_xml_add_node_attr (tnode ns WSM_OPTION t) None WSM_NAME (Some name).

Definition option_nodes (o : client_opt_t) : list xnode :=
  (if has_opt o FLAG_CIM_EXTENSIONS then [option_node XML_NS_WS_MAN WSMB_SHOW_EXTENSION None] else []) ++
  (if has_opt o FLAG_EXCLUDE_NIL_PROPS then [option_node XML_NS_OPENWSMAN WSMB_EXCLUDE_NIL_PROPS None] else []) ++
  ((λ kv, option_node XML_NS_WS_MAN kv.1 (Some kv.2)) <$> o_options o).

Definition add_option_set (o : client_opt_t) (header : xnode) : xnode :=
  match option_nodes o with
  | [] => header
  | l => add_node header (foldl add_node (tnode XML_NS_WS_MAN WSM_OPTION_SET None) l)
  end.

(** [add_subscription_context]. *)
Definition add_subscription_context (node : xnode) (context : string) : xnode :=
  match read_memory context with
  | None => node
  | Some d => foldl add_node node (duplicate_children (Some d))
  end.

Definition with_context (data : option string) (header : xnode) : xnode :=
  match data with
  | Some d => if str_eqb d "" then header else add_subscription_context header d
  | None => header
  end.

(** The element that carries an enumeration context. *)
Definition context_node (name : string) (data : option string) : xnode :=
  foldl add_node (tnode XML_NS_ENUMERATION name None)
    (match data with Some d => [tnode XML_NS_ENUMERATION WSENUM_ENUMERATION_CONTEXT (Some d)] | None => [] end).

Definition max_elements_node (ns : string) (o : option client_opt_t) : list xnode :=
  match o with
  | Some o => if 0 <? o_max_elements o
              then [tnode ns WSENUM_MAX_ELEMENTS (Some (print_int (sint 32 (o_max_elements o))))] else []
  | None => []
  end.

Definition opt_has (o : option client_opt_t) (f : Z) : bool :=
  match o with Some o => has_opt o f | None => false end.

Definition request_total (o : option client_opt_t) (header : xnode) : xnode :=
  if opt_has o FLAG_ENUMERATION_COUNT_ESTIMATION
  then add_node header (tnode XML_NS_WS_MAN WSM_REQUEST_TOTAL None) else header.

(** What the action puts into the header and the body. *)
Definition action_parts (action : WsmanAction) (o : option client_opt_t) (filter : option filter_t)
    (data : option string) (header body : xnode) : option (xnode * xnode) :=
  match action with
  | WSMAN_ACTION_IDENTIFY | WSMAN_ACTION_ANON_IDENTIFY =>
      Some (header, add_node body (tnode XML_NS_WSMAN_ID WSMID_IDENTIFY None))
  | WSMAN_ACTION_ENUMERATION | WSMAN_ACTION_ASSOCIATORS | WSMAN_ACTION_REFERENCES =>
      let node := tnode XML_NS_ENUMERATION WSENUM_ENUMERATE None in
      node ← match o with Some o => enumeration_options o filter node | None => Some node end;
      Some (if decide (action = WSMAN_ACTION_ENUMERATION) then
              let node := if opt_has o FLAG_ENUMERATION_OPTIMIZATION
                          then foldl add_node node (max_elements_node XML_NS_WS_MAN o) else node in
              (request_total o header, add_node body node)
            else (header, add_node body node))
  | WSMAN_ACTION_PULL =>
      Some (request_total o header,
            add_node body (foldl add_node (context_node WSENUM_PULL data) (max_elements_node XML_NS_ENUMERATION o)))
  | WSMAN_ACTION_RELEASE => Some (header, add_node body (context_node WSENUM_RELEASE data))
  | WSMAN_ACTION_SUBSCRIBE =>
      match o with Some o => wsman_set_subscribe_options o filter header body | None => Some (header, body) end
  | WSMAN_ACTION_UNSUBSCRIBE =>
      Some (with_context data header, add_node body (tnode XML_NS_EVENTING WSEVENT_UNSUBSCRIBE None))
  | WSMAN_ACTION_RENEW =>
      let expires := match o with Some o => default "0.000000" (o_expires o) | None => "0.000000" end in
      Some (with_context data header,
            add_node body (add_node (tnode XML_NS_EVENTING WSEVENT_RENEW None)
              (tnode XML_NS_EVENTING WSEVENT_EXPIRES (Some (snprintf_cut 20 ("PT" +:+ expires +:+ "S"))))))
  | WSMAN_ACTION_CUSTOM | WSMAN_ACTION_NONE | WSMAN_ACTION_TRANSFER_CREATE | WSMAN_ACTION_TEST
  | WSMAN_ACTION_TRANSFER_GET | WSMAN_ACTION_TRANSFER_PUT | WSMAN_ACTION_TRANSFER_DELETE => Some (header, body)
  end.

Definition request_document (header body : xnode) : xnode :=
  XElement (Some XML_NS_SOAP_1_2) SOAP_ENVELOPE [] [header; body].

(** The action header: a method that is a URI, a method of the resource, or the
    name of the action. *)
Definition request_action (resource_uri method : option string) (action : WsmanAction) : option string :=
  match method with
  | Some m => if bool_decide (is_Some (strchr m (chr 47))) then Some m else wsman_make_action resource_uri (Some m)
  | None => wsmc_create_action_str action
  end.

Definition client_flags (o : option client_opt_t) (f : Z) : Z :=
  match o with
  | None => f
  | Some o => if negb (Z.land (o_flags o) FLAG_SUPRESS_100_CONTINUE =? 0)
              then Z.lor f WSMAN_CLIENT_SUPRESS_100_CONTINUE
              else Z.land f (Z.lnot WSMAN_CLIENT_SUPRESS_100_CONTINUE)
  end.

(** The document, which may be NULL, and the new flags of the client. *)
Definition wsmc_create_request (muuid : string) (cl : WsManClient) (resource_uri : option string)
    (o : option client_opt_t) (filter : option filter_t) (action : WsmanAction) (method data : option string)
  : option (option xnode * Z) :=
  (if decide (action = WSMAN_ACTION_IDENTIFY) then Some (Some header0)
   else match o, request_action resource_uri method action with
        | Some o, Some a =>
            h ← wsmc_build_envelope muuid a (Some WSA_TO_ANONYMOUS) resource_uri (Some (cl_endpoint cl)) o;
            Some (Some h)
        | _, _ => Some None
        end) ≫= λ header : option xnode,
  match header with
  | None => Some (None, cl_flags cl)
  | Some h =>
      let h := match o with Some o => add_option_set o h | None => h end in
      '(h, b) ← action_parts action o filter data h body0;
      Some (Some (request_document h b), client_flags o (cl_flags cl))
  end.
End Building.
