(* ===== verification/ClientTransport.v ===== *)
(** * Client transport ([wsman-client-transport.c], [wsman-curl-client-transport.c])

    Sending a request: the lock of the client, the connection, and the loop
    that authenticates.  libcurl and the peer behind it are a state [W] with the
    operations the code calls; the callback that asks for credentials is the
    application's. *)

From S2P Require Import Prelude.
From S2P Require Import CString.
From S2P Require Import Uri.
From S2P Require Import Xml.
From Stdlib Require Import Ascii.

#[local] Open Scope string_scope.
#[local] Open Scope list_scope.
#[local] Open Scope Z_scope.
#[local] Open Scope ow_scope.

(** ** Methods of authentication *)

Inductive wsman_auth_type_t :=
  | WS_NO_AUTH | WS_BASIC_AUTH | WS_DIGEST_AUTH | WS_PASS_AUTH | WS_NTLM_AUTH | WS_GSSNEGOTIATE_AUTH | WS_MAX_AUTH.

Definition _WS_NO_AUTH : string := "No Auth".
Definition _WS_BASIC_AUTH : string := "Basic".
Definition _WS_DIGEST_AUTH : string := "Digest".
Definition _WS_PASS_AUTH : string := "Passport".
Definition _WS_NTLM_AUTH : string := "NTLM".
Definition _WS_GSSNEGOTIATE_AUTH : string := "GSS-Negotiate".

Definition auth_methods : list (wsman_auth_type_t * string) :=
  [(WS_NO_AUTH, _WS_NO_AUTH); (WS_BASIC_AUTH, _WS_BASIC_AUTH); (WS_DIGEST_AUTH, _WS_DIGEST_AUTH);
   (WS_PASS_AUTH, _WS_PASS_AUTH); (WS_NTLM_AUTH, _WS_NTLM_AUTH); (WS_GSSNEGOTIATE_AUTH, _WS_GSSNEGOTIATE_AUTH)].

Definition wsmc_transport_get_auth_name (a : wsman_auth_type_t) : string :=
  match a with
  | WS_NO_AUTH => _WS_NO_AUTH
  | WS_BASIC_AUTH => _WS_BASIC_AUTH
  | WS_DIGEST_AUTH => _WS_DIGEST_AUTH
  | WS_PASS_AUTH => _WS_PASS_AUTH
  | WS_NTLM_AUTH => _WS_NTLM_AUTH
  | WS_GSSNEGOTIATE_AUTH => _WS_GSSNEGOTIATE_AUTH
  | WS_MAX_AUTH => "Unknown"
  end.

(** The comparison is over the length of the configured method, so a prefix of
    a name will do. *)
Definition wsman_is_auth_method (method : option string) (a : wsman_auth_type_t) : bool :=
  match method with
  | None => true
  | Some m =>
      match a with
      | WS_MAX_AUTH => false
      | _ => str_prefix (str_lower m) (str_lower (wsmc_transport_get_auth_name a))
      end
  end.

Fixpoint find_method (m : string) (l : list (wsman_auth_type_t * string)) : wsman_auth_type_t :=
  match l with
  | [] => WS_MAX_AUTH
  | (a, n) :: l => if strcase_eqb m n then a else find_method m l
  end.

Definition wsmc_transport_get_auth_value (method : option string) : wsman_auth_type_t :=
  match method with None => WS_NO_AUTH | Some m => find_method m auth_methods end.

(** ** Certificate thumbprints *)

(** A character that is not a hexadecimal digit leaves the value of the one
    before. *)
Definition hex_value (old : Z) (a : ascii) : Z :=
  let c := code a in
  if (c <=? 57) && (48 <=? c) then c - 48
  else if (c <=? 102) && (97 <=? c) then c - 97 + 10
  else if (c <=? 70) && (65 <=? c) then c - 65 + 10
  else old.

Fixpoint hexadecimal2raw (str : string) (len : nat) (v1 v2 : Z) : list Z :=
  match len, str with
  | S len, String a (String b str) =>
      let v1 := wrap8 (Z.shiftl (hex_value v1 a) 4) in
      let v2 := hex_value v2 b in
      wrap8 (v1 + v2) :: hexadecimal2raw str len v1 v2
  | _, _ => []
  end.

Definition hex_digit (v : Z) : ascii := if v <=? 9 then chr (48 + v) else chr (97 + v - 10).

Fixpoint raw2hexadecimal (l : list Z) : string :=
  match l with
  | [] => ""
  | b :: l => String (hex_digit (Z.shiftr (Z.land b 0xf0) 4)) (String (hex_digit (Z.land b 0x0f)) (raw2hexadecimal l))
  end.

(** The thumbprint is a field of twenty bytes, overwritten from its start. *)
Definition wsman_transport_set_certhumbprint (old : list Z) (arg : option string) : list Z :=
  match arg with
  | None => old
  | Some s => let new := hexadecimal2raw s 20 0 0 in new ++ drop (length new) old
  end.
Definition wsman_transport_get_certhumbprint (t : list Z) : string := raw2hexadecimal t.

(** ** Sending *)

Definition WSMAN_CLIENT_BUSY : Z := 1.

Definition CURLAUTH_BASIC : Z := 1.
Definition CURLAUTH_DIGEST : Z := 2.
Definition CURLAUTH_GSSNEGOTIATE : Z := 4.
Definition CURLAUTH_NTLM : Z := 8.

Inductive CURLcode :=
  | CURLE_OK | CURLE_FAILED_INIT | CURLE_UNSUPPORTED_PROTOCOL | CURLE_URL_MALFORMAT | CURLE_COULDNT_RESOLVE_PROXY
  | CURLE_COULDNT_RESOLVE_HOST | CURLE_COULDNT_CONNECT | CURLE_HTTP_RETURNED_ERROR | CURLE_WRITE_ERROR
  | CURLE_READ_ERROR | CURLE_OUT_OF_MEMORY | CURLE_OPERATION_TIMEOUTED | CURLE_HTTP_POST_ERROR
  | CURLE_BAD_DOWNLOAD_RESUME | CURLE_TOO_MANY_REDIRECTS | CURLE_SSL_CONNECT_ERROR | CURLE_BAD_FUNCTION_ARGUMENT
  | CURLE_SSL_ENGINE_NOTFOUND | CURLE_SSL_ENGINE_SETFAILED | CURLE_SSL_CERTPROBLEM | CURLE_PEER_FAILED_VERIFICATION
  | CURLE_SSL_ENGINE_INITFAILED | CURLE_SEND_ERROR | CURLE_RECV_ERROR | CURLE_BAD_CONTENT_ENCODING
  | CURLE_LOGIN_DENIED | CURLE_SSL_CRL_BADFILE | CURLE_other.

Inductive WS_LASTERR_Code :=
  | WS_LASTERR_OK | WS_LASTERR_OTHER_ERROR | WS_LASTERR_FAILED_INIT | WS_LASTERR_UNSUPPORTED_PROTOCOL
  | WS_LASTERR_URL_MALFORMAT | WS_LASTERR_COULDNT_RESOLVE_PROXY | WS_LASTERR_COULDNT_RESOLVE_HOST
  | WS_LASTERR_COULDNT_CONNECT | WS_LASTERR_HTTP_RETURNED_ERROR | WS_LASTERR_WRITE_ERROR | WS_LASTERR_READ_ERROR
  | WS_LASTERR_OUT_OF_MEMORY | WS_LASTERR_OPERATION_TIMEOUTED | WS_LASTERR_HTTP_POST_ERROR
  | WS_LASTERR_BAD_DOWNLOAD_RESUME | WS_LASTERR_TOO_MANY_REDIRECTS | WS_LASTERR_SSL_CONNECT_ERROR
  | WS_LASTERR_SSL_PEER_CERTIFICATE | WS_LASTERR_SSL_ENGINE_NOTFOUND | WS_LASTERR_SSL_ENGINE_SETFAILED
  | WS_LASTERR_SSL_CERTPROBLEM | WS_LASTERR_SSL_CACERT | WS_LASTERR_SSL_ENGINE_INITFAILED | WS_LASTERR_SEND_ERROR
  | WS_LASTERR_RECV_ERROR | WS_LASTERR_BAD_CONTENT_ENCODING | WS_LASTERR_LOGIN_DENIED | WS_LASTERR_BAD_CRL_FILE
  | WS_LASTERR_CURL_BAD_FUNCTION_ARG.

#[export] Instance curlcode_eq_dec : EqDecision CURLcode.
Proof. solve_decision. Defined.
#[export] Instance lasterr_eq_dec : EqDecision WS_LASTERR_Code.
Proof. solve_decision. Defined.
#[export] Instance auth_type_eq_dec : EqDecision wsman_auth_type_t.
Proof. solve_decision. Defined.

(** With a libcurl that reports failed peer verification as one code. *)
Definition convert_to_last_error (r : CURLcode) : WS_LASTERR_Code :=
  match r with
  | CURLE_OK => WS_LASTERR_OK
  | CURLE_FAILED_INIT => WS_LASTERR_FAILED_INIT
  | CURLE_UNSUPPORTED_PROTOCOL => WS_LASTERR_UNSUPPORTED_PROTOCOL
  | CURLE_URL_MALFORMAT => WS_LASTERR_URL_MALFORMAT
  | CURLE_COULDNT_RESOLVE_PROXY => WS_LASTERR_COULDNT_RESOLVE_PROXY
  | CURLE_COULDNT_RESOLVE_HOST => WS_LASTERR_COULDNT_RESOLVE_HOST
  | CURLE_COULDNT_CONNECT => WS_LASTERR_COULDNT_CONNECT
  | CURLE_HTTP_RETURNED_ERROR => WS_LASTERR_HTTP_RETURNED_ERROR
  | CURLE_WRITE_ERROR => WS_LASTERR_WRITE_ERROR
  | CURLE_READ_ERROR => WS_LASTERR_READ_ERROR
  | CURLE_OUT_OF_MEMORY => WS_LASTERR_OUT_OF_MEMORY
  | CURLE_OPERATION_TIMEOUTED => WS_LASTERR_OPERATION_TIMEOUTED
  | CURLE_HTTP_POST_ERROR => WS_LASTERR_HTTP_POST_ERROR
  | CURLE_BAD_DOWNLOAD_RESUME => WS_LASTERR_BAD_DOWNLOAD_RESUME
  | CURLE_TOO_MANY_REDIRECTS => WS_LASTERR_TOO_MANY_REDIRECTS
  | CURLE_SSL_CONNECT_ERROR => WS_LASTERR_SSL_CONNECT_ERROR
  | CURLE_BAD_FUNCTION_ARGUMENT => WS_LASTERR_CURL_BAD_FUNCTION_ARG
  | CURLE_SSL_ENGINE_NOTFOUND => WS_LASTERR_SSL_ENGINE_NOTFOUND
  | CURLE_SSL_ENGINE_SETFAILED => WS_LASTERR_SSL_ENGINE_SETFAILED
  | CURLE_SSL_CERTPROBLEM => WS_LASTERR_SSL_CERTPROBLEM
  | CURLE_PEER_FAILED_VERIFICATION => WS_LASTERR_SSL_PEER_CERTIFICATE
  | CURLE_SSL_ENGINE_INITFAILED => WS_LASTERR_SSL_ENGINE_INITFAILED
  | CURLE_SEND_ERROR => WS_LASTERR_SEND_ERROR
  | CURLE_RECV_ERROR => WS_LASTERR_RECV_ERROR
  | CURLE_BAD_CONTENT_ENCODING => WS_LASTERR_BAD_CONTENT_ENCODING
  | CURLE_LOGIN_DENIED => WS_LASTERR_LOGIN_DENIED
  | CURLE_SSL_CRL_BADFILE => WS_LASTERR_BAD_CRL_FILE
  | CURLE_other => WS_LASTERR_OTHER_ERROR
  end.

(** The fields of a client that sending uses: [t_response] is the buffer of the
    connection, [None] before anything was appended to it. *)
Record transport (W : Type) := Transport {
  t_flags : Z;
  t_user : option string;
  t_pwd : option string;
  t_auth_set : Z;
  t_method : option string;
  t_code : Z;
  t_error : WS_LASTERR_Code;
  t_response : option string;
  t_world : W;
}.
Arguments Transport {W}.
Arguments t_flags {W}.
Arguments t_user {W}.
Arguments t_pwd {W}.
Arguments t_auth_set {W}.
Arguments t_method {W}.
Arguments t_code {W}.
Arguments t_error {W}.
Arguments t_response {W}.
Arguments t_world {W}.

(** What libcurl offers, on a state that includes its handle and the peer:
    - initialising the library and the handle, with the first code that is not
      OK;
    - setting the options of a request before the loop, likewise;
    - setting the credentials, if any, and performing the request, which gives
      the code and what was passed to [write_handler];
    - the status of the last response and the methods it offers. *)
Class Curl (W : Type) := {
  curl_init : W → W * CURLcode;
  curl_setup : W → xnode → W * CURLcode;
  curl_perform : W → option (Z * string) → xnode → W * (CURLcode * string);
  curl_http_code : W → Z;
  curl_auth_avail : W → Z;
}.

Section Sending.
Context {W : Type} `{Curl W}.

(** The application's callback, if it is set. *)
Context (auth_request_func : option (W → wsman_auth_type_t → W * (option string * option string))).

Implicit Types t : transport W.

Definition set_flags (f : Z) t : transport W :=
  Transport f (t_user t) (t_pwd t) (t_auth_set t) (t_method t) (t_code t) (t_error t) (t_response t) (t_world t).
Definition set_world (w : W) t : transport W :=
  Transport (t_flags t) (t_user t) (t_pwd t) (t_auth_set t) (t_method t) (t_code t) (t_error t) (t_response t) w.
Definition set_auth (a : Z) (u p : option string) (w : W) t : transport W :=
  Transport (t_flags t) u p a (t_method t) (t_code t) (t_error t) (t_response t) w.
Definition set_result (c : Z) (e : WS_LASTERR_Code) (r : option string) t : transport W :=
  Transport (t_flags t) (t_user t) (t_pwd t) (t_auth_set t) (t_method t) c e r (t_world t).

Definition wsmc_lock t : bool * transport W :=
  if negb (Z.land (t_flags t) WSMAN_CLIENT_BUSY =? 0) then (false, t)
  else (true, set_flags (Z.lor (t_flags t) WSMAN_CLIENT_BUSY) t).
Definition wsmc_unlock t : transport W := set_flags (Z.land (t_flags t) (Z.lnot WSMAN_CLIENT_BUSY)) t.

(** A buffer that was used keeps its block. *)
Definition wsmc_reinit_conn t : transport W :=
  set_result 0 WS_LASTERR_OK (match t_response t with Some _ => Some "" | None => None end) t.

Definition choose_auth (method : option string) (auth_avail : Z) : option (Z * wsman_auth_type_t) :=
  let offers a m := negb (Z.land auth_avail a =? 0) && wsman_is_auth_method method m in
  if offers CURLAUTH_GSSNEGOTIATE WS_GSSNEGOTIATE_AUTH then Some (CURLAUTH_GSSNEGOTIATE, WS_GSSNEGOTIATE_AUTH)
  else if offers CURLAUTH_DIGEST WS_DIGEST_AUTH then Some (CURLAUTH_DIGEST, WS_DIGEST_AUTH)
  else if offers CURLAUTH_NTLM WS_NTLM_AUTH then Some (CURLAUTH_NTLM, WS_NTLM_AUTH)
  else if offers CURLAUTH_BASIC WS_BASIC_AUTH then Some (CURLAUTH_BASIC, WS_BASIC_AUTH)
  else None.

(** The method that is chosen (0 for none) becomes that of the client. *)
Definition reauthenticate (auth_avail : Z) t : transport W :=
  match choose_auth (t_method t) auth_avail with
  | None => set_auth 0 (t_user t) (t_pwd t) (t_world t) t
  | Some (choosen_auth, ws_auth) =>
      match t_user t, t_pwd t, t_auth_set t =? 0 with
      | Some _, Some _, true => set_auth choosen_auth (t_user t) (t_pwd t) (t_world t) t
      | _, _, _ =>
          match auth_request_func with
          | None => set_auth 0 (t_user t) (t_pwd t) (t_world t) t
          | Some f =>
              let '(w, (u, p)) := f (t_world t) ws_auth in
              set_auth (match u with
                        | Some s => if str_eqb s "" then 0 else choosen_auth
                        | None => 0
                        end) u p w t
          end
      end
  end.

(** The credentials of the next try. *)
Definition credentials_of t : option (Z * string) :=
  match t_user t, t_pwd t, t_auth_set t =? 0 with
  | Some u, Some p, false => Some (t_auth_set t, u +:+ ":" +:+ p)
  | _, _, _ => None
  end.

Definition u_append (buf : option string) (s : string) : option string :=
  if str_eqb s "" then buf else Some (default "" buf +:+ s).

Definition answered (http_code : Z) : bool := (http_code =? 200) || (http_code =? 400) || (http_code =? 500).

(** The loop: the code and, unless it was left early, the text received. *)
Fixpoint auth_loop (fuel : nat) (rqstDoc : xnode) t : option (CURLcode * option string * transport W) :=
  match fuel with
  | O => None
  | S fuel =>
      let '(w, (r, text)) := curl_perform (t_world t) (credentials_of t) rqstDoc in
      let t := set_world w t in
      if decide (r ≠ CURLE_OK) then Some (r, None, t)
      else if answered (curl_http_code w) then Some (CURLE_OK, Some text, t)
      else if negb (curl_http_code w =? 401) then Some (CURLE_FAILED_INIT, Some text, t)
      else
        let t := reauthenticate (curl_auth_avail w) t in
        if t_auth_set t =? 0 then Some (CURLE_LOGIN_DENIED, Some "", t) else auth_loop fuel rqstDoc t
  end.

Definition wsmc_handler (fuel : nat) (rqstDoc : xnode) t : option (transport W) :=
  let '(w, r) := curl_init (t_world t) in
  let t := set_world w t in
  if decide (r ≠ CURLE_OK) then Some (set_result (t_code t) (convert_to_last_error r) (t_response t) t)
  else
    let '(w, r) := curl_setup (t_world t) rqstDoc in
    let t := set_world w t in
    '(r, text, t) ← (if decide (r ≠ CURLE_OK) then Some (r, None, t) else auth_loop fuel rqstDoc t);
    let response := match text with Some s => u_append (t_response t) s | None => t_response t end in
    Some (set_result (curl_http_code (t_world t)) (convert_to_last_error r) response t).

(** [true] is the error result. *)
Definition wsman_send_request (fuel : nat) (request : xnode) t : option (bool * transport W) :=
  let '(ok, t) := wsmc_lock t in
  if negb ok then Some (true, t)
  else
    t ← wsmc_handler fuel request (wsmc_reinit_conn t);
    Some (bool_decide (t_error t ≠ WS_LASTERR_OK), wsmc_unlock t).
End Sending.

(** ** Thumbprints *)

Lemma hex_digit_value old v : 0 ≤ v < 16 → hex_value old (hex_digit v) = v.
Proof.
  intros Hv. assert (Hin : v ∈ (Z.of_nat <$> seq 0 16)).
  { apply list_elem_of_fmap. exists (Z.to_nat v). split; [lia|]. apply elem_of_seq. lia. }
  cbn in Hin. repeat (apply elem_of_cons in Hin as [->|Hin]; [reflexivity|]). by apply not_elem_of_nil in Hin.
Qed.

Lemma byte_nibbles b :
  0 ≤ b < 256 →
  0 ≤ Z.shiftr (Z.land b 0xf0) 4 < 16 ∧ 0 ≤ Z.land b 0x0f < 16 ∧
  wrap8 (wrap8 (Z.shiftl (Z.shiftr (Z.land b 0xf0) 4) 4) + Z.land b 0x0f) = b.
Proof.
  intros Hb.
  assert (Hlo : Z.land b 0x0f = b mod 16) by (change 0x0f with (Z.ones 4); by rewrite Z.land_ones by lia).
  assert (Hhi : Z.shiftr (Z.land b 0xf0) 4 = b / 16).
  { rewrite Z.shiftr_land. change (Z.shiftr 0xf0 4) with (Z.ones 4). rewrite Z.land_ones, Z.shiftr_div_pow2 by lia.
    rewrite Z.mod_small; [done|]. change (2 ^ 4) with 16. split; [apply Z.div_pos; lia|].
    apply Z.div_lt_upper_bound; lia. }
  rewrite Hlo, Hhi, Z.shiftl_mul_pow2 by lia. change (2 ^ 4) with 16.
  pose proof (Z.div_mod b 16 ltac:(lia)). pose proof (Z.mod_pos_bound b 16 ltac:(lia)).
  assert (0 ≤ b / 16 < 16) by (split; [apply Z.div_pos; lia|apply Z.div_lt_upper_bound; lia]).
  split_and!; [lia..|]. rewrite (wrap_small 8 (_ * _)) by lia. rewrite wrap_small by lia. lia.
Qed.

Lemma raw_roundtrip l : ∀ len v1 v2,
  Forall (λ b, 0 ≤ b < 256) l → hexadecimal2raw (raw2hexadecimal l) len v1 v2 = take len l.
Proof.
  induction l as [|b l IH]; intros [|len] v1 v2 Hl; [done..|]. apply Forall_cons in Hl as [Hb Hl].
  cbn [raw2hexadecimal hexadecimal2raw take]. destruct (byte_nibbles b Hb) as (H1 & H2 & Hw).
  rewrite !hex_digit_value by done. by rewrite Hw, IH.
Qed.

(** The thumbprint of a certificate that is read from a client can be set
    on a client again: every thumbprint of twenty bytes is restored, whatever
    the field held. *)
Theorem thumbprint_roundtrip old t :
  length t = 20%nat → length old = 20%nat → Forall (λ b, 0 ≤ b < 256) t →
  wsman_transport_set_certhumbprint old (Some (wsman_transport_get_certhumbprint t)) = t.
Proof.
  intros Ht Ho Hb. unfold wsman_transport_set_certhumbprint, wsman_transport_get_certhumbprint.
  rewrite raw_roundtrip by done. rewrite take_ge by lia. rewrite drop_ge by lia. apply app_nil_r.
Qed.

Lemma thumbprint_roundtrip_witness :
  wsman_transport_set_certhumbprint (replicate 20 0)
    (Some (wsman_transport_get_certhumbprint (Z.of_nat <$> seq 240 16 ++ seq 0 4))) =
  (Z.of_nat <$> seq 240 16 ++ seq 0 4).
Proof.
  apply (thumbprint_roundtrip (replicate 20 0) (Z.of_nat <$> seq 240 16 ++ seq 0 4)); [done|done|].
  cbn. repeat constructor; lia.
Defined.

(** ** Requests *)

Section Sent.
Context {W : Type} `{Curl W}.
Context (auth_request_func : option (W → wsman_auth_type_t → W * (option string * option string))).

Implicit Types t : transport W.

Lemma busy_cleared f : Z.land f WSMAN_CLIENT_BUSY = 0 →
  Z.land (Z.lor f WSMAN_CLIENT_BUSY) (Z.lnot WSMAN_CLIENT_BUSY) = f.
Proof.
  intros Hf. apply Z.bits_inj'. intros n Hn. rewrite Z.land_spec, Z.lor_spec, Z.lnot_spec by done.
  pose proof (f_equal (λ z, Z.testbit z n) Hf) as Hb. cbn beta in Hb. rewrite Z.land_spec, Z.bits_0 in Hb.
  by destruct (Z.testbit f n), (Z.testbit WSMAN_CLIENT_BUSY n).
Qed.

Lemma reauthenticate_flags a t : t_flags (reauthenticate auth_request_func a t) = t_flags t.
Proof.
  unfold reauthenticate. destruct (choose_auth _ _) as [[c m]|]; [|done].
  destruct (t_user t), (t_pwd t), (t_auth_set t =? 0); try done; destruct auth_request_func; try done;
    by destruct (_ (t_world t) m) as [? [? ?]].
Qed.

Lemma auth_loop_spec fuel rqst : ∀ t r text t',
  auth_loop auth_request_func fuel rqst t = Some (r, text, t') →
  t_flags t' = t_flags t ∧ (r = CURLE_OK → answered (curl_http_code (t_world t')) = true).
Proof.
  induction fuel as [|fuel IH]; [done|]. intros t r text t' Hl. cbn [auth_loop] in Hl.
  destruct (curl_perform _ _ _) as [w [r0 s]]. destruct (decide _) as [Hr|].
  { by injection Hl as <- <- <-. }
  destruct (answered _) eqn:Ea; [by injection Hl as <- <- <-|].
  destruct (negb _); [by injection Hl as <- <- <-|].
  destruct (t_auth_set _ =? 0); [|apply IH in Hl as [-> ?]]; last first.
  { by rewrite reauthenticate_flags. }
  injection Hl as <- <- <-. by rewrite reauthenticate_flags.
Qed.

Lemma convert_ok r : convert_to_last_error r = WS_LASTERR_OK → r = CURLE_OK.
Proof. by destruct r. Qed.

Lemma handler_spec fuel rqst t t' :
  wsmc_handler auth_request_func fuel rqst t = Some t' →
  t_flags t' = t_flags t ∧ (t_error t' = WS_LASTERR_OK → answered (t_code t') = true).
Proof.
  unfold wsmc_handler. destruct (curl_init _) as [w r]. destruct (decide _) as [Hr|_].
  { intros [= <-]. split; [done|]. by intros ?%convert_ok. }
  destruct (curl_setup _ _) as [w' r']. destruct (decide _) as [Hr|_].
  { intros [= <-]. split; [done|]. by intros ?%convert_ok. }
  destruct (auth_loop _ _ _ _) as [[[r0 text] t0]|] eqn:El; [|done]. intros [= <-].
  destruct (auth_loop_spec _ _ _ _ _ _ El) as [Hf Ha]. split; [done|]. cbn. by intros ?%convert_ok%Ha.
Qed.

(** A request that was sent succeeds only with an answer (a status of 200,
    400 or 500), and the client is free again afterwards, whatever happened; a
    busy client refuses and changes nothing. *)
Theorem send_request_outcome fuel rqst t failed t' :
  wsman_send_request auth_request_func fuel rqst t = Some (failed, t') →
  if decide (Z.land (t_flags t) WSMAN_CLIENT_BUSY = 0)
  then t_flags t' = t_flags t ∧ (failed = false → t_error t' = WS_LASTERR_OK ∧ answered (t_code t') = true)
  else failed = true ∧ t' = t.
Proof.
  unfold wsman_send_request, wsmc_lock. destruct (decide _) as [Hf|Hf].
  - rewrite Hf. cbn [Z.eqb negb]. destruct (wsmc_handler _ _ _ _) as [t0|] eqn:E; [|done]. intros [= <- <-].
    destruct (handler_spec _ _ _ _ E) as [Hfl Ha]. cbn [wsmc_unlock set_flags t_flags t_error t_code].
    split; [rewrite Hfl; by apply busy_cleared|]. intros He%bool_decide_eq_false. split; [|apply Ha];
      by apply (dec_stable (P := t_error t0 = WS_LASTERR_OK)).
  - rewrite (proj2 (Z.eqb_neq _ _) Hf). by intros [= <- <-].
Qed.

(** C29: without a callback that asks for credentials the client tries a request
    at most twice: the loop of the handler ends. *)
Theorem send_request_terminates rqst t :
  ∃ failed t', wsman_send_request None 2 rqst t = Some (failed, t').
Proof.
  unfold wsman_send_request, wsmc_lock. destruct (negb (Z.land _ _ =? 0)); [by eexists _, _|]. cbn [negb].
  set (u := wsmc_reinit_conn _). assert (Hh : is_Some (wsmc_handler None 2 rqst u)); [|destruct Hh as [t' ->]; by eexists _, _].
  unfold wsmc_handler. destruct (curl_init _) as [w r]. destruct (decide _); [done|].
  destruct (curl_setup _ _) as [w' r']. destruct (decide _); [done|].
  assert (Hl : ∀ v, is_Some (auth_loop None 2 rqst v)); [|destruct (Hl (set_world w' (set_world w u))) as [[[? ?] ?] ->]; done].
  intros v. cbn [auth_loop]. destruct (curl_perform _ _ _) as [w1 [r1 s1]]. destruct (decide _); [done|].
  destruct (answered _); [done|]. destruct (negb _); [done|].
  destruct (t_auth_set _ =? 0) eqn:Ez; [done|]. destruct (curl_perform _ _ _) as [w2 [r2 s2]].
  destruct (decide _); [done|]. destruct (answered _); [done|]. destruct (negb _); [done|].
  assert (Hz : t_auth_set (reauthenticate None (curl_auth_avail w2)
     (set_world w2 (reauthenticate None (curl_auth_avail w1) (set_world w1 v)))) = 0); [|by rewrite Hz].
  set (v1 := reauthenticate None (curl_auth_avail w1) _) in *. unfold reauthenticate at 1.
  destruct (choose_auth _ _) as [[c m]|]; [|done]. cbn [set_world t_user t_pwd t_auth_set]. rewrite Ez.
  by destruct (t_user v1), (t_pwd v1).
Qed.
End Sent.

(** *** Examples *)

(** A peer that answers every request with a status and a text. *)
Definition SimplePeer (code : Z) (text : string) : Curl unit := {|
  curl_init w := (w, CURLE_OK);
  curl_setup w _ := (w, CURLE_OK);
  curl_perform w _ _ := (w, (CURLE_OK, text));
  curl_http_code _ := code;
  curl_auth_avail _ := CURLAUTH_BASIC;
|}.

Definition sample_transport : transport unit :=
  Transport 2 (Some "user") (Some "secret") 0 None 0 WS_LASTERR_OK None tt.

Lemma send_request_outcome_witness :
  ∃ t', @wsman_send_request unit (SimplePeer 200 "<a/>") None 2 (XElement None "r" [] []) sample_transport =
          Some (false, t') ∧ t_flags t' = 2 ∧ answered (t_code t') = true.
Proof.
  eexists. split; [vm_compute; reflexivity|].
  destruct (@send_request_outcome unit (SimplePeer 200 "<a/>") None 2 (XElement None "r" [] []) sample_transport
    false _ eq_refl) as [Hf Ha]. split; [exact Hf|]. exact (proj2 (Ha eq_refl)).
Defined.
