(* ===== verification/ClientActions.v ===== *)
(** * Actions of the client ([wsman-client.c])

    Each action creates a request, may put data into its body, sends it over
    [ClientTransport] and parses the response.  [None] is an access through a
    NULL pointer; a NULL document is a value.  Identifiers of messages come from
    [ids], by the number of the request. *)

From S2P Require Import Prelude.
From S2P Require Import CString.
From S2P Require Import Names.
From S2P Require Import Xml.
From S2P Require Import Faults.
From S2P Require Import Envelope.
From S2P Require Import Uri.
From S2P Require Import Epr.
From S2P Require Import Filter.
From S2P Require Import Client.
From S2P Require Import ClientTransport.

#[local] Open Scope string_scope.
#[local] Open Scope list_scope.
#[local] Open Scope Z_scope.
#[local] Open Scope ow_scope.

(** ** Responses *)

Section Responses.
Context {LX : Libxml2}.

Definition wsmc_get_enum_context (doc : option xnode) : option string :=
  let enumStartNode := ws_xml_get_child (ws_xml_get_soap_body doc) 0 None None in
  ws_xml_get_node_text (child enumStartNode XML_NS_ENUMERATION WSENUM_ENUMERATION_CONTEXT).

Definition wsmc_get_event_enum_context (doc : option xnode) : option string :=
  let node := child (ws_xml_get_soap_body doc) XML_NS_EVENTING WSEVENT_SUBSCRIBE_RESP in
  ws_xml_get_node_text (child node XML_NS_ENUMERATION WSENUM_ENUMERATION_CONTEXT).

Definition wsmc_check_for_fault (doc : option xnode) : bool := wsman_is_fault_envelope doc.

Record WsManFault := ManFault {
  mf_code : option string;
  mf_subcode : option string;
  mf_reason : option string;
  mf_detail : option string;
}.

Definition wsmc_fault_new : WsManFault := ManFault None None None None.

Definition wsmc_get_fault_data (doc : option xnode) (fault : WsManFault) : WsManFault :=
  let get n name := child n XML_NS_SOAP_1_2 name in
  if negb (wsmc_check_for_fault doc) then fault
  else
    match get (ws_xml_get_soap_body doc) SOAP_FAULT with
    | None => fault
    | fault_node =>
        let code := get fault_node SOAP_CODE in
        let reason := get fault_node SOAP_REASON in
        let detail := get fault_node SOAP_DETAIL in
        ManFault
          (match code with
           | None => mf_code fault
           | Some _ => ws_xml_get_node_text (get code SOAP_VALUE)
           end)
          (match code with
           | None => mf_subcode fault
           | Some _ => ws_xml_get_node_text (get (get code SOAP_SUBCODE) SOAP_VALUE)
           end)
          (match reason with None => mf_reason fault | Some _ => ws_xml_get_node_text (get reason SOAP_TEXT) end)
          (match detail with None => mf_detail fault | Some _ => ws_xml_get_node_text detail end)
    end.
End Responses.

(** ** Bodies of requests *)

Section Bodies.
Context {LX : Libxml2}.

(** The body of a document made by [request_document]. *)
Definition update_request_body (f : xnode → xnode) (doc : xnode) : xnode :=
  match doc with
  | XElement ns name ps [h; b] => XElement ns name ps [h; f b]
  | _ => doc
  end.

Definition add_tree (n : option xnode) (body : xnode) : xnode :=
  match n with Some n => add_node body (ws_xml_duplicate_tree n) | None => body end.

(** A document without a type description. *)
Definition handle_resource_request (request : xnode) (data : option xnode) : option xnode :=
  match data with
  | None => Some request
  | Some d =>
      valid ← wsman_is_valid_xml_envelope d;
      let n := if valid : bool then ws_xml_get_child (ws_xml_get_soap_body data) 0 None None
               else ws_xml_get_doc_root data in
      Some (update_request_body (add_tree n) request)
  end.

(** The first child of a name, in a namespace unless that is NULL. *)
Fixpoint alter_query (ns : option string) (name : string) (f : xnode → option xnode) (l : list xnode)
  : option (list xnode) :=
  match l with
  | [] => Some []
  | n :: l =>
      if is_element n && ws_xml_is_node_qname (Some n) ns (Some name)
      then n ← f n; Some (n :: l)
      else l ← alter_query ns name f l; Some (n :: l)
  end.

Definition ws_xml_set_node_text (n : xnode) (t : option string) : xnode :=
  match n with
  | XElement ns name ps _ => XElement ns name ps (x_children (text_node ns name t))
  | XOther _ => n
  end.

(** The properties of the options replace those of the resource that was got. *)
Fixpoint put_props (ns_uri : option string) (props : list key_value_t) (c : list xnode) : option (list xnode) :=
  match props with
  | [] => Some c
  | KeyValue k v :: props =>
      key ← deref k;
      c ← alter_query ns_uri key
            (λ n, match v with
                  | VText t => c_val t ≫= λ t : option string, Some (ws_xml_set_node_text n t)
                  | VEpr (Some e) => epr_serialize e ns_uri (Some key) true n
                  | VEpr None => Some n
                  end) c;
      put_props ns_uri props c
  end.

(** The copy is the only child of the body. *)
Definition wsmc_set_put_prop (get_response put_request : xnode) (o : client_opt_t) : option xnode :=
  match ws_xml_get_child (ws_xml_get_soap_body (Some get_response)) 0 None None with
  | Some (XElement ns name ps c) =>
      c ← put_props ns (o_properties o) c;
      Some (update_request_body (λ b, add_node b (XElement ns name ps c)) put_request)
  | _ => Some put_request
  end.

(** The element of a method's arguments. *)
Definition input_node (resource_uri method : string) : xnode :=
  text_node (Some resource_uri) (snprintf_cut 4096 (method +:+ "_INPUT")) None.

Fixpoint add_arguments (resource_uri : string) (props : list key_value_t) (n : xnode) : option xnode :=
  match props with
  | [] => Some n
  | KeyValue k v :: props =>
      key ← deref k;
      n ← match v with
          | VText t => c_val t ≫= λ t : option string, Some (add_node n (text_node (Some resource_uri) key t))
          | VEpr (Some e) => epr_serialize e (Some resource_uri) (Some key) true n
          | VEpr None => Some n
          end;
      add_arguments resource_uri props n
  end.

(** [strchr] of a NULL method is an invalid access. *)
Definition invoke_body (resource_uri : string) (o : client_opt_t) (method : option string) (data : option xnode)
    (body : xnode) : option xnode :=
  match o_properties o, data with
  | [], Some d => Some (add_tree (ws_xml_get_doc_root data) body)
  | _ :: _, _ =>
      match method with
      | Some m => n ← add_arguments resource_uri (o_properties o) (input_node resource_uri m); Some (add_node body n)
      | None => Some body
      end
  | [], None =>
      m ← method;
      Some (match strchr m (chr 47) with None => add_node body (input_node resource_uri m) | Some _ => body end)
  end.
End Bodies.

(** ** Actions *)

Section Actions.
Context {LX : Libxml2} {W : Type} {CU : Curl W}.
Context (read_memory : string → option xnode).
Context (auth_request_func : option (W → wsman_auth_type_t → W * (option string * option string))).
Context (fuel : nat) (ids : nat → string).

Implicit Types t : transport W.

Definition with_flags (cl : WsManClient) (f : Z) : WsManClient :=
  Client (cl_scheme cl) (cl_hostname cl) (cl_port cl) (cl_path cl) (cl_user cl) (cl_pwd cl) (cl_endpoint cl) f.

(** The flags of the client are those of the transport. *)
Definition create (i : nat) (cl : WsManClient) (uri : option string) (o : option client_opt_t)
    (f : option Filter.filter_t) (action : WsmanAction) (method data : option string) t
  : option (option xnode * transport W) :=
  '(doc, fl) ← wsmc_create_request read_memory (ids i) (with_flags cl (t_flags t)) uri o f action method data;
  Some (doc, set_flags fl t).

Definition wsmc_build_envelope_from_response t : option xnode := t_response t ≫= read_memory.

(** Sending and reading the response. *)
Definition exchange (request : xnode) t : option (option xnode * transport W) :=
  '(failed, t) ← wsman_send_request auth_request_func fuel request t;
  Some (if failed : bool then None else wsmc_build_envelope_from_response t, t).

(** An action whose body may be filled; a request that is NULL ends it. *)
Definition action (i : nat) (cl : WsManClient) (uri : option string) (o : option client_opt_t)
    (f : option Filter.filter_t) (a : WsmanAction) (method data : option string) (fill : xnode → option xnode) t
  : option (option xnode * transport W) :=
  '(request, t) ← create i cl uri o f a method data t;
  match request with
  | None => Some (None, t)
  | Some r => r ← fill r; exchange r t
  end.

Definition wsmc_action_create (i : nat) cl uri o (source_doc : option xnode) t :=
  action i cl uri o None WSMAN_ACTION_TRANSFER_CREATE None None (λ r, handle_resource_request r source_doc) t.
Definition wsmc_action_create_fromtext (i : nat) cl uri o (text : string) t :=
  match read_memory text with
  | None => Some (None, t)
  | Some d => wsmc_action_create i cl uri o (Some d) t
  end.
Definition wsmc_action_put (i : nat) cl uri o (source_doc : option xnode) t :=
  action i cl uri o None WSMAN_ACTION_TRANSFER_PUT None None (λ r, handle_resource_request r source_doc) t.
Definition wsmc_action_put_fromtext (i : nat) cl uri o (text : string) t :=
  match read_memory text with
  | None => Some (None, t)
  | Some d => wsmc_action_put i cl uri o (Some d) t
  end.
Definition wsmc_action_delete (i : nat) cl uri o t :=
  action i cl uri o None WSMAN_ACTION_TRANSFER_DELETE None None Some t.
Definition wsmc_action_get (i : nat) cl uri o t :=
  action i cl uri o None WSMAN_ACTION_TRANSFER_GET None None Some t.

(** The selectors of a reference become those of the options. *)
Definition add_selectors_from_epr (o : client_opt_t) (kv : key_value_t) : option client_opt_t :=
  match kv with
  | KeyValue k (VText v) =>
      c_val k ≫= λ k : option string, c_val v ≫= λ v : option string, wsmc_add_selector o k v
  | KeyValue k (VEpr e) => c_val k ≫= λ k : option string, wsmc_add_selector_epr o k e
  end.

Definition options_of_epr (e : epr_t) (o : client_opt_t) : option client_opt_t :=
  foldl (λ o kv, o ← o; add_selectors_from_epr o kv) (Some o) (Epr.selectors e).

Definition wsmc_action_get_from_epr (i : nat) cl (e : epr_t) o t :=
  c_val (epr_get_resource_uri (Some e)) ≫= λ uri : option string,
  o ← options_of_epr e o; wsmc_action_get i cl uri (Some o) t.
Definition wsmc_action_delete_from_epr (i : nat) cl (e : epr_t) o t :=
  c_val (epr_get_resource_uri (Some e)) ≫= λ uri : option string,
  o ← options_of_epr e o; wsmc_action_delete i cl uri (Some o) t.

Definition wsmc_action_get_and_put (i : nat) cl uri (o : client_opt_t) t : option (option xnode * transport W) :=
  wsmc_action_get i cl uri (Some o) t ≫= λ '(get_response, t),
  match get_response with
  | None => Some (None, t)
  | Some d =>
      if wsman_is_fault_envelope (Some d) then Some (Some d, t)
      else action (S i) cl uri (Some o) None WSMAN_ACTION_TRANSFER_PUT None None (λ r, wsmc_set_put_prop d r o) t
  end.

Definition wsmc_action_invoke (i : nat) cl (uri : string) (o : client_opt_t) (method : option string)
    (data : option xnode) t : option (option xnode * transport W) :=
  '(request, t) ← create i cl (Some uri) (Some o) None WSMAN_ACTION_CUSTOM method None t;
  match request with
  | None => Some (None, t)
  | Some r =>
      match ws_xml_get_soap_body request with
      | None => Some (None, t)
      | Some b => b ← invoke_body uri o method data b; exchange (update_request_body (λ _, b) r) t
      end
  end.

(** Without a text the body stays empty. *)
Definition wsmc_action_invoke_fromtext (i : nat) cl uri o method (data : option string) t
  : option (option xnode * transport W) :=
  '(request, t) ← create i cl uri o None WSMAN_ACTION_CUSTOM method None t;
  match request, data with
  | None, _ => Some (None, t)
  | Some r, None => exchange r t
  | Some r, Some text =>
      match read_memory text with
      | None => Some (None, t)
      | Some d => exchange (update_request_body (add_tree (Some d)) r) t
      end
  end.

Definition wsmc_action_identify (i : nat) cl o t := action i cl None o None WSMAN_ACTION_IDENTIFY None None Some t.
Definition wsmc_action_enumerate (i : nat) cl uri o f t :=
  action i cl uri o f WSMAN_ACTION_ENUMERATION None None Some t.
Definition wsmc_action_subscribe (i : nat) cl uri o f t :=
  action i cl uri o f WSMAN_ACTION_SUBSCRIBE None None Some t.
Definition wsmc_action_unsubscribe (i : nat) cl uri o (context : option string) t :=
  action i cl uri o None WSMAN_ACTION_UNSUBSCRIBE None context Some t.
Definition wsmc_action_renew (i : nat) cl uri o (context : option string) t :=
  action i cl uri o None WSMAN_ACTION_RENEW None context Some t.
Definition wsmc_action_release (i : nat) cl uri o (context : option string) t :=
  match context with
  | None => Some (None, t)
  | Some _ => action i cl uri o None WSMAN_ACTION_RELEASE None context Some t
  end.

(** Here a NULL request is sent: its length is never set. *)
Definition wsmc_action_pull (i : nat) cl uri o f (context : option string) t
  : option (option xnode * transport W) :=
  match context with
  | None => Some (None, t)
  | Some _ =>
      '(request, t) ← create i cl uri o f WSMAN_ACTION_PULL None context t;
      r ← request; exchange r t
  end.

(** The loop of pulls: the result, the documents given to the callback and the
    client.  The status that is tested is that of the exchange before. *)
Fixpoint pull_loop (n : nat) (i : nat) cl uri o f (enumContext : option string) (seen : list (option xnode)) t
  : option (Z * list (option xnode) * transport W) :=
  let done_ := Some (1, seen, t) in
  match n, enumContext with
  | _, None => done_
  | O, Some c => if str_eqb c "" then done_ else None
  | S n, Some c =>
      if str_eqb c "" then done_
      else
        let rc := t_code t in
        wsmc_action_pull i cl uri o f (Some c) t ≫= λ '(doc, t),
        if negb (answered rc) then Some (0, seen, t)
        else pull_loop n (S i) cl uri o f (wsmc_get_enum_context doc) (seen ++ [doc]) t
  end.

Definition wsmc_action_enumerate_and_pull (n : nat) cl uri o f t
  : option (Z * list (option xnode) * transport W) :=
  wsmc_action_enumerate 0 cl uri o f t ≫= λ '(enum_response, t),
  match enum_response with
  | None => Some (0, [], t)
  | Some d =>
      if answered (t_code t)
      then pull_loop n 1 cl uri o f (wsmc_get_enum_context (Some d)) [Some d] t
      else Some (0, [], t)
  end.
End Actions.
