(* ===== verification/Dispatcher.v ===== *)
(** * The SOAP dispatcher ([wsman-dispatcher.c])

    What happens to an inbound message: the checks of its headers, the
    filters, the call of the service, the outbound filters and the response or
    fault.  [None] is a crash.  The list of processed message identifiers is
    the sequence of its data ([UList] shows that the list functions implement
    it); a hash table is any [Store].  The document written into the response
    buffer stands for its serialised form.  Allocation is assumed to
    succeed. *)

From S2P Require Import Prelude.
From S2P Require Import CString.
From S2P Require Import Names.
From S2P Require Import Xml.
From S2P Require Import Faults.
From S2P Require Import Duration.
From S2P Require Import Store.
From S2P Require Import Envelope.

#[local] Open Scope string_scope.
#[local] Open Scope list_scope.
#[local] Open Scope Z_scope.

Definition PROCESSED_MSG_ID_MAX_SIZE : nat := 200.
Definition WSMAN_MINIMAL_ENVELOPE_SIZE_REQUEST : Z := 8192.
Definition WSMAN_MAX_ENVELOPE_SIZE : Z := 32767.

(** The operation a message is processed in. *)
Record op_t := Op {
  in_doc : option xnode;
  out_doc : option xnode;
  op_maxsize : Z;
  op_expires : Z;
}.

Definition set_out (d : option xnode) (op : op_t) : op_t :=
  Op (in_doc op) d (op_maxsize op) (op_expires op).
Definition set_maxsize (n : Z) (op : op_t) : op_t := Op (in_doc op) (out_doc op) n (op_expires op).
Definition set_expires (n : Z) (op : op_t) : op_t := Op (in_doc op) (out_doc op) (op_maxsize op) n.

(** The header element of a document replaced by [f] of it: it is the first
    element of the envelope. *)
Fixpoint alter_first_element (f : xnode → xnode) (c : list xnode) : list xnode :=
  match c with
  | [] => []
  | n :: c' => if is_element n then f n :: c' else n :: alter_first_element f c'
  end.

(** The second element of an envelope is its body. *)
Fixpoint alter_second_element (f : xnode → xnode) (c : list xnode) : list xnode :=
  match c with
  | [] => []
  | n :: c' => if is_element n then n :: alter_first_element f c' else n :: alter_second_element f c'
  end.

Definition update_soap_header (f : xnode → xnode) (doc : xnode) : xnode :=
  match ws_xml_get_soap_header (Some doc), doc with
  | Some _, XElement ns name props c => XElement ns name props (alter_first_element f c)
  | _, _ => doc
  end.

(** ** Headers that must be understood *)

Definition s_Info : list (string * string) :=
  [(XML_NS_ADDRESSING, WSA_TO); (XML_NS_ADDRESSING, WSA_MESSAGE_ID);
   (XML_NS_ADDRESSING, WSA_RELATES_TO); (XML_NS_ADDRESSING, WSA_ACTION);
   (XML_NS_ADDRESSING, WSA_REPLY_TO); (XML_NS_ADDRESSING, WSA_FROM);
   (XML_NS_WS_MAN, WSM_RESOURCE_URI); (XML_NS_WS_MAN, WSM_SELECTOR_SET);
   (XML_NS_WS_MAN, WSM_MAX_ENVELOPE_SIZE); (XML_NS_WS_MAN, WSM_OPERATION_TIMEOUT);
   (XML_NS_WS_MAN, WSM_FRAGMENT_TRANSFER); (XML_NS_TRUST, WST_ISSUEDTOKENS)].

Fixpoint mu_loop (l : list (string * string)) (ns : option string) (name : string) : bool :=
  match l with
  | [] => false
  | (i_ns, i_name) :: l' =>
      match ns with
      | Some u => if str_eqb u i_ns && str_eqb name i_name then true else mu_loop l' ns name
      | None => mu_loop l' ns name
      end
  end.

(** Header children are elements, so that they have a name. *)
Definition is_mu_header (header : xnode) : bool :=
  match ws_xml_get_node_local_name (Some header) with
  | Some name => mu_loop s_Info (ws_xml_get_node_name_ns (Some header)) name
  | None => false
  end.

Section Dispatcher.
Context {T : Type → Type} {ST : Store T} {LX : Libxml2}.
Context (ns_prefix : string → option string) (strtod_round : string → Z * string).

(** The identifier [generate_uuid] makes for the answer to a message. *)
Context (uuid : string).

Definition generate_op_fault (op : op_t) (c : WsmanFaultCodeType) (d : WsmanFaultDetailType)
  : option op_t :=
  match in_doc op with
  | None => Some (set_out None op)
  | Some doc =>
      generate_fault_document ns_prefix uuid (Some doc) c d None ≫= λ r : option xnode,
        Some (set_out r op)
  end.

Definition not_understood_node (h : xnode) : xnode :=
  let props :=
    match ws_xml_get_node_name_ns (Some h), ws_xml_get_node_local_name (Some h) with
    | Some u, Some n => [XAttr None "qname" (make_qname ns_prefix u n)]
    | _, _ => []
    end in
  match text_node (Some XML_NS_SOAP_1_2) "NotUnderstood" None with
  | XElement ns name ps c => XElement ns name (ps ++ props) c
  | n => n
  end.

Definition generate_notunderstood_fault (op : op_t) (notUnderstoodHeader : xnode) : option op_t :=
  match in_doc op with
  | None => Some op
  | Some _ =>
      op ← generate_op_fault op SOAP_FAULT_MUSTUNDERSTAND WSMAN_DETAIL_OK;
      Some (set_out (update_soap_header (λ h, add_node h (not_understood_node notUnderstoodHeader))
                     <$> out_doc op) op)
  end.

(** ** The checks *)

(** Selectors without an (unqualified) Name attribute are passed over. *)
Fixpoint dup_selector_loop (h : T (option string)) (l : list xnode) : option bool :=
  match l with
  | [] => Some false
  | selector :: l' =>
      match ws_xml_find_attr_value (Some selector) None WSM_NAME with
      | None => dup_selector_loop h l'
      | Some attrVal =>
          store_find h attrVal ≫= λ r : option (option string),
          match r with
          | Some _ => Some true
          | None =>
              h ← store_add h attrVal (ws_xml_get_node_text (Some selector));
              dup_selector_loop h l'
          end
      end
  end.

Definition check_for_duplicate_selectors (op : op_t) : option (bool * op_t) :=
  let header := wsman_get_soap_header_element (in_doc op) None None in
  match child header XML_NS_WS_MAN WSM_SELECTOR_SET with
  | None => Some (false, op)
  | node =>
      h ← (store_new : option (T (option string)));
      dup ← dup_selector_loop h (selectors node);
      if dup : bool then
        op ← generate_op_fault op WSMAN_INVALID_SELECTORS WSMAN_DETAIL_DUPLICATE_SELECTORS;
        Some (true, op)
      else Some (false, op)
  end.

(** The second half of [validate_control_headers], on the OperationTimeout
    header; the result is [true] when the headers are valid. *)
Definition check_operation_timeout (header : option xnode) (op : op_t) : option (bool * op_t) :=
  let fault op c d := op ← generate_op_fault op c d; Some (false, op) in
  match child header XML_NS_WS_MAN WSM_OPERATION_TIMEOUT with
  | None => Some (true, op)
  | n =>
      (match ws_xml_get_node_text n with
       | None => Some None
       | text => ws_deserialize_duration strtod_round text
       end) ≫= λ duration : option Z,
      match duration with
      | None => fault op WSA_INVALID_MESSAGE_INFORMATION_HEADER WSMAN_DETAIL_OPERATION_TIMEOUT
      | Some duration =>
          if duration <=? 0 then fault op WSMAN_TIMED_OUT WSMAN_DETAIL_OK
          else
            let op := set_expires duration op in
            if ws_xml_find_attr_bool n (ws_xml_get_node_name_ns header) SOAP_MUST_UNDERSTAND
            then fault op WSMAN_UNSUPPORTED_FEATURE WSMAN_DETAIL_OPERATION_TIMEOUT
            else Some (true, op)
      end
  end.

Definition validate_control_headers (op : op_t) : option (bool * op_t) :=
  let header := wsman_get_soap_header_element (in_doc op) None None in
  let maxsize := child header XML_NS_WS_MAN WSM_MAX_ENVELOPE_SIZE in
  let '(op, mu) := match maxsize with
                   | None => (set_maxsize WSMAN_MAX_ENVELOPE_SIZE op, false)
                   | Some _ => (op, mu_true maxsize)
                   end in
  let size := ws_deserialize_uint32 header 0 XML_NS_WS_MAN WSM_MAX_ENVELOPE_SIZE in
  if mu && (size <? WSMAN_MINIMAL_ENVELOPE_SIZE_REQUEST) then
    op ← generate_op_fault op WSMAN_ENCODING_LIMIT WSMAN_DETAIL_MINIMUM_ENVELOPE_LIMIT;
    Some (false, op)
  else
    check_operation_timeout header (if mu then set_maxsize size op else op).

Fixpoint mustunderstand_loop (nsUri : option string) (l : list xnode) : option xnode :=
  match l with
  | [] => None
  | c :: l' =>
      if ws_xml_find_attr_bool (Some c) nsUri SOAP_MUST_UNDERSTAND && negb (is_mu_header c)
      then Some c else mustunderstand_loop nsUri l'
  end.

(** The first header that must be understood and is not. *)
Definition validate_mustunderstand_headers (op : op_t) : option xnode :=
  let header := wsman_get_soap_header_element (in_doc op) None None in
  mustunderstand_loop (ws_xml_get_node_name_ns header) (children header None None).

(** 0 for a supported dialect. *)
Definition check_supported_dialect (dialect : string) : Z :=
  if str_eqb dialect WSM_ASSOCIATION_FILTER_DIALECT then 0
  else if str_eqb dialect WSM_XPATH_FILTER_DIALECT then 0
  else if str_eqb dialect WSM_WQL_FILTER_DIALECT then 0
  else if str_eqb dialect WSM_CQL_FILTER_DIALECT then 0
  else if str_eqb dialect WSM_SELECTOR_FILTER_DIALECT then 0
  else 1.

(** The two halves of [check_unsupported_features], for an Enumerate and for a
    Subscribe: whether the code jumps to its end, the return value and the
    operation. *)
Definition check_enumerate_features (header enumurate : option xnode) (op : op_t)
  : option (bool * bool * op_t) :=
  let fault op c d := op ← generate_op_fault op c d; Some (true, true, op) in
  '(retVal, op) ←
    (match child enumurate XML_NS_ENUMERATION WSENUM_END_TO with
     | Some _ =>
         op ← generate_op_fault op WSMAN_UNSUPPORTED_FEATURE WSMAN_DETAIL_ADDRESSING_MODE;
         Some (true, op)
     | None => Some (false, op)
     end);
  let n := child enumurate XML_NS_ENUMERATION WSENUM_FILTER in
  let m := child enumurate XML_NS_WS_MAN WSM_FILTER in
  let rest retVal :=
    let resource_uri := match child header XML_NS_WS_MAN WSM_RESOURCE_URI with
                        | None => None
                        | k => ws_xml_get_node_text k
                        end in
    match resource_uri with
    | Some uri =>
        if str_eqb uri CIM_ALL_AVAILABLE_CLASSES && bool_decide (n = None) && bool_decide (m = None)
        then fault op WSMAN_UNSUPPORTED_FEATURE WSMAN_DETAIL_FILTERING_REQUIRED
        else Some (false, retVal, op)
    | None => Some (false, retVal, op)
    end in
  match n, m with
  | Some _, Some _ => fault op WSEN_CANNOT_PROCESS_FILTER WSMAN_DETAIL_OK
  | None, None => rest retVal
  | _, _ =>
      let filter := match n with Some _ => n | None => m end in
      let dia := ws_xml_find_attr_value filter None WSM_DIALECT in
      if check_supported_dialect (default WSM_XPATH_FILTER_DIALECT dia) =? 0
      then rest false
      else fault op WSEN_FILTER_DIALECT_REQUESTED_UNAVAILABLE WSMAN_DETAIL_OK
  end.

Definition check_subscribe_features (subscribe : option xnode) (retVal : bool) (op : op_t)
  : option (bool * op_t) :=
  let fault c d := op ← generate_op_fault op c d; Some (true, op) in
  match child subscribe XML_NS_EVENTING WSEVENT_DELIVERY with
  | None => fault WSE_INVALID_MESSAGE WSMAN_DETAIL_OK
  | Some n =>
      let attr := ws_xml_find_node_attr (Some n) None WSEVENT_DELIVERY_MODE in
      unsupported ←
        (match attr with
         | None => Some false
         | Some a =>
             mu ← ws_xml_get_attr_value n a;
             Some (negb (strcase_eqb mu WSEVENT_DELIVERY_MODE_PUSH) &&
                   negb (strcase_eqb mu WSEVENT_DELIVERY_MODE_PUSHWITHACK) &&
                   negb (strcase_eqb mu WSEVENT_DELIVERY_MODE_EVENTS) &&
                   negb (strcase_eqb mu WSEVENT_DELIVERY_MODE_PULL))
         end);
      if unsupported : bool then fault WSE_DELIVERY_MODE_REQUESTED_UNAVAILABLE WSMAN_DETAIL_OK
      else
        match child (Some n) XML_NS_WS_MAN WSM_CONNECTIONRETRY with
        | Some _ => fault WSMAN_UNSUPPORTED_FEATURE WSMAN_DETAIL_DELIVERY_RETRIES
        | None => Some (retVal, op)
        end
  end.

Definition check_unsupported_features (op : op_t) : option (bool * op_t) :=
  let header := wsman_get_soap_header_element (in_doc op) None None in
  let body := ws_xml_get_soap_body (in_doc op) in
  let fault c d := op ← generate_op_fault op c d; Some (true, op) in
  if bool_decide (is_Some (child header XML_NS_ADDRESSING WSA_FAULT_TO)) then
    fault WSMAN_UNSUPPORTED_FEATURE WSMAN_DETAIL_ADDRESSING_MODE
  else if mu_true (child header XML_NS_WS_MAN WSM_LOCALE) then
    fault WSMAN_UNSUPPORTED_FEATURE WSMAN_DETAIL_LOCALE
  else
    let enumurate := child body XML_NS_ENUMERATION WSENUM_ENUMERATE in
    '(goto_done, retVal, op) ←
      (match enumurate with
       | Some _ => check_enumerate_features header enumurate op
       | None => Some (false, false, op)
       end);
    if goto_done : bool then Some (retVal, op)
    else
      let subscribe := child body XML_NS_EVENTING WSEVENT_SUBSCRIBE in
      match subscribe with
      | Some _ => check_subscribe_features subscribe retVal op
      | None => Some (retVal, op)
      end.

(** ** Message identifiers *)

(** [while (list_count(l) >= MAX) list_del_first(l)]. *)
Fixpoint trim_ids (l : list string) : list string :=
  match l with
  | [] => []
  | _ :: l' => if (PROCESSED_MSG_ID_MAX_SIZE <=? length l)%nat then trim_ids l' else l
  end.

(** [ids] is [processedMsgIdList], empty while the list does not exist. *)
Definition wsman_is_duplicate_message_id (op : op_t) (ids : list string)
  : option (bool * op_t * list string) :=
  let header := wsman_get_soap_header_element (in_doc op) None None in
  match child header XML_NS_ADDRESSING WSA_MESSAGE_ID with
  | Some n =>
      match ws_xml_get_node_text (Some n) with
      | None | Some EmptyString =>
          op ← generate_op_fault op WSA_INVALID_MESSAGE_INFORMATION_HEADER WSMAN_DETAIL_OK;
          Some (true, op, ids)
      | Some msgId =>
          if existsb (str_eqb msgId) ids then
            op ← generate_op_fault op WSA_INVALID_MESSAGE_INFORMATION_HEADER
                   WSA_DETAIL_DUPLICATE_MESSAGE_ID;
            Some (true, op, ids)
          else Some (false, op, trim_ids ids ++ [msgId])
      end
  | None =>
      if negb (wsman_is_identify_request (in_doc op)) then
        op ← generate_op_fault op WSA_MESSAGE_INFORMATION_HEADER_REQUIRED WSMAN_DETAIL_OK;
        Some (true, op, ids)
      else Some (false, op, ids)
  end.

(** ** Filters *)

Definition filter_t : Type := op_t → option (Z * op_t).

Definition outbound_control_header_filter (charset : string) : filter_t := λ op,
  doc ← out_doc op;
  if check_envelope_size doc (op_maxsize op) charset then
    op ← generate_op_fault op WSMAN_ENCODING_LIMIT WSMAN_DETAIL_SERVICE_ENVELOPE_LIMIT;
    Some (0, op)
  else Some (0, op).

Definition outbound_addressing_filter : filter_t := λ op,
  match out_doc op with
  | None => Some (0, op)
  | Some out =>
      match wsman_get_soap_header_element (Some out) None None with
      | None => Some (0, op)
      | Some _ =>
          let add name v out := update_soap_header (λ h, ws_xml_add_child h (Some XML_NS_ADDRESSING) name v) out in
          let has out name :=
            bool_decide (is_Some (child (wsman_get_soap_header_element (Some out) None None)
                                    XML_NS_ADDRESSING name)) in
          let out := if negb (has out WSA_MESSAGE_ID) && negb (wsman_is_identify_request (in_doc op))
                     then add WSA_MESSAGE_ID (Some uuid) out else out in
          let out :=
            match in_doc op with
            | None => out
            | Some _ =>
                match wsman_get_soap_header_element (in_doc op) (Some XML_NS_ADDRESSING)
                        (Some WSA_MESSAGE_ID) with
                | Some n =>
                    if has out WSA_RELATES_TO then out
                    else add WSA_RELATES_TO (ws_xml_get_node_text (Some n)) out
                | None => out
                end
            end in
          Some (0, set_out (Some out) op)
      end
  end.

Fixpoint process_filter_chain (op : op_t) (l : list filter_t) : option (Z * op_t) :=
  match l with
  | [] => Some (0, op)
  | f :: l' =>
      '(retVal, op) ← f op;
      if negb (retVal =? 0) then Some (retVal, op) else process_filter_chain op l'
  end.

(** ** Processing a message *)

(** The service's own state. *)
Context {W : Type}.

Record dispatch := Dispatch {
  d_skip_def_filters : bool;
  d_inbound : list filter_t;
  d_outbound : list filter_t;
  (** [serviceCallback] *)
  d_service : option (W → op_t → option (W * op_t));
}.

(** The filters of the SOAP handle and its list of message identifiers. *)
Record soap_t := Soap {
  s_inbound : list filter_t;
  s_outbound : list filter_t;
  processedMsgIdList : list string;
}.

Definition set_ids (ids : list string) (s : soap_t) : soap_t :=
  Soap (s_inbound s) (s_outbound s) ids.

Record message := Msg {
  m_charset : string;
  m_status : WsmanStatus;
  m_http : Z;
  m_response : option xnode;
}.

Definition set_status (st : WsmanStatus) (m : message) : message :=
  Msg (m_charset m) st (m_http m) (m_response m).
Definition set_http (h : Z) (m : message) : message :=
  Msg (m_charset m) (m_status m) h (m_response m).
Definition set_response (d : xnode) (m : message) : message :=
  Msg (m_charset m) (m_status m) (m_http m) (Some d).

(** The checks that follow the filters of an inbound message, in their order;
    the boolean is [true] when one of them rejects it. *)
Definition inbound_checks (op : op_t) (ids : list string) : option (bool * op_t * list string) :=
  '(dup, op, ids) ← wsman_is_duplicate_message_id op ids;
  if dup : bool then Some (true, op, ids)
  else
    '(unsup, op) ← check_unsupported_features op;
    if unsup : bool then Some (true, op, ids)
    else
      match validate_mustunderstand_headers op with
      | Some h => op ← generate_notunderstood_fault op h; Some (true, op, ids)
      | None =>
          '(valid, op) ← validate_control_headers op;
          if negb valid then Some (true, op, ids)
          else
            '(dups, op) ← check_for_duplicate_selectors op;
            Some (dups, op, ids)
      end.

(** [process_filters]: [true] for a message that is rejected. *)
Definition process_filters (d : dispatch) (op : op_t) (inbound : bool) (s : soap_t)
  : option (bool * op_t * soap_t) :=
  '(retVal, op) ←
    (if d_skip_def_filters d then Some (0, op)
     else process_filter_chain op (if inbound then s_inbound s else s_outbound s));
  if negb (retVal =? 0) then Some (true, op, s)
  else
    '(retVal, op) ← process_filter_chain op (if inbound then d_inbound d else d_outbound d);
    if negb (retVal =? 0) then Some (true, op, s)
    else if inbound then
      '(rejected, op, ids) ← inbound_checks op (processedMsgIdList s);
      Some (rejected, op, set_ids ids s)
    else Some (false, op, s).

(** The HTTP code of a response document: [wsman_find_httpcode_for_value]
    reads the text at [/s:Envelope/s:Body/s:Fault/s:Code/s:Value]. *)
Definition httpcode_for_doc (doc : xnode) : Z := wsman_find_httpcode_for_value (fault_code_text doc).

Definition wsman_add_fragement_for_header (indoc : option xnode) (outdoc : xnode) : xnode :=
  match child (ws_xml_get_soap_header indoc) XML_NS_WS_MAN WSM_FRAGMENT_TRANSFER with
  | None => outdoc
  | Some n => update_soap_header (λ h, add_node h (ws_xml_duplicate_tree n)) outdoc
  end.

Definition process_inbound_operation (d : dispatch) (op : op_t) (msg : message) (s : soap_t) (w : W)
  : option (message * soap_t * W) :=
  let msg := set_http WSMAN_STATUS_OK msg in
  let op := set_out None op in
  let fault msg c dt s w := Some (set_status (wsman_set_fault (m_status msg) c dt None) msg, s, w) in
  match d_service d with
  | None => fault msg WSA_ACTION_NOT_SUPPORTED OWSMAN_NO_DETAILS s w
  | Some serviceCallback =>
      '(rejected, op, s) ← process_filters d op true s;
      if rejected : bool then
        match out_doc op with
        | None => fault msg WSMAN_INTERNAL_ERROR OWSMAN_NO_DETAILS s w
        | Some doc =>
            let msg := if wsman_is_fault_envelope (Some doc)
                       then set_http (httpcode_for_doc doc) msg else msg in
            Some (set_response doc msg, s, w)
        end
      else
        '(w, op) ← serviceCallback w op;
        match out_doc op with
        | None => fault msg WSA_DESTINATION_UNREACHABLE WSMAN_DETAIL_INVALID_RESOURCEURI s w
        | Some _ =>
            '(_, op, s) ← process_filters d op false s;
            match out_doc op with
            | None => fault msg WSMAN_INTERNAL_ERROR OWSMAN_NO_DETAILS s w
            | Some doc =>
                let '(msg, doc) :=
                  if wsman_is_fault_envelope (Some doc) then (set_http (httpcode_for_doc doc) msg, doc)
                  else (msg, wsman_add_fragement_for_header (in_doc op) doc) in
                Some (set_response doc msg, s, w)
            end
        end
  end.

Definition dispatcher_create_fault (msg : message) (indoc : option xnode) : option message :=
  if wsman_fault_occured (m_status msg) then
    let st := m_status msg in
    generate_fault_document ns_prefix uuid indoc (st_code st) (st_detail st) (st_msg st) ≫=
      λ r : option xnode,
      let msg := match r with Some doc => set_response doc msg | None => msg end in
      Some (set_http (wsman_find_httpcode_for_fault_code (st_code st)) msg)
  else Some msg.

(** [parsed] is the request read by the XML parser, [dispatcherProc] the
    dispatcher the SOAP handle was given. *)
Definition dispatch_inbound_call (dispatcherProc : option (xnode → option dispatch))
    (parsed : option xnode) (msg : message) (s : soap_t) (w : W) : option (message * soap_t * W) :=
  '(indoc, _, st) ← wsman_build_inbound_envelope parsed (m_status msg);
  let msg := set_status st msg in
  '(msg, s, w) ←
    (if wsman_fault_occured (m_status msg) then Some (msg, s, w)
     else
       match indoc with
       | None => Some (msg, s, w)
       | Some doc =>
           match f ← dispatcherProc; f doc with
           | None =>
               Some (set_status (wsman_set_fault (m_status msg) WSA_DESTINATION_UNREACHABLE
                       WSMAN_DETAIL_INVALID_RESOURCEURI None) msg, s, w)
           | Some d => process_inbound_operation d (Op indoc None 0 0) msg s w
           end
       end);
  msg ← dispatcher_create_fault msg indoc;
  Some (msg, s, w).
End Dispatcher.
