(* ===== verification/DispatchProofs.v ===== *)
(** * Theorems on the dispatcher

    What the checks of inbound messages accept, that a message that fails them
    never reaches a service, and that every message is answered. *)

From S2P Require Import Prelude.
From S2P Require Import CString.
From S2P Require Import Names.
From S2P Require Import Xml.
From S2P Require Import Faults.
From S2P Require Import Duration.
From S2P Require Import Store.
From S2P Require Import Envelope.
From S2P Require Import Dispatcher.

#[local] Open Scope string_scope.
#[local] Open Scope list_scope.
#[local] Open Scope Z_scope.

(** ** The window of message identifiers *)

Definition window (acc : list string) : list string :=
  drop (length acc - PROCESSED_MSG_ID_MAX_SIZE) acc.

Lemma trim_ids_drop l : trim_ids l = drop (length l - 199) l.
Proof.
  induction l as [|x l IH]; [done|]. cbn [trim_ids]. unfold PROCESSED_MSG_ID_MAX_SIZE.
  destruct (Nat.leb_spec 200 (length (x :: l))) as [H|H]; cbn [length] in *.
  - rewrite IH. by replace (S (length l) - 199)%nat with (S (length l - 199)) by lia.
  - by replace (S (length l) - 199)%nat with 0%nat by lia.
Qed.

Lemma window_append acc m : trim_ids (window acc) ++ [m] = window (acc ++ [m]).
Proof.
  unfold window, PROCESSED_MSG_ID_MAX_SIZE. rewrite trim_ids_drop, drop_drop, length_drop, length_app.
  cbn [length]. rewrite drop_app_le by lia. f_equal. f_equal. lia.
Qed.

Lemma existsb_in m l : existsb (str_eqb m) l = bool_decide (m ∈ l).
Proof.
  induction l as [|x l IH]; [done|]. cbn. rewrite IH.
  destruct (str_eqb_spec m x) as [->|Hn]; cbn; case_bool_decide; case_bool_decide; set_solver.
Qed.

Lemma mu_loop_spec l ns name :
  mu_loop l ns name = true ↔ ∃ u, ns = Some u ∧ (u, name) ∈ l.
Proof.
  induction l as [|[u n] l IH]; cbn [mu_loop].
  - split; [done|]. intros (u & _ & []%elem_of_nil).
  - destruct ns as [v|]; [|rewrite IH; naive_solver].
    destruct (str_eqb_spec v u) as [->|Hu], (str_eqb_spec name n) as [->|Hn]; cbn [andb];
      rewrite ?IH; set_solver.
Qed.

(** Equal identifiers are further apart than the window. *)
Definition spaced (acc : list string) : Prop :=
  ∀ i j m, (i < j)%nat → acc !! i = Some m → acc !! j = Some m →
    (i + PROCESSED_MSG_ID_MAX_SIZE < j)%nat.

Lemma spaced_append acc m : spaced acc → m ∉ window acc → spaced (acc ++ [m]).
Proof.
  intros Hs Hm i j x Hij Hi Hj. apply lookup_lt_Some in Hj as Hlt. rewrite length_app in Hlt. cbn in Hlt.
  destruct (decide (j < length acc)%nat) as [Hl|Hl].
  - rewrite lookup_app_l in Hi, Hj by lia. eauto.
  - assert (j = length acc) as -> by lia. rewrite lookup_app_r, Nat.sub_diag in Hj by lia.
    injection Hj as <-. rewrite lookup_app_l in Hi by lia.
    destruct (decide (i + PROCESSED_MSG_ID_MAX_SIZE < length acc)%nat) as [|Hge]; [done|].
    destruct Hm. apply list_elem_of_lookup. unfold window.
    exists (i - (length acc - PROCESSED_MSG_ID_MAX_SIZE))%nat. rewrite lookup_drop.
    rewrite <- Hi. f_equal. lia.
Qed.

Section Proofs.
Context {T : Type → Type} {ST : Store T} {SL : StoreLaws T} {LX : Libxml2} {LL : Libxml2Laws}.
Context (ns_prefix : string → option string) (strtod_round : string → Z * string) (uuid : string).

Lemma generate_op_fault_defined op c d : ∃ op', generate_op_fault ns_prefix uuid op c d = Some op' ∧
  in_doc op' = in_doc op ∧ op_maxsize op' = op_maxsize op ∧
  (∀ doc, out_doc op' = Some doc → wsman_is_fault_envelope (Some doc) = true).
Proof.
  unfold generate_op_fault. destruct (in_doc op) as [doc|] eqn:E; [|by eexists].
  unfold generate_fault_document. destruct (generate_fault_defined c d None) as [f ->].
  rewrite !some_bind. eexists. split; [done|]. cbn. split_and!; [done|done|].
  intros doc' Hd. destruct f as [f|]; [|done]. injection Hd as <-. apply fault_document_is_fault.
Qed.

Lemma generate_op_fault_doc op c d :
  is_Some (in_doc op) → c ∉ codes_without_entry →
  ∃ doc, generate_op_fault ns_prefix uuid op c d = Some (set_out (Some doc) op) ∧
    wsman_is_fault_envelope (Some doc) = true.
Proof.
  intros [i Hi] Hc. unfold generate_op_fault. rewrite Hi.
  destruct (fault_document_some ns_prefix uuid (Some i) c d None Hc) as (doc & -> & Hf).
  by exists doc.
Qed.

(** The identifier of a message: absent, or its text. *)
Definition message_id (op : op_t) : option string :=
  match child (wsman_get_soap_header_element (in_doc op) None None) XML_NS_ADDRESSING WSA_MESSAGE_ID with
  | Some n => Some (default "" (ws_xml_get_node_text (Some n)))
  | None => None
  end.

Lemma duplicate_step op acc :
  ∃ rej op', wsman_is_duplicate_message_id ns_prefix uuid op (window acc) =
    Some (rej, op', window (match message_id op with
                            | Some m => if rej : bool then acc else acc ++ [m]
                            | None => acc
                            end)) ∧
  in_doc op' = in_doc op ∧
  rej = match message_id op with
        | Some m => bool_decide (m = "" ∨ m ∈ window acc)
        | None => negb (wsman_is_identify_request (in_doc op))
        end.
Proof using LL.
  clear dependent strtod_round.
  unfold wsman_is_duplicate_message_id, message_id.
  destruct (child _ XML_NS_ADDRESSING WSA_MESSAGE_ID) as [n|].
  - destruct (ws_xml_get_node_text (Some n)) as [[|a m]|]; cbn [default].
    + destruct (generate_op_fault_defined op WSA_INVALID_MESSAGE_INFORMATION_HEADER WSMAN_DETAIL_OK)
        as (op' & -> & Hi & _). exists true, op'. split; [done|]. split; [done|].
      by rewrite bool_decide_true by by left.
    + rewrite existsb_in. case_bool_decide as Hm.
      * destruct (generate_op_fault_defined op WSA_INVALID_MESSAGE_INFORMATION_HEADER
          WSA_DETAIL_DUPLICATE_MESSAGE_ID) as (op' & -> & Hi & _). exists true, op'. split; [done|].
        split; [done|]. by rewrite bool_decide_true by by right.
      * exists false, op. rewrite window_append. split; [done|]. split; [done|].
        rewrite bool_decide_false; [done|]. naive_solver.
    + destruct (generate_op_fault_defined op WSA_INVALID_MESSAGE_INFORMATION_HEADER WSMAN_DETAIL_OK)
        as (op' & -> & Hi & _). exists true, op'. split; [done|]. split; [done|].
      by rewrite bool_decide_true by by left.
  - destruct (wsman_is_identify_request (in_doc op)); cbn [negb].
    + by exists false, op.
    + destruct (generate_op_fault_defined op WSA_MESSAGE_INFORMATION_HEADER_REQUIRED WSMAN_DETAIL_OK)
        as (op' & -> & Hi & _). by exists true, op'.
Qed.

(** A sequence of messages, with the identifiers that were accepted. *)
Fixpoint run_ids (ops : list op_t) (ids acc : list string) : option (list string * list string) :=
  match ops with
  | [] => Some (ids, acc)
  | op :: ops =>
      '(rej, _, ids) ← wsman_is_duplicate_message_id ns_prefix uuid op ids;
      run_ids ops ids (match message_id op with
                       | Some m => if rej : bool then acc else acc ++ [m]
                       | None => acc
                       end)
  end.

Lemma run_ids_spec ops : ∀ acc, spaced acc →
  ∃ acc', run_ids ops (window acc) acc = Some (window acc', acc') ∧ spaced acc'.
Proof using LL.
  clear dependent strtod_round.
  induction ops as [|op ops IH]; intros acc Hs; cbn [run_ids]; [by exists acc|].
  destruct (duplicate_step op acc) as (rej & op' & -> & _ & Hrej). rewrite some_bind.
  apply IH. destruct (message_id op) as [m|]; [|done]. subst rej.
  case_bool_decide as Hm; [done|]. apply spaced_append; [done|]. naive_solver.
Qed.

(** C17: the server recognises a repeated MessageID among the last 200 messages
    it accepted, whatever the sequence of messages: the check never fails, two
    accepted messages with the same identifier are more than 200 accepted
    messages apart, and a message with an identifier that is not empty and not
    among the last 200 accepted ones is never refused for its identifier. *)
Theorem message_ids_checked ops op :
  ∃ ids acc, run_ids ops [] [] = Some (ids, acc) ∧ spaced acc ∧
    ids = drop (length acc - PROCESSED_MSG_ID_MAX_SIZE) acc ∧
    ∃ rej op' ids', wsman_is_duplicate_message_id ns_prefix uuid op ids = Some (rej, op', ids') ∧
      ∀ m, message_id op = Some m → rej = bool_decide (m = "" ∨ m ∈ ids).
Proof using LL.
  clear dependent strtod_round.
  destruct (run_ids_spec ops []) as (acc & Hr & Hs).
  { intros i j m _ Hi. by rewrite lookup_nil in Hi. }
  exists (window acc), acc. split; [done|]. split; [done|]. split; [done|].
  destruct (duplicate_step op acc) as (rej & op' & -> & _ & Hrej). eexists _, _, _.
  split; [done|]. intros m Hm. by rewrite Hm in Hrej.
Qed.

(** ** Headers that must be understood *)

Lemma mustunderstand_loop_filter nsUri l :
  mustunderstand_loop nsUri l =
  head (filter (λ c, ws_xml_find_attr_bool (Some c) nsUri SOAP_MUST_UNDERSTAND && negb (is_mu_header c) = true) l).
Proof.
  induction l as [|c l IH]; [done|]. cbn [mustunderstand_loop]. rewrite filter_cons, IH.
  by destruct (_ && _).
Qed.

(** A message is refused for a header exactly when some child of its
    header carries a true mustUnderstand attribute and is not one of the
    twelve headers the server implements; the header reported is the first
    such child. *)
Theorem mustunderstand_spec op h :
  wsman_get_soap_header_element (in_doc op) None None = Some h →
  let bad c := ws_xml_find_attr_bool (Some c) (ws_xml_get_node_name_ns (Some h)) SOAP_MUST_UNDERSTAND = true ∧
    ∀ u n, ws_xml_get_node_name_ns (Some c) = Some u → ws_xml_get_node_local_name (Some c) = Some n →
      (u, n) ∉ s_Info in
  match validate_mustunderstand_headers op with
  | Some c => ∃ l1 l2, element_children (x_children h) = l1 ++ c :: l2 ∧ bad c ∧ Forall (λ c, ¬ bad c) l1
  | None => Forall (λ c, ¬ bad c) (element_children (x_children h))
  end.
Proof using LX.
  clear ns_prefix strtod_round uuid.
  intros Hh bad.
  assert (Hbad : ∀ c, bad c ↔ ws_xml_find_attr_bool (Some c) (ws_xml_get_node_name_ns (Some h))
            SOAP_MUST_UNDERSTAND && negb (is_mu_header c) = true).
  { intros c. unfold bad. rewrite andb_true_iff, negb_true_iff. apply and_iff_compat_l.
    unfold is_mu_header. destruct (ws_xml_get_node_local_name (Some c)) as [n|] eqn:En; [|naive_solver].
    rewrite <- not_true_iff_false, mu_loop_spec. naive_solver. }
  unfold validate_mustunderstand_headers. rewrite Hh, children_matching, matching_wildcard.
  induction (element_children (x_children h)) as [|c l IH]; cbn [mustunderstand_loop]; [by constructor|].
  destruct (_ && _) eqn:E.
  - exists [], l. split; [done|]. split; [by apply Hbad|constructor].
  - assert (¬ bad c) by (rewrite Hbad; congruence).
    destruct (mustunderstand_loop _ l) as [c'|]; [|by constructor].
    destruct IH as (l1 & l2 & -> & Hb & Hl). exists (c :: l1), l2. split; [done|]. split; [done|].
    by constructor.
Qed.

(** ** Selectors *)

Definition unqualified_name (selector : xnode) : option string :=
  ws_xml_find_attr_value (Some selector) None WSM_NAME.

Lemma dup_selector_loop_spec l : ∀ h : T (option string),
  store_ok h → store_count h + Z.of_nat (length l) < store_capacity →
  dup_selector_loop h l =
    Some (bool_decide (¬ (NoDup (omap unqualified_name l) ∧
      Forall (λ n, store_map h !! n = None) (omap unqualified_name l)))).
Proof using SL.
  clear ns_prefix strtod_round uuid LL.
  induction l as [|sel l IH]; intros h Hok Hc; cbn [dup_selector_loop].
  - rewrite bool_decide_false; [done|]. cbn. intros H. apply H. by repeat constructor.
  - cbn [length] in Hc. fold (unqualified_name sel). cbn [omap list_omap].
    destruct (unqualified_name sel) as [n|] eqn:En; [|rewrite IH by (done || lia); done].
    rewrite store_find_spec, some_bind by done. destruct (store_map h !! n) as [v|] eqn:Ev.
    + rewrite bool_decide_true; [done|]. intros [_ Hf%Forall_cons_1]. naive_solver congruence.
    + destruct (store_add_spec h n (ws_xml_get_node_text (Some sel)) Hok Ev ltac:(lia))
        as (h' & -> & Hok' & Hm). rewrite some_bind, IH.
      * f_equal. apply bool_decide_ext. rewrite Hm, NoDup_cons, !Forall_cons.
        apply not_iff_compat. split.
        -- intros [Hnd Hf]. rewrite Forall_forall in Hf. split_and!; [|done|done|].
           ++ intros Hin. specialize (Hf n Hin). by rewrite lookup_insert_eq in Hf.
           ++ apply Forall_forall. intros x Hx. specialize (Hf x Hx).
              by apply lookup_insert_None in Hf as [? _].
        -- intros ([Hn Hnd] & _ & Hf). split; [done|]. rewrite Forall_forall in *. intros x Hx.
           rewrite lookup_insert_ne; [by apply Hf|]. intros ->. done.
      * done.
      * rewrite store_count_spec in * by done. rewrite Hm, map_size_insert, Ev. lia.
Qed.

(** A message is refused for its selectors exactly when two of the
    Selector elements of its SelectorSet have the same unqualified Name, and
    is then answered with a fault. *)
Theorem duplicate_selectors_spec op set :
  child (wsman_get_soap_header_element (in_doc op) None None) XML_NS_WS_MAN WSM_SELECTOR_SET = Some set →
  Z.of_nat (length (x_children set)) < store_capacity →
  let names := omap unqualified_name (selectors (Some set)) in
  ∃ op', check_for_duplicate_selectors ns_prefix uuid op = Some (bool_decide (¬ NoDup names), op') ∧
    (NoDup names → op' = op) ∧
    (¬ NoDup names → is_Some (in_doc op) →
       ∃ doc, out_doc op' = Some doc ∧ wsman_is_fault_envelope (Some doc) = true).
Proof using SL LL.
  clear strtod_round.
  intros Hset Hlen names. unfold check_for_duplicate_selectors. rewrite Hset.
  destruct (store_new_spec (T := T) (V := option string)) as (h & -> & Hok & Hm). rewrite some_bind.
  rewrite dup_selector_loop_spec; [|done|].
  2: { rewrite store_count_spec, Hm, map_size_empty by done. unfold selectors.
       rewrite children_matching. pose proof (matching_length (Some XML_NS_WS_MAN) (Some WSM_SELECTOR) set).
       lia. }
  rewrite some_bind. fold names.
  assert (Hiff : ¬ (NoDup names ∧ Forall (λ n, store_map h !! n = None) names) ↔ ¬ NoDup names).
  { apply not_iff_compat. split; [by intros [? _]|]. intros Hnd. split; [done|].
    apply Forall_forall. intros n _. by rewrite Hm. }
  rewrite (bool_decide_ext _ _ Hiff). case_bool_decide as Hd.
  - destruct (generate_op_fault_defined op WSMAN_INVALID_SELECTORS WSMAN_DETAIL_DUPLICATE_SELECTORS)
      as (op' & Hg & Hi & _ & Hf). rewrite Hg, some_bind. exists op'. split; [done|]. split; [done|].
    intros _ Hin. destruct (generate_op_fault_doc op WSMAN_INVALID_SELECTORS
      WSMAN_DETAIL_DUPLICATE_SELECTORS Hin) as (doc & Hg' & Hfd); [by apply (bool_decide_unpack _)|].
    rewrite Hg in Hg'. injection Hg' as ->. by exists doc.
  - exists op. split; [done|]. split; [done|]. by intros [].
Qed.

(** ** Control headers *)

Lemma timeout_maxsize header op op' :
  check_operation_timeout ns_prefix strtod_round uuid header op = Some (true, op') →
  op_maxsize op' = op_maxsize op.
Proof.
  unfold check_operation_timeout. destruct (child _ _ _) as [n|]; [|by intros [= <-]].
  destruct (match ws_xml_get_node_text (Some n) with Some _ => _ | None => _ end) as [[d|]|]; [| |done];
    rewrite some_bind; [|intros H; by bind_inv H].
  destruct (d <=? 0); [intros H; by bind_inv H|].
  destruct (ws_xml_find_attr_bool _ _ _); [intros H; by bind_inv H|]. by intros [= <-].
Qed.

(** The limit on the size of a response.  A request without a
    MaxEnvelopeSize header gets the default of 32,767; a header with
    mustUnderstand="true" sets the limit, and one below 8192 is refused; a
    header without that attribute removes the limit altogether, although R13.1-3,
    quoted in the code, makes the default apply unless the client overrides
    it. *)
Theorem control_headers_limit op op' doc cs :
  op_maxsize op = 0 →
  validate_control_headers ns_prefix strtod_round uuid op = Some (true, op') →
  let header := wsman_get_soap_header_element (in_doc op) None None in
  let maxsize := child header XML_NS_WS_MAN WSM_MAX_ENVELOPE_SIZE in
  let size := ws_deserialize_uint32 header 0 XML_NS_WS_MAN WSM_MAX_ENVELOPE_SIZE in
  let limited n := check_envelope_size doc (op_maxsize op') cs = (n <? wrap32 (xmlDocDumpLen doc cs)) in
  match maxsize with
  | None => limited WSMAN_MAX_ENVELOPE_SIZE
  | Some _ =>
      if mu_true maxsize then WSMAN_MINIMAL_ENVELOPE_SIZE_REQUEST ≤ size ∧ limited size
      else check_envelope_size doc (op_maxsize op') cs = false
  end.
Proof.
  intros H0 Hv header maxsize size limited. unfold validate_control_headers in Hv.
  fold header maxsize size in Hv.
  destruct maxsize as [n|] eqn:Em.
  - destruct (mu_true (Some n)); cbn [andb] in Hv.
    + destruct (Z.ltb_spec size WSMAN_MINIMAL_ENVELOPE_SIZE_REQUEST) as [|Hge]; [by bind_inv Hv|].
      apply timeout_maxsize in Hv. split; [done|]. unfold limited, check_envelope_size. rewrite Hv. cbn.
      rewrite (proj2 (Z.eqb_neq size 0)); [done|]. unfold WSMAN_MINIMAL_ENVELOPE_SIZE_REQUEST in Hge. lia.
    + apply timeout_maxsize in Hv. unfold check_envelope_size. by rewrite Hv, H0.
  - cbn [andb] in Hv. apply timeout_maxsize in Hv. unfold limited, check_envelope_size. by rewrite Hv.
Qed.

(** ** Unsupported features *)

(** An Enumerate that asks for EndTo, which the server does not support,
    passes the check when it also has one filter in a supported dialect: the
    result of the dialect check overwrites the refusal.  Without a filter it
    is refused. *)
Theorem end_to_with_filter_accepted op body enum endto flt :
  let header := wsman_get_soap_header_element (in_doc op) None None in
  child header XML_NS_ADDRESSING WSA_FAULT_TO = None →
  child header XML_NS_WS_MAN WSM_LOCALE = None →
  ws_xml_get_soap_body (in_doc op) = Some body →
  child (Some body) XML_NS_ENUMERATION WSENUM_ENUMERATE = Some enum →
  child (Some body) XML_NS_EVENTING WSEVENT_SUBSCRIBE = None →
  child (Some enum) XML_NS_ENUMERATION WSENUM_END_TO = Some endto →
  child (Some enum) XML_NS_ENUMERATION WSENUM_FILTER = None →
  child (Some enum) XML_NS_WS_MAN WSM_FILTER = flt →
  match flt with
  | Some n => check_supported_dialect
                (default WSM_XPATH_FILTER_DIALECT (ws_xml_find_attr_value (Some n) None WSM_DIALECT)) = 0
  | None => True
  end →
  ∃ op', check_unsupported_features ns_prefix uuid op =
    Some (match flt with Some _ => false | None => true end, op').
Proof.
  intros header H1 H2 H3 H4 H5 H6 H7 H8 H9. unfold check_unsupported_features. fold header.
  rewrite H1, H2, H3, H4, H5, bool_decide_false by (by intros [? ?]). cbn [mu_true].
  assert (mu_true None = false) as -> by done.
  assert (∃ op', check_enumerate_features ns_prefix uuid header (Some enum) op =
            Some (match flt with Some _ => (false, false) | None => (true, true) end, op') ∨
          check_enumerate_features ns_prefix uuid header (Some enum) op =
            Some (match flt with Some _ => (false, false) | None => (false, true) end, op')) as (op' & Hop).
  { unfold check_enumerate_features. rewrite H6, H7, H8.
    destruct (generate_op_fault_defined op WSMAN_UNSUPPORTED_FEATURE WSMAN_DETAIL_ADDRESSING_MODE)
      as (op1 & -> & _). rewrite !some_bind. destruct flt as [n|].
    - rewrite H9. cbn [Z.eqb]. exists op1. right.
      destruct (match child header _ _ with Some _ => _ | None => _ end); [|done].
      rewrite (bool_decide_false (Some n = None)) by done. by rewrite andb_false_r.
    - destruct (match child header _ _ with Some _ => _ | None => _ end); [|eexists; by right].
      destruct (str_eqb _ CIM_ALL_AVAILABLE_CLASSES); [|eexists; by right].
      destruct (generate_op_fault_defined op1 WSMAN_UNSUPPORTED_FEATURE WSMAN_DETAIL_FILTERING_REQUIRED)
        as (op2 & Hop2 & _). exists op2. left. cbn. by rewrite Hop2. }
  exists op'. destruct Hop as [Hop|Hop]; rewrite Hop, some_bind; by destruct flt.
Qed.

(** ** Every message is answered *)

(** A check that ran: it keeps the request, and leaves a document when it
    rejects. *)
Definition ran (op : op_t) (bad : bool) (r : option (bool * op_t)) : Prop :=
  ∃ b op', r = Some (b, op') ∧ in_doc op' = in_doc op ∧ (b = bad → is_Some (out_doc op')).

Lemma ran_reject op op0 c d bad :
  is_Some (in_doc op) → in_doc op0 = in_doc op → c ∉ codes_without_entry →
  ran op bad (op1 ← generate_op_fault ns_prefix uuid op0 c d; Some (bad, op1)).
Proof.
  intros Hi E Hc. rewrite <- E in Hi. destruct (generate_op_fault_doc op0 c d Hi Hc) as (doc & -> & _).
  eexists _, _. split; [done|]. by split.
Qed.

Lemma ran_pass op op0 bad : in_doc op0 = in_doc op → ran op bad (Some (negb bad, op0)).
Proof. intros E. exists (negb bad), op0. split_and!; [done|done|]. by destruct bad. Qed.

(** [strtod] leaves its end pointer inside the string it was given, and an
    attribute of a node has a value. *)
Context (strtod_suffix : ∀ t, (String.length (strtod_round t).2 ≤ String.length t)%nat).
Context (attr_value : ∀ n a, a ∈ x_props n → is_Some (xmlGetProp n (xa_ns a) (xa_name a))).

Lemma find_attr_loop_in l ns name a : find_attr_loop l ns name = Some a → a ∈ l.
Proof.
  induction l as [|x l IH]; cbn; [done|]. destruct (attr_matches ns name x).
  - intros [= ->]. by left.
  - intros H. right. by apply IH.
Qed.

Lemma timeout_ran header op :
  is_Some (in_doc op) → ran op false (check_operation_timeout ns_prefix strtod_round uuid header op).
Proof.
  intros Hi. unfold check_operation_timeout. destruct (child _ _ _) as [n|]; [|by apply ran_pass].
  set (d := match ws_xml_get_node_text (Some n) with Some _ => _ | None => _ end).
  assert (is_Some d) as [[v|] ->].
  { unfold d. destruct (ws_xml_get_node_text (Some n)) as [t|]; [|done].
    by apply duration_defined. }
  - rewrite some_bind. destruct (v <=? 0).
    + by apply ran_reject; [| |by apply (bool_decide_unpack _)].
    + destruct (ws_xml_find_attr_bool _ _ _); [|by apply ran_pass].
      by apply ran_reject; [| |by apply (bool_decide_unpack _)].
  - rewrite some_bind. by apply ran_reject; [| |by apply (bool_decide_unpack _)].
Qed.

Lemma control_ran op :
  is_Some (in_doc op) → ran op false (validate_control_headers ns_prefix strtod_round uuid op).
Proof.
  intros Hi. unfold validate_control_headers.
  set (h := wsman_get_soap_header_element (in_doc op) None None).
  set (sz := ws_deserialize_uint32 h 0 _ _).
  assert (Hgo : ∀ op0 mu, in_doc op0 = in_doc op →
    ran op false (if mu && (sz <? WSMAN_MINIMAL_ENVELOPE_SIZE_REQUEST)
      then op1 ← generate_op_fault ns_prefix uuid op0 WSMAN_ENCODING_LIMIT
             WSMAN_DETAIL_MINIMUM_ENVELOPE_LIMIT; Some (false, op1)
      else check_operation_timeout ns_prefix strtod_round uuid h
             (if mu then set_maxsize sz op0 else op0))).
  { intros op0 mu E. destruct (mu && _); [by apply ran_reject; [| |by apply (bool_decide_unpack _)]|].
    set (o := if mu then _ else _). assert (in_doc o = in_doc op) as E' by (unfold o; by destruct mu).
    destruct (timeout_ran h o) as (b & op' & Hr & Hi' & Hd); [by rewrite E'|].
    exists b, op'. split_and!; [done|congruence|done]. }
  destruct (child h XML_NS_WS_MAN WSM_MAX_ENVELOPE_SIZE); by apply Hgo.
Qed.

Ltac by_entry := by apply ran_reject; [| |by apply (bool_decide_unpack _)].

Lemma subscribe_ran subscribe rv op :
  is_Some (in_doc op) → is_Some (out_doc op) ∨ rv = false →
  ran op true (check_subscribe_features ns_prefix uuid subscribe rv op).
Proof.
  intros Hi Hrv. unfold check_subscribe_features. destruct (child _ _ _) as [n|]; [|by_entry].
  set (u := match ws_xml_find_node_attr _ _ _ with Some _ => _ | None => _ end).
  assert (is_Some u) as [b ->].
  { unfold u. destruct (ws_xml_find_node_attr (Some n) None WSEVENT_DELIVERY_MODE) as [a|] eqn:Ea; [|done].
    cbn in Ea. apply find_attr_loop_in in Ea. unfold ws_xml_get_attr_value.
    destruct (attr_value n a Ea) as [v ->]. done. }
  rewrite some_bind. destruct b; [by_entry|]. destruct (child _ XML_NS_WS_MAN _); [by_entry|].
  exists rv, op. split_and!; [done|done|]. naive_solver.
Qed.

Lemma enumerate_ran header enum op :
  is_Some (in_doc op) →
  ∃ go rv op', check_enumerate_features ns_prefix uuid header enum op = Some (go, rv, op') ∧
    in_doc op' = in_doc op ∧ (rv = true → is_Some (out_doc op')).
Proof.
  intros Hi. unfold check_enumerate_features.
  set (first := match child enum XML_NS_ENUMERATION WSENUM_END_TO with Some _ => _ | None => _ end).
  assert (ran op true first) as (rv & op1 & -> & Hi1 & Ho1).
  { unfold first. destruct (child _ _ _); [by_entry|]. by apply (ran_pass op op true). }
  rewrite some_bind. rewrite <- Hi1 in Hi.
  assert (Hfault : ∀ c d, c ∉ codes_without_entry → ∃ go rv' op',
    (op2 ← generate_op_fault ns_prefix uuid op1 c d; Some (true, true, op2)) = Some (go, rv', op') ∧
    in_doc op' = in_doc op ∧ (rv' = true → is_Some (out_doc op'))).
  { intros c d Hc. destruct (generate_op_fault_doc op1 c d Hi Hc) as (doc & -> & _).
    eexists _, _, _. split; [done|]. by split. }
  assert (Hrest : ∀ r, (r = true → is_Some (out_doc op1)) → ∃ go rv' op',
    (match (match child header XML_NS_WS_MAN WSM_RESOURCE_URI with
            | None => None | k => ws_xml_get_node_text k end) with
     | Some uri =>
        if str_eqb uri CIM_ALL_AVAILABLE_CLASSES &&
           bool_decide (child enum XML_NS_ENUMERATION WSENUM_FILTER = None) &&
           bool_decide (child enum XML_NS_WS_MAN WSM_FILTER = None)
        then op2 ← generate_op_fault ns_prefix uuid op1 WSMAN_UNSUPPORTED_FEATURE
                     WSMAN_DETAIL_FILTERING_REQUIRED; Some (true, true, op2)
        else Some (false, r, op1)
     | None => Some (false, r, op1)
     end) = Some (go, rv', op') ∧
    in_doc op' = in_doc op ∧ (rv' = true → is_Some (out_doc op'))).
  { intros r Hr. destruct (match child header _ _ with Some _ => _ | None => _ end); [|by eexists _, _, _].
    destruct (_ && _); [|by eexists _, _, _]. by apply Hfault, (bool_decide_unpack _). }
  destruct (child enum XML_NS_ENUMERATION WSENUM_FILTER), (child enum XML_NS_WS_MAN WSM_FILTER).
  - by apply Hfault, (bool_decide_unpack _).
  - destruct (_ =? 0); [by apply Hrest|by apply Hfault, (bool_decide_unpack _)].
  - destruct (_ =? 0); [by apply Hrest|by apply Hfault, (bool_decide_unpack _)].
  - by apply Hrest.
Qed.

Lemma unsupported_ran op :
  is_Some (in_doc op) → ran op true (check_unsupported_features ns_prefix uuid op).
Proof.
  intros Hi. unfold check_unsupported_features. case_bool_decide; [by_entry|].
  destruct (mu_true _); [by_entry|].
  set (body := ws_xml_get_soap_body (in_doc op)).
  set (r := match child body XML_NS_ENUMERATION WSENUM_ENUMERATE with Some _ => _ | None => _ end).
  assert (∃ go rv op', r = Some (go, rv, op') ∧ in_doc op' = in_doc op ∧
            (rv = true → is_Some (out_doc op'))) as (go & rv & op' & -> & Hi' & Ho').
  { unfold r. destruct (child body XML_NS_ENUMERATION WSENUM_ENUMERATE); [by apply enumerate_ran|].
    by eexists _, _, _. }
  rewrite some_bind. destruct go; [by exists rv, op'|].
  destruct (child body XML_NS_EVENTING WSEVENT_SUBSCRIBE) as [sub|]; [|by exists rv, op'].
  destruct (subscribe_ran (Some sub) rv op') as (b & op2 & -> & Hi2 & Ho2).
  - by rewrite Hi'.
  - destruct rv; [left; by apply Ho'|by right].
  - exists b, op2. split_and!; [done|congruence|done].
Qed.

(** The selectors of a message fit in a hash table. *)
Definition few_selectors (op : op_t) : Prop :=
  ∀ set, child (wsman_get_soap_header_element (in_doc op) None None) XML_NS_WS_MAN WSM_SELECTOR_SET = Some set →
    Z.of_nat (length (x_children set)) < store_capacity.

Lemma selectors_ran op :
  is_Some (in_doc op) → few_selectors op → ran op true (check_for_duplicate_selectors ns_prefix uuid op).
Proof.
  intros Hi Hf. unfold check_for_duplicate_selectors.
  destruct (child _ XML_NS_WS_MAN WSM_SELECTOR_SET) as [set|] eqn:Es; [|by apply (ran_pass op op true)].
  destruct (store_new_spec (T := T) (V := option string)) as (h & -> & Hok & Hm). rewrite some_bind.
  rewrite dup_selector_loop_spec; [|done|].
  - rewrite some_bind. case_bool_decide; [by_entry|]. by apply (ran_pass op op true).
  - rewrite store_count_spec, Hm, map_size_empty by done. unfold selectors. rewrite children_matching.
    pose proof (matching_length (Some XML_NS_WS_MAN) (Some WSM_SELECTOR) set). specialize (Hf set Es). lia.
Qed.

Lemma duplicate_ran op ids :
  is_Some (in_doc op) →
  ∃ b op' ids', wsman_is_duplicate_message_id ns_prefix uuid op ids = Some (b, op', ids') ∧
    in_doc op' = in_doc op ∧ (b = true → is_Some (out_doc op')).
Proof.
  intros Hi. unfold wsman_is_duplicate_message_id.
  assert (Hfault : ∀ c d, c ∉ codes_without_entry → ∃ b op' ids',
    (op1 ← generate_op_fault ns_prefix uuid op c d; Some (true, op1, ids)) = Some (b, op', ids') ∧
    in_doc op' = in_doc op ∧ (b = true → is_Some (out_doc op'))).
  { intros c d Hc. destruct (generate_op_fault_doc op c d Hi Hc) as (doc & -> & _).
    eexists _, _, _. split; [done|]. by split. }
  destruct (child _ _ _) as [n|].
  - destruct (ws_xml_get_node_text (Some n)) as [[|a m]|];
      [by apply Hfault, (bool_decide_unpack _)| |by apply Hfault, (bool_decide_unpack _)].
    destruct (existsb _ _); [by apply Hfault, (bool_decide_unpack _)|by eexists _, _, _].
  - destruct (negb _); [by apply Hfault, (bool_decide_unpack _)|by eexists _, _, _].
Qed.

Lemma inbound_checks_ran op ids :
  is_Some (in_doc op) → few_selectors op →
  ∃ b op' ids', inbound_checks ns_prefix strtod_round uuid op ids = Some (b, op', ids') ∧
    in_doc op' = in_doc op ∧ (b = true → is_Some (out_doc op')).
Proof.
  intros Hi Hf. unfold inbound_checks.
  destruct (duplicate_ran op ids Hi) as (b1 & op1 & ids1 & -> & Hi1 & Ho1). rewrite some_bind.
  destruct b1; [by eexists _, _, _|]. rewrite <- Hi1 in Hi.
  destruct (unsupported_ran op1 Hi) as (b2 & op2 & -> & Hi2 & Ho2). rewrite some_bind.
  destruct b2; [eexists _, _, _; split; [done|]; split; [congruence|done]|]. rewrite <- Hi2 in Hi.
  destruct (validate_mustunderstand_headers op2) as [h|].
  - unfold generate_notunderstood_fault. destruct Hi as [d Hd]. rewrite Hd.
    destruct (generate_op_fault_doc op2 SOAP_FAULT_MUSTUNDERSTAND WSMAN_DETAIL_OK) as (doc & -> & _);
      [by rewrite Hd|by apply (bool_decide_unpack _)|].
    rewrite !some_bind. eexists _, _, _. split; [done|]. cbn. split; [congruence|done].
  - destruct (control_ran op2 Hi) as (b3 & op3 & -> & Hi3 & Ho3). rewrite some_bind.
    destruct b3; cbn [negb]; [|eexists _, _, _; split; [done|]; split; [congruence|naive_solver]].
    rewrite <- Hi3 in Hi. assert (few_selectors op3) as Hf3.
    { unfold few_selectors in *. by rewrite Hi3, Hi2, Hi1. }
    destruct (selectors_ran op3 Hi Hf3) as (b4 & op4 & -> & Hi4 & Ho4). rewrite some_bind.
    eexists _, _, _. split; [done|]. split; [congruence|done].
Qed.

Context {W : Type}.
Implicit Types (d : dispatch (W := W)) (w : W) (msg : message).

(** The SOAP handle as the server sets it up: no inbound filters, and the two
    outbound filters. *)
Definition server_soap (cs : string) (ids : list string) : soap_t :=
  Soap [] [outbound_addressing_filter uuid; outbound_control_header_filter ns_prefix uuid cs] ids.

(** A service returns and leaves the request in place. *)
Definition service_ok (svc : W → op_t → option (W * op_t)) : Prop :=
  ∀ w op, ∃ w' op', svc w op = Some (w', op') ∧ in_doc op' = in_doc op.

(** Dispatch entries have no filters of their own. *)
Definition plain d : Prop :=
  d_inbound d = [] ∧ d_outbound d = [] ∧ ∀ svc, d_service d = Some svc → service_ok svc.

Lemma outbound_ran d op cs ids :
  d_outbound d = [] → is_Some (in_doc op) → is_Some (out_doc op) →
  ∃ b op', process_filters ns_prefix strtod_round uuid d op false (server_soap cs ids) =
    Some (b, op', server_soap cs ids) ∧ in_doc op' = in_doc op ∧ is_Some (out_doc op').
Proof.
  intros Hd Hi [out Ho]. unfold process_filters. cbn [s_outbound server_soap]. rewrite Hd.
  destruct (d_skip_def_filters d).
  { rewrite some_bind. cbn. eexists _, _. by rewrite Ho. }
  cbn [process_filter_chain]. set (a := outbound_addressing_filter uuid op).
  assert (∃ op1, a = Some (0, op1) ∧ in_doc op1 = in_doc op ∧ is_Some (out_doc op1))
    as (op1 & -> & Hi1 & [out1 Ho1]).
  { unfold a, outbound_addressing_filter. rewrite Ho.
    destruct (wsman_get_soap_header_element (Some out) None None); by eexists. }
  rewrite some_bind. cbn [negb Z.eqb]. set (b := outbound_control_header_filter ns_prefix uuid cs op1).
  assert (∃ op2, b = Some (0, op2) ∧ in_doc op2 = in_doc op ∧ is_Some (out_doc op2))
    as (op2 & -> & Hi2 & Ho2).
  { unfold b, outbound_control_header_filter. rewrite Ho1, some_bind.
    destruct (check_envelope_size _ _ _); [|exists op1; by rewrite Ho1].
    destruct (generate_op_fault_doc op1 WSMAN_ENCODING_LIMIT WSMAN_DETAIL_SERVICE_ENVELOPE_LIMIT)
      as (doc & -> & _); [by rewrite Hi1|by apply (bool_decide_unpack _)|].
    eexists. split; [done|]. by cbn. }
  cbn. by eexists _, _.
Qed.

Lemma inbound_filters d op cs ids :
  d_inbound d = [] →
  process_filters ns_prefix strtod_round uuid d op true (server_soap cs ids) =
  '(b, op', ids') ← inbound_checks ns_prefix strtod_round uuid op ids;
  Some (b, op', server_soap cs ids').
Proof. intros Hd. unfold process_filters. rewrite Hd. by destruct (d_skip_def_filters d). Qed.

(** What processing leaves: a response, or a fault with an entry in the fault
    table. *)
Definition answered msg : Prop :=
  is_Some (m_response msg) ∨ st_code (m_status msg) ∉ codes_without_entry.

Lemma set_fault_code st c dt m :
  st_code st = WSMAN_RC_OK → st_code (wsman_set_fault st c dt m) = c.
Proof. intros E. unfold wsman_set_fault, wsman_fault_occured. by rewrite E. Qed.

Lemma process_answered d op msg cs ids w :
  plain d → is_Some (in_doc op) → few_selectors op → st_code (m_status msg) = WSMAN_RC_OK →
  ∃ msg' s' w', process_inbound_operation ns_prefix strtod_round uuid d op msg (server_soap cs ids) w =
    Some (msg', s', w') ∧ answered msg'.
Proof.
  intros (Hdi & Hdo & Hsv) Hi Hf Hst. unfold process_inbound_operation.
  assert (Hfault : ∀ c dt s w, c ∉ codes_without_entry →
    ∃ msg' s' w', Some (set_status (wsman_set_fault (m_status (set_http WSMAN_STATUS_OK msg)) c dt None)
       (set_http WSMAN_STATUS_OK msg), s, w) = Some (msg', s' : soap_t, w' : W) ∧ answered msg').
  { intros c dt s0 w0 Hc. eexists _, _, _. split; [done|]. right. cbn. by rewrite set_fault_code. }
  destruct (d_service d) as [svc|] eqn:Esvc; [|by apply Hfault, (bool_decide_unpack _)].
  rewrite inbound_filters by done.
  destruct (inbound_checks_ran (set_out None op) ids) as (b & op1 & ids1 & -> & Hi1 & Ho1); [done..|].
  rewrite !some_bind. destruct b.
  { destruct (Ho1 eq_refl) as [doc ->]. eexists _, _, _. split; [done|]. left. by destruct (wsman_is_fault_envelope _). }
  destruct (Hsv svc eq_refl w op1) as (w' & op2 & -> & Hi2). rewrite some_bind.
  destruct (out_doc op2) as [doc|] eqn:Eo; [|by apply Hfault, (bool_decide_unpack _)].
  destruct (outbound_ran d op2 cs ids1 Hdo) as (b3 & op3 & -> & Hi3 & [doc3 Ho3]).
  { rewrite Hi2, Hi1. done. }
  { by rewrite Eo. }
  rewrite some_bind, Ho3. destruct (wsman_is_fault_envelope _); eexists _, _, _; (split; [done|]); by left.
Qed.

(** What the envelope of a message is found to be: fine, of a status with an
    entry in the table of faults, or of another version. *)
Lemma inbound_status parsed :
  match parsed with Some doc => is_element doc = true | None => True end →
  ∃ b st, wsman_build_inbound_envelope parsed (Status WSMAN_RC_OK WSMAN_DETAIL_OK None) = Some (parsed, b, st) ∧
    (st_code st = WSMAN_RC_OK ∧ is_Some parsed ∨ st_code st ∉ codes_without_entry ∨
     st_code st = SOAP_FAULT_VERSION_MISMATCH).
Proof.
  intros Hparsed. unfold wsman_build_inbound_envelope. destruct parsed as [[ns nm ps c|t]|].
  - destruct (valid_envelope_status (Status WSMAN_RC_OK WSMAN_DETAIL_OK None) ns nm ps c eq_refl) as (ok & st' & -> & Hc).
    rewrite some_bind. eexists _, _. split; [done|]. destruct Hc; eauto.
  - done.
  - eexists _, _. split; [done|]. right; left. by apply (bool_decide_unpack _).
Qed.

(** C16: every message the server can parse or not gets an answer.  For a
    request whose selectors fit in a table, with services that return, the
    inbound call runs to its end, and unless the envelope is of another SOAP
    version it leaves a response: the document of the service, or a fault. *)
Theorem every_message_answered proc parsed cs ids w ch :
  (∀ f doc d, proc = Some f → f doc = Some d → plain d) →
  match parsed with
  | Some doc => is_element doc = true ∧ few_selectors (Op (Some doc) None 0 0)
  | None => True
  end →
  ∃ msg' s' w',
    dispatch_inbound_call ns_prefix strtod_round uuid proc parsed
      (Msg ch (Status WSMAN_RC_OK WSMAN_DETAIL_OK None) WSMAN_STATUS_OK None) (server_soap cs ids) w
    = Some (msg', s', w') ∧
    (m_response msg' = None → st_code (m_status msg') = SOAP_FAULT_VERSION_MISMATCH).
Proof.
  intros Hproc Hparsed. unfold dispatch_inbound_call.
  set (st0 := Status WSMAN_RC_OK WSMAN_DETAIL_OK None).
  destruct (inbound_status parsed) as (b & st & Hb & Hst); [by destruct parsed; [destruct Hparsed|]|].
  cbn [m_status]. fold st0 in Hb. rewrite Hb, some_bind. clear Hb.
  set (m0 := set_status st _).
  set (run := if wsman_fault_occured (m_status m0) then _ else _).
  assert (∃ msg' s' w', run = Some (msg', s', w') ∧
    (answered msg' ∨ st_code (m_status msg') = SOAP_FAULT_VERSION_MISMATCH)) as (msg' & s' & w' & -> & Ha).
  { unfold run. destruct (wsman_fault_occured (m_status m0)) eqn:Ef.
    - eexists _, _, _. split; [done|]. destruct Hst as [[E _]|[?|?]]; [|left; by right|by right].
      unfold wsman_fault_occured in Ef. cbn in Ef. by rewrite E in Ef.
    - assert (st_code st = WSMAN_RC_OK) as E.
      { unfold wsman_fault_occured in Ef. apply negb_false_iff, bool_decide_eq_true in Ef. done. }
      destruct parsed as [doc|].
      + destruct (proc ≫= λ f, f doc) as [d|] eqn:Ed.
        * apply bind_Some in Ed as (f & Hf & Hd).
          destruct (process_answered d (Op (Some doc) None 0 0) m0 cs ids w) as (m1 & s1 & w1 & -> & Hans).
          -- by eapply Hproc.
          -- done.
          -- apply Hparsed.
          -- done.
          -- eexists _, _, _. split; [done|]. by left.
        * eexists _, _, _. split; [done|]. left; right. cbn. rewrite set_fault_code by done.
          by apply (bool_decide_unpack _).
      + destruct Hst as [[_ [? ?]]|[Hn|Hn]]; [done| |]; rewrite E in Hn; [|done].
        destruct Hn. by apply (bool_decide_unpack _). }
  rewrite some_bind. unfold dispatcher_create_fault.
  destruct (wsman_fault_occured (m_status msg')) eqn:Ef.
  - destruct (decide (st_code (m_status msg') ∈ codes_without_entry)) as [Hin|Hout].
    + unfold generate_fault_document.
      destruct (generate_fault_defined (st_code (m_status msg')) (st_detail (m_status msg'))
        (st_msg (m_status msg'))) as [f ->]. rewrite !some_bind. eexists _, _, _. split; [done|].
      destruct f as [f|]; [done|]. cbn. destruct Ha as [[[? ->]|?]|?]; done.
    + destruct (fault_document_some ns_prefix uuid parsed (st_code (m_status msg'))
        (st_detail (m_status msg')) (st_msg (m_status msg')) Hout) as (doc & -> & _).
      rewrite !some_bind. by eexists _, _, _.
  - rewrite some_bind. eexists _, _, _. split; [done|]. destruct Ha as [[[? ->]|Hn]|?]; [done| |done].
    destruct Hn. unfold wsman_fault_occured in Ef. apply negb_false_iff, bool_decide_eq_true in Ef.
    rewrite Ef. by apply (bool_decide_unpack _).
Qed.

(** C9: the service of an operation is called exactly for the messages that
    pass all the checks.  A message that fails one is answered with the
    document the check left, and the state of the service is untouched; for
    one that passes, the service runs once, on the request as it came. *)
Theorem service_guarded d svc doc msg cs ids w :
  plain d → d_service d = Some svc → few_selectors (Op (Some doc) None 0 0) →
  ∃ rejected op' ids' msg' w',
    inbound_checks ns_prefix strtod_round uuid (Op (Some doc) None 0 0) ids = Some (rejected, op', ids') ∧
    process_inbound_operation ns_prefix strtod_round uuid d (Op (Some doc) None 0 0) msg
      (server_soap cs ids) w = Some (msg', server_soap cs ids', w') ∧
    in_doc op' = Some doc ∧
    if rejected : bool then w' = w ∧ is_Some (out_doc op') ∧ m_response msg' = out_doc op'
    else ∃ op2, svc w op' = Some (w', op2).
Proof.
  intros (Hdi & Hdo & Hsv) Hs Hf. unfold process_inbound_operation. rewrite Hs.
  rewrite inbound_filters by done. change (set_out None (Op (Some doc) None 0 0)) with (Op (Some doc) None 0 0).
  destruct (inbound_checks_ran (Op (Some doc) None 0 0) ids) as (b & op1 & ids1 & -> & Hi1 & Ho1); [done..|].
  rewrite !some_bind. exists b, op1, ids1. destruct b.
  { destruct (Ho1 eq_refl) as [dd Hd]. rewrite Hd. eexists _, _. split; [done|]. split; [done|].
    split; [done|]. split; [done|]. split; [done|]. by destruct (wsman_is_fault_envelope _). }
  destruct (Hsv svc Hs w op1) as (w' & op2 & Hsvc & Hi2). rewrite Hsvc, some_bind.
  destruct (out_doc op2) as [dd|] eqn:Eo; [|eexists _, w'; split; [done|]; split; [done|]; by eauto].
  destruct (outbound_ran d op2 cs ids1 Hdo) as (b3 & op3 & -> & Hi3 & [doc3 Ho3]).
  { by rewrite Hi2, Hi1. }
  { by rewrite Eo. }
  rewrite some_bind, Ho3. destruct (wsman_is_fault_envelope _); eexists _, w'; (split; [done|]);
    (split; [done|]); by eauto.
Qed.

(** A response that is larger than the limit of its request is not sent:
    the outbound filter leaves a document within the limit or a fault
    envelope. *)
Theorem oversized_response_replaced op cs :
  is_Some (in_doc op) → is_Some (out_doc op) →
  ∃ op' doc, outbound_control_header_filter ns_prefix uuid cs op = Some (0, op') ∧
    out_doc op' = Some doc ∧
    (check_envelope_size doc (op_maxsize op) cs = false ∧ out_doc op = Some doc ∨
     wsman_is_fault_envelope (Some doc) = true ∧
       ∃ big, out_doc op = Some big ∧ op_maxsize op < wrap32 (xmlDocDumpLen big cs)).
Proof.
  intros Hi [out Ho]. unfold outbound_control_header_filter. rewrite Ho, some_bind.
  destruct (check_envelope_size out (op_maxsize op) cs) eqn:Ec.
  - destruct (generate_op_fault_doc op WSMAN_ENCODING_LIMIT WSMAN_DETAIL_SERVICE_ENVELOPE_LIMIT)
      as (doc & -> & Hfd); [done|by apply (bool_decide_unpack _)|].
    rewrite some_bind. eexists _, doc. split; [done|]. split; [done|]. right. split; [done|].
    exists out. split; [done|]. unfold check_envelope_size in Ec.
    destruct (op_maxsize op =? 0); [done|]. by apply Z.ltb_lt.
  - exists op, out. rewrite Ho. split; [done|]. split; [done|]. by left.
Qed.
End Proofs.

(** ** Samples *)

Module DispatchSample.
#[local] Existing Instance TreeXml.

Definition mu_header (ns name : string) : xnode :=
  XElement (Some ns) name [XAttr (Some XML_NS_SOAP_1_2) SOAP_MUST_UNDERSTAND "true"] [].

Definition doc_with (headers body : list xnode) : xnode :=
  el XML_NS_SOAP_1_2 SOAP_ENVELOPE
    [el XML_NS_SOAP_1_2 SOAP_HEADER
       ([txt XML_NS_ADDRESSING WSA_TO "http://host/wsman";
         txt XML_NS_ADDRESSING WSA_MESSAGE_ID "uuid:42";
         txt XML_NS_ADDRESSING WSA_ACTION "http://example/Get";
         el XML_NS_ADDRESSING WSA_REPLY_TO [txt XML_NS_ADDRESSING WSA_ADDRESS "http://client/"];
         txt XML_NS_WS_MAN WSM_RESOURCE_URI "http://example/Disk"] ++ headers);
     el XML_NS_SOAP_1_2 SOAP_BODY body].

Definition op_of (d : xnode) : op_t := Op (Some d) None 0 0.

Definition selector (name v : string) : xnode :=
  XElement (Some XML_NS_WS_MAN) WSM_SELECTOR [XAttr None WSM_NAME name] [XOther v].
Definition selector_set (l : list xnode) : xnode := el XML_NS_WS_MAN WSM_SELECTOR_SET l.
Definition twice : xnode := selector_set [selector "id" "1"; selector "k" "2"; selector "id" "3"].

Definition big_doc : xnode := doc_with [] [].
Definition unlimited : xnode := doc_with [txt XML_NS_WS_MAN WSM_MAX_ENVELOPE_SIZE "100"] [].

(** A service that counts its calls. *)
Definition counting : Z → op_t → option (Z * op_t) := λ n op, Some (n + 1, set_out (Some big_doc) op).
Definition counting_dispatch : dispatch (W := Z) := Dispatch false [] [] (Some counting).

Lemma counting_plain : plain counting_dispatch.
Proof.
  split; [done|]. split; [done|]. intros svc [= <-] w op. by eexists _, _.
Qed.
End DispatchSample.

Section Witnesses.
Import DispatchSample.
#[local] Existing Instance TreeXml.

Lemma tree_attr_value (n : xnode) (a : xattr) :
  a ∈ x_props n → is_Some (@xmlGetProp TreeXml n (xa_ns a) (xa_name a)).
Proof.
  intros Ha. cbn. unfold tree_prop.
  destruct (filter _ (x_props n)) as [|x l] eqn:E; [|done]. exfalso.
  assert (a ∈ @nil xattr) as []%elem_of_nil. rewrite <- E. apply list_elem_of_filter.
  split; [|done]. rewrite str_eqb_refl. unfold ns_matches. destruct (xa_ns a); [apply str_eqb_refl|done].
Qed.

Lemma message_ids_checked_witness :
  ∃ ids acc,
    run_ids (LX := TreeXml) sample_prefix "uuid:1" [op_of (doc_with [] []); op_of (doc_with [] [])] [] []
      = Some (ids, acc) ∧ acc = ["uuid:42"] ∧ spaced acc.
Proof.
  destruct (message_ids_checked (LX := TreeXml) sample_prefix "uuid:1"
    [op_of (doc_with [] []); op_of (doc_with [] [])] (op_of (doc_with [] []))) as (ids & acc & Hr & Hs & _).
  exists ids, acc. split; [exact Hr|]. split; [|exact Hs].
  assert (snd <$> run_ids (LX := TreeXml) sample_prefix "uuid:1"
    [op_of (doc_with [] []); op_of (doc_with [] [])] [] [] = Some ["uuid:42"]) as H
    by (vm_compute; reflexivity).
  rewrite Hr in H. injection H as H. exact H.
Defined.

Lemma mustunderstand_spec_witness :
  let h := el XML_NS_SOAP_1_2 SOAP_HEADER [mu_header XML_NS_ADDRESSING WSA_TO; mu_header "urn:x" "Unknown"] in
  let op := op_of (el XML_NS_SOAP_1_2 SOAP_ENVELOPE [h]) in
  match @validate_mustunderstand_headers TreeXml op with
  | Some c => ∃ l1 l2, element_children (x_children h) = l1 ++ c :: l2
  | None => False
  end.
Proof.
  intros h op.
  pose proof (@mustunderstand_spec TreeXml op h ltac:(vm_compute; reflexivity)) as H.
  destruct (@validate_mustunderstand_headers TreeXml op) as [c|] eqn:E.
  - destruct H as (l1 & l2 & Hl & _). exists l1, l2. exact Hl.
  - vm_compute in E. discriminate E.
Defined.

Lemma duplicate_selectors_spec_witness :
  ∃ op', check_for_duplicate_selectors (T := hstore) (LX := TreeXml) sample_prefix "uuid:1"
           (op_of (doc_with [twice] [])) = Some (true, op') ∧
    ∃ doc, out_doc op' = Some doc ∧ wsman_is_fault_envelope (Some doc) = true.
Proof.
  destruct (duplicate_selectors_spec (T := hstore) (LX := TreeXml) sample_prefix "uuid:1"
    (op_of (doc_with [twice] [])) twice ltac:(vm_compute; reflexivity) ltac:(vm_compute; reflexivity))
    as (op' & Hc & _ & Hf).
  exists op'.
  assert (¬ NoDup (omap (unqualified_name (LX := TreeXml)) (selectors (Some twice)))) as Hn.
  { apply (bool_decide_unpack _). vm_compute. exact I. }
  split; [|apply Hf; [exact Hn|eexists; reflexivity]].
  rewrite Hc, bool_decide_true by exact Hn. reflexivity.
Defined.

Lemma control_headers_limit_witness :
  ∃ op', @validate_control_headers TreeXml sample_prefix decimal_round "uuid:1" (op_of unlimited)
    = Some (true, op') ∧ @check_envelope_size TreeXml big_doc (op_maxsize op') "UTF-8" = false.
Proof.
  destruct (@validate_control_headers TreeXml sample_prefix decimal_round "uuid:1" (op_of unlimited))
    as [[b op']|] eqn:E; [|vm_compute in E; discriminate E].
  assert (b = true) as Hb.
  { apply (f_equal (fmap fst)) in E. vm_compute in E. injection E as <-. reflexivity. }
  subst b. exists op'. split; [reflexivity|].
  exact (@control_headers_limit TreeXml sample_prefix decimal_round "uuid:1" (op_of unlimited) op'
           big_doc "UTF-8" eq_refl E).
Defined.

Definition end_to_enum : xnode :=
  el XML_NS_ENUMERATION WSENUM_ENUMERATE
    [el XML_NS_ENUMERATION WSENUM_END_TO [];
     XElement (Some XML_NS_WS_MAN) WSM_FILTER [XAttr None WSM_DIALECT WSM_WQL_FILTER_DIALECT] []].

Lemma end_to_with_filter_accepted_witness :
  ∃ op', @check_unsupported_features TreeXml sample_prefix "uuid:1" (op_of (doc_with [] [end_to_enum]))
    = Some (false, op').
Proof.
  exact (@end_to_with_filter_accepted TreeXml TreeXmlLaws sample_prefix "uuid:1"
    (op_of (doc_with [] [end_to_enum])) (el XML_NS_SOAP_1_2 SOAP_BODY [end_to_enum]) end_to_enum
    (el XML_NS_ENUMERATION WSENUM_END_TO [])
    (Some (XElement (Some XML_NS_WS_MAN) WSM_FILTER [XAttr None WSM_DIALECT WSM_WQL_FILTER_DIALECT] []))
    eq_refl eq_refl eq_refl eq_refl eq_refl eq_refl eq_refl eq_refl eq_refl).
Defined.

Lemma few_selectors_sample : few_selectors (op_of (doc_with [] [])).
Proof. intros set Hset. vm_compute in Hset. discriminate Hset. Qed.

Lemma every_message_answered_witness :
  ∃ msg' s' w',
    dispatch_inbound_call (T := hstore) (LX := TreeXml) sample_prefix decimal_round "uuid:1"
      (Some (λ _, Some counting_dispatch)) (Some (doc_with [] []))
      (Msg "UTF-8" (Status WSMAN_RC_OK WSMAN_DETAIL_OK None) WSMAN_STATUS_OK None)
      (server_soap (LX := TreeXml) sample_prefix "uuid:1" "UTF-8" []) 0 = Some (msg', s', w') ∧
    (m_response msg' = None → st_code (m_status msg') = SOAP_FAULT_VERSION_MISMATCH).
Proof.
  refine (every_message_answered (T := hstore) (LX := TreeXml) sample_prefix decimal_round "uuid:1"
    decimal_round_suffix tree_attr_value (Some (λ _, Some counting_dispatch)) (Some (doc_with [] []))
    "UTF-8" [] 0 "UTF-8" _ _).
  - intros f doc d [= <-] [= <-]. exact counting_plain.
  - split; [reflexivity|exact few_selectors_sample].
Defined.

Lemma service_guarded_witness :
  ∃ rejected op' ids' msg' w',
    inbound_checks (T := hstore) (LX := TreeXml) sample_prefix decimal_round "uuid:1"
      (op_of (doc_with [] [])) ["uuid:42"] = Some (rejected, op', ids') ∧
    process_inbound_operation (T := hstore) (LX := TreeXml) sample_prefix decimal_round "uuid:1"
      counting_dispatch (op_of (doc_with [] []))
      (Msg "UTF-8" (Status WSMAN_RC_OK WSMAN_DETAIL_OK None) WSMAN_STATUS_OK None)
      (server_soap (LX := TreeXml) sample_prefix "uuid:1" "UTF-8" ["uuid:42"]) 0
      = Some (msg', server_soap (LX := TreeXml) sample_prefix "uuid:1" "UTF-8" ids', w') ∧
    in_doc op' = Some (doc_with [] []) ∧
    if rejected : bool then w' = 0 ∧ is_Some (out_doc op') ∧ m_response msg' = out_doc op'
    else ∃ op2, counting 0 op' = Some (w', op2).
Proof.
  exact (service_guarded (T := hstore) (LX := TreeXml) sample_prefix decimal_round "uuid:1"
    decimal_round_suffix tree_attr_value counting_dispatch counting (doc_with [] [])
    (Msg "UTF-8" (Status WSMAN_RC_OK WSMAN_DETAIL_OK None) WSMAN_STATUS_OK None) "UTF-8" ["uuid:42"] 0
    counting_plain eq_refl few_selectors_sample).
Defined.

Lemma oversized_response_replaced_witness :
  let op := Op (Some big_doc) (Some big_doc) 10 0 in
  ∃ op' doc, @outbound_control_header_filter TreeXml sample_prefix "uuid:1" "UTF-8" op = Some (0, op') ∧
    out_doc op' = Some doc ∧
    (@check_envelope_size TreeXml doc (op_maxsize op) "UTF-8" = false ∧ out_doc op = Some doc ∨
     wsman_is_fault_envelope (Some doc) = true ∧
       ∃ big, out_doc op = Some big ∧ op_maxsize op < wrap32 (@xmlDocDumpLen TreeXml big "UTF-8")).
Proof.
  exact (@oversized_response_replaced TreeXml TreeXmlLaws sample_prefix "uuid:1"
    (Op (Some big_doc) (Some big_doc) 10 0) "UTF-8" (ex_intro _ big_doc eq_refl)
    (ex_intro _ big_doc eq_refl)).
Defined.
End Witnesses.
