(* ===== verification/Routing.v ===== *)
(** * Finding the endpoint of a request ([wsman-dispatcher.c])

    [wsman_dispatcher] chooses the plugin interface and the endpoint for a
    request.  Endpoints are compared by address in the code; here an endpoint
    is its position, the index of the interface and the index in its
    array. *)

From S2P Require Import Prelude.
From S2P Require Import CString.
From S2P Require Import Names.
From S2P Require Import Xml.
From S2P Require Import Faults.
From S2P Require Import Envelope.

#[local] Open Scope string_scope.
#[local] Open Scope list_scope.
#[local] Open Scope Z_scope.

(** [endPoints] holds the [inAction] of the entries before the terminator. *)
Record WsDispatchInterfaceInfo := Interface {
  wsmanResourceUri : option string;
  namespaces : option (list (option string));
  endPoints : list (option string);
}.

Definition ep_pos : Type := nat * nat.

Section Routing.
Context `{LX : Libxml2}.
(** Dispatch entries. *)
Context {D : Type}.

Record WsManDispatcherInfo := DispatcherInfo {
  interfaces : list WsDispatchInterfaceInfo;
  ep_map : list (ep_pos * D);
}.

Fixpoint match_ns_loop (l : list (option string)) (uri : string) : option string :=
  match l with
  | [] => None
  | Some ns :: l' =>
      match strstr uri ns with Some _ => Some ns | None => match_ns_loop l' uri end
  | None :: l' => match_ns_loop l' uri
  end.

Definition wsman_dispatcher_match_ns (r : WsDispatchInterfaceInfo) (uri : option string)
  : option string :=
  match namespaces r, uri with
  | Some l, Some uri => match_ns_loop l uri
  | _, _ => None
  end.

(** The interface of a resource, its index and the namespace it was found by,
    if it was found by one. *)
Fixpoint find_interface (i : nat) (l : list WsDispatchInterfaceInfo) (uri : string)
  : option (nat * WsDispatchInterfaceInfo * option string) :=
  match l with
  | [] => None
  | ifc :: l' =>
      match wsmanResourceUri ifc with
      | None =>
          match wsman_dispatcher_match_ns ifc (Some uri) with
          | Some ns => Some (i, ifc, Some ns)
          | None => find_interface (S i) l' uri
          end
      | Some u => if str_eqb uri u then Some (i, ifc, None) else find_interface (S i) l' uri
      end
  end.

Fixpoint find_identify (i : nat) (l : list WsDispatchInterfaceInfo)
  : option (nat * WsDispatchInterfaceInfo) :=
  match l with
  | [] => None
  | ifc :: l' =>
      match wsman_dispatcher_match_ns ifc (Some XML_NS_WSMAN_ID) with
      | Some _ => Some (i, ifc)
      | None => find_identify (S i) l'
      end
  end.

(** An action in the namespace of the interface is a custom action, compared
    without the namespace. *)
Definition strip_action (ns : option string) (action : string) : string :=
  match ns with
  | None => action
  | Some ns =>
      if str_prefix ns action then
        match str_drop (String.length ns) action with
        | Some (String a rest) => if code a =? 47 then rest else action
        | _ => action
        end
      else action
  end.

(** [ep] and [ep_custom] after the loop over the endpoints. *)
Fixpoint endpoint_loop (j : nat) (l : list (option string)) (ptr : string) (custom : option nat)
  : option nat * option nat :=
  match l with
  | [] => (None, custom)
  | Some a :: l' => if str_eqb ptr a then (Some j, custom) else endpoint_loop (S j) l' ptr custom
  | None :: l' => endpoint_loop (S j) l' ptr (Some j)
  end.

Fixpoint map_loop (l : list (ep_pos * D)) (ep : ep_pos) : option D :=
  match l with
  | [] => None
  | (e, d) :: l' => if decide (e = ep) then Some d else map_loop l' ep
  end.

(** The subscriptions in memory, with their resource, and the repository they
    are stored in. *)
Context (subscriptions : list (string * string)) (get_subscription : string → option xnode).

Fixpoint find_subscription (l : list (string * string)) (id : string) : option string :=
  match l with
  | [] => None
  | (subsId, uri) :: l' => if str_eqb id subsId then Some uri else find_subscription l' id
  end.

(** The resource of an event request: [uuid+5] skips the prefix of the
    identifier, whatever its length. *)
Definition event_uri (doc : xnode) (uri : option string) : option (option string) :=
  if wsman_is_event_related_request (Some doc) then
    match ws_xml_get_node_text (child (ws_xml_get_soap_header (Some doc)) XML_NS_EVENTING
                                  WSEVENT_IDENTIFIER) with
    | None => Some uri
    | Some uuid =>
        id ← str_drop 5 uuid;
        match find_subscription subscriptions id with
        | Some u => Some (Some u)
        | None =>
            Some (match get_subscription id with
                  | None => uri
                  | Some notdoc =>
                      match child (ws_xml_get_soap_header (Some notdoc)) XML_NS_WS_MAN WSM_RESOURCE_URI with
                      | None => uri
                      | n => ws_xml_get_node_text n
                      end
                  end)
        end
    end
  else Some uri.

Definition wsman_dispatcher (info : WsManDispatcherInfo) (doc : xnode) : option (option D) :=
  let action := wsman_get_action None (Some doc) in
  event_uri doc (wsman_get_resource_uri None (Some doc)) ≫= λ uri : option string,
  if wsman_is_identify_request (Some doc) then
    Some (match find_identify 0 (interfaces info) with
          | Some (i, _) => map_loop (ep_map info) (i, 0%nat)
          | None => None
          end)
  else
    match uri, action with
    | Some uri, Some action =>
        Some (match find_interface 0 (interfaces info) uri with
              | Some (i, r, ns) =>
                  match endpoint_loop 0 (endPoints r) (strip_action ns action) None with
                  | (Some j, _) => map_loop (ep_map info) (i, j)
                  | (None, Some j) => map_loop (ep_map info) (i, j)
                  | (None, None) => None
                  end
              | None => None
              end)
    | _, _ => Some None
    end.

(** The Release endpoint of the resource of a request, for the contexts that
    Enumerate creates. *)
Definition wsman_get_release_endpoint (info : WsManDispatcherInfo) (doc : xnode) : option ep_pos :=
  match wsman_get_resource_uri None (Some doc) with
  | None => None
  | Some uri =>
      match find_interface 0 (interfaces info) uri with
      | None => None
      | Some (i, r, ns) =>
          match (endpoint_loop 0 (endPoints r) (strip_action ns ENUM_ACTION_RELEASE) None).1 with
          | Some j => Some (i, j)
          | None => None
          end
      end
  end.

(** ** Theorems *)

(** An interface serves a resource it names, or one in a namespace it lists
    if it names none. *)
Definition serves (uri : string) (ifc : WsDispatchInterfaceInfo) : Prop :=
  match wsmanResourceUri ifc with
  | Some u => uri = u
  | None => ∃ l ns, namespaces ifc = Some l ∧ Some ns ∈ l ∧ ∃ pre post, uri = pre +:+ ns +:+ post
  end.

Lemma match_ns_loop_Some l uri ns :
  match_ns_loop l uri = Some ns → Some ns ∈ l ∧ is_Some (strstr uri ns).
Proof.
  induction l as [|[n|] l IH]; cbn; [done| |set_solver].
  destruct (strstr uri n) eqn:E; [|set_solver]. intros [= <-]. rewrite E. split; [by left|done].
Qed.

Lemma match_ns_loop_None l uri ns : match_ns_loop l uri = None → Some ns ∈ l → strstr uri ns = None.
Proof.
  induction l as [|[n|] l IH]; cbn.
  - intros _ []%elem_of_nil.
  - destruct (strstr uri n) eqn:E; [done|]. intros H [[= ->]|Hin]%elem_of_cons; [done|by apply IH].
  - intros H [[=]|Hin]%elem_of_cons. by apply IH.
Qed.

Lemma match_ns_serves ifc uri :
  wsmanResourceUri ifc = None →
  is_Some (wsman_dispatcher_match_ns ifc (Some uri)) ↔ serves uri ifc.
Proof.
  intros Hu. unfold serves, wsman_dispatcher_match_ns. rewrite Hu.
  destruct (namespaces ifc) as [l|]; [|split; [by intros []|naive_solver]]. split.
  - intros [ns Hn]. apply match_ns_loop_Some in Hn as [Hin [r Hr]].
    apply strstr_spec in Hr as (pre & post & -> & _). eauto 10.
  - intros (l' & ns & [= <-] & Hin & pre & post & ->).
    destruct (match_ns_loop l _) as [n|] eqn:E; [done|].
    pose proof (match_ns_loop_None _ _ _ E Hin) as Hn. destruct (strstr_found pre ns post). congruence.
Qed.

Lemma find_interface_spec uri l : ∀ i,
  match find_interface i l uri with
  | Some (k, ifc, ns) => ∃ n, k = (i + n)%nat ∧ l !! n = Some ifc ∧ serves uri ifc ∧
      (∀ n' ifc', (n' < n)%nat → l !! n' = Some ifc' → ¬ serves uri ifc') ∧
      ns = match wsmanResourceUri ifc with
           | Some _ => None
           | None => wsman_dispatcher_match_ns ifc (Some uri)
           end
  | None => ∀ ifc, ifc ∈ l → ¬ serves uri ifc
  end.
Proof.
  induction l as [|ifc l IH]; intros i; cbn [find_interface]; [by intros ? []%elem_of_nil|].
  assert (Hnext : ¬ serves uri ifc → match find_interface (S i) l uri with
    | Some (k, ifc', ns) => ∃ n, k = (i + n)%nat ∧ (ifc :: l) !! n = Some ifc' ∧ serves uri ifc' ∧
        (∀ n' ifc'', (n' < n)%nat → (ifc :: l) !! n' = Some ifc'' → ¬ serves uri ifc'') ∧
        ns = match wsmanResourceUri ifc' with
             | Some _ => None
             | None => wsman_dispatcher_match_ns ifc' (Some uri)
             end
    | None => ∀ ifc', ifc' ∈ ifc :: l → ¬ serves uri ifc'
    end).
  { intros Hn. specialize (IH (S i)). destruct (find_interface (S i) l uri) as [[[k ifc'] ns]|].
    - destruct IH as (n & -> & Hl & Hs & Hb & Hns). exists (S n). split; [lia|].
      split_and!; [done|done| |done]. intros [|n'] ifc'' Hlt Hl'; [by injection Hl' as <-|].
      apply (Hb n'); [lia|done].
    - intros ifc' [->|Hin]%elem_of_cons; [done|by apply IH]. }
  destruct (wsmanResourceUri ifc) as [u|] eqn:Eu.
  - destruct (str_eqb_spec uri u) as [->|Hne].
    + exists 0%nat. rewrite Eu. split; [lia|]. split_and!; [done|by unfold serves; rewrite Eu| |done].
      intros n' ? ?. lia.
    + apply Hnext. unfold serves. by rewrite Eu.
  - destruct (wsman_dispatcher_match_ns ifc (Some uri)) as [ns|] eqn:En.
    + exists 0%nat. rewrite Eu. split; [lia|]. split_and!; [done|by apply match_ns_serves; rewrite ?En| |done].
      intros n' ? ?. lia.
    + apply Hnext. rewrite <- match_ns_serves by done. rewrite En. by intros [].
Qed.

(** The endpoint for an action: the first that has it, or else the last that
    has no action. *)
Definition endpoint_for (l : list (option string)) (ptr : string) (j : nat) : Prop :=
  (l !! j = Some (Some ptr) ∧ ∀ j', (j' < j)%nat → l !! j' ≠ Some (Some ptr)) ∨
  (Some ptr ∉ l ∧ l !! j = Some None ∧ ∀ j', (j < j')%nat → l !! j' ≠ Some None).

Lemma endpoint_loop_spec ptr l : ∀ i custom,
  match endpoint_loop i l ptr custom with
  | (Some j, _) => ∃ n, j = (i + n)%nat ∧ l !! n = Some (Some ptr) ∧
      ∀ n', (n' < n)%nat → l !! n' ≠ Some (Some ptr)
  | (None, c) => Some ptr ∉ l ∧
      ((c = custom ∧ None ∉ l) ∨
       ∃ n, c = Some (i + n)%nat ∧ l !! n = Some None ∧ ∀ n', (n < n')%nat → l !! n' ≠ Some None)
  end.
Proof.
  induction l as [|[a|] l IH]; intros i custom; cbn [endpoint_loop].
  - split; [apply not_elem_of_nil|]. left. split; [done|apply not_elem_of_nil].
  - destruct (str_eqb_spec ptr a) as [->|Hne].
    + exists 0%nat. split; [lia|]. split; [done|]. lia.
    + specialize (IH (S i) custom). destruct (endpoint_loop (S i) l ptr custom) as [[j|] c].
      * destruct IH as (n & -> & Hl & Hb). exists (S n). split; [lia|]. split; [done|].
        intros [|n'] Hlt; cbn; [congruence|]. apply Hb. lia.
      * destruct IH as [Hn Hc]. split; [set_solver|].
        destruct Hc as [[-> Hnn]|(n & -> & Hl & Hb)]; [left; set_solver|]. right. exists (S n).
        split; [f_equal; lia|]. split; [done|]. intros [|n'] Hlt; cbn; [lia|]. apply Hb. lia.
  - specialize (IH (S i) (Some i)). destruct (endpoint_loop (S i) l ptr (Some i)) as [[j|] c].
    + destruct IH as (n & -> & Hl & Hb). exists (S n). split; [lia|]. split; [done|].
      intros [|n'] Hlt; cbn; [congruence|]. apply Hb. lia.
    + destruct IH as [Hn Hc]. split; [set_solver|]. right.
      destruct Hc as [[-> Hnn]|(n & -> & Hl & Hb)].
      * exists 0%nat. split; [f_equal; lia|]. split; [done|]. intros [|n'] Hlt; cbn; [lia|].
        intros Hl. by apply list_elem_of_lookup_2 in Hl.
      * exists (S n). split; [f_equal; lia|]. split; [done|]. intros [|n'] Hlt; cbn; [lia|]. apply Hb. lia.
Qed.


(** An Unsubscribe, Renew or event Pull whose Identifier is shorter than
    the five characters the dispatcher skips makes it read past the end of the
    string. *)
Theorem short_identifier_overread info doc uuid :
  wsman_is_event_related_request (Some doc) = true →
  ws_xml_get_node_text (child (ws_xml_get_soap_header (Some doc)) XML_NS_EVENTING WSEVENT_IDENTIFIER)
    = Some uuid →
  (String.length uuid < 5)%nat →
  wsman_dispatcher info doc = None.
Proof.
  intros Hev Hid Hlen. unfold wsman_dispatcher, event_uri. rewrite Hev, Hid.
  assert (∀ s n, (String.length s < n)%nat → str_drop n s = None) as Hdrop.
  { induction s as [|a s IH]; intros [|n] Hn; cbn in *; try lia; [done|]. apply IH. lia. }
  by rewrite Hdrop.
Qed.
End Routing.

(** ** Samples *)

Module RoutingSample.
Definition cim : WsDispatchInterfaceInfo :=
  Interface None (Some [Some "http://schemas.dmtf.org/wbem/wscim"]) [Some "Get"; None; Some "Put"].
Definition disk : WsDispatchInterfaceInfo := Interface (Some "http://example/Disk") None [Some "http://example/Get"].

Definition info : WsManDispatcherInfo (D := string) :=
  DispatcherInfo [cim; disk] [((0, 0)%nat, "cim get"); ((1, 0)%nat, "disk get")].

Definition renew (id : string) : xnode :=
  el XML_NS_SOAP_1_2 SOAP_ENVELOPE
    [el XML_NS_SOAP_1_2 SOAP_HEADER
       [txt XML_NS_ADDRESSING WSA_ACTION EVT_ACTION_RENEW; txt XML_NS_EVENTING WSEVENT_IDENTIFIER id];
     el XML_NS_SOAP_1_2 SOAP_BODY []].
End RoutingSample.

Example routed_to_disk :
  @wsman_dispatcher TreeXml string [] (λ _, None) RoutingSample.info sample_request = Some (Some "disk get").
Proof. vm_compute. reflexivity. Qed.


Lemma short_identifier_overread_witness :
  @wsman_dispatcher TreeXml string [] (λ _, None) RoutingSample.info (RoutingSample.renew "id") = None.
Proof.
  refine (@short_identifier_overread TreeXml string [] (λ _, None) RoutingSample.info
    (RoutingSample.renew "id") "id" _ _ _); [vm_compute; reflexivity..|cbn; lia].
Defined.
