(* ===== verification/Enumeration.v ===== *)
(** * Enumeration contexts ([wsman-soap.c])

    The server side of WS-Enumeration: contexts are created by Enumerate, kept
    in the table [enuminfos] of the SOAP context, worked on by Pull and
    Release under the in-work flag, and collected by the timeouts manager.

    A context is an object in a heap, and the table maps its identifier to its
    address, because the code keeps using the pointer outside the lock: a
    freed object is an address that is not in the heap any more, and [None] is
    the result of touching one.  The table is any [Store].  Allocation is
    assumed to succeed except where an argument says otherwise. *)

From S2P Require Import Prelude.
From S2P Require Import CString.
From S2P Require Import Names.
From S2P Require Import Xml.
From S2P Require Import Faults.
From S2P Require Import Duration.
From S2P Require Import Store.
From S2P Require Import Requests.

#[local] Open Scope string_scope.
#[local] Open Scope list_scope.
#[local] Open Scope Z_scope.
#[local] Open Scope ow_scope.

Definition WSMAN_ENUMINFO_INWORK_FLAG : Z := 0x000010.

(** The parts of [WsmanMessage] the enumeration code reads. *)
Record WsmanMessage := Message {
  charset : string;
  username : option string;
  password : option string;
}.

Record WsEnumerateInfo := EnumInfo {
  e_flags : Z;
  enumId : string;
  timeStamp : Z;
  expires : Z;
  totalItems : Z;
  e_maxsize : Z;
  e_index : Z;
  pullResultPtr : option xnode;
  auth_username : option string;
  auth_password : option string;
  releaseproc : bool;
  epr_to : string;
  epr_uri : string;
  encoding : string;
}.

Definition set_flags (f : Z) (e : WsEnumerateInfo) : WsEnumerateInfo :=
  EnumInfo f (enumId e) (timeStamp e) (expires e) (totalItems e) (e_maxsize e) (e_index e)
    (pullResultPtr e) (auth_username e) (auth_password e) (releaseproc e) (epr_to e) (epr_uri e)
    (encoding e).
Definition set_timeStamp (t : Z) (e : WsEnumerateInfo) : WsEnumerateInfo :=
  EnumInfo (e_flags e) (enumId e) t (expires e) (totalItems e) (e_maxsize e) (e_index e)
    (pullResultPtr e) (auth_username e) (auth_password e) (releaseproc e) (epr_to e) (epr_uri e)
    (encoding e).
Definition incr_index (e : WsEnumerateInfo) : WsEnumerateInfo :=
  EnumInfo (e_flags e) (enumId e) (timeStamp e) (expires e) (totalItems e) (e_maxsize e)
    (wrap32 (e_index e + 1)) (pullResultPtr e) (auth_username e) (auth_password e) (releaseproc e)
    (epr_to e) (epr_uri e) (encoding e).

Definition in_work (e : WsEnumerateInfo) : bool :=
  negb (Z.land (e_flags e) WSMAN_ENUMINFO_INWORK_FLAG =? 0).

(** What a stub answers: the enumeration elements it adds to a response, on
    top of the document [r_doc] the endpoint prepared, if it did. *)
Record enum_response := EnumResponse {
  r_doc : option xnode;
  (** The EnumerationContext element: absent, or present with a text. *)
  r_context : option (option string);
  r_items : bool;
  r_end_of_sequence : bool;
  r_total : option Z;
}.

Inductive response :=
  | RFault (f : fault_doc)
  | REnum (r : enum_response).

Definition status_init : WsmanStatus := Status WSMAN_RC_OK WSMAN_DETAIL_OK None.

Section Enumeration.
Context {T : Type → Type} {ST : Store T} {LX : Libxml2}.
Context (strtod_round : string → Z * string) (mktime : tm → Z).

(** The heap of contexts and the table of the SOAP context. *)
Record ecntx := Ecntx {
  e_heap : gmap positive WsEnumerateInfo;
  enuminfos : T positive;
  enumIdleTimeout : Z;
}.

Definition set_heap (h : gmap positive WsEnumerateInfo) (c : ecntx) : ecntx :=
  Ecntx h (enuminfos c) (enumIdleTimeout c).
Definition set_enuminfos (t : T positive) (c : ecntx) : ecntx :=
  Ecntx (e_heap c) t (enumIdleTimeout c).

(** [f(p)] applied to the object at [p]. *)
Definition update_info (p : positive) (f : WsEnumerateInfo → WsEnumerateInfo) (c : ecntx)
  : option ecntx :=
  e ← e_heap c !! p; Some (set_heap (<[p := f e]> (e_heap c)) c).

(** ** Primitives, each atomic under the lock of the SOAP context *)

Definition remove_locked_enuminfo (p : positive) (c : ecntx) : option ecntx :=
  e ← e_heap c !! p;
  if negb (in_work e) then Some c
  else t ← store_del (enuminfos c) (enumId e); Some (set_enuminfos t c).

Definition unlock_enuminfo (now : Z) (p : positive) (c : ecntx) : option ecntx :=
  e ← e_heap c !! p;
  if negb (in_work e) then Some c
  else
    update_info p (λ e, set_timeStamp now
      (set_flags (Z.land (e_flags e) (Z.lnot WSMAN_ENUMINFO_INWORK_FLAG)) e)) c.

(** [destroy_enuminfo] frees the object. *)
Definition destroy_enuminfo (p : positive) (c : ecntx) : option ecntx :=
  _ ← e_heap c !! p; Some (set_heap (delete p (e_heap c)) c).

(** [create_context_entry] fails only for want of memory; the result is 0 or
    1. *)
Definition insert_enum_info (entry_ok : bool) (now : Z) (p : positive) (c : ecntx)
  : option (ecntx * Z) :=
  e ← e_heap c !! p;
  c ← update_info p (set_timeStamp now) c;
  if entry_ok then
    t ← store_add (enuminfos c) (enumId e) p; Some (set_enuminfos t c, 0)
  else Some (c, 1).

(** ** Reading requests *)

Definition header_text (doc : xnode) (ns name : string) : option string :=
  ws_xml_get_node_text (ws_xml_get_child (ws_xml_get_soap_header (Some doc)) 0 (Some ns) (Some name)).

Definition wsman_verify_enum_info (msg : WsmanMessage) (e : WsEnumerateInfo) (doc : xnode)
    (status : WsmanStatus) : option (bool * WsmanStatus) :=
  match header_text doc XML_NS_ADDRESSING WSA_TO, header_text doc XML_NS_WS_MAN WSM_RESOURCE_URI with
  | Some to, Some uri =>
      if negb (str_eqb (epr_to e) to) || negb (str_eqb (epr_uri e) uri) then
        Some (false, Status WSA_MESSAGE_INFORMATION_HEADER_REQUIRED WSMAN_DETAIL_OK (st_msg status))
      else
        match username msg, password msg with
        | Some u, Some p =>
            ueq ← strcmp_ptr u (auth_username e);
            if negb ueq then
              peq ← strcmp_ptr p (auth_password e);
              if negb peq then Some (false, Status WSMAN_ACCESS_DENIED WSMAN_DETAIL_OK (st_msg status))
              else Some (true, status)
            else Some (true, status)
        | _, _ => Some (true, status)
        end
  | _, _ => Some (false, Status WSMAN_INTERNAL_ERROR WSMAN_DETAIL_OK (st_msg status))
  end.

Definition set_code (c : WsmanFaultCodeType) (s : WsmanStatus) : WsmanStatus :=
  Status c (st_detail s) (st_msg s).

(** The identifier in the body of a Pull or Release request. *)
Definition request_context (action : string) (doc : xnode) : option string :=
  ws_xml_get_node_text
    (ws_xml_get_child
       (ws_xml_get_child (ws_xml_get_soap_body (Some doc)) 0 (Some XML_NS_ENUMERATION) (Some action))
       0 (Some XML_NS_ENUMERATION) (Some WSENUM_ENUMERATION_CONTEXT)).

Definition get_locked_enuminfo (msg : WsmanMessage) (doc : xnode) (action : string)
    (status : WsmanStatus) (c : ecntx) : option (ecntx * option positive * WsmanStatus) :=
  match request_context action doc with
  | None => Some (c, None, set_code WSEN_INVALID_ENUMERATION_CONTEXT status)
  | Some id =>
      hn ← store_find (enuminfos c) id;
      match hn with
      | None => Some (c, None, set_code WSEN_INVALID_ENUMERATION_CONTEXT status)
      | Some p =>
          e ← e_heap c !! p;
          if negb (str_eqb (enumId e) id) then Some (c, None, set_code WSMAN_INTERNAL_ERROR status)
          else
            '(ok, status) ← wsman_verify_enum_info msg e doc status;
            '(c, status) ←
              (if ok : bool then
                 if in_work e then Some (c, set_code WSMAN_CONCURRENCY status)
                 else
                   c ← update_info p
                         (λ e, set_flags (Z.lor (e_flags e) WSMAN_ENUMINFO_INWORK_FLAG) e) c;
                   Some (c, status)
               else Some (c, status));
            Some (c, if decide (st_code status = WSMAN_RC_OK) then Some p else None, status)
      end
  end.

(** ** Creating a context *)

(** The result is the fault document, if one could be generated, and the new
    context.  [release] tells whether the resource has a Release endpoint,
    [uuid] is the identifier [generate_uuid] made up, [alloc] whether the
    object could be allocated. *)
Definition create_enum_info (alloc : bool) (now isdst : Z) (uuid : string) (release : bool)
    (msg : WsmanMessage) (maxsize : Z) (indoc : xnode)
  : option (option fault_doc * option WsEnumerateInfo) :=
  let fault code detail :=
    f ← wsman_generate_fault code detail None; Some (f, None) in
  if negb alloc then fault WSMAN_INTERNAL_ERROR WSMAN_DETAIL_OK
  else
    let body := ws_xml_get_soap_body (Some indoc) in
    let enumnode := ws_xml_get_child body 0 (Some XML_NS_ENUMERATION) (Some WSENUM_ENUMERATE) in
    let maxsize := wrap32 maxsize in
    let maxsize :=
      if maxsize =? 0 then
        wrap32 (ws_xml_get_node_ulong
          (ws_xml_get_child enumnode 0 (Some XML_NS_ENUMERATION) (Some WSENUM_MAX_CHARACTERS)))
      else maxsize in
    match header_text indoc XML_NS_ADDRESSING WSA_TO,
          header_text indoc XML_NS_WS_MAN WSM_RESOURCE_URI with
    | Some to, Some uri =>
        let node := ws_xml_get_child enumnode 0 (Some XML_NS_ENUMERATION) (Some WSENUM_EXPIRES) in
        '(exp, fault_code) ←
          (match node with
           | None => Some (0, WSMAN_RC_OK)
           | Some _ => wsman_set_expiretime strtod_round mktime now isdst (ws_xml_get_node_text node) 0
           end);
        if decide (fault_code ≠ WSMAN_RC_OK) then fault fault_code WSMAN_DETAIL_EXPIRATION_TIME
        else
          let auth := match username msg with
                      | Some u => (Some u, password msg)
                      | None => (None, None)
                      end in
          Some (None, Some (EnumInfo 0 uuid 0 exp 0 maxsize 0 None auth.1 auth.2 release to uri
                              (charset msg)))
    | _, _ => fault WSMAN_INTERNAL_ERROR WSMAN_DETAIL_OK
    end.

Definition wsman_set_estimated_total (in_doc : xnode) (e : WsEnumerateInfo) : option Z :=
  match ws_xml_get_child (ws_xml_get_soap_header (Some in_doc)) 0 (Some XML_NS_WS_MAN)
          (Some WSM_REQUEST_TOTAL) with
  | Some _ => Some (totalItems e)
  | None => None
  end.

(** ** The stubs

    An endpoint is a function on the context it is given.  The results are the
    return value, the response document, if any, and the new state. *)

Definition endpoint : Type := WsEnumerateInfo → Z * WsEnumerateInfo * WsmanStatus.

Definition fault_response (code : WsmanFaultCodeType) (detail : WsmanFaultDetailType)
    (msg : option string) : option (option response) :=
  wsman_generate_fault code detail msg ≫= λ f : option fault_doc, Some (RFault <$> f).

(** The quota of contexts: [max_threads] and [max_connections] are the
    daemon's options, 0 when it is not linked. *)
Definition quota_exceeded (max_threads max_connections : Z) (c : ecntx) : bool :=
  negb (max_threads =? 0) && (wrap64 (max_threads * max_connections) <=? store_count (enuminfos c)).

(** The end of the enumerate stub, once the endpoint has filled the context:
    an optimised enumeration that is already complete is not kept. *)
Definition enumerate_finish (entry_ok : bool) (now : Z) (indoc : xnode) (e : WsEnumerateInfo)
    (c : ecntx) : option (option response * ecntx) :=
  let e := match pullResultPtr e with Some _ => incr_index e | None => e end in
  let total := wsman_set_estimated_total indoc e in
  let resp_ok :=
    match pullResultPtr e with
    | None => true
    | Some d =>
        bool_decide (is_Some (ws_xml_get_child (ws_xml_get_soap_body (Some d)) 0
          (Some XML_NS_ENUMERATION) (Some WSENUM_ENUMERATE_RESP)))
    end in
  if negb resp_ok then Some (Some (REnum (EnumResponse (pullResultPtr e) None false false total)), c)
  else if bool_decide (Z.land (e_flags e) WSMAN_ENUMINFO_OPT = WSMAN_ENUMINFO_OPT) &&
          ((totalItems e =? 0) || (e_index e =? totalItems e))
  then Some (Some (REnum (EnumResponse (pullResultPtr e) (Some None) false true total)), c)
  else
    let p := fresh (dom (e_heap c)) in
    '(c, _) ← insert_enum_info entry_ok now p (set_heap (<[p := e]> (e_heap c)) c);
    Some (Some (REnum (EnumResponse (pullResultPtr e) (Some (Some (enumId e))) false false total)), c).

Definition wsenum_enumerate_stub (max_threads max_connections : Z) (alloc entry_ok : bool)
    (now isdst : Z) (uuid : string) (release : bool) (endPoint : option endpoint)
    (msg : WsmanMessage) (maxsize : Z) (indoc : xnode) (c : ecntx)
  : option (Z * option response * ecntx) :=
  if quota_exceeded max_threads max_connections c then
    r ← fault_response WSMAN_QUOTA_LIMIT OWSMAN_NO_DETAILS
          (Some "The service is busy servicing other requests. Try later.");
    Some (1, r, c)
  else
    '(doc, enumInfo) ← create_enum_info alloc now isdst uuid release msg maxsize indoc;
    match doc with
    | Some f => Some (0, Some (RFault f), c)
    | None =>
        (* with a NULL [enumInfo] the next statements dereference it *)
        e ← enumInfo;
        let '(retVal, e, status) :=
          match endPoint with Some ep => ep e | None => (0, e, status_init) end in
        if negb (retVal =? 0) then
          r ← fault_response (st_code status) (st_detail status) (st_msg status);
          Some (retVal, r, c)
        else
          '(r, c) ← enumerate_finish entry_ok now indoc e c;
          Some (retVal, r, c)
    end.

(** The work a thread does on a context it has locked ends in one of three
    ways: the endpoint failed, there is more to come, or the enumeration is
    finished and the context goes away. *)
Definition finish_keep (now : Z) (p : positive) (c : ecntx) : option ecntx := unlock_enuminfo now p c.

Definition finish_remove (p : positive) (c : ecntx) : option ecntx :=
  c ← remove_locked_enuminfo p c; destroy_enuminfo p c.

Definition wsenum_release_stub (now : Z) (endPoint : option endpoint) (msg : WsmanMessage)
    (indoc : xnode) (c : ecntx) : option (Z * option response * ecntx) :=
  '(c, enumInfo, status) ← get_locked_enuminfo msg indoc WSENUM_RELEASE status_init c;
  match enumInfo with
  | None =>
      r ← fault_response (st_code status) (st_detail status) None; Some (0, r, c)
  | Some p =>
      e ← e_heap c !! p;
      let '(retVal, e', _) := match endPoint with Some ep => ep e | None => (0, e, status) end in
      c ← update_info p (λ _, e') c;
      if negb (retVal =? 0) then
        r ← fault_response WSMAN_INTERNAL_ERROR OWSMAN_DETAIL_ENDPOINT_ERROR None;
        c ← finish_keep now p c;
        Some (retVal, r, c)
      else
        c ← finish_remove p c;
        Some (retVal, Some (REnum (EnumResponse None None false false None)), c)
  end.

Definition wsenum_pull_stub (now : Z) (endPoint : endpoint) (msg : WsmanMessage) (indoc : xnode)
    (c : ecntx) : option (Z * option response * ecntx) :=
  '(c, enumInfo, status) ← get_locked_enuminfo msg indoc WSENUM_PULL status_init c;
  match enumInfo with
  | None =>
      r ← fault_response (st_code status) (st_detail status) None; Some (0, r, c)
  | Some p =>
      e ← e_heap c !! p;
      let '(retVal, e', status) := endPoint e in
      c ← update_info p (λ _, e') c;
      if negb (retVal =? 0) then
        r ← fault_response (st_code status) (st_detail status) None;
        c ← finish_keep now p c;
        Some (retVal, r, c)
      else
        c ← update_info p incr_index c;
        let total := wsman_set_estimated_total indoc e' in
        match pullResultPtr e' with
        | Some d =>
            c ← finish_keep now p c;
            Some (retVal, Some (REnum (EnumResponse None None true false total)), c)
        | None =>
            c ← finish_remove p c;
            Some (retVal, Some (REnum (EnumResponse None None false true total)), c)
        end
  end.

(** [wsenum_pull_direct_stub] once [get_locked_enuminfo] has found the context
    [p]: here the result of the endpoint is the response document. *)
Definition pull_direct_context (now : Z) (endPoint : endpoint) (indoc : xnode) (p : positive)
    (c : ecntx) : option (Z * option response * ecntx) :=
  e ← e_heap c !! p;
  let '(retVal, e', status) := endPoint e in
  c ← update_info p (λ _, e') c;
  if negb (retVal =? 0) then
    r ← fault_response (st_code status) (st_detail status) None;
    c ← finish_keep now p c;
    Some (retVal, r, c)
  else
    c ← update_info p incr_index c;
    let e' := incr_index e' in
    match pullResultPtr e' with
    | None => c ← finish_keep now p c; Some (retVal, None, c)
    | Some d =>
        let total := wsman_set_estimated_total indoc e' in
        let response := ws_xml_get_child (ws_xml_get_soap_body (Some d)) 0
                          (Some XML_NS_ENUMERATION) (Some WSENUM_PULL_RESP) in
        match ws_xml_get_child response 0 (Some XML_NS_ENUMERATION) (Some WSENUM_ITEMS) with
        | None =>
            r ← fault_response WSMAN_INTERNAL_ERROR WSMAN_DETAIL_INVALID None;
            c ← finish_keep now p c;
            Some (retVal, r, c)
        | Some _ =>
            if (totalItems e' =? 0) || (e_index e' =? totalItems e') then
              c ← finish_remove p c;
              Some (retVal, Some (REnum (EnumResponse (Some d) None true true total)), c)
            else
              c ← finish_keep now p c;
              Some (retVal, Some (REnum (EnumResponse (Some d) (Some (Some (enumId e'))) true false
                                   total)), c)
        end
    end.

(** ** Timeouts *)

Definition info_expired (mytime aeit : Z) (e : WsEnumerateInfo) : bool :=
  if in_work e then false
  else negb ((mytime <? wrap64 (timeStamp e + aeit)) &&
             ((expires e =? 0) || (mytime <? expires e))).

(** The contexts taken out of the table; the code returns NULL for none. *)
Definition wsman_get_expired_enuminfos (now : Z) (c : ecntx) : option (ecntx * list positive) :=
  let aeit := enumIdleTimeout c in
  if aeit =? 0 then Some (c, [])
  else if store_count (enuminfos c) =? 0 then Some (c, [])
  else
    '(t, ps) ← store_extract
      (λ p, match e_heap c !! p with Some e => info_expired now aeit e | None => false end)
      (enuminfos c);
    Some (set_enuminfos t c, ps).

(** The contexts for which a Release endpoint is called, and the state after
    all the expired contexts are freed. *)
Fixpoint release_expired (ps : list positive) (c : ecntx) (released : list string)
  : option (ecntx * list string) :=
  match ps with
  | [] => Some (c, released)
  | p :: ps =>
      e ← e_heap c !! p;
      let released := if releaseproc e then released ++ [enumId e] else released in
      c ← destroy_enuminfo p c;
      release_expired ps c released
  end.

Definition wsman_timeouts_manager (now : Z) (c : ecntx) : option (ecntx * list string) :=
  '(c, ps) ← wsman_get_expired_enuminfos now c;
  release_expired ps c [].
End Enumeration.
