(* ===== verification/EnumProofs.v ===== *)
(** * Safety of the enumeration contexts

    Pull, Release and the timeouts manager run in different threads and use a
    context outside the lock.  The world of this file interleaves their atomic
    parts in every possible order; its invariant gives that no thread ever
    touches a context that was freed, that no two threads work on the same
    context, and that no context stays locked for good. *)

From Stdlib Require Import Ascii.
From S2P Require Import Prelude.
From S2P Require Import CString.
From S2P Require Import Names.
From S2P Require Import Xml.
From S2P Require Import Faults.
From S2P Require Import Duration.
From S2P Require Import Store.
From S2P Require Import Enumeration.

#[local] Open Scope string_scope.
#[local] Open Scope list_scope.
#[local] Open Scope Z_scope.

(** ** The in-work flag *)

Lemma in_work_set e :
  in_work (set_flags (Z.lor (e_flags e) WSMAN_ENUMINFO_INWORK_FLAG) e) = true.
Proof.
  unfold in_work. simpl. apply negb_true_iff, Z.eqb_neq. rewrite Z.land_lor_distr_l.
  intros [_ E]%Z.lor_eq_0_iff. done.
Qed.

Lemma in_work_clear now e :
  in_work (set_timeStamp now
    (set_flags (Z.land (e_flags e) (Z.lnot WSMAN_ENUMINFO_INWORK_FLAG)) e)) = false.
Proof.
  unfold in_work. simpl. apply negb_false_iff, Z.eqb_eq.
  rewrite <- Z.land_assoc. change (Z.land (Z.lnot _) _) with 0. apply Z.land_0_r.
Qed.

Section World.
Context {T : Type → Type} {ST : Store T} {SL : StoreLaws T} {LX : Libxml2}.
Implicit Types (c : ecntx (T := T)) (p : positive) (e : WsEnumerateInfo).

Abbreviation cmap c := (store_map (enuminfos c)).

(** Threads, the context each is working on, and the contexts the timeouts
    manager has taken out of the table and not yet freed. *)
Record world := World {
  w_cntx : ecntx (T := T);
  w_owner : gmap nat positive;
  w_expired : list positive;
}.

Inductive wstep : world → world → Prop :=
  | step_insert now e c own ex c' :
      (* the end of an Enumerate: a new identifier, a context not in work *)
      in_work e = false → cmap c !! enumId e = None → store_count (enuminfos c) < store_capacity →
      let p := fresh (dom (e_heap c)) in
      insert_enum_info true now p (set_heap (<[p := e]> (e_heap c)) c) = Some (c', 0) →
      wstep (World c own ex) (World c' own ex)
  | step_lock t msg doc action c own ex c' p st :
      own !! t = None →
      get_locked_enuminfo msg doc action status_init c = Some (c', Some p, st) →
      wstep (World c own ex) (World c' (<[t := p]> own) ex)
  | step_lock_fault msg doc action c own ex c' st :
      get_locked_enuminfo msg doc action status_init c = Some (c', None, st) →
      wstep (World c own ex) (World c' own ex)
  | step_work t f c own ex p c' :
      (* the endpoint changes the context, but neither its name nor its lock *)
      own !! t = Some p →
      (∀ e, e_heap c !! p = Some e → enumId (f e) = enumId e ∧ in_work (f e) = in_work e) →
      update_info p f c = Some c' →
      wstep (World c own ex) (World c' own ex)
  | step_keep t now c own ex p c' :
      own !! t = Some p → finish_keep now p c = Some c' →
      wstep (World c own ex) (World c' (delete t own) ex)
  | step_remove t c own ex p c' :
      own !! t = Some p → finish_remove p c = Some c' →
      wstep (World c own ex) (World c' (delete t own) ex)
  | step_scan now c own ex c' ps :
      wsman_get_expired_enuminfos now c = Some (c', ps) →
      wstep (World c own ex) (World c' own (ex ++ ps))
  | step_free c own p ex1 ex2 c' :
      destroy_enuminfo p c = Some c' →
      wstep (World c own (ex1 ++ p :: ex2)) (World c' own (ex1 ++ ex2)).

Record winv (w : world) : Prop := {
  wi_store : store_ok (enuminfos (w_cntx w));
  (** every entry of the table is a live context of that name *)
  wi_live k p : cmap (w_cntx w) !! k = Some p →
    ∃ e, e_heap (w_cntx w) !! p = Some e ∧ enumId e = k;
  (** a thread's context is live, in work and in the table *)
  wi_owner t p : w_owner w !! t = Some p →
    ∃ e, e_heap (w_cntx w) !! p = Some e ∧ in_work e = true ∧
         cmap (w_cntx w) !! enumId e = Some p;
  (** and belongs to no other thread *)
  wi_excl t1 t2 p : w_owner w !! t1 = Some p → w_owner w !! t2 = Some p → t1 = t2;
  (** a context in work is some thread's *)
  wi_locked k p e : cmap (w_cntx w) !! k = Some p → e_heap (w_cntx w) !! p = Some e →
    in_work e = true → ∃ t, w_owner w !! t = Some p;
  (** the timeouts manager holds live contexts that nobody else can reach *)
  wi_expired p : p ∈ w_expired w →
    (∃ e, e_heap (w_cntx w) !! p = Some e) ∧ (∀ k, cmap (w_cntx w) !! k ≠ Some p);
  wi_nodup : NoDup (w_expired w);
}.

Lemma cmap_inj w k1 k2 p :
  winv w → cmap (w_cntx w) !! k1 = Some p → cmap (w_cntx w) !! k2 = Some p → k1 = k2.
Proof.
  intros I H1 H2. destruct (wi_live w I _ _ H1) as (e & E1 & <-).
  destruct (wi_live w I _ _ H2) as (e' & E2 & <-). congruence.
Qed.

Lemma owner_not_expired w t p : winv w → w_owner w !! t = Some p → p ∉ w_expired w.
Proof.
  intros I Ho Hx. destruct (wi_owner w I _ _ Ho) as (e & _ & _ & Hm).
  destruct (wi_expired w I _ Hx) as [_ Hn]. by apply (Hn (enumId e)).
Qed.

Lemma update_info_Some p f c c' :
  update_info p f c = Some c' →
  ∃ e, e_heap c !! p = Some e ∧ e_heap c' = <[p := f e]> (e_heap c) ∧ enuminfos c' = enuminfos c.
Proof. unfold update_info. intros Hu. bind_inv Hu. simplify_eq. eauto. Qed.

(** A change of one live context that keeps its name. *)
Lemma winv_update c c' own own' ex p f :
  winv (World c own ex) → update_info p f c = Some c' → p ∉ ex →
  (∀ e, e_heap c !! p = Some e → enumId (f e) = enumId e) →
  (∀ t q, own' !! t = Some q →
     (q ≠ p ∧ own !! t = Some q) ∨
     (q = p ∧ ∃ e, e_heap c !! p = Some e ∧ in_work (f e) = true ∧ cmap c !! enumId e = Some p)) →
  (∀ t1 t2 q, own' !! t1 = Some q → own' !! t2 = Some q → t1 = t2) →
  (∀ t q, q ≠ p → own !! t = Some q → own' !! t = Some q) →
  (∀ e, e_heap c !! p = Some e → in_work (f e) = true → ∃ t, own' !! t = Some p) →
  winv (World c' own' ex).
Proof.
  intros I Hu Hx Hn Hown Hex Hkeep Hlock. destruct (update_info_Some _ _ _ _ Hu) as (e0 & E0 & Eh & Et).
  destruct I as [I1 I2 I3 I4 I5 I6 I7]. simpl in *.
  split; simpl; rewrite ?Et, ?Eh; try done.
  - intros k q Hq. destruct (I2 _ _ Hq) as (e & E & <-). destruct (decide (q = p)) as [->|Hne].
    + exists (f e0). rewrite lookup_insert_eq. split; [done|]. rewrite Hn by done. congruence.
    + exists e. by rewrite lookup_insert_ne.
  - intros t q Hq. destruct (Hown _ _ Hq) as [[Hne Ho]|(-> & e & E & Hw & Hm)].
    + destruct (I3 _ _ Ho) as (e & E & Hw & Hm). exists e. by rewrite lookup_insert_ne.
    + exists (f e). rewrite lookup_insert_eq. assert (e = e0) as -> by congruence.
      split_and!; [done|done|]. by rewrite Hn.
  - intros k q e Hq He Hw. destruct (decide (q = p)) as [->|Hne].
    + rewrite lookup_insert_eq in He. injection He as <-. by apply (Hlock e0).
    + rewrite lookup_insert_ne in He by done. destruct (I5 _ _ _ Hq He Hw) as [t Ht]. eauto.
  - intros q Hq. destruct (I6 q Hq) as [[e E] Hm]. split; [|done].
    rewrite lookup_insert_ne by (intros ->; done). eauto.
Qed.

(** ** Locking *)

Lemma verify_cases msg e doc st ok st' :
  wsman_verify_enum_info msg e doc st = Some (ok, st') →
  if ok : bool then st' = st else st_code st' ≠ WSMAN_RC_OK.
Proof.
  unfold wsman_verify_enum_info. intros Hv. repeat case_match; try bind_inv Hv; simplify_eq; try done.
  all: repeat case_match; try bind_inv Hv; simplify_eq; try done.
  all: repeat case_match; simplify_eq; done.
Qed.

Lemma get_locked_cases msg doc action c c' r st :
  store_ok (enuminfos c) →
  get_locked_enuminfo msg doc action status_init c = Some (c', r, st) →
  match r with
  | None => c' = c ∧ st_code st ≠ WSMAN_RC_OK
  | Some p => ∃ e, request_context action doc = Some (enumId e) ∧
      cmap c !! enumId e = Some p ∧ e_heap c !! p = Some e ∧ in_work e = false ∧
      st = status_init ∧ wsman_verify_enum_info msg e doc status_init = Some (true, status_init) ∧
      update_info p (λ e, set_flags (Z.lor (e_flags e) WSMAN_ENUMINFO_INWORK_FLAG) e) c = Some c'
  end.
Proof.
  intros Hok. unfold get_locked_enuminfo. destruct (request_context action doc) as [id|] eqn:Eid.
  2: { intros [= <- <- <-]. done. }
  rewrite store_find_spec, some_bind by done.
  destruct (cmap c !! id) as [p|] eqn:Ep; [|by intros [= <- <- <-]].
  destruct (e_heap c !! p) as [e|] eqn:Ee; [|done]. rewrite some_bind.
  destruct (str_eqb (enumId e) id) eqn:Es; simpl negb; [|by intros [= <- <- <-]].
  apply str_eqb_eq in Es. subst id.
  destruct (wsman_verify_enum_info msg e doc status_init) as [[ok st1]|] eqn:Ev; [|done].
  rewrite some_bind. apply verify_cases in Ev as Hv. destruct ok.
  - subst st1. destruct (in_work e) eqn:Ew.
    + rewrite some_bind. intros [= <- <- <-]. done.
    + destruct (update_info p _ c) as [c1|] eqn:Eu; [|done].
      rewrite !some_bind. intros [= -> <- <-]. simpl. exists e. by split_and!.
  - rewrite some_bind, decide_False by done. by intros [= <- <- <-].
Qed.

(** ** Every step keeps the invariant *)

Lemma winv_lock t c own ex c' p e :
  winv (World c own ex) → own !! t = None → cmap c !! enumId e = Some p →
  e_heap c !! p = Some e → in_work e = false →
  update_info p (λ e, set_flags (Z.lor (e_flags e) WSMAN_ENUMINFO_INWORK_FLAG) e) c = Some c' →
  winv (World c' (<[t := p]> own) ex).
Proof.
  intros I Ht Hm He Hw Hu.
  assert (Hno : ∀ t', own !! t' ≠ Some p).
  { intros t' Ho. destruct (wi_owner _ I _ _ Ho) as (e' & E & Hw' & _). simpl in E. congruence. }
  eapply (winv_update c c' own); [exact I|exact Hu|..].
  - intros Hx. destruct (wi_expired _ I p Hx) as [_ Hn]. by apply (Hn (enumId e)).
  - done.
  - intros t' q. destruct (decide (t = t')) as [<-|Hne].
    + rewrite lookup_insert_eq. intros [= <-]. right. split; [done|]. exists e.
      split_and!; [done|apply in_work_set|done].
    + rewrite lookup_insert_ne by done. intros Ho. left. split; [|done]. intros ->. by apply (Hno t').
  - intros t1 t2 q H1 H2. destruct (decide (t = t1)) as [<-|N1], (decide (t = t2)) as [<-|N2].
    + done.
    + rewrite lookup_insert_eq in H1. rewrite lookup_insert_ne in H2 by done. simplify_eq.
      by destruct (Hno t2).
    + rewrite lookup_insert_eq in H2. rewrite lookup_insert_ne in H1 by done. simplify_eq.
      by destruct (Hno t1).
    + rewrite lookup_insert_ne in H1, H2 by done. by apply (wi_excl _ I t1 t2 q).
  - intros t' q Hq Ho. rewrite lookup_insert_ne; [done|]. intros ->. congruence.
  - intros e' _ _. exists t. by rewrite lookup_insert_eq.
Qed.

Lemma winv_work t f c own ex p c' :
  winv (World c own ex) → own !! t = Some p →
  (∀ e, e_heap c !! p = Some e → enumId (f e) = enumId e ∧ in_work (f e) = in_work e) →
  update_info p f c = Some c' →
  winv (World c' own ex).
Proof.
  intros I Ho Hf Hu. destruct (wi_owner _ I _ _ Ho) as (e & E & Hw & Hm). simpl in *.
  eapply (winv_update c c' own); [exact I|exact Hu|..].
  - by apply (owner_not_expired _ _ _ I Ho).
  - intros e' E'. by apply Hf.
  - intros t' q Hq. destruct (decide (q = p)) as [->|Hne]; [right|by left]. split; [done|].
    exists e. split_and!; [done| |done]. by rewrite (proj2 (Hf e E)).
  - apply (wi_excl _ I).
  - done.
  - eauto.
Qed.

Lemma winv_keep t now c own ex p c' :
  winv (World c own ex) → own !! t = Some p → finish_keep now p c = Some c' →
  winv (World c' (delete t own) ex).
Proof.
  intros I Ho Hk. destruct (wi_owner _ I _ _ Ho) as (e & E & Hw & Hm). simpl in *.
  unfold finish_keep, unlock_enuminfo in Hk. rewrite E, some_bind, Hw in Hk. cbn [negb] in Hk.
  eapply (winv_update c c' own); [exact I|exact Hk|..].
  - by apply (owner_not_expired _ _ _ I Ho).
  - done.
  - intros t' q [Hne Hq]%lookup_delete_Some. left. split; [|done]. intros ->.
    destruct Hne. by apply (wi_excl _ I t t' p).
  - intros t1 t2 q [_ H1]%lookup_delete_Some [_ H2]%lookup_delete_Some. by apply (wi_excl _ I t1 t2 q).
  - intros t' q Hq Hoq. apply lookup_delete_Some. split; [|done]. intros ->. congruence.
  - intros e' _. cbv beta. by rewrite in_work_clear.
Qed.

Lemma finish_remove_Some t c own ex p c' :
  winv (World c own ex) → own !! t = Some p → finish_remove p c = Some c' →
  ∃ e, e_heap c !! p = Some e ∧ cmap c !! enumId e = Some p ∧
    e_heap c' = delete p (e_heap c) ∧ store_ok (enuminfos c') ∧
    cmap c' = delete (enumId e) (cmap c).
Proof.
  intros I Ho Hr. destruct (wi_owner _ I _ _ Ho) as (e & E & Hw & Hm). simpl in *.
  unfold finish_remove, remove_locked_enuminfo, destroy_enuminfo in Hr.
  rewrite E, some_bind, Hw in Hr. simpl negb in Hr. cbv iota in Hr.
  destruct (store_del_spec (enuminfos c) (enumId e) (wi_store _ I)) as (t' & Ed & Ok & Em).
  rewrite Ed, !some_bind in Hr. simpl in Hr. rewrite E in Hr. simpl in Hr. injection Hr as <-.
  exists e. by split_and!.
Qed.

Lemma winv_remove t c own ex p c' :
  winv (World c own ex) → own !! t = Some p → finish_remove p c = Some c' →
  winv (World c' (delete t own) ex).
Proof.
  intros I Ho Hr. destruct (finish_remove_Some _ _ _ _ _ _ I Ho Hr) as (e & E & Hm & Eh & Ok & Em).
  pose proof (owner_not_expired _ _ _ I Ho) as Hx. simpl in Hx.
  assert (Hne : ∀ k q, cmap c' !! k = Some q → q ≠ p ∧ cmap c !! k = Some q).
  { intros k q. rewrite Em. intros [Hk Hq]%lookup_delete_Some. split; [|done]. intros ->.
    destruct Hk. by apply (cmap_inj _ _ _ _ I Hm). }
  split; simpl; rewrite ?Eh.
  - done.
  - intros k q Hq. destruct (Hne k q Hq) as [Hp Hq']. destruct (wi_live _ I _ _ Hq') as (e' & E' & Hk).
    exists e'. by rewrite lookup_delete_ne.
  - intros t' q [Ht Hq]%lookup_delete_Some. destruct (wi_owner _ I _ _ Hq) as (e' & E' & Hw & Hm').
    assert (q ≠ p) by (intros ->; apply Ht, (wi_excl _ I t t' p); done).
    exists e'. simpl in *. rewrite lookup_delete_ne, Em by done. split_and!; [done|done|].
    rewrite lookup_delete_ne; [done|]. intros Heq. rewrite <- Heq in Hm'. congruence.
  - intros t1 t2 q [_ H1]%lookup_delete_Some [_ H2]%lookup_delete_Some. by apply (wi_excl _ I t1 t2 q).
  - intros k q e' Hq He' Hw. destruct (Hne k q Hq) as [Hp Hq'].
    rewrite lookup_delete_ne in He' by done. destruct (wi_locked _ I _ _ _ Hq' He' Hw) as [t' Ht'].
    exists t'. apply lookup_delete_Some. split; [|done]. intros ->. simpl in Ht'. congruence.
  - intros q Hq. destruct (wi_expired _ I q Hq) as [[e' E'] Hn]. simpl in *. split.
    + exists e'. rewrite lookup_delete_ne; [done|]. by intros ->.
    + intros k Hk. destruct (Hne k q Hk) as [_ Hk']. by apply (Hn k).
  - apply (wi_nodup _ I).
Qed.

Lemma winv_insert now e c own ex c' :
  winv (World c own ex) → in_work e = false → cmap c !! enumId e = None →
  store_count (enuminfos c) < store_capacity →
  insert_enum_info true now (fresh (dom (e_heap c)))
    (set_heap (<[fresh (dom (e_heap c)) := e]> (e_heap c)) c) = Some (c', 0) →
  winv (World c' own ex).
Proof.
  intros I Hw Hk Hc. set (p := fresh (dom (e_heap c))).
  assert (Hp : e_heap c !! p = None) by (apply not_elem_of_dom, is_fresh).
  unfold insert_enum_info, update_info. cbn. rewrite lookup_insert_eq. cbn.
  rewrite insert_insert_eq.
  destruct (store_add_spec (enuminfos c) (enumId e) p (wi_store _ I) Hk Hc) as (t' & -> & Ok & Em).
  cbn. intros [= <-].
  assert (Hlive : ∀ q e', e_heap c !! q = Some e' → q ≠ p) by (intros ????; congruence).
  assert (Hkey : ∀ k q, cmap c !! k = Some q → k ≠ enumId e) by congruence.
  split; cbn; rewrite ?Em.
  - done.
  - intros k q [[<- <-]|[Hne Hq]]%lookup_insert_Some.
    + exists (set_timeStamp now e). by rewrite lookup_insert_eq.
    + destruct (wi_live _ I _ _ Hq) as (e' & E' & Hn). exists e'. cbn in E'.
      rewrite lookup_insert_ne; [done|]. apply not_eq_sym. eauto.
  - intros t q Hq. destruct (wi_owner _ I _ _ Hq) as (e' & E' & Hw' & Hm). cbn in *.
    exists e'. rewrite !lookup_insert_ne; [done|apply not_eq_sym; eauto..].
  - apply (wi_excl _ I).
  - intros k q e' [[<- <-]|[Hne Hq]]%lookup_insert_Some.
    + rewrite lookup_insert_eq. intros [= <-]. unfold in_work in *. cbn. congruence.
    + destruct (wi_live _ I _ _ Hq) as (e'' & E' & Hn). cbn in E'.
      rewrite lookup_insert_ne by (apply not_eq_sym; eauto). apply (wi_locked _ I k q e' Hq).
  - intros q Hq. destruct (wi_expired _ I q Hq) as [[e' E'] Hn]. cbn in *. split.
    + exists e'. rewrite lookup_insert_ne; [done|]. apply not_eq_sym. eauto.
    + intros k [[_ <-]|[_ Hk']]%lookup_insert_Some; [by apply (Hlive p e')|by apply (Hn k)].
  - apply (wi_nodup _ I).
Qed.

(** What a scan takes out. *)
Definition collectable (now : Z) c (p : positive) : bool :=
  match e_heap c !! p with Some e => info_expired now (enumIdleTimeout c) e | None => false end.

Lemma scan_spec now c :
  store_ok (enuminfos c) → enumIdleTimeout c ≠ 0 →
  ∃ t' kvs, wsman_get_expired_enuminfos now c = Some (set_enuminfos t' c, kvs.*2) ∧
    store_ok t' ∧ store_map t' = filter (λ kv, collectable now c kv.2 = false) (cmap c) ∧
    NoDup kvs ∧ ∀ k p, (k, p) ∈ kvs ↔ cmap c !! k = Some p ∧ collectable now c p = true.
Proof.
  intros Hok Ha. unfold wsman_get_expired_enuminfos. rewrite (proj2 (Z.eqb_neq _ _)) by done.
  destruct (store_count _ =? 0) eqn:Ez.
  - apply Z.eqb_eq in Ez. rewrite store_count_spec in Ez by done.
    assert (cmap c = ∅) as Em by (apply map_size_empty_iff; lia).
    exists (enuminfos c), []. rewrite Em, map_filter_empty. split; [by destruct c|].
    split_and!; [done|done|constructor|]. intros k p. rewrite lookup_empty. set_solver.
  - destruct (store_extract_spec (collectable now c) (enuminfos c) Hok)
      as (t' & vs & Hx & Ok & Em & kvs & Hnd & -> & Hin).
    exists t', kvs. unfold collectable in Hx at 1. rewrite Hx. by split_and!.
Qed.

Lemma winv_scan now c own ex c' ps :
  winv (World c own ex) → wsman_get_expired_enuminfos now c = Some (c', ps) →
  winv (World c' own (ex ++ ps)).
Proof.
  intros I Hs. destruct (decide (enumIdleTimeout c = 0)) as [Ha|Ha].
  { unfold wsman_get_expired_enuminfos in Hs. rewrite Ha in Hs. injection Hs as <- <-.
    by rewrite app_nil_r. }
  destruct (scan_spec now c (wi_store _ I) Ha) as (t' & kvs & Hg & Ok & Em & Hnd & Hin).
  rewrite Hg in Hs. injection Hs as <- <-.
  assert (Hsub : ∀ k q, store_map t' !! k = Some q → cmap c !! k = Some q ∧ collectable now c q = false).
  { intros k q. by rewrite Em, map_lookup_filter_Some. }
  split; cbn.
  - done.
  - intros k q [Hq _]%Hsub. apply (wi_live _ I k q Hq).
  - intros t q Hq. destruct (wi_owner _ I _ _ Hq) as (e & E & Hw & Hm). exists e. cbn in *.
    split_and!; [done|done|]. rewrite Em, map_lookup_filter_Some. split; [done|]. cbn.
    unfold collectable, info_expired. by rewrite E, Hw.
  - apply (wi_excl _ I).
  - intros k q e [Hq _]%Hsub. apply (wi_locked _ I k q e Hq).
  - intros q [Hq|Hq]%elem_of_app.
    + destruct (wi_expired _ I q Hq) as [He Hn]. split; [done|]. intros k [Hk _]%Hsub. by apply (Hn k).
    + apply list_elem_of_fmap in Hq as ([k p] & -> & [Hk Hc]%Hin). cbn.
      destruct (wi_live _ I k p Hk) as (e & E & _). split; [by exists e|].
      intros k' [_ Hf]%Hsub. congruence.
  - apply NoDup_app. split_and!.
    + apply (wi_nodup _ I).
    + intros q Hq Hq'. apply list_elem_of_fmap in Hq' as ([k p] & -> & [Hk _]%Hin).
      by apply (proj2 (wi_expired _ I p Hq) k).
    + apply NoDup_fmap_2_strong; [|done]. intros [k1 p1] [k2 p2] [H1 _]%Hin [H2 _]%Hin Heq.
      cbn in Heq. subst. f_equal. by apply (cmap_inj _ _ _ _ I H1).
Qed.

Lemma winv_free c own p ex1 ex2 c' :
  winv (World c own (ex1 ++ p :: ex2)) → destroy_enuminfo p c = Some c' →
  winv (World c' own (ex1 ++ ex2)).
Proof.
  intros I Hd. unfold destroy_enuminfo in Hd. bind_inv Hd. injection Hd as <-.
  pose proof (wi_expired _ I) as Hx. pose proof (wi_nodup _ I) as Hnd. cbn in Hnd, Hx.
  rewrite <- Permutation_middle in Hnd. setoid_rewrite <- Permutation_middle in Hx.
  apply NoDup_cons in Hnd as [Hp Hnd]. destruct (Hx p ltac:(left)) as [_ Hn].
  assert (Hm : ∀ k q, cmap c !! k = Some q → p ≠ q) by (intros k q Hk ->; by apply (Hn k)).
  split; cbn.
  - apply (wi_store _ I).
  - intros k q Hq. rewrite lookup_delete_ne by eauto. apply (wi_live _ I k q Hq).
  - intros t q Hq. destruct (wi_owner _ I _ _ Hq) as (e & ? & ? & Hk). exists e.
    rewrite lookup_delete_ne; [done|]. eapply Hm, Hk.
  - apply (wi_excl _ I).
  - intros k q e Hq. rewrite lookup_delete_ne by eauto. apply (wi_locked _ I k q e Hq).
  - intros q Hq. destruct (Hx q ltac:(by right)) as [He Hn']. split; [|done].
    rewrite lookup_delete_ne; [done|]. by intros ->.
  - done.
Qed.

Lemma winv_step w w' : winv w → wstep w w' → winv w'.
Proof.
  intros I H. destruct H.
  - by eapply winv_insert.
  - destruct (get_locked_cases _ _ _ _ _ _ _ (wi_store _ I) H0)
      as (e & _ & Hm & He & Hw & _ & _ & Hu). by eapply winv_lock.
  - by destruct (get_locked_cases _ _ _ _ _ _ _ (wi_store _ I) H) as [-> _].
  - by eapply winv_work.
  - by eapply winv_keep.
  - by eapply winv_remove.
  - by eapply winv_scan.
  - by eapply winv_free.
Qed.

Lemma winv_init aeit t : store_ok t → store_map t = ∅ → winv (World (Ecntx ∅ t aeit) ∅ []).
Proof.
  intros Hok Em. split; cbn; rewrite ?Em; try done.
  - intros q []%elem_of_nil.
  - constructor.
Qed.

Lemma winv_reachable w w' : winv w → rtc wstep w w' → winv w'.
Proof. intros I H. induction H; eauto using winv_step. Qed.

(** ** What the owner of a context can do *)

Lemma owner_can_work w t p f :
  winv w → w_owner w !! t = Some p → is_Some (update_info p f (w_cntx w)).
Proof.
  intros I Ho. destruct (wi_owner _ I _ _ Ho) as (e & E & _). unfold update_info. by rewrite E.
Qed.

Lemma owner_can_keep w t p now :
  winv w → w_owner w !! t = Some p →
  ∃ c' e, finish_keep now p (w_cntx w) = Some c' ∧ e_heap c' !! p = Some e ∧
    in_work e = false ∧ cmap c' = cmap (w_cntx w).
Proof.
  intros I Ho. destruct (wi_owner _ I _ _ Ho) as (e & E & Hw & Hm).
  unfold finish_keep, unlock_enuminfo. rewrite E, some_bind, Hw. cbn [negb].
  unfold update_info. rewrite E, some_bind. eexists _, _. split; [done|]. cbn.
  rewrite lookup_insert_eq. split_and!; [done|apply in_work_clear|done].
Qed.

Lemma owner_can_remove w t p :
  winv w → w_owner w !! t = Some p → ∃ c', finish_remove p (w_cntx w) = Some c'.
Proof.
  intros I Ho. destruct (wi_owner _ I _ _ Ho) as (e & E & Hw & Hm).
  unfold finish_remove, remove_locked_enuminfo, destroy_enuminfo. rewrite E, some_bind, Hw. cbn [negb].
  destruct (store_del_spec (enuminfos (w_cntx w)) (enumId e) (wi_store _ I)) as (t' & -> & _).
  rewrite !some_bind. cbn. rewrite E. by eexists.
Qed.

Lemma scan_defined w now : winv w → is_Some (wsman_get_expired_enuminfos now (w_cntx w)).
Proof.
  intros I. destruct (decide (enumIdleTimeout (w_cntx w) = 0)) as [Ha|Ha].
  - unfold wsman_get_expired_enuminfos. by rewrite Ha.
  - destruct (scan_spec now _ (wi_store _ I) Ha) as (t' & kvs & -> & _). done.
Qed.

Lemma expired_can_free w p : winv w → p ∈ w_expired w → is_Some (destroy_enuminfo p (w_cntx w)).
Proof.
  intros I Hp. destruct (wi_expired _ I p Hp) as [[e E] _]. unfold destroy_enuminfo. by rewrite E.
Qed.

(** A context of the table can be checked against a request unless the context
    has no credentials and the request has. *)
Definition comparable (msg : WsmanMessage) (c : ecntx (T := T)) : Prop :=
  username msg = None ∨ password msg = None ∨
  ∀ k p e, cmap c !! k = Some p → e_heap c !! p = Some e →
    is_Some (auth_username e) ∧ is_Some (auth_password e).

Lemma get_locked_defined w msg doc action :
  winv w → comparable msg (w_cntx w) →
  is_Some (get_locked_enuminfo msg doc action status_init (w_cntx w)).
Proof.
  intros I Hc. unfold get_locked_enuminfo. destruct (request_context action doc) as [id|]; [|done].
  rewrite store_find_spec, some_bind by apply (wi_store _ I).
  destruct (cmap (w_cntx w) !! id) as [p|] eqn:Ep; [|done].
  destruct (wi_live _ I _ _ Ep) as (e & E & Hn). rewrite E, some_bind.
  destruct (str_eqb (enumId e) id); cbn [negb]; [|done].
  assert (is_Some (wsman_verify_enum_info msg e doc status_init)) as [[ok st] ->].
  { unfold wsman_verify_enum_info. destruct (header_text doc XML_NS_ADDRESSING WSA_TO),
      (header_text doc XML_NS_WS_MAN WSM_RESOURCE_URI); try done.
    destruct (_ || _); [done|]. destruct (username msg) eqn:Eu, (password msg) eqn:Epw; try done.
    destruct Hc as [Hc|[Hc|Hc]]; [congruence..|]. destruct (Hc _ _ _ Ep E) as [[u ->] [pw ->]].
    cbn. by repeat case_match. }
  rewrite some_bind. unfold update_info. rewrite E. by repeat (case_match || cbn).
Qed.


(** ** The stubs, from the lock to its release *)

Lemma fault_response_defined code detail msg :
  ∃ f, fault_response code detail msg = Some (RFault <$> f).
Proof.
  unfold fault_response. destruct (generate_fault_defined code detail msg) as [f ->]. by exists f.
Qed.

Lemma run_lock t c own ex msg doc action :
  winv (World c own ex) → comparable msg c → own !! t = None →
  ∃ c' r st, get_locked_enuminfo msg doc action status_init c = Some (c', r, st) ∧
    match r with
    | None => c' = c
    | Some p => winv (World c' (<[t := p]> own) ex) ∧ cmap c' = cmap c ∧
        ∃ e, e_heap c' !! p = Some e ∧ request_context action doc = Some (enumId e)
    end.
Proof.
  intros I Hc Ht. destruct (get_locked_defined _ msg doc action I Hc) as [[[c' r] st] Hg].
  cbn in Hg. exists c', r, st. split; [done|].
  pose proof (get_locked_cases _ _ _ _ _ _ _ (wi_store _ I) Hg) as H. destruct r as [p|]; [|apply H].
  destruct H as (e & Hid & Hm & He & Hw & _ & _ & Hu). split; [by eapply winv_lock|].
  destruct (update_info_Some _ _ _ _ Hu) as (e' & E' & Eh & Et). rewrite Et, Eh, lookup_insert_eq.
  split; [done|]. eexists. split; [done|]. cbn. congruence.
Qed.

Lemma run_work t c own ex p e f :
  winv (World c own ex) → own !! t = Some p → e_heap c !! p = Some e →
  enumId (f e) = enumId e → in_work (f e) = in_work e →
  ∃ c', update_info p f c = Some c' ∧ e_heap c' !! p = Some (f e) ∧
    winv (World c' own ex) ∧ cmap c' = cmap c.
Proof.
  intros I Ho He Hi Hw. destruct (owner_can_work _ t p f I Ho) as [c' Hu]. exists c'.
  split; [done|]. destruct (update_info_Some _ _ _ _ Hu) as (e' & E' & Eh & Et).
  rewrite Et, Eh, lookup_insert_eq. cbn in *. assert (e' = e) as -> by congruence.
  split_and!; [done| |done]. eapply winv_work; [done..| |exact Hu].
  intros e' ?. by assert (e' = e) as -> by congruence.
Qed.

Lemma run_keep t c own ex p now :
  winv (World c own ex) → own !! t = Some p →
  ∃ c', finish_keep now p c = Some c' ∧ winv (World c' (delete t own) ex) ∧ cmap c' = cmap c.
Proof.
  intros I Ho. destruct (owner_can_keep _ t p now I Ho) as (c' & e & Hk & _ & _ & Hm).
  exists c'. split_and!; [done| |done]. by eapply winv_keep.
Qed.

Lemma run_remove t c own ex p e :
  winv (World c own ex) → own !! t = Some p → e_heap c !! p = Some e →
  ∃ c', finish_remove p c = Some c' ∧ winv (World c' (delete t own) ex) ∧
    cmap c' = delete (enumId e) (cmap c).
Proof.
  intros I Ho He. destruct (owner_can_remove _ t p I Ho) as [c' Hr]. exists c'.
  destruct (finish_remove_Some _ _ _ _ _ _ I Ho Hr) as (e' & E' & _ & _ & _ & Hm).
  assert (e' = e) as -> by congruence. split_and!; [done| |done]. by eapply winv_remove.
Qed.

(** An endpoint may change a context but neither its name nor its lock. *)
Definition endpoint_ok (ep : endpoint) : Prop :=
  ∀ e, enumId (ep e).1.2 = enumId e ∧ in_work (ep e).1.2 = in_work e.

(** The answer that ends an enumeration. *)
Definition end_of_sequence (r : option response) : bool :=
  match r with Some (REnum r) => r_end_of_sequence r | _ => false end.

Definition table_after (doc : xnode) (action : string) (gone : bool) (m : gmap string positive)
  : gmap string positive :=
  match request_context action doc with
  | Some id => if gone then delete id m else m
  | None => m
  end.

Lemma table_after_false doc action m : table_after doc action false m = m.
Proof. unfold table_after. by destruct (request_context action doc). Qed.

Lemma fresh_thread (own : gmap nat positive) p :
  let t := fresh (dom own) in own !! t = None ∧ delete t (<[t := p]> own) = own.
Proof.
  intros t. assert (own !! t = None) as E by apply not_elem_of_dom, is_fresh.
  by rewrite delete_insert_id.
Qed.

Lemma pull_context_safe t c own ex p e now ep indoc :
  winv (World c own ex) → own !! t = Some p → e_heap c !! p = Some e → endpoint_ok ep →
  ∃ rv r c', pull_direct_context now ep indoc p c = Some (rv, r, c') ∧
    winv (World c' (delete t own) ex) ∧
    cmap c' = if end_of_sequence r then delete (enumId e) (cmap c) else cmap c.
Proof.
  intros I Ho He Hep. unfold pull_direct_context. rewrite He, some_bind.
  destruct (Hep e) as [Hi Hw]. destruct (ep e) as [[rv e'] st] eqn:Eep. cbn in Hi, Hw.
  destruct (run_work t c own ex p e (λ _, e') I Ho He Hi Hw) as (c1 & -> & He1 & I1 & Hm1).
  rewrite some_bind. destruct (run_keep t c1 own ex p now I1 Ho) as (ck & Hk & Ik & Hmk).
  destruct (fault_response_defined (st_code st) (st_detail st) None) as [f Hf].
  destruct (negb (rv =? 0)).
  { rewrite Hf, some_bind, Hk. eexists _, _, _. split; [done|]. split; [done|].
    rewrite Hmk, Hm1. by destruct f. }
  destruct (run_work t c1 own ex p e' incr_index I1 Ho He1 eq_refl eq_refl) as (c2 & -> & He2 & I2 & Hm2).
  rewrite some_bind. destruct (run_keep t c2 own ex p now I2 Ho) as (ck2 & Hk2 & Ik2 & Hmk2).
  destruct (run_remove t c2 own ex p _ I2 Ho He2) as (cr & Hr & Ir & Hmr).
  destruct (fault_response_defined WSMAN_INTERNAL_ERROR WSMAN_DETAIL_INVALID None) as [f' Hf'].
  rewrite Hk2, Hr, Hf'. cbn zeta. cbn in Hmr.
  destruct (pullResultPtr (incr_index e')) as [d|]; [destruct (ws_xml_get_child _ _ _ _);
    [destruct (_ || _)|]|]; eexists _, _, _; split; try done; split; try done.
  - cbn. by rewrite Hmr, Hi, Hm2, Hm1.
  - cbn. by rewrite Hmk2, Hm2.
  - rewrite Hmk2, Hm2, Hm1. by destruct f'.
  - cbn. by rewrite Hmk2, Hm2.
Qed.

(** C6: a Pull runs to its end without touching freed memory or failing an
    assertion, whatever the request and the state of the other threads, leaves
    no context locked that it found unlocked, and removes the context it was
    given exactly when its answer says EndOfSequence; no other context of the
    table is affected. *)
Theorem wsenum_pull_stub_safe c own ex now ep msg indoc :
  winv (World c own ex) → comparable msg c → endpoint_ok ep →
  ∃ rv r c', wsenum_pull_stub now ep msg indoc c = Some (rv, r, c') ∧
    winv (World c' own ex) ∧
    cmap c' = table_after indoc WSENUM_PULL (end_of_sequence r) (cmap c).
Proof.
  intros I Hc Hep. set (t := fresh (dom own)).
  destruct (fresh_thread own 1%positive) as [Ht _]. fold t in Ht.
  destruct (run_lock t c own ex msg indoc WSENUM_PULL I Hc Ht) as (c1 & r & st & Hg & Hr).
  unfold wsenum_pull_stub. rewrite Hg, some_bind. destruct r as [p|].
  2: { subst c1. destruct (fault_response_defined (st_code st) (st_detail st) None) as [f ->].
       eexists _, _, _. split; [done|]. split; [done|]. destruct f; cbn; by rewrite table_after_false. }
  destruct Hr as (I1 & Hm1 & e & He & Hid). destruct (fresh_thread own p) as [_ Hd]. fold t in Hd.
  assert (<[t:=p]> own !! t = Some p) as Ho by apply lookup_insert_eq.
  unfold table_after. rewrite Hid, <- Hm1, He, some_bind.
  assert (Hwd : ∀ c', winv (World c' (delete t (<[t:=p]> own)) ex) → winv (World c' own ex))
    by (intros c'; by rewrite Hd).
  destruct (Hep e) as [Hi Hw]. destruct (ep e) as [[rv e'] st'] eqn:Eep. cbn in Hi, Hw.
  destruct (run_work t c1 _ ex p e (λ _, e') I1 Ho He Hi Hw) as (c2 & -> & He2 & I2 & Hm2).
  rewrite some_bind. destruct (run_keep t c2 _ ex p now I2 Ho) as (ck & Hk & Ik & Hmk).
  destruct (fault_response_defined (st_code st') (st_detail st') None) as [f Hf].
  destruct (negb (rv =? 0)).
  { rewrite Hf, some_bind, Hk. eexists _, _, _. split; [done|]. split; [by apply Hwd|].
    rewrite Hmk, Hm2. by destruct f. }
  destruct (run_work t c2 _ ex p e' incr_index I2 Ho He2 eq_refl eq_refl) as (c3 & -> & He3 & I3 & Hm3).
  rewrite some_bind. destruct (run_keep t c3 _ ex p now I3 Ho) as (ck3 & Hk3 & Ik3 & Hmk3).
  destruct (run_remove t c3 _ ex p _ I3 Ho He3) as (cr & Hr & Ir & Hmr).
  rewrite Hk3, Hr. cbn zeta. destruct (pullResultPtr e'); eexists _, _, _; split; try done;
    (split; [by apply Hwd|]); cbn; [by rewrite Hmk3, Hm3, Hm2|].
  rewrite Hmr. cbn. by rewrite Hi, Hm3, Hm2.
Qed.

(** A Release runs to its end in the same way; it removes the context
    exactly when its answer is not a fault. *)
Theorem wsenum_release_stub_safe c own ex now ep msg indoc :
  winv (World c own ex) → comparable msg c → (∀ f, ep = Some f → endpoint_ok f) →
  ∃ rv r c', wsenum_release_stub now ep msg indoc c = Some (rv, r, c') ∧
    winv (World c' own ex) ∧
    cmap c' = table_after indoc WSENUM_RELEASE
                (match r with Some (REnum _) => true | _ => false end) (cmap c).
Proof.
  intros I Hc Hep. set (t := fresh (dom own)).
  destruct (fresh_thread own 1%positive) as [Ht _]. fold t in Ht.
  destruct (run_lock t c own ex msg indoc WSENUM_RELEASE I Hc Ht) as (c1 & r & st & Hg & Hr).
  unfold wsenum_release_stub. rewrite Hg, some_bind. destruct r as [p|].
  2: { subst c1. destruct (fault_response_defined (st_code st) (st_detail st) None) as [f ->].
       eexists _, _, _. split; [done|]. split; [done|]. destruct f; cbn; by rewrite table_after_false. }
  destruct Hr as (I1 & Hm1 & e & He & Hid). destruct (fresh_thread own p) as [_ Hd]. fold t in Hd.
  assert (<[t:=p]> own !! t = Some p) as Ho by apply lookup_insert_eq.
  unfold table_after. rewrite Hid, <- Hm1, He, some_bind.
  assert (Hwd : ∀ c', winv (World c' (delete t (<[t:=p]> own)) ex) → winv (World c' own ex))
    by (intros c'; by rewrite Hd).
  set (run := match ep with Some f => f e | None => (0, e, st) end).
  assert (enumId run.1.2 = enumId e ∧ in_work run.1.2 = in_work e) as [Hi Hw].
  { unfold run. destruct ep as [f|]; [by apply Hep|done]. }
  destruct run as [[rv e'] st']. cbn in Hi, Hw.
  destruct (run_work t c1 _ ex p e (λ _, e') I1 Ho He Hi Hw) as (c2 & -> & He2 & I2 & Hm2).
  rewrite some_bind. destruct (run_keep t c2 _ ex p now I2 Ho) as (ck & Hk & Ik & Hmk).
  destruct (fault_response_defined WSMAN_INTERNAL_ERROR OWSMAN_DETAIL_ENDPOINT_ERROR None) as [f Hf].
  destruct (run_remove t c2 _ ex p _ I2 Ho He2) as (cr & Hr & Ir & Hmr).
  rewrite Hk, Hr, Hf. destruct (negb (rv =? 0)); eexists _, _, _; (split; [done|]); (split; [by apply Hwd|]).
  - rewrite Hmk, Hm2. by destruct f.
  - cbn. by rewrite Hmr, Hi, Hm2.
Qed.

(** ** The timeouts manager *)

(** The contexts whose release endpoint is called. *)
Definition to_release (h : gmap positive WsEnumerateInfo) (p : positive) : option string :=
  e ← h !! p; if releaseproc e then Some (enumId e) else None.

Lemma to_release_delete h (ps : list positive) p :
  p ∉ ps → omap (to_release (delete p h)) ps = omap (to_release h) ps.
Proof.
  induction ps as [|q ps IH]; [done|]. rewrite not_elem_of_cons. intros [Hn Hp]. cbn.
  rewrite (IH Hp). unfold to_release at 1 2. by rewrite lookup_delete_ne.
Qed.

Lemma release_expired_spec own ex (ps : list positive) : ∀ c rel,
  winv (World c own (ex ++ ps)) →
  ∃ c', release_expired ps c rel = Some (c', rel ++ omap (to_release (e_heap c)) ps) ∧
    winv (World c' own ex) ∧ cmap c' = cmap c ∧
    (∀ p, e_heap c' !! p = if decide (p ∈ ps) then None else e_heap c !! p).
Proof.
  induction ps as [|p ps IH]; intros c rel I.
  { exists c. rewrite app_nil_r in I. cbn. rewrite app_nil_r. by split_and!. }
  pose proof (wi_nodup _ I) as Hnd. cbn in Hnd. apply NoDup_app in Hnd as (_ & _ & Hnd).
  apply NoDup_cons in Hnd as [Hp Hnd].
  destruct (wi_expired _ I p) as [[e He] _]; [cbn; set_solver|]. cbn in He.
  assert (Hd : destroy_enuminfo p c = Some (set_heap (delete p (e_heap c)) c))
    by (unfold destroy_enuminfo; by rewrite He).
  pose proof (winv_free _ _ _ _ _ _ I Hd) as I'.
  cbn [release_expired]. rewrite He, some_bind, Hd, some_bind.
  destruct (IH _ (if releaseproc e then rel ++ [enumId e] else rel) I')
    as (c' & -> & I'' & Hm & Hh).
  exists c'. cbn [e_heap set_heap] in *. rewrite to_release_delete by done. split_and!.
  - cbn. unfold to_release at 2. rewrite He. cbn. by destruct (releaseproc e); [rewrite <- app_assoc|].
  - done.
  - done.
  - intros q. rewrite Hh. destruct (decide (q = p)) as [->|Hne].
    + rewrite lookup_delete_eq, (decide_True (P := p ∈ p :: ps)) by set_solver. by destruct (decide _).
    + rewrite lookup_delete_ne by done. apply decide_ext. set_solver.
Qed.

(** The timeouts manager removes from the table exactly the contexts that
    no thread is working on and that have been idle for the idle timeout or
    have passed their expiration time, frees exactly those, and calls the
    release endpoint of exactly those that have one; contexts in work are
    never collected. *)
Theorem wsman_timeouts_manager_spec c own ex now :
  winv (World c own ex) → enumIdleTimeout c ≠ 0 →
  ∃ c' released, wsman_timeouts_manager now c = Some (c', released) ∧ winv (World c' own ex) ∧
    (∀ k p e, cmap c !! k = Some p → e_heap c !! p = Some e →
       if info_expired now (enumIdleTimeout c) e
       then in_work e = false ∧ cmap c' !! k = None ∧ e_heap c' !! p = None
       else cmap c' !! k = Some p ∧ e_heap c' !! p = Some e) ∧
    (∀ k, cmap c !! k = None → cmap c' !! k = None) ∧
    (∀ id, id ∈ released ↔ ∃ p e, cmap c !! id = Some p ∧ e_heap c !! p = Some e ∧
       info_expired now (enumIdleTimeout c) e = true ∧ releaseproc e = true).
Proof.
  intros I Ha. destruct (scan_spec now c (wi_store _ I) Ha) as (t' & kvs & Hg & Ok & Em & Hnd & Hin).
  pose proof (winv_scan _ _ _ _ _ _ I Hg) as I1.
  destruct (release_expired_spec own ex kvs.*2 _ [] I1) as (c' & Hrel & I' & Hm & Hh).
  unfold wsman_timeouts_manager. rewrite Hg, some_bind. cbn in *. exists c', (omap (to_release (e_heap c)) kvs.*2).
  assert (Hx : ∀ k p e, cmap c !! k = Some p → e_heap c !! p = Some e →
            collectable now c p = info_expired now (enumIdleTimeout c) e).
  { intros k p e _ He. unfold collectable. by rewrite He. }
  assert (Hp : ∀ k p, cmap c !! k = Some p → p ∈ kvs.*2 ↔ collectable now c p = true).
  { intros k p Hk. rewrite list_elem_of_fmap. split.
    - by intros ([k' p'] & -> & [_ ?]%Hin).
    - intros Hc. exists (k, p). split; [done|]. by apply Hin. }
  split_and!; [done|done| | |].
  - intros k p e Hk He. specialize (Hx k p e Hk He). rewrite Hh, Hm, Em. specialize (Hp k p Hk).
    destruct (info_expired now _ e) eqn:Ex.
    + rewrite decide_True by by apply Hp. split_and!; [| |done].
      * unfold info_expired in Ex. by destruct (in_work e).
      * apply map_lookup_filter_None. right. intros p' Hk'. cbn. congruence.
    + rewrite decide_False by (rewrite Hp; congruence). split; [|done].
      by apply map_lookup_filter_Some.
  - intros k Hk. rewrite Hm, Em. apply map_lookup_filter_None. by left.
  - intros id. rewrite list_elem_of_omap. split.
    + intros (p & Hq & Hr). apply list_elem_of_fmap in Hq as ([k p'] & -> & [Hk Hc]%Hin). cbn in Hr.
      destruct (wi_live _ I k p' Hk) as (e & He & <-). cbn in He.
      unfold to_release in Hr. rewrite He in Hr. cbn in Hr. destruct (releaseproc e) eqn:Er; [|done].
      injection Hr as <-. exists p', e. split_and!; try done. by rewrite <- (Hx _ _ _ Hk He).
    + intros (p & e & Hk & He & Hc & Hr). exists p. split.
      * apply (Hp id p Hk). by rewrite (Hx _ _ _ Hk He).
      * unfold to_release. rewrite He. cbn. rewrite Hr.
        destruct (wi_live _ I id p Hk) as (e' & He' & <-). cbn in He'. congruence.
Qed.

(** A Pull or Release is let into a context when its To and ResourceURI
    are those of the Enumerate and its user name or its password is the
    context's: the access check refuses only a request that differs in both.
    A request without credentials is always let in, and a request with
    credentials for a context created without them makes the server compare
    with a NULL string. *)
Theorem verify_enum_info_access msg e doc :
  header_text doc XML_NS_ADDRESSING WSA_TO = Some (epr_to e) →
  header_text doc XML_NS_WS_MAN WSM_RESOURCE_URI = Some (epr_uri e) →
  wsman_verify_enum_info msg e doc status_init =
  match username msg, password msg with
  | Some u, Some p =>
      match auth_username e, auth_password e with
      | Some u', Some p' =>
          if decide (u ≠ u' ∧ p ≠ p')
          then Some (false, Status WSMAN_ACCESS_DENIED WSMAN_DETAIL_OK None)
          else Some (true, status_init)
      | Some u', None => if decide (u = u') then Some (true, status_init) else None
      | None, _ => None
      end
  | _, _ => Some (true, status_init)
  end.
Proof.
  intros Hto Huri. unfold wsman_verify_enum_info. rewrite Hto, Huri.
  rewrite !(proj2 (str_eqb_eq _ _) eq_refl). cbn [negb orb].
  destruct (username msg) as [u|], (password msg) as [p|]; try done.
  destruct (auth_username e) as [u'|]; [|done]. cbn.
  destruct (str_eqb u u') eqn:Eu; [apply str_eqb_eq in Eu|apply str_eqb_neq in Eu]; cbn;
    destruct (auth_password e) as [p'|]; cbn; repeat destruct (decide _); try done; try naive_solver.
  all: destruct (str_eqb p p') eqn:Ep; [apply str_eqb_eq in Ep|apply str_eqb_neq in Ep]; cbn;
    naive_solver.
Qed.

(** ** Opening a context *)

(** What an endpoint of Enumerate must leave alone: the name, the lock, the
    address and the credentials of the context. *)
Definition opener_ok (ep : endpoint) : Prop :=
  ∀ e, let e' := (ep e).1.2 in
  enumId e' = enumId e ∧ in_work e' = in_work e ∧ epr_to e' = epr_to e ∧ epr_uri e' = epr_uri e ∧
  auth_username e' = auth_username e ∧ auth_password e' = auth_password e.

(** The context of a request: its name, address and credentials. *)
Definition context_of (uuid : string) (msg : WsmanMessage) (indoc : xnode) e : Prop :=
  enumId e = uuid ∧ in_work e = false ∧
  header_text indoc XML_NS_ADDRESSING WSA_TO = Some (epr_to e) ∧
  header_text indoc XML_NS_WS_MAN WSM_RESOURCE_URI = Some (epr_uri e) ∧
  auth_username e = username msg ∧
  (is_Some (username msg) → auth_password e = password msg).

Section Open.
Context (strtod_round : string → Z * string) (mktime : tm → Z).

Lemma create_enum_info_context now isdst uuid release msg maxsize indoc f e :
  create_enum_info strtod_round mktime true now isdst uuid release msg maxsize indoc
    = Some (f, Some e) →
  f = None ∧ context_of uuid msg indoc e.
Proof.
  unfold create_enum_info. cbn [negb]. intros Hc. unfold context_of.
  destruct (header_text indoc XML_NS_ADDRESSING WSA_TO) as [to|]; [|by bind_inv Hc].
  destruct (header_text indoc XML_NS_WS_MAN WSM_RESOURCE_URI) as [uri|]; [|by bind_inv Hc].
  apply bind_Some in Hc as ([exp code] & _ & Hc).
  destruct (decide (code ≠ WSMAN_RC_OK)); [by bind_inv Hc|]. injection Hc as <- <-. cbn.
  split; [done|]. split_and!; try done; by destruct (username msg).
Qed.

Lemma context_accepts uuid msg indoc doc e :
  context_of uuid msg indoc e →
  header_text doc XML_NS_ADDRESSING WSA_TO = header_text indoc XML_NS_ADDRESSING WSA_TO →
  header_text doc XML_NS_WS_MAN WSM_RESOURCE_URI = header_text indoc XML_NS_WS_MAN WSM_RESOURCE_URI →
  wsman_verify_enum_info msg e doc status_init = Some (true, status_init).
Proof.
  intros (Hi & Hw & Hto & Huri & Hu & Hp) E1 E2. unfold wsman_verify_enum_info.
  rewrite E1, E2, Hto, Huri.
  assert (∀ s, str_eqb s s = true) as Hrefl by (intros s; by apply str_eqb_eq).
  rewrite !Hrefl. cbn [negb orb]. rewrite Hu. destruct (username msg) as [u|]; [|done].
  destruct (password msg); [|done]. cbn. by rewrite Hrefl.
Qed.

Lemma enumerate_finish_cases now indoc e c r c' own ex :
  winv (World c own ex) → in_work e = false → cmap c !! enumId e = None →
  store_count (enuminfos c) < store_capacity →
  enumerate_finish true now indoc e c = Some (Some (REnum r), c') →
  match r_context r with
  | Some (Some id) => id = enumId e ∧ winv (World c' own ex) ∧
      ∃ p e', cmap c' = <[id := p]> (cmap c) ∧ e_heap c' !! p = Some e' ∧
        (e' = set_timeStamp now e ∨ e' = set_timeStamp now (incr_index e))
  | _ => c' = c
  end.
Proof.
  intros I Hw Hk Hc. unfold enumerate_finish.
  set (e1 := match pullResultPtr e with Some _ => incr_index e | None => e end).
  assert (He1 : e1 = e ∨ e1 = incr_index e) by (unfold e1; destruct (pullResultPtr e); auto).
  assert (in_work e1 = false ∧ enumId e1 = enumId e) as [Hw1 Hi1] by (destruct He1 as [->| ->]; done).
  destruct (negb _); [by intros [= <- <-]|]. destruct (_ && _); [by intros [= <- <-]|].
  rewrite <- Hi1 in Hk. set (p := fresh (dom (e_heap c))).
  destruct (insert_enum_info true now p _) as [[c1 rv]|] eqn:Hins; [|done].
  rewrite some_bind. intros [= <- <-]. cbn.
  assert (rv = 0 ∧ cmap c1 = <[enumId e1 := p]> (cmap c) ∧ e_heap c1 !! p = Some (set_timeStamp now e1))
    as (-> & Hm & Hh).
  { unfold insert_enum_info, update_info in Hins. cbn in Hins. rewrite lookup_insert_eq in Hins.
    cbn in Hins. destruct (store_add_spec (enuminfos c) (enumId e1) p (wi_store _ I) Hk Hc)
      as (t' & Ht & Ok & Em). rewrite Ht in Hins. cbn in Hins. injection Hins as <- <-. cbn.
    by rewrite lookup_insert_eq. }
  split; [done|]. split; [by eapply winv_insert|]. exists p, (set_timeStamp now e1).
  split_and!; [done|done|]. destruct He1 as [->| ->]; auto.
Qed.

Lemma enumerate_finish_enum ok now indoc e c r c' :
  enumerate_finish ok now indoc e c = Some (r, c') → ∃ q, r = Some (REnum q).
Proof.
  unfold enumerate_finish. destruct (negb _); [intros [= <- _]; eauto|].
  destruct (_ && _); [intros [= <- _]; eauto|].
  destruct (insert_enum_info _ _ _ _) as [[c1 rv]|]; [|done].
  rewrite some_bind. intros [= <- _]. eauto.
Qed.

(** C5: an Enumerate whose answer carries an enumeration context has put one
    new context of that name into the table, leaving the others alone, and a
    later Pull with that name, the same To and ResourceURI and the same
    credentials is given exactly that context; an answer without a context
    leaves the table as it was. *)
Theorem enumerate_then_pull mt mc now isdst uuid release ep msg maxsize indoc c own ex rv r c' :
  winv (World c own ex) → cmap c !! uuid = None → store_count (enuminfos c) < store_capacity →
  (∀ f, ep = Some f → opener_ok f) →
  wsenum_enumerate_stub strtod_round mktime mt mc true true now isdst uuid release ep msg maxsize
    indoc c = Some (rv, Some (REnum r), c') →
  match r_context r with
  | Some (Some id) => id = uuid ∧ winv (World c' own ex) ∧
      ∃ p, cmap c' = <[uuid := p]> (cmap c) ∧
        ∀ doc, request_context WSENUM_PULL doc = Some uuid →
          header_text doc XML_NS_ADDRESSING WSA_TO = header_text indoc XML_NS_ADDRESSING WSA_TO →
          header_text doc XML_NS_WS_MAN WSM_RESOURCE_URI =
            header_text indoc XML_NS_WS_MAN WSM_RESOURCE_URI →
          ∃ c'', get_locked_enuminfo msg doc WSENUM_PULL status_init c' = Some (c'', Some p, status_init)
  | _ => c' = c
  end.
Proof.
  intros I Hk Hc Hep. unfold wsenum_enumerate_stub.
  destruct (quota_exceeded mt mc c).
  { destruct (fault_response_defined WSMAN_QUOTA_LIMIT OWSMAN_NO_DETAILS
      (Some "The service is busy servicing other requests. Try later.")) as [f ->].
    by destruct f. }
  destruct (create_enum_info _ _ _ _ _ _ _ _ _ _) as [[f [e|]]|] eqn:Hcr; [|by destruct f|done].
  destruct (create_enum_info_context _ _ _ _ _ _ _ _ _ Hcr) as [-> Hctx]. rewrite !some_bind.
  set (run := match ep with Some f => f e | None => (0, e, status_init) end).
  assert (context_of uuid msg indoc run.1.2) as Hctx'.
  { unfold run. destruct ep as [g|]; [|done]. destruct (Hep g eq_refl e) as (E1 & E2 & E3 & E4 & E5 & E6).
    unfold context_of in *. by rewrite E1, E2, E3, E4, E5, E6. }
  destruct run as [[rv' e1] st]. cbn in Hctx'. destruct (negb _).
  { destruct (fault_response_defined (st_code st) (st_detail st) (st_msg st)) as [f ->]. by destruct f. }
  destruct (enumerate_finish _ _ _ _ _) as [[r1 c1]|] eqn:Hf; [|done].
  rewrite some_bind. intros [= -> -> ->]. destruct Hctx' as (Hi & Hw & Hrest). rewrite <- Hi in Hk.
  pose proof (enumerate_finish_cases _ _ _ _ _ _ own ex I Hw Hk Hc Hf) as H.
  destruct (r_context r) as [[id|]|]; [|done..]. destruct H as (-> & I' & p & e' & Hm & He & Hcase).
  rewrite Hi in *. split; [done|]. split; [done|]. exists p. split; [done|].
  intros doc Hid Hto Huri. unfold get_locked_enuminfo.
  assert (context_of uuid msg indoc e') as Hctx'.
  { unfold context_of. by destruct Hcase as [->| ->]. }
  pose proof (context_accepts _ _ _ _ _ Hctx' Hto Huri) as Hv. destruct Hctx' as (Hi' & Hw' & _).
  rewrite Hid, store_find_spec, some_bind, Hm, lookup_insert_eq, He, some_bind by apply (wi_store _ I').
  rewrite (proj2 (str_eqb_eq _ _) Hi'). cbn [negb]. rewrite Hv, some_bind, Hw'.
  unfold update_info. rewrite He. by eexists.
Qed.

(** An Enumerate request with the headers it needs whose Expires starts
    with [P] and is not a duration makes the server dereference a NULL
    context: the fault for it has no entry in the fault table, so that
    [create_enum_info] reports neither a fault nor a context. *)
Theorem enumerate_bad_expires_crashes mt mc entry_ok now isdst uuid release ep msg maxsize indoc c t :
  let expires := ws_xml_get_child
    (ws_xml_get_child (ws_xml_get_soap_body (Some indoc)) 0 (Some XML_NS_ENUMERATION)
       (Some WSENUM_ENUMERATE)) 0 (Some XML_NS_ENUMERATION) (Some WSENUM_EXPIRES) in
  quota_exceeded mt mc c = false →
  is_Some (header_text indoc XML_NS_ADDRESSING WSA_TO) →
  is_Some (header_text indoc XML_NS_WS_MAN WSM_RESOURCE_URI) →
  ws_xml_get_node_text expires = Some (String "P"%char t) →
  ws_deserialize_duration strtod_round (Some (String "P"%char t)) = Some None →
  wsenum_enumerate_stub strtod_round mktime mt mc true entry_ok now isdst uuid release ep msg
    maxsize indoc c = None.
Proof.
  intros node Hq [to Hto] [uri Huri] Ht Hd. unfold wsenum_enumerate_stub, create_enum_info.
  rewrite Hq. cbn [negb]. rewrite Hto, Huri. fold node.
  destruct node as [n|]; [|done]. rewrite Ht. unfold wsman_set_expiretime.
  cbn [starts_with]. change (code "P"%char =? 80) with true. cbv iota. by rewrite Hd.
Qed.


End Open.
End World.

(** ** A concrete server

    The hash tables as the store, and requests as small trees. *)
Module Sample.
#[local] Existing Instance TreeXml.

Lemma hstore_new_Some : is_Some (@hstore_new positive).
Proof. destruct (store_new_spec (T := hstore) (V := positive)) as (t & E & _). by exists t. Qed.

Definition table0 : hstore positive := is_Some_proj hstore_new_Some.

Lemma is_Some_proj_eq {A} (mx : option A) (H : is_Some mx) : mx = Some (is_Some_proj H).
Proof. destruct mx as [x|]; [done|by destruct H]. Qed.

Lemma table0_new : store_ok table0 ∧ store_map table0 = ∅.
Proof.
  destruct (store_new_spec (T := hstore) (V := positive)) as (t & E & Ok & Em).
  pose proof (eq_trans (eq_sym (is_Some_proj_eq _ hstore_new_Some)) E) as H.
  apply (inj Some) in H. fold table0 in H. rewrite H. split; [exact Ok|exact Em].
Qed.

Definition request (action : string) (c : list xnode) : xnode :=
  el XML_NS_SOAP_1_2 SOAP_ENVELOPE
    [el XML_NS_SOAP_1_2 SOAP_HEADER
       [txt XML_NS_ADDRESSING WSA_TO "http://host/wsman";
        txt XML_NS_WS_MAN WSM_RESOURCE_URI "http://schemas.example/Disk"];
     el XML_NS_SOAP_1_2 SOAP_BODY [el XML_NS_ENUMERATION action c]].

Definition alice : WsmanMessage := Message "UTF-8" (Some "alice") (Some "secret").
Definition mallory : WsmanMessage := Message "UTF-8" (Some "mallory") (Some "secret").

Definition info : WsEnumerateInfo :=
  EnumInfo 0 "uuid:1" 0 0 3 0 0 None (Some "alice") (Some "secret") true "http://host/wsman"
    "http://schemas.example/Disk" "UTF-8".

Definition pull_doc : xnode :=
  request WSENUM_PULL [txt XML_NS_ENUMERATION WSENUM_ENUMERATION_CONTEXT "uuid:1"].
Definition release_doc : xnode :=
  request WSENUM_RELEASE [txt XML_NS_ENUMERATION WSENUM_ENUMERATION_CONTEXT "uuid:1"].

Definition c0 : ecntx (T := hstore) := Ecntx ∅ table0 100.

(** The state after an Enumerate at time 1000. *)
Definition insert1 : option (ecntx (T := hstore) * Z) :=
  insert_enum_info true 1000 (fresh (dom (e_heap c0)))
    (set_heap (<[fresh (dom (e_heap c0)) := info]> (e_heap c0)) c0).
Definition c1 : ecntx (T := hstore) := default c0 (fst <$> insert1).

Lemma c1_insert : insert1 = Some (c1, 0).
Proof.
  assert (snd <$> insert1 = Some 0) as H by (vm_compute; reflexivity).
  unfold c1. destruct insert1 as [[c r]|]; [|discriminate]. by injection H as ->.
Qed.

Lemma c1_idle : enumIdleTimeout c1 ≠ 0.
Proof. assert (enumIdleTimeout c1 = 100) as -> by (vm_compute; reflexivity). done. Qed.

Lemma c0_winv : winv (World c0 ∅ []).
Proof. destruct table0_new as [Ok Em]. by apply winv_init. Qed.

Lemma c0_map : store_map (enuminfos c0) = ∅.
Proof. apply table0_new. Qed.

Lemma c1_winv : winv (World c1 ∅ []).
Proof.
  apply (winv_insert 1000 info c0 ∅ [] c1); [apply c0_winv|reflexivity| |reflexivity|exact c1_insert].
  by rewrite c0_map.
Qed.

Lemma alice_comparable : comparable alice c1.
Proof.
  right; right. intros k p e _ He. assert (e_heap c1 = {[1%positive := set_timeStamp 1000 info]}) as Eh
    by (vm_compute; reflexivity).
  rewrite Eh in He. apply lookup_singleton_Some in He as [_ <-]. by split; eexists.
Qed.

(** One item per Pull, the last one at the third. *)
Definition pull_endpoint : endpoint := λ e,
  (0, EnumInfo (e_flags e) (enumId e) (timeStamp e) (expires e) (totalItems e) (e_maxsize e) (e_index e)
        (if e_index e <? 2 then Some (request WSENUM_PULL_RESP []) else None)
        (auth_username e) (auth_password e) (releaseproc e) (epr_to e) (epr_uri e) (encoding e),
   status_init).

(** A Pull locks the context. *)
Definition lock1 : option (ecntx (T := hstore) * option positive * WsmanStatus) :=
  get_locked_enuminfo alice pull_doc WSENUM_PULL status_init c1.
Definition c2 : ecntx (T := hstore) := default c1 (fst ∘ fst <$> lock1).

Lemma c2_lock : lock1 = Some (c2, Some 1%positive, status_init).
Proof.
  assert ((λ r, (r.1.2, r.2)) <$> lock1 = Some (Some 1%positive, status_init)) as H
    by (vm_compute; reflexivity).
  unfold c2. destruct lock1 as [[[c p] st]|]; [|discriminate]. by injection H as -> ->.
Qed.
End Sample.

Section Witnesses.
Import Sample.
#[local] Existing Instance TreeXml.


Lemma pull_endpoint_ok : endpoint_ok pull_endpoint.
Proof. intros e. done. Qed.

Lemma wsenum_pull_stub_safe_witness :
  ∃ rv r c', wsenum_pull_stub 1010 pull_endpoint alice pull_doc c1 = Some (rv, r, c') ∧
    winv (World c' ∅ []) ∧
    store_map (enuminfos c') =
      table_after pull_doc WSENUM_PULL (end_of_sequence r) (store_map (enuminfos c1)).
Proof.
  exact (wsenum_pull_stub_safe c1 ∅ [] 1010 pull_endpoint alice pull_doc c1_winv alice_comparable
           pull_endpoint_ok).
Defined.

Lemma wsenum_release_stub_safe_witness :
  ∃ rv r c', wsenum_release_stub 1010 None alice release_doc c1 = Some (rv, r, c') ∧
    winv (World c' ∅ []) ∧
    store_map (enuminfos c') =
      table_after release_doc WSENUM_RELEASE (match r with Some (REnum _) => true | _ => false end)
        (store_map (enuminfos c1)).
Proof.
  refine (wsenum_release_stub_safe c1 ∅ [] 1010 None alice release_doc c1_winv alice_comparable _).
  intros f Hf. discriminate Hf.
Defined.

(** The sample: three Pulls, of which the third ends the enumeration. *)
Example three_pulls :
  (r1 ← wsenum_pull_stub 1010 pull_endpoint alice pull_doc c1;
   r2 ← wsenum_pull_stub 1020 pull_endpoint alice pull_doc r1.2;
   r3 ← wsenum_pull_stub 1030 pull_endpoint alice pull_doc r2.2;
   Some (end_of_sequence <$> [r1.1.2; r2.1.2; r3.1.2], store_count (enuminfos r3.2)))
  = Some ([false; false; true], 0).
Proof. vm_compute. reflexivity. Qed.

Lemma wsman_timeouts_manager_spec_witness :
  ∃ c' released, wsman_timeouts_manager 2000 c1 = Some (c', released) ∧ released = ["uuid:1"] ∧
    winv (World c' ∅ []).
Proof.
  destruct (wsman_timeouts_manager_spec c1 ∅ [] 2000 c1_winv c1_idle)
    as (c' & rel & Hr & I & _).
  exists c', rel. split; [exact Hr|]. split; [|exact I].
  assert (snd <$> wsman_timeouts_manager 2000 c1 = Some ["uuid:1"]) as Hx by (vm_compute; reflexivity).
  rewrite Hr in Hx. injection Hx as Hx. exact Hx.
Defined.

Lemma split_result {A C} (o : option (A * C)) a : fst <$> o = Some a → ∃ c, o = Some (a, c).
Proof. destruct o as [[a' c]|]; [|discriminate]. intros [= ->]. by exists c. Qed.

Lemma uuid7_new : store_map (enuminfos c1) !! "uuid:7" = None.
Proof. vm_compute. reflexivity. Qed.

Lemma count1 : store_count (enuminfos c1) < store_capacity.
Proof. vm_compute. reflexivity. Qed.

Definition enumerate_result :=
  wsenum_enumerate_stub decimal_round (λ _, 0) 4 4 true true 1000 0 "uuid:7" true None alice 0
    (request WSENUM_ENUMERATE []) c1.

Lemma enumerate_then_pull_witness :
  ∃ r c' p, enumerate_result = Some (0, Some (REnum r), c') ∧ r_context r = Some (Some "uuid:7") ∧
    store_map (enuminfos c') = <["uuid:7" := p]> (store_map (enuminfos c1)).
Proof.
  set (r := EnumResponse None (Some (Some "uuid:7")) false false None).
  destruct (split_result enumerate_result (0, Some (REnum r)) ltac:(vm_compute; reflexivity)) as [c' E].
  exists r, c'.
  destruct (enumerate_then_pull decimal_round (λ _, 0) 4 4 1000 0 "uuid:7" true None alice 0
    (request WSENUM_ENUMERATE []) c1 ∅ [] 0 r c' c1_winv uuid7_new count1
    ltac:(intros ? [=]) E) as (_ & _ & p & Hp & _).
  exists p. split; [exact E|]. split; [reflexivity|exact Hp].
Defined.

Lemma enumerate_bad_expires_crashes_witness :
  wsenum_enumerate_stub decimal_round (λ _, 0) 4 4 true true 1000 0 "uuid:7" true None alice 0
    (request WSENUM_ENUMERATE [txt XML_NS_ENUMERATION WSENUM_EXPIRES "Pforever"]) c1 = None.
Proof.
  refine (enumerate_bad_expires_crashes decimal_round (λ _, 0) 4 4 true 1000 0 "uuid:7" true None alice 0
    (request WSENUM_ENUMERATE [txt XML_NS_ENUMERATION WSENUM_EXPIRES "Pforever"]) c1 "forever"
    _ _ _ _ _); try (vm_compute; reflexivity); eexists; vm_compute; reflexivity.
Defined.


Lemma verify_enum_info_access_witness :
  wsman_verify_enum_info mallory info pull_doc status_init = Some (true, status_init).
Proof.
  exact (verify_enum_info_access mallory info pull_doc eq_refl eq_refl).
Defined.
End Witnesses.
