(* ===== verification/Subscribe.v ===== *)
(** * Subscriptions ([wsman-soap.c], [wsman-soap-envelope.c])

    How a Subscribe request becomes a subscription: the checks of
    [create_subs_info], the credentials and the filter it reads from the
    request, and the template of the notifications.  [None] is an access
    through a NULL or unterminated string; a fault is a value. *)

From S2P Require Import Prelude.
From S2P Require Import CString.
From S2P Require Import Names.
From S2P Require Import Xml.
From S2P Require Import Faults.
From S2P Require Import Duration.
From S2P Require Import Envelope.
From S2P Require Import Uri.
From S2P Require Import Epr.
From S2P Require Import Filter.
From S2P Require Import EventPool.
From S2P Require Import Requests.
From S2P Require Import Dispatcher.
From S2P Require Import Enumeration.

#[local] Open Scope string_scope.
#[local] Open Scope list_scope.
#[local] Open Scope Z_scope.
#[local] Open Scope ow_scope.

Definition WSMAN_SUBSCRIBEINFO_UNSUBSCRIBE : Z := 0x01.
Definition WSMAN_SUBSCRIBEINFO_BOOKMARK_DEFAULT : Z := 0x04.
Definition WSMAN_SUBSCRIPTION_NOTIFICAITON_PENDING : Z := 0x80.
Definition WSMAN_SUBSCRIPTION_CANCELLED : Z := 0x100.

Definition WS_EVENT_DELIVERY_MODE_PUSH : Z := 1.
Definition WS_EVENT_DELIVERY_MODE_PUSHWITHACK : Z := 2.
Definition WS_EVENT_DELIVERY_MODE_EVENTS : Z := 3.
Definition WS_EVENT_DELIVERY_MODE_PULL : Z := 4.

(** The callbacks of the plugin are only known to be set or not. *)
Record WsSubscribeInfo := SubsInfo {
  s_flags : Z;
  heartbeatCountdown : Z;
  subsId : string;
  soapNs : option string;
  s_uri : option string;
  epr_notifyto : option string;
  s_username : option string;
  s_password : option string;
  certificate_thumbprint : option string;
  locale : option string;
  contentEncoding : option string;
  s_expires : Z;
  deliveryMode : Z;
  deliveryAuthType : Z;
  heartbeatInterval : Z;
  eventSentLastTime : bool;
  bookmarkDoc : option xnode;
  bookmarksFlag : bool;
  s_filter : option Filter.filter_t;
  s_auth : option string * option string;
  eventpoll : bool;
  s_cancel : bool;
  templateDoc : option xnode;
  heartbeatDoc : option xnode;
}.

(** ** Documents *)

Section Documents.
Context {LX : Libxml2}.

(** The copy of a document does not have the attributes of its root. *)
Definition ws_xml_duplicate_doc (srcDoc : option xnode) : option xnode :=
  match ws_xml_get_doc_root srcDoc with
  | Some (XElement ns name _ c) =>
      Some (foldl add_node (ws_xml_create_doc ns name) (ws_xml_duplicate_tree <$> element_children c))
  | _ => None
  end.

Definition wants_ack (mode : Z) : bool :=
  (mode =? WS_EVENT_DELIVERY_MODE_EVENTS) || (mode =? WS_EVENT_DELIVERY_MODE_PUSHWITHACK).

Definition notify_to_node (indoc : xnode) : option xnode :=
  child (child (child (ws_xml_get_soap_body (Some indoc)) XML_NS_EVENTING WSEVENT_SUBSCRIBE)
           XML_NS_EVENTING WSEVENT_DELIVERY) XML_NS_EVENTING WSEVENT_NOTIFY_TO.

(** With reference properties, the children of the NotifyTo element itself are
    copied. *)
Definition template_headers (indoc : xnode) (mode : Z) (notifyto : option string) : list xnode :=
  let node := notify_to_node indoc in
  let node := match child node XML_NS_ADDRESSING WSA_REFERENCE_PROPERTIES with
              | None => child node XML_NS_ADDRESSING WSA_REFERENCE_PARAMETERS
              | Some _ => node
              end in
  [text_node (Some XML_NS_ADDRESSING) WSA_TO notifyto] ++
  (if wants_ack mode then [text_node (Some XML_NS_WS_MAN) WSM_ACKREQUESTED None] else []) ++
  duplicate_children node.

(** The two documents of a subscription. *)
Definition create_notification_template (indoc : xnode) (mode : Z) (notifyto : option string)
  : option xnode * option xnode :=
  let doc := Some (envelope (template_headers indoc mode notifyto) []) in
  let action := ws_xml_add_node_attr (text_node (Some XML_NS_ADDRESSING) WSA_ACTION (Some WSMAN_ACTION_HEARTBEAT))
                  (Some XML_NS_XML_SCHEMA) SOAP_MUST_UNDERSTAND (Some "true") in
  (ws_xml_duplicate_doc doc,
   update_soap_header (λ h, add_node h action) <$> ws_xml_duplicate_doc doc).
End Documents.

(** ** Checking a request *)

Definition cbind {A B} (c : option (checked A)) (k : A → option (checked B)) : option (checked B) :=
  r ← c; match r with inl f => Some (inl f) | inr a => k a end.

Notation "'let?' x := c 'in' k" := (cbind c (λ x, k))
  (at level 100, x name, c at level 99, k at level 200, right associativity) : ow_scope.

Definition refuse {A} (c : WsmanFaultCodeType) (d : WsmanFaultDetailType) : option (checked A) :=
  Some (inl (c, d)).
Definition accept {A} (a : A) : option (checked A) := Some (inr a).

Definition destination_reachable (url : string) : option bool :=
  match strstr url "http" with
  | None => Some false
  | Some _ =>
      u_uri_parse url ≫= λ r : option u_uri_t,
      Some (match r with Some _ => true | None => false end)
  end.

(** The security profiles, with their numbers. *)
Definition auth_profiles : list (string * Z) :=
  [(WSMAN_SECURITY_PROFILE_HTTP_BASIC, 1); (WSMAN_SECURITY_PROFILE_HTTP_DIGEST, 2);
   (WSMAN_SECURITY_PROFILE_HTTPS_BASIC, 3); (WSMAN_SECURITY_PROFILE_HTTPS_DIGEST, 4);
   (WSMAN_SECURITY_PROFILE_HTTPS_MUTUAL, 5); (WSMAN_SECURITY_PROFILE_HTTPS_MUTUAL_BASIC, 6);
   (WSMAN_SECURITY_PROFILE_HTTPS_MUTUAL_DIGEST, 7); (WSMAN_SECURITY_PROFILE_HTTPS_SPNEGO_KERBEROS, 8);
   (WSMAN_SECURITY_PROFILE_HTTPS_MUTUAL_SPNEGO_KERBEROS, 9);
   (WSMAN_SECURITY_PROFILE_HTTP_SPNEGO_KERBEROS, 10)].

Fixpoint profile_type (l : list (string * Z)) (str : string) : option Z :=
  match l with
  | [] => None
  | (p, t) :: l => if strcase_eqb str p then Some t else profile_type l str
  end.

Section Create.
Context {LX : Libxml2}.
Context (strtod_round : string → Z * string) (mktime : tm → Z).

Definition subs_expires (now isdst : Z) (subNode : option xnode) : option (checked Z) :=
  match child subNode XML_NS_EVENTING WSEVENT_EXPIRES with
  | None => accept 0
  | node =>
      '(exp, code) ← wsman_set_expiretime strtod_round mktime now isdst (ws_xml_get_node_text node) 0;
      if decide (code ≠ WSMAN_RC_OK) then refuse code WSMAN_DETAIL_OK
      else if time_expired now exp then refuse WSE_INVALID_EXPIRATION_TIME WSMAN_DETAIL_OK
      else accept exp
  end.

(** Unknown modes are Pull; the default is Push. *)
Definition delivery_mode (delivery : option xnode) : option Z :=
  match delivery, ws_xml_find_node_attr delivery None WSEVENT_DELIVERY_MODE with
  | Some n, Some a =>
      str ← ws_xml_get_attr_value n a;
      Some (if strcase_eqb str WSEVENT_DELIVERY_MODE_PUSH then WS_EVENT_DELIVERY_MODE_PUSH
            else if strcase_eqb str WSEVENT_DELIVERY_MODE_PUSHWITHACK then WS_EVENT_DELIVERY_MODE_PUSHWITHACK
            else if strcase_eqb str WSEVENT_DELIVERY_MODE_EVENTS then WS_EVENT_DELIVERY_MODE_EVENTS
            else WS_EVENT_DELIVERY_MODE_PULL)
  | _, _ => Some WS_EVENT_DELIVERY_MODE_PUSH
  end.

(** The interval and the countdown in milliseconds; [str[0]] of a NULL text is
    an invalid access. *)
Definition heartbeats (delivery : option xnode) : option (checked (Z * Z)) :=
  match child delivery XML_NS_WS_MAN WSM_HEARTBEATS with
  | None => accept (0, 0)
  | node =>
      str ← ws_xml_get_node_text node;
      if starts_with 80 str then
        ws_deserialize_duration strtod_round (Some str) ≫= λ d : option Z,
        match d with
        | None => refuse WSEN_INVALID_EXPIRATION_TIME WSMAN_DETAIL_OK
        | Some timeout => accept (wrap64 (timeout * 1000), sint 64 (timeout * 1000))
        end
      else accept (0, 0)
  end.

(** The event sink and the type of its security profile. *)
Definition event_sink (delivery : option xnode) : option (checked (option string * Z)) :=
  let addr := child delivery XML_NS_EVENTING WSEVENT_NOTIFY_TO in
  match addr, ws_xml_get_node_text (child addr XML_NS_ADDRESSING WSA_ADDRESS) with
  | Some _, Some str =>
      if str_eqb str "" then refuse WSE_INVALID_MESSAGE WSMAN_DETAIL_OK
      else
        reachable ← destination_reachable str;
        if negb reachable then refuse WSMAN_EVENT_DELIVER_TO_UNUSABLE WSMAN_DETAIL_OK
        else
          let auth := child delivery XML_NS_WS_MAN WSM_AUTH in
          match auth, ws_xml_find_node_attr auth None WSM_PROFILE with
          | Some n, Some a =>
              profile ← ws_xml_get_attr_value n a;
              match profile_type auth_profiles profile with
              | Some t => accept (Some str, t)
              | None => refuse WSMAN_INVALID_OPTIONS WSMAN_DETAIL_AUTHERIZATION_MODE
              end
          | _, _ => accept (Some str, 0)
          end
  | _, _ => refuse WSE_INVALID_MESSAGE WSMAN_DETAIL_OK
  end.

(** The flag and the document of a bookmark. *)
Definition bookmark (subNode : option xnode) : Z * option xnode :=
  match child subNode XML_NS_WS_MAN WSM_BOOKMARK with
  | None => (0, None)
  | node =>
      let other := (0, Some (foldl add_node (ws_xml_create_doc (Some XML_NS_WS_MAN) WSM_BOOKMARK)
                               (duplicate_children node))) in
      match ws_xml_get_node_text node with
      | Some t => if str_eqb t WSM_DEFAULTBOOKMARK then (WSMAN_SUBSCRIBEINFO_BOOKMARK_DEFAULT, None) else other
      | None => other
      end
  end.

(** The text of an optional element; duplicating a NULL text is an invalid
    access. *)
Definition dup_text (n : option xnode) : option (option string) :=
  match n with None => Some None | Some _ => s ← ws_xml_get_node_text n; Some (Some s) end.

Definition subs_locale (delivery : option xnode) : option (option string) :=
  let node := child delivery XML_NS_WS_MAN WSM_LOCALE in
  match node, ws_xml_find_node_attr node (Some XML_NS_WS_MAN) WSM_LOCALE with
  | Some n, Some a => s ← ws_xml_get_attr_value n a; Some (Some s)
  | _, _ => Some None
  end.

(** A former identifier is taken over: [strncpy] does not terminate one that
    fills the buffer, and it is read at once. *)
Definition subs_id (uuid : string) (indoc : xnode) : option string :=
  match ws_xml_get_node_text (child (ws_xml_get_soap_header (Some indoc)) XML_NS_OPENWSMAN "FormerUID") with
  | Some id => assert! Z.of_nat (String.length id) <? EUIDLEN; Some id
  | None => Some uuid
  end.

(** All the checks, in their order. *)
Definition subs_info (now isdst : Z) (uuid : string) (msg : WsmanMessage) (indoc : xnode)
  : option (checked WsSubscribeInfo) :=
  uri ← wsman_get_resource_uri (Some indoc) (Some indoc);
  match child (ws_xml_get_soap_body (Some indoc)) XML_NS_EVENTING WSEVENT_SUBSCRIBE with
  | None => refuse WSE_INVALID_MESSAGE WSMAN_DETAIL_OK
  | subNode =>
      soapNs ← ws_xml_get_node_name_ns (Some indoc);
      let sendbookmarks := bool_decide (is_Some (child subNode XML_NS_WS_MAN WSM_SENDBOOKMARKS)) in
      let '(bflag, bdoc) := bookmark subNode in
      let? exp := subs_expires now isdst subNode in
      let delivery := child subNode XML_NS_EVENTING WSEVENT_DELIVERY in
      mode ← delivery_mode delivery;
      dup_text (child delivery XML_NS_WS_MAN WSM_CONTENTCODING) ≫= λ enc : option string,
      subs_locale delivery ≫= λ loc : option string,
      let? hb := heartbeats delivery in
      let? sink := (if mode =? WS_EVENT_DELIVERY_MODE_PULL then accept (None, 0) else event_sink delivery) in
      let? cr := wsman_parse_credentials indoc sink.1 in
      let? req := wsman_parse_event_request indoc bflag in
      id ← subs_id uuid indoc;
      let auth := match username msg with Some u => (Some u, password msg) | None => (None, None) end in
      let docs := if mode =? WS_EVENT_DELIVERY_MODE_PULL then (None, None)
                  else create_notification_template indoc mode sink.1 in
      accept (SubsInfo req.1 hb.2 id (Some soapNs) (Some uri) sink.1 (c_username cr) (c_password cr)
                (c_thumbprint cr) loc enc exp mode sink.2 hb.1 false bdoc sendbookmarks req.2 auth
                false false docs.1 docs.2)
  end.

(** The fault document, if one could be generated, and the subscription. *)
Definition create_subs_info (ns_prefix : string → option string) (now isdst : Z) (uuid muuid : string)
    (msg : WsmanMessage) (indoc : xnode) : option (option xnode * option WsSubscribeInfo) :=
  r ← subs_info now isdst uuid msg indoc;
  match r with
  | inr s => Some (None, Some s)
  | inl (c, d) =>
      generate_fault_document ns_prefix muuid (Some indoc) c d None ≫= λ f : option xnode, Some (f, None)
  end.

(** The response to an accepted request: the reference properties of the
    reply address, then the manager, the expiry and the contexts of the
    subscription.  [expiresstr] is the text of the request's Expires. *)
Definition subscribe_response (indoc : xnode) (expiresstr : option string) (s : WsSubscribeInfo) : xnode :=
  let reply := child (ws_xml_get_soap_header (Some indoc)) XML_NS_ADDRESSING WSA_REPLY_TO in
  let props := child reply XML_NS_ADDRESSING WSA_REFERENCE_PROPERTIES in
  let id := Some ("uuid:" +:+ subsId s) in
  let manager :=
    foldl add_node (text_node (Some XML_NS_EVENTING) WSEVENT_SUBSCRIPTION_MANAGER None)
      [text_node (Some XML_NS_ADDRESSING) WSA_ADDRESS
         (ws_xml_get_node_text (child (ws_xml_get_soap_header (Some indoc)) XML_NS_ADDRESSING WSA_TO));
       add_node (text_node (Some XML_NS_ADDRESSING) WSA_REFERENCE_PARAMETERS None)
         (text_node (Some XML_NS_EVENTING) WSEVENT_IDENTIFIER id)] in
  envelope (response_headers indoc None ++ duplicate_children props)
    [foldl add_node (text_node (Some XML_NS_EVENTING) WSEVENT_SUBSCRIBE_RESP None)
       ([manager] ++
        (if s_expires s =? 0 then [] else [text_node (Some XML_NS_EVENTING) WSEVENT_EXPIRES expiresstr]) ++
        (if deliveryMode s =? WS_EVENT_DELIVERY_MODE_PULL
         then [text_node (Some XML_NS_ENUMERATION) WSENUM_ENUMERATION_CONTEXT id] else []))].
End Create.
