(* ===== verification/Indication.v ===== *)
(** * CIM indications ([wsman-cimindication-processor.c])

    Indications that a CIM object manager exports to the listener: a message is
    checked, each exported instance becomes an event in the pool of the
    subscription the path names, and a response is built.  The trees are those
    of [Xml], the pool that of [EventPool].  The parser and the printer of
    documents are arguments; [None] is a NULL dereference. *)

From S2P Require Import Prelude CString Names Xml EventPool Subscribe.

#[local] Open Scope string_scope.
#[local] Open Scope list_scope.
#[local] Open Scope Z_scope.
#[local] Open Scope ow_scope.

Definition CIMXML_CIM : string := "CIM".
Definition CIMXML_CIMVERSION : string := "CIMVERSION".
Definition CIMXML_DTDVERSION : string := "DTDVERSION".
Definition CIMXML_MESSAGE : string := "MESSAGE".
Definition CIMXML_SIMPLEEXPREQ : string := "SIMPLEEXPREQ".
Definition CIMXML_SIMPLEEXPRSP : string := "SIMPLEEXPRSP".
Definition CIMXML_MULTIEXPREQ : string := "MULTIEXPREQ".
Definition CIMXML_MULTIEXPRSQ : string := "MULTIEXPRSQ".
Definition CIMXML_EXPMETHODCALL : string := "EXPMETHODCALL".
Definition CIMXML_EXPMETHODRESPONSE : string := "EXPMETHODRESPONSE".
Definition CIMXML_EXPPARAMVALUE : string := "EXPPARAMVALUE".
Definition CIMXML_IRETURNVALUE : string := "IRETURNVALUE".
Definition CIMXML_INSTANCE : string := "INSTANCE".
Definition CIMXML_PROPERTY : string := "PROPERTY".
Definition CIMXML_NAME : string := "NAME".
Definition CIMXML_VALUE : string := "VALUE".
Definition CIMXML_CLASSNAME : string := "CLASSNAME".
Definition CIMXML_PROPERTYARRAY : string := "PROPERTY.ARRAY".
Definition CIMXML_VALUEARRAY : string := "VALUE.ARRAY".

Definition XML_NS_CIM_CLASS : string := "http://schemas.dmtf.org/wbem/wscim/1/cim-schema/2".

(** The enumeration, as the numbers of its constructors. *)
Definition CIMXML_STATUS_OK : Z := 0.
Definition CIMXML_STATUS_REQUEST_NOT_VALID : Z := 5.
Definition CIMXML_STATUS_UNSUPPORTED_OPERATION : Z := 9.

Definition HTTP_BAD_REQUEST : Z := 400.
Definition HTTP_FORBIDDEN : Z := 403.
Definition HTTP_NOT_FOUND : Z := 404.

Definition cim_child (p : option xnode) (i : Z) (name : string) : option xnode :=
  ws_xml_get_child p i None (Some name).

(** [while ((node = ws_xml_get_child(parent, n++, NULL, name)))]. *)
Fixpoint while_child {A} (fuel : nat) (parent : option xnode) (n : Z) (name : string) (f : A → xnode → A) (a : A)
  : A :=
  match fuel with
  | O => a
  | S fuel =>
      match cim_child parent n name with
      | Some c => while_child fuel parent (n + 1) name f (f a c)
      | None => a
      end
  end.

(** One round per child and one that finds none. *)
Definition child_fuel (parent : option xnode) : nat :=
  match parent with Some p => S (length (x_children p)) | None => 1 end.

Section Indications.
Context `{Libxml2}.

(** ** Checking *)

Definition isvalidCIMIndicationExport (doc : option xnode) : bool :=
  match doc with
  | None => false
  | Some _ =>
      let node := cim_child (ws_xml_get_doc_root doc) 0 CIMXML_MESSAGE in
      match cim_child node 0 CIMXML_SIMPLEEXPREQ with
      | Some _ => true
      | None => match cim_child node 0 CIMXML_MULTIEXPREQ with Some _ => true | None => false end
      end
  end.

(** ** The response *)

Definition add_child_node (n c : xnode) : xnode :=
  match n with XElement ns name p cs => XElement ns name p (cs ++ [c]) | XOther _ => n end.

Definition plain_node (name : string) : xnode := xmlNewNodeContent None name None.

(** The response to one method call. *)
Definition exp_method_response : xnode :=
  ws_xml_add_child (ws_xml_add_node_attr (plain_node CIMXML_EXPMETHODRESPONSE) None CIMXML_NAME
    (Some "ExportIndication")) None CIMXML_IRETURNVALUE None.

(** The attributes of [innode], added to [outnode] one by one. *)
Definition copy_attrs (innode outnode : xnode) : xnode :=
  foldl (λ out a, ws_xml_add_node_attr out None (xa_name a) (ws_xml_get_attr_value innode a)) outnode
    (x_props innode).

Fixpoint add_responses (n : nat) (out : xnode) : xnode :=
  match n with O => out | S n => add_responses n (add_child_node out exp_method_response) end.

(** Nodes are put into their parents when they are complete: the tree is the
    same. *)
Definition cimxml_build_response_msg (indoc : xnode) : xnode :=
  let root := ws_xml_create_doc None CIMXML_CIM in
  let root := ws_xml_add_node_attr root None CIMXML_CIMVERSION (Some "2.0") in
  let root := ws_xml_add_node_attr root None CIMXML_DTDVERSION (Some "2.0") in
  let innode := cim_child (Some indoc) 0 CIMXML_MESSAGE in
  let message := plain_node CIMXML_MESSAGE in
  let message := match innode with Some i => copy_attrs i message | None => message end in
  match cim_child innode 0 CIMXML_SIMPLEEXPREQ with
  | Some _ =>
      add_child_node root
        (add_child_node message (add_child_node (plain_node CIMXML_SIMPLEEXPRSP) exp_method_response))
  | None =>
      let temp := cim_child innode 0 CIMXML_MULTIEXPREQ in
      let n := Z.to_nat (ws_xml_get_child_count temp) in
      add_child_node root (add_child_node message (add_responses n (plain_node CIMXML_MULTIEXPRSQ)))
  end.

(** ** Events *)

(** [vendor] is the table of vendor namespaces in the order of its scan. *)
Definition get_cim_indication_namespace (uri : option string) (vendor : list (string * string)) (classname : string)
  : option (option string) :=
  uri ← uri;
  match strstr uri XML_NS_CIM_CLASS with
  | Some _ => Some (Some uri)
  | None =>
      Some (snd <$> find (λ kv, match strstr classname kv.1 with Some _ => true | None => false end) vendor)
  end.

(** A child is added unless its name is NULL. *)
Definition add_property (action : option string) (property value : option string) (doc : option xnode)
  : option xnode :=
  match doc, property with
  | Some d, Some p => Some (ws_xml_add_child d action p value)
  | _, _ => doc
  end.

Definition attr_value (node : xnode) (name : string) : option string :=
  a ← ws_xml_find_node_attr (Some node) None name; ws_xml_get_attr_value node a.

(** The text of every PROPERTY. *)
Definition parse_property (action : option string) (doc : option xnode) (node : xnode) : option xnode :=
  add_property action (attr_value node CIMXML_NAME) (ws_xml_get_node_text (Some node)) doc.

(** One child per value of a PROPERTY.ARRAY that has a name. *)
Definition parse_property_array (action : option string) (doc : option xnode) (node : xnode) : option xnode :=
  match ws_xml_find_node_attr (Some node) None CIMXML_NAME with
  | None => doc
  | Some a =>
      let property := ws_xml_get_attr_value node a in
      let valarray := cim_child (Some node) 0 CIMXML_VALUEARRAY in
      while_child (child_fuel valarray) valarray 0 CIMXML_VALUE
        (λ doc v, add_property action property (ws_xml_get_node_text (Some v)) doc) doc
  end.

(** The instance below a request. *)
Definition exported_instance (node : option xnode) : option xnode :=
  let i := cim_child node 0 CIMXML_EXPMETHODCALL in
  let i := cim_child i 0 CIMXML_EXPPARAMVALUE in
  cim_child i 0 CIMXML_INSTANCE.

(** The action of the event: a namespace that is NULL is printed as such. *)
Definition event_action (ns : option string) (classname : string) : string :=
  default "(null)" ns +:+ "/" +:+ classname.

(** The inner [None] is a request without an instance.  Without a class name
    there is no document: the name of its root would be NULL. *)
Definition create_notification_entity (uri : option string) (vendor : list (string * string)) (node : option xnode)
  : option (option WsNotificationInfo) :=
  match exported_instance node with
  | None => Some None
  | Some instance =>
      '(action, doc) ←
        (match ws_xml_find_node_attr (Some instance) None CIMXML_CLASSNAME with
         | Some a =>
             classname ← ws_xml_get_attr_value instance a;
             ns ← get_cim_indication_namespace uri vendor classname;
             let action := event_action ns classname in
             Some (Some action, Some (ws_xml_create_doc (Some action) classname))
         | None => Some (None, None)
         end);
      let parent := Some instance in
      let doc := while_child (child_fuel parent) parent 0 CIMXML_PROPERTY (parse_property action) doc in
      let doc := while_child (child_fuel parent) parent 0 CIMXML_PROPERTYARRAY (parse_property_array action) doc in
      Some (Some (Notification None action doc))
  end.

(** The operation of the pool for the delivery mode; what it refuses is freed. *)
Definition add_event (mode : Z) (uuid : string) (n : option WsNotificationInfo) (p : event_pool)
  : option event_pool :=
  '(_, p) ← (if mode =? WS_EVENT_DELIVERY_MODE_PULL then MemEventPoolAddPullEvent uuid n p
             else MemEventPoolAddEvent uuid n p);
  Some p.

(** [while(i < count)] over the requests of a MULTIEXPREQ. *)
Fixpoint multi_events (fuel : nat) (i : Z) (subs : WsSubscribeInfo) (vendor : list (string * string)) (tmp : xnode)
    (p : event_pool) : option event_pool :=
  match fuel with
  | O => Some p
  | S fuel =>
      n ← create_notification_entity (s_uri subs) vendor (cim_child (Some tmp) i CIMXML_SIMPLEEXPREQ);
      p ← (match n with None => Some p | Some _ => add_event (deliveryMode subs) (subsId subs) n p end);
      multi_events fuel (i + 1) subs vendor tmp p
  end.

Definition create_indication_event (indoc : xnode) (subs : WsSubscribeInfo) (vendor : list (string * string))
    (p : event_pool) : option event_pool :=
  let node := cim_child (Some indoc) 0 CIMXML_MESSAGE in
  match cim_child node 0 CIMXML_MULTIEXPREQ with
  | Some tmp => multi_events (Z.to_nat (ws_xml_get_child_count (Some tmp))) 0 subs vendor tmp p
  | None =>
      n ← create_notification_entity (s_uri subs) vendor (cim_child node 0 CIMXML_SIMPLEEXPREQ);
      add_event (deliveryMode subs) (subsId subs) n p
  end.

(** ** The call *)

(** [cimxml_message_new]: the memory is zeroed, so that the status of the
    response is 0. *)
Record CimxmlMessage := CimMessage {
  cm_code : Z; cm_fault_msg : option string; cm_http_code : Z; cm_response : list Z;
}.

Definition cimxml_message_new : CimxmlMessage := CimMessage CIMXML_STATUS_OK None 0 [].

(** The table of [cimxml_set_fault]. *)
Definition cimxml_code_map : list (Z * string) :=
  [(1, "unsupported-protocol-version"); (2, "multiple-requests-unsupported"); (3, "unsupported-cim-version");
   (4, "unsupported-dtd-version"); (CIMXML_STATUS_REQUEST_NOT_VALID, "request-not-valid");
   (6, "request-not-well-formed"); (7, "request-not-loosely-valid"); (8, "header-mismatch");
   (CIMXML_STATUS_UNSUPPORTED_OPERATION, "unsupported-operatioin")].

Definition cimxml_set_fault (m : CimxmlMessage) (status : Z) : CimxmlMessage :=
  match find (λ c, c.1 =? status) cimxml_code_map with
  | Some (_, reason) => CimMessage status (Some reason) (cm_http_code m) (cm_response m)
  | None => m
  end.

Definition set_http_code (m : CimxmlMessage) (c : Z) : CimxmlMessage :=
  CimMessage (cm_code m) (cm_fault_msg m) c (cm_response m).

(** The walk over the list of subscriptions, each with its vendor namespaces. *)
Fixpoint find_subscription (l : list (WsSubscribeInfo * list (string * string))) (uuid : string)
  : option (WsSubscribeInfo * list (string * string)) :=
  match l with
  | [] => None
  | s :: l => if str_eqb (subsId s.1) uuid then Some s else find_subscription l uuid
  end.

(** [parse] is [ws_xml_read_memory] and [dump] [ws_xml_dump_memory_enc]; the
    identifier may be NULL, which [strcmp] reads unless there is no
    subscription. *)
Definition CIM_Indication_call (parse : list Z → string → option xnode) (dump : xnode → list Z)
    (subs : list (WsSubscribeInfo * list (string * string))) (p : event_pool) (request : list Z) (charset : string)
    (uuid : option string) : option (event_pool * CimxmlMessage) :=
  let m := cimxml_message_new in
  match parse request charset with
  | None => Some (p, cimxml_set_fault (set_http_code m HTTP_BAD_REQUEST) CIMXML_STATUS_REQUEST_NOT_VALID)
  | Some doc =>
      if negb (isvalidCIMIndicationExport (Some doc)) then
        Some (p, cimxml_set_fault (set_http_code m HTTP_FORBIDDEN) CIMXML_STATUS_UNSUPPORTED_OPERATION)
      else
        found ← (match subs with [] => Some None | _ => uuid ← uuid; Some (find_subscription subs uuid) end);
        match found with
        | None => Some (p, cimxml_set_fault (set_http_code m HTTP_NOT_FOUND) CIMXML_STATUS_REQUEST_NOT_VALID)
        | Some (s, vendor) =>
            p ← create_indication_event doc s vendor p;
            Some (p, CimMessage (cm_code m) (cm_fault_msg m) (cm_http_code m)
                       (dump (cimxml_build_response_msg doc)))
        end
  end.

(** ** What an indication becomes *)

Lemma while_child_fold {A} (p : xnode) (name : string) (f : A → xnode → A) :
  ∀ (fuel n : nat) (a : A),
  (length (matching None (Some name) p) - n < fuel)%nat →
  while_child fuel (Some p) (Z.of_nat n) name f a = foldl f a (drop n (matching None (Some name) p)).
Proof.
  induction fuel as [|fuel IH]; intros n a Hf; [lia|]. cbn [while_child]. unfold cim_child.
  rewrite ws_xml_get_child_matching, Nat2Z.id by lia.
  destruct (matching None (Some name) p !! n) as [c|] eqn:E.
  - rewrite (drop_S _ _ _ E). cbn [foldl]. replace (Z.of_nat n + 1) with (Z.of_nat (S n)) by lia.
    apply IH. apply lookup_lt_Some in E. lia.
  - by rewrite drop_ge by (by apply lookup_ge_None).
Qed.

Lemma while_children {A} (p : xnode) (name : string) (f : A → xnode → A) (a : A) :
  while_child (child_fuel (Some p)) (Some p) 0 name f a = foldl f a (matching None (Some name) p).
Proof.
  unfold child_fuel. rewrite (while_child_fold p name f _ O), drop_0; [done|].
  unfold matching. rewrite Nat.sub_0_r. apply Nat.lt_succ_r.
  etrans; [apply length_filter|]. rewrite element_children_filter. apply length_filter.
Qed.

(** The properties of an instance that have a name, in the order the code adds
    them. *)
Definition named (n : option string) (v : option string) : list (string * option string) :=
  match n with Some n => [(n, v)] | None => [] end.

Definition array_values (node : xnode) : list (string * option string) :=
  match cim_child (Some node) 0 CIMXML_VALUEARRAY with
  | Some va =>
      mjoin ((λ v, named (attr_value node CIMXML_NAME) (ws_xml_get_node_text (Some v))) <$>
             matching None (Some CIMXML_VALUE) va)
  | None => []
  end.

Definition instance_properties (i : xnode) : list (string * option string) :=
  mjoin ((λ n, named (attr_value n CIMXML_NAME) (ws_xml_get_node_text (Some n))) <$>
         matching None (Some CIMXML_PROPERTY) i) ++
  mjoin (array_values <$> matching None (Some CIMXML_PROPERTYARRAY) i).

Definition add_pair (action : option string) (doc : option xnode) (kv : string * option string) : option xnode :=
  add_property action (Some kv.1) kv.2 doc.

Lemma foldl_mjoin {A B C} (f : A → B → A) (g : C → list B) (l : list C) :
  ∀ a, foldl f a (mjoin (g <$> l)) = foldl (λ a c, foldl f a (g c)) a l.
Proof. induction l as [|c l IH]; intros a; [done|]. cbn [fmap list_fmap mjoin list_join foldl].
  rewrite foldl_app. apply IH. Qed.

Lemma add_named (action n v : option string) (doc : option xnode) :
  add_property action n v doc = foldl (add_pair action) doc (named n v).
Proof. destruct n; [done|]. by destruct doc. Qed.

Lemma foldl_ext {A B} (f g : A → B → A) : (∀ a b, f a b = g a b) → ∀ l a, foldl f a l = foldl g a l.
Proof. intros E. induction l as [|b l IH]; intros a; [done|]. cbn [foldl]. by rewrite E, IH. Qed.

Lemma parse_array_fold (action : option string) (doc : option xnode) (node : xnode) :
  parse_property_array action doc node = foldl (add_pair action) doc (array_values node).
Proof.
  unfold parse_property_array, array_values, attr_value.
  destruct (cim_child (Some node) 0 CIMXML_VALUEARRAY) as [va|].
  - destruct (ws_xml_find_node_attr (Some node) None CIMXML_NAME) as [a|]; cbv zeta; cbn [mbind option_bind].
    + rewrite while_children, foldl_mjoin. apply foldl_ext. intros. apply add_named.
    + cbn [named]. rewrite foldl_mjoin. by induction (matching None (Some CIMXML_VALUE) va).
  - by destruct (ws_xml_find_node_attr (Some node) None CIMXML_NAME).
Qed.

(** The two loops add the properties of the instance. *)
Lemma properties_fold (action : option string) (i : xnode) (doc : option xnode) :
  (let d := while_child (child_fuel (Some i)) (Some i) 0 CIMXML_PROPERTY (parse_property action) doc in
   while_child (child_fuel (Some i)) (Some i) 0 CIMXML_PROPERTYARRAY (parse_property_array action) d) =
  foldl (add_pair action) doc (instance_properties i).
Proof.
  cbv zeta. rewrite !while_children. unfold instance_properties. rewrite foldl_app, !foldl_mjoin.
  rewrite (foldl_ext _ _ (parse_array_fold action)). f_equal. apply foldl_ext. intros. apply add_named.
Qed.

Context {LL : Libxml2Laws}.

(** The document of an event: its root is the class, below it one element per
    property. *)
Lemma fold_document (ns : option string) (name : string) (props : list xattr) (action : option string)
    (kvs : list (string * option string)) :
  ∀ c, foldl (add_pair action) (Some (XElement ns name props c)) kvs =
       Some (XElement ns name props (c ++ ((λ kv, xmlNewNodeContent action kv.1 kv.2) <$> kvs))).
Proof.
  induction kvs as [|kv kvs IH]; intros c; cbn [foldl fmap list_fmap]; [by rewrite app_nil_r|].
  unfold add_pair at 2. cbn [add_property ws_xml_add_child]. by rewrite IH, <- app_assoc.
Qed.

(** The event of a request for the class [cls] in the namespace [ns]. *)
Definition class_event (ns : option string) (cls : string) (i : xnode) : WsNotificationInfo :=
  let action := event_action ns cls in
  Notification None (Some action)
    (Some (XElement (Some action) cls []
       ((λ kv, xmlNewNodeContent (Some action) kv.1 kv.2) <$> instance_properties i))).

(** A request exports an instance of a named class. *)
Definition exports (n : xnode) (cls : string) (i : xnode) : Prop :=
  exported_instance (Some n) = Some i ∧ attr_value i CIMXML_CLASSNAME = Some cls.

Lemma entity_of_export (uri : string) (vendor : list (string * string)) (n : xnode) (cls : string) (i : xnode) :
  exports n cls i →
  ∃ ns, get_cim_indication_namespace (Some uri) vendor cls = Some ns ∧
  create_notification_entity (Some uri) vendor (Some n) = Some (Some (class_event ns cls i)).
Proof.
  intros [Hi Hc]. unfold create_notification_entity, attr_value in *. rewrite Hi.
  destruct (ws_xml_find_node_attr (Some i) None CIMXML_CLASSNAME) as [a|]; [|done].
  cbn [mbind option_bind] in Hc. rewrite Hc. cbn [mbind option_bind].
  assert (∃ ns, get_cim_indication_namespace (Some uri) vendor cls = Some ns) as [ns Hns]
    by (unfold get_cim_indication_namespace; cbn [mbind option_bind]; destruct (strstr uri _); by eexists).
  exists ns. split; [done|]. rewrite Hns. cbn [mbind option_bind]. pose proof properties_fold as Hp. cbv zeta in Hp.
  rewrite Hp. unfold ws_xml_create_doc. rewrite new_node_empty, fold_document. done.
Qed.

(** The namespace as a function. *)
Definition class_namespace (uri : string) (vendor : list (string * string)) (cls : string) : option string :=
  default None (get_cim_indication_namespace (Some uri) vendor cls).

Lemma entity_event (uri : string) (vendor : list (string * string)) (n : xnode) (cls : string) (i : xnode) :
  exports n cls i →
  create_notification_entity (Some uri) vendor (Some n) =
  Some (Some (class_event (class_namespace uri vendor cls) cls i)).
Proof.
  intros He. destruct (entity_of_export uri vendor n cls i He) as (ns & Hns & ->).
  unfold class_namespace. by rewrite Hns.
Qed.

(** ** The queue of the subscription *)

(** The queue after an event: a queue that is pulled is bounded. *)
Definition accept (mode max : Z) (q : list WsNotificationInfo) (n : WsNotificationInfo) : list WsNotificationInfo :=
  if (mode =? WS_EVENT_DELIVERY_MODE_PULL) && (wrap64 max <? Z.of_nat (length q)) then q else q ++ [n].

(** The pool [p'] is [p] after the events [ns] for the subscription [u]. *)
Definition queued (mode : Z) (u : string) (ns : list WsNotificationInfo) (p p' : event_pool) : Prop :=
  pool_ok p' ∧ fits u p' ∧ max_pull_event_number p' = max_pull_event_number p ∧
  ∀ v, queue v p' =
    if bool_decide (str_lower v = str_lower u)
    then foldl (accept mode (max_pull_event_number p)) (queue u p) ns else queue v p.

Lemma queued_nil (mode : Z) (u : string) (p : event_pool) : pool_ok p → fits u p → queued mode u [] p p.
Proof.
  intros Hp Hf. unfold queued. split_and!; [done|done|done|]. intros v. case_bool_decide as E; [|done].
  unfold queue. by rewrite E.
Qed.

Lemma queued_app (mode : Z) (u : string) (ns ns' : list WsNotificationInfo) (p p1 p2 : event_pool) :
  queued mode u ns p p1 → queued mode u ns' p1 p2 → queued mode u (ns ++ ns') p p2.
Proof.
  intros (Hp1 & Hf1 & Hm1 & Hq1) (Hp2 & Hf2 & Hm2 & Hq2). unfold queued.
  split_and!; [done|done|by rewrite Hm2|]. intros v. rewrite Hq2, Hm1, foldl_app. case_bool_decide as E.
  - by rewrite (Hq1 u), bool_decide_eq_true_2.
  - by rewrite Hq1, bool_decide_eq_false_2.
Qed.

Lemma add_event_queued (mode : Z) (u : string) (n : WsNotificationInfo) (p : event_pool) :
  pool_ok p → fits u p → ∃ p', add_event mode u (Some n) p = Some p' ∧ queued mode u [n] p p'.
Proof.
  intros Hp Hf. unfold add_event, queued, accept. cbn [foldl].
  destruct (mode =? WS_EVENT_DELIVERY_MODE_PULL); cbn [andb].
  - destruct (add_pull_event_spec u n p Hp Hf) as (p' & -> & Hok & Hm & Ha). cbn [mbind option_bind].
    exists p'. split; [done|]. split; [done|]. split; [right; rewrite Ha, lookup_insert_eq; by eexists|].
    split; [done|]. intros v. rewrite (queue_insert _ _ _ _ _ Ha). case_bool_decide; [|done].
    case_match; [by rewrite app_nil_r|done].
  - destruct (add_event_spec u n p Hp Hf) as (p' & -> & Hok & Hm & Ha). cbn [mbind option_bind].
    exists p'. split; [done|]. split; [done|]. split; [right; rewrite Ha, lookup_insert_eq; by eexists|].
    split; [done|]. intros v. by rewrite (queue_insert _ _ _ _ _ Ha).
Qed.

(** ** Messages *)

(** The requests of a message. *)
Definition requests (msg : xnode) : list xnode :=
  match cim_child (Some msg) 0 CIMXML_MULTIEXPREQ with
  | Some tmp => matching None (Some CIMXML_SIMPLEEXPREQ) tmp
  | None => take 1 (matching None (Some CIMXML_SIMPLEEXPREQ) msg)
  end.

Section Call.
Context (s : WsSubscribeInfo) (uri : string) (vendor : list (string * string)) (Huri : s_uri s = Some uri).

Definition event_of (e : string * xnode) : WsNotificationInfo :=
  class_event (class_namespace uri vendor e.1) e.1 e.2.

Abbreviation queued_here := (queued (deliveryMode s) (subsId s)).

Lemma multi_events_queued (tmp : xnode) :
  ∀ (fuel i : nat) (exps : list (string * xnode)) (p : event_pool),
  Forall2 (λ n e, exports n e.1 e.2) (drop i (matching None (Some CIMXML_SIMPLEEXPREQ) tmp)) exps →
  (length exps ≤ fuel)%nat → pool_ok p → fits (subsId s) p →
  ∃ p', multi_events fuel (Z.of_nat i) s vendor tmp p = Some p' ∧ queued_here (event_of <$> exps) p p'.
Proof.
  induction fuel as [|fuel IH]; intros i exps p He Hl Hp Hf.
  { destruct exps; [|simpl in *; lia]. exists p. split; [done|]. by apply queued_nil. }
  cbn [multi_events]. unfold cim_child. rewrite ws_xml_get_child_matching, Nat2Z.id, Huri by lia.
  replace (Z.of_nat i + 1) with (Z.of_nat (S i)) by lia.
  destruct (matching None (Some CIMXML_SIMPLEEXPREQ) tmp !! i) as [n|] eqn:E.
  - rewrite (drop_S _ _ _ E) in He. apply Forall2_cons_inv_l in He as (e & exps' & Hn & He & ->).
    rewrite (entity_event uri vendor n e.1 e.2 Hn). cbn [mbind option_bind].
    destruct (add_event_queued (deliveryMode s) (subsId s) (event_of e) p Hp Hf) as (p1 & Hadd & Hq).
    unfold event_of in Hadd. rewrite Hadd. cbn [mbind option_bind].
    destruct (IH (S i) exps' p1 He) as (p' & -> & Hq'); [simpl in *; lia|apply Hq|apply Hq|].
    exists p'. split; [done|]. exact (queued_app _ _ [_] _ _ _ _ Hq Hq').
  - rewrite drop_ge in He by (by apply lookup_ge_None). apply Forall2_nil_inv_l in He as ->.
    cbn [create_notification_entity exported_instance cim_child ws_xml_get_child mbind option_bind].
    apply (IH (S i) [] p); [|simpl; lia|done|done].
    rewrite drop_ge by (apply lookup_ge_None in E; lia). constructor.
Qed.

Lemma indication_event_queued (doc msg : xnode) (exps : list (string * xnode)) (p : event_pool) :
  cim_child (Some doc) 0 CIMXML_MESSAGE = Some msg → isvalidCIMIndicationExport (Some doc) = true →
  Forall2 (λ n e, exports n e.1 e.2) (requests msg) exps → pool_ok p → fits (subsId s) p →
  ∃ p', create_indication_event doc s vendor p = Some p' ∧ queued_here (event_of <$> exps) p p'.
Proof.
  intros Hmsg Hval He Hp Hf. unfold create_indication_event, requests in *. rewrite Hmsg.
  unfold isvalidCIMIndicationExport, ws_xml_get_doc_root in Hval. rewrite Hmsg in Hval.
  destruct (cim_child (Some msg) 0 CIMXML_MULTIEXPREQ) as [tmp|].
  - apply (multi_events_queued tmp _ O); [by rewrite drop_0| |done|done].
    apply Forall2_length in He. rewrite <- He. cbn [ws_xml_get_child_count].
    rewrite count_elements_length, Z.add_0_l, Nat2Z.id. apply length_filter.
  - unfold cim_child in *. rewrite ws_xml_get_child_matching in * by lia.
    destruct (matching None (Some CIMXML_SIMPLEEXPREQ) msg) as [|n l]; [done|].
    cbn [take lookup list_lookup Z.to_nat] in *.
    apply Forall2_cons_inv_l in He as (e & exps' & Hn & He & ->). apply Forall2_nil_inv_l in He as ->.
    change ((n :: l) !! Z.to_nat 0) with (Some n).
    rewrite Huri, (entity_event uri vendor n e.1 e.2 Hn). cbn [mbind option_bind].
    by apply add_event_queued.
Qed.
End Call.

(** An export message for a subscription, as the listener's call serves it. *)
Lemma indication_call_queued (parse : list Z → string → option xnode) (dump : xnode → list Z)
    (subs : list (WsSubscribeInfo * list (string * string))) (p : event_pool) (request : list Z)
    (charset uuid uri : string) (doc msg : xnode) (s : WsSubscribeInfo) (vendor : list (string * string))
    (exps : list (string * xnode)) :
  parse request charset = Some doc →
  cim_child (Some doc) 0 CIMXML_MESSAGE = Some msg → isvalidCIMIndicationExport (Some doc) = true →
  find_subscription subs uuid = Some (s, vendor) → s_uri s = Some uri →
  pool_ok p → fits (subsId s) p →
  Forall2 (λ n e, exports n e.1 e.2) (requests msg) exps →
  ∃ p', CIM_Indication_call parse dump subs p request charset (Some uuid) =
          Some (p', CimMessage CIMXML_STATUS_OK None 0 (dump (cimxml_build_response_msg doc))) ∧
        queued (deliveryMode s) (subsId s) (event_of uri vendor <$> exps) p p'.
Proof.
  intros Hparse Hmsg Hval Hfind Huri Hp Hf He. unfold CIM_Indication_call. rewrite Hparse, Hval. cbn [negb].
  destruct subs as [|s0 subs]; [done|]. cbn [mbind option_bind]. rewrite Hfind.
  destruct (indication_event_queued s uri vendor Huri doc msg exps p Hmsg Hval He Hp Hf) as (p' & -> & Hq).
  by exists p'.
Qed.
End Indications.

(** ** An exported alert *)

Definition cim_el (name : string) (attrs : list xattr) (c : list xnode) : xnode := XElement None name attrs c.

Definition alert_instance : xnode :=
  cim_el CIMXML_INSTANCE [XAttr None CIMXML_CLASSNAME "CIM_AlertIndication"]
    [cim_el CIMXML_PROPERTY [XAttr None CIMXML_NAME "Description"] [cim_el CIMXML_VALUE [] [XOther "fan failed"]];
     cim_el CIMXML_PROPERTYARRAY [XAttr None CIMXML_NAME "Causes"]
       [cim_el CIMXML_VALUEARRAY [] [cim_el CIMXML_VALUE [] [XOther "a"]; cim_el CIMXML_VALUE [] [XOther "b"]]]].

Definition alert_message (n : nat) : xnode :=
  cim_el CIMXML_MESSAGE [XAttr None "ID" "7"]
    [cim_el CIMXML_MULTIEXPREQ []
       (replicate n (cim_el CIMXML_SIMPLEEXPREQ []
          [cim_el CIMXML_EXPMETHODCALL [] [cim_el CIMXML_EXPPARAMVALUE [] [alert_instance]]]))].

Definition alert_subscription : WsSubscribeInfo :=
  SubsInfo 0 0 "u-1" None (Some XML_NS_CIM_CLASS) None None None None None None 0 0 0 0 false None false None
    (None, None) false false None None.

#[local] Existing Instance TreeXml.

(** The document of the event. *)
Example alert_event :
  class_event (Some XML_NS_CIM_CLASS) "CIM_AlertIndication" alert_instance =
  let a := event_action (Some XML_NS_CIM_CLASS) "CIM_AlertIndication" in
  Notification None (Some a)
    (Some (XElement (Some a) "CIM_AlertIndication" []
       [txt a "Description" "fan failed"; txt a "Causes" "a"; txt a "Causes" "b"])).
Proof. vm_compute. reflexivity. Qed.

(** Without a subscription of that identifier the pool is unchanged and the
    sender is told. *)
Example unknown_subscription :
  CIM_Indication_call (λ _ _, Some (cim_el CIMXML_CIM [] [alert_message 1])) (λ _, [])
    [(alert_subscription, [])] (EventPool [] 16) [] "UTF-8" (Some "u-2") =
  Some (EventPool [] 16, CimMessage CIMXML_STATUS_REQUEST_NOT_VALID (Some "request-not-valid") HTTP_NOT_FOUND []).
Proof. vm_compute. reflexivity. Qed.
