(* ===== verification/Eventing.v ===== *)
(** * The eventing runtime ([wsman-soap.c])

    Subscriptions live in a heap; the list [subscriptionMemList] of the SOAP
    context holds their addresses.  The notification manager and the heartbeat
    generator walk the list, start sender threads and free subscriptions that
    ended; the Unsubscribe, Renew and Pull stubs look a subscription up under
    the lock of the list and use its address after releasing it.  [None] is an
    access to a freed subscription or through a NULL pointer.

    The parts under one lock are one function: what a stub does before and
    after it releases [lockSubs] are separate functions, so that the steps of
    other threads can come between them. *)

From S2P Require Import Prelude.
From S2P Require Import CString.
From S2P Require Import Names.
From S2P Require Import Xml.
From S2P Require Import Faults.
From S2P Require Import Duration.
From S2P Require Import Envelope.
From S2P Require Import EventPool.
From S2P Require Import Dispatcher.
From S2P Require Import Enumeration.
From S2P Require Import Subscribe.

#[local] Open Scope string_scope.
#[local] Open Scope list_scope.
#[local] Open Scope Z_scope.
#[local] Open Scope ow_scope.

Definition WSE_NOTIFICATION_EVENTS_PENDING : Z := 4.

(** A sender thread: the subscription, and the notification it was given; a
    heartbeat sender has none. *)
Record sender := Sender {
  sd_subs : positive;
  sd_doc : option xnode;
}.

(** [sent] is what was handed to the transport, [repository] the identifiers
    of the saved subscriptions, [cancelled] the cancel callbacks that ran. *)
Record evcntx := Evcntx {
  s_heap : gmap positive WsSubscribeInfo;
  subscriptionMemList : list positive;
  ev_pool : event_pool;
  senders : list sender;
  sent : list (string * xnode);
  repository : gset string;
  cancelled : list string;
}.

Definition set_s_heap (h : gmap positive WsSubscribeInfo) (c : evcntx) : evcntx :=
  Evcntx h (subscriptionMemList c) (ev_pool c) (senders c) (sent c) (repository c) (cancelled c).
Definition set_pool (p : event_pool) (c : evcntx) : evcntx :=
  Evcntx (s_heap c) (subscriptionMemList c) p (senders c) (sent c) (repository c) (cancelled c).
Definition set_senders (s : list sender) (c : evcntx) : evcntx :=
  Evcntx (s_heap c) (subscriptionMemList c) (ev_pool c) s (sent c) (repository c) (cancelled c).
Definition add_sent (m : string * xnode) (c : evcntx) : evcntx :=
  Evcntx (s_heap c) (subscriptionMemList c) (ev_pool c) (senders c) (sent c ++ [m]) (repository c) (cancelled c).
Definition set_repository (r : gset string) (c : evcntx) : evcntx :=
  Evcntx (s_heap c) (subscriptionMemList c) (ev_pool c) (senders c) (sent c) r (cancelled c).

(** ** Updates of a subscription *)

Definition set_s_flags (f : Z) (s : WsSubscribeInfo) : WsSubscribeInfo :=
  SubsInfo f (heartbeatCountdown s) (subsId s) (soapNs s) (s_uri s) (epr_notifyto s) (s_username s)
    (s_password s) (certificate_thumbprint s) (locale s) (contentEncoding s) (s_expires s)
    (deliveryMode s) (deliveryAuthType s) (heartbeatInterval s) (eventSentLastTime s) (bookmarkDoc s)
    (bookmarksFlag s) (s_filter s) (s_auth s) (eventpoll s) (s_cancel s) (templateDoc s) (heartbeatDoc s).
Definition set_countdown (v : Z) (s : WsSubscribeInfo) : WsSubscribeInfo :=
  SubsInfo (s_flags s) v (subsId s) (soapNs s) (s_uri s) (epr_notifyto s) (s_username s)
    (s_password s) (certificate_thumbprint s) (locale s) (contentEncoding s) (s_expires s)
    (deliveryMode s) (deliveryAuthType s) (heartbeatInterval s) (eventSentLastTime s) (bookmarkDoc s)
    (bookmarksFlag s) (s_filter s) (s_auth s) (eventpoll s) (s_cancel s) (templateDoc s) (heartbeatDoc s).
Definition set_eventSent (b : bool) (s : WsSubscribeInfo) : WsSubscribeInfo :=
  SubsInfo (s_flags s) (heartbeatCountdown s) (subsId s) (soapNs s) (s_uri s) (epr_notifyto s) (s_username s)
    (s_password s) (certificate_thumbprint s) (locale s) (contentEncoding s) (s_expires s)
    (deliveryMode s) (deliveryAuthType s) (heartbeatInterval s) b (bookmarkDoc s)
    (bookmarksFlag s) (s_filter s) (s_auth s) (eventpoll s) (s_cancel s) (templateDoc s) (heartbeatDoc s).
Definition set_expires (e : Z) (s : WsSubscribeInfo) : WsSubscribeInfo :=
  SubsInfo (s_flags s) (heartbeatCountdown s) (subsId s) (soapNs s) (s_uri s) (epr_notifyto s) (s_username s)
    (s_password s) (certificate_thumbprint s) (locale s) (contentEncoding s) e
    (deliveryMode s) (deliveryAuthType s) (heartbeatInterval s) (eventSentLastTime s) (bookmarkDoc s)
    (bookmarksFlag s) (s_filter s) (s_auth s) (eventpoll s) (s_cancel s) (templateDoc s) (heartbeatDoc s).

Definition has_flag (f : Z) (s : WsSubscribeInfo) : bool := negb (Z.land (s_flags s) f =? 0).
Definition raise_flag (f : Z) (s : WsSubscribeInfo) : WsSubscribeInfo := set_s_flags (Z.lor (s_flags s) f) s.
Definition clear_flag (f : Z) (s : WsSubscribeInfo) : WsSubscribeInfo :=
  set_s_flags (Z.land (s_flags s) (Z.lnot f)) s.

Abbreviation PENDING := WSMAN_SUBSCRIPTION_NOTIFICAITON_PENDING.
Abbreviation UNSUBSCRIBED := WSMAN_SUBSCRIBEINFO_UNSUBSCRIBE.
Abbreviation CANCELLED := WSMAN_SUBSCRIPTION_CANCELLED.

Definition update_subs (p : positive) (f : WsSubscribeInfo → WsSubscribeInfo) (c : evcntx) : option evcntx :=
  s ← s_heap c !! p; Some (set_s_heap (<[p := f s]> (s_heap c)) c).

(** ** Looking subscriptions up, under [lockSubs] *)

(** The walk compares the identifier of each subscription with the requested
    one by [eq]. *)
Fixpoint find_subs (eq : string → string → bool) (uuid : string) (h : gmap positive WsSubscribeInfo)
    (l : list positive) : option (option positive) :=
  match l with
  | [] => Some None
  | p :: l => s ← h !! p; if eq (subsId s) uuid then Some (Some p) else find_subs eq uuid h l
  end.

(** [uuid+5] is only read when the list is not empty. *)
Definition lookup_subs (eq : string → string → bool) (uuid : option string) (c : evcntx)
  : option (option positive) :=
  match subscriptionMemList c with
  | [] => Some None
  | l => u ← uuid; u ← str_drop 5 u; find_subs eq u (s_heap c) l
  end.

Section Eventing.
Context {LX : Libxml2}.
Context (ns_prefix : string → option string).
Context (strtod_round : string → Z * string) (mktime : tm → Z).

(** The plugin's poll callback may add events to the pool.  The transport's
    answer to a notification is the document the sink sent back, if any. *)
Context (poll : WsSubscribeInfo → event_pool → Z * event_pool).
Context (transport : WsSubscribeInfo → xnode → option xnode).

Definition fault (muuid : string) (indoc : xnode) (c : WsmanFaultCodeType) (d : WsmanFaultDetailType)
  : option (option xnode) := generate_fault_document ns_prefix muuid (Some indoc) c d None.

(** ** Subscribe *)

(** What the stub does to the shared state. *)
Definition keep_subscription (save : bool) (s : WsSubscribeInfo) (c : evcntx) : evcntx :=
  let p := fresh (dom (s_heap c)) in
  Evcntx (<[p := s]> (s_heap c)) (subscriptionMemList c ++ [p]) (ev_pool c) (senders c) (sent c)
    (if save then {[subsId s]} ∪ repository c else repository c) (cancelled c).

(** A plugin's function gets the subscription, which is NULL after a refusal
    without a fault document, and may change it; [None] is an access through
    the NULL pointer. *)
Definition endpoint_result : Type := Z * WsSubscribeInfo * WsmanStatus.
Definition subscribe_endpoint : Type := option WsSubscribeInfo → option (Z * option WsSubscribeInfo * WsmanStatus).

(** [repo] tells whether there is a repository of subscriptions; its Expires
    text is duplicated before it is replaced. *)
Definition wse_subscribe_stub (repo : bool) (now isdst : Z) (uuid muuid : string)
    (endPoint : option subscribe_endpoint) (msg : WsmanMessage) (indoc : xnode) (c : evcntx)
  : option (Z * option xnode * evcntx) :=
  '(doc, sInfo) ← create_subs_info strtod_round mktime ns_prefix now isdst uuid muuid msg indoc;
  match doc with
  | Some d => Some (0, Some d, c)
  | None =>
      '(retVal, sInfo, status) ←
        match endPoint with Some ep => ep sInfo | None => Some (0, sInfo, status_init) end;
      if negb (retVal =? 0) then
        generate_fault_document ns_prefix muuid (Some indoc) (st_code status) (st_detail status) (st_msg status)
          ≫= λ d : option xnode, Some (retVal, d, c)
      else
        s ← sInfo;
        let exp := child (child (ws_xml_get_soap_body (Some indoc)) XML_NS_EVENTING WSEVENT_SUBSCRIBE)
                     XML_NS_EVENTING WSEVENT_EXPIRES in
        (match exp with
         | Some _ => if repo then t ← ws_xml_get_node_text exp; Some (Some t) else Some None
         | None => Some None
         end) ≫= λ expiresstr : option string,
        Some (retVal, Some (subscribe_response indoc expiresstr s), keep_subscription repo s c)
  end.

(** ** Unsubscribe *)

Inductive lookup_result :=
  | Answer (retVal : Z) (doc : option xnode)
  | Found (p : positive).

Definition identifier_node (indoc : xnode) : option xnode :=
  child (ws_xml_get_soap_header (Some indoc)) XML_NS_EVENTING WSEVENT_IDENTIFIER.

(** A request without an identifier gets no answer. *)
Definition unsubscribe_find (muuid : string) (indoc : xnode) (c : evcntx) : option lookup_result :=
  match identifier_node indoc with
  | None => Some (Answer 0 None)
  | inNode =>
      lookup_subs strcase_eqb (ws_xml_get_node_text inNode) c ≫= λ r : option positive,
      match r with
      | Some p => Some (Found p)
      | None =>
          fault muuid indoc WSMAN_INVALID_PARAMETER WSMAN_DETAIL_INVALID_VALUE ≫= λ d : option xnode,
          Some (Answer 0 d)
      end
  end.

Definition unsubscribe_finish (muuid : string) (endPoint : option (WsSubscribeInfo → endpoint_result))
    (indoc : xnode) (p : positive) (c : evcntx) : option (Z * option xnode * evcntx) :=
  s ← s_heap c !! p;
  let '(retVal, s, status) := match endPoint with Some ep => ep s | None => (0, s, status_init) end in
  c ← update_subs p (λ _, s) c;
  if negb (retVal =? 0) then
    generate_fault_document ns_prefix muuid (Some indoc) (st_code status) (st_detail status) (st_msg status)
      ≫= λ d : option xnode, Some (retVal, d, c)
  else
    c ← update_subs p (raise_flag UNSUBSCRIBED) c;
    Some (retVal, Some (wsman_create_response_envelope indoc None), c).

Definition wse_unsubscribe_stub (muuid : string) (endPoint : option (WsSubscribeInfo → endpoint_result))
    (indoc : xnode) (c : evcntx) : option (Z * option xnode * evcntx) :=
  r ← unsubscribe_find muuid indoc c;
  match r with
  | Answer v d => Some (v, d, c)
  | Found p => unsubscribe_finish muuid endPoint indoc p c
  end.

(** ** Renew *)

Definition renew_find (muuid : string) (indoc : xnode) (c : evcntx) : option lookup_result :=
  match ws_xml_get_node_text (identifier_node indoc) with
  | None =>
      fault muuid indoc WSE_INVALID_MESSAGE WSMAN_DETAIL_MISSING_VALUES ≫= λ d : option xnode, Some (Answer 0 d)
  | uuid =>
      lookup_subs strcase_eqb uuid c ≫= λ r : option positive,
      match r with
      | Some p => Some (Found p)
      | None =>
          fault muuid indoc WSE_UNABLE_TO_RENEW WSMAN_DETAIL_OK ≫= λ d : option xnode, Some (Answer 0 d)
      end
  end.

(** An invalid expiry gets no answer. *)
Definition renew_finish (now isdst : Z) (muuid : string) (endPoint : option (WsSubscribeInfo → endpoint_result))
    (indoc : xnode) (p : positive) (c : evcntx) : option (Z * option xnode * evcntx) :=
  s ← s_heap c !! p;
  let exp := child (child (ws_xml_get_soap_body (Some indoc)) XML_NS_EVENTING WSEVENT_RENEW)
               XML_NS_EVENTING WSEVENT_EXPIRES in
  let expirestr := ws_xml_get_node_text exp in
  '(e, code) ← wsman_set_expiretime strtod_round mktime now isdst expirestr (s_expires s);
  c ← update_subs p (set_expires e) c;
  if decide (code ≠ WSMAN_RC_OK) then Some (0, None, c)
  else
    s ← s_heap c !! p;
    let '(retVal, s, status) := match endPoint with Some ep => ep s | None => (0, s, status_init) end in
    c ← update_subs p (λ _, s) c;
    if negb (retVal =? 0) then
      generate_fault_document ns_prefix muuid (Some indoc) (st_code status) (st_detail status) (st_msg status)
        ≫= λ d : option xnode, Some (retVal, d, c)
    else
      Some (retVal,
            Some (envelope (response_headers indoc None)
                    [add_node (text_node (Some XML_NS_EVENTING) WSEVENT_RENEW_RESP None)
                       (text_node (Some XML_NS_EVENTING) WSEVENT_EXPIRES expirestr)]), c).

Definition wse_renew_stub (now isdst : Z) (muuid : string)
    (endPoint : option (WsSubscribeInfo → endpoint_result)) (indoc : xnode) (c : evcntx)
  : option (Z * option xnode * evcntx) :=
  r ← renew_find muuid indoc c;
  match r with
  | Answer v d => Some (v, d, c)
  | Found p => renew_finish now isdst muuid endPoint indoc p c
  end.

(** ** Pull *)

Definition search_pull_subs_info (indoc : xnode) (c : evcntx) : option (option positive) :=
  match ws_xml_get_node_text
          (child (child (ws_xml_get_soap_body (Some indoc)) XML_NS_ENUMERATION WSENUM_PULL)
             XML_NS_ENUMERATION WSENUM_ENUMERATION_CONTEXT) with
  | None => Some None
  | uuid => lookup_subs str_eqb uuid c
  end.

(** The loop that takes events out of the pool: their actions and contents. *)
Fixpoint pull_events (n : nat) (id : string) (pool : event_pool) : list WsNotificationInfo * event_pool :=
  match n with
  | O => ([], pool)
  | S n =>
      let '(r, e, pool') := MemEventPoolGetAndDeleteEvent id pool in
      match r =? 0, e with
      | true, Some e => let '(es, pool) := pull_events n id pool' in (e :: es, pool)
      | _, _ => ([], pool')
      end
  end.

(** The number of events is taken from a header, not from the Pull element. *)
Definition pull_max_elements (indoc : xnode) : option Z :=
  match child (ws_xml_get_soap_header (Some indoc)) XML_NS_ENUMERATION WSENUM_MAX_ELEMENTS with
  | None => Some 1
  | node => t ← ws_xml_get_node_text node; Some (atoi t)
  end.

Definition event_trees (es : list WsNotificationInfo) : list xnode :=
  ws_xml_duplicate_tree <$> omap EventContent es.

Definition pull_notifications (muuid : string) (indoc : xnode) (p : positive) (c : evcntx)
  : option (option xnode * evcntx) :=
  s ← s_heap c !! p;
  let count := MemEventPoolCount (subsId s) (ev_pool c) in
  if 0 <? count then
    max ← pull_max_elements indoc;
    let '(es, pool) := pull_events (Z.to_nat max) (subsId s) (ev_pool c) in
    let total :=
      match child (ws_xml_get_soap_header (Some indoc)) XML_NS_WS_MAN WSM_REQUEST_TOTAL with
      | Some _ => [ws_xml_add_node_attr (text_node (Some XML_NS_WS_MAN) WSM_TOTAL_ESTIMATE None)
                     (Some XML_NS_SCHEMA_INSTANCE) XML_SCHEMA_NIL (Some "true")]
      | None => []
      end in
    let actions := (λ e, text_node (Some XML_NS_ADDRESSING) WSA_ACTION (EventAction e)) <$> es in
    let items :=
      if (1 <? max) && (1 <? count)
      then [foldl add_node (text_node (Some XML_NS_ENUMERATION) WSENUM_ITEMS None) (event_trees es)]
      else event_trees es in
    let resp :=
      foldl add_node (text_node (Some XML_NS_ENUMERATION) WSENUM_PULL_RESP None)
        (text_node (Some XML_NS_ENUMERATION) WSENUM_ENUMERATION_CONTEXT (Some ("uuid:" +:+ subsId s)) :: items) in
    Some (Some (envelope (total ++ actions) [resp]), set_pool pool c)
  else
    fault muuid indoc WSMAN_TIMED_OUT WSMAN_DETAIL_OK ≫= λ d : option xnode, Some (d, c).

(** ** Heartbeats *)

Definition heartbeat_one (now : Z) (create_ok : bool) (p : positive) (c : evcntx) : option evcntx :=
  s ← s_heap c !! p;
  if has_flag UNSUBSCRIBED s || time_expired now (s_expires s) then Some c
  else if (heartbeatInterval s =? 0) || (deliveryMode s =? WS_EVENT_DELIVERY_MODE_PULL) then Some c
  else
    let s := set_countdown (sint 64 (heartbeatCountdown s - 1000)) s in
    if 0 <? heartbeatCountdown s then update_subs p (λ _, s) c
    else
      let '(s, start) :=
        if eventSentLastTime s then (set_eventSent false s, false)
        else if has_flag PENDING s then (s, false)
        else if create_ok then (raise_flag PENDING s, true)
        else (s, false) in
      let s := set_countdown (sint 64 (heartbeatInterval s)) s in
      c ← update_subs p (λ _, s) c;
      Some (if start : bool then set_senders (senders c ++ [Sender p None]) c else c).

(** ** Senders *)

(** Whether the sink acknowledged the notification.  The action of an answer
    that relates to it is compared without a check. *)
Definition ack_received (outdoc : xnode) (ackdoc : option xnode) : option bool :=
  let node := ws_xml_get_soap_header ackdoc in
  match child node XML_NS_ADDRESSING WSA_RELATES_TO with
  | None => Some false
  | temp =>
      src ← ws_xml_get_node_text (child (ws_xml_get_soap_header (Some outdoc)) XML_NS_ADDRESSING WSA_MESSAGE_ID);
      rel ← ws_xml_get_node_text temp;
      if strcase_eqb src rel then
        act ← ws_xml_get_node_text (child node XML_NS_ADDRESSING WSA_ACTION);
        Some (strcase_eqb act WSMAN_ACTION_ACK)
      else Some false
  end.

(** [true] is the result 0, [false] is WSE_NOTIFICATION_NOACK. *)
Definition wse_send_notification (acked : bool) (s : WsSubscribeInfo) (outdoc : xnode) : option bool :=
  if acked then ack_received outdoc (transport s outdoc) else Some true.

Definition heartbeat_document (muuid : string) (s : WsSubscribeInfo) : option xnode :=
  update_soap_header (λ h, ws_xml_add_child h (Some XML_NS_ADDRESSING) WSA_MESSAGE_ID (Some muuid))
    <$> ws_xml_duplicate_doc (heartbeatDoc s).

(** The i-th sender thread runs under [notificationlock]. *)
Definition wse_event_sender (now : Z) (muuid : string) (i : nat) (c : evcntx) : option evcntx :=
  sd ← senders c !! i;
  s ← s_heap c !! sd_subs sd;
  let s := match sd_doc sd with Some _ => set_eventSent true s | None => s end in
  '(s, c) ←
    (if has_flag UNSUBSCRIBED s || time_expired now (s_expires s) then Some (s, c)
     else
       doc ← match sd_doc sd with Some d => Some d | None => heartbeat_document muuid s end;
       ok ← wse_send_notification (wants_ack (deliveryMode s)) s doc;
       Some (if ok : bool then s else raise_flag CANCELLED s, add_sent (subsId s, doc) c));
  c ← update_subs (sd_subs sd) (λ _, clear_flag PENDING s) c;
  Some (set_senders (delete i (senders c)) c).

(** ** Notifications *)

Definition add_to_body (l : list xnode) (doc : xnode) : xnode :=
  match ws_xml_get_soap_body (Some doc), doc with
  | Some _, XElement ns name props c => XElement ns name props (alter_second_element (λ b, foldl add_node b l) c)
  | _, _ => doc
  end.

Definition add_to_header (l : list xnode) (doc : xnode) : xnode :=
  update_soap_header (λ h, foldl add_node h l) doc.

Definition opaque_header (n : WsNotificationInfo) : list xnode :=
  match headerOpaqueData n with Some d => [ws_xml_duplicate_tree d] | None => [] end.

Definition event_action (n : WsNotificationInfo) : string := default WSMAN_ACTION_EVENT (EventAction n).

(** The Event element of one notification. *)
Definition event_element (n : WsNotificationInfo) : xnode :=
  foldl add_node
    (ws_xml_add_node_attr (text_node (Some XML_NS_WS_MAN) WSM_EVENT None) (Some XML_NS_WS_MAN) WSM_ACTION
       (Some (event_action n)))
    (duplicate_children (EventContent n)).

(** The document for a batch of events ([EVENTS] mode) or for one. *)
Definition events_document (muuid : string) (template : xnode) (n : WsNotificationInfo)
    (more : list WsNotificationInfo) : xnode :=
  add_to_body [foldl add_node (text_node (Some XML_NS_WS_MAN) WSM_EVENTS None) (event_element <$> n :: more)]
    (add_to_header (opaque_header n ++
       [text_node (Some XML_NS_ADDRESSING) WSA_ACTION (Some WSEVENT_DELIVERY_MODE_EVENTS);
        text_node (Some XML_NS_ADDRESSING) WSA_MESSAGE_ID (Some muuid)]) template).

Definition push_document (muuid : string) (template : xnode) (n : WsNotificationInfo) : xnode :=
  add_to_body (duplicate_children (EventContent n))
    (add_to_header (opaque_header n ++
       [text_node (Some XML_NS_ADDRESSING) WSA_MESSAGE_ID (Some muuid);
        text_node (Some XML_NS_WS_MAN) WSM_ACTION (Some (event_action n))]) template).

(** The document of a subscription and the pool after the events in it were
    taken out; the loop of the [EVENTS] mode empties the queue. *)
Definition notification_document (muuid : string) (s : WsSubscribeInfo) (n : WsNotificationInfo)
    (pool : event_pool) : option (xnode * event_pool) :=
  template ← ws_xml_duplicate_doc (templateDoc s);
  Some (if deliveryMode s =? WS_EVENT_DELIVERY_MODE_EVENTS then
          let '(more, pool) := pull_events (S (length (queue (subsId s) pool))) (subsId s) pool in
          (events_document muuid template n more, pool)
        else (push_document muuid template n, pool)).

Definition destroy_subsinfo (p : positive) (c : evcntx) : option evcntx :=
  _ ← s_heap c !! p; Some (set_s_heap (delete p (s_heap c)) c).

(** A subscription that ended and has no sender is removed everywhere and
    freed. *)
Definition remove_subscription (p : positive) (s : WsSubscribeInfo) (c : evcntx) : option evcntx :=
  let '(_, _, pool) := MemEventPoolClearEvent (subsId s) true (ev_pool c) in
  destroy_subsinfo p
    (Evcntx (s_heap c) (filter (λ q, q ≠ p) (subscriptionMemList c)) pool (senders c) (sent c)
       (repository c ∖ {[subsId s]})
       (if negb (has_flag UNSUBSCRIBED s) && s_cancel s then cancelled c ++ [subsId s] else cancelled c)).

Definition ended (now : Z) (s : WsSubscribeInfo) : bool :=
  (has_flag UNSUBSCRIBED s || has_flag CANCELLED s || time_expired now (s_expires s)) && negb (has_flag PENDING s).

Definition notify_one (now : Z) (create_ok : bool) (muuid : string) (p : positive) (c : evcntx)
  : option evcntx :=
  s ← s_heap c !! p;
  if ended now s then remove_subscription p s c
  else
    let '(r, pool) := if eventpoll s then poll s (ev_pool c) else (0, ev_pool c) in
    if (r =? WSE_NOTIFICATION_EVENTS_PENDING) || (deliveryMode s =? WS_EVENT_DELIVERY_MODE_PULL)
    then Some (set_pool pool c)
    else
      let '(r, n, pool) := MemEventPoolGetAndDeleteEvent (subsId s) pool in
      match r =? 0, n with
      | true, Some n =>
          '(doc, pool) ← notification_document muuid s n pool;
          let c := set_pool pool c in
          if has_flag PENDING s then Some c
          else if create_ok then
            c ← update_subs p (raise_flag PENDING) c;
            Some (set_senders (senders c ++ [Sender p (Some doc)]) c)
          else Some c
      | _, _ => Some (set_pool pool c)
      end.

(** One pass of the manager over the subscriptions of the list; thread
    creation succeeds. *)
Fixpoint notify_all (now : Z) (muuid : string) (l : list positive) (c : evcntx) : option evcntx :=
  match l with
  | [] => Some c
  | p :: l => c ← notify_one now true muuid p c; notify_all now muuid l c
  end.

Definition wse_notification_manager (now : Z) (muuid : string) (c : evcntx) : option evcntx :=
  notify_all now muuid (subscriptionMemList c) c.

Fixpoint heartbeat_all (now : Z) (l : list positive) (c : evcntx) : option evcntx :=
  match l with
  | [] => Some c
  | p :: l => c ← heartbeat_one now true p c; heartbeat_all now l c
  end.

Definition wsman_heartbeat_generator (now : Z) (c : evcntx) : option evcntx :=
  heartbeat_all now (subscriptionMemList c) c.
End Eventing.
