(* ===== verification/EventProofs.v ===== *)
(** * Theorems on eventing

    The threads of the server as a step relation over the functions of
    [Eventing], an invariant of all reachable states, and what the manager and
    the senders do. *)

From S2P Require Import Prelude.
From S2P Require Import CString.
From S2P Require Import Names.
From S2P Require Import Xml.
From S2P Require Import Faults.
From S2P Require Import Duration.
From S2P Require Import Envelope.
From S2P Require Import Filter.
From S2P Require Import EventPool.
From S2P Require Import Requests.
From S2P Require Import Dispatcher.
From S2P Require Import Enumeration.
From S2P Require Import Subscribe.
From S2P Require Import Eventing.

#[local] Open Scope string_scope.
#[local] Open Scope list_scope.
#[local] Open Scope Z_scope.
#[local] Open Scope ow_scope.

(** ** Flags *)

Lemma single_bit_land f i : 0 ≤ i → Z.land f (2 ^ i) =? 0 = negb (Z.testbit f i).
Proof.
  intros Hi. destruct (Z.testbit f i) eqn:E; simpl.
  - apply Z.eqb_neq. intros H. apply (f_equal (λ x, Z.testbit x i)) in H.
    rewrite Z.land_spec, E, Z.pow2_bits_true, Z.bits_0 in H by done. done.
  - apply Z.eqb_eq, Z.bits_inj'. intros j Hj. rewrite Z.land_spec, Z.bits_0.
    destruct (decide (j = i)) as [->|]; [by rewrite E|]. by rewrite Z.pow2_bits_false, andb_false_r by lia.
Qed.

Lemma has_flag_bit i s : 0 ≤ i → has_flag (2 ^ i) s = Z.testbit (s_flags s) i.
Proof. intros Hi. unfold has_flag. rewrite single_bit_land by done. apply negb_involutive. Qed.

Lemma pending_bit s : has_flag PENDING s = Z.testbit (s_flags s) 7.
Proof. by apply (has_flag_bit 7). Qed.
Lemma unsubscribed_bit s : has_flag UNSUBSCRIBED s = Z.testbit (s_flags s) 0.
Proof. by apply (has_flag_bit 0). Qed.
Lemma cancelled_bit s : has_flag CANCELLED s = Z.testbit (s_flags s) 8.
Proof. by apply (has_flag_bit 8). Qed.

Lemma raise_pending s : has_flag PENDING (raise_flag PENDING s) = true.
Proof.
  rewrite pending_bit. unfold raise_flag, set_s_flags. cbn [s_flags]. rewrite Z.lor_spec. change PENDING with (2 ^ 7).
  by rewrite Z.pow2_bits_true, orb_true_r.
Qed.

Lemma clear_pending s : has_flag PENDING (clear_flag PENDING s) = false.
Proof.
  rewrite pending_bit. unfold clear_flag, set_s_flags. cbn [s_flags]. rewrite Z.land_spec, Z.lnot_spec by done. change PENDING with (2 ^ 7).
  by rewrite Z.pow2_bits_true, andb_false_r.
Qed.

Lemma raise_other i s : 0 ≤ i → i ≠ 7 → has_flag PENDING (raise_flag (2 ^ i) s) = has_flag PENDING s.
Proof.
  intros Hi Hne. rewrite !pending_bit. unfold raise_flag, set_s_flags. cbn [s_flags]. rewrite Z.lor_spec, Z.pow2_bits_false by lia. apply orb_false_r.
Qed.

(** ** The system *)

Inductive pass :=
  | Idle
  | Notifying (todo : list positive)
  | Heartbeating (todo : list positive).

(** A stub that has found its subscription and released the lock. *)
Inductive call :=
  | CUnsubscribe (indoc : xnode) (p : positive)
  | CRenew (indoc : xnode) (p : positive)
  | CPull (indoc : xnode) (p : positive).

Definition call_subs (x : call) : positive :=
  match x with CUnsubscribe _ p | CRenew _ p | CPull _ p => p end.

(** [sys_pass] is who holds [lockSubs]. *)
Record system := System {
  sys_c : evcntx;
  sys_pass : pass;
  sys_calls : list call;
}.

(** ** The invariant *)

Definition has_root (d : option xnode) : Prop := ∃ ns name ps c, d = Some (XElement ns name ps c).

(** The documents of the push modes. *)
Definition subs_docs (s : WsSubscribeInfo) : Prop :=
  deliveryMode s ≠ WS_EVENT_DELIVERY_MODE_PULL → has_root (templateDoc s) ∧ has_root (heartbeatDoc s).

(** What no operation on a subscription changes. *)
Definition same_docs (s t : WsSubscribeInfo) : Prop :=
  deliveryMode t = deliveryMode s ∧ templateDoc t = templateDoc s ∧ heartbeatDoc t = heartbeatDoc s.

Lemma same_docs_docs s t : same_docs s t → subs_docs s → subs_docs t.
Proof. unfold subs_docs. by intros (-> & -> & ->). Qed.

Record ev_ok (c : evcntx) : Prop := {
  ok_list : NoDup (subscriptionMemList c);
  ok_heap p : p ∈ subscriptionMemList c ↔ is_Some (s_heap c !! p);
  ok_docs p s : s_heap c !! p = Some s → subs_docs s;
  ok_senders : NoDup (sd_subs <$> senders c);
  ok_pending p s : s_heap c !! p = Some s → has_flag PENDING s = true ↔ p ∈ sd_subs <$> senders c;
  ok_push p : p ∈ sd_subs <$> senders c →
    ∃ s, s_heap c !! p = Some s ∧ deliveryMode s ≠ WS_EVENT_DELIVERY_MODE_PULL;
}.

(** What is left of a pass is the end of the list. *)
Definition pass_ok (ps : pass) (c : evcntx) : Prop :=
  match ps with
  | Idle => True
  | Notifying l | Heartbeating l => ∃ pre, subscriptionMemList c = pre ++ l
  end.

Definition sys_ok (s : system) : Prop := ev_ok (sys_c s) ∧ pass_ok (sys_pass s) (sys_c s).

Lemma ev_ok_pool pool c : ev_ok c → ev_ok (set_pool pool c).
Proof. by intros [???? ? ?]; split. Qed.

Lemma ev_ok_sent m c : ev_ok c → ev_ok (add_sent m c).
Proof. by intros [???? ? ?]; split. Qed.

(** Replacing a subscription by another with the same documents, and the
    senders by senders that agree with the pending flags. *)
Lemma ev_ok_replace c p s t sds :
  ev_ok c → s_heap c !! p = Some s → same_docs s t → NoDup (sd_subs <$> sds) →
  (has_flag PENDING t = true ↔ p ∈ sd_subs <$> sds) →
  (∀ q, q ≠ p → q ∈ sd_subs <$> sds ↔ q ∈ sd_subs <$> senders c) →
  (p ∈ sd_subs <$> sds → deliveryMode s ≠ WS_EVENT_DELIVERY_MODE_PULL) →
  ev_ok (set_senders sds (set_s_heap (<[p := t]> (s_heap c)) c)).
Proof.
  intros [Hl Hh Hd Hs Hp Hv] Hps Hsame Hnd Hpend Hothers Hpush. split; simpl; try done.
  - intros q. rewrite Hh. destruct (decide (q = p)) as [->|].
    + rewrite lookup_insert_eq, Hps. split; by eexists.
    + by rewrite lookup_insert_ne.
  - intros q u. destruct (decide (q = p)) as [->|].
    + rewrite lookup_insert_eq. intros [= <-]. eapply same_docs_docs; [done|by eapply Hd].
    + rewrite lookup_insert_ne by done. apply Hd.
  - intros q u. destruct (decide (q = p)) as [->|].
    + rewrite lookup_insert_eq. by intros [= <-].
    + rewrite lookup_insert_ne, Hothers by done. apply Hp.
  - intros q Hq. destruct (decide (q = p)) as [->|].
    + rewrite lookup_insert_eq. exists t. split; [done|]. destruct Hsame as [-> _]. auto.
    + rewrite lookup_insert_ne by done. by apply Hv, Hothers.
Qed.

(** A change that keeps the pending flag. *)
Lemma ev_ok_update c p s t :
  ev_ok c → s_heap c !! p = Some s → same_docs s t → has_flag PENDING t = has_flag PENDING s →
  ev_ok (set_s_heap (<[p := t]> (s_heap c)) c).
Proof.
  intros Hok Hps Hsame Hpend.
  change (ev_ok (set_senders (senders c) (set_s_heap (<[p := t]> (s_heap c)) c))).
  eapply ev_ok_replace; eauto.
  - by apply ok_senders.
  - rewrite Hpend. by apply ok_pending.
  - intros Hq. destruct (ok_push _ Hok p Hq) as (s' & Hs' & Hm). congruence.
Qed.

(** Starting a sender sets the flag. *)
Lemma ev_ok_start c p s t doc :
  ev_ok c → s_heap c !! p = Some s → has_flag PENDING s = false →
  deliveryMode s ≠ WS_EVENT_DELIVERY_MODE_PULL → same_docs s t → has_flag PENDING t = true →
  ev_ok (set_senders (senders c ++ [Sender p doc]) (set_s_heap (<[p := t]> (s_heap c)) c)).
Proof.
  intros Hok Hps Hf Hm Hsame Hpend.
  assert (Hni : p ∉ sd_subs <$> senders c) by (rewrite <- (ok_pending _ Hok p s Hps), Hf; done).
  eapply ev_ok_replace; eauto.
  - rewrite fmap_app. apply NoDup_app. split_and!; [by apply ok_senders| |repeat constructor; apply not_elem_of_nil].
    intros q Hq Hq'%list_elem_of_singleton. by subst.
  - rewrite Hpend, fmap_app, elem_of_app. simpl. rewrite list_elem_of_singleton. naive_solver.
  - intros q Hq. rewrite fmap_app, elem_of_app. simpl. rewrite list_elem_of_singleton. naive_solver.
Qed.

(** A sender that ends clears it. *)
Lemma ev_ok_finish c i sd s t :
  ev_ok c → senders c !! i = Some sd → s_heap c !! sd_subs sd = Some s →
  same_docs s t → has_flag PENDING t = false →
  ev_ok (set_senders (delete i (senders c)) (set_s_heap (<[sd_subs sd := t]> (s_heap c)) c)).
Proof.
  intros Hok Hi Hps Hsame Hpend. set (p := sd_subs sd) in *.
  assert (Hperm : sd_subs <$> senders c ≡ₚ p :: (sd_subs <$> delete i (senders c))).
  { rewrite (delete_Permutation _ _ _ Hi) at 1. done. }
  assert (Hnd : NoDup (p :: (sd_subs <$> delete i (senders c)))) by (rewrite <- Hperm; by apply ok_senders).
  apply NoDup_cons in Hnd as [Hni Hnd]. eapply ev_ok_replace; eauto.
  - rewrite Hpend. naive_solver.
  - intros q Hq. rewrite Hperm, elem_of_cons. naive_solver.
Qed.

(** Removing a subscription without a sender. *)
Lemma remove_subscription_ok p s c :
  ev_ok c → s_heap c !! p = Some s → has_flag PENDING s = false →
  ∃ c', remove_subscription p s c = Some c' ∧ ev_ok c' ∧
    subscriptionMemList c' = filter (λ q, q ≠ p) (subscriptionMemList c) ∧ s_heap c' = delete p (s_heap c).
Proof.
  intros [Hl Hh Hd Hs Hp Hv] Hps Hf. unfold remove_subscription, destroy_subsinfo.
  destruct (MemEventPoolClearEvent _ _ _) as [[r es] pool]. cbn [s_heap mbind option_bind]. rewrite Hps.
  eexists. split; [done|]. split; [|done].
  assert (Hni : p ∉ sd_subs <$> senders c) by (rewrite <- (Hp p s Hps), Hf; done).
  split; simpl; try done.
  - by apply NoDup_filter.
  - intros q. rewrite list_elem_of_filter, Hh. destruct (decide (q = p)) as [->|].
    + rewrite lookup_delete_eq. split; [naive_solver|by intros [? ?]].
    + rewrite lookup_delete_ne by done. naive_solver.
  - intros q u [Hq Hu]%lookup_delete_Some. by eapply Hd.
  - intros q u [Hq Hu]%lookup_delete_Some. by apply Hp.
  - intros q Hq. destruct (decide (q = p)) as [->|]; [done|]. rewrite lookup_delete_ne by done. by apply Hv.
Qed.

Lemma keep_subscription_ok save s c :
  ev_ok c → subs_docs s → has_flag PENDING s = false → ev_ok (keep_subscription save s c).
Proof.
  intros [Hl Hh Hd Hs Hp Hv] Hdocs Hf. unfold keep_subscription.
  pose proof (is_fresh (dom (s_heap c))) as Hfresh. set (p := fresh _) in *. apply not_elem_of_dom in Hfresh.
  assert (Hpl : p ∉ subscriptionMemList c) by (rewrite Hh, Hfresh; by intros [? ?]).
  assert (Hps : p ∉ sd_subs <$> senders c) by (intros (? & ? & _)%Hv; congruence).
  split; simpl; try done.
  - apply NoDup_app. split_and!; [done| |repeat constructor; apply not_elem_of_nil].
    intros q Hq ->%list_elem_of_singleton. done.
  - intros q. rewrite elem_of_app, list_elem_of_singleton, Hh, lookup_insert_is_Some. naive_solver.
  - intros q u [[<- <-]|[_ Hq]]%lookup_insert_Some; [done|by eapply Hd].
  - intros q u [[<- <-]|[_ Hq]]%lookup_insert_Some; [|by apply Hp]. rewrite Hf. naive_solver.
  - intros q Hq. destruct (decide (q = p)) as [->|]; [done|]. rewrite lookup_insert_ne by done. by apply Hv.
Qed.

Lemma ev_ok_empty repo limit : ev_ok (Evcntx ∅ [] (MemEventPoolInit limit).2 [] [] repo []).
Proof.
  split; simpl.
  - constructor.
  - intros p. rewrite elem_of_nil, lookup_empty. split; [done|by intros [? ?]].
  - done.
  - constructor.
  - done.
  - by intros p ?%elem_of_nil.
Qed.

Lemma pass_ok_same ps c c' : subscriptionMemList c' = subscriptionMemList c → pass_ok ps c → pass_ok ps c'.
Proof. intros E. unfold pass_ok. by rewrite E. Qed.

(** The subscription a pass visits next is there. *)
Lemma pass_next c pre p l : ev_ok c → subscriptionMemList c = pre ++ p :: l → ∃ s, s_heap c !! p = Some s.
Proof. intros Hok E. apply (ok_heap _ Hok p). rewrite E. set_solver. Qed.

Lemma filter_ne_notin p (l : list positive) : p ∉ l → filter (λ q, q ≠ p) l = l.
Proof.
  induction l as [|q l IH]; [done|]. rewrite not_elem_of_cons. intros [Hne Hni].
  rewrite filter_cons_True by done. by rewrite IH.
Qed.

Lemma pass_filter c (pre : list positive) p l :
  ev_ok c → subscriptionMemList c = pre ++ p :: l → filter (λ q, q ≠ p) (subscriptionMemList c) = pre ++ l.
Proof.
  intros Hok E. pose proof (ok_list _ Hok) as Hnd. rewrite E in Hnd |- *.
  apply NoDup_app in Hnd as (_ & Hpre & [Hp _]%NoDup_cons).
  rewrite filter_app, filter_cons_False by (intros H; by apply H).
  rewrite !filter_ne_notin; [done|done|]. intros H. apply (Hpre p H). by left.
Qed.

(** Identifiers name at most one subscription, up to case. *)
Definition ids_distinct (c : evcntx) : Prop :=
  ∀ p q s t, s_heap c !! p = Some s → s_heap c !! q = Some t →
  str_lower (subsId s) = str_lower (subsId t) → p = q.

Lemma find_subs_spec eq u (h : gmap positive WsSubscribeInfo) p s l :
  (∀ q, q ∈ l → is_Some (h !! q)) → p ∈ l → h !! p = Some s → eq (subsId s) u = true →
  ∃ q t, find_subs eq u h l = Some (Some q) ∧ h !! q = Some t ∧ eq (subsId t) u = true.
Proof.
  intros Hl Hp Hs He. induction l as [|r l IH]; [by apply elem_of_nil in Hp|].
  destruct (Hl r) as [t Ht]; [by left|]. cbn [find_subs]. rewrite Ht. cbn [mbind option_bind].
  destruct (eq (subsId t) u) eqn:Et; [by exists r, t|].
  apply IH; [intros q Hq; apply Hl; by right|].
  apply elem_of_cons in Hp as [->|Hp]; [congruence|done].
Qed.

Lemma lookup_subs_uuid c p s :
  ev_ok c → ids_distinct c → s_heap c !! p = Some s →
  lookup_subs strcase_eqb (Some ("uuid:" +:+ subsId s)) c = Some (Some p).
Proof.
  intros Hok Hid Hs. assert (Hp : p ∈ subscriptionMemList c) by (apply (ok_heap _ Hok); by eexists).
  destruct (find_subs_spec strcase_eqb (subsId s) (s_heap c) p s (subscriptionMemList c)) as (q & t & Hf & Ht & He).
  - intros q. by apply (ok_heap _ Hok).
  - done.
  - done.
  - by apply strcase_eqb_lower.
  - apply strcase_eqb_lower in He. assert (q = p) as -> by (by eapply Hid).
    unfold lookup_subs. destruct (subscriptionMemList c); [by apply elem_of_nil in Hp|]. exact Hf.
Qed.

Lemma raise_unsubscribed s : has_flag UNSUBSCRIBED (raise_flag UNSUBSCRIBED s) = true.
Proof.
  rewrite unsubscribed_bit. unfold raise_flag, set_s_flags. cbn [s_flags]. rewrite Z.lor_spec.
  apply orb_true_r.
Qed.

(** ** The threads *)

Section System.
#[local] Set Default Proof Using "Type*".
Context {LX : Libxml2}.
Context (ns_prefix : string → option string).
Context (strtod_round : string → Z * string) (mktime : tm → Z).
Context (poll : WsSubscribeInfo → event_pool → Z * event_pool).
Context (transport : WsSubscribeInfo → xnode → option xnode).
Context (sub_ep : option subscribe_endpoint) (ep : option (WsSubscribeInfo → endpoint_result)).

(** A step of some thread; [None] is the failure of that thread.  A stub that
    answers without touching the shared state needs no step. *)
Inductive sys_step : system → option system → Prop :=
  | step_subscribe c calls repo now isdst uuid muuid msg indoc r doc c' :
      wse_subscribe_stub ns_prefix strtod_round mktime repo now isdst uuid muuid sub_ep msg indoc c =
        Some (r, doc, c') →
      sys_step (System c Idle calls) (Some (System c' Idle calls))
  | step_find_unsubscribe c calls muuid indoc p :
      unsubscribe_find ns_prefix muuid indoc c = Some (Found p) →
      sys_step (System c Idle calls) (Some (System c Idle (calls ++ [CUnsubscribe indoc p])))
  | step_find_renew c calls muuid indoc p :
      renew_find ns_prefix muuid indoc c = Some (Found p) →
      sys_step (System c Idle calls) (Some (System c Idle (calls ++ [CRenew indoc p])))
  | step_find_pull c calls indoc p :
      search_pull_subs_info indoc c = Some (Some p) →
      sys_step (System c Idle calls) (Some (System c Idle (calls ++ [CPull indoc p])))
  | step_unsubscribe c ps l1 l2 muuid indoc p :
      sys_step (System c ps (l1 ++ CUnsubscribe indoc p :: l2))
        ((λ r, System r.2 ps (l1 ++ l2)) <$> unsubscribe_finish ns_prefix muuid ep indoc p c)
  | step_renew c ps l1 l2 now isdst muuid indoc p :
      sys_step (System c ps (l1 ++ CRenew indoc p :: l2))
        ((λ r, System r.2 ps (l1 ++ l2)) <$>
           renew_finish ns_prefix strtod_round mktime now isdst muuid ep indoc p c)
  | step_pull c ps l1 l2 muuid indoc p :
      sys_step (System c ps (l1 ++ CPull indoc p :: l2))
        ((λ r, System r.2 ps (l1 ++ l2)) <$> pull_notifications ns_prefix muuid indoc p c)
  | step_notify_start c calls :
      sys_step (System c Idle calls) (Some (System c (Notifying (subscriptionMemList c)) calls))
  | step_notify c l p calls now create_ok muuid :
      sys_step (System c (Notifying (p :: l)) calls)
        ((λ c', System c' (Notifying l) calls) <$> notify_one poll now create_ok muuid p c)
  | step_notify_end c calls : sys_step (System c (Notifying []) calls) (Some (System c Idle calls))
  | step_heartbeat_start c calls :
      sys_step (System c Idle calls) (Some (System c (Heartbeating (subscriptionMemList c)) calls))
  | step_heartbeat c l p calls now create_ok :
      sys_step (System c (Heartbeating (p :: l)) calls)
        ((λ c', System c' (Heartbeating l) calls) <$> heartbeat_one now create_ok p c)
  | step_heartbeat_end c calls : sys_step (System c (Heartbeating []) calls) (Some (System c Idle calls))
  | step_send c ps calls now muuid i :
      is_Some (senders c !! i) →
      sys_step (System c ps calls)
        ((λ c', System c' ps calls) <$> wse_event_sender transport now muuid i c)
  | step_event c ps calls uuid n pool :
      MemEventPoolAddEvent uuid (Some n) (ev_pool c) = Some (0, pool) →
      sys_step (System c ps calls) (Some (System (set_pool pool c) ps calls)).

Inductive reachable : system → Prop :=
  | reach_init repo limit :
      reachable (System (Evcntx ∅ [] (MemEventPoolInit limit).2 [] [] repo []) Idle [])
  | reach_step s s' : reachable s → sys_step s (Some s') → reachable s'.

(** ** Operations keep the invariant *)

Context {LL : Libxml2Laws}.

Lemma duplicate_doc_root ns name ps c : has_root (ws_xml_duplicate_doc (Some (XElement ns name ps c))).
Proof.
  unfold ws_xml_duplicate_doc, ws_xml_create_doc. cbn [ws_xml_get_doc_root].
  rewrite new_node_empty, foldl_add_node. by repeat eexists.
Qed.

Lemma update_header_root f d : has_root d → has_root (update_soap_header f <$> d).
Proof.
  intros (ns & name & ps & c & ->). cbn [fmap option_fmap option_map]. unfold update_soap_header.
  destruct (ws_xml_get_soap_header _); by repeat eexists.
Qed.

Lemma template_roots indoc mode to :
  has_root (create_notification_template indoc mode to).1 ∧
  has_root (create_notification_template indoc mode to).2.
Proof.
  unfold create_notification_template. cbn [fst snd]. rewrite envelope_eq.
  split; [|apply update_header_root]; apply duplicate_doc_root.
Qed.

Lemma cbind_accept {A B} (c : option (checked A)) (k : A → option (checked B)) b :
  cbind c k = Some (inr b) → ∃ a, c = Some (inr a) ∧ k a = Some (inr b).
Proof. destruct c as [[?|a]|]; simpl; [done|by exists a|done]. Qed.

(** The flags of a new subscription are those of its bookmark and filter. *)
Lemma event_request_flags indoc flags r :
  wsman_parse_event_request indoc flags = Some (inr r) →
  r.1 ∈ [flags; Z.lor flags WSMAN_SUBSCRIPTION_CQL; Z.lor flags WSMAN_SUBSCRIPTION_WQL;
         Z.lor flags WSMAN_SUBSCRIPTION_SELECTORSET].
Proof.
  unfold wsman_parse_event_request. destruct (child _ _ _) as [n|]; [|intros [= <-]; by left].
  destruct (Filter.filter_deserialize _ XML_NS_WS_MAN) as [f|], (Filter.filter_deserialize _ XML_NS_EVENTING) as [g|];
    cbn [mbind option_bind]; [|done..].
  assert (Hd : ∀ h : Filter.filter_t,
    (d ← Filter.dialect h;
     Some (if str_eqb d WSM_CQL_FILTER_DIALECT then inr (Z.lor flags WSMAN_SUBSCRIPTION_CQL, Some h)
           else if str_eqb d WSM_WQL_FILTER_DIALECT then inr (Z.lor flags WSMAN_SUBSCRIPTION_WQL, Some h)
           else inl (WSE_FILTERING_NOT_SUPPORTED, WSMAN_DETAIL_OK))) = Some (inr r) →
    r.1 ∈ [flags; Z.lor flags WSMAN_SUBSCRIPTION_CQL; Z.lor flags WSMAN_SUBSCRIPTION_WQL;
           Z.lor flags WSMAN_SUBSCRIPTION_SELECTORSET]).
  { intros h. destruct (Filter.dialect h); cbn [mbind option_bind]; [|done].
    destruct (str_eqb _ _); [intros [= <-]; by right; left|].
    destruct (str_eqb _ _); [intros [= <-]; by right; right; left|done]. }
  destruct f as [f|], g as [g|]; [done|apply Hd..|].
  destruct (is_existing_filter_epr _); [|done]. intros [= <-]. by right; right; right; left.
Qed.

Lemma bookmark_flags n : (bookmark n).1 ∈ [0; WSMAN_SUBSCRIBEINFO_BOOKMARK_DEFAULT].
Proof.
  unfold bookmark. destruct (child _ _ _) as [m|]; [|by left].
  destruct (ws_xml_get_node_text _); [|by left]. destruct (str_eqb _ _); [by right; left|by left].
Qed.

Lemma subs_info_new now isdst uuid msg indoc s :
  subs_info strtod_round mktime now isdst uuid msg indoc = Some (inr s) →
  subs_docs s ∧ has_flag PENDING s = false.
Proof.
  unfold subs_info. destruct (wsman_get_resource_uri _ _); cbn [mbind option_bind]; [|done].
  destruct (child _ _ _) as [n|]; [|done].
  destruct (ws_xml_get_node_name_ns _); cbn [mbind option_bind]; [|done].
  pose proof (bookmark_flags (Some n)) as Hb. destruct (bookmark _) as [bf bd]. cbn [fst] in Hb.
  intros (exp & _ & H)%cbind_accept. destruct (delivery_mode _) as [mode|]; cbn [mbind option_bind] in H; [|done].
  destruct (dup_text _); cbn [mbind option_bind] in H; [|done].
  destruct (subs_locale _); cbn [mbind option_bind] in H; [|done].
  apply cbind_accept in H as (hb & _ & H). apply cbind_accept in H as (sink & _ & H).
  apply cbind_accept in H as (cr & _ & H). apply cbind_accept in H as (req & Hreq & H).
  destruct (subs_id _ _); cbn [mbind option_bind] in H; [|done].
  injection H as <-. split.
  - unfold subs_docs. cbn [deliveryMode templateDoc heartbeatDoc]. intros Hm%Z.eqb_neq. rewrite Hm.
    apply template_roots.
  - unfold has_flag. cbn [s_flags]. apply event_request_flags in Hreq.
    destruct req as [fl fi]. cbn [fst] in *. set_unfold in Hreq. set_unfold in Hb.
    destruct Hb as [Hb|[Hb|Hb]], Hreq as [Hr|[Hr|[Hr|[Hr|Hr]]]]; try done; subst; reflexivity.
Qed.

(** The functions of a plugin keep the documents and the pending flag, and do
    not make up a subscription. *)
Definition kept (s t : WsSubscribeInfo) : Prop := same_docs s t ∧ has_flag PENDING t = has_flag PENDING s.

Record endpoint_ok : Prop := {
  sub_ep_ok f o r t st : sub_ep = Some f → f o = Some (r, Some t, st) → ∃ s, o = Some s ∧ kept s t;
  ep_ok f s : ep = Some f → kept s (f s).1.2;
}.

Definition fresh_subs (s : WsSubscribeInfo) : Prop := subs_docs s ∧ has_flag PENDING s = false.

Lemma create_subs_info_new now isdst uuid muuid msg indoc doc s :
  create_subs_info strtod_round mktime ns_prefix now isdst uuid muuid msg indoc = Some (doc, Some s) → fresh_subs s.
Proof.
  unfold create_subs_info. destruct (subs_info _ _ _ _ _ _ _) as [[[code d]|t]|] eqn:Hs; cbn [mbind option_bind].
  - by destruct (generate_fault_document _ _ _ _ _ _).
  - intros [= _ ->]. by eapply subs_info_new.
  - done.
Qed.

Lemma subs_endpoint_new o rv t st :
  endpoint_ok → (∀ s, o = Some s → fresh_subs s) →
  match sub_ep with Some f => f o | None => Some (0, o, status_init) end = Some (rv, Some t, st) → fresh_subs t.
Proof.
  intros He Ho. destruct sub_ep as [f|] eqn:E.
  - intros Hf. destruct (sub_ep_ok He f o rv t st E Hf) as (s & -> & Hsame & Hp).
    destruct (Ho s eq_refl) as [Hd Hf']. split; [by eapply same_docs_docs|congruence].
  - intros [= _ -> _]. by apply Ho.
Qed.

Lemma subscribe_stub_ok repo now isdst uuid muuid msg indoc c r doc c' :
  endpoint_ok → ev_ok c →
  wse_subscribe_stub ns_prefix strtod_round mktime repo now isdst uuid muuid sub_ep msg indoc c = Some (r, doc, c') →
  ev_ok c'.
Proof.
  intros He Hok. unfold wse_subscribe_stub.
  destruct (create_subs_info _ _ _ _ _ _ _ _ _) as [[d o]|] eqn:Ec; cbn [mbind option_bind]; [|done].
  destruct d as [d|]; [by intros [= _ _ <-]|].
  assert (Ho : ∀ s, o = Some s → fresh_subs s) by (intros s ->; by eapply create_subs_info_new).
  destruct (match sub_ep with Some _ => _ | None => _ end) as [[[rv o'] st]|] eqn:Ee; cbn [mbind option_bind]; [|done].
  destruct (negb _).
  - destruct (generate_fault_document _ _ _ _ _ _); cbn [mbind option_bind]; [|done]. by intros [= _ _ <-].
  - destruct o' as [t|]; cbn [mbind option_bind]; [|done].
    destruct (subs_endpoint_new o rv t st He Ho Ee) as [Hd Hf].
    destruct (match child _ _ _ with Some _ => _ | None => _ end); cbn [mbind option_bind]; [|done].
    intros [= _ _ <-]. by apply keep_subscription_ok.
Qed.

(** What a plugin's function leaves of a subscription. *)
Lemma endpoint_kept s :
  endpoint_ok → ∃ rv t st, match ep with Some f => f s | None => (0, s, status_init) end = (rv, t, st) ∧ kept s t.
Proof.
  intros He. destruct ep as [f|] eqn:E; [|by eexists _, _, _].
  pose proof (ep_ok He f s E) as Hk. destruct (f s) as [[rv t] st]. by eexists _, _, _.
Qed.

Lemma ev_ok_kept c p s t :
  ev_ok c → s_heap c !! p = Some s → kept s t → ev_ok (set_s_heap (<[p := t]> (s_heap c)) c).
Proof. intros Hok Hs [Hd Hp]. by eapply ev_ok_update. Qed.

Lemma unsubscribe_finish_ok muuid indoc p c r :
  endpoint_ok → ev_ok c → unsubscribe_finish ns_prefix muuid ep indoc p c = Some r →
  ev_ok r.2 ∧ subscriptionMemList r.2 = subscriptionMemList c.
Proof.
  intros He Hok. unfold unsubscribe_finish, update_subs. destruct (s_heap c !! p) as [s|] eqn:Hs; [|done].
  cbn [mbind option_bind]. destruct (endpoint_kept s He) as (rv & t & st & -> & Hk). cbn [mbind option_bind].
  assert (Hok1 := ev_ok_kept c p s t Hok Hs Hk). destruct (negb _).
  - destruct (generate_fault_document _ _ _ _ _ _); cbn [mbind option_bind]; [|done]. by intros [= <-].
  - cbn [s_heap set_s_heap]. rewrite lookup_insert_eq. cbn [mbind option_bind]. intros [= <-]. split; [|done].
    cbn [snd]. assert (Hok2 := ev_ok_kept _ p _ (raise_flag UNSUBSCRIBED t) Hok1 (lookup_insert_eq _ _ _)
      (conj (conj eq_refl (conj eq_refl eq_refl)) (raise_other 0 t ltac:(lia) ltac:(lia)))).
    exact Hok2.
Qed.

Lemma renew_finish_ok now isdst muuid indoc p c r :
  endpoint_ok → ev_ok c → renew_finish ns_prefix strtod_round mktime now isdst muuid ep indoc p c = Some r →
  ev_ok r.2 ∧ subscriptionMemList r.2 = subscriptionMemList c.
Proof.
  intros He Hok. unfold renew_finish, update_subs. destruct (s_heap c !! p) as [s|] eqn:Hs; [|done].
  cbn [mbind option_bind]. destruct (wsman_set_expiretime _ _ _ _ _ _) as [[e code]|]; cbn [mbind option_bind]; [|done].
  assert (Hok1 : ev_ok (set_s_heap (<[p := set_expires e s]> (s_heap c)) c)) by (by eapply ev_ok_kept).
  destruct (decide _); [by intros [= <-]|]. cbn [set_s_heap s_heap]. rewrite lookup_insert_eq. cbn [mbind option_bind].
  destruct (endpoint_kept (set_expires e s) He) as (rv & t & st & -> & Hk).
  assert (Hok2 := ev_ok_kept _ p _ t Hok1 (lookup_insert_eq _ _ _) Hk). cbn [s_heap set_s_heap] in Hok2.
  destruct (negb _); [|by intros [= <-]].
  destruct (generate_fault_document _ _ _ _ _ _); cbn [mbind option_bind]; [|done]. by intros [= <-].
Qed.

Lemma pull_notifications_ok muuid indoc p c r :
  ev_ok c → pull_notifications ns_prefix muuid indoc p c = Some r →
  ev_ok r.2 ∧ subscriptionMemList r.2 = subscriptionMemList c.
Proof.
  intros Hok. unfold pull_notifications, fault. destruct (s_heap c !! p) as [s|]; [|done]. cbn [mbind option_bind].
  destruct (0 <? _).
  - destruct (pull_max_elements indoc); cbn [mbind option_bind]; [|done].
    destruct (pull_events _ _ _). intros [= <-]. split; [by apply ev_ok_pool|done].
  - destruct (generate_fault_document _ _ _ _ _ _); cbn [mbind option_bind]; [|done]. by intros [= <-].
Qed.

Lemma heartbeat_one_ok now create_ok p c s :
  ev_ok c → s_heap c !! p = Some s →
  ∃ c', heartbeat_one now create_ok p c = Some c' ∧ ev_ok c' ∧ subscriptionMemList c' = subscriptionMemList c.
Proof.
  intros Hok Hs. unfold heartbeat_one, update_subs. rewrite Hs. cbn [mbind option_bind].
  destruct (has_flag UNSUBSCRIBED s || _); [by exists c|].
  destruct (_ || (deliveryMode s =? _)) eqn:Em; [by exists c|].
  apply orb_false_iff in Em as [_ Em%Z.eqb_neq].
  destruct (0 <? _). { eexists. split; [done|]. split; [by eapply ev_ok_update|done]. }
  cbn [eventSentLastTime set_countdown].
  destruct (eventSentLastTime s). { eexists. split; [done|]. split; [by eapply ev_ok_update|done]. }
  destruct (has_flag PENDING _) eqn:Hp. { eexists. split; [done|]. split; [by eapply ev_ok_update|done]. }
  destruct create_ok; eexists; (split; [done|]); (split; [|done]).
  - apply (ev_ok_start c p s); [done|done|exact Hp|done|done|]. apply raise_pending.
  - by eapply ev_ok_update.
Qed.

Lemma notification_document_ok muuid s n pool :
  subs_docs s → deliveryMode s ≠ WS_EVENT_DELIVERY_MODE_PULL →
  is_Some (notification_document muuid s n pool).
Proof.
  intros Hd Hm. destruct (Hd Hm) as [(ns & name & ps & c & E) _]. unfold notification_document. rewrite E.
  destruct (duplicate_doc_root ns name ps c) as (? & ? & ? & ? & ->). cbn [mbind option_bind]. by eexists.
Qed.

Lemma notify_one_ok now create_ok muuid p c s :
  ev_ok c → s_heap c !! p = Some s →
  ∃ c', notify_one poll now create_ok muuid p c = Some c' ∧ ev_ok c' ∧
    subscriptionMemList c' =
      if ended now s then filter (λ q, q ≠ p) (subscriptionMemList c) else subscriptionMemList c.
Proof.
  intros Hok Hs. unfold notify_one. rewrite Hs. cbn [mbind option_bind].
  destruct (ended now s) eqn:He.
  { apply andb_true_iff in He as [_ Hp%negb_true_iff].
    destruct (remove_subscription_ok p s c Hok Hs Hp) as (c' & ? & ? & ? & _). by exists c'. }
  destruct (if eventpoll s then _ else _) as [r pool].
  destruct (_ || (deliveryMode s =? _)) eqn:Em.
  { eexists. split; [done|]. split; [by apply ev_ok_pool|done]. }
  apply orb_false_iff in Em as [_ Em%Z.eqb_neq].
  destruct (MemEventPoolGetAndDeleteEvent (subsId s) pool) as [[r' n] pool'].
  assert (Hdone : ∀ q, ∃ c', Some (set_pool q c) = Some c' ∧ ev_ok c' ∧
    subscriptionMemList c' = subscriptionMemList c).
  { intros q. eexists. split; [done|]. split; [by apply ev_ok_pool|done]. }
  destruct (r' =? 0), n as [n|]; try apply Hdone.
  destruct (notification_document_ok muuid s n pool' (ok_docs _ Hok p s Hs) Em) as [[doc q] ->].
  cbn [mbind option_bind]. destruct (has_flag PENDING s) eqn:Hp; [apply Hdone|].
  destruct create_ok; [|apply Hdone]. unfold update_subs. cbn [s_heap set_pool]. rewrite Hs. cbn [mbind option_bind].
  eexists. split; [done|]. split; [|done].
  apply (ev_ok_start (set_pool q c) p s); [by apply ev_ok_pool|done..|apply raise_pending].
Qed.

Lemma event_sender_ok now muuid i c c' :
  ev_ok c → wse_event_sender transport now muuid i c = Some c' →
  ev_ok c' ∧ subscriptionMemList c' = subscriptionMemList c.
Proof.
  intros Hok. unfold wse_event_sender. destruct (senders c !! i) as [sd|] eqn:Hi; [|done]. cbn [mbind option_bind].
  destruct (s_heap c !! sd_subs sd) as [s|] eqn:Hs; [|done]. cbn [mbind option_bind].
  set (s1 := match sd_doc sd with Some _ => _ | None => _ end).
  assert (H1 : same_docs s s1) by (unfold s1; by destruct (sd_doc sd)). clearbody s1.
  unfold update_subs. destruct (_ || _).
  - cbn [mbind option_bind]. rewrite Hs. cbn [mbind option_bind]. intros [= <-]. split; [|done].
    apply (ev_ok_finish c i sd s); [done..|]. apply clear_pending.
  - destruct (match sd_doc sd with Some _ => _ | None => _ end) as [doc|]; [|done]. cbn [mbind option_bind].
    destruct (wse_send_notification _ _ _ _) as [ok|]; [|done].
    cbn [mbind option_bind s_heap add_sent]. rewrite Hs. cbn [mbind option_bind]. intros [= <-]. split; [|done].
    apply (ev_ok_finish (add_sent (subsId s1, doc) c) i sd s); [by apply ev_ok_sent|done|done| |apply clear_pending].
    by destruct ok.
Qed.

(** Every answer of a sink to a notification can be read. *)
Definition acks_ok : Prop := ∀ s d, is_Some (ack_received d (transport s d)).

Lemma event_sender_total now muuid i c :
  acks_ok → ev_ok c → is_Some (senders c !! i) → is_Some (wse_event_sender transport now muuid i c).
Proof.
  intros Hack Hok [sd Hi]. unfold wse_event_sender. rewrite Hi. cbn [mbind option_bind].
  destruct (ok_push _ Hok (sd_subs sd)) as (s & Hs & Hm); [by eapply list_elem_of_fmap_2, list_elem_of_lookup_2|].
  destruct (ok_docs _ Hok _ _ Hs Hm) as [_ (ns & name & ps & ch & Hd)].
  rewrite Hs. cbn [mbind option_bind]. set (s1 := match sd_doc sd with Some _ => _ | None => _ end).
  assert (H1 : heartbeatDoc s1 = heartbeatDoc s) by (unfold s1; by destruct (sd_doc sd)). clearbody s1.
  unfold update_subs. destruct (_ || _); cbn [mbind option_bind]; [rewrite Hs; by eexists|].
  assert (Hdoc : is_Some (match sd_doc sd with Some d => Some d | None => heartbeat_document muuid s1 end)).
  { destruct (sd_doc sd); [by eexists|]. unfold heartbeat_document. rewrite H1, Hd.
    destruct (duplicate_doc_root ns name ps ch) as (? & ? & ? & ? & ->). by eexists. }
  destruct Hdoc as [doc ->]. cbn [mbind option_bind].
  assert (Hsend : is_Some (wse_send_notification transport (wants_ack (deliveryMode s1)) s1 doc)).
  { unfold wse_send_notification. destruct (wants_ack _); [apply Hack|by eexists]. }
  destruct Hsend as [ok ->]. cbn [mbind option_bind s_heap add_sent]. rewrite Hs. by eexists.
Qed.

(** ** All threads together *)

Lemma sys_step_ok s s' : endpoint_ok → sys_ok s → sys_step s (Some s') → sys_ok s'.
Proof.
  intros He [Hok Hps] Hstep. remember (Some s') as o eqn:Ho.
  destruct Hstep; simpl in Hok, Hps; try (apply fmap_Some in Ho as (r & Hr & ->)); simplify_eq; split; simpl; try done.
  - by eapply subscribe_stub_ok.
  - by eapply unsubscribe_finish_ok.
  - eapply pass_ok_same; [by eapply unsubscribe_finish_ok|done].
  - by eapply renew_finish_ok.
  - eapply pass_ok_same; [by eapply renew_finish_ok|done].
  - by eapply pull_notifications_ok.
  - eapply pass_ok_same; [by eapply pull_notifications_ok|done].
  - by exists [].
  - destruct Hps as [pre E], (pass_next c pre p l Hok E) as [u Hu].
    destruct (notify_one_ok now create_ok muuid p c u Hok Hu) as (? & ? & ? & _). congruence.
  - destruct Hps as [pre E], (pass_next c pre p l Hok E) as [u Hu].
    destruct (notify_one_ok now create_ok muuid p c u Hok Hu) as (c' & ? & _ & Hl).
    assert (r = c') as -> by congruence. rewrite Hl. destruct (ended now u).
    + exists pre. by apply pass_filter.
    + exists (pre ++ [p]). by rewrite <- app_assoc.
  - by exists [].
  - destruct Hps as [pre E], (pass_next c pre p l Hok E) as [u Hu].
    destruct (heartbeat_one_ok now create_ok p c u Hok Hu) as (? & ? & ? & _). congruence.
  - destruct Hps as [pre E], (pass_next c pre p l Hok E) as [u Hu].
    destruct (heartbeat_one_ok now create_ok p c u Hok Hu) as (c' & ? & _ & Hl).
    assert (r = c') as -> by congruence. rewrite Hl. exists (pre ++ [p]). by rewrite <- app_assoc.
  - by eapply event_sender_ok.
  - eapply pass_ok_same; [by eapply event_sender_ok|done].
  - by apply ev_ok_pool.
Qed.

Lemma reachable_sys_ok s : endpoint_ok → reachable s → sys_ok s.
Proof.
  intros He. induction 1 as [repo limit|s s' _ IH Hstep]; [|by eapply sys_step_ok].
  split; [apply ev_ok_empty|done].
Qed.

(** ** Which threads can fail *)

Lemma fault_document_total muuid indoc code d m :
  is_Some (generate_fault_document ns_prefix muuid indoc code d m).
Proof.
  unfold generate_fault_document. destruct (generate_fault_defined code d m) as [f ->]. by eexists.
Qed.

Lemma child_text n ns name m : child n ns name = Some m → is_Some (ws_xml_get_node_text (Some m)).
Proof.
  unfold child. destruct n as [n|]; [|done]. intros (_ & He & _)%ws_xml_get_child_elem.
  destruct m; [|done]. apply content_element.
Qed.

Lemma pull_max_elements_total indoc : is_Some (pull_max_elements indoc).
Proof.
  unfold pull_max_elements. destruct (child _ _ _) as [n|] eqn:E; [|by eexists].
  destruct (child_text _ _ _ _ E) as [t ->]. by eexists.
Qed.

Definition strtod_ok : Prop := ∀ t, (String.length (strtod_round t).2 ≤ String.length t)%nat.

Lemma set_expiretime_total now isdst text e :
  strtod_ok → is_Some (wsman_set_expiretime strtod_round mktime now isdst text e).
Proof. apply expiretime_defined. Qed.

Lemma unsubscribe_finish_live muuid indoc p c :
  unsubscribe_finish ns_prefix muuid ep indoc p c = None → s_heap c !! p = None.
Proof.
  unfold unsubscribe_finish, update_subs. destruct (s_heap c !! p) as [s|]; [|done]. cbn [mbind option_bind].
  destruct (match ep with Some _ => _ | None => _ end) as [[rv t] st].
  cbn [mbind option_bind]. destruct (negb _); [|cbn [s_heap set_s_heap]; by rewrite lookup_insert_eq].
  by destruct (fault_document_total muuid (Some indoc) (st_code st) (st_detail st) (st_msg st)) as [d ->].
Qed.

Lemma renew_finish_live now isdst muuid indoc p c :
  strtod_ok → renew_finish ns_prefix strtod_round mktime now isdst muuid ep indoc p c = None → s_heap c !! p = None.
Proof.
  intros Hs. unfold renew_finish, update_subs. destruct (s_heap c !! p) as [s|]; [|done]. cbn [mbind option_bind].
  destruct (set_expiretime_total now isdst (ws_xml_get_node_text
    (child (child (ws_xml_get_soap_body (Some indoc)) XML_NS_EVENTING WSEVENT_RENEW) XML_NS_EVENTING
       WSEVENT_EXPIRES)) (s_expires s) Hs) as [[e code] ->]. cbn [mbind option_bind].
  destruct (decide _); [done|]. cbn [set_s_heap s_heap]. rewrite lookup_insert_eq. cbn [mbind option_bind].
  destruct (match ep with Some _ => _ | None => _ end) as [[rv t] st].
  destruct (negb _); [|done].
  by destruct (fault_document_total muuid (Some indoc) (st_code st) (st_detail st) (st_msg st)) as [d ->].
Qed.

Lemma pull_notifications_live muuid indoc p c :
  pull_notifications ns_prefix muuid indoc p c = None → s_heap c !! p = None.
Proof.
  unfold pull_notifications, fault. destruct (s_heap c !! p) as [s|]; [|done]. cbn [mbind option_bind].
  destruct (0 <? _).
  - destruct (pull_max_elements_total indoc) as [m ->]. cbn [mbind option_bind]. by destruct (pull_events _ _ _).
  - by destruct (fault_document_total muuid (Some indoc) WSMAN_TIMED_OUT WSMAN_DETAIL_OK None) as [d ->].
Qed.

(** C1: in every reachable state, whatever the interleaving of requests, of
    the notification manager, of the heartbeat generator and of the senders:
    the list of subscriptions has no duplicates and holds exactly the
    subscriptions that are allocated; a subscription that pushes has its two
    documents; at most one sender works for a subscription, its pending flag
    is set exactly then, and a sender's subscription is allocated. *)
Theorem eventing_invariant s : endpoint_ok → reachable s → ev_ok (sys_c s).
Proof. intros He Hr. by apply reachable_sys_ok. Qed.

(** C4: the notification manager, the heartbeat generator and the senders
    never access a freed subscription or a missing document: a step that fails
    in a reachable state is an Unsubscribe, Renew or Pull request that goes on
    with the subscription it found after that subscription was freed. *)
Theorem only_requests_fail s :
  endpoint_ok → acks_ok → strtod_ok → reachable s → sys_step s None →
  ∃ x, x ∈ sys_calls s ∧ s_heap (sys_c s) !! call_subs x = None.
Proof.
  intros He Hack Hst Hr Hstep. apply reachable_sys_ok in Hr as [Hok Hps]; [|done].
  remember None as o eqn:Ho. destruct Hstep; simpl in *; try done; apply fmap_None in Ho.
  - eexists. split; [by apply elem_of_app; right; left|]. by eapply unsubscribe_finish_live.
  - eexists. split; [by apply elem_of_app; right; left|]. by eapply renew_finish_live.
  - eexists. split; [by apply elem_of_app; right; left|]. by eapply pull_notifications_live.
  - destruct Hps as [pre E], (pass_next c pre p l Hok E) as [u Hu].
    destruct (notify_one_ok now create_ok muuid p c u Hok Hu) as (? & ? & _). congruence.
  - destruct Hps as [pre E], (pass_next c pre p l Hok E) as [u Hu].
    destruct (heartbeat_one_ok now create_ok p c u Hok Hu) as (? & ? & _). congruence.
  - destruct (event_sender_total now muuid i c Hack Hok) as [? ?]; [done|]. congruence.
Qed.

(** ** A pass of the manager *)

Definition ended_at (now : Z) (c : evcntx) (p : positive) : bool :=
  match s_heap c !! p with Some s => ended now s | None => false end.

(** What one visit does to the other subscriptions and to its own. *)
Lemma notify_one_heap now create_ok muuid p c s c' :
  s_heap c !! p = Some s → notify_one poll now create_ok muuid p c = Some c' →
  (∀ q, q ≠ p → s_heap c' !! q = s_heap c !! q) ∧
  (if ended now s then s_heap c' !! p = None ∧ repository c' = repository c ∖ {[subsId s]}
   else is_Some (s_heap c' !! p) ∧ repository c' = repository c).
Proof.
  intros Hs. unfold notify_one. rewrite Hs. cbn [mbind option_bind]. destruct (ended now s).
  { unfold remove_subscription, destroy_subsinfo. destruct (MemEventPoolClearEvent _ _ _) as [[? ?] ?].
    cbn [s_heap mbind option_bind]. rewrite Hs. cbn [mbind option_bind]. intros [= <-]. cbn. split_and!; [|apply lookup_delete_eq|done].
    intros q Hq. by apply lookup_delete_ne. }
  assert (Hpool : ∀ pool, Some (set_pool pool c) = Some c' →
    (∀ q, q ≠ p → s_heap c' !! q = s_heap c !! q) ∧ is_Some (s_heap c' !! p) ∧ repository c' = repository c).
  { intros pool [= <-]. cbn. by rewrite Hs. }
  destruct (if eventpoll s then _ else _) as [r pool]. destruct (_ || _); [apply Hpool|].
  destruct (MemEventPoolGetAndDeleteEvent _ _) as [[r' n] pool'].
  destruct (r' =? 0), n as [n|]; try apply Hpool.
  destruct (notification_document _ _ _ _) as [[doc q]|]; cbn [mbind option_bind]; [|done].
  destruct (has_flag PENDING s); [apply Hpool|]. destruct create_ok; [|apply Hpool].
  unfold update_subs. cbn [s_heap set_pool]. rewrite Hs. cbn [mbind option_bind]. intros [= <-]. cbn.
  rewrite lookup_insert_eq. split_and!; [|by eexists|done]. intros q' Hq. by apply lookup_insert_ne.
Qed.

(** What a pass over [l] leaves. *)
Record passed (now : Z) (l : list positive) (c c' : evcntx) : Prop := {
  passed_list : subscriptionMemList c' `sublist_of` subscriptionMemList c;
  passed_other q : q ∉ l → s_heap c' !! q = s_heap c !! q;
  passed_ended q s : q ∈ l → s_heap c !! q = Some s → ended now s = true →
    s_heap c' !! q = None ∧ subsId s ∉ repository c';
  passed_kept q s : q ∈ l → s_heap c !! q = Some s → ended now s = false → is_Some (s_heap c' !! q);
  passed_repo : repository c' ⊆ repository c;
}.

Lemma passed_step now muuid p l c s c1 c' :
  ev_ok c → p ∉ l → s_heap c !! p = Some s → notify_one poll now true muuid p c = Some c1 →
  passed now l c1 c' → passed now (p :: l) c c'.
Proof.
  intros Hok Hpl Hs H1 [Hl Ho He Hk Hr].
  destruct (notify_one_ok now true muuid p c s Hok Hs) as (c1' & H1' & _ & Hl1).
  assert (c1' = c1) as -> by congruence.
  destruct (notify_one_heap now true muuid p c s c1 Hs H1) as [Hq1 Hp1].
  assert (Hin : ∀ q, q ∈ l → s_heap c1 !! q = s_heap c !! q) by (intros q Hq; apply Hq1; by intros ->).
  split.
  - etransitivity; [exact Hl|]. rewrite Hl1. destruct (ended now s); [apply sublist_filter|done].
  - intros q [Hne Hni]%not_elem_of_cons. rewrite Ho by done. by apply Hq1.
  - intros q t [->|Hq]%elem_of_cons Ht Het; [|rewrite <- Hin in Ht by done; by eapply He].
    assert (t = s) as -> by congruence. rewrite Het in Hp1. destruct Hp1 as [Hn Hrp].
    rewrite Ho by done. split; [done|]. intros Hin'%Hr. rewrite Hrp in Hin'.
    apply elem_of_difference in Hin' as [_ Hne]. by apply Hne, elem_of_singleton.
  - intros q t [->|Hq]%elem_of_cons Ht Het; [|rewrite <- Hin in Ht by done; by eapply Hk].
    assert (t = s) as -> by congruence. rewrite Het in Hp1. rewrite Ho by done. by destruct Hp1.
  - etransitivity; [exact Hr|]. destruct (ended now s); destruct Hp1 as [_ ->]; [apply subseteq_difference_l|]; done.
Qed.

Lemma notify_all_spec now muuid l : ∀ c,
  ev_ok c → (∃ pre, subscriptionMemList c = pre ++ l) →
  ∃ c', notify_all poll now muuid l c = Some c' ∧ ev_ok c' ∧ passed now l c c'.
Proof.
  induction l as [|p l IH]; intros c Hok [pre E].
  - exists c. split_and!; [done..|]. split; try done; by intros q s ?%elem_of_nil.
  - destruct (pass_next c pre p l Hok E) as [s Hs].
    destruct (notify_one_ok now true muuid p c s Hok Hs) as (c1 & H1 & Hok1 & Hl1).
    pose proof (ok_list _ Hok) as Hnd. rewrite E in Hnd. apply NoDup_app in Hnd as (_ & _ & [Hpl _]%NoDup_cons).
    destruct (IH c1 Hok1) as (c' & H' & Hok' & Hp').
    { rewrite Hl1. destruct (ended now s); [exists pre; by apply pass_filter|].
      exists (pre ++ [p]). by rewrite <- app_assoc. }
    exists c'. split_and!; [cbn [notify_all]; by rewrite H1|done|by eapply passed_step].
Qed.

Lemma manager_spec now muuid c :
  ev_ok c → ∃ c', wse_notification_manager poll now muuid c = Some c' ∧ ev_ok c' ∧
    passed now (subscriptionMemList c) c c'.
Proof. intros Hok. apply notify_all_spec; [done|by exists []]. Qed.

Lemma notify_all_reachable now muuid calls l : ∀ c c',
  notify_all poll now muuid l c = Some c' →
  reachable (System c (Notifying l) calls) → reachable (System c' (Notifying []) calls).
Proof.
  induction l as [|p l IH]; intros c c' H Hr; cbn [notify_all] in H; [by injection H as <-|].
  destruct (notify_one poll now true muuid p c) as [c1|] eqn:H1; [|done]. apply (IH c1 c' H).
  eapply reach_step; [exact Hr|].
  replace (Some (System c1 (Notifying l) calls)) with
    ((λ c', System c' (Notifying l) calls) <$> notify_one poll now true muuid p c) by (by rewrite H1).
  constructor.
Qed.

Lemma manager_reachable now muuid calls c c' :
  wse_notification_manager poll now muuid c = Some c' →
  reachable (System c Idle calls) → reachable (System c' Idle calls).
Proof.
  intros H Hr. eapply reach_step; [|constructor]. eapply notify_all_reachable; [exact H|].
  eapply reach_step; [exact Hr|constructor].
Qed.


(** A request that found a subscription does not keep it: in any reachable
    state with an Unsubscribe, Renew or Pull between its two halves, if that
    subscription has ended and has no sender, a pass of the manager frees it
    and the request then fails on the freed subscription. *)
Theorem request_use_after_free now muuid c calls x s :
  endpoint_ok → reachable (System c Idle calls) → x ∈ calls →
  s_heap c !! call_subs x = Some s → ended now s = true →
  ∃ c', wse_notification_manager poll now muuid c = Some c' ∧
    reachable (System c' Idle calls) ∧ sys_step (System c' Idle calls) None.
Proof.
  intros He Hr [l1 [l2 ->]]%list_elem_of_split Hs Hend.
  destruct (reachable_sys_ok _ He Hr) as [Hok _]. simpl in Hok.
  destruct (manager_spec now muuid c Hok) as (c' & H & Hok' & Hp).
  exists c'. split_and!; [done|by eapply manager_reachable|].
  assert (Hn : s_heap c' !! call_subs x = None).
  { eapply passed_ended; [exact Hp| |exact Hs|done]. apply (ok_heap _ Hok). by eexists. }
  destruct x as [indoc p|indoc p|indoc p]; simpl in Hn.
  - pose proof (step_unsubscribe c' Idle l1 l2 muuid indoc p) as Hstep.
    unfold unsubscribe_finish in Hstep. by rewrite Hn in Hstep.
  - pose proof (step_renew c' Idle l1 l2 now 0 muuid indoc p) as Hstep.
    unfold renew_finish in Hstep. by rewrite Hn in Hstep.
  - pose proof (step_pull c' Idle l1 l2 muuid indoc p) as Hstep.
    unfold pull_notifications in Hstep. by rewrite Hn in Hstep.
Qed.

(** ** Unsubscribe *)

(** An Unsubscribe with the identifier that the response to Subscribe
    carries finds that subscription, if identifiers are distinct up to case,
    and answers with a response; when no sender works for it, the next pass of
    the manager removes it from the list, the heap and the repository. *)
Theorem unsubscribe_ends_subscription now muuid muuid' c p s indoc :
  ev_ok c → ids_distinct c → s_heap c !! p = Some s → has_flag PENDING s = false →
  ws_xml_get_node_text (identifier_node indoc) = Some ("uuid:" +:+ subsId s) →
  (∀ f, ep = Some f → (f s).1.1 = 0 ∧ kept s (f s).1.2 ∧ subsId (f s).1.2 = subsId s) →
  ∃ doc c1 c2, wse_unsubscribe_stub ns_prefix muuid ep indoc c = Some (0, Some doc, c1) ∧
    wse_notification_manager poll now muuid' c1 = Some c2 ∧
    p ∉ subscriptionMemList c2 ∧ s_heap c2 !! p = None ∧ subsId s ∉ repository c2.
Proof.
  intros Hok Hid Hs Hf Ht Hep. unfold wse_unsubscribe_stub, unsubscribe_find.
  destruct (identifier_node indoc) as [n|]; [|done].
  rewrite Ht, (lookup_subs_uuid c p s) by done. cbn [mbind option_bind].
  unfold unsubscribe_finish, update_subs. rewrite Hs. cbn [mbind option_bind].
  assert (He : ∃ t st, match ep with Some f => f s | None => (0, s, status_init) end = (0, t, st) ∧
    kept s t ∧ subsId t = subsId s).
  { destruct ep as [f|]; [|by eexists _, _]. destruct (Hep f eq_refl) as (H0 & Hk & Hi).
    destruct (f s) as [[rv t] st]. simpl in *. subst. by eexists _, _. }
  destruct He as (t & st & -> & Hk & Hi). cbn [mbind option_bind negb Z.eqb s_heap set_s_heap].
  rewrite lookup_insert_eq. cbn [mbind option_bind].
  assert (Hok1 := ev_ok_kept c p s t Hok Hs Hk).
  assert (Hok2 := ev_ok_kept _ p _ (raise_flag UNSUBSCRIBED t) Hok1 (lookup_insert_eq _ _ _)
    (conj (conj eq_refl (conj eq_refl eq_refl)) (raise_other 0 t ltac:(lia) ltac:(lia)))).
  destruct (manager_spec now muuid' _ Hok2) as (c2 & H2 & Hok3 & Hp2).
  eexists _, _, c2. split; [done|]. split; [exact H2|].
  destruct (passed_ended _ _ _ _ Hp2 p (raise_flag UNSUBSCRIBED t)) as [Hn Hr].
  - apply (ok_heap _ Hok). by eexists.
  - apply lookup_insert_eq.
  - unfold ended. rewrite raise_unsubscribed, (raise_other 0) by done. destruct Hk as [_ ->]. by rewrite Hf.
  - split_and!; [|done|]. { rewrite (ok_heap _ Hok3), Hn. by intros [? ?]. } by rewrite <- Hi.
Qed.

(** ** Delivery *)

Lemma push_document_of muuid s n pool :
  subs_docs s → deliveryMode s = WS_EVENT_DELIVERY_MODE_PUSH →
  ∃ t, ws_xml_duplicate_doc (templateDoc s) = Some t ∧
    notification_document muuid s n pool = Some (push_document muuid t n, pool).
Proof.
  intros Hd Hm. destruct Hd as [(ns & name & ps & c & E) _]; [by rewrite Hm|]. unfold notification_document.
  rewrite E. destruct (duplicate_doc_root ns name ps c) as (? & ? & ? & ? & ->). cbn [mbind option_bind].
  rewrite Hm. by eexists.
Qed.

(** The manager's visit of a subscription with a queued event. *)
Lemma notify_one_event now muuid p c s n q :
  ev_ok c → pool_ok (ev_pool c) → s_heap c !! p = Some s → ended now s = false →
  eventpoll s = false → deliveryMode s = WS_EVENT_DELIVERY_MODE_PUSH →
  queue (subsId s) (ev_pool c) = n :: q →
  ∃ t pool, ws_xml_duplicate_doc (templateDoc s) = Some t ∧ queue (subsId s) pool = q ∧
    notify_one poll now true muuid p c = Some
      (if has_flag PENDING s then set_pool pool c
       else set_senders (senders c ++ [Sender p (Some (push_document muuid t n))])
              (set_s_heap (<[p := raise_flag PENDING s]> (s_heap c)) (set_pool pool c))).
Proof.
  intros Hok Hpool Hs He Hpoll Hm Hq.
  pose proof (remove_event_spec (subsId s) (ev_pool c) Hpool) as Hrm. rewrite Hq in Hrm.
  destruct Hrm as (pool & Hrm & _ & _ & Habs).
  destruct (push_document_of muuid s n pool (ok_docs _ Hok p s Hs) Hm) as (t & Ht & Hdoc).
  exists t, pool. split_and!; [done| |].
  - rewrite (queue_insert _ (subsId s) _ _ _ Habs). by rewrite bool_decide_true.
  - unfold notify_one. rewrite Hs. cbn [mbind option_bind]. rewrite He, Hpoll, Hm. cbn [orb Z.eqb].
    change (0 =? WSE_NOTIFICATION_EVENTS_PENDING) with false.
    change (WS_EVENT_DELIVERY_MODE_PUSH =? WS_EVENT_DELIVERY_MODE_PULL) with false. cbv iota beta delta [orb].
    rewrite Hrm, Hdoc. cbn [mbind option_bind]. destruct (has_flag PENDING s); [done|].
    unfold update_subs. cbn [s_heap set_pool]. by rewrite Hs.
Qed.


(** An event that is queued for a Push subscription whose sender is still
    at work is lost: the manager takes it out of the pool, and no sender gets
    it. *)
Theorem event_lost_while_pending now muuid p c s n q :
  ev_ok c → pool_ok (ev_pool c) → s_heap c !! p = Some s →
  has_flag PENDING s = true → eventpoll s = false → deliveryMode s = WS_EVENT_DELIVERY_MODE_PUSH →
  queue (subsId s) (ev_pool c) = n :: q →
  ∃ c1, notify_one poll now true muuid p c = Some c1 ∧
    queue (subsId s) (ev_pool c1) = q ∧
    senders c1 = senders c ∧ sent c1 = sent c ∧ s_heap c1 = s_heap c.
Proof.
  intros Hok Hpool Hs Hp Hpoll Hm Hq.
  destruct (notify_one_event now muuid p c s n q) as (t & pool & _ & Hq' & H1); try done.
  { unfold ended. by rewrite Hp, andb_false_r. }
  rewrite Hp in H1. by eexists.
Qed.

(** ** Subscribe *)

(** A Subscribe request that is refused with a fault that has no entry in
    the fault table (an Expires or Heartbeats text that is no duration is)
    makes the server dereference a NULL subscription: [create_subs_info]
    reports neither a fault document nor a subscription, and only a plugin that
    looks for a NULL subscription and fails saves the server. *)
Theorem subscribe_without_fault_entry repo now isdst uuid muuid msg indoc c code d :
  subs_info strtod_round mktime now isdst uuid msg indoc = Some (inl (code, d)) →
  code ∈ codes_without_entry →
  (∀ f r st, sub_ep = Some f → f None = Some (r, None, st) → r = 0) → endpoint_ok →
  wse_subscribe_stub ns_prefix strtod_round mktime repo now isdst uuid muuid sub_ep msg indoc c = None.
Proof.
  intros Hs Hc Hep He. unfold wse_subscribe_stub, create_subs_info. rewrite Hs. cbn [mbind option_bind].
  unfold generate_fault_document, wsman_generate_fault. pose proof (find_fault_entry code) as Hf.
  destruct (decide (code ∈ codes_without_entry)); [|done]. rewrite Hf. cbn [mbind option_bind fmap option_fmap option_map].
  destruct sub_ep as [f|] eqn:E; [|done].
  destruct (f None) as [[[r [t|]] st]|] eqn:Ef; cbn [mbind option_bind]; [| |done].
  - by destruct (sub_ep_ok He f None r t st E Ef) as (? & ? & _).
  - by rewrite (Hep f r st eq_refl Ef).
Qed.
End System.

(** ** Witnesses *)

Section Witnesses.
#[local] Existing Instance TreeXml.

Definition subscribe_request (extra : list xnode) : xnode :=
  envelope [txt XML_NS_ADDRESSING WSA_TO "http://server/wsman"; txt XML_NS_WS_MAN WSM_RESOURCE_URI "urn:alerts";
            el XML_NS_WS_MAN WSM_SELECTOR_SET []]
    [el XML_NS_EVENTING WSEVENT_SUBSCRIBE
       [el XML_NS_EVENTING WSEVENT_DELIVERY
          (el XML_NS_EVENTING WSEVENT_NOTIFY_TO [txt XML_NS_ADDRESSING WSA_ADDRESS "http://sink:80/events"] :: extra)]].
Definition unsubscribe_request (id : string) : xnode :=
  envelope [txt XML_NS_EVENTING WSEVENT_IDENTIFIER id] [el XML_NS_EVENTING "Unsubscribe" []].
Definition anonymous : WsmanMessage := Message "UTF-8" None None.
Definition no_poll (s : WsSubscribeInfo) (p : event_pool) : Z * event_pool := (0, p).
Definition silent (s : WsSubscribeInfo) (d : xnode) : option xnode := None.

Definition empty_c : evcntx := Evcntx ∅ [] (MemEventPoolInit None).2 [] [] ∅ [].
Definition subscribed : evcntx :=
  match wse_subscribe_stub sample_prefix decimal_round (λ _, 0) true 100 0 "s1" "uuid:m1" None anonymous
          (subscribe_request []) empty_c with
  | Some (_, _, c) => c
  | None => empty_c
  end.
Definition sample_subs : WsSubscribeInfo :=
  match s_heap subscribed !! 1%positive with
  | Some s => s
  | None => SubsInfo 0 0 "" None None None None None None None None 0 0 0 0 false None false None (None, None)
              false false None None
  end.
Definition unsubscribed : evcntx :=
  set_s_heap (<[1%positive := raise_flag UNSUBSCRIBED sample_subs]> (s_heap subscribed)) subscribed.
Definition alert : WsNotificationInfo := Notification None None (Some (el "urn:alerts" "Alerts" [txt "urn:alerts" "Alert" "hot"])).
Definition with_event (c : evcntx) : evcntx :=
  match MemEventPoolAddEvent "s1" (Some alert) (ev_pool c) with
  | Some (_, p) => set_pool p c
  | None => c
  end.

Abbreviation sample_reachable :=
  (reachable sample_prefix decimal_round (λ _, 0) no_poll silent None None).

Lemma no_endpoint_ok : endpoint_ok None None.
Proof. split; done. Qed.

Lemma silent_ok : acks_ok silent.
Proof. intros s d. by eexists. Qed.

Lemma subscribed_reachable : sample_reachable (System subscribed Idle []).
Proof.
  eapply reach_step; [apply (reach_init _ _ _ _ _ _ _ ∅ None)|].
  eapply (step_subscribe _ _ _ _ _ _ _ _ _ true 100 0 "s1" "uuid:m1" anonymous (subscribe_request [])).
  vm_compute. reflexivity.
Qed.

Definition in_flight : call := CUnsubscribe (unsubscribe_request "uuid:s1") 1.

Lemma find_reachable calls :
  sample_reachable (System subscribed Idle calls) → sample_reachable (System subscribed Idle (calls ++ [in_flight])).
Proof.
  intros Hr. eapply reach_step; [exact Hr|]. apply (step_find_unsubscribe _ _ _ _ _ _ _ _ _ "uuid:m2").
  vm_compute. reflexivity.
Qed.

Lemma unsubscribed_reachable : sample_reachable (System unsubscribed Idle [in_flight]).
Proof.
  eapply reach_step; [apply (find_reachable [in_flight]), (find_reachable []), subscribed_reachable|].
  pose proof (step_unsubscribe sample_prefix decimal_round (λ _, 0) no_poll silent None None subscribed Idle
    [] [in_flight] "uuid:m3" (unsubscribe_request "uuid:s1") 1) as H.
  vm_compute in H. vm_compute. exact H.
Qed.

Lemma subscribed_ok : ev_ok subscribed.
Proof. exact (proj1 (reachable_sys_ok sample_prefix decimal_round (λ _, 0) no_poll silent None None _ no_endpoint_ok subscribed_reachable)). Qed.

Lemma with_event_ok c : ev_ok c → ev_ok (with_event c).
Proof.
  intros H. unfold with_event. destruct (MemEventPoolAddEvent _ _ _) as [[? ?]|]; [by apply ev_ok_pool|done].
Qed.

(** The state while a sender is at work. *)
Definition sending : evcntx :=
  set_senders [Sender 1 None] (set_s_heap (<[1%positive := raise_flag PENDING sample_subs]> (s_heap subscribed)) subscribed).

Lemma sending_ok : ev_ok sending.
Proof.
  apply (ev_ok_start subscribed 1 sample_subs (raise_flag PENDING sample_subs) None subscribed_ok);
    [vm_compute; reflexivity|vm_compute; reflexivity|vm_compute; congruence|done|apply raise_pending].
Qed.

Lemma sample_pool_ok c : ev_pool c = (MemEventPoolInit None).2 → pool_ok (ev_pool (with_event c)).
Proof.
  intros E. unfold with_event. rewrite E. split; simpl.
  - repeat constructor. apply not_elem_of_nil.
  - repeat constructor.
Qed.

Lemma eventing_invariant_witness : ev_ok (sys_c (System unsubscribed Idle [in_flight])).
Proof.
  exact (eventing_invariant sample_prefix decimal_round (λ _, 0) no_poll silent None None
    (System unsubscribed Idle [in_flight]) no_endpoint_ok unsubscribed_reachable).
Defined.


Lemma request_use_after_free_witness :
  ∃ c', wse_notification_manager no_poll 200 "uuid:m4" unsubscribed = Some c' ∧
    sample_reachable (System c' Idle [in_flight]) ∧
    sys_step sample_prefix decimal_round (λ _, 0) no_poll silent None None (System c' Idle [in_flight]) None.
Proof.
  refine (request_use_after_free sample_prefix decimal_round (λ _, 0) no_poll silent None None 200 "uuid:m4"
    unsubscribed [in_flight] in_flight (raise_flag UNSUBSCRIBED sample_subs) no_endpoint_ok unsubscribed_reachable
    _ _ _); [by left|vm_compute; reflexivity|vm_compute; reflexivity].
Defined.

Lemma unsubscribe_ends_subscription_witness :
  ∃ doc c1 c2, wse_unsubscribe_stub sample_prefix "uuid:m2" None (unsubscribe_request "uuid:s1") subscribed
      = Some (0, Some doc, c1) ∧
    wse_notification_manager no_poll 200 "uuid:m4" c1 = Some c2 ∧ s_heap c2 !! 1%positive = None.
Proof.
  destruct (unsubscribe_ends_subscription sample_prefix no_poll None 200 "uuid:m2" "uuid:m4" subscribed 1
    sample_subs (unsubscribe_request "uuid:s1") subscribed_ok) as (doc & c1 & c2 & H1 & H2 & _ & H3 & _).
  - intros p q s t Hp%elem_of_dom_2 Hq%elem_of_dom_2 _.
    assert (E : dom (s_heap subscribed) = {[1%positive]}) by (apply (bool_decide_unpack _); vm_compute; exact I).
    rewrite E in Hp, Hq. set_solver.
  - vm_compute. reflexivity.
  - vm_compute. reflexivity.
  - vm_compute. reflexivity.
  - intros f H. discriminate H.
  - exists doc, c1, c2. split_and!; assumption.
Defined.


Lemma event_lost_while_pending_witness :
  ∃ c1, notify_one no_poll 200 true "uuid:m5" 1 (with_event sending) = Some c1 ∧
    queue "s1" (ev_pool c1) = [] ∧ senders c1 = [Sender 1 None] ∧ sent c1 = [].
Proof.
  destruct (event_lost_while_pending no_poll 200 "uuid:m5" 1 (with_event sending) (raise_flag PENDING sample_subs)
    alert [] (with_event_ok _ sending_ok)) as (c1 & H1 & H2 & H3 & H4 & _);
    [apply sample_pool_ok; vm_compute; reflexivity|vm_compute; reflexivity..|].
  exists c1. split; [exact H1|]. split; [exact H2|]. rewrite H3, H4. split; reflexivity.
Defined.

Lemma subscribe_without_fault_entry_witness :
  wse_subscribe_stub sample_prefix decimal_round (λ _, 0) true 100 0 "s1" "uuid:m1" None anonymous
    (subscribe_request [txt XML_NS_WS_MAN WSM_HEARTBEATS "Pulse"]) empty_c = None.
Proof.
  refine (subscribe_without_fault_entry sample_prefix decimal_round (λ _, 0) None None true 100 0 "s1" "uuid:m1"
    anonymous (subscribe_request [txt XML_NS_WS_MAN WSM_HEARTBEATS "Pulse"]) empty_c WSEN_INVALID_EXPIRATION_TIME
    WSMAN_DETAIL_OK _ _ _ no_endpoint_ok);
    [vm_compute; reflexivity|by apply (bool_decide_unpack _)|intros f r st H; discriminate H].
Defined.
Definition freed : evcntx :=
  match wse_notification_manager no_poll 200 "uuid:m4" unsubscribed with Some c => c | None => empty_c end.

Lemma freed_reachable : sample_reachable (System freed Idle [in_flight]).
Proof.
  apply (manager_reachable _ _ _ _ _ _ _ 200 "uuid:m4" _ unsubscribed); [vm_compute; reflexivity|].
  apply unsubscribed_reachable.
Qed.

Lemma freed_step_fails :
  sys_step sample_prefix decimal_round (λ _, 0) no_poll silent None None (System freed Idle [in_flight]) None.
Proof.
  pose proof (step_unsubscribe sample_prefix decimal_round (λ _, 0) no_poll silent None None freed Idle
    [] [] "uuid:m3" (unsubscribe_request "uuid:s1") 1) as H.
  vm_compute in H. vm_compute. exact H.
Qed.

Lemma only_requests_fail_witness : ∃ x, x ∈ [in_flight] ∧ s_heap freed !! call_subs x = None.
Proof.
  exact (only_requests_fail sample_prefix decimal_round (λ _, 0) no_poll silent None None
    (System freed Idle [in_flight]) no_endpoint_ok silent_ok decimal_round_suffix freed_reachable freed_step_fails).
Defined.
End Witnesses.
