(* ===== verification/ClientProofs.v ===== *)
(** * Requests from end to end

    What the client of [Client] builds, the server functions of [Envelope],
    [Requests] and [Subscribe] read back: the requests of a client are valid
    envelopes with the headers it was told to send, and the server recovers the
    selectors, the options of an enumeration, the context of a Pull and the
    delivery of a subscription. *)

From S2P Require Import Prelude.
From S2P Require Import CString.
From S2P Require Import Names.
From S2P Require Import Xml.
From S2P Require Import Faults.
From S2P Require Import Duration.
From S2P Require Import Envelope.
From S2P Require Import Uri.
From S2P Require Import Epr.
From S2P Require Import Filter.
From S2P Require Import Requests.
From S2P Require Import Client.
From S2P Require Import Dispatcher.
From S2P Require Import Enumeration.
From S2P Require Import Subscribe.

#[local] Open Scope string_scope.
#[local] Open Scope list_scope.
#[local] Open Scope Z_scope.
#[local] Open Scope ow_scope.

Section Proofs.
Context {LX : Libxml2} {LL : Libxml2Laws}.
Context (read_memory : string → option xnode).

(** ** Nodes of a header *)

Definition header_of (l : list xnode) : xnode := XElement (Some XML_NS_SOAP_1_2) SOAP_HEADER [] l.
Definition body_of (l : list xnode) : xnode := XElement (Some XML_NS_SOAP_1_2) SOAP_BODY [] l.

Definition ser_node (mu : bool) (ns name t : string) : xnode :=
  let n := text_node (Some ns) name (Some t) in if mu then enforce_mustunderstand n else n.

Definition different (ns name ns' name' : string) : bool := negb (str_eqb ns ns' && str_eqb name name').

Lemma named_elem_eq ns name p c l :
  named ns name (XElement (Some ns) name p c :: l) = XElement (Some ns) name p c :: named ns name l.
Proof. rewrite named_element. destruct (decide _) as [?|[]]; done. Qed.

Lemma named_elem_ne ns name p c ns' name' l :
  different ns name ns' name' = true → named ns' name' (XElement (Some ns) name p c :: l) = named ns' name' l.
Proof.
  unfold different. intros H. rewrite named_element. destruct (decide _) as [[-> ->]|]; [|done].
  by rewrite !str_eqb_refl in H.
Qed.

Lemma ser_node_elem mu ns name t : ∃ p c, ser_node mu ns name t = XElement (Some ns) name p c.
Proof.
  unfold ser_node, enforce_mustunderstand. destruct (text_node_named (Some ns) name (Some t)) as [c ->].
  destruct mu; by repeat eexists.
Qed.

Lemma ser_node_text mu ns name t : ws_xml_get_node_text (Some (ser_node mu ns name t)) = Some t.
Proof.
  unfold ser_node, enforce_mustunderstand. cbn [ws_xml_get_node_text mbind option_bind].
  pose proof (new_node_text (Some ns) name t) as Ht. fold (text_node (Some ns) name (Some t)) in Ht.
  destruct (text_node_named (Some ns) name (Some t)) as [c E]. rewrite E in *.
  destruct mu; [|done]. cbn [ws_xml_add_node_attr]. by rewrite (content_of_children _ _ _ (Some ns) name []).
Qed.

Lemma named_ser_eq mu ns name t l : named ns name (ser_node mu ns name t :: l) = ser_node mu ns name t :: named ns name l.
Proof. destruct (ser_node_elem mu ns name t) as (p & c & ->). apply named_elem_eq. Qed.

Lemma named_ser_ne mu ns name t ns' name' l :
  different ns name ns' name' = true → named ns' name' (ser_node mu ns name t :: l) = named ns' name' l.
Proof. destruct (ser_node_elem mu ns name t) as (p & c & ->). apply named_elem_ne. Qed.

Lemma named_text_ne ns name t ns' name' l :
  different ns name ns' name' = true → named ns' name' (text_node (Some ns) name t :: l) = named ns' name' l.
Proof. destruct (text_node_named (Some ns) name t) as [c ->]. apply named_elem_ne. Qed.

Lemma named_text_eq ns name t l :
  named ns name (text_node (Some ns) name t :: l) = text_node (Some ns) name t :: named ns name l.
Proof. destruct (text_node_named (Some ns) name t) as [c ->]. apply named_elem_eq. Qed.

Lemma named_nil ns name : named ns name [] = [].
Proof. done. Qed.

Lemma header0_eq : header0 = header_of [].
Proof. unfold header0, text_node. by rewrite new_node_empty. Qed.
Lemma body0_eq : body0 = body_of [].
Proof. unfold body0, text_node. by rewrite new_node_empty. Qed.

Lemma empty_node ns name : text_node ns name None = XElement ns name [] [].
Proof. apply new_node_empty. Qed.

Lemma add_header l n : add_node (header_of l) n = header_of (l ++ [n]).
Proof. done. Qed.

Lemma serialize_header l t ns name mu :
  ws_serialize_str (header_of l) t ns name mu = header_of (l ++ [ser_node mu ns name t]).
Proof. done. Qed.

(** ** The header as a list *)

Definition max_size_node (o : client_opt_t) : list xnode :=
  if o_max_envelope_size o =? 0 then []
  else x_children (ws_serialize_uint32 (header_of []) (o_max_envelope_size o) XML_NS_WS_MAN WSM_MAX_ENVELOPE_SIZE
                     (negb (Z.land (o_flags o) FLAG_MUND_MAX_ESIZE =? 0))).

Definition timeout_text (t : Z) : string :=
  "PT" +:+ print_nat (wrap32 t / 1000) +:+ "." +:+ print_nat (wrap32 t mod 1000) +:+ "S".

Definition locale_node (l : string) : xnode :=
  ws_xml_add_node_attr (ws_xml_set_node_lang (text_node (Some XML_NS_WS_MAN) WSM_LOCALE None) l)
    (Some XML_NS_SOAP_1_2) SOAP_MUST_UNDERSTAND (Some "false").

Definition reply_to_node (r : string) : xnode :=
  add_node (text_node (Some XML_NS_ADDRESSING) WSA_REPLY_TO None)
    (text_node (Some XML_NS_ADDRESSING) WSA_ADDRESS (Some r)).

Definition opt_ser (ns name : string) (t : option string) : list xnode :=
  match t with Some t => [ser_node true ns name t] | None => [] end.

Definition address_list (muuid action reply_to : string) (uri : option string) (to : string) (o : client_opt_t)
  : list xnode :=
  [ser_node true XML_NS_ADDRESSING WSA_ACTION action; ser_node true XML_NS_ADDRESSING WSA_TO to] ++
  opt_ser XML_NS_WS_MAN WSM_RESOURCE_URI uri ++
  (if str_eqb muuid "" then [] else [ser_node true XML_NS_ADDRESSING WSA_MESSAGE_ID muuid]) ++
  (if o_timeout o =? 0 then []
   else [ser_node false XML_NS_WS_MAN WSM_OPERATION_TIMEOUT (timeout_text (o_timeout o))]) ++
  max_size_node o ++ opt_ser XML_NS_WS_MAN WSM_FRAGMENT_TRANSFER (o_fragment o) ++
  (match o_locale o with Some l => [locale_node l] | None => [] end) ++ [reply_to_node reply_to].

Lemma address_headers_eq muuid action reply_to uri to o :
  address_headers muuid action reply_to uri to o header0 = header_of (address_list muuid action reply_to uri to o).
Proof.
  unfold address_headers, address_list, max_size_node. rewrite header0_eq.
  destruct uri, (str_eqb muuid ""), (o_timeout o =? 0), (o_max_envelope_size o =? 0), (o_fragment o), (o_locale o);
    reflexivity.
Qed.

Lemma max_size_elem o :
  max_size_node o = [] ∨ ∃ p c, max_size_node o = [XElement (Some XML_NS_WS_MAN) WSM_MAX_ENVELOPE_SIZE p c].
Proof.
  unfold max_size_node, ws_serialize_uint32. destruct (o_max_envelope_size o =? 0); [by left|right].
  match goal with |- context [text_node ?a ?b ?t] => destruct (text_node_named a b t) as [c ->] end.
  unfold enforce_mustunderstand. destruct (negb _); by repeat eexists.
Qed.

Lemma locale_elem l : ∃ p, locale_node l = XElement (Some XML_NS_WS_MAN) WSM_LOCALE p [].
Proof. unfold locale_node. rewrite empty_node. by eexists. Qed.

Lemma reply_to_elem r :
  reply_to_node r = XElement (Some XML_NS_ADDRESSING) WSA_REPLY_TO []
                      [text_node (Some XML_NS_ADDRESSING) WSA_ADDRESS (Some r)].
Proof. unfold reply_to_node. by rewrite empty_node. Qed.

Ltac find_named :=
  repeat first
    [rewrite named_app | rewrite named_ser_eq | rewrite named_ser_ne by reflexivity
    |rewrite named_text_eq | rewrite named_text_ne by reflexivity
    |rewrite named_elem_eq | rewrite named_elem_ne by reflexivity | rewrite named_nil].

(** All the cases of the optional headers. *)
Ltac address_cases o :=
  unfold address_list, opt_ser; destruct (max_size_elem o) as [->|(? & ? & ->)];
  destruct (o_timeout o =? 0), (o_fragment o), (o_locale o) as [loc|];
  try (destruct (locale_elem loc) as [? ->]); rewrite ?reply_to_elem; cbn [app].

Lemma address_lookup muuid action reply_to uri to o rest :
  muuid ≠ "" →
  let h := Some (header_of (address_list muuid action reply_to (Some uri) to o ++ rest)) in
  child h XML_NS_ADDRESSING WSA_ACTION = Some (ser_node true XML_NS_ADDRESSING WSA_ACTION action) ∧
  child h XML_NS_ADDRESSING WSA_TO = Some (ser_node true XML_NS_ADDRESSING WSA_TO to) ∧
  child h XML_NS_WS_MAN WSM_RESOURCE_URI = Some (ser_node true XML_NS_WS_MAN WSM_RESOURCE_URI uri) ∧
  child h XML_NS_ADDRESSING WSA_MESSAGE_ID = Some (ser_node true XML_NS_ADDRESSING WSA_MESSAGE_ID muuid) ∧
  child h XML_NS_ADDRESSING WSA_REPLY_TO = Some (reply_to_node reply_to).
Proof.
  intros Hm%str_eqb_neq h. unfold h, header_of. rewrite !child_named.
  split_and!; address_cases o; rewrite Hm; cbn [app]; find_named; reflexivity.
Qed.

(** No selector set yet. *)
Lemma address_no_selectors muuid action reply_to uri to o :
  named XML_NS_WS_MAN WSM_SELECTOR_SET (address_list muuid action reply_to uri to o) = [].
Proof.
  destruct uri; address_cases o; destruct (str_eqb muuid ""); cbn [app]; find_named; reflexivity.
Qed.

(** No option set either. *)
Lemma address_no_options muuid action reply_to uri to o :
  named XML_NS_WS_MAN WSM_OPTION_SET (address_list muuid action reply_to uri to o) = [].
Proof.
  destruct uri; address_cases o; destruct (str_eqb muuid ""); cbn [app]; find_named; reflexivity.
Qed.

(** ** Selectors *)

Lemma alter_first_match_named ns name f l p c r :
  named ns name l = [] →
  alter_first_match ns name f (l ++ XElement (Some ns) name p c :: r) = l ++ f (XElement (Some ns) name p c) :: r.
Proof.
  unfold named. rewrite element_children_filter. induction l as [|n l IH]; intros Hl; cbn [app alter_first_match].
  - cbn [is_element andb]. rewrite qname_element, !bool_decide_true by done. done.
  - rewrite filter_cons in Hl. destruct (decide (is_element n = true)) as [He|He].
    + rewrite filter_cons in Hl. destruct (decide _) as [|Hq]; [done|].
      apply not_true_is_false in Hq. rewrite He, Hq. cbn [andb]. by rewrite IH.
    + apply not_true_is_false in He. rewrite He. cbn [andb]. by rewrite IH.
Qed.

(** The selector set of a header, once there is a selector. *)
Definition selset (ss : list xnode) : list xnode :=
  match ss with [] => [] | _ => [XElement (Some XML_NS_WS_MAN) WSM_SELECTOR_SET [] ss] end.

Lemma selset_no_options ss : named XML_NS_WS_MAN WSM_OPTION_SET (selset ss) = [].
Proof. destruct ss; [done|]. unfold selset. by rewrite named_elem_ne by reflexivity. Qed.

Lemma selset_snoc ss s : selset (ss ++ [s]) = [XElement (Some XML_NS_WS_MAN) WSM_SELECTOR_SET [] (ss ++ [s])].
Proof. by destruct ss. Qed.

Lemma add_selector_eq l ss n v e :
  named XML_NS_WS_MAN WSM_SELECTOR_SET l = [] →
  _wsman_add_selector read_memory (header_of (l ++ selset ss)) n v e =
  (λ s, header_of (l ++ selset (ss ++ [s]))) <$> selector_node read_memory n v e.
Proof.
  intros Hl. unfold _wsman_add_selector. destruct (selector_node _ _ _ _) as [s|]; [|done].
  cbn [mbind option_bind fmap option_fmap option_map]. f_equal. rewrite selset_snoc. unfold header_of.
  rewrite child_named, named_app, Hl. destruct ss as [|s0 ss].
  - cbn [selset named app head]. rewrite named_nil, app_nil_r. cbn [head]. by rewrite empty_node.
  - cbn [selset app]. rewrite named_elem_eq. cbn [head alter_child].
    by rewrite alter_first_match_named.
Qed.

(** The selector of a key and a value. *)
Definition kv_node (kv : key_value_t) : option xnode :=
  match kv with
  | KeyValue k v =>
      k ← deref k;
      match v with
      | VText t => t ← deref t; selector_node read_memory k (Some t) None
      | VEpr e => selector_node read_memory k None e
      end
  end.

Lemma selectors_from_options_eq l sel : ∀ ss,
  named XML_NS_WS_MAN WSM_SELECTOR_SET l = [] →
  wsmc_add_selector_from_options read_memory (header_of (l ++ selset ss)) sel =
  (λ s', header_of (l ++ selset (ss ++ s'))) <$> mapM kv_node sel.
Proof.
  induction sel as [|[k v] sel IH]; intros ss Hl; [cbn; by rewrite app_nil_r|].
  cbn [wsmc_add_selector_from_options mapM kv_node]. destruct (deref k) as [k'|]; [|done]. cbn [mbind option_bind].
  assert (Hstep : ∀ val e,
    (h ← _wsman_add_selector read_memory (header_of (l ++ selset ss)) k' val e;
     wsmc_add_selector_from_options read_memory h sel) =
    (λ s', header_of (l ++ selset (ss ++ s'))) <$>
      (y ← selector_node read_memory k' val e; k ← mapM kv_node sel; mret (y :: k))).
  { intros val e. rewrite add_selector_eq by done. destruct (selector_node _ _ _ _) as [s|]; [|done].
    cbn [fmap option_fmap option_map mbind option_bind]. rewrite IH by done.
    destruct (mapM kv_node sel) as [s'|]; [|done]. cbn. by rewrite <- app_assoc. }
  destruct v as [t|e]; [|apply Hstep]. destruct (deref t) as [t'|]; [|done]. apply Hstep.
Qed.

(** The selectors of a request. *)
Definition header_selectors (o : client_opt_t) : option (list xnode) :=
  if has_opt o FLAG_CIM_REFERENCES then Some []
  else
    ss ← mapM kv_node (o_selectors o);
    match o_cim_ns o with
    | None => Some ss
    | Some ns =>
        dup ← list_find_key (o_selectors o) CIM_NAMESPACE_SELECTOR;
        if dup : bool then Some ss
        else s ← selector_node read_memory CIM_NAMESPACE_SELECTOR (Some ns) None; Some (ss ++ [s])
    end.

Lemma selector_headers_eq l o :
  named XML_NS_WS_MAN WSM_SELECTOR_SET l = [] →
  selector_headers read_memory o (header_of l) = (λ ss, header_of (l ++ selset ss)) <$> header_selectors o.
Proof.
  intros Hl. unfold selector_headers, header_selectors. destruct (has_opt o _); [cbn; by rewrite app_nil_r|].
  assert (E : header_of l = header_of (l ++ selset [])) by (cbn; by rewrite app_nil_r). rewrite E.
  rewrite selectors_from_options_eq by done. destruct (mapM kv_node _) as [ss|]; [|done].
  cbn [fmap option_fmap option_map mbind option_bind app]. destruct (o_cim_ns o) as [ns|]; [|done].
  destruct (list_find_key _ _) as [[|]|]; [done| |done]. cbn [mbind option_bind].
  unfold wsman_add_selector. rewrite add_selector_eq by done. by destruct (selector_node _ _ _ _).
Qed.

Lemma build_envelope_eq muuid action reply_to uri to o :
  wsmc_build_envelope read_memory muuid action reply_to uri to o =
  (λ ss, header_of (address_list muuid action (default WSA_TO_ANONYMOUS reply_to) uri
                      (default WSA_TO_ANONYMOUS to) o ++ selset ss)) <$> header_selectors o.
Proof.
  unfold wsmc_build_envelope. rewrite address_headers_eq. apply selector_headers_eq, address_no_selectors.
Qed.

(** ** The shape of a request *)

Lemma request_header l b : ws_xml_get_soap_header (Some (request_document (header_of l) (body_of b))) = Some (header_of l).
Proof. reflexivity. Qed.

Lemma request_body l b : ws_xml_get_soap_body (Some (request_document (header_of l) (body_of b))) = Some (body_of b).
Proof. reflexivity. Qed.

Lemma foldl_add_header l ns : foldl add_node (header_of l) ns = header_of (l ++ ns).
Proof. apply foldl_add_node. Qed.

Definition option_set (o : client_opt_t) : list xnode :=
  match option_nodes o with [] => [] | l => [XElement (Some XML_NS_WS_MAN) WSM_OPTION_SET [] l] end.

Lemma add_option_set_eq o l : add_option_set o (header_of l) = header_of (l ++ option_set o).
Proof.
  unfold add_option_set, option_set. destruct (option_nodes o) as [|n ns]; [by rewrite app_nil_r|].
  by rewrite empty_node, foldl_add_node.
Qed.

(** An action only adds to the header and makes the body. *)
Lemma action_parts_shape action o f data l h b :
  action_parts read_memory action o f data (header_of l) body0 = Some (h, b) →
  ∃ rest bs, h = header_of (l ++ rest) ∧ b = body_of bs.
Proof.
  rewrite body0_eq. intros H.
  assert (Htotal : ∃ rest, request_total o (header_of l) = header_of (l ++ rest)).
  { unfold request_total. destruct (opt_has o _); [by eexists|exists []; by rewrite app_nil_r]. }
  assert (Hcontext : ∃ rest, with_context read_memory data (header_of l) = header_of (l ++ rest)).
  { unfold with_context, add_subscription_context.
    destruct data as [d|]; [destruct (str_eqb d ""); [|destruct (read_memory d)]|];
      try (exists []; by rewrite app_nil_r). rewrite foldl_add_header. by eexists. }
  destruct Htotal as [rt Ht], Hcontext as [rc Hc].
  destruct action; cbn [action_parts] in H; rewrite ?Hc, ?Ht in H;
    try (injection H as <- <-; eexists _, _; split; [|done]; first [done|by rewrite app_nil_r]);
    try (injection H as <- <-; exists [], []; split; [by rewrite app_nil_r|done]).
  - destruct (match o with Some _ => _ | None => _ end); [|done]. cbn [mbind option_bind] in H.
    destruct (decide _); [|done]. injection H as <- <-. by eexists _, _.
  - destruct o as [o|].
    + unfold wsman_set_subscribe_options in H. destruct (subscribe_node _ _ _); [|done]. cbn [mbind option_bind] in H.
      injection H as <- <-. destruct (issued_tokens _ _); eexists _, _; (split; [|done]);
        [by rewrite app_nil_r|done].
    + injection H as <- <-. exists [], []. by rewrite app_nil_r.
  - destruct (match o with Some _ => _ | None => _ end); [|done]. cbn [mbind option_bind] in H.
    destruct (decide _); [done|]. injection H as <- <-. eexists [], _. split; [by rewrite app_nil_r|done].
  - destruct (match o with Some _ => _ | None => _ end); [|done]. cbn [mbind option_bind] in H.
    destruct (decide _); [done|]. injection H as <- <-. eexists [], _. split; [by rewrite app_nil_r|done].
Qed.

Lemma create_request_shape muuid cl uri o f action method data doc fl :
  wsmc_create_request read_memory muuid cl uri (Some o) f action method data = Some (Some doc, fl) →
  action ≠ WSMAN_ACTION_IDENTIFY →
  ∃ a ss rest b, request_action uri method action = Some a ∧ header_selectors o = Some ss ∧
    action_parts read_memory action (Some o) f data
      (header_of (address_list muuid a WSA_TO_ANONYMOUS uri (cl_endpoint cl) o ++ selset ss ++ option_set o)) body0 =
      Some (header_of (address_list muuid a WSA_TO_ANONYMOUS uri (cl_endpoint cl) o ++ selset ss ++ option_set o ++ rest),
            body_of b) ∧
    doc = request_document
            (header_of (address_list muuid a WSA_TO_ANONYMOUS uri (cl_endpoint cl) o ++ selset ss ++ option_set o ++ rest))
            (body_of b).
Proof.
  unfold wsmc_create_request. intros H Hne. rewrite decide_False in H by done.
  destruct (request_action uri method action) as [a|]; [|done]. rewrite build_envelope_eq in H. cbn [default] in H.
  destruct (header_selectors o) as [ss|]; [|done]. cbn [fmap option_fmap option_map mbind option_bind] in H.
  rewrite add_option_set_eq, <- app_assoc in H.
  destruct (action_parts _ _ _ _ _ _ _) as [[h b]|] eqn:Ea; [|done]. cbn [mbind option_bind] in H.
  injection H as <- <-. destruct (action_parts_shape _ _ _ _ _ _ _ Ea) as (rest & bs & -> & ->).
  exists a, ss, rest, bs. rewrite <- !app_assoc in *. done.
Qed.

(** C24: every request of a client for a resource, whatever its options,
    selectors, filter and action (an Identify request has no headers), is an
    envelope that the server accepts; the server reads back from it the action,
    the resource, the endpoint and the identifier the client sent, and will
    reply to the anonymous address. *)
Theorem client_request_valid muuid cl uri o f action method data doc fl st :
  wsmc_create_request read_memory muuid cl (Some uri) (Some o) f action method data = Some (Some doc, fl) →
  action ≠ WSMAN_ACTION_IDENTIFY → muuid ≠ "" →
  wsman_is_valid_envelope st doc = Some (true, st) ∧
  wsman_get_action None (Some doc) = request_action (Some uri) method action ∧
  wsman_get_resource_uri None (Some doc) = Some uri ∧
  ws_xml_get_node_text (child (ws_xml_get_soap_header (Some doc)) XML_NS_ADDRESSING WSA_TO) = Some (cl_endpoint cl) ∧
  ws_xml_get_node_text (child (ws_xml_get_soap_header (Some doc)) XML_NS_ADDRESSING WSA_MESSAGE_ID) = Some muuid ∧
  ws_xml_get_node_text (child (child (ws_xml_get_soap_header (Some doc)) XML_NS_ADDRESSING WSA_REPLY_TO)
                          XML_NS_ADDRESSING WSA_ADDRESS) = Some WSA_TO_ANONYMOUS.
Proof.
  intros H Hne Hm. destruct (create_request_shape _ _ _ _ _ _ _ _ _ _ H Hne) as (a & ss & rest & b & Ha & Hs & _ & ->).
  destruct (address_lookup muuid a WSA_TO_ANONYMOUS uri (cl_endpoint cl) o (selset ss ++ option_set o ++ rest) Hm)
    as (Haction & Hto & Huri & Hid & Hreply).
  set (l := address_list _ _ _ _ _ _ ++ _) in *. split_and!.
  - unfold wsman_is_valid_envelope. cbn [ws_xml_get_doc_root ws_xml_get_node_local_name ws_xml_get_node_name_ns
      request_document mbind option_bind]. fold (request_document (header_of l) (body_of b)).
    rewrite request_header, request_body, !str_eqb_refl. cbn [negb].
    rewrite !bool_decide_false by done. rewrite Haction, Hto, Huri, Hreply.
    rewrite !bool_decide_false by done. by destruct (negb _ && negb _).
  - unfold wsman_get_action. cbn [pick_doc]. rewrite request_header, Haction, ser_node_text. done.
  - unfold wsman_get_resource_uri. cbn [pick_doc]. rewrite request_header, Huri. apply ser_node_text.
  - rewrite request_header, Hto. apply ser_node_text.
  - rewrite request_header, Hid. apply ser_node_text.
  - rewrite request_header, Hreply, reply_to_elem, child_text_here. cbn. by rewrite new_node_text.
Qed.

(** ** Selectors read back *)

(** The first value of a name. *)
Fixpoint first_value (kvs : list (string * string)) (name : string) : option string :=
  match kvs with
  | [] => None
  | (k, v) :: kvs => if str_eqb k name then Some v else first_value kvs name
  end.

Lemma text_kv_node kvs :
  Forall (λ kv, strstr kv.2 WSA_EPR = None) kvs →
  mapM kv_node (text_selector <$> kvs) = Some (selector_tree <$> (text_selector <$> kvs)).
Proof.
  intros H. apply mapM_fmap, Forall_fmap. eapply Forall_impl; [exact H|]. intros [k v] Hv.
  cbn in Hv. cbn [compose text_selector fst snd kv_node deref mbind option_bind]. unfold selector_node. rewrite Hv.
  rewrite (text_node_children (Some XML_NS_WS_MAN) WSM_SELECTOR (Some v)). reflexivity.
Qed.

Lemma selector_trees_children p sel more :
  ∃ more', Envelope.selectors (Some (XElement (Some XML_NS_WS_MAN) WSM_SELECTOR_SET p ((selector_tree <$> sel) ++ more))) =
    (selector_tree <$> sel) ++ more'.
Proof.
  unfold Envelope.selectors. rewrite children_matching. unfold matching. cbn [x_children].
  exists (filter (λ n, ws_xml_is_node_qname (Some n) (Some XML_NS_WS_MAN) (Some WSM_SELECTOR) = true) (element_children more)).
  induction sel as [|[k v] sel IH]; [done|]. cbn [fmap list_fmap selector_tree element_children is_element app].
  rewrite filter_cons_True; [by f_equal|]. by rewrite qname_element, !bool_decide_true.
Qed.

Lemma get_selector_trees kvs name v more :
  first_value kvs name = Some v →
  get_selector_loop name ((selector_tree <$> (text_selector <$> kvs)) ++ more) = Some v.
Proof.
  induction kvs as [|[k t] kvs IH]; [done|].
  cbn [fmap list_fmap text_selector fst snd selector_tree get_selector_loop first_value deref default app].
  assert (Hn : ∀ c, selector_name (XElement (Some XML_NS_WS_MAN) WSM_SELECTOR [XAttr None WSM_NAME k] c) = Some k).
  { intros c. unfold selector_name, ws_xml_find_attr_value.
    cbn [mbind option_bind ws_xml_find_node_attr x_props find_attr_loop attr_matches xa_ns xa_name andb].
    rewrite str_eqb_refl. cbn [mbind option_bind]. unfold ws_xml_get_attr_value. by rewrite only_prop. }
  rewrite Hn. destruct (str_eqb k name); [|apply IH]. intros [= ->]. cbn [ws_xml_get_node_text mbind option_bind].
  rewrite (content_of_children _ _ _ (Some XML_NS_WS_MAN) WSM_SELECTOR []), <- text_node_children.
  unfold text_node. apply new_node_text.
Qed.

(** The selectors of the options come first. *)
Lemma header_selectors_text o kvs ss :
  has_opt o FLAG_CIM_REFERENCES = false →
  o_selectors o = text_selector <$> kvs → Forall (λ kv, strstr kv.2 WSA_EPR = None) kvs →
  header_selectors o = Some ss → ∃ more, ss = (selector_tree <$> (text_selector <$> kvs)) ++ more.
Proof.
  intros Href Hsel Htext Hs. unfold header_selectors in Hs. rewrite Href, Hsel, text_kv_node in Hs by done.
  cbn [mbind option_bind] in Hs. destruct (o_cim_ns o); [|injection Hs as <-; exists []; by rewrite app_nil_r].
  destruct (list_find_key _ _) as [[|]|]; [injection Hs as <-; exists []; by rewrite app_nil_r| |done].
  cbn [mbind option_bind] in Hs. destruct (selector_node _ _ _ _) as [x|]; [|done].
  injection Hs as <-. by exists [x].
Qed.

(** The selectors of a request reach the server: whatever the action and
    the other options, the server finds for a name the text the client gave
    first for it.  (A text that contains EndpointReference is parsed as one.) *)
Theorem client_selectors_read muuid cl uri o f action method data doc fl kvs name v :
  wsmc_create_request read_memory muuid cl uri (Some o) f action method data = Some (Some doc, fl) →
  action ≠ WSMAN_ACTION_IDENTIFY → has_opt o FLAG_CIM_REFERENCES = false →
  o_selectors o = text_selector <$> kvs → Forall (λ kv, strstr kv.2 WSA_EPR = None) kvs →
  first_value kvs name = Some v →
  wsman_get_selector None (Some doc) name 0 = Some v.
Proof.
  intros H Hne Href Hsel Htext Hv.
  destruct (create_request_shape _ _ _ _ _ _ _ _ _ _ H Hne) as (a & ss & rest & b & _ & Hs & _ & ->).
  destruct (header_selectors_text _ _ _ Href Hsel Htext Hs) as [more ->].
  destruct kvs as [|kv kvs]; [done|]. unfold wsman_get_selector. cbn [pick_doc]. rewrite request_header.
  fold (child (Some (header_of (address_list muuid a WSA_TO_ANONYMOUS uri (cl_endpoint cl) o ++
    selset ((selector_tree <$> (text_selector <$> kv :: kvs)) ++ more) ++ option_set o ++ rest)))
    XML_NS_WS_MAN WSM_SELECTOR_SET).
  unfold header_of. rewrite child_named, named_app, address_no_selectors.
  cbn [fmap list_fmap app selset]. rewrite named_elem_eq. cbn [head app].
  destruct (selector_trees_children [] (text_selector <$> kv :: kvs) more) as [more' E].
  cbn [fmap list_fmap app] in E. rewrite E. exact (get_selector_trees (kv :: kvs) name v more' Hv).
Qed.

(** ** Enumerations *)

(** What an option flag adds. *)
Definition opt_elem (b : bool) (ns name : string) (t : option string) : list xnode :=
  if b then [text_node (Some ns) name t] else [].

Definition mode_text (o : client_opt_t) : option string :=
  if has_opt o FLAG_ENUMERATION_ENUM_EPR then Some WSM_ENUM_EPR
  else if has_opt o FLAG_ENUMERATION_ENUM_OBJ_AND_EPR then Some WSM_ENUM_OBJ_AND_EPR else None.

Definition poly_text (o : client_opt_t) : option string :=
  if has_opt o FLAG_IncludeSubClassProperties then Some WSMB_INCLUDE_SUBCLASS_PROP
  else if has_opt o FLAG_ExcludeSubClassProperties then Some WSMB_EXCLUDE_SUBCLASS_PROP
  else if has_opt o FLAG_POLYMORPHISM_NONE then Some WSMB_NONE else None.

(** The children of an Enumerate element but the filter and the maximum. *)
Definition enum_options (o : client_opt_t) : list xnode :=
  opt_elem (has_opt o FLAG_ENUMERATION_OPTIMIZATION) XML_NS_WS_MAN WSM_OPTIMIZE_ENUM None ++
  opt_child XML_NS_WS_MAN WSM_ENUM_MODE (mode_text o) ++
  opt_child XML_NS_CIM_BINDING WSMB_POLYMORPHISM_MODE (poly_text o).

Definition enumerate_of (l : list xnode) : xnode := XElement (Some XML_NS_ENUMERATION) WSENUM_ENUMERATE [] l.

Lemma enumeration_options_eq o f :
  enumeration_options o f (text_node (Some XML_NS_ENUMERATION) WSENUM_ENUMERATE None) =
  match f with
  | None => Some (enumerate_of (enum_options o))
  | Some f => '(_, node) ← filter_serialize (enumerate_of (enum_options o)) f XML_NS_WS_MAN; Some node
  end.
Proof.
  unfold enumeration_options, enum_options, mode_text, poly_text. rewrite empty_node.
  destruct (has_opt o FLAG_ENUMERATION_OPTIMIZATION), (has_opt o FLAG_ENUMERATION_ENUM_EPR),
    (has_opt o FLAG_ENUMERATION_ENUM_OBJ_AND_EPR), (has_opt o FLAG_IncludeSubClassProperties),
    (has_opt o FLAG_ExcludeSubClassProperties), (has_opt o FLAG_POLYMORPHISM_NONE); reflexivity.
Qed.

(** What the options ask of the server, whose flags and maximum are [f0] and
    [m0] before it reads the request. *)
Definition asked_flags (o : client_opt_t) (f0 : Z) : Z :=
  let f := if has_opt o FLAG_ENUMERATION_ENUM_EPR then Z.lor f0 WSMAN_ENUMINFO_EPR
           else if has_opt o FLAG_ENUMERATION_ENUM_OBJ_AND_EPR then Z.lor f0 WSMAN_ENUMINFO_OBJEPR else f0 in
  let f := if has_opt o FLAG_IncludeSubClassProperties then Z.lor f WSMAN_ENUMINFO_POLY_INCLUDE
           else if has_opt o FLAG_ExcludeSubClassProperties then Z.lor f WSMAN_ENUMINFO_POLY_EXCLUDE
           else if has_opt o FLAG_POLYMORPHISM_NONE then Z.lor f WSMAN_ENUMINFO_POLY_NONE
           else Z.lor f WSMAN_ENUMINFO_POLY_INCLUDE in
  if has_opt o FLAG_ENUMERATION_OPTIMIZATION then Z.lor f WSMAN_ENUMINFO_OPT else f.

Definition asked_items (o : client_opt_t) (m0 : Z) : Z :=
  if has_opt o FLAG_ENUMERATION_OPTIMIZATION then (if 0 <? o_max_elements o then o_max_elements o else 1) else m0.

Definition asked_request (o : client_opt_t) (f : option Filter.filter_t) (f0 m0 : Z) : option (checked enum_request) :=
  match f with
  | None => Some (inr (EnumRequest (asked_flags o f0) (asked_items o m0) None))
  | Some f =>
      r ← filter_flag f;
      Some (match r with
            | inl e => inl e
            | inr fl => inr (EnumRequest (Z.lor (asked_flags o f0) fl) (asked_items o m0) (Some f))
            end)
  end.

Lemma atoi_print m : 0 ≤ m < 2 ^ 31 → atoi (print_int (sint 32 m)) = m.
Proof.
  intros H. assert (E : sint 32 m = m) by (unfold sint, wrap; rewrite Z.mod_small by lia; lia).
  rewrite E. unfold print_int, atoi. rewrite (proj2 (Z.ltb_ge _ _)) by lia.
  rewrite <- (str_app_nil (print_nat m)), strtol_print by (done || lia). exact E.
Qed.

(** The elements an Enumerate request may end with. *)
Definition tail_ok (l : list xnode) : Prop :=
  named XML_NS_WS_MAN WSM_OPTIMIZE_ENUM l = [] ∧ named XML_NS_WS_MAN WSM_ENUM_MODE l = [] ∧
  named XML_NS_CIM_BINDING WSMB_POLYMORPHISM_MODE l = [].

Lemma named_opt_child_ne ns name v ns' name' :
  different ns name ns' name' = true → named ns' name' (opt_child ns name v) = [].
Proof. intros H. destruct v as [v|]; [|done]. cbn [opt_child]. by apply named_text_ne. Qed.

Lemma named_opt_child_eq ns name v : named ns name (opt_child ns name v) = opt_child ns name v.
Proof. destruct v as [v|]; [|done]. cbn [opt_child]. apply named_text_eq. Qed.

Lemma named_opt_elem_ne b ns name v ns' name' :
  different ns name ns' name' = true → named ns' name' (opt_elem b ns name v) = [].
Proof. intros H. destruct b; [|done]. by apply named_text_ne. Qed.

Lemma named_opt_elem_eq b ns name v : named ns name (opt_elem b ns name v) = opt_elem b ns name v.
Proof. destruct b; [|done]. apply named_text_eq. Qed.

Ltac find_opt :=
  repeat first
    [rewrite named_app | rewrite named_opt_child_eq | rewrite named_opt_child_ne by reflexivity
    |rewrite named_opt_elem_eq | rewrite named_opt_elem_ne by reflexivity]; cbn [app].

Lemma mode_read o l f :
  tail_ok l →
  enum_mode_flags (Some (enumerate_of (enum_options o ++ l))) f =
  if has_opt o FLAG_ENUMERATION_ENUM_EPR then Z.lor f WSMAN_ENUMINFO_EPR
  else if has_opt o FLAG_ENUMERATION_ENUM_OBJ_AND_EPR then Z.lor f WSMAN_ENUMINFO_OBJEPR else f.
Proof.
  intros (_ & Ht & _). unfold enum_mode_flags, enumerate_of, enum_options. rewrite child_named. find_opt.
  rewrite Ht, ?app_nil_r. unfold mode_text.
  destruct (has_opt o FLAG_ENUMERATION_ENUM_EPR); [|destruct (has_opt o FLAG_ENUMERATION_ENUM_OBJ_AND_EPR); [|done]];
    cbn; by rewrite new_node_text.
Qed.

Lemma poly_read o l f :
  tail_ok l →
  polymorphism_flags (Some (enumerate_of (enum_options o ++ l))) f =
  if has_opt o FLAG_IncludeSubClassProperties then Z.lor f WSMAN_ENUMINFO_POLY_INCLUDE
  else if has_opt o FLAG_ExcludeSubClassProperties then Z.lor f WSMAN_ENUMINFO_POLY_EXCLUDE
  else if has_opt o FLAG_POLYMORPHISM_NONE then Z.lor f WSMAN_ENUMINFO_POLY_NONE
  else Z.lor f WSMAN_ENUMINFO_POLY_INCLUDE.
Proof.
  intros (_ & _ & Ht). unfold polymorphism_flags, enumerate_of, enum_options. rewrite child_named. find_opt.
  rewrite Ht, app_nil_r. unfold poly_text.
  destruct (has_opt o _); [|destruct (has_opt o FLAG_ExcludeSubClassProperties);
    [|destruct (has_opt o FLAG_POLYMORPHISM_NONE); [|done]]];
    cbn; by rewrite new_node_text.
Qed.

Lemma optimize_read o l f m :
  tail_ok l →
  (has_opt o FLAG_ENUMERATION_OPTIMIZATION = true →
   head (named XML_NS_WS_MAN WSM_MAX_ELEMENTS l) = head (max_elements_node XML_NS_WS_MAN (Some o))) →
  o_max_elements o < 2 ^ 31 →
  optimize_flags (Some (enumerate_of (enum_options o ++ l))) f m =
  (if has_opt o FLAG_ENUMERATION_OPTIMIZATION then Z.lor f WSMAN_ENUMINFO_OPT else f, asked_items o m).
Proof.
  intros (Ht & _) Hmax Hm. unfold optimize_flags, asked_items, enumerate_of, enum_options. rewrite !child_named.
  find_opt. rewrite Ht, app_nil_r. destruct (has_opt o FLAG_ENUMERATION_OPTIMIZATION); [|done].
  cbn [opt_elem head]. rewrite Hmax by done. unfold max_elements_node.
  destruct (Z.ltb_spec 0 (o_max_elements o)); [|done]. cbn [head ws_xml_get_node_text mbind option_bind].
  unfold text_node. by rewrite new_node_text, atoi_print by lia.
Qed.

(** The children of the Enumerate element of a request. *)
Lemma enumerate_body o f data h h' b :
  (∀ f', f = Some f' → text_filter f') →
  action_parts read_memory WSMAN_ACTION_ENUMERATION (Some o) f data h body0 = Some (h', b) →
  ∃ l, b = body_of [enumerate_of (enum_options o ++ l)] ∧ tail_ok l ∧
    (has_opt o FLAG_ENUMERATION_OPTIMIZATION = true →
     head (named XML_NS_WS_MAN WSM_MAX_ELEMENTS l) = head (max_elements_node XML_NS_WS_MAN (Some o))) ∧
    filter_deserialize (Some (enumerate_of (enum_options o ++ l))) XML_NS_WS_MAN = Some f.
Proof.
  intros Hf. cbn [action_parts]. rewrite body0_eq, enumeration_options_eq. cbn [opt_has]. intros H.
  set (mx := if has_opt o FLAG_ENUMERATION_OPTIMIZATION then max_elements_node XML_NS_WS_MAN (Some o) else []).
  assert (Hmx : ∀ l, (if has_opt o FLAG_ENUMERATION_OPTIMIZATION
      then foldl add_node (enumerate_of l) (max_elements_node XML_NS_WS_MAN (Some o))
      else enumerate_of l) = enumerate_of (l ++ mx)).
  { intros l. unfold mx, enumerate_of. destruct (has_opt o _); [apply foldl_add_node|by rewrite app_nil_r]. }
  assert (Hmxn : mx = [] ∨ ∃ t, mx = [text_node (Some XML_NS_WS_MAN) WSENUM_MAX_ELEMENTS t]).
  { unfold mx, max_elements_node. destruct (has_opt o _); [|by left]. destruct (0 <? _); [right; by eexists|by left]. }
  assert (Hok : tail_ok mx) by (destruct Hmxn as [->|[t ->]]; unfold tail_ok; rewrite ?named_text_ne by reflexivity; done).
  assert (Hhd : has_opt o FLAG_ENUMERATION_OPTIMIZATION = true →
     head (named XML_NS_WS_MAN WSM_MAX_ELEMENTS mx) = head (max_elements_node XML_NS_WS_MAN (Some o))).
  { intros Ho. subst mx. rewrite Ho in *. unfold max_elements_node. destruct (0 <? _); [|done].
    change WSM_MAX_ELEMENTS with WSENUM_MAX_ELEMENTS. by rewrite named_text_eq. }
  assert (Hno : named XML_NS_WS_MAN WSM_FILTER mx = [])
    by (destruct Hmxn as [->|[t ->]]; rewrite ?named_text_ne by reflexivity; done).
  assert (Hopts : named XML_NS_WS_MAN WSM_FILTER (enum_options o) = []) by (unfold enum_options; by find_opt).
  clearbody mx.
  destruct f as [f|].
  - destruct (text_filter_element f XML_NS_WS_MAN (Hf f eq_refl)) as (p & c & Hs & Hd).
    set (fn := XElement (Some XML_NS_WS_MAN) WSM_FILTER p c) in *. rewrite Hs in H.
    cbn [mbind option_bind] in H. rewrite decide_True in H by done.
    change (add_node (enumerate_of ?l) fn) with (enumerate_of (l ++ [fn])) in H.
    rewrite Hmx in H. injection H as _ <-. exists (fn :: mx). rewrite <- app_assoc. split; [done|].
    destruct Hok as (? & ? & ?). split_and!.
    + unfold tail_ok, fn. split_and!; (etransitivity; [apply named_elem_ne; reflexivity|assumption]).
    + intros Ho. unfold fn. rewrite named_elem_ne by reflexivity. by apply Hhd.
    + apply Hd. unfold enumerate_of. rewrite child_named, named_app, Hopts. unfold fn. by rewrite named_elem_eq.
  - cbn [mbind option_bind] in H. rewrite decide_True, Hmx in H by done. injection H as _ <-. exists mx.
    split_and!; [done..|]. unfold filter_deserialize, enumerate_of.
    by rewrite child_named, named_app, Hopts, Hno.
Qed.

(** An Enumerate request is understood: the server reads from it exactly
    the mode, the polymorphism, the optimisation with its maximum and the filter
    that the client's options ask for, or refuses a dialect it does not know. *)
Theorem client_enumerate_understood muuid cl uri o f data doc fl f0 m0 :
  wsmc_create_request read_memory muuid cl uri (Some o) f WSMAN_ACTION_ENUMERATION None data = Some (Some doc, fl) →
  (∀ f', f = Some f' → text_filter f') → o_max_elements o < 2 ^ 31 →
  wsman_parse_enum_request (Some doc) f0 m0 = asked_request o f f0 m0.
Proof.
  intros H Hf Hm.
  destruct (create_request_shape _ _ _ _ _ _ _ _ _ _ H ltac:(done)) as (a & ss & rest & b & _ & _ & Hp & ->).
  destruct (enumerate_body _ _ _ _ _ _ Hf Hp) as (l & [= ->] & Hok & Hmax & Hfilter).
  unfold wsman_parse_enum_request. rewrite request_body. unfold body_of. rewrite child_named.
  unfold enumerate_of at 1. rewrite named_elem_eq. cbn [head]. fold (enumerate_of (enum_options o ++ l)).
  rewrite mode_read, poly_read, optimize_read, Hfilter by done.
  unfold asked_request, asked_flags. by destruct f.
Qed.

(** ** Contexts *)

Lemma context_node_eq name d :
  context_node name (Some d) =
  XElement (Some XML_NS_ENUMERATION) name []
    [text_node (Some XML_NS_ENUMERATION) WSENUM_ENUMERATION_CONTEXT (Some d)].
Proof. unfold context_node. by rewrite empty_node. Qed.

Lemma context_read h name p d l :
  request_context name (request_document (header_of h) (body_of [XElement (Some XML_NS_ENUMERATION) name p
    (text_node (Some XML_NS_ENUMERATION) WSENUM_ENUMERATION_CONTEXT (Some d) :: l)])) = Some d.
Proof.
  change (ws_xml_get_node_text (child (child (ws_xml_get_soap_body (Some (request_document (header_of h)
    (body_of [XElement (Some XML_NS_ENUMERATION) name p (text_node (Some XML_NS_ENUMERATION)
      WSENUM_ENUMERATION_CONTEXT (Some d) :: l)])))) XML_NS_ENUMERATION name)
    XML_NS_ENUMERATION WSENUM_ENUMERATION_CONTEXT) = Some d).
  rewrite request_body. unfold body_of. rewrite child_here, child_text_here. apply new_node_text.
Qed.

(** A Pull or Release request carries the context the client was given, and
    a Pull the number of elements it asks for (one when it asks for none). *)
Theorem client_context_read muuid cl uri o f ctx doc fl :
  (wsmc_create_request read_memory muuid cl uri (Some o) f WSMAN_ACTION_PULL None (Some ctx) = Some (Some doc, fl) →
   o_max_elements o < 2 ^ 31 →
   request_context WSENUM_PULL doc = Some ctx ∧
   wsman_get_max_elements None (Some doc) = if 0 <? o_max_elements o then o_max_elements o else 1) ∧
  (wsmc_create_request read_memory muuid cl uri (Some o) f WSMAN_ACTION_RELEASE None (Some ctx) = Some (Some doc, fl) →
   request_context WSENUM_RELEASE doc = Some ctx).
Proof.
  split.
  - intros H Hm.
    destruct (create_request_shape _ _ _ _ _ _ _ _ _ _ H ltac:(done)) as (a & ss & rest & b & _ & _ & Hp & ->).
    cbn [action_parts] in Hp. injection Hp as _ Hb. rewrite body0_eq, context_node_eq, foldl_add_node in Hb.
    injection Hb as <-. rewrite context_read. split; [done|]. unfold wsman_get_max_elements. cbn [pick_doc app].
    rewrite request_body. unfold body_of. rewrite child_here, child_named, named_text_ne by reflexivity.
    unfold max_elements_node. destruct (Z.ltb_spec 0 (o_max_elements o)); [|done]. rewrite named_text_eq.
    cbn [head ws_xml_get_node_text mbind option_bind]. unfold text_node. by rewrite new_node_text, atoi_print by lia.
  - intros H.
    destruct (create_request_shape _ _ _ _ _ _ _ _ _ _ H ltac:(done)) as (a & ss & rest & b & _ & _ & Hp & ->).
    cbn [action_parts] in Hp. injection Hp as _ Hb. rewrite body0_eq, context_node_eq in Hb.
    injection Hb as <-. apply context_read.
Qed.

(** ** Subscriptions *)

Definition delivery_number (m : WsmanDeliveryMode) : Z :=
  match m with
  | WSMAN_DELIVERY_PUSH => WS_EVENT_DELIVERY_MODE_PUSH
  | WSMAN_DELIVERY_PUSHWITHACK => WS_EVENT_DELIVERY_MODE_PUSHWITHACK
  | WSMAN_DELIVERY_EVENTS => WS_EVENT_DELIVERY_MODE_EVENTS
  | WSMAN_DELIVERY_PULL => WS_EVENT_DELIVERY_MODE_PULL
  end.

Definition security_number (m : WsManDeliverySecurityMode) : Z :=
  match m with
  | WSMAN_DELIVERY_SEC_AUTO => 0
  | WSMAN_DELIVERY_SEC_HTTP_BASIC => 1
  | WSMAN_DELIVERY_SEC_HTTP_DIGEST => 2
  | WSMAN_DELIVERY_SEC_HTTPS_BASIC => 3
  | WSMAN_DELIVERY_SEC_HTTPS_DIGEST => 4
  | WSMAN_DELIVERY_SEC_HTTPS_MUTUAL => 5
  | WSMAN_DELIVERY_SEC_HTTPS_MUTUAL_BASIC => 6
  | WSMAN_DELIVERY_SEC_HTTPS_MUTUAL_DIGEST => 7
  | WSMAN_DELIVERY_SEC_HTTPS_SPNEGO_KERBEROS => 8
  | WSMAN_DELIVERY_SEC_HTTPS_MUTUAL_SPNEGO_KERBEROS => 9
  | WSMAN_DELIVERY_SEC_HTTP_SPNEGO_KERBEROS => 10
  end.

(** What the options put below the Delivery element after the event sink. *)
Definition auth_or_heartbeats (o : client_opt_t) : list xnode :=
  match wsmc_create_delivery_sec_mode_str (delivery_sec_mode o) with
  | Some profile =>
      [XElement (Some XML_NS_WS_MAN) WSM_AUTH [XAttr None WSM_PROFILE profile] (heartbeats_node o)]
  | None => heartbeats_node o
  end.

Definition notify_list (o : client_opt_t) : list xnode :=
  match delivery_uri o with
  | None => []
  | Some u =>
      [XElement (Some XML_NS_EVENTING) WSEVENT_NOTIFY_TO []
         (text_node (Some XML_NS_ADDRESSING) WSA_ADDRESS (Some u) ::
          match reference_properties read_memory o with Some n => [n] | None => [] end)]
  end.

Definition delivery_tree (o : client_opt_t) : xnode :=
  XElement (Some XML_NS_EVENTING) WSEVENT_DELIVERY
    [XAttr None WSEVENT_DELIVERY_MODE (wsmc_create_delivery_mode_str (o_delivery_mode o))]
    (notify_list o ++ auth_or_heartbeats o).

Lemma delivery_node_eq o : delivery_node read_memory o = delivery_tree o.
Proof.
  unfold delivery_node, delivery_tree, notify_to, notify_list, auth_or_heartbeats. rewrite empty_node.
  cbn [ws_xml_add_node_attr remove_attr app]. rewrite foldl_add_node. f_equal.
  rewrite !empty_node. cbn [ws_xml_add_node_attr remove_attr app].
  f_equal; [destruct (delivery_uri o); [by rewrite foldl_add_node|done]|].
  destruct (wsmc_create_delivery_sec_mode_str _); [by rewrite foldl_add_node|done].
Qed.

Definition request_delivery (doc : xnode) : option xnode :=
  child (child (ws_xml_get_soap_body (Some doc)) XML_NS_EVENTING WSEVENT_SUBSCRIBE) XML_NS_EVENTING WSEVENT_DELIVERY.

Lemma filter_serialize_shape ns nm p c f ns' z n :
  filter_serialize (XElement ns nm p c) f ns' = Some (z, n) → ∃ l, n = XElement ns nm p (c ++ l).
Proof.
  unfold filter_serialize. destruct (filter_element f ns') as [[e|fn]|]; [| |done]; cbn [mbind option_bind]; intros [= _ <-].
  - exists []. by rewrite app_nil_r.
  - by eexists.
Qed.

Lemma subscribe_delivery muuid cl uri o f data doc fl :
  wsmc_create_request read_memory muuid cl uri (Some o) f WSMAN_ACTION_SUBSCRIBE None data = Some (Some doc, fl) →
  request_delivery doc = Some (delivery_tree o).
Proof.
  intros H. destruct (create_request_shape _ _ _ _ _ _ _ _ _ _ H ltac:(done)) as (a & ss & rest & b & _ & _ & Hp & ->).
  cbn [action_parts] in Hp. unfold wsman_set_subscribe_options in Hp.
  destruct (subscribe_node read_memory o f) as [n|] eqn:E; [|done]. cbn [mbind option_bind] in Hp.
  rewrite body0_eq in Hp. injection Hp as _ <-. unfold request_delivery. rewrite request_body.
  assert (Hn : ∃ l, n = XElement (Some XML_NS_EVENTING) WSEVENT_SUBSCRIBE [] (delivery_tree o :: l)).
  { unfold subscribe_node in E. rewrite delivery_node_eq, (empty_node (Some XML_NS_EVENTING) WSEVENT_SUBSCRIBE), foldl_add_node in E. cbn [app] in E.
    assert (Hmark : ∀ c l, ∃ l', (if negb (Z.land (o_flags o) FLAG_EVENT_SENDBOOKMARK =? 0)
        then add_node (XElement (Some XML_NS_EVENTING) WSEVENT_SUBSCRIBE [] (c :: l))
               (text_node (Some XML_NS_WS_MAN) WSM_SENDBOOKMARKS None)
        else XElement (Some XML_NS_EVENTING) WSEVENT_SUBSCRIBE [] (c :: l)) =
        XElement (Some XML_NS_EVENTING) WSEVENT_SUBSCRIBE [] (c :: l')).
    { intros c l. destruct (negb _); by eexists. }
    destruct f as [f|].
    - destruct (filter_serialize _ _ _) as [[z n']|] eqn:Ef; [|done].
      destruct (filter_serialize_shape _ _ _ _ _ _ _ _ Ef) as [l ->]. cbn [mbind option_bind app] in E.
      injection E as <-. apply Hmark.
    - cbn [mbind option_bind] in E. injection E as <-. apply Hmark. }
  destruct Hn as [l ->]. unfold body_of, delivery_tree. cbn [add_node app]. by rewrite !child_here.
Qed.

Lemma notify_named ns name o :
  different XML_NS_EVENTING WSEVENT_NOTIFY_TO ns name = true → named ns name (notify_list o) = [].
Proof. intros H. unfold notify_list. destruct (delivery_uri o); [|done]. by rewrite named_elem_ne. Qed.

Lemma heartbeats_named ns name o :
  different XML_NS_WS_MAN WSM_HEARTBEATS ns name = true → named ns name (heartbeats_node o) = [].
Proof. intros H. unfold heartbeats_node. destruct (heartbeat_interval o); [|done]. by rewrite named_text_ne. Qed.

(** An attribute that is alone is found. *)
Lemma find_only_attr ns nm name v c :
  ws_xml_find_node_attr (Some (XElement ns nm [XAttr None name v] c)) None name = Some (XAttr None name v).
Proof.
  cbn [ws_xml_find_node_attr x_props find_attr_loop attr_matches xa_ns xa_name andb mbind option_bind].
  by rewrite str_eqb_refl.
Qed.

Lemma only_attr_value ns nm name v c :
  ws_xml_get_attr_value (XElement ns nm [XAttr None name v] c) (XAttr None name v) = Some v.
Proof. apply (only_prop ns nm (XAttr None name v)). Qed.

(** The delivery of a Subscribe request is understood: the server reads the
    mode, the event sink and the security profile that the client's options
    name. *)
Theorem client_delivery_understood muuid cl uri o f data doc fl u :
  wsmc_create_request read_memory muuid cl uri (Some o) f WSMAN_ACTION_SUBSCRIBE None data = Some (Some doc, fl) →
  delivery_uri o = Some u → u ≠ "" → destination_reachable u = Some true →
  delivery_mode (request_delivery doc) = Some (delivery_number (o_delivery_mode o)) ∧
  event_sink (request_delivery doc) = accept (Some u, security_number (delivery_sec_mode o)).
Proof.
  intros H Hu Hne Hr. rewrite (subscribe_delivery _ _ _ _ _ _ _ _ H). split.
  - unfold delivery_mode, delivery_tree. rewrite find_only_attr, only_attr_value.
    cbn [mbind option_bind]. by destruct (o_delivery_mode o).
  - unfold event_sink, delivery_tree. rewrite !child_named, !named_app. rewrite (notify_named XML_NS_WS_MAN WSM_AUTH) by reflexivity.
    unfold notify_list. rewrite Hu, named_elem_eq. cbn [app head].
    rewrite child_text_here. cbn [ws_xml_get_node_text mbind option_bind]. unfold text_node at 1. rewrite new_node_text.
    rewrite (proj2 (str_eqb_neq _ _) Hne), Hr. cbn [mbind option_bind negb]. unfold auth_or_heartbeats.
    destruct (delivery_sec_mode o); cbn [wsmc_create_delivery_sec_mode_str];
      try (rewrite named_elem_eq; cbn [head]; by rewrite find_only_attr, only_attr_value).
    by rewrite heartbeats_named by reflexivity.
Qed.

(** The client puts the heartbeats below the Auth element when the options
    name a security mode, and directly below the Delivery element, where the
    server looks for them, only when they name none.  So with a security mode
    the interval is lost: the subscription has no heartbeats, whatever interval
    was asked for. *)
Theorem heartbeats_need_no_security muuid cl uri o f data doc fl strtod_round t :
  wsmc_create_request read_memory muuid cl uri (Some o) f WSMAN_ACTION_SUBSCRIBE None data = Some (Some doc, fl) →
  heartbeat_interval o = Some t →
  (delivery_sec_mode o ≠ WSMAN_DELIVERY_SEC_AUTO →
   heartbeats strtod_round (request_delivery doc) = accept (0, 0)) ∧
  (delivery_sec_mode o = WSMAN_DELIVERY_SEC_AUTO →
   ws_xml_get_node_text (child (request_delivery doc) XML_NS_WS_MAN WSM_HEARTBEATS) =
     Some (snprintf_cut 32 ("PT" +:+ t +:+ "S"))).
Proof.
  intros H Ht. rewrite (subscribe_delivery _ _ _ _ _ _ _ _ H). unfold heartbeats, delivery_tree.
  rewrite !child_named, !named_app, notify_named by reflexivity. unfold auth_or_heartbeats, heartbeats_node.
  rewrite Ht. cbn [app]. split; intros Hs.
  - destruct (delivery_sec_mode o); [done|..]; cbn [wsmc_create_delivery_sec_mode_str];
      by rewrite named_elem_ne by reflexivity.
  - rewrite Hs. cbn [wsmc_create_delivery_sec_mode_str]. rewrite named_text_eq.
    cbn [head ws_xml_get_node_text mbind option_bind]. apply new_node_text.
Qed.
End Proofs.

(** ** Examples *)

Definition no_memory (s : string) : option xnode := None.

Definition sample_client : WsManClient := wsmc_create (Some "host") 5985 None None None None.

Definition sample_options : client_opt_t :=
  ClientOpt FLAG_ENUMERATION_OPTIMIZATION None None (Some "http://sink:80/e") None WSMAN_DELIVERY_PUSHWITHACK
    WSMAN_DELIVERY_SEC_HTTPS_BASIC None None None (Some "5.000000") None (text_selector <$> [("Name", "sda")]) []
    0 0 20 [] None.

Abbreviation sample_request action f data :=
  (@wsmc_create_request TreeXml no_memory "uuid:1" sample_client (Some "urn:disk") (Some sample_options) f action None
     data).

Lemma client_request_valid_witness :
  ∃ doc, sample_request WSMAN_ACTION_TRANSFER_GET None None = Some (Some doc, 0) ∧
         @wsman_is_valid_envelope TreeXml (Status WSMAN_RC_OK WSMAN_DETAIL_OK None) doc =
           Some (true, Status WSMAN_RC_OK WSMAN_DETAIL_OK None).
Proof.
  eexists. split; [vm_compute; reflexivity|].
  eapply (@client_request_valid TreeXml TreeXmlLaws no_memory "uuid:1" sample_client "urn:disk" sample_options None
            WSMAN_ACTION_TRANSFER_GET None None); [vm_compute; reflexivity|done|done].
Defined.

Lemma client_selectors_read_witness :
  ∃ doc, sample_request WSMAN_ACTION_TRANSFER_GET None None = Some (Some doc, 0) ∧
         @wsman_get_selector TreeXml None (Some doc) "Name" 0 = Some "sda".
Proof.
  eexists. split; [vm_compute; reflexivity|].
  eapply (@client_selectors_read TreeXml TreeXmlLaws no_memory "uuid:1" sample_client (Some "urn:disk") sample_options
            None WSMAN_ACTION_TRANSFER_GET None None _ _ [("Name", "sda")]);
    [vm_compute; reflexivity|done|reflexivity|reflexivity|by repeat constructor|reflexivity].
Defined.

Lemma client_enumerate_understood_witness :
  ∃ doc, sample_request WSMAN_ACTION_ENUMERATION (Some (query_filter WSM_WQL_FILTER_DIALECT "select *")) None =
           Some (Some doc, 0) ∧
         @wsman_parse_enum_request TreeXml (Some doc) 0 0 =
           Some (inr (EnumRequest 0x100240 20 (Some (query_filter WSM_WQL_FILTER_DIALECT "select *")))).
Proof.
  eexists. split; [vm_compute; reflexivity|].
  eapply (@client_enumerate_understood TreeXml TreeXmlLaws no_memory "uuid:1" sample_client (Some "urn:disk")
            sample_options (Some (query_filter WSM_WQL_FILTER_DIALECT "select *")) None);
    [vm_compute; reflexivity|intros f [= <-]; left; by eexists _, _|done].
Defined.

Lemma client_context_read_witness :
  ∃ doc, sample_request WSMAN_ACTION_PULL None (Some "uuid:9") = Some (Some doc, 0) ∧
         @request_context TreeXml WSENUM_PULL doc = Some "uuid:9" ∧
         @wsman_get_max_elements TreeXml None (Some doc) = 20.
Proof.
  eexists. split; [vm_compute; reflexivity|].
  eapply (proj1 (@client_context_read TreeXml TreeXmlLaws no_memory "uuid:1" sample_client (Some "urn:disk")
            sample_options None "uuid:9" _ 0)); [vm_compute; reflexivity|done].
Defined.

Lemma client_delivery_understood_witness :
  ∃ doc, sample_request WSMAN_ACTION_SUBSCRIBE None None = Some (Some doc, 0) ∧
         @delivery_mode TreeXml (request_delivery doc) = Some WS_EVENT_DELIVERY_MODE_PUSHWITHACK ∧
         @event_sink TreeXml (request_delivery doc) = accept (Some "http://sink:80/e", 3).
Proof.
  eexists. split; [vm_compute; reflexivity|].
  eapply (@client_delivery_understood TreeXml TreeXmlLaws no_memory "uuid:1" sample_client (Some "urn:disk")
            sample_options None None); [vm_compute; reflexivity|reflexivity|done|vm_compute; reflexivity].
Defined.

Lemma heartbeats_need_no_security_witness :
  ∃ doc, sample_request WSMAN_ACTION_SUBSCRIBE None None = Some (Some doc, 0) ∧
         @heartbeats TreeXml decimal_round (request_delivery doc) = accept (0, 0).
Proof.
  eexists. split; [vm_compute; reflexivity|].
  eapply (@heartbeats_need_no_security TreeXml TreeXmlLaws no_memory "uuid:1" sample_client (Some "urn:disk")
            sample_options None None _ _ decimal_round); [vm_compute; reflexivity|reflexivity|done].
Defined.
