(* ===== verification/Invocation.v ===== *)
(** * What a client sends and what a plugin reads

    The options of a request and the arguments of a method, from the options
    of a client ([wsman-client.c]) through the document to the values that a
    plugin gets ([wsman-soap-envelope.c]). *)

From S2P Require Import Prelude.
From S2P Require Import CString.
From S2P Require Import Names.
From S2P Require Import Xml.
From S2P Require Import Store.
From S2P Require Import Envelope.
From S2P Require Import Uri.
From S2P Require Import Epr.
From S2P Require Import Filter.
From S2P Require Import Selectors.
From S2P Require Import Client.
From S2P Require Import ClientTransport.
From S2P Require Import ClientActions.
From S2P Require Import ClientProofs.

#[local] Open Scope string_scope.
#[local] Open Scope list_scope.
#[local] Open Scope Z_scope.
#[local] Open Scope ow_scope.

Section Options.
Context {LX : Libxml2} {LL : Libxml2Laws}.
Context (read_memory : string → option xnode).

(** ** Options *)

Definition option_value (v : string) : string := if str_eqb v "" then "true" else v.

(** What a plugin should read of an option of the client. *)
Definition option_read (o : client_opt_t) (op : string) : option string :=
  if has_opt o FLAG_CIM_EXTENSIONS && str_eqb WSMB_SHOW_EXTENSION op then Some "true"
  else option_value <$> first_value (o_options o) op.

Definition option_elem (ns name : string) (t : option string) : xnode :=
  XElement (Some ns) WSM_OPTION [XAttr None WSM_NAME name] (x_children (text_node (Some ns) WSM_OPTION t)).

Lemma option_node_eq ns name t : option_node ns name t = option_elem ns name t.
Proof. unfold option_node, option_elem. by rewrite (text_node_children (Some ns) WSM_OPTION t) at 1. Qed.

Lemma option_elem_text ns name t :
  ws_xml_get_node_text (Some (option_elem ns name t)) = Some (default "" t).
Proof.
  unfold option_elem. cbn [ws_xml_get_node_text mbind option_bind].
  rewrite (content_of_children _ _ _ (Some ns) WSM_OPTION []), <- text_node_children.
  destruct t; [apply new_node_text|]. unfold text_node. by rewrite new_node_empty, content_empty.
Qed.

(** One element of the set. *)
Lemma get_option_elem op ns name t l :
  get_option_loop op (option_elem ns name t :: l) =
  if str_eqb name op then Some (option_value (default "" t)) else get_option_loop op l.
Proof.
  cbn [get_option_loop]. rewrite option_elem_text. unfold option_elem.
  unfold ws_xml_find_attr_value. cbn [mbind option_bind]. rewrite find_only_attr. cbn [mbind option_bind].
  by rewrite only_attr_value.
Qed.

Lemma get_option_table op kvs :
  get_option_loop op ((λ kv, option_elem XML_NS_WS_MAN kv.1 (Some kv.2)) <$> kvs) =
  option_value <$> first_value kvs op.
Proof.
  induction kvs as [|[k v] kvs IH]; [done|]. rewrite fmap_cons, get_option_elem, IH. cbn [first_value fst snd default].
  by destruct (str_eqb k op).
Qed.

Lemma named_options kvs :
  named XML_NS_WS_MAN WSM_OPTION ((λ kv, option_elem XML_NS_WS_MAN kv.1 (Some kv.2)) <$> kvs) =
  (λ kv, option_elem XML_NS_WS_MAN kv.1 (Some kv.2)) <$> kvs.
Proof.
  induction kvs as [|kv kvs IH]; [done|]. rewrite fmap_cons. unfold option_elem at 1 3.
  by rewrite named_elem_eq, IH.
Qed.

(** The set as the server reads it: the option of the other namespace is not
    looked at. *)
Lemma option_nodes_read o op : get_option_loop op (named XML_NS_WS_MAN WSM_OPTION (option_nodes o)) = option_read o op.
Proof.
  unfold option_nodes, option_read. rewrite !named_app.
  assert (Hnil : named XML_NS_WS_MAN WSM_OPTION
    (if has_opt o FLAG_EXCLUDE_NIL_PROPS then [option_node XML_NS_OPENWSMAN WSMB_EXCLUDE_NIL_PROPS None] else []) = []).
  { destruct (has_opt o _); [|done]. rewrite option_node_eq. unfold option_elem.
    by rewrite named_elem_ne by reflexivity. }
  rewrite Hnil. cbn [app]. erewrite (list_fmap_ext (λ kv, option_node _ kv.1 _)) by (intros; apply option_node_eq).
  rewrite named_options. destruct (has_opt o FLAG_CIM_EXTENSIONS); [|apply get_option_table].
  rewrite option_node_eq. unfold option_elem at 1. rewrite named_elem_eq. fold (option_elem XML_NS_WS_MAN WSMB_SHOW_EXTENSION None).
  rewrite named_nil. cbn [app andb]. rewrite get_option_elem, get_option_table.
  by destruct (str_eqb WSMB_SHOW_EXTENSION op).
Qed.

(** C34: a plugin reads the options the client set: whatever the action, for
    each name the value of the table of options ([true] for an empty value)
    and [true] for the extensions flag.  The option ExcludeNilProperties is
    sent in another namespace and is never read. *)
Theorem client_options_understood muuid cl uri o f action method data doc fl op :
  wsmc_create_request read_memory muuid cl uri (Some o) f action method data = Some (Some doc, fl) →
  action ≠ WSMAN_ACTION_IDENTIFY → option_nodes o ≠ [] →
  wsman_get_option_set None (Some doc) op = option_read o op.
Proof.
  intros H Hne Ho. destruct (create_request_shape _ _ _ _ _ _ _ _ _ _ _ H Hne) as (a & ss & rest & b & _ & _ & _ & ->).
  unfold wsman_get_option_set. cbn [pick_doc]. rewrite request_header. unfold header_of.
  rewrite child_named, !named_app, address_no_options, selset_no_options. cbn [app]. unfold option_set.
  destruct (option_nodes o) as [|n ns] eqn:E; [done|]. rewrite named_elem_eq. cbn [head app].
  rewrite children_matching, <- option_nodes_read, E. reflexivity.
Qed.
End Options.

(** ** Names of methods *)

Lemma strrchr_last c s t : strchr t c = None → strrchr (s +:+ String c t) c = Some (String c t).
Proof.
  intros Ht. induction s as [|a s IH].
  - rewrite str_nil_app. cbn [strrchr]. assert (strrchr t c = None) as ->; [|by rewrite Z.eqb_refl].
    clear -Ht. induction t as [|b t IH]; [done|]. cbn [strchr strrchr] in *.
    destruct (code b =? code c); [done|]. by rewrite IH.
  - rewrite str_app_cons. cbn [strrchr]. by rewrite IH.
Qed.

Lemma method_name_last uri m : strchr m (chr 47) = None → after_last_slash (uri +:+ "/" +:+ m) = Some m.
Proof.
  intros H. unfold after_last_slash. change (strrchr _ _) with (strrchr (uri +:+ String (chr 47) m) (chr 47)).
  by rewrite strrchr_last.
Qed.

Lemma snprintf_cut_all n s : (String.length s < n)%nat → snprintf_cut n s = s.
Proof.
  unfold snprintf_cut. intros H. assert (String.length s ≤ n - 1)%nat as Hle by lia. clear H.
  revert Hle. generalize (n - 1)%nat. clear n. induction s as [|a s IH]; intros [|n] H; cbn in *; try done; [lia|].
  rewrite IH; [done|lia].
Qed.

(** ** Arguments *)

Section Invoke.
Context {T : Type → Type} {ST : Store T} {SL : StoreLaws T} {LX : Libxml2} {LL : Libxml2Laws}.
Context (read_memory : string → option xnode).

(** The element of an argument. *)
Definition arg_node (uri : string) (kv : key_value_t) : xnode :=
  match kv with
  | KeyValue k (VText t) => text_node (Some uri) (default "" (deref k)) (deref t)
  | KeyValue k (VEpr (Some e)) => epr_element (Some uri) (default "" (deref k)) e
  | KeyValue k (VEpr None) => XOther ""
  end.

(** The argument that a plugin should get. *)
Definition arg_read (kv : key_value_t) : methodarglist_t :=
  MethodArg (default "" (deref (kv_key kv))) 0 (KeyValue CNull (kv_v kv)).

Lemma add_arguments_eq uri props : ∀ ns nm p c,
  Forall (λ kv, kv_complete epr_complete kv = true) props →
  add_arguments uri props (XElement ns nm p c) = Some (XElement ns nm p (c ++ (arg_node uri <$> props))).
Proof.
  induction props as [|kv props IH]; intros ns nm p c Hc; [by rewrite app_nil_r|].
  apply Forall_cons in Hc as [Hkv Hc]. rewrite fmap_cons, cons_middle, app_assoc.
  apply kv_complete_inv in Hkv as (k & [(t & ->)|(e & -> & He)]);
    cbn [add_arguments deref mbind option_bind c_val arg_node default].
  - cbn [add_node]. by apply IH.
  - rewrite epr_serialize_tree by done. cbn [mbind option_bind add_node]. by apply IH.
Qed.

Lemma keep_complete e : epr_complete e = true → keep_epr (Some e) = Some (KeyValue CNull (VEpr (Some e))).
Proof.
  intros He. unfold keep_epr. cbn [key_value_create of_option]. rewrite epr_copy_id by done.
  cbn [mbind option_bind]. by rewrite epr_destroy_complete.
Qed.

(** The element of a reference is read where it stands. *)
Lemma epr_deserialize_here e ns name :
  epr_complete e = true → epr_deserialize None None true (epr_element (Some ns) name e) = Some (Some e).
Proof.
  intros He. set (node := XElement None "" [] [epr_element (Some ns) name e]).
  assert (Hc : ws_xml_get_child (Some node) 0 (Some ns) (Some name) = Some (epr_element (Some ns) name e)).
  { unfold node. destruct e as [a u sel]. rewrite epr_element_eq. exact (child_here ns name None "" [] _ [] []). }
  destruct (epr_deserialize_tree e (Some ns) name node He Hc) as [f0 Hf].
  unfold epr_deserialize.
  rewrite (epr_deserialize_fuel_enough _ (S (Nat.max f0 (xdepth (epr_element (Some ns) name e))))) by lia.
  rewrite <- (Hf (S (Nat.max f0 (xdepth (epr_element (Some ns) name e)))) ltac:(lia)).
  cbn [epr_deserialize_fuel]. by rewrite Hc.
Qed.

Lemma method_arg_read uri kv :
  kv_complete epr_complete kv = true → method_arg (arg_node uri kv) = Some (arg_read kv).
Proof.
  intros Hkv. apply kv_complete_inv in Hkv as (k & [(t & ->)|(e & -> & He)]); unfold method_arg;
    cbn [arg_node arg_read deref default kv_key kv_v id].
  - assert (child (Some (text_node (Some uri) k (Some t))) XML_NS_ADDRESSING WSA_REFERENCE_PARAMETERS = None) as ->.
    { rewrite text_node_children. apply text_children_no_child. }
    assert (ws_xml_get_node_text (Some (text_node (Some uri) k (Some t))) = Some t) as -> by apply new_node_text.
    by destruct (text_node_named (Some uri) k (Some t)) as [c ->].
  - rewrite epr_deserialize_here by done. destruct e as [a u sel]. rewrite epr_element_eq.
    rewrite child_text_skip, child_here by (by right). cbn [mbind option_bind ws_xml_get_node_local_name].
    by rewrite keep_complete.
Qed.

Lemma arg_nodes_elements uri props :
  Forall (λ kv, kv_complete epr_complete kv = true) props →
  element_children (arg_node uri <$> props) = arg_node uri <$> props.
Proof.
  induction 1 as [|kv props Hkv _ IH]; [done|]. rewrite fmap_cons. cbn [element_children].
  apply kv_complete_inv in Hkv as (k & [(t & ->)|(e & -> & He)]); cbn [arg_node].
  - destruct (text_node_named (Some uri) (default "" (deref (CStr k))) (deref (CStr t))) as [c E].
    rewrite E at 1. cbn [is_element]. by rewrite IH.
  - destruct e as [a u sel]. cbn [epr_element is_element]. by rewrite IH.
Qed.

(** Reading the element of the arguments. *)
Lemma arguments_read uri props ns nm p :
  Forall (λ kv, kv_complete epr_complete kv = true) props →
  mapM method_arg (children (Some (XElement ns nm p (arg_node uri <$> props))) None None) = Some (arg_read <$> props).
Proof.
  intros Hc. rewrite children_matching, matching_wildcard. cbn [x_children]. rewrite arg_nodes_elements by done.
  induction Hc as [|kv props Hkv _ IH]; [done|]. rewrite !fmap_cons. cbn [mapM].
  rewrite method_arg_read by done. cbn [mbind option_bind]. by rewrite IH.
Qed.

Lemma arguments_freed props :
  Forall (λ kv, kv_complete epr_complete kv = true) props → wsman_free_method_list (arg_read <$> props) = Some tt.
Proof.
  intros Hc. unfold wsman_free_method_list.
  assert (mapM (λ a, key_value_destroy epr_destroy (ma_data a)) (arg_read <$> props) = Some ((λ _, tt) <$> (arg_read <$> props)))
    as ->; [|done].
  apply mapM_fmap, Forall_fmap. eapply Forall_impl; [exact Hc|]. intros kv Hkv.
  apply kv_complete_inv in Hkv as (k & [(t & ->)|(e & -> & He)]); [done|].
  cbn [compose arg_read ma_data kv_v key_value_destroy c_free mbind option_bind]. by apply epr_destroy_complete.
Qed.

(** The server reads the name of the method from the action. *)
Lemma request_method_name muuid uri m to o rest b :
  muuid ≠ "" → strchr m (chr 47) = None →
  wsman_get_method_name (Some (request_document
    (header_of (address_list muuid (uri +:+ "/" +:+ m) WSA_TO_ANONYMOUS (Some uri) to o ++ rest)) (body_of b))) = Some m.
Proof.
  intros Hid Hm. unfold wsman_get_method_name, wsman_get_action. cbn [pick_doc]. rewrite request_header.
  destruct (address_lookup muuid (uri +:+ "/" +:+ m) WSA_TO_ANONYMOUS uri to o rest Hid) as [-> _].
  rewrite ser_node_text. pose proof (method_name_last uri m Hm) as Hn. by destruct (uri +:+ "/" +:+ m).
Qed.

(** C33: the arguments of a method reach the plugin: a client that invokes a
    method by its name with properties in its options sends a request from which
    [wsman_get_method_args] reads a table whose list has the same names and
    values in the same order, references included at any depth, and which can be
    freed.  (A name of 4090 bytes or more does not fit the client's
    buffer.) *)
Theorem invoke_arguments_delivered muuid cl uri o m doc fl :
  wsmc_create_request read_memory muuid cl (Some uri) (Some o) None WSMAN_ACTION_CUSTOM (Some m) None = Some (Some doc, fl) →
  muuid ≠ "" → strchr m (chr 47) = None → (String.length m < 4090)%nat →
  o_properties o ≠ [] → Forall (λ kv, kv_complete epr_complete kv = true) (o_properties o) →
  ∃ body b h, ws_xml_get_soap_body (Some doc) = Some body ∧ invoke_body uri o (Some m) None body = Some b ∧
    wsman_get_method_args (Some (update_request_body (λ _, b) doc)) uri = Some (Some h) ∧
    table_entry (Some h) METHOD_ARGS_KEY = Some (arg_read <$> o_properties o) ∧
    wsman_free_method_list (arg_read <$> o_properties o) = Some tt.
Proof.
  intros H Hid Hm Hlen Hne Hc.
  destruct (create_request_shape _ _ _ _ _ _ _ _ _ _ _ H ltac:(done)) as (a & ss & rest & b & Ha & _ & Hp & ->).
  unfold request_action in Ha. rewrite Hm, bool_decide_false in Ha by (by intros []). injection Ha as <-.
  cbn [action_parts] in Hp. rewrite body0_eq in Hp. injection Hp as _ <-.
  set (input := XElement (Some uri) (m +:+ "_INPUT") [] (arg_node uri <$> o_properties o)).
  assert (Hbody : invoke_body uri o (Some m) None (body_of []) = Some (body_of [input])).
  { unfold invoke_body, input_node. destruct (o_properties o) as [|kv props] eqn:E; [done|]. rewrite <- E in *.
    rewrite snprintf_cut_all by (rewrite str_length_app; cbn; lia). rewrite empty_node.
    rewrite add_arguments_eq by done. cbn [mbind option_bind add_node app]. unfold body_of, input. cbn [add_node app].
    by rewrite ?E. }
  destruct (@store_new_spec T ST SL (list methodarglist_t)) as (t & Et & Ht & Hmt).
  destruct (store_add_spec t METHOD_ARGS_KEY (arg_read <$> o_properties o) Ht) as (h & Eh & Hh & Hmh).
  { by rewrite Hmt, lookup_empty. }
  { by rewrite store_count_spec, Hmt, map_size_empty by done. }
  exists (body_of []), (body_of [input]), h. split_and!; [apply request_body|done| | |by apply arguments_freed].
  2: { cbn [table_entry]. by rewrite Hmh, lookup_insert_eq. }
  change (update_request_body _ _) with (request_document (header_of (address_list muuid (uri +:+ "/" +:+ m) WSA_TO_ANONYMOUS
    (Some uri) (cl_endpoint cl) o ++ selset ss ++ option_set o ++ rest)) (body_of [input])).
  unfold wsman_get_method_args. rewrite Et. cbn [mbind option_bind].
  rewrite request_method_name by done.
  cbn [mbind option_bind]. rewrite request_body. unfold input_of, body_of, input. rewrite child_here, arguments_read by done.
  cbn [mbind option_bind]. rewrite Eh. cbn [mbind option_bind]. unfold unless_empty.
  by rewrite store_count_spec, Hmh, Hmt, insert_empty, map_size_singleton by done.
Qed.
End Invoke.

(** ** Examples *)

Definition invoke_options : client_opt_t :=
  ClientOpt (Z.lor FLAG_CIM_EXTENSIONS FLAG_EXCLUDE_NIL_PROPS) None None None None WSMAN_DELIVERY_PUSH
    WSMAN_DELIVERY_SEC_AUTO None None None None None []
    [KeyValue (CStr "Force") (VText (CStr "yes")); KeyValue (CStr "Target") (VEpr (Some sample_epr))]
    0 0 0 [("Verbose", ""); ("Depth", "3")] None.

Abbreviation invoke_request :=
  (@wsmc_create_request TreeXml no_memory "uuid:1" sample_client (Some "urn:disk") (Some invoke_options) None
     WSMAN_ACTION_CUSTOM (Some "Format") None).

Lemma client_options_understood_witness :
  ∃ doc, invoke_request = Some (Some doc, 0) ∧
         @wsman_get_option_set TreeXml None (Some doc) "Verbose" = Some "true" ∧
         @wsman_get_option_set TreeXml None (Some doc) WSMB_EXCLUDE_NIL_PROPS = None.
Proof.
  eexists. split; [vm_compute; reflexivity|].
  split; refine (eq_trans (@client_options_understood TreeXml TreeXmlLaws no_memory "uuid:1" sample_client
            (Some "urn:disk") invoke_options None WSMAN_ACTION_CUSTOM (Some "Format") None _ 0 _ _ _ _) _);
    first [done|vm_compute; reflexivity].
Defined.

Lemma invoke_arguments_delivered_witness :
  ∃ doc body b h, invoke_request = Some (Some doc, 0) ∧ ws_xml_get_soap_body (Some doc) = Some body ∧
    @invoke_body TreeXml "urn:disk" invoke_options (Some "Format") None body = Some b ∧
    @wsman_get_method_args hstore HashStore TreeXml (Some (update_request_body (λ _, b) doc)) "urn:disk" = Some (Some h) ∧
    @table_entry hstore HashStore _ (Some h) METHOD_ARGS_KEY =
      Some [MethodArg "Force" 0 (KeyValue CNull (VText (CStr "yes")));
            MethodArg "Target" 0 (KeyValue CNull (VEpr (Some sample_epr)))].
Proof.
  eexists. edestruct (@invoke_arguments_delivered hstore HashStore _ TreeXml TreeXmlLaws no_memory "uuid:1" sample_client
    "urn:disk" invoke_options "Format") as (body & b & h & H1 & H2 & H3 & H4 & _); cycle -1.
  { exists body, b, h. split_and!; [vm_compute; reflexivity|exact H1|exact H2|exact H3|exact H4]. }
  - vm_compute. reflexivity.
  - done.
  - reflexivity.
  - cbn. lia.
  - done.
  - by repeat constructor.
Defined.
