(* ===== verification/ActionProofs.v ===== *)
(** * Sessions of a client

    What the actions of [ClientActions] do against a peer: an enumeration
    hands every document of the peer to the callback, and how it ends when the
    peer fails; what a client reads from a fault of the server. *)

From S2P Require Import Prelude.
From S2P Require Import CString.
From S2P Require Import Names.
From S2P Require Import Xml.
From S2P Require Import Faults.
From S2P Require Import Envelope.
From S2P Require Import Epr.
From S2P Require Import Filter.
From S2P Require Import Client.
From S2P Require Import ClientTransport.
From S2P Require Import ClientActions.
From S2P Require Import ClientProofs.

#[local] Open Scope string_scope.
#[local] Open Scope list_scope.
#[local] Open Scope Z_scope.
#[local] Open Scope ow_scope.

(** ** Peers *)

(** A peer that answers with the texts it is given, each with status 200, and
    then cannot be reached. *)
Class Serves (W : Type) `{Curl W} := {
  serves : W → list string → Prop;
  serves_next w s l rqst cr :
    serves w (s :: l) →
    ∃ w1 w2 w3, curl_init w = (w1, CURLE_OK) ∧ curl_setup w1 rqst = (w2, CURLE_OK) ∧
      curl_perform w2 cr rqst = (w3, (CURLE_OK, s)) ∧ curl_http_code w3 = 200 ∧ serves w3 l;
  serves_end w rqst cr :
    serves w [] →
    ∃ w1 w2 w3 r s, curl_init w = (w1, CURLE_OK) ∧ curl_setup w1 rqst = (w2, CURLE_OK) ∧
      curl_perform w2 cr rqst = (w3, (r, s)) ∧ r ≠ CURLE_OK ∧ serves w3 [];
}.

(** The status of the last response and the texts still to come. *)
Definition script : Type := Z * list string.

Definition ScriptPeer : Curl script := {|
  curl_init w := (w, CURLE_OK);
  curl_setup w _ := (w, CURLE_OK);
  curl_perform w _ _ :=
    match w.2 with
    | s :: l => ((200, l), (CURLE_OK, s))
    | [] => ((0, []), (CURLE_COULDNT_CONNECT, ""))
    end;
  curl_http_code w := w.1;
  curl_auth_avail _ := 0;
|}.

Definition ScriptServes : @Serves script ScriptPeer.
Proof.
  refine (@Build_Serves script ScriptPeer (λ w l, w.2 = l) _ _).
  - intros [c l'] s l rqst cr Hl. cbn in Hl. subst l'. by eexists _, _, _.
  - intros [c l'] rqst cr Hl. cbn in Hl. subst l'. by eexists _, _, _, _, _.
Defined.

Section Sessions.
Context {LX : Libxml2} {LL : Libxml2Laws} {W : Type} {CU : Curl W} {SV : Serves W}.
Context (read_memory : string → option xnode).
Context (auth_request_func : option (W → wsman_auth_type_t → W * (option string * option string))).
Context (fuel : nat) (ids : nat → string).

Implicit Types t : transport W.

Definition idle t : Prop := Z.land (t_flags t) WSMAN_CLIENT_BUSY = 0.

(** ** One exchange *)

Lemma client_flags_busy o f :
  Z.land (client_flags o f) WSMAN_CLIENT_BUSY = Z.land f WSMAN_CLIENT_BUSY.
Proof.
  destruct o as [o|]; [|done]. unfold client_flags. destruct (negb _).
  - rewrite Z.land_lor_distr_l. change (Z.land WSMAN_CLIENT_SUPRESS_100_CONTINUE WSMAN_CLIENT_BUSY) with 0.
    apply Z.lor_0_r.
  - by rewrite <- Z.land_assoc.
Qed.

Lemma exchange_served request t s l :
  serves (t_world t) (s :: l) → idle t → s ≠ "" →
  ∃ t', exchange read_memory auth_request_func (S fuel) request t = Some (read_memory s, t') ∧
        serves (t_world t') l ∧ idle t' ∧ t_code t' = 200.
Proof.
  intros Hs Hi Hne. unfold exchange, wsman_send_request, wsmc_lock. rewrite Hi. cbn [Z.eqb negb].
  set (t0 := wsmc_reinit_conn _). unfold wsmc_handler.
  destruct (serves_next (t_world t0) s l request (credentials_of t0) Hs) as (w1 & w2 & w3 & E1 & E2 & E3 & E4 & Hl).
  rewrite E1. rewrite decide_False by (intros []; done). cbn [set_world t_world]. rewrite E2.
  rewrite decide_False by (intros []; done). cbn [auth_loop set_world t_world].
  change (credentials_of (set_world w2 (set_world w1 t0))) with (credentials_of t0). cbn [set_world t_world]. rewrite E3.
  rewrite decide_False by (intros []; done). rewrite E4. cbn [answered Z.eqb orb mbind option_bind].
  eexists. split.
  - cbn. rewrite E4. unfold u_append. rewrite (proj2 (str_eqb_neq _ _) Hne). cbn.
    destruct (t_response t); reflexivity.
  - split_and!; [exact Hl| |reflexivity]. unfold idle. cbn.
    by rewrite <- Z.land_assoc, (Z.land_comm (Z.lnot _)), Z.land_lnot_diag, Z.land_0_r.
Qed.

(** The peer cannot be reached: no document, and the client is free. *)
Lemma exchange_refused request t :
  serves (t_world t) [] → idle t →
  ∃ t', exchange read_memory auth_request_func (S fuel) request t = Some (None, t').
Proof.
  intros Hs Hi. unfold exchange, wsman_send_request, wsmc_lock. rewrite Hi. cbn [Z.eqb negb].
  set (t0 := wsmc_reinit_conn _). unfold wsmc_handler.
  destruct (serves_end (t_world t0) request (credentials_of t0) Hs) as (w1 & w2 & w3 & r & s & E1 & E2 & E3 & Hr & Hl).
  rewrite E1. rewrite decide_False by (intros []; done). cbn [set_world t_world]. rewrite E2.
  rewrite decide_False by (intros []; done). cbn [auth_loop set_world t_world].
  change (credentials_of (set_world w2 (set_world w1 t0))) with (credentials_of t0). cbn [set_world t_world]. rewrite E3.
  rewrite decide_True by done. cbn [mbind option_bind set_result t_error].
  rewrite bool_decide_true by (by intros ?%convert_ok). by eexists.
Qed.

(** ** Creating the requests *)

Lemma request_created i cl uri o f a data t h b ss act :
  wsmc_create_action_str a = Some act → a ≠ WSMAN_ACTION_IDENTIFY → header_selectors read_memory o = Some ss →
  (∀ l, action_parts read_memory a (Some o) f data (header_of l) body0 = Some (h l, b l)) →
  ∃ doc t', create read_memory ids i cl uri (Some o) f a None data t = Some (Some doc, t') ∧
            t_world t' = t_world t ∧ t_code t' = t_code t ∧ (idle t → idle t').
Proof.
  intros Ha Hne Hss Hp. unfold create, wsmc_create_request. rewrite decide_False by done. cbn [request_action].
  rewrite Ha, build_envelope_eq, Hss. cbn [fmap option_fmap option_map mbind option_bind].
  rewrite add_option_set_eq, Hp. cbn [mbind option_bind]. eexists _, _. split_and!; [done..|].
  unfold idle. cbn [set_flags t_flags with_flags cl_flags]. by rewrite client_flags_busy.
Qed.

Lemma pull_created i cl uri o f ctx t ss :
  header_selectors read_memory o = Some ss →
  ∃ doc t', create read_memory ids i cl uri (Some o) f WSMAN_ACTION_PULL None (Some ctx) t = Some (Some doc, t') ∧
            t_world t' = t_world t ∧ t_code t' = t_code t ∧ (idle t → idle t').
Proof. intros Hss. eapply request_created; [done|done|exact Hss|]. intros l. by eexists. Qed.

Lemma enumerate_created i cl uri o f t ss :
  header_selectors read_memory o = Some ss → (∀ f', f = Some f' → text_filter f') →
  ∃ doc t', create read_memory ids i cl uri (Some o) f WSMAN_ACTION_ENUMERATION None None t = Some (Some doc, t') ∧
            t_world t' = t_world t ∧ t_code t' = t_code t ∧ (idle t → idle t').
Proof.
  intros Hss Hf. destruct f as [f|].
  - destruct (text_filter_element f XML_NS_WS_MAN (Hf f eq_refl)) as (p & c & Hs & _).
    eapply request_created; [done|done|exact Hss|]. intros l. cbn [action_parts].
    rewrite enumeration_options_eq, Hs. cbn [mbind option_bind]. rewrite decide_True by done. reflexivity.
  - eapply request_created; [done|done|exact Hss|]. intros l. cbn [action_parts].
    rewrite enumeration_options_eq. cbn [mbind option_bind]. rewrite decide_True by done. reflexivity.
Qed.

(** ** The loop *)

(** Each document but the last carries the context of the next pull; [final] is
    what the last one carries. *)
Fixpoint chained (ctx : option string) (ds : list xnode) (final : option string) : Prop :=
  match ds with
  | [] => ctx = final
  | d :: ds => (∃ c, ctx = Some c ∧ c ≠ "") ∧ chained (wsmc_get_enum_context (Some d)) ds final
  end.

(** The texts the peer sends and the documents they hold. *)
Definition holds (s : string) (d : xnode) : Prop := s ≠ "" ∧ read_memory s = Some d.

Lemma pull_loop_served cl uri o f sel ds ss : ∀ n i ctx final seen t,
  header_selectors read_memory o = Some sel → Forall2 holds ss ds → chained ctx ds final →
  serves (t_world t) ss → idle t → t_code t = 200 →
  ∃ t', pull_loop read_memory auth_request_func (S fuel) ids (length ds + n) i cl uri (Some o) f ctx seen t =
        pull_loop read_memory auth_request_func (S fuel) ids n (i + length ds) cl uri (Some o) f final
          (seen ++ (Some <$> ds)) t' ∧
        serves (t_world t') [] ∧ idle t' ∧ t_code t' = 200.
Proof.
  intros n i ctx final seen t Hsel Hd. revert n i ctx seen t. induction Hd as [|s d ss ds [Hne Hr] _ IH].
  - intros n i ctx seen t -> Hs Hi Hc. exists t. by rewrite app_nil_r, Nat.add_0_r.
  - intros n i ctx seen t [(c & -> & Hcne) Hch] Hs Hi Hc. cbn [length Nat.add pull_loop].
    rewrite (proj2 (str_eqb_neq _ _) Hcne). unfold wsmc_action_pull.
    destruct (pull_created i cl uri o f c t sel Hsel) as (doc & t1 & -> & Hw & _ & Hi1).
    cbn [mbind option_bind]. rewrite <- Hw in Hs.
    destruct (exchange_served doc t1 s ss Hs (Hi1 Hi) Hne) as (t2 & -> & Hs2 & Hi2 & Hc2).
    cbn [mbind option_bind]. rewrite Hc, Hr. cbn [answered Z.eqb orb negb].
    destruct (IH n (S i) _ (seen ++ [Some d]) t2 Hch Hs2 Hi2 Hc2) as (t3 & E & Hrest).
    exists t3. split; [|exact Hrest]. cbn [fmap list_fmap]. rewrite <- app_assoc in E. cbn [app] in E.
    replace (i + S (length ds))%nat with (S i + length ds)%nat by lia. exact E.
Qed.

(** The whole action up to the last answer of the peer. *)
Lemma enumerate_and_pull_served cl uri o f sel s0 d0 ss ds final n t :
  header_selectors read_memory o = Some sel → (∀ f', f = Some f' → text_filter f') →
  holds s0 d0 → Forall2 holds ss ds → chained (wsmc_get_enum_context (Some d0)) ds final →
  serves (t_world t) (s0 :: ss) → idle t →
  ∃ t', wsmc_action_enumerate_and_pull read_memory auth_request_func (S fuel) ids (length ds + n) cl uri (Some o) f t =
        pull_loop read_memory auth_request_func (S fuel) ids n (1 + length ds) cl uri (Some o) f final
          (Some <$> d0 :: ds) t' ∧
        serves (t_world t') [] ∧ idle t' ∧ t_code t' = 200.
Proof.
  intros Hsel Hf [Hne Hr] Hd Hch Hs Hi. unfold wsmc_action_enumerate_and_pull, wsmc_action_enumerate, action.
  destruct (enumerate_created 0 cl uri o f t sel Hsel Hf) as (doc & t1 & -> & Hw & _ & Hi1).
  cbn [mbind option_bind]. rewrite <- Hw in Hs.
  destruct (exchange_served doc t1 s0 ss Hs (Hi1 Hi) Hne) as (t2 & -> & Hs2 & Hi2 & Hc2).
  cbn [mbind option_bind]. rewrite Hr, Hc2. cbn [answered Z.eqb orb].
  apply (pull_loop_served cl uri o f sel ds ss n 1 _ final [Some d0] t2 Hsel Hd Hch Hs2 Hi2 Hc2).
Qed.

(** C23: an enumeration is complete: against a peer that answers the Enumerate
    and every Pull, each document but the last with a context, the callback gets
    all the documents of the peer, in order and once each, the loop ends after
    the last one, and the result is success. *)
Theorem enumeration_complete cl uri o f sel s0 d0 ss ds final t :
  header_selectors read_memory o = Some sel → (∀ f', f = Some f' → text_filter f') →
  holds s0 d0 → Forall2 holds ss ds → chained (wsmc_get_enum_context (Some d0)) ds final →
  final = None ∨ final = Some "" → serves (t_world t) (s0 :: ss) → idle t →
  ∃ t', wsmc_action_enumerate_and_pull read_memory auth_request_func (S fuel) ids (length ds) cl uri (Some o) f t =
          Some (1, Some <$> d0 :: ds, t') ∧ serves (t_world t') [] ∧ idle t'.
Proof.
  intros Hsel Hf H0 Hd Hch Hfin Hs Hi.
  destruct (enumerate_and_pull_served cl uri o f sel s0 d0 ss ds final 0 t Hsel Hf H0 Hd Hch Hs Hi)
    as (t' & E & Hs' & Hi' & _). rewrite Nat.add_0_r in E. exists t'. rewrite E. split; [|done].
  by destruct Hfin as [->| ->].
Qed.

(** An enumeration that breaks off is reported as complete: when the peer
    cannot be reached any more although its last document carried a context, the
    callback is called with a NULL document and the result is still success. *)
Theorem enumeration_broken_off cl uri o f sel s0 d0 ss ds c t :
  header_selectors read_memory o = Some sel → (∀ f', f = Some f' → text_filter f') →
  holds s0 d0 → Forall2 holds ss ds → chained (wsmc_get_enum_context (Some d0)) ds (Some c) → c ≠ "" →
  serves (t_world t) (s0 :: ss) → idle t →
  ∃ t', wsmc_action_enumerate_and_pull read_memory auth_request_func (S fuel) ids (length ds + 1) cl uri (Some o) f t =
          Some (1, (Some <$> d0 :: ds) ++ [None], t').
Proof.
  intros Hsel Hf H0 Hd Hch Hc Hs Hi.
  destruct (enumerate_and_pull_served cl uri o f sel s0 d0 ss ds (Some c) 1 t Hsel Hf H0 Hd Hch Hs Hi)
    as (t1 & -> & Hs1 & Hi1 & Hc1). cbn [pull_loop]. rewrite (proj2 (str_eqb_neq _ _) Hc). unfold wsmc_action_pull.
  destruct (pull_created (1 + length ds) cl uri o f c t1 sel Hsel) as (doc & t2 & -> & Hw & _ & Hi2).
  cbn [mbind option_bind]. rewrite <- Hw in Hs1.
  destruct (exchange_refused doc t2 Hs1 (Hi2 Hi1)) as [t3 ->]. cbn [mbind option_bind].
  rewrite Hc1. cbn [answered Z.eqb orb negb]. by exists t3.
Qed.
End Sessions.

(** ** Faults *)

Section FaultsRead.
Context {LX : Libxml2} {LL : Libxml2Laws}.
Context (ns_prefix : string → option string).

(** The reason of a fault. *)
Definition reason_text (r : string) : list xnode :=
  [ws_xml_add_node_attr (text_node (Some XML_NS_SOAP_1_2) SOAP_TEXT (Some r)) (Some XML_NS_XML_NAMESPACES) SOAP_LANG
     (Some "en")].

Lemma fault_reason_node uuid rqst f :
  child (child (ws_xml_get_soap_body (Some (wsman_create_fault_envelope ns_prefix uuid rqst f)))
    XML_NS_SOAP_1_2 SOAP_FAULT) XML_NS_SOAP_1_2 SOAP_REASON =
  (λ r, XElement (Some XML_NS_SOAP_1_2) SOAP_REASON [] (reason_text r)) <$> fd_reason f.
Proof.
  unfold wsman_create_fault_envelope. rewrite envelope_body. unfold fault_element.
  rewrite (empty_node (Some XML_NS_SOAP_1_2) SOAP_FAULT), !foldl_add_node, child_here. cbn [app].
  rewrite (empty_node (Some XML_NS_SOAP_1_2) SOAP_CODE), foldl_add_node.
  rewrite child_named, named_elem_ne, named_app by reflexivity.
  destruct (fd_reason f) as [r|].
  - rewrite (empty_node (Some XML_NS_SOAP_1_2) SOAP_REASON), foldl_add_node, named_elem_eq. cbn [app head fmap option_fmap option_map].
    unfold reason_text. destruct (text_node_named (Some XML_NS_SOAP_1_2) SOAP_TEXT (Some r)) as [c ->]. done.
  - rewrite named_nil. cbn [app]. destruct (fd_detail f); [|done].
    by rewrite (empty_node (Some XML_NS_SOAP_1_2) SOAP_DETAIL), foldl_add_node, named_elem_ne by reflexivity.
Qed.

Lemma reason_text_read ns nm p r :
  ws_xml_get_node_text (child (Some (XElement ns nm p (reason_text r))) XML_NS_SOAP_1_2 SOAP_TEXT) = Some r.
Proof.
  unfold reason_text. pose proof (new_node_text (Some XML_NS_SOAP_1_2) SOAP_TEXT r) as Ht.
  fold (text_node (Some XML_NS_SOAP_1_2) SOAP_TEXT (Some r)) in Ht.
  destruct (text_node_named (Some XML_NS_SOAP_1_2) SOAP_TEXT (Some r)) as [c E]. rewrite E in *.
  cbn [ws_xml_add_node_attr remove_attr app]. rewrite child_here. cbn [ws_xml_get_node_text mbind option_bind].
  by rewrite (content_of_children _ _ _ (Some XML_NS_SOAP_1_2) SOAP_TEXT []).
Qed.

(** A client reads from a fault of the server its code, its subcode and its
    reason, as the server wrote them. *)
Theorem client_reads_fault uuid rqst f old code :
  fd_code f = Some code →
  let d := Some (wsman_create_fault_envelope ns_prefix uuid rqst f) in
  let m := wsmc_get_fault_data d old in
  wsmc_check_for_fault d = true ∧
  mf_code m = Some (make_qname ns_prefix XML_NS_SOAP_1_2 code) ∧
  mf_subcode m = match fd_subCode f with
                 | Some (String a s) => Some (match fd_subCodeNs f with
                                              | Some u => make_qname ns_prefix u (String a s)
                                              | None => String a s
                                              end)
                 | _ => None
                 end ∧
  (mf_reason m = match fd_reason f with Some r => Some r | None => mf_reason old end).
Proof.
  intros Hc d m. pose proof (fault_document_is_fault ns_prefix uuid rqst f) as Hfault.
  pose proof (fault_document_code_text ns_prefix uuid rqst f code Hc) as Hcode.
  pose proof (fault_document_subcode_text ns_prefix uuid rqst f) as Hsub.
  destruct (fault_document_code ns_prefix uuid rqst f) as (c & rest & E & _).
  split; [exact Hfault|]. subst m. unfold wsmc_get_fault_data, wsmc_check_for_fault. change (wsman_is_fault_envelope d = true) in Hfault. rewrite Hfault. cbn [negb].
  unfold fault_code_text, fault_subcode_text, fault_code_node in *. fold d in E, Hcode, Hsub.
  pose proof (fault_reason_node uuid rqst f) as Hr. fold d in Hr.
  destruct (child (ws_xml_get_soap_body d) XML_NS_SOAP_1_2 SOAP_FAULT) as [n|] eqn:En; [|discriminate E].
  cbn [mf_code mf_subcode mf_reason]. rewrite Hcode, Hsub, E, Hr. split_and!; [done..|].
  destruct (fd_reason f) as [r|]; [|done]. apply reason_text_read.
Qed.
End FaultsRead.

(** ** Examples *)

Definition pull_response (ctx : option string) : xnode :=
  XElement (Some XML_NS_SOAP_1_2) SOAP_ENVELOPE []
    [XElement (Some XML_NS_SOAP_1_2) SOAP_HEADER [] [];
     XElement (Some XML_NS_SOAP_1_2) SOAP_BODY []
       [XElement (Some XML_NS_ENUMERATION) WSENUM_PULL_RESP []
          match ctx with
          | Some c => [XElement (Some XML_NS_ENUMERATION) WSENUM_ENUMERATION_CONTEXT [] [XOther c]]
          | None => []
          end]].

(** The texts ["more"] and ["last"] stand for two documents. *)
Definition sample_memory (s : string) : option xnode :=
  if str_eqb s "more" then Some (pull_response (Some "uuid:9"))
  else if str_eqb s "last" then Some (pull_response None) else None.

Definition scripted (l : list string) : transport script := Transport 0 None None 0 None 0 WS_LASTERR_OK None (0, l).

Lemma enumeration_complete_witness :
  ∃ t', @wsmc_action_enumerate_and_pull TreeXml script ScriptPeer sample_memory None 1 (λ _, "uuid:1") 1 sample_client
          (Some "urn:disk") (Some wsmc_options_init) None (scripted ["more"; "last"]) =
        Some (1, [Some (pull_response (Some "uuid:9")); Some (pull_response None)], t').
Proof.
  destruct (@enumeration_complete TreeXml TreeXmlLaws script ScriptPeer ScriptServes sample_memory None 0 (λ _, "uuid:1")
    sample_client (Some "urn:disk") wsmc_options_init None [] "more" (pull_response (Some "uuid:9")) ["last"]
    [pull_response None] None (scripted ["more"; "last"])) as (t' & E & _);
    [reflexivity|discriminate|by split|by repeat constructor|split; [by exists "uuid:9"|reflexivity]|by left|reflexivity|
     reflexivity|by exists t'].
Defined.

Lemma enumeration_broken_off_witness :
  ∃ t', @wsmc_action_enumerate_and_pull TreeXml script ScriptPeer sample_memory None 1 (λ _, "uuid:1") 1 sample_client
          (Some "urn:disk") (Some wsmc_options_init) None (scripted ["more"]) =
        Some (1, [Some (pull_response (Some "uuid:9")); None], t').
Proof.
  apply (@enumeration_broken_off TreeXml TreeXmlLaws script ScriptPeer ScriptServes sample_memory None 0 (λ _, "uuid:1")
    sample_client (Some "urn:disk") wsmc_options_init None [] "more" (pull_response (Some "uuid:9")) [] [] "uuid:9"
    (scripted ["more"])); [reflexivity|discriminate|by split|constructor|reflexivity|done|reflexivity|reflexivity].
Defined.

Lemma client_reads_fault_witness :
  mf_code (@wsmc_get_fault_data TreeXml (Some (@wsman_create_fault_envelope TreeXml (λ _, Some "s") "uuid:1" None
    (FaultDoc (Some "Sender") None None None (Some "refused") None))) wsmc_fault_new) = Some "s:Sender".
Proof.
  apply (@client_reads_fault TreeXml TreeXmlLaws (λ _, Some "s") "uuid:1" None
    (FaultDoc (Some "Sender") None None None (Some "refused") None) wsmc_fault_new "Sender" eq_refl).
Defined.
