(* ===== verification/Serializer.v ===== *)
(** * The serializer ([wsman-xml-serialize.c])

    Tables describe the C structures that are written to XML and read from it;
    an interpreter walks over a table and the memory at the same time.  Memory
    maps addresses to the objects that start there, and an address that was
    never written is zero; an object must be read with the type it was written
    with.  The sizes are those of an LP64 platform.  Tables for reals are not
    modelled.  [None] is an invalid access, an error code a value. *)

From S2P Require Import Prelude.
From S2P Require Import CString.
From S2P Require Import Names.
From S2P Require Import Xml.
From S2P Require Import Envelope.
From S2P Require Import Client.

#[local] Open Scope string_scope.
#[local] Open Scope list_scope.
#[local] Open Scope Z_scope.
#[local] Open Scope ow_scope.

Definition WS_ERR_INSUFFICIENT_RESOURCES : Z := -1.
Definition WS_ERR_INVALID_PARAMETER : Z := -2.
Definition WS_ERR_XML_PARSING : Z := -3.

Definition SER_IN : Z := 0x8000.
Definition SER_OUT : Z := 0x4000.
Definition SER_SKIP : Z := 0x2000.
Definition SER_HEAD : Z := 0x1000.
Definition SER_ATTRS : Z := 0x0800.

Inductive smode := XML_SMODE_SERIALIZE | XML_SMODE_DESERIALIZE | XML_SMODE_FREE_MEM | XML_SMODE_SKIP.

#[export] Instance smode_eq_dec : EqDecision smode.
Proof. solve_decision. Defined.

(** ** Tables *)

(** An entry of a table but its procedure. *)
Record hdr := Hdr {
  h_ns : option string;
  h_name : string;
  h_mincount : Z;
  h_count : Z;
  h_size : Z;
  h_flags : Z;
}.

(** A procedure with its external data: the entries of a structure, the entry
    of the elements of a dynamic array. *)
Inductive proc :=
  | do_serialize_uint_n (w : Z)
  | do_serialize_int_n (w : Z)
  | do_serialize_bool_p
  | do_serialize_string_p
  | do_serialize_struct_p (elements : list (hdr * proc))
  | do_serialize_dyn_p (h : hdr) (p : proc).

Definition XmlSerializerInfo : Type := hdr * proc.

Definition has_flag (f : Z) (h : hdr) : bool := negb (Z.land (h_flags h) f =? 0).

(** [DATA_ALL_SIZE], an unsigned product converted to [int]. *)
Definition all_size (h : hdr) : Z := sint 32 (h_size h * h_count h).

(** ** Memory *)

Record XML_NODE_ATTR := NodeAttr {
  na_ns : option string;
  na_name : option string;
  na_value : option string;
}.

(** A string is a pointer with the characters behind it. *)
Inductive cell :=
  | CInt (w n : Z)
  | CStr (s : option (Z * string))
  | CDyn (count data : Z)
  | CAttrs (l : list XML_NODE_ATTR).

(** [d_allocs] is the list of the serializer's allocations, [d_brk] the next
    free address. *)
Record sdata := SData {
  d_mem : gmap Z cell;
  d_brk : Z;
  d_allocs : list Z;
  d_buf : Z;
  d_stopper : Z;
  d_mode : smode;
  d_index : Z;
  d_node : option xnode;
}.

Definition set_buf (b : Z) (d : sdata) : sdata :=
  SData (d_mem d) (d_brk d) (d_allocs d) b (d_stopper d) (d_mode d) (d_index d) (d_node d).
Definition set_index (x : Z) (d : sdata) : sdata :=
  SData (d_mem d) (d_brk d) (d_allocs d) (d_buf d) (d_stopper d) (d_mode d) x (d_node d).
Definition set_node (n : option xnode) (d : sdata) : sdata :=
  SData (d_mem d) (d_brk d) (d_allocs d) (d_buf d) (d_stopper d) (d_mode d) (d_index d) n.
Definition set_mode (m : smode) (d : sdata) : sdata :=
  SData (d_mem d) (d_brk d) (d_allocs d) (d_buf d) (d_stopper d) m (d_index d) (d_node d).
Definition set_stopper (s : Z) (d : sdata) : sdata :=
  SData (d_mem d) (d_brk d) (d_allocs d) (d_buf d) s (d_mode d) (d_index d) (d_node d).
Definition store_cell (a : Z) (c : cell) (d : sdata) : sdata :=
  SData (<[a := c]> (d_mem d)) (d_brk d) (d_allocs d) (d_buf d) (d_stopper d) (d_mode d) (d_index d) (d_node d).

Definition round_up (al a : Z) : Z := let p := a mod al in if p =? 0 then 0 else al - p.
Definition get_struct_align : Z := 8.

(** [ws_serializer_alloc] and [ws_serializer_free], with blocks on multiples of
    sixteen. *)
Definition ws_serializer_alloc (size : Z) (d : sdata) : Z * sdata :=
  let a := d_brk d in
  (a, SData (d_mem d) (a + size + round_up 16 (a + size)) (d_allocs d ++ [a]) (d_buf d) (d_stopper d) (d_mode d)
        (d_index d) (d_node d)).

Fixpoint remove_first (a : Z) (l : list Z) : list Z :=
  match l with [] => [] | b :: l => if a =? b then l else b :: remove_first a l end.

Definition ws_serializer_free (a : Z) (d : sdata) : sdata :=
  if a =? 0 then d
  else SData (d_mem d) (d_brk d) (remove_first a (d_allocs d)) (d_buf d) (d_stopper d) (d_mode d) (d_index d) (d_node d).

Definition ws_serializer_free_all (d : sdata) : sdata :=
  SData (d_mem d) (d_brk d) [] (d_buf d) (d_stopper d) (d_mode d) (d_index d) (d_node d).

Fixpoint ws_havenilvalue (attrs : list XML_NODE_ATTR) : bool :=
  match attrs with
  | [] => false
  | a :: attrs =>
      match na_ns a, na_name a, na_value a with
      | Some ns, Some name, Some v =>
          if str_eqb ns XML_NS_SCHEMA_INSTANCE && str_eqb name XML_SCHEMA_NIL && strcase_eqb v "true" then true
          else ws_havenilvalue attrs
      | _, _, _ => ws_havenilvalue attrs
      end
  end.

Definition read_int (d : sdata) (signed : bool) (w : Z) : option Z :=
  match d_mem d !! d_buf d with
  | None => Some 0
  | Some (CInt w' n) => if w =? w' then Some (if signed then sint (8 * w) n else n) else None
  | Some _ => None
  end.

Definition read_str (d : sdata) : option (option (Z * string)) :=
  match d_mem d !! d_buf d with
  | None => Some None
  | Some (CStr s) => Some s
  | Some _ => None
  end.

Definition read_dyn (d : sdata) : option (Z * Z) :=
  match d_mem d !! d_buf d with
  | None => Some (0, 0)
  | Some (CDyn c p) => Some (c, p)
  | Some _ => None
  end.

(** ** Helpers *)

Section Serializer.
Context {LX : Libxml2}.

Definition must_be_skipped (h : hdr) (d : sdata) : bool :=
  match d_mode d with
  | XML_SMODE_SKIP => true
  | XML_SMODE_SERIALIZE => has_flag SER_OUT h
  | XML_SMODE_DESERIALIZE => has_flag SER_IN h
  | XML_SMODE_FREE_MEM => false
  end.

Definition xml_serializer_get_child (h : hdr) (d : sdata) : option xnode :=
  ws_xml_get_child (d_node d) (d_index d) (h_ns h) (Some (h_name h)).

(** The element that was made is added to the current one. *)
Definition add_child (n : xnode) (d : sdata) : sdata :=
  set_node ((λ p, add_node p n) <$> d_node d) d.

Definition nonempty (s : option string) : option string :=
  match s with Some s => if str_eqb s "" then None else Some s | None => None end.

Definition read_attr (n : xnode) (a : xattr) : XML_NODE_ATTR :=
  NodeAttr (nonempty (xa_ns a)) (nonempty (Some (xa_name a))) (nonempty (ws_xml_get_attr_value n a)).

Fixpoint add_attrs (l : list XML_NODE_ATTR) (n : xnode) : xnode :=
  match l with
  | [] => n
  | a :: l => match na_name a with
              | Some name => add_attrs l (ws_xml_add_node_attr n (na_ns a) name (na_value a))
              | None => n
              end
  end.

(** A record of four pointers for an attribute, and a copy of each of its texts
    that is there and not empty. *)
Definition alloc_text (s : option string) (d : sdata) : sdata :=
  match nonempty s with Some s => (ws_serializer_alloc (1 + Z.of_nat (String.length s)) d).2 | None => d end.

Definition alloc_attr (n : xnode) (d : sdata) (a : xattr) : sdata :=
  alloc_text (ws_xml_get_attr_value n a) (alloc_text (Some (xa_name a)) (alloc_text (xa_ns a) (ws_serializer_alloc 32 d).2)).

(** The attributes of an element of [sz] bytes: the list is at the next
    multiple of eight and is built from its end.  Nothing is freed. *)
Definition handle_attrs (h : hdr) (sz : Z) (child : option xnode) (d : sdata) : option (option xnode * sdata) :=
  if negb (has_flag SER_ATTRS h) then Some (child, d)
  else
    let a := d_buf d + sz + round_up 8 (d_buf d + sz) in
    match d_mode d, child with
    | XML_SMODE_SERIALIZE, Some n =>
        match d_mem d !! a with
        | None => Some (child, d)
        | Some (CAttrs l) => Some (Some (add_attrs l n), d)
        | Some _ => None
        end
    | XML_SMODE_DESERIALIZE, Some n =>
        Some (child, store_cell a (CAttrs (rev (read_attr n <$> x_props n))) (foldl (alloc_attr n) d (x_props n)))
    | _, _ => Some (child, d)
    end.

(** *** Numbers *)

(** [ws_xml_set_node_ulong] and [ws_xml_set_node_long] have twelve bytes. *)
Definition node_number (v : Z) : option string :=
  let s := print_int v in if (String.length s <? 12)%nat then Some s else None.

Definition starts_minus (s : string) : bool :=
  match s with String a _ => code a =? 45 | EmptyString => false end.

(** What is read from an element: an error, nothing (the element is nil), or a
    number.  Only the small sizes are checked. *)
Definition parse_number (signed : bool) (w : Z) (child : xnode) : Z + option Z :=
  match ws_xml_get_node_text (Some child) with
  | None => inl WS_ERR_XML_PARSING
  | Some text =>
      let str := skip_space text in
      if str_eqb str "" || (negb signed && starts_minus str) then
        if ws_xml_find_attr_bool (Some child) (Some XML_NS_SCHEMA_INSTANCE) XML_SCHEMA_NIL
        then inr None else inl WS_ERR_XML_PARSING
      else
        match scan_int str with
        | None => inl WS_ERR_XML_PARSING
        | Some (tmp, e) =>
            if (if signed then (2 ^ 63 - 1 <? tmp) || (tmp <? - 2 ^ 63) else 2 ^ 64 - 1 <? tmp) then inl WS_ERR_XML_PARSING
            else if negb (str_eqb (skip_space e) "") then inl WS_ERR_XML_PARSING
            else if (w <=? 2) &&
                    (if signed then (2 ^ (8 * w - 1) - 1 <? tmp) || (tmp <? - 2 ^ (8 * w - 1)) else 2 ^ (8 * w) - 1 <? tmp)
            then inl WS_ERR_XML_PARSING
            else inr (Some (wrap (8 * w) tmp))
        end
  end.

(** After the last element: there must not be another one. *)
Definition end_of_elements (h : hdr) (ret : Z) (d : sdata) : Z * sdata :=
  if decide (d_mode d = XML_SMODE_DESERIALIZE) then
    match xml_serializer_get_child h d with
    | Some _ => (WS_ERR_XML_PARSING, d)
    | None => (ret, d)
    end
  else (ret, d).

Definition next_element (h : hdr) (d : sdata) : sdata := set_index (d_index d + 1) (set_buf (d_buf d + h_size h) d).

Fixpoint num_loop (k : nat) (signed : bool) (w : Z) (h : hdr) (ret : Z) (d : sdata) : option (Z * sdata) :=
  match k with
  | O => Some (end_of_elements h ret d)
  | S k =>
      match d_mode d with
      | XML_SMODE_SERIALIZE =>
          v ← read_int d signed w;
          match node_number v with
          | None => Some (WS_ERR_INSUFFICIENT_RESOURCES, add_child (text_node (h_ns h) (h_name h) None) d)
          | Some t =>
              handle_attrs h w (Some (text_node (h_ns h) (h_name h) (Some t))) d ≫= λ '(child, d),
              n ← child;
              num_loop k signed w h ret (next_element h (add_child n d))
          end
      | XML_SMODE_DESERIALIZE =>
          match xml_serializer_get_child h d with
          | None => Some (WS_ERR_XML_PARSING, d)
          | Some child =>
              match parse_number signed w child with
              | inl e => Some (e, d)
              | inr v =>
                  let d := match v with Some n => store_cell (d_buf d) (CInt w n) d | None => d end in
                  handle_attrs h w (Some child) d ≫= λ '(_, d),
                  num_loop k signed w h ret (next_element h d)
              end
          end
      | _ => Some (WS_ERR_INVALID_PARAMETER, d)
      end
  end.

(** What the functions for signed and unsigned numbers share. *)
Definition do_serialize_number (signed : bool) (w : Z) (h : hdr) (d : sdata) : option (Z * sdata) :=
  let ret := all_size h in
  if d_stopper d <? d_buf d + ret then Some (WS_ERR_INVALID_PARAMETER, d)
  else if must_be_skipped h d || bool_decide (d_mode d = XML_SMODE_FREE_MEM) then Some (ret, set_buf (d_buf d + ret) d)
  else num_loop (Z.to_nat (h_count h)) signed w h ret (set_index 0 d).

Definition do_serialize_int (w : Z) : hdr → sdata → option (Z * sdata) := do_serialize_number true w.
Definition do_serialize_uint (w : Z) : hdr → sdata → option (Z * sdata) := do_serialize_number false w.

(** The wrappers for each size: a single byte is aligned only when it has
    attributes, and then the padding is not counted. *)
Definition do_serialize_sized (signed : bool) (w : Z) (h : hdr) (d : sdata) : option (Z * sdata) :=
  let al := if has_flag SER_ATTRS h then get_struct_align else w in
  let pad := round_up al (d_buf d) in
  '(ret, d) ← (if signed then do_serialize_int w else do_serialize_uint w) h (set_buf (d_buf d + pad) d);
  Some (if (0 <=? ret) && negb (w =? 1) then ret + pad else ret, d).

(** *** Booleans *)

Definition parse_bool (text : option string) : option Z :=
  let tmp :=
    match text with
    | None => 1
    | Some src =>
        if str_eqb src "" then 1
        else if starts_digit src then atoi src
        else if str_eqb src "yes" || str_eqb src "true" then 1
        else if str_eqb src "no" || str_eqb src "false" then 0
        else -1
    end in
  if (tmp =? 0) || (tmp =? 1) then Some tmp else None.

Fixpoint bool_loop (k : nat) (h : hdr) (ret : Z) (d : sdata) : option (Z * sdata) :=
  match k with
  | O => Some (end_of_elements h ret d)
  | S k =>
      match d_mode d with
      | XML_SMODE_SERIALIZE =>
          v ← read_int d true 4;
          handle_attrs h 4 (Some (text_node (h_ns h) (h_name h) (Some (if v =? 0 then "false" else "true")))) d
            ≫= λ '(child, d), n ← child; bool_loop k h ret (next_element h (add_child n d))
      | XML_SMODE_DESERIALIZE =>
          match xml_serializer_get_child h d with
          | None => Some (WS_ERR_XML_PARSING, d)
          | Some child =>
              match parse_bool (ws_xml_get_node_text (Some child)) with
              | None => Some (WS_ERR_XML_PARSING, d)
              | Some v =>
                  handle_attrs h 4 (Some child) (store_cell (d_buf d) (CInt 4 v) d) ≫= λ '(_, d),
                  bool_loop k h ret (next_element h d)
              end
          end
      | _ => Some (WS_ERR_INVALID_PARAMETER, d)
      end
  end.

Definition do_serialize_bool (h : hdr) (d : sdata) : option (Z * sdata) :=
  let pad := round_up (if has_flag SER_ATTRS h then get_struct_align else 4) (d_buf d) in
  let ret := all_size h + pad in
  if d_stopper d <? d_buf d + ret then Some (WS_ERR_INVALID_PARAMETER, d)
  else if must_be_skipped h d || bool_decide (d_mode d = XML_SMODE_FREE_MEM) then Some (ret, set_buf (d_buf d + ret) d)
  else bool_loop (Z.to_nat (h_count h)) h ret (set_index 0 (set_buf (d_buf d + pad) d)).

(** *** Strings *)

Definition nil_if_no_text (n : xnode) : xnode :=
  match ws_xml_get_node_text (Some n) with
  | None => ws_xml_add_node_attr n (Some XML_NS_SCHEMA_INSTANCE) XML_SCHEMA_NIL (Some "true")
  | Some _ => n
  end.

Fixpoint str_loop (k : nat) (h : hdr) (ret : Z) (d : sdata) : option (Z * sdata) :=
  match k with
  | O => Some (end_of_elements h ret d)
  | S k =>
      match d_mode d with
      | XML_SMODE_FREE_MEM =>
          read_str d ≫= λ s : option (Z * string),
          let d := match s with Some (a, _) => ws_serializer_free a d | None => d end in
          str_loop k h ret (next_element h (store_cell (d_buf d) (CStr None) d))
      | XML_SMODE_SERIALIZE =>
          read_str d ≫= λ s : option (Z * string),
          handle_attrs h 8 (Some (nil_if_no_text (text_node (h_ns h) (h_name h) (snd <$> s)))) d ≫= λ '(child, d),
          n ← child; str_loop k h ret (next_element h (add_child n d))
      | XML_SMODE_DESERIALIZE =>
          match xml_serializer_get_child h d with
          | None => Some (WS_ERR_XML_PARSING, d)
          | Some child =>
              let d := match nonempty (ws_xml_get_node_text (Some child)) with
                       | Some src =>
                           let '(a, d) := ws_serializer_alloc (1 + Z.of_nat (String.length src)) d in
                           store_cell (d_buf d) (CStr (Some (a, src))) d
                       | None => d
                       end in
              handle_attrs h 8 (Some child) d ≫= λ '(_, d), str_loop k h ret (next_element h d)
          end
      | XML_SMODE_SKIP => Some (WS_ERR_INVALID_PARAMETER, d)
      end
  end.

Definition do_serialize_string (h : hdr) (d : sdata) : option (Z * sdata) :=
  let pad := round_up 8 (d_buf d) in
  let ret := all_size h + pad in
  if d_stopper d <? d_buf d + ret then Some (WS_ERR_INVALID_PARAMETER, d)
  else if must_be_skipped h d then Some (ret, set_buf (d_buf d + ret) d)
  else str_loop (Z.to_nat (h_count h)) h ret (set_index 0 (set_buf (d_buf d + pad) d)).

(** *** Structures *)

(** The elements of one structure, with the interpreter for each.  The mode that
    a skipped element sets is that of all the elements after it. *)
Fixpoint struct_fields (run : list (hdr * (sdata → option (Z * sdata)))) (d : sdata) : option (Z * sdata) :=
  match run with
  | [] => Some (0, d)
  | (h, f) :: run =>
      '(tmp, d) ← f (if has_flag SER_SKIP h then set_mode XML_SMODE_SKIP d else d);
      if tmp <? 0 then Some (tmp, d) else struct_fields run d
  end.

(** One structure at [d_buf]: its element, its fields, its attributes. *)
Definition struct_one (fields : sdata → option (Z * sdata)) (h : hdr) (ret : Z) (d : sdata)
  : option (Z * sdata) :=
  let start := d_buf d in
  let restore d' :=
    set_index (d_index d) (set_mode (d_mode d) (set_stopper (d_stopper d) d')) in
  let inside n := set_stopper (start + h_size h) (set_node n d) in
  let body n := if 0 <? ret then fields (inside n) else Some (0, inside n) in
  match d_mode d with
  | XML_SMODE_SERIALIZE =>
      body (Some (text_node (h_ns h) (h_name h) None)) ≫= λ '(tmp, d'),
      child ← d_node d';
      let d' := set_node (d_node d) (restore d') in
      if tmp <? 0 then Some (tmp, add_child child d')
      else
        handle_attrs h 0 (Some child) d' ≫= λ '(child, d'),
        n ← child; Some (ret, set_buf (start + h_size h) (add_child n d'))
  | XML_SMODE_DESERIALIZE =>
      match xml_serializer_get_child h d with
      | None => Some (WS_ERR_XML_PARSING, d)
      | child =>
          body child ≫= λ '(tmp, d'),
          let d' := set_node (d_node d) (restore d') in
          if tmp <? 0 then Some (tmp, d')
          else
            handle_attrs h 0 child d' ≫= λ '(_, d'), Some (ret, set_buf (start + h_size h) d')
      end
  | _ =>
      body (d_node d) ≫= λ '(tmp, d'),
      let d' := set_node (d_node d) (restore d') in
      if tmp <? 0 then Some (tmp, d') else Some (ret, set_buf (start + h_size h) d')
  end.

Fixpoint struct_loop (k : nat) (fields : sdata → option (Z * sdata)) (h : hdr) (ret : Z) (d : sdata)
  : option (Z * sdata) :=
  match k with
  | O => Some (ret, d)
  | S k =>
      '(r, d) ← struct_one fields h ret d;
      if r <? 0 then Some (r, d) else struct_loop k fields h ret (set_index (d_index d + 1) d)
  end.

(** The condition is [pad + HEAD ? size : all_size]. *)
Definition do_serialize_struct (fields : sdata → option (Z * sdata)) (h : hdr) (d : sdata) : option (Z * sdata) :=
  let pad := round_up get_struct_align (d_buf d) in
  let head := has_flag SER_HEAD h in
  let ret := if negb (pad =? 0) || head then sint 32 (h_size h) else all_size h in
  if decide (d_mode d = XML_SMODE_SKIP) then Some (WS_ERR_INVALID_PARAMETER, d)
  else if d_stopper d <? d_buf d + ret then Some (WS_ERR_INVALID_PARAMETER, d)
  else if must_be_skipped h d then Some (ret, set_buf (d_buf d + ret) d)
  else
    let d0 := set_buf (d_buf d + pad) d in
    '(r, d') ← (if head then struct_loop 1 fields h ret d0
                else struct_loop (Z.to_nat (h_count h)) fields h ret (set_index 0 d0));
    Some (r, set_index (d_index d) d').

(** *** Dynamic arrays *)

Definition set_element (h e : hdr) (count : Z) : hdr :=
  Hdr (h_ns h) (h_name h) (h_mincount e) count (h_size e) (h_flags e).

Definition count_ok (h : hdr) (count : Z) : bool :=
  negb (count <? h_mincount h) && negb ((0 <? h_count h) && (h_count h <? count)).

(** The number of elements of a name. *)
Definition child_count (h : hdr) (d : sdata) : Z :=
  Z.of_nat (length (children (d_node d) (h_ns h) (Some (h_name h)))).

(** The block has the size of the array's header for each element. *)
Definition make_dyn_size_data (h : hdr) (d : sdata) : option (Z * Z * sdata) * Z * sdata :=
  let count := child_count h d in
  let d' := store_cell (d_buf d) (CDyn count 0) d in
  if negb (count_ok h count) then (None, WS_ERR_XML_PARSING, d')
  else if count =? 0 then (Some (0, 0, d'), 0, d')
  else
    let '(a, d') := ws_serializer_alloc (h_size h * count) d' in
    let d' := store_cell (d_buf d') (CDyn count a) d' in
    (Some (count, a, d'), 0, d').

Definition dyn_elements (element : hdr → sdata → option (Z * sdata)) (h e : hdr) (ret count data : Z) (d : sdata)
  : option (Z * sdata) :=
  if count =? 0 then Some (ret, d)
  else
    '(tmp, d') ← element (set_element h e count)
                   (set_index 0 (set_buf data (set_stopper (data + h_size h * count) d)));
    let d' := set_index (d_index d) (set_buf (d_buf d) (set_stopper (d_stopper d) d')) in
    if (tmp <? 0) && negb (bool_decide (d_mode d = XML_SMODE_FREE_MEM)) then Some (tmp, d')
    else if bool_decide (d_mode d = XML_SMODE_FREE_MEM) then Some (ret, ws_serializer_free data d')
    else Some (ret, d').

(** Every way out adds the size of the array's header, a skipped array's too. *)
Definition do_serialize_dyn_size_array (element : hdr → sdata → option (Z * sdata)) (h e : hdr) (d : sdata)
  : option (Z * sdata) :=
  let pad := round_up 8 (d_buf d) in
  let ret := h_size h + pad in
  let done_ r d := Some (r, set_buf (d_buf d + h_size h) d) in
  if d_stopper d <? d_buf d + ret then done_ WS_ERR_INVALID_PARAMETER d
  else if must_be_skipped h d then done_ ret (set_buf (d_buf d + ret) d)
  else
    let d := set_buf (d_buf d + pad) d in
    '(r, d) ←
      match d_mode d with
      | XML_SMODE_DESERIALIZE =>
          let '(dyn, err, d) := make_dyn_size_data h d in
          match dyn with
          | None => Some (err, d)
          | Some (count, data, d) => dyn_elements element h e ret count data d
          end
      | XML_SMODE_SERIALIZE =>
          '(count, data) ← read_dyn d;
          if negb (count_ok h count) then Some (WS_ERR_XML_PARSING, d) else dyn_elements element h e ret count data d
      | _ => '(count, data) ← read_dyn d; dyn_elements element h e ret count data d
      end;
    done_ r d.

(** ** The interpreter *)

Fixpoint do_proc (p : proc) (h : hdr) (d : sdata) {struct p} : option (Z * sdata) :=
  match p with
  | do_serialize_uint_n w => do_serialize_sized false w h d
  | do_serialize_int_n w => do_serialize_sized true w h d
  | do_serialize_bool_p => do_serialize_bool h d
  | do_serialize_string_p => do_serialize_string h d
  | do_serialize_struct_p elements =>
      do_serialize_struct
        (struct_fields
           ((fix runs (l : list (hdr * proc)) : list (hdr * (sdata → option (Z * sdata))) :=
               match l with [] => [] | (h, p) :: l => (h, do_proc p h) :: runs l end) elements)) h d
  | do_serialize_dyn_p e p => do_serialize_dyn_size_array (do_proc p) h e d
  end.

Definition set_name (name : string) (ns : option string) (h : hdr) : hdr :=
  Hdr ns name (h_mincount h) (h_count h) (h_size h) (Z.lor (h_flags h) SER_HEAD).

Definition ws_serialize (m : gmap Z cell) (brk : Z) (allocs : list Z) (xmlNode : xnode) (dataPtr : Z)
    (info : XmlSerializerInfo) (name : string) (ns : option string) : option (Z * sdata) :=
  let h := set_name name ns info.1 in
  do_proc info.2 h (SData m brk allocs dataPtr (dataPtr + h_size h) XML_SMODE_SERIALIZE 0 (Some xmlNode)).

Definition ws_serializer_free_mem (buf : Z) (info : XmlSerializerInfo) (d : sdata) : option (Z * sdata) :=
  let h := set_name (h_name info.1) (h_ns info.1) info.1 in
  '(r, d) ← do_proc info.2 h
              (SData (d_mem d) (d_brk d) (d_allocs d) buf (buf + h_size h) XML_SMODE_FREE_MEM 0 None);
  Some (r, if 0 <=? r then ws_serializer_free buf d else d).

(** The address of what was read, if it could be. *)
Definition ws_deserialize (m : gmap Z cell) (brk : Z) (allocs : list Z) (xmlParent : xnode) (info : XmlSerializerInfo)
    (name : string) (ns : option string) (index : Z) : option (option Z * sdata) :=
  let h := set_name name ns info.1 in
  let '(a, d) := ws_serializer_alloc (h_size h)
                   (SData m brk allocs 0 0 XML_SMODE_DESERIALIZE index (Some xmlParent)) in
  '(r, d) ← do_proc info.2 h (set_stopper (a + h_size h) (set_buf a d));
  if r <=? 0 then '(_, d) ← ws_serializer_free_mem a (h, info.2) d; Some (None, d) else Some (Some a, d).
End Serializer.
