(* ===== verification/SerializerProofs.v ===== *)
(** * Properties of the serializer

    Numbers and how they are read, arrays of numbers from memory to XML and
    back, and the tables the interpreter cannot handle. *)

From S2P Require Import Prelude.
From S2P Require Import CString.
From S2P Require Import Names.
From S2P Require Import Xml.
From S2P Require Import Envelope.
From S2P Require Import Client.
From S2P Require Import Serializer.

#[local] Open Scope string_scope.
#[local] Open Scope list_scope.
#[local] Open Scope Z_scope.
#[local] Open Scope ow_scope.

(** ** Numbers *)

Section Numbers.
Context {LX : Libxml2} {LL : Libxml2Laws}.

Lemma print_int_plain v :
  skip_space (print_int v) = print_int v ∧ str_eqb (print_int v) "" = false ∧
  starts_minus (print_int v) = (v <? 0) ∧ scan_int (print_int v) = Some (v, "").
Proof.
  unfold print_int. destruct (Z.ltb_spec v 0) as [Hv|Hv].
  - destruct (print_nat_scan (- v) "" ltac:(lia) eq_refl) as [E Hs]. rewrite str_app_nil in *.
    split_and!; [done..|].
    unfold scan_int. match goal with |- context [String ?c _] => set (m := c) end.
    assert (Hm : isspace m = false ∧ (code m =? 45) = true) by done. destruct Hm as [Hm1 Hm2]. clearbody m.
    cbn [skip_space]. rewrite Hm1. cbn [scan_sign]. rewrite Hm2, Hs, E. do 2 f_equal. lia.
  - pose proof (scan_int_print v "" Hv eq_refl) as E. destruct (print_nat_scan v "" Hv eq_refl) as [_ Hs].
    rewrite str_app_nil in *. destruct (starts_digit_plain _ Hs) as [Hsp _]. split_and!; [done| | |done].
    + by destruct (print_nat v).
    + destruct (print_nat v) as [|a t]; [done|]. cbn in *. unfold isdigit in Hs.
      apply andb_prop in Hs as [Hs _]. apply Z.leb_le in Hs. apply Z.eqb_neq. lia.
Qed.

Definition in_range (signed : bool) (w v : Z) : bool :=
  if signed then (- 2 ^ (8 * w - 1) <=? v) && (v <=? 2 ^ (8 * w - 1) - 1) else (0 <=? v) && (v <=? 2 ^ (8 * w) - 1).

(** What is read from the decimal text of a number. *)
Lemma parse_number_print ns name signed w v :
  w = 1 ∨ w = 2 ∨ w = 4 ∨ w = 8 →
  parse_number signed w (text_node ns name (Some (print_int v))) =
  if in_range signed (if w <=? 2 then w else 8) v then inr (Some (wrap (8 * w) v)) else inl WS_ERR_XML_PARSING.
Proof.
  intros Hw. unfold parse_number.
  assert (Ht : ws_xml_get_node_text (Some (text_node ns name (Some (print_int v)))) = Some (print_int v))
    by (cbn [ws_xml_get_node_text mbind option_bind]; apply new_node_text).
  rewrite Ht. destruct (print_int_plain v) as (-> & -> & -> & ->). cbn [orb].
  change (str_eqb (skip_space "") "") with true. cbn [negb].
  assert (Hnil : ws_xml_find_attr_bool (Some (text_node ns name (Some (print_int v))))
     (Some XML_NS_SCHEMA_INSTANCE) XML_SCHEMA_NIL = false)
    by (destruct (text_node_named ns name (Some (print_int v))) as [c ->]; reflexivity).
  rewrite Hnil. unfold in_range.
  assert (Hwb : (w <=? 2) = true ∧ 8 * (if w <=? 2 then w else 8) = 8 * w ∨
                (w <=? 2) = false ∧ 8 * (if w <=? 2 then w else 8) = 64).
  { destruct Hw as [->|[->|[->| ->]]]; [left|left|right|right]; done. }
  assert (Hp : (w <=? 2) = true → 2 ^ (8 * w) ≤ 2 ^ 16 ∧ 2 ^ (8 * w - 1) ≤ 2 ^ 15).
  { intros Hle%Z.leb_le. split; apply Z.pow_le_mono_r; lia. }
  change (2 ^ 16) with 65536 in Hp. change (2 ^ 15) with 32768 in Hp.
  destruct signed; cbn [negb andb].
  - destruct Hwb as [[Hw1 ->]|[Hw1 ->]]; rewrite Hw1; cbn [andb].
    + specialize (Hp Hw1). generalize dependent (2 ^ (8 * w - 1)). intros q Hp.
      destruct (Z.ltb_spec (2 ^ 63 - 1) v), (Z.ltb_spec v (- 2 ^ 63)), (Z.ltb_spec (q - 1) v), (Z.ltb_spec v (- q)),
        (Z.leb_spec (- q) v), (Z.leb_spec v (q - 1)); cbn; (done || lia).
    + change (64 - 1) with 63.
      destruct (Z.ltb_spec (2 ^ 63 - 1) v), (Z.ltb_spec v (- 2 ^ 63)),
        (Z.leb_spec (- 2 ^ 63) v), (Z.leb_spec v (2 ^ 63 - 1)); cbn; (done || lia).
  - destruct (Z.ltb_spec v 0).
    { rewrite (proj2 (Z.leb_gt 0 v)) by lia. done. }
    rewrite (proj2 (Z.leb_le 0 v)) by lia. cbn [andb].
    destruct Hwb as [[Hw1 ->]|[Hw1 ->]]; rewrite Hw1; cbn [andb].
    + specialize (Hp Hw1). generalize dependent (2 ^ (8 * w)). intros q Hp.
      destruct (Z.ltb_spec (2 ^ 64 - 1) v), (Z.ltb_spec (q - 1) v), (Z.leb_spec v (q - 1)); cbn; (done || lia).
    + destruct (Z.ltb_spec (2 ^ 64 - 1) v), (Z.leb_spec v (2 ^ 64 - 1)); cbn; (done || lia).
Qed.

(** The number an object stands for, and its element. *)
Definition num_value (signed : bool) (w n : Z) : Z := if signed then sint (8 * w) n else n.
Definition num_node (signed : bool) (w : Z) (h : hdr) (n : Z) : xnode :=
  text_node (h_ns h) (h_name h) (node_number (num_value signed w n)).

(** Objects of [w] bytes that can be printed. *)
Definition printable (signed : bool) (w n : Z) : Prop :=
  0 ≤ n < 2 ^ (8 * w) ∧ is_Some (node_number (num_value signed w n)).

Lemma num_loop_serialize signed w h ret vs : ∀ d P,
  has_flag SER_ATTRS h = false → d_mode d = XML_SMODE_SERIALIZE → d_node d = Some P →
  Forall (printable signed w) vs →
  (∀ j n, vs !! j = Some n → d_mem d !! (d_buf d + Z.of_nat j * h_size h) = Some (CInt w n)) →
  num_loop (length vs) signed w h ret d =
  Some (ret, set_index (d_index d + Z.of_nat (length vs)) (set_buf (d_buf d + Z.of_nat (length vs) * h_size h)
         (set_node (Some (foldl add_node P (num_node signed w h <$> vs))) d))).
Proof.
  induction vs as [|n vs IH]; intros d P Ha Hm Hn Hp Hc.
  - cbn [length num_loop fmap list_fmap foldl]. unfold end_of_elements. rewrite decide_False by (by rewrite Hm).
    rewrite !Z.add_0_r. destruct d. cbn in *. by subst.
  - apply Forall_cons in Hp as [[Hr [t Ht]] Hp]. cbn [length num_loop]. rewrite Hm.
    pose proof (Hc O n eq_refl) as H0. rewrite Z.add_0_r in H0. unfold read_int. rewrite H0, Z.eqb_refl.
    cbn [mbind option_bind]. fold (num_value signed w n). rewrite Ht. unfold handle_attrs. rewrite Ha.
    cbn [negb mbind option_bind].
    rewrite (IH _ (add_node P (num_node signed w h n))); [|done|done| |done|].
    + unfold next_element, add_child. cbn. unfold num_node. rewrite Ht. cbn [fmap list_fmap foldl].
      replace (d_index d + 1 + Z.of_nat (length vs)) with (d_index d + Z.pos (Pos.of_succ_nat (length vs))) by lia.
      by replace (d_buf d + h_size h + Z.of_nat (length vs) * h_size h)
        with (d_buf d + Z.pos (Pos.of_succ_nat (length vs)) * h_size h) by lia.
    + cbn. rewrite Hn. unfold num_node. by rewrite Ht.
    + intros j m Hj. specialize (Hc (S j) m Hj). cbn.
      by replace (d_buf d + h_size h + Z.of_nat j * h_size h) with (d_buf d + Z.of_nat (S j) * h_size h) by lia.
Qed.

Fixpoint store_all (w size a : Z) (vs : list Z) (m : gmap Z cell) : gmap Z cell :=
  match vs with [] => m | n :: vs => store_all w size (a + size) vs (<[a := CInt w n]> m) end.

Definition with_mem (m : gmap Z cell) (d : sdata) : sdata :=
  SData m (d_brk d) (d_allocs d) (d_buf d) (d_stopper d) (d_mode d) (d_index d) (d_node d).

Lemma sint_wrap w n : 0 < w → 0 ≤ n < 2 ^ w → wrap w (sint w n) = n ∧ - 2 ^ (w - 1) ≤ sint w n ≤ 2 ^ (w - 1) - 1.
Proof.
  intros Hw Hn. unfold sint, wrap. assert (E : 2 ^ w = 2 * 2 ^ (w - 1)).
  { rewrite <- Z.pow_succ_r by lia. f_equal. lia. }
  assert (0 < 2 ^ (w - 1)) by (apply Z.pow_pos_nonneg; lia).
  pose proof (Z.mod_pos_bound (n + 2 ^ (w - 1)) (2 ^ w) ltac:(lia)). split; [|lia].
  rewrite <- Zminus_mod_idemp_l, Zmod_mod, Zminus_mod_idemp_l. replace (n + 2 ^ (w - 1) - 2 ^ (w - 1)) with n by lia.
  by apply Z.mod_small.
Qed.

Lemma parse_num_node signed w h n :
  w = 1 ∨ w = 2 ∨ w = 4 ∨ w = 8 → printable signed w n → parse_number signed w (num_node signed w h n) = inr (Some n).
Proof.
  intros Hw [Hn [t Ht]]. unfold num_node. pose proof Ht as Ht'. unfold node_number in Ht'.
  destruct (_ <? 12)%nat; [|done]. injection Ht' as <-. rewrite Ht, parse_number_print by done.
  assert (Hv : wrap (8 * w) (num_value signed w n) = n ∧ in_range signed w (num_value signed w n) = true ∧
               in_range signed 8 (num_value signed w n) = true).
  { unfold num_value, in_range. assert (Hw8 : 0 < 8 * w ≤ 64) by lia. destruct signed.
    - destruct (sint_wrap (8 * w) n ltac:(lia) Hn) as [-> Hb].
      assert (2 ^ (8 * w - 1) ≤ 2 ^ (8 * 8 - 1)) by (apply Z.pow_le_mono_r; lia).
      split_and!; [done|apply andb_true_intro; split; apply Z.leb_le; lia..].
    - rewrite wrap_small by done. assert (2 ^ (8 * w) ≤ 2 ^ (8 * 8)) by (apply Z.pow_le_mono_r; lia).
      split_and!; [done|apply andb_true_intro; split; apply Z.leb_le; lia..]. }
  destruct Hv as (-> & H1 & H2). by destruct (w <=? 2); rewrite ?H1, ?H2.
Qed.

Lemma num_loop_deserialize signed w h ret vs : ∀ d P pre,
  w = 1 ∨ w = 2 ∨ w = 4 ∨ w = 8 →
  has_flag SER_ATTRS h = false → d_mode d = XML_SMODE_DESERIALIZE → d_node d = Some P →
  Forall (printable signed w) vs →
  matching (h_ns h) (Some (h_name h)) P = pre ++ (num_node signed w h <$> vs) → d_index d = Z.of_nat (length pre) →
  num_loop (length vs) signed w h ret d =
  Some (ret, set_index (d_index d + Z.of_nat (length vs)) (set_buf (d_buf d + Z.of_nat (length vs) * h_size h)
         (with_mem (store_all w (h_size h) (d_buf d) vs (d_mem d)) d))).
Proof.
  induction vs as [|n vs IH]; intros d P pre Hw Ha Hm Hn Hp Hmatch Hi.
  - cbn [length num_loop store_all]. unfold end_of_elements. rewrite decide_True by done.
    unfold xml_serializer_get_child. rewrite Hn, ws_xml_get_child_matching by lia. rewrite Hmatch, Hi, Nat2Z.id.
    cbn [fmap list_fmap]. rewrite app_nil_r, lookup_ge_None_2 by lia. rewrite !Z.add_0_r. destruct d. cbn in *. by subst.
  - apply Forall_cons in Hp as [Hpn Hp]. cbn [length num_loop store_all]. rewrite Hm.
    unfold xml_serializer_get_child. rewrite Hn, ws_xml_get_child_matching by lia. rewrite Hmatch, Hi, Nat2Z.id.
    rewrite lookup_app_r, Nat.sub_diag by lia. cbn [fmap list_fmap lookup list_lookup].
    rewrite parse_num_node by done. unfold handle_attrs. rewrite Ha. cbn [negb mbind option_bind].
    rewrite (IH (next_element h (store_cell (d_buf d) (CInt w n) d)) P (pre ++ [num_node signed w h n])); [|done..| |].
    + unfold next_element, with_mem, set_index, set_buf. cbn.
      replace (d_index d + 1 + Z.of_nat (length vs)) with (Z.of_nat (length pre) + Z.pos (Pos.of_succ_nat (length vs))) by lia.
      by replace (d_buf d + h_size h + Z.of_nat (length vs) * h_size h)
        with (d_buf d + Z.pos (Pos.of_succ_nat (length vs)) * h_size h) by lia.
    + cbn [fmap list_fmap] in Hmatch. by rewrite Hmatch, <- app_assoc.
    + cbn. rewrite Hi, length_app. cbn. lia.
Qed.

Lemma store_all_other w size vs : ∀ a m b, 0 < size → b < a → store_all w size a vs m !! b = m !! b.
Proof.
  induction vs as [|n vs IH]; intros a m b Hs Hb; [done|]. cbn [store_all]. rewrite IH by lia.
  by rewrite lookup_insert_ne by lia.
Qed.

Lemma store_all_lookup w size vs : ∀ a m j n, 0 < size → vs !! j = Some n →
  store_all w size a vs m !! (a + Z.of_nat j * size) = Some (CInt w n).
Proof.
  induction vs as [|x vs IH]; intros a m j n Hs Hj; [done|]. destruct j as [|j].
  - injection Hj as ->. rewrite Z.add_0_r. cbn [store_all]. rewrite store_all_other by lia. by rewrite lookup_insert_eq.
  - cbn [store_all]. replace (a + Z.of_nat (S j) * size) with (a + size + Z.of_nat j * size) by lia. by apply IH.
Qed.

Lemma qname_self ns name p c : ws_xml_is_node_qname (Some (XElement ns name p c)) ns (Some name) = true.
Proof. cbn. destruct ns as [ns|]; cbn; by rewrite ?str_eqb_refl. Qed.

Lemma matching_added ns name ts : ∀ P,
  is_element P = true →
  matching ns (Some name) (foldl add_node P ((λ t, text_node ns name t) <$> ts)) =
  matching ns (Some name) P ++ ((λ t, text_node ns name t) <$> ts).
Proof.
  intros [ns0 nm0 ps c|] Hp; [|done]. rewrite foldl_add_node. unfold matching. cbn [x_children].
  rewrite !element_children_filter, filter_app, filter_app. f_equal.
  induction ts as [|t ts IH]; [done|]. cbn [fmap list_fmap]. destruct (text_node_named ns name t) as [c' E].
  rewrite E at 1. rewrite filter_cons_True by done. rewrite filter_cons_True by apply qname_self. by rewrite <- E, IH.
Qed.

Definition num_proc (signed : bool) (w : Z) : proc :=
  if signed then do_serialize_int_n w else do_serialize_uint_n w.

Lemma num_proc_eq signed w h d : do_proc (num_proc signed w) h d = do_serialize_sized signed w h d.
Proof. by destruct signed. Qed.

Lemma sized_eq signed w h d :
  do_serialize_sized signed w h d =
  let al := if has_flag SER_ATTRS h then get_struct_align else w in
  let pad := round_up al (d_buf d) in
  '(ret, d) ← do_serialize_number signed w h (set_buf (d_buf d + pad) d);
  Some (if (0 <=? ret) && negb (w =? 1) then ret + pad else ret, d).
Proof. by destruct signed. Qed.

Lemma round_up_0 w a : a mod w = 0 → round_up w a = 0.
Proof. unfold round_up. by intros ->. Qed.

Lemma sint32_small n : 0 ≤ n < 2 ^ 31 → sint 32 n = n.
Proof. intros Hn. unfold sint, wrap. rewrite Z.mod_small by lia. lia. Qed.

(** An array without flags goes to the loop. *)
Lemma sized_number signed w h d :
  h_flags h = 0 → h_size h = w → 0 ≤ h_size h * h_count h < 2 ^ 31 →
  let a := d_buf d + round_up w (d_buf d) in
  a + h_size h * h_count h ≤ d_stopper d →
  d_mode d = XML_SMODE_SERIALIZE ∨ d_mode d = XML_SMODE_DESERIALIZE →
  do_serialize_number signed w h (set_buf a d) =
  num_loop (Z.to_nat (h_count h)) signed w h (h_size h * h_count h) (set_index 0 (set_buf a d)).
Proof.
  intros Hf Hs Hr a Hst Hm. unfold do_serialize_number, all_size. rewrite sint32_small by done.
  cbn [set_buf d_stopper d_buf]. rewrite (proj2 (Z.ltb_ge _ _)) by lia.
  assert (must_be_skipped h (set_buf a d) || bool_decide (d_mode (set_buf a d) = XML_SMODE_FREE_MEM) = false) as ->; [|done].
  unfold must_be_skipped, has_flag. rewrite Hf. cbn [set_buf d_mode]. by destruct Hm as [-> | ->].
Qed.

Lemma sized_loop signed w h d :
  h_flags h = 0 → h_size h = w → 0 ≤ h_size h * h_count h < 2 ^ 31 → d_buf d mod w = 0 →
  d_stopper d = d_buf d + h_size h * h_count h →
  d_mode d = XML_SMODE_SERIALIZE ∨ d_mode d = XML_SMODE_DESERIALIZE →
  do_serialize_sized signed w h d =
  num_loop (Z.to_nat (h_count h)) signed w h (h_size h * h_count h) (set_index 0 d).
Proof.
  intros Hf Hs Hr Ha Hst Hm. rewrite sized_eq. unfold has_flag. rewrite Hf. cbn [Z.land Z.eqb negb].
  rewrite sized_number; [|done..|rewrite round_up_0 by done; lia|done].
  rewrite round_up_0, Z.add_0_r by done. assert (Hd : set_buf (d_buf d) d = d) by (by destruct d). rewrite Hd.
  destruct (num_loop _ _ _ _ _ _) as [[r d']|]; [|done]. cbn [mbind option_bind].
  rewrite Z.add_0_r. by destruct ((0 <=? r) && negb (w =? 1)).
Qed.

(** Arrays of numbers survive a round trip through XML: what the serializer
    writes of an array of integers of any size, signed or not, it reads back
    into an array elsewhere with the same bytes, as long as each number has at
    most eleven characters. *)
Theorem number_array_roundtrip signed w ns name vs m brk al a P m' brk' al' b :
  w = 1 ∨ w = 2 ∨ w = 4 ∨ w = 8 → Forall (printable signed w) vs → Z.of_nat (length vs) * w < 2 ^ 31 →
  a mod w = 0 → b mod w = 0 → is_element P = true → matching ns (Some name) P = [] →
  (∀ j n, vs !! j = Some n → m !! (a + Z.of_nat j * w) = Some (CInt w n)) →
  let k := Z.of_nat (length vs) in
  let h := Hdr ns name k k w 0 in
  ∃ d1 d2,
    do_proc (num_proc signed w) h (SData m brk al a (a + w * k) XML_SMODE_SERIALIZE 0 (Some P)) = Some (w * k, d1) ∧
    do_proc (num_proc signed w) h (SData m' brk' al' b (b + w * k) XML_SMODE_DESERIALIZE 0 (d_node d1)) =
      Some (w * k, d2) ∧
    ∀ j n, vs !! j = Some n → d_mem d2 !! (b + Z.of_nat j * w) = Some (CInt w n).
Proof.
  intros Hw Hp Hlen Ha Hb HP Hno Hc k h.
  assert (Hk : 0 ≤ w * k < 2 ^ 31) by lia.
  set (nodes := num_node signed w h <$> vs).
  assert (Hn : nodes = (λ t, text_node ns name t) <$> ((λ n, node_number (num_value signed w n)) <$> vs))
    by (unfold nodes, num_node; by rewrite <- list_fmap_compose).
  eexists. pose proof (num_loop_deserialize signed w h (w * k) vs
    (SData m' brk' al' b (b + w * k) XML_SMODE_DESERIALIZE 0 (Some (foldl add_node P nodes)))
    (foldl add_node P nodes) [] Hw eq_refl eq_refl eq_refl Hp) as E2. eexists.
  assert (Hm : matching ns (Some name) (foldl add_node P nodes) = [] ++ nodes).
  { rewrite Hn. rewrite (matching_added ns name _ P HP), Hno. cbn [app]. by rewrite <- Hn. }
  specialize (E2 Hm eq_refl). split_and!.
  - rewrite num_proc_eq, sized_loop by (done || by left).
    replace (Z.to_nat (h_count h)) with (length vs) by (cbn; lia). change (h_size h * h_count h) with (w * k).
    by rewrite (num_loop_serialize signed w h (w * k) vs _ P).
  - cbn [d_node set_index set_buf set_node]. rewrite num_proc_eq, sized_loop by (done || by right).
    replace (Z.to_nat (h_count h)) with (length vs) by (cbn; lia). change (h_size h * h_count h) with (w * k). exact E2.
  - intros j n Hj. cbn. apply (store_all_lookup w w vs b m'); [lia|done].
Qed.

(** How a single number is read: the decimal text of a number is accepted
    and stored when it is within the bounds of its type for one and two bytes;
    for four bytes only the bounds of eight are checked, and a number that is
    too large is stored without its upper half. *)
Theorem numbers_read signed w ns name v m brk al b P :
  w = 1 ∨ w = 2 ∨ w = 4 ∨ w = 8 → b mod w = 0 →
  matching ns (Some name) P = [text_node ns name (Some (print_int v))] →
  let h := Hdr ns name 1 1 w 0 in
  ∃ d, do_proc (num_proc signed w) h (SData m brk al b (b + w) XML_SMODE_DESERIALIZE 0 (Some P)) =
       Some (if in_range signed (if w <=? 2 then w else 8) v then w else WS_ERR_XML_PARSING, d) ∧
       (in_range signed (if w <=? 2 then w else 8) v = true → d_mem d !! b = Some (CInt w (wrap (8 * w) v))).
Proof.
  intros Hw Hb HP h. rewrite num_proc_eq, sized_loop; [|done|done|cbn; lia|done|cbn; lia|by right].
  change (h_size h * h_count h) with (w * 1). rewrite Z.mul_1_r. change (Z.to_nat (h_count h)) with 1%nat.
  cbn [num_loop set_index d_mode].
  unfold xml_serializer_get_child at 1. cbn [d_node d_index set_index h_ns h_name h].
  rewrite ws_xml_get_child_matching, HP by lia. change (Z.to_nat 0) with O. cbn [lookup list_lookup].
  rewrite parse_number_print by done. destruct (in_range _ _ v); [|by eexists].
  unfold handle_attrs. change (has_flag SER_ATTRS h) with false. cbn [negb mbind option_bind].
  unfold end_of_elements. rewrite decide_True by done.
  unfold xml_serializer_get_child. cbn [d_node d_index h_ns h_name h next_element set_index set_buf store_cell].
  rewrite ws_xml_get_child_matching, HP by lia. change (Z.to_nat (0 + 1)) with 1%nat. cbn [lookup list_lookup].
  eexists; split; [done|]. intros _. cbn. by rewrite lookup_insert_eq.
Qed.

(** *** Long numbers *)

Lemma print_nat_loop_length fuel : ∀ x acc k,
  0 ≤ x < 2 ^ Z.of_nat fuel → 10 ^ Z.of_nat k ≤ x →
  (k + 1 + String.length acc ≤ String.length (print_nat_loop fuel x acc))%nat.
Proof.
  induction fuel as [|fuel IH]; intros x acc k Hx Hk.
  - assert (0 < 10 ^ Z.of_nat k) by (apply Z.pow_pos_nonneg; lia). change (2 ^ Z.of_nat 0) with 1 in Hx. lia.
  - cbn [print_nat_loop]. rewrite Nat2Z.inj_succ, Z.pow_succ_r in Hx by lia. destruct (Z.ltb_spec x 10).
    + destruct k as [|k]; [cbn; lia|]. rewrite Nat2Z.inj_succ, Z.pow_succ_r in Hk by lia.
      assert (0 < 10 ^ Z.of_nat k) by (apply Z.pow_pos_nonneg; lia). lia.
    + assert (Hd : 0 ≤ x / 10 < 2 ^ Z.of_nat fuel)
        by (split; [apply Z.div_pos; lia|apply Z.div_lt_upper_bound; lia]).
      destruct k as [|k].
      * assert (1 ≤ x / 10) by (apply Z.div_le_lower_bound; lia).
        specialize (IH (x / 10) (String (Ascii.ascii_of_N (Z.to_N (48 + x mod 10))) acc) O Hd ltac:(cbn; lia)). cbn in IH. lia.
      * rewrite Nat2Z.inj_succ, Z.pow_succ_r in Hk by lia.
        specialize (IH (x / 10) (String (Ascii.ascii_of_N (Z.to_N (48 + x mod 10))) acc) k Hd). cbn in IH.
        assert (10 ^ Z.of_nat k ≤ x / 10) by (apply Z.div_le_lower_bound; lia). specialize (IH ltac:(lia)). lia.
Qed.

Lemma print_nat_length x k : 10 ^ Z.of_nat k ≤ x → (k + 1 ≤ String.length (print_nat x))%nat.
Proof.
  intros Hk. assert (0 < 10 ^ Z.of_nat k) by (apply Z.pow_pos_nonneg; lia). unfold print_nat.
  pose proof (print_nat_loop_length (S (Z.to_nat (Z.log2 x))) x "" k) as Hl. cbn [String.length] in Hl.
  rewrite Nat.add_0_r in Hl. apply Hl; [|done]. split; [lia|].
  rewrite Nat2Z.inj_succ, Z2Nat.id by apply Z.log2_nonneg. apply Z.log2_spec. lia.
Qed.

(** An unsigned number of twelve digits or more cannot be written: the text
    does not fit the buffer it is printed to, so the serializer gives up on
    every 64-bit number from 10^11 on. *)
Theorem long_numbers_not_written ns name v m brk al a P :
  10 ^ 11 ≤ v < 2 ^ 64 → a mod 8 = 0 → m !! a = Some (CInt 8 v) →
  ∃ d, do_proc (do_serialize_uint_n 8) (Hdr ns name 1 1 8 0) (SData m brk al a (a + 8) XML_SMODE_SERIALIZE 0 (Some P)) =
       Some (WS_ERR_INSUFFICIENT_RESOURCES, d).
Proof.
  intros Hv Ha Hm. change (do_serialize_uint_n 8) with (num_proc false 8).
  rewrite num_proc_eq, sized_loop by (done || by left). cbn [h_size h_count].
  change (Z.to_nat 1) with 1%nat. cbn [num_loop set_index d_mode]. unfold read_int. cbn [d_mem d_buf set_index]. rewrite Hm.
  cbn [Z.eqb mbind option_bind Pos.eqb].
  assert (node_number v = None) as ->; [|by eexists].
  unfold node_number, print_int. rewrite (proj2 (Z.ltb_ge _ _)) by lia.
  pose proof (print_nat_length v 11 ltac:(lia)). destruct (Nat.ltb_spec (String.length (print_nat v)) 12); [lia|done].
Qed.

(** ** Skipped elements *)

(** In the mode for skipping nothing is written, to the document or to
    memory. *)
Lemma skip_nothing p h d r d' :
  d_mode d = XML_SMODE_SKIP → do_proc p h d = Some (r, d') →
  d_mode d' = XML_SMODE_SKIP ∧ d_node d' = d_node d ∧ d_mem d' = d_mem d.
Proof.
  intros Hm. assert (Hskip : ∀ h b, must_be_skipped h (set_buf b d) = true ∧ must_be_skipped h d = true)
    by (intros; unfold must_be_skipped; cbn; by rewrite Hm).
  destruct p; cbn [do_proc]; intros H.
  1, 2: rewrite sized_eq in H; unfold do_serialize_number in H; rewrite (proj1 (Hskip _ _)) in H;
    destruct (_ <? _) in H; cbn [mbind option_bind orb] in H; by injection H as _ <-.
  - unfold do_serialize_bool in H. rewrite (proj2 (Hskip h 0)) in H.
    destruct (_ <? _) in H; by injection H as _ <-.
  - unfold do_serialize_string in H. rewrite (proj2 (Hskip h 0)) in H.
    destruct (_ <? _) in H; by injection H as _ <-.
  - unfold do_serialize_struct in H. rewrite decide_True in H by done. by injection H as _ <-.
  - unfold do_serialize_dyn_size_array in H. rewrite (proj2 (Hskip h 0)) in H.
    destruct (_ <? _) in H; by injection H as _ <-.
Qed.

(** The interpreter for each of the elements of a structure. *)
Definition runs (l : list (hdr * proc)) : list (hdr * (sdata → option (Z * sdata))) :=
  (λ e, (e.1, do_proc e.2 e.1)) <$> l.

Lemma do_proc_struct els h d :
  do_proc (do_serialize_struct_p els) h d = do_serialize_struct (struct_fields (runs els)) h d.
Proof.
  cbn [do_proc]. do 2 f_equal. induction els as [|[h0 p0] els IH]; [done|]. cbn [runs fmap list_fmap fst snd]. by rewrite IH.
Qed.

Lemma skip_rest l : ∀ d r d',
  d_mode d = XML_SMODE_SKIP → struct_fields (runs l) d = Some (r, d') → d_node d' = d_node d ∧ d_mem d' = d_mem d.
Proof.
  induction l as [|[h p] l IH]; intros d r d' Hm H; [by injection H as _ <-|].
  cbn [runs fmap list_fmap struct_fields fst snd] in H.
  assert (Hd : (if has_flag SER_SKIP h then set_mode XML_SMODE_SKIP d else d) = d)
    by (destruct (has_flag SER_SKIP h); [|done]; destruct d; cbn in *; by subst).
  rewrite Hd in H. destruct (do_proc p h d) as [[t d1]|] eqn:E; [|done]. cbn [mbind option_bind] in H.
  destruct (skip_nothing _ _ _ _ _ Hm E) as (Hm1 & Hn1 & Hc1). destruct (t <? 0).
  - by injection H as _ <-.
  - destruct (IH d1 r d' Hm1 H) as [-> ->]. done.
Qed.

Lemma struct_fields_app l1 l2 : ∀ d d1,
  struct_fields (runs l1) d = Some (0, d1) → struct_fields (runs (l1 ++ l2)) d = struct_fields (runs l2) d1.
Proof.
  induction l1 as [|[h p] l1 IH]; intros d d1 H; [by injection H as <-|].
  cbn [app runs fmap list_fmap struct_fields fst snd] in H |- *.
  destruct (do_proc p h _) as [[t d2]|]; [|done]. cbn [mbind option_bind] in H |- *.
  destruct (Z.ltb_spec t 0); [injection H as -> <-; lia|]. by apply IH.
Qed.

(** One skipped element hides all that follow it: the mode of skipping is
    set for an element with the flag and never reset within its structure, so
    none of the later elements is written or read: document and memory are
    what the elements before it made of them. *)
Theorem skip_hides_rest before h p after d d1 r d' :
  has_flag SER_SKIP h = true → struct_fields (runs before) d = Some (0, d1) →
  struct_fields (runs (before ++ (h, p) :: after)) d = Some (r, d') →
  d_node d' = d_node d1 ∧ d_mem d' = d_mem d1.
Proof.
  intros Hs H1 H. rewrite (struct_fields_app _ _ _ _ H1) in H.
  cbn [runs fmap list_fmap struct_fields fst snd] in H. rewrite Hs in H.
  destruct (do_proc p h _) as [[t d2]|] eqn:E; [|done]. cbn [mbind option_bind] in H.
  assert (Hm : d_mode (set_mode XML_SMODE_SKIP d1) = XML_SMODE_SKIP) by done.
  destruct (skip_nothing _ _ _ _ _ Hm E) as (Hm1 & Hn1 & Hc1). destruct (t <? 0).
  - by injection H as _ <-.
  - by destruct (skip_rest after d2 r d' Hm1 H) as [-> ->].
Qed.

(** ** Dynamic arrays *)

(** A dynamic array of structures larger than sixteen bytes can never be
    written: the end of the array is computed with the size of the array's
    header, so the elements do not fit before it. *)
Theorem dyn_array_of_large_structures ns name min max e els m brk al a P count data :
  h_flags e = 0 → 16 < h_size e → h_size e * count < 2 ^ 31 → 0 < count →
  a mod 8 = 0 → data mod 8 = 0 → m !! a = Some (CDyn count data) →
  count_ok (Hdr ns name min max 16 0) count = true →
  ∃ d, do_proc (do_serialize_dyn_p e (do_serialize_struct_p els)) (Hdr ns name min max 16 0)
         (SData m brk al a (a + 16) XML_SMODE_SERIALIZE 0 (Some P)) = Some (WS_ERR_INVALID_PARAMETER, d).
Proof.
  intros Hf Hs Hsz Hc Ha Hd Hm Hok. cbn [do_proc]. unfold do_serialize_dyn_size_array.
  cbn [d_buf d_stopper d_mode h_size]. rewrite (round_up_0 8 a Ha), !Z.add_0_r, Z.ltb_irrefl.
  unfold must_be_skipped at 1. cbn [d_mode h_flags]. change (has_flag SER_OUT _) with false.
  unfold read_dyn. cbn [set_buf d_mem d_buf d_mode]. rewrite Hm. cbn [mbind option_bind].
  rewrite Hok. cbn [negb]. unfold dyn_elements. rewrite (proj2 (Z.eqb_neq _ 0)) by lia.
  unfold do_serialize_struct. cbn [set_index set_buf set_stopper d_buf d_mode d_stopper h_size].
  unfold get_struct_align. rewrite (round_up_0 8 data Hd). rewrite decide_False by done. unfold has_flag at 1 2.
  cbn [set_element h_flags]. rewrite Hf. cbn [Z.land Z.eqb negb orb]. unfold all_size. cbn [h_size h_count set_element].
  assert (sint 32 (h_size e * count) = h_size e * count) as ->
    by (unfold sint, wrap; rewrite Z.mod_small by nia; lia).
  change (Z.land 0 SER_HEAD) with 0. cbn [Z.eqb negb]. rewrite (proj2 (Z.ltb_lt _ _)) by nia. cbn [mbind option_bind]. by eexists.
Qed.
End Numbers.

(** ** Witnesses *)

Lemma numbers_read_witness :
  let P := el "urn:d" "Body" [@text_node TreeXml None "Size" (Some (print_int 4294967301))] in
  ∃ d, @do_proc TreeXml (num_proc false 4) (Hdr None "Size" 1 1 4 0)
         (SData ∅ 64 [] 32 36 XML_SMODE_DESERIALIZE 0 (Some P)) = Some (4, d) ∧ d_mem d !! 32 = Some (CInt 4 5).
Proof.
  intros P. destruct (@numbers_read TreeXml TreeXmlLaws false 4 None "Size" 4294967301 ∅ 64 [] 32 P) as (d & E & Hd);
    [lia|reflexivity|reflexivity|]. exists d. split; [exact E|exact (Hd eq_refl)].
Defined.

Definition skip_id : hdr * proc := (Hdr None "Id" 1 1 4 0, do_serialize_uint_n 4).
Definition skip_internal : hdr := Hdr None "Internal" 1 1 4 SER_SKIP.
Definition skip_state : sdata :=
  SData (<[32 := CInt 4 7]> (<[40 := CInt 4 9]> ∅)) 64 [] 32 44 XML_SMODE_SERIALIZE 0 (Some (el "urn:d" "Disk" [])).

Lemma skip_hides_rest_witness :
  let d' := (default (0, skip_state) (struct_fields (@runs TreeXml ([skip_id] ++ (skip_internal, skip_id.2) :: [skip_id])) skip_state)).2 in
  let d1 := (default (0, skip_state) (struct_fields (@runs TreeXml [skip_id]) skip_state)).2 in
  d_node d' = d_node d1 ∧ d_mem d' = d_mem d1.
Proof.
  intros d' d1. apply (@skip_hides_rest TreeXml [skip_id] skip_internal skip_id.2 [skip_id] skip_state d1 0 d');
    vm_compute; reflexivity.
Defined.
