(* ===== verification/StructProofs.v ===== *)
(** * Structures from memory to XML and back

    A structure whose fields are arrays of numbers, booleans and strings is
    written to XML, read back into fresh memory and freed again.  The fields
    are described by [field], their places by [f_addr] and [f_end], which lay
    them out as a C compiler does. *)

From S2P Require Import Prelude.
From S2P Require Import CString.
From S2P Require Import Names.
From S2P Require Import Xml.
From S2P Require Import Envelope.
From S2P Require Import Client.
From S2P Require Import Serializer.
From S2P Require Import SerializerProofs.

#[local] Open Scope string_scope.
#[local] Open Scope list_scope.
#[local] Open Scope Z_scope.
#[local] Open Scope ow_scope.

(** A field with its value. *)
Inductive field :=
  | FNums (signed : bool) (w : Z) (vs : list Z)
  | FBool (b : bool)
  | FStr (s : option string).

Definition f_proc (f : field) : proc :=
  match f with FNums s w _ => num_proc s w | FBool _ => do_serialize_bool_p | FStr _ => do_serialize_string_p end.
Definition f_size (f : field) : Z := match f with FNums _ w _ => w | FBool _ => 4 | FStr _ => 8 end.
Definition f_count (f : field) : Z := match f with FNums _ _ vs => Z.of_nat (length vs) | _ => 1 end.
Definition f_hdr (ns : option string) (name : string) (f : field) : hdr :=
  Hdr ns name (f_count f) (f_count f) (f_size f) 0.

Definition f_addr (f : field) (a : Z) : Z := a + round_up (f_size f) a.
Definition f_end (f : field) (a : Z) : Z := f_addr f a + f_size f * f_count f.

(** The value is in memory. *)
Definition holds (m : gmap Z cell) (a : Z) (f : field) : Prop :=
  match f with
  | FNums _ w vs => ∀ j n, vs !! j = Some n → m !! (a + Z.of_nat j * w) = Some (CInt w n)
  | FBool b => m !! a = Some (CInt 4 (if b then 1 else 0))
  | FStr s => match m !! a with
              | None => s = None
              | Some (CStr c) => snd <$> c = s
              | Some _ => False
              end
  end.

(** Values that can be written: numbers of at most eleven characters and
    strings that are not empty. *)
Definition writable (f : field) : Prop :=
  match f with
  | FNums signed w vs =>
      (w = 1 ∨ w = 2 ∨ w = 4 ∨ w = 8) ∧ Forall (printable signed w) vs ∧ Z.of_nat (length vs) * w < 2 ^ 31
  | FBool _ => True
  | FStr s => s ≠ Some ""
  end.

(** The state as one record. *)
Ltac flat :=
  cbv beta iota zeta delta [next_element add_child set_index set_buf set_node set_mode set_stopper store_cell with_mem
    d_mem d_brk d_allocs d_buf d_stopper d_mode d_index d_node h_size h_ns h_name h_count f_hdr f_size f_count].

Ltac state_fields := cbn [d_mem d_brk d_allocs d_buf d_stopper d_mode d_index d_node] in *; subst.

Section Struct.
Context {LX : Libxml2} {LL : Libxml2Laws}.

(** The elements of a field. *)
Definition f_nodes (ns : option string) (name : string) (f : field) : list xnode :=
  match f with
  | FNums signed w vs => num_node signed w (f_hdr ns name f) <$> vs
  | FBool b => [text_node ns name (Some (if b then "true" else "false"))]
  | FStr s => [nil_if_no_text (text_node ns name s)]
  end.

Lemma round_up_bounds al a : 0 < al → 0 ≤ round_up al a < al.
Proof.
  intros Hal. unfold round_up. pose proof (Z.mod_pos_bound a al Hal). destruct (Z.eqb_spec (a mod al) 0); lia.
Qed.

Lemma writable_size f : writable f → 1 ≤ f_size f ≤ 8 ∧ 0 ≤ f_size f * f_count f < 2 ^ 31.
Proof. destruct f as [s w vs|b|s]; cbn; [intros ([->|[->|[->| ->]]] & _ & H)|intros _|intros _]; lia. Qed.

Lemma f_addr_bounds f a : writable f → a ≤ f_addr f a ≤ f_end f a.
Proof.
  intros Hf. pose proof (writable_size f Hf). unfold f_end, f_addr.
  pose proof (round_up_bounds (f_size f) a ltac:(lia)). lia.
Qed.

(** The text of a new element without one is empty, so it is never nil. *)
Lemma nil_if_text ns name s : nil_if_no_text (text_node ns name s) = text_node ns name s.
Proof.
  unfold nil_if_no_text. cbn [ws_xml_get_node_text mbind option_bind]. destruct (text_node_named ns name s) as [c ->].
  by destruct (content_element ns name [] c) as [t ->].
Qed.

Lemma text_node_read ns name s :
  s ≠ Some "" → nonempty (ws_xml_get_node_text (Some (text_node ns name s))) = s.
Proof.
  intros Hs. cbn [ws_xml_get_node_text mbind option_bind]. unfold text_node. destruct s as [s|].
  - rewrite new_node_text. cbn. destruct (str_eqb_spec s ""); [by subst|done].
  - rewrite new_node_empty, content_empty. done.
Qed.

(** No flag, so nothing is skipped. *)
Lemma not_skipped ns name f d :
  d_mode d = XML_SMODE_SERIALIZE ∨ d_mode d = XML_SMODE_DESERIALIZE →
  must_be_skipped (f_hdr ns name f) d || bool_decide (d_mode d = XML_SMODE_FREE_MEM) = false.
Proof. unfold must_be_skipped. by intros [-> | ->]. Qed.

Lemma unflagged_not_skipped ns name f d : d_mode d ≠ XML_SMODE_SKIP → must_be_skipped (f_hdr ns name f) d = false.
Proof. unfold must_be_skipped. by destruct (d_mode d). Qed.

(** *** Writing a field *)

Lemma write_field ns name f d P :
  writable f → d_mode d = XML_SMODE_SERIALIZE → d_node d = Some P →
  holds (d_mem d) (f_addr f (d_buf d)) f → f_end f (d_buf d) ≤ d_stopper d →
  ∃ r i, 0 ≤ r ∧
    do_proc (f_proc f) (f_hdr ns name f) d =
    Some (r, set_index i (set_buf (f_end f (d_buf d)) (set_node (Some (foldl add_node P (f_nodes ns name f))) d))).
Proof.
  intros Hf Hm Hn Hh Hst. destruct d as [m brk al a st mode ix nd]. state_fields.
  pose proof (writable_size f Hf) as [Hs1 Hs2]. unfold f_end, f_addr in *.
  pose proof (round_up_bounds (f_size f) a ltac:(lia)) as Hru.
  destruct f as [signed w vs|b|s]; cbn [f_proc f_size f_count f_nodes] in *.
  - destruct Hf as (Hw & Hp & Hlen). rewrite num_proc_eq. rewrite sized_eq. cbv zeta.
    change (has_flag SER_ATTRS _) with false. cbn iota.
    rewrite sized_number; [|done|done|done|cbn; lia|by left].
    cbn [h_count h_size f_hdr f_count f_size]. rewrite Nat2Z.id.
    rewrite (num_loop_serialize signed w _ _ vs _ P); [|done..].
    cbn [mbind option_bind]. eexists _, _. split; [|rewrite (Z.mul_comm w); reflexivity].
    cbn [d_buf]. destruct (_ && _); lia.
  - cbn [do_proc]. unfold do_serialize_bool. state_fields. change (has_flag SER_ATTRS _) with false. cbn iota.
    change (all_size _) with 4. rewrite (proj2 (Z.ltb_ge _ _)) by lia.
    rewrite not_skipped by (done || by left). unfold f_count. cbn [h_count f_hdr f_count]. change (Z.to_nat 1) with 1%nat.
    cbn [bool_loop set_index set_buf d_mode]. unfold read_int. cbn [d_mem d_buf set_index set_buf]. rewrite Hh.
    cbn [Z.eqb Pos.eqb mbind option_bind]. unfold handle_attrs. change (has_flag SER_ATTRS _) with false.
    cbn [negb mbind option_bind]. unfold end_of_elements. cbn [next_element set_index set_buf add_child set_node d_mode].
    rewrite decide_False by done. flat. eexists _, _. split; [|destruct b; reflexivity]. lia.
  - cbn [do_proc]. unfold do_serialize_string. state_fields. change (all_size _) with 8. rewrite (proj2 (Z.ltb_ge _ _)) by lia.
    rewrite unflagged_not_skipped by done.
    cbn [h_count f_hdr f_count]. change (Z.to_nat 1) with 1%nat.
    cbn [str_loop set_index set_buf d_mode].
    assert (Hr : ∃ c, read_str (set_index 0 (set_buf (a + round_up 8 a) (SData m brk al a st XML_SMODE_SERIALIZE ix (Some P)))) = Some c ∧ snd <$> c = s).
    { unfold read_str. cbn [set_index set_buf d_mem d_buf]. cbn [holds f_size] in Hh.
      destruct (m !! _) as [[w n|c|n p|l]|]; [done|by exists c|done|done|by exists None]. }
    destruct Hr as (c & -> & Hc). cbn [mbind option_bind]. rewrite Hc.
    unfold handle_attrs. change (has_flag SER_ATTRS _) with false. cbn [negb mbind option_bind].
    unfold end_of_elements. cbn [next_element set_index set_buf add_child set_node d_mode].
    rewrite decide_False by done. flat. eexists _, _. split; [|reflexivity]. lia.
Qed.

(** *** Reading a field *)

(** The blocks [l] are allocated between two values of the break. *)
Definition allocated (brk : Z) (l : list Z) (brk' : Z) : Prop :=
  brk ≤ brk' ∧ Forall (λ x, brk ≤ x < brk') l ∧ NoDup l.

Lemma allocated_nil brk : allocated brk [] brk.
Proof. split; [lia|]. by split; [constructor|apply NoDup_nil]. Qed.

Lemma allocated_app a l b l' c : allocated a l b → allocated b l' c → allocated a (l ++ l') c.
Proof.
  intros (H1 & H2 & H3) (H4 & H5 & H6). rewrite Forall_forall in H2, H5. split_and!; [lia| |].
  - apply Forall_app; split; apply Forall_forall; intros x Hx; [specialize (H2 x Hx)|specialize (H5 x Hx)]; lia.
  - apply NoDup_app; split_and!; [done| |done]. intros x Hx Hx'. specialize (H2 x Hx). specialize (H5 x Hx'). lia.
Qed.

(** The addresses of the strings of a field. *)
Definition f_strs (m : gmap Z cell) (a : Z) (f : field) : list Z :=
  match f with
  | FStr _ => match m !! a with Some (CStr (Some (x, _))) => [x] | _ => [] end
  | _ => []
  end.

(** What a field leaves of the memory outside of its place. *)
Definition frame (f : field) (a : Z) (m m' : gmap Z cell) : Prop :=
  ∀ b, b < f_addr f a ∨ f_end f a ≤ b → m' !! b = m !! b.

Lemma store_all_frame w vs : ∀ a m b, 0 < w → b < a ∨ a + w * Z.of_nat (length vs) ≤ b →
  store_all w w a vs m !! b = m !! b.
Proof.
  induction vs as [|n vs IH]; intros a m b Hw Hb; [done|]. cbn [store_all length] in *. rewrite IH by lia.
  by rewrite lookup_insert_ne by lia.
Qed.

Lemma get_first h d Q n :
  d_node d = Some Q → matching (h_ns h) (Some (h_name h)) Q = [n] → d_index d = 0 → xml_serializer_get_child h d = Some n.
Proof. intros Hn Hq Hi. unfold xml_serializer_get_child. by rewrite Hn, Hi, ws_xml_get_child_matching, Hq by lia. Qed.

Lemma get_second h d Q n :
  d_node d = Some Q → matching (h_ns h) (Some (h_name h)) Q = [n] → d_index d = 1 → xml_serializer_get_child h d = None.
Proof. intros Hn Hq Hi. unfold xml_serializer_get_child. by rewrite Hn, Hi, ws_xml_get_child_matching, Hq by lia. Qed.

Lemma parse_bool_node ns name (b : bool) :
  parse_bool (ws_xml_get_node_text (Some (text_node ns name (Some (if b then "true" else "false"))))) =
  Some (if b then 1 else 0).
Proof. cbn [ws_xml_get_node_text mbind option_bind]. unfold text_node. rewrite new_node_text. by destruct b. Qed.

(** The memory of a field is zero and the element has its nodes. *)
Definition field_ready ns name f d Q : Prop :=
  d_mode d = XML_SMODE_DESERIALIZE ∧ d_node d = Some Q ∧
  matching ns (Some name) Q = f_nodes ns name f ∧ f_end f (d_buf d) ≤ d_stopper d ∧
  (∀ b, f_addr f (d_buf d) ≤ b < f_end f (d_buf d) → d_mem d !! b = None).

(** The procedure of a field reads its value and touches nothing else. *)
Definition field_read ns name f d : Prop :=
  ∃ r i m' brk' new, 0 ≤ r ∧
    do_proc (f_proc f) (f_hdr ns name f) d =
    Some (r, SData m' brk' (d_allocs d ++ new) (f_end f (d_buf d)) (d_stopper d) (d_mode d) i (d_node d)) ∧
    holds m' (f_addr f (d_buf d)) f ∧ frame f (d_buf d) (d_mem d) m' ∧
    new = f_strs m' (f_addr f (d_buf d)) f ∧ allocated (d_brk d) new brk'.

Ltac open_field d :=
  destruct d as [m brk al a st mode ix nd]; unfold field_read, field_ready in *; state_fields;
  unfold frame, f_end, f_addr in *; cbn [f_proc f_size f_count f_nodes d_mode d_node d_buf d_stopper d_mem] in *.

Lemma read_number signed w vs ns name d Q :
  writable (FNums signed w vs) → field_ready ns name (FNums signed w vs) d Q → field_read ns name (FNums signed w vs) d.
Proof.
  intros Hf (Hm & Hn & Hq & Hst & Hz). pose proof (writable_size _ Hf) as [Hs1 Hs2].
  pose proof (round_up_bounds (f_size (FNums signed w vs)) (d_buf d) ltac:(lia)) as Hru. open_field d.
  destruct Hf as (Hw & Hp & Hlen). rewrite num_proc_eq. rewrite sized_eq. cbv zeta.
  change (has_flag SER_ATTRS _) with false. cbn iota.
  rewrite sized_number; [|done|done|done|cbn; lia|by right].
  cbn [h_count h_size f_hdr f_count f_size]. rewrite Nat2Z.id.
  rewrite (num_loop_deserialize signed w _ _ vs _ Q []); [|done..].
  cbn [mbind option_bind]. flat. rewrite (Z.mul_comm (Z.of_nat _) w).
  eexists _, _, _, _, []. split_and!; [|rewrite app_nil_r; reflexivity| | |done|apply allocated_nil].
  + cbn [d_buf]. destruct (_ && _); lia.
  + intros j n Hj. by apply store_all_lookup; [lia|].
  + intros b Hb. apply store_all_frame; lia.
Qed.

Lemma read_bool b ns name d Q :
  writable (FBool b) → field_ready ns name (FBool b) d Q → field_read ns name (FBool b) d.
Proof.
  intros Hf (Hm & Hn & Hq & Hst & Hz). pose proof (writable_size _ Hf) as [Hs1 Hs2].
  pose proof (round_up_bounds (f_size (FBool b)) (d_buf d) ltac:(lia)) as Hru. open_field d.
  cbn [do_proc]. unfold do_serialize_bool. state_fields. change (has_flag SER_ATTRS _) with false. cbn iota.
  change (all_size _) with 4. rewrite (proj2 (Z.ltb_ge _ _)) by lia.
  rewrite not_skipped by (done || by right). cbn [h_count f_hdr f_count]. change (Z.to_nat 1) with 1%nat.
  cbn [bool_loop set_index set_buf d_mode].
  erewrite get_first; [|reflexivity|exact Hq|reflexivity].
  rewrite parse_bool_node. unfold handle_attrs. change (has_flag SER_ATTRS _) with false.
  cbn [negb mbind option_bind]. unfold end_of_elements. flat. rewrite decide_True by done.
  erewrite get_second; [|reflexivity|exact Hq|reflexivity].
  eexists _, _, _, _, []. split_and!; [|rewrite app_nil_r; reflexivity| | |done|apply allocated_nil].
  + lia.
  + cbn. by rewrite lookup_insert_eq.
  + intros x Hx. by rewrite lookup_insert_ne by lia.
Qed.

Lemma read_string s ns name d Q :
  writable (FStr s) → field_ready ns name (FStr s) d Q → field_read ns name (FStr s) d.
Proof.
  intros Hf (Hm & Hn & Hq & Hst & Hz). pose proof (writable_size _ Hf) as [Hs1 Hs2].
  pose proof (round_up_bounds (f_size (FStr s)) (d_buf d) ltac:(lia)) as Hru. open_field d.
  cbn [do_proc]. unfold do_serialize_string. state_fields. change (all_size _) with 8. rewrite (proj2 (Z.ltb_ge _ _)) by lia.
  rewrite unflagged_not_skipped by done.
  cbn [h_count f_hdr f_count]. change (Z.to_nat 1) with 1%nat.
  cbn [str_loop set_index set_buf d_mode].
  erewrite get_first; [|reflexivity|exact Hq|reflexivity].
  assert (Hend : ∀ d', d_mode d' = XML_SMODE_DESERIALIZE → d_node d' = (Some Q) → d_index d' = 0 →
    handle_attrs (f_hdr ns name (FStr s)) 8 (Some (nil_if_no_text (text_node ns name s))) d' ≫= (λ '(_, d0),
      Some (end_of_elements (f_hdr ns name (FStr s)) (8 + round_up 8 a) (next_element (f_hdr ns name (FStr s)) d0))) =
    Some (8 + round_up 8 a, next_element (f_hdr ns name (FStr s)) d')).
  { intros d' Hm' Hn' Hi'. unfold handle_attrs. change (has_flag SER_ATTRS _) with false. cbn [negb mbind option_bind].
    unfold end_of_elements. rewrite decide_True by done.
    erewrite get_second; [done|by cbn; rewrite Hn'|exact Hq|cbn; lia]. }
  rewrite nil_if_text in Hend |- *. rewrite text_node_read by done.
  destruct s as [s|]; (rewrite Hend by done); unfold ws_serializer_alloc; flat.
  + pose proof (round_up_bounds 16 (brk + (1 + Z.of_nat (String.length s))) ltac:(lia)).
    eexists _, _, _, _, [brk]. split_and!; [|reflexivity|..].
    * lia.
    * cbn. by rewrite lookup_insert_eq.
    * intros x Hx. by rewrite lookup_insert_ne by lia.
    * cbn. by rewrite lookup_insert_eq.
    * split_and!; [lia|by repeat constructor; lia|apply NoDup_singleton].
  + assert (Hz0 : m !! (a + round_up 8 a) = None) by (apply Hz; lia).
    eexists _, _, _, _, []. split_and!; [|rewrite app_nil_r; reflexivity|..].
    * lia.
    * cbn. by rewrite Hz0.
    * done.
    * cbn. by rewrite Hz0.
    * apply allocated_nil.
Qed.

Lemma read_field ns name f d Q :
  writable f → d_mode d = XML_SMODE_DESERIALIZE → d_node d = Some Q →
  matching ns (Some name) Q = f_nodes ns name f → f_end f (d_buf d) ≤ d_stopper d →
  (∀ b, f_addr f (d_buf d) ≤ b < f_end f (d_buf d) → d_mem d !! b = None) → field_read ns name f d.
Proof.
  intros Hf Hm Hn Hq Hst Hz. assert (Hr : field_ready ns name f d Q) by done.
  destruct f; [by apply read_number with Q|by apply read_bool with Q|by apply read_string with Q].
Qed.

(** *** Freeing a field *)

Definition free_all (l xs : list Z) : list Z := foldl (λ l x, if x =? 0 then l else remove_first x l) l xs.

Lemma free_field ns name f d :
  writable f → d_mode d = XML_SMODE_FREE_MEM → holds (d_mem d) (f_addr f (d_buf d)) f → f_end f (d_buf d) ≤ d_stopper d →
  ∃ r i m', 0 ≤ r ∧
    do_proc (f_proc f) (f_hdr ns name f) d =
    Some (r, SData m' (d_brk d) (free_all (d_allocs d) (f_strs (d_mem d) (f_addr f (d_buf d)) f)) (f_end f (d_buf d))
               (d_stopper d) (d_mode d) i (d_node d)) ∧
    frame f (d_buf d) (d_mem d) m'.
Proof.
  intros Hf Hm Hh Hst. destruct d as [m brk al a st mode ix nd]. state_fields.
  pose proof (writable_size f Hf) as [Hs1 Hs2]. unfold frame.
  pose proof (round_up_bounds (f_size f) a ltac:(lia)) as Hru.
  destruct f as [signed w vs|b|s]; unfold f_end, f_addr in *; cbn [f_proc f_size f_count] in *.
  - rewrite num_proc_eq. rewrite sized_eq. cbv zeta. change (has_flag SER_ATTRS _) with false. cbn iota.
    unfold do_serialize_number, all_size. cbn [h_size h_count f_hdr f_size f_count].
    rewrite sint32_small by done. cbn [d_stopper d_buf d_mode set_buf]. rewrite (proj2 (Z.ltb_ge _ _)) by lia.
    rewrite bool_decide_true, orb_true_r by done. cbn [mbind option_bind]. flat.
    eexists _, _, _. split_and!; [|reflexivity|done]. cbn [d_buf]. destruct (_ && _); lia.
  - cbn [do_proc]. unfold do_serialize_bool. state_fields. change (has_flag SER_ATTRS _) with false. cbn iota.
    change (all_size _) with 4. rewrite (proj2 (Z.ltb_ge _ _)) by lia.
    rewrite bool_decide_true, orb_true_r by done. flat.
    replace (a + (4 + round_up 4 a)) with (a + round_up 4 a + 4 * 1) by lia.
    eexists _, _, _. split_and!; [|reflexivity|done]. lia.
  - cbn [do_proc]. unfold do_serialize_string. state_fields. change (all_size _) with 8. rewrite (proj2 (Z.ltb_ge _ _)) by lia.
    rewrite unflagged_not_skipped by done.
    cbn [h_count f_hdr f_count]. change (Z.to_nat 1) with 1%nat.
    cbn [str_loop set_index set_buf d_mode].
    cbn [holds] in Hh. unfold read_str, f_strs. cbn [set_index set_buf d_mem d_buf].
    assert (Hfr : ∀ x, x < a + round_up 8 a ∨ a + round_up 8 a + 8 * 1 ≤ x →
      <[a + round_up 8 a := CStr None]> (m) !! x = m !! x)
      by (intros x Hx; by rewrite lookup_insert_ne by lia).
    unfold end_of_elements.
    destruct (m !! _) as [[w n|[[x t]|]|n p|l]|]; try done; cbn [mbind option_bind];
      unfold ws_serializer_free; [destruct (x =? 0) eqn:Ex| |]; flat;
      (rewrite decide_False by done); eexists _, _, _; (split_and!; [|cbn; rewrite ?Ex; reflexivity|exact Hfr]); lia.
Qed.

(** *** All fields *)

Definition table (l : list (option string * string * field)) : list (hdr * proc) :=
  (λ e, (f_hdr e.1.1 e.1.2 e.2, f_proc e.2)) <$> l.

Fixpoint fields_end (a : Z) (l : list (option string * string * field)) : Z :=
  match l with [] => a | e :: l => fields_end (f_end e.2 a) l end.

Fixpoint all_hold (m : gmap Z cell) (a : Z) (l : list (option string * string * field)) : Prop :=
  match l with [] => True | e :: l => holds m (f_addr e.2 a) e.2 ∧ all_hold m (f_end e.2 a) l end.

Fixpoint all_strs (m : gmap Z cell) (a : Z) (l : list (option string * string * field)) : list Z :=
  match l with [] => [] | e :: l => f_strs m (f_addr e.2 a) e.2 ++ all_strs m (f_end e.2 a) l end.

Definition all_nodes (l : list (option string * string * field)) : list xnode :=
  l ≫= λ e, f_nodes e.1.1 e.1.2 e.2.

Lemma fields_end_ge l : ∀ a, Forall (λ e, writable e.2) l → a ≤ fields_end a l.
Proof.
  induction l as [|e l IH]; intros a Hl; [cbn; lia|]. apply Forall_cons in Hl as [He Hl]. cbn [fields_end].
  specialize (IH (f_end e.2 a) Hl). pose proof (f_addr_bounds e.2 a He). lia.
Qed.

Lemma holds_ext m m' a f :
  writable f → (∀ b, a ≤ b < a + f_size f * f_count f → m' !! b = m !! b) →
  (holds m a f → holds m' a f) ∧ f_strs m' a f = f_strs m a f.
Proof.
  intros Hf He. destruct f as [s w vs|b|s]; cbn [holds f_strs f_size f_count] in *.
  - split; [|done]. intros H j n Hj. rewrite He; [by apply H|]. apply lookup_lt_Some in Hj as Hl.
    assert (0 < w) by (destruct Hf as ([->|[->|[->| ->]]] & _); lia). nia.
  - by rewrite He by lia.
  - by rewrite He by lia.
Qed.

Lemma all_hold_ext m m' l : ∀ a,
  Forall (λ e, writable e.2) l → (∀ b, a ≤ b < fields_end a l → m' !! b = m !! b) →
  (all_hold m a l → all_hold m' a l) ∧ all_strs m' a l = all_strs m a l.
Proof.
  induction l as [|e l IH]; intros a Hl He; [done|]. apply Forall_cons in Hl as [Hw Hl]. cbn [fields_end all_hold all_strs] in *.
  pose proof (f_addr_bounds e.2 a Hw). pose proof (fields_end_ge l (f_end e.2 a) Hl).
  destruct (holds_ext m m' (f_addr e.2 a) e.2 Hw) as [H1 ->].
  { intros b Hb. apply He. unfold f_end in *. lia. }
  destruct (IH (f_end e.2 a) Hl) as [H2 ->]; [intros b Hb; apply He; lia|]. split; [|done]. naive_solver.
Qed.

Lemma write_fields l : ∀ d P,
  Forall (λ e, writable e.2) l → d_mode d = XML_SMODE_SERIALIZE → d_node d = Some P →
  all_hold (d_mem d) (d_buf d) l → fields_end (d_buf d) l ≤ d_stopper d →
  ∃ i, struct_fields (runs (table l)) d =
       Some (0, set_index i (set_buf (fields_end (d_buf d) l) (set_node (Some (foldl add_node P (all_nodes l))) d))).
Proof.
  induction l as [|[[ns name] f] l IH]; intros d P Hl Hm Hn Hh Hst.
  - exists (d_index d). destruct d. cbn in *. by subst.
  - apply Forall_cons in Hl as [Hw Hl]. cbn [all_hold fields_end fst snd] in *. destruct Hh as [Hh Hh'].
    pose proof (fields_end_ge l (f_end f (d_buf d)) Hl).
    destruct (write_field ns name f d P Hw Hm Hn Hh ltac:(lia)) as (r & i & Hr & E).
    cbn [table runs fmap list_fmap struct_fields fst snd]. change (has_flag SER_SKIP _) with false. cbn iota.
    rewrite E. cbn [mbind option_bind]. rewrite (proj2 (Z.ltb_ge r 0)) by lia.
    unfold all_nodes. cbn [mbind list_bind fst snd]. rewrite foldl_app.
    destruct (IH (set_index i (set_buf (f_end f (d_buf d)) (set_node (Some (foldl add_node P (f_nodes ns name f))) d)))
      (foldl add_node P (f_nodes ns name f))) as [i' E']; [done..|]. exists i'. exact E'.
Qed.

Lemma read_fields Q l : ∀ d,
  Forall (λ e, writable e.2) l → d_mode d = XML_SMODE_DESERIALIZE → d_node d = Some Q →
  Forall (λ e, matching e.1.1 (Some e.1.2) Q = f_nodes e.1.1 e.1.2 e.2) l →
  fields_end (d_buf d) l ≤ d_stopper d →
  (∀ b, d_buf d ≤ b < fields_end (d_buf d) l → d_mem d !! b = None) →
  ∃ i m' brk' new,
    struct_fields (runs (table l)) d =
    Some (0, SData m' brk' (d_allocs d ++ new) (fields_end (d_buf d) l) (d_stopper d) (d_mode d) i (d_node d)) ∧
    all_hold m' (d_buf d) l ∧
    (∀ b, b < d_buf d ∨ fields_end (d_buf d) l ≤ b → m' !! b = d_mem d !! b) ∧
    new = all_strs m' (d_buf d) l ∧ allocated (d_brk d) new brk'.
Proof.
  induction l as [|[[ns name] f] l IH]; intros d Hl Hm Hn Hq Hst Hz.
  - exists (d_index d), (d_mem d), (d_brk d), []. rewrite app_nil_r. split_and!; [by destruct d|done..|apply allocated_nil].
  - apply Forall_cons in Hl as [Hw Hl], Hq as [Hq Hql]. cbn [all_hold all_strs fields_end fst snd] in *.
    pose proof (fields_end_ge l (f_end f (d_buf d)) Hl). pose proof (f_addr_bounds f (d_buf d) Hw).
    destruct (read_field ns name f d Q Hw Hm Hn Hq ltac:(lia)) as (r & i & m1 & brk1 & new1 & Hr & E & Hh & Hfr & Hnew & Hal).
    { intros b Hb. apply Hz. lia. }
    destruct (IH (SData m1 brk1 (d_allocs d ++ new1) (f_end f (d_buf d)) (d_stopper d) (d_mode d) i (d_node d)))
      as (i' & m' & brk' & new' & E' & Hh' & Hfr' & Hnew' & Hal'); [done..| |].
    { cbn. intros b Hb. rewrite Hfr by lia. apply Hz. lia. }
    cbn in E', Hh', Hfr', Hnew', Hal'.
    destruct (holds_ext m1 m' (f_addr f (d_buf d)) f Hw) as [Hx1 Hx2].
    { intros b Hb. apply Hfr'. left. exact (proj2 Hb). }
    exists i', m', brk', (new1 ++ new'). split_and!.
    + cbn [table runs fmap list_fmap struct_fields fst snd]. change (has_flag SER_SKIP _) with false. cbn iota.
      rewrite E. cbn [mbind option_bind]. rewrite (proj2 (Z.ltb_ge r 0)) by lia. by rewrite app_assoc.
    + by apply Hx1.
    + done.
    + intros b Hb. rewrite Hfr' by lia. apply Hfr. lia.
    + by rewrite Hx2, <- Hnew, <- Hnew'.
    + by eapply allocated_app.
Qed.

Lemma free_fields l : ∀ d,
  Forall (λ e, writable e.2) l → d_mode d = XML_SMODE_FREE_MEM → all_hold (d_mem d) (d_buf d) l →
  fields_end (d_buf d) l ≤ d_stopper d →
  ∃ i m', struct_fields (runs (table l)) d =
    Some (0, SData m' (d_brk d) (free_all (d_allocs d) (all_strs (d_mem d) (d_buf d) l)) (fields_end (d_buf d) l)
               (d_stopper d) (d_mode d) i (d_node d)).
Proof.
  induction l as [|[[ns name] f] l IH]; intros d Hl Hm Hh Hst.
  - exists (d_index d), (d_mem d). by destruct d.
  - apply Forall_cons in Hl as [Hw Hl]. cbn [all_hold all_strs fields_end fst snd] in *. destruct Hh as [Hh Hh'].
    pose proof (fields_end_ge l (f_end f (d_buf d)) Hl). pose proof (f_addr_bounds f (d_buf d) Hw).
    destruct (free_field ns name f d Hw Hm Hh ltac:(lia)) as (r & i & m1 & Hr & E & Hfr).
    destruct (all_hold_ext (d_mem d) m1 l (f_end f (d_buf d)) Hl) as [Hx1 Hx2].
    { intros b Hb. apply Hfr. lia. }
    destruct (IH (SData m1 (d_brk d) (free_all (d_allocs d) (f_strs (d_mem d) (f_addr f (d_buf d)) f)) (f_end f (d_buf d))
      (d_stopper d) (d_mode d) i (d_node d))) as (i' & m' & E'); [done|done|by apply Hx1|done|].
    cbn in E'. rewrite Hx2 in E'. exists i', m'.
    cbn [table runs fmap list_fmap struct_fields fst snd]. change (has_flag SER_SKIP _) with false. cbn iota.
    rewrite E. cbn [mbind option_bind]. rewrite (proj2 (Z.ltb_ge r 0)) by lia. unfold free_all in *. rewrite foldl_app.
    exact E'.
Qed.

(** *** The elements of the structure *)

Lemma f_nodes_named ns name f : Forall (λ n, ∃ c, n = XElement ns name [] c) (f_nodes ns name f).
Proof.
  destruct f as [s w vs|b|s]; cbn [f_nodes].
  - apply Forall_fmap, Forall_true. intros n. apply text_node_named.
  - constructor; [apply text_node_named|constructor].
  - rewrite nil_if_text. constructor; [apply text_node_named|constructor].
Qed.

Lemma named_all ns name l :
  Forall (λ n, ∃ c, n = XElement ns name [] c) l →
  filter (λ n, ws_xml_is_node_qname (Some n) ns (Some name) = true) (element_children l) = l.
Proof.
  induction 1 as [|n l [c ->] _ IH]; [done|]. cbn [element_children is_element].
  by rewrite filter_cons_True, IH by apply qname_self.
Qed.

Lemma named_none ns name ns' name' l :
  name ≠ name' → Forall (λ n, ∃ c, n = XElement ns name [] c) l →
  filter (λ n, ws_xml_is_node_qname (Some n) ns' (Some name') = true) (element_children l) = [].
Proof.
  intros Hne. induction 1 as [|n l [c ->] _ IH]; [done|]. cbn [element_children is_element].
  rewrite filter_cons_False; [done|]. cbn. destruct (str_eqb_spec name' name); [by subst|by rewrite andb_false_r].
Qed.

Lemma element_children_app l1 l2 : element_children (l1 ++ l2) = element_children l1 ++ element_children l2.
Proof. rewrite !element_children_filter. apply filter_app. Qed.

Lemma all_nodes_cons e l : all_nodes (e :: l) = f_nodes e.1.1 e.1.2 e.2 ++ all_nodes l.
Proof. done. Qed.

Lemma all_nodes_none ns name l :
  name ∉ (λ e, e.1.2) <$> l →
  filter (λ n, ws_xml_is_node_qname (Some n) ns (Some name) = true) (element_children (all_nodes l)) = [].
Proof.
  induction l as [|e l IH]; [done|]. intros [Hne Hl]%not_elem_of_cons.
  rewrite all_nodes_cons, element_children_app, filter_app, IH by done.
  by rewrite (named_none e.1.1 e.1.2) by (done || apply f_nodes_named).
Qed.

(** Each field finds its own elements. *)
Lemma matching_fields ns name l :
  NoDup ((λ e, e.1.2) <$> l) →
  Forall (λ e, matching e.1.1 (Some e.1.2) (XElement ns name [] (all_nodes l)) = f_nodes e.1.1 e.1.2 e.2) l.
Proof.
  unfold matching. cbn [x_children]. induction l as [|e l IH]; [by constructor|].
  intros [Hne Hl]%NoDup_cons. constructor.
  - rewrite all_nodes_cons, element_children_app, filter_app, all_nodes_none, app_nil_r by done.
    apply named_all, f_nodes_named.
  - specialize (IH Hl). rewrite Forall_forall in IH. apply Forall_forall. intros e' He'.
    rewrite all_nodes_cons, element_children_app, filter_app, IH by done.
    rewrite (named_none e.1.1 e.1.2); [done| |apply f_nodes_named].
    intros Heq. apply Hne. rewrite Heq. exact (list_elem_of_fmap_2 (λ e, e.1.2) l e' He').
Qed.

(** *** Layout *)

Lemma round_up_shift w a k : w = 1 ∨ w = 2 ∨ w = 4 ∨ w = 8 → round_up w (a + 8 * k) = round_up w a.
Proof.
  intros Hw. unfold round_up.
  assert (exists q, 8 * k = (k * q) * w) as [q ->] by (destruct Hw as [->|[->|[->| ->]]]; [exists 8|exists 4|exists 2|exists 1]; lia).
  by rewrite Z_mod_plus_full.
Qed.

Lemma fields_end_shift l k : ∀ a,
  Forall (λ e, writable e.2) l → fields_end (a + 8 * k) l = fields_end a l + 8 * k.
Proof.
  induction l as [|e l IH]; intros a Hl; [done|]. apply Forall_cons in Hl as [He Hl]. cbn [fields_end].
  rewrite <- IH by done. f_equal. unfold f_end, f_addr. rewrite round_up_shift; [lia|].
  destruct (e.2); cbn; [by destruct He|auto..].
Qed.

Lemma mod_16_8 a : a mod 16 = 0 → a mod 8 = 0.
Proof.
  intros Ha. rewrite (Z_div_exact_full_2 a 16) by lia. replace (16 * (a / 16)) with (0 + (2 * (a / 16)) * 8) by lia.
  by rewrite Z_mod_plus_full.
Qed.

(** *** Freeing what was allocated *)

Lemma remove_first_last x l r : x ∉ l → remove_first x (l ++ x :: r) = l ++ r.
Proof.
  induction l as [|y l IH]; cbn [app remove_first].
  - intros _. by rewrite Z.eqb_refl.
  - intros [Hne Hl]%not_elem_of_cons. by rewrite (proj2 (Z.eqb_neq x y)), IH.
Qed.

Lemma free_all_last l xs : Forall (λ x, 0 < x ∧ x ∉ l) xs → free_all (l ++ xs) xs = l.
Proof.
  induction xs as [|x xs IH]; intros H; [apply app_nil_r|]. apply Forall_cons in H as [[Hx Hl] H].
  cbn [free_all foldl]. rewrite (proj2 (Z.eqb_neq x 0)), remove_first_last by (done || lia). by apply IH.
Qed.

(** *** The structure *)

Section Whole.
Variables (ns : option string) (name : string) (size : Z) (l : list (option string * string * field)).
Hypothesis Hsize : 0 < size < 2 ^ 31.
Hypothesis Hw : Forall (λ e, writable e.2) l.

Definition struct_info : XmlSerializerInfo := (Hdr ns name 1 1 size 0, do_serialize_struct_p (table l)).
Definition head : hdr := set_name name ns struct_info.1.

Lemma head_struct d :
  d_buf d mod 8 = 0 → d_stopper d = d_buf d + size → d_mode d ≠ XML_SMODE_SKIP →
  do_proc struct_info.2 head d =
  '(r, d') ← struct_one (struct_fields (runs (table l))) head size d;
  Some (if r <? 0 then r else size, set_index (d_index d) d').
Proof.
  intros Ha Hst Hm. unfold struct_info. cbn [snd]. rewrite do_proc_struct. unfold do_serialize_struct, get_struct_align.
  rewrite round_up_0 by done. change (has_flag SER_HEAD head) with true. cbn [Z.eqb negb orb]. rewrite decide_False by done.
  change (h_size head) with size. rewrite sint32_small by lia. rewrite Hst, Z.ltb_irrefl.
  assert (must_be_skipped head d = false) as -> by (unfold must_be_skipped; by destruct (d_mode d)).
  assert (set_buf (d_buf d + 0) d = d) as -> by (rewrite Z.add_0_r; by destruct d).
  cbn [struct_loop]. destruct (struct_one _ _ _ _) as [[r d']|]; [|done]. cbn [mbind option_bind].
  by destruct (r <? 0).
Qed.

(** The element that is written. *)
Definition struct_node : xnode := XElement ns name [] (all_nodes l).

Hypothesis Hfit : fields_end 0 l ≤ size.

Lemma struct_fits a : a mod 8 = 0 → fields_end a l ≤ a + size.
Proof.
  intros Ha. rewrite (Z_div_exact_full_2 a 8) by lia. pose proof (fields_end_shift l (a / 8) 0 Hw). rewrite Z.add_0_l in *. lia.
Qed.

Lemma struct_written m brk al a P :
  a mod 8 = 0 → all_hold m a l →
  ∃ d, ws_serialize m brk al P a struct_info name ns = Some (size, d) ∧ d_node d = Some (add_node P struct_node) ∧
       d_mem d = m ∧ d_brk d = brk ∧ d_allocs d = al.
Proof.
  intros Ha Hh. pose proof (struct_fits a Ha) as Hend. unfold ws_serialize. fold head.
  rewrite head_struct; [|done..]. unfold struct_one. cbn [d_mode].
  rewrite (proj2 (Z.ltb_lt 0 size)) by lia. change (h_ns head) with ns. change (h_name head) with name.
  destruct (write_fields l (set_stopper (a + size) (set_node (Some (text_node ns name None))
    (SData m brk al a (a + size) XML_SMODE_SERIALIZE 0 (Some P)))) (text_node ns name None)) as [i E]; [done..|].
  change (h_size head) with size. cbn [d_buf]. rewrite E. cbn [mbind option_bind d_node set_index set_buf set_node].
  cbn [Z.ltb Z.compare]. unfold handle_attrs. change (has_flag SER_ATTRS head) with false. cbn [negb mbind option_bind].
  rewrite (proj2 (Z.ltb_ge size 0)) by lia. eexists. split; [reflexivity|]. cbn.
  unfold struct_node, text_node. by rewrite new_node_empty, foldl_add_node.
Qed.

Hypothesis Hnames : NoDup ((λ e, e.1.2) <$> l).

(** The structure is read into a new block, and each of its strings into one of
    its own. *)
Lemma struct_read m brk al Q index :
  brk mod 16 = 0 → (∀ b, brk ≤ b → m !! b = None) → 0 ≤ index →
  matching ns (Some name) Q !! Z.to_nat index = Some struct_node →
  ∃ m' brk' i nd new,
    ws_deserialize m brk al Q struct_info name ns index =
    Some (Some brk, SData m' brk' ((al ++ [brk]) ++ new) (brk + size) (brk + size) XML_SMODE_DESERIALIZE i nd) ∧
    all_hold m' brk l ∧ new = all_strs m' brk l ∧ allocated (brk + size) new brk'.
Proof.
  intros Hb Hz Hi Hq. pose proof (mod_16_8 brk Hb) as Hb8.
  pose proof (struct_fits brk Hb8) as Hend. pose proof (fields_end_ge l brk Hw).
  pose proof (round_up_bounds 16 (brk + size) ltac:(lia)) as Hru.
  unfold ws_deserialize, ws_serializer_alloc. fold head. change (h_size head) with size. cbn [d_brk d_allocs d_mem].
  change (set_stopper _ (set_buf _ _)) with
    (SData m (brk + size + round_up 16 (brk + size)) (al ++ [brk]) brk (brk + size) XML_SMODE_DESERIALIZE index (Some Q)).
  rewrite head_struct; [|done..]. unfold struct_one. cbn [d_mode].
  unfold xml_serializer_get_child. cbn [d_node d_index d_mode]. change (h_ns head) with ns. change (h_name head) with name.
  rewrite ws_xml_get_child_matching, Hq by done. rewrite (proj2 (Z.ltb_lt 0 size)) by lia. change (h_size head) with size.
  destruct (read_fields struct_node l (set_stopper (brk + size) (set_node (Some struct_node)
    (SData m (brk + size + round_up 16 (brk + size)) (al ++ [brk]) brk (brk + size) XML_SMODE_DESERIALIZE index (Some Q)))))
    as (i & m' & brk' & new & E & Hh & _ & Hnew & Hal); [done|done|done|by apply matching_fields|exact Hend| |].
  { cbn. intros b Hb'. apply Hz. lia. }
  cbn [d_buf d_brk set_stopper set_node d_mode d_stopper d_allocs d_node d_mem d_index] in *. rewrite E.
  cbn [mbind option_bind Z.ltb Z.compare]. unfold handle_attrs. change (has_flag SER_ATTRS head) with false.
  cbn [negb mbind option_bind]. rewrite (proj2 (Z.ltb_ge size 0)), (proj2 (Z.leb_gt size 0)) by lia.
  eexists m', brk', _, _, new. split_and!; [reflexivity|done|done|].
  destruct Hal as (H1 & H2 & H3). split_and!; [lia| |done]. eapply Forall_impl; [exact H2|]. cbn. lia.
Qed.

Lemma struct_freed a d :
  a mod 8 = 0 → a ≠ 0 → all_hold (d_mem d) a l →
  ∃ d', ws_serializer_free_mem a struct_info d = Some (size, d') ∧
        d_allocs d' = remove_first a (free_all (d_allocs d) (all_strs (d_mem d) a l)).
Proof.
  intros Ha Ha0 Hh. pose proof (struct_fits a Ha) as Hend. unfold ws_serializer_free_mem. change (set_name _ _ _) with head.
  rewrite head_struct; [|done..]. unfold struct_one. cbn [d_mode d_node d_buf].
  rewrite (proj2 (Z.ltb_lt 0 size)) by lia. change (h_size head) with size.
  destruct (free_fields l (set_stopper (a + size) (set_node None
    (SData (d_mem d) (d_brk d) (d_allocs d) a (a + size) XML_SMODE_FREE_MEM 0 None)))) as (i & m' & E); [done..|].
  rewrite E. cbn [mbind option_bind Z.ltb Z.compare]. rewrite (proj2 (Z.ltb_ge size 0)), (proj2 (Z.leb_le 0 size)) by lia.
  eexists. split; [reflexivity|]. unfold ws_serializer_free. by rewrite (proj2 (Z.eqb_neq a 0)).
Qed.
End Whole.

Lemma matching_add ns name p c P :
  is_element P = true →
  matching ns (Some name) (add_node P (XElement ns name p c)) = matching ns (Some name) P ++ [XElement ns name p c].
Proof.
  destruct P as [ns0 nm0 ps cs|]; [|done]. intros _. unfold matching. cbn [x_children add_node].
  rewrite element_children_app, filter_app. f_equal. cbn [element_children is_element].
  by rewrite filter_cons_True by apply qname_self.
Qed.

(** C20: structures survive a round trip through XML: a structure of arrays of
    numbers, booleans and strings under different names is written as a new
    child of an element and read back from there into fresh memory with the
    same value in every field. *)
Theorem struct_roundtrip ns name size l m brk al a P m' brk' al' :
  0 < size < 2 ^ 31 → Forall (λ e, writable e.2) l → fields_end 0 l ≤ size → NoDup ((λ e, e.1.2) <$> l) →
  a mod 8 = 0 → all_hold m a l → is_element P = true →
  brk' mod 16 = 0 → (∀ b, brk' ≤ b → m' !! b = None) →
  ∃ d1 P1 d2,
    ws_serialize m brk al P a (struct_info ns name size l) name ns = Some (size, d1) ∧ d_node d1 = Some P1 ∧
    ws_deserialize m' brk' al' P1 (struct_info ns name size l) name ns (Z.of_nat (length (matching ns (Some name) P))) =
      Some (Some brk', d2) ∧
    all_hold (d_mem d2) brk' l.
Proof.
  intros Hs Hw Hf Hn Ha Hh HP Hb Hz.
  destruct (struct_written ns name size l Hs Hw Hf m brk al a P Ha Hh) as (d1 & E1 & H1 & _).
  destruct (struct_read ns name size l Hs Hw Hf Hn m' brk' al' (add_node P (struct_node ns name l))
    (Z.of_nat (length (matching ns (Some name) P))) Hb Hz ltac:(lia)) as (m2 & brk2 & i & nd & new & E2 & Hh2 & _).
  { unfold struct_node. rewrite matching_add, Nat2Z.id, lookup_app_r, Nat.sub_diag by done. done. }
  eexists _, _, _. split_and!; [exact E1|exact H1|exact E2|exact Hh2].
Qed.

(** C22: nothing that reading a structure allocates is lost: after the structure
    that was read is freed the serializer's list of allocations is what it was
    before. *)
Theorem struct_no_leak ns name size l m brk al Q index :
  0 < size < 2 ^ 31 → Forall (λ e, writable e.2) l → fields_end 0 l ≤ size → NoDup ((λ e, e.1.2) <$> l) →
  brk mod 16 = 0 → 0 < brk → (∀ b, brk ≤ b → m !! b = None) → Forall (λ x, x < brk) al → 0 ≤ index →
  matching ns (Some name) Q !! Z.to_nat index = Some (struct_node ns name l) →
  ∃ d d', ws_deserialize m brk al Q (struct_info ns name size l) name ns index = Some (Some brk, d) ∧
          ws_serializer_free_mem brk (struct_info ns name size l) d = Some (size, d') ∧ d_allocs d' = al.
Proof.
  intros Hs Hw Hf Hn Hb Hb0 Hz Hal Hi Hq.
  destruct (struct_read ns name size l Hs Hw Hf Hn m brk al Q index Hb Hz Hi Hq) as (m2 & brk2 & i & nd & new & E2 & Hh2 & Hnew & Ha2).
  eexists. edestruct (struct_freed ns name size l Hs Hw Hf brk) as (d' & E3 & H3);
    [exact (mod_16_8 brk Hb)|lia| |exists d'; split_and!; [exact E2|exact E3|]]; [exact Hh2|].
  rewrite H3. cbn [d_allocs d_mem]. rewrite <- Hnew, free_all_last.
  - rewrite remove_first_last; [apply app_nil_r|]. intros Hin. rewrite Forall_forall in Hal. specialize (Hal _ Hin). lia.
  - destruct Ha2 as (_ & Hr & _). eapply Forall_impl; [exact Hr|]. intros x Hx. cbn in Hx. split; [lia|].
    intros [Hin|Hin%list_elem_of_singleton]%elem_of_app; [|lia]. rewrite Forall_forall in Hal. specialize (Hal _ Hin). lia.
Qed.
End Struct.

(** ** Witnesses *)

Definition sample_fields : list (option string * string * field) :=
  [(None, "Id", FNums false 2 [7]); (None, "Enabled", FBool true); (None, "Name", FStr (Some "disk"));
   (None, "Sizes", FNums true 4 [5; 4294967295])].

Definition sample_struct : gmap Z cell :=
  <[4096 := CInt 2 7]> (<[4100 := CInt 4 1]> (<[4104 := CStr (Some (8192, "disk"))]>
    (<[4112 := CInt 4 5]> (<[4116 := CInt 4 4294967295]> ∅)))).

Lemma sample_fields_writable : Forall (λ e, writable e.2) sample_fields.
Proof.
  unfold sample_fields.
  repeat (apply Forall_cons; split; cbn [snd writable]); [|done|done| |constructor];
    (split; [lia|split; [|cbn; lia]]); repeat constructor; try lia; (eexists; vm_compute; reflexivity).
Defined.

Lemma sample_names : NoDup ((λ e : option string * string * field, e.1.2) <$> sample_fields).
Proof. by apply (bool_decide_unpack _). Defined.

Lemma sample_holds : all_hold sample_struct 4096 sample_fields.
Proof.
  cbn [all_hold sample_fields fst snd]. split_and!; [|reflexivity|reflexivity| |done]; intros j n Hj.
  - destruct j as [|j]; [|done]. injection Hj as <-. reflexivity.
  - destruct j as [|[|j]]; [| |done]; injection Hj as <-; reflexivity.
Defined.

Lemma struct_roundtrip_witness :
  ∃ d1 P1 d2,
    @ws_serialize TreeXml sample_struct 65536 [] (el "urn:d" "Body" []) 4096 (struct_info None "Disk" 24 sample_fields) "Disk" None =
      Some (24, d1) ∧ d_node d1 = Some P1 ∧
    @ws_deserialize TreeXml ∅ 32 [] P1 (struct_info None "Disk" 24 sample_fields) "Disk" None 0 = Some (Some 32, d2) ∧
    all_hold (d_mem d2) 32 sample_fields.
Proof.
  exact (@struct_roundtrip TreeXml TreeXmlLaws None "Disk" 24 sample_fields sample_struct 65536 [] 4096 (el "urn:d" "Body" [])
    ∅ 32 [] ltac:(lia) sample_fields_writable ltac:(vm_compute; discriminate) sample_names eq_refl sample_holds eq_refl eq_refl
    ltac:(intros; apply lookup_empty)).
Defined.

Lemma struct_no_leak_witness :
  ∃ d d', @ws_deserialize TreeXml ∅ 32 [16] (el "urn:d" "Body" [@struct_node TreeXml None "Disk" sample_fields])
            (struct_info None "Disk" 24 sample_fields) "Disk" None 0 = Some (Some 32, d) ∧
          @ws_serializer_free_mem TreeXml 32 (struct_info None "Disk" 24 sample_fields) d = Some (24, d') ∧ d_allocs d' = [16].
Proof.
  apply (@struct_no_leak TreeXml TreeXmlLaws None "Disk" 24 sample_fields ∅ 32 [16]
    (el "urn:d" "Body" [@struct_node TreeXml None "Disk" sample_fields]) 0); try done; try lia.
  - exact sample_fields_writable.
  - exact sample_names.
  - repeat constructor; lia.
Defined.
