(* ===== verification/Runtime.v ===== *)
(** * The SOAP runtime ([wsman-soap.c], [wsman-dispatcher.c])

    How the endpoints of the plugins are registered, the table the dispatcher
    chooses from, and the life of the dispatch entries and operations.  Entries
    are objects of a heap, and [None] is an access to one that was freed or a
    write outside of a block. *)

From S2P Require Import Prelude.
From S2P Require Import CString.
From S2P Require Import Names.
From S2P Require Import Xml.
From S2P Require Import Envelope.
From S2P Require Import Routing.

#[local] Open Scope string_scope.
#[local] Open Scope list_scope.
#[local] Open Scope Z_scope.
#[local] Open Scope ow_scope.

(** ** Endpoints and their callbacks *)

Definition WS_DISP_TYPE_MASK : Z := 0xffff.
Definition WS_DISP_TYPE_RAW_DOC : Z := 0.
Definition WS_DISP_TYPE_GET : Z := 1.
Definition WS_DISP_TYPE_PUT : Z := 2.
Definition WS_DISP_TYPE_DELETE : Z := 4.
Definition WS_DISP_TYPE_ENUMERATE : Z := 5.
Definition WS_DISP_TYPE_PULL : Z := 6.
Definition WS_DISP_TYPE_RELEASE : Z := 7.
Definition WS_DISP_TYPE_DIRECT_PULL : Z := 12.
Definition WS_DISP_TYPE_DIRECT_GET : Z := 13.
Definition WS_DISP_TYPE_CUSTOM_METHOD : Z := 15.
Definition WS_DISP_TYPE_DIRECT_PUT : Z := 16.
Definition WS_DISP_TYPE_IDENTIFY : Z := 17.
Definition WS_DISP_TYPE_DIRECT_CREATE : Z := 18.
Definition WS_DISP_TYPE_DIRECT_DELETE : Z := 19.
Definition WS_DISP_TYPE_SUBSCRIBE : Z := 22.
Definition WS_DISP_TYPE_UNSUBSCRIBE : Z := 23.
Definition WS_DISP_TYPE_RENEW : Z := 24.
Definition WS_DISP_TYPE_PRIVATE : Z := 0xfffe.

Definition SOAP_CUSTOM_DISPATCHER : Z := 0x40.

(** The stubs, and the endpoint itself for the types that are not wrapped. *)
Inductive SoapServiceCallback :=
  | wsman_identify_stub
  | wsenum_enumerate_stub
  | wsenum_release_stub
  | ws_transfer_delete_stub
  | wsenum_pull_stub
  | wsenum_pull_direct_stub
  | ws_transfer_get_stub
  | ws_transfer_put_stub
  | wse_subscribe_stub
  | wse_unsubscribe_stub
  | wse_renew_stub
  | serviceEndPoint.

Record WsDispatchEndPointInfo := EndPoint {
  ep_flags : Z;
  ep_inAction : option string;
}.

(** The switch over the type of an endpoint. *)
Definition endpoint_callback (ep : WsDispatchEndPointInfo) : option SoapServiceCallback :=
  let type := Z.land (ep_flags ep) WS_DISP_TYPE_MASK in
  if type =? WS_DISP_TYPE_IDENTIFY then Some wsman_identify_stub
  else if type =? WS_DISP_TYPE_ENUMERATE then Some wsenum_enumerate_stub
  else if type =? WS_DISP_TYPE_RELEASE then Some wsenum_release_stub
  else if type =? WS_DISP_TYPE_DELETE then Some ws_transfer_delete_stub
  else if type =? WS_DISP_TYPE_PULL then Some wsenum_pull_stub
  else if type =? WS_DISP_TYPE_DIRECT_PULL then Some wsenum_pull_direct_stub
  else if type =? WS_DISP_TYPE_GET then Some ws_transfer_get_stub
  else if type =? WS_DISP_TYPE_DIRECT_GET then Some serviceEndPoint
  else if type =? WS_DISP_TYPE_DIRECT_DELETE then Some serviceEndPoint
  else if type =? WS_DISP_TYPE_DIRECT_PUT then Some serviceEndPoint
  else if type =? WS_DISP_TYPE_DIRECT_CREATE then Some serviceEndPoint
  else if type =? WS_DISP_TYPE_PUT then Some ws_transfer_put_stub
  else if type =? WS_DISP_TYPE_SUBSCRIBE then Some wse_subscribe_stub
  else if type =? WS_DISP_TYPE_UNSUBSCRIBE then Some wse_unsubscribe_stub
  else if type =? WS_DISP_TYPE_RENEW then Some wse_renew_stub
  else if type =? WS_DISP_TYPE_RAW_DOC then Some serviceEndPoint
  else if type =? WS_DISP_TYPE_CUSTOM_METHOD then Some serviceEndPoint
  else if type =? WS_DISP_TYPE_PRIVATE then Some serviceEndPoint
  else None.

(** ** Dispatch entries *)

Record SoapDispatch := Dispatch {
  usageCount : Z;
  inboundAction : option string;
  outboundAction : option string;
  flags : Z;
  serviceCallback : SoapServiceCallback;
  serviceData : WsDispatchEndPointInfo;
}.

(** The SOAP handle: its entries, the list of started ones, and the lists that
    were made but not kept. *)
Record soap_rt := SoapRt {
  r_heap : gmap positive SoapDispatch;
  dispatchList : option (list positive);
  lost_lists : list (list positive);
}.

Definition with_heap (h : gmap positive SoapDispatch) (s : soap_rt) : soap_rt :=
  SoapRt h (dispatchList s) (lost_lists s).
Definition with_dispatchList (l : list positive) (s : soap_rt) : soap_rt :=
  SoapRt (r_heap s) (Some l) (lost_lists s).

Definition with_usage (n : Z) (e : SoapDispatch) : SoapDispatch :=
  Dispatch n (inboundAction e) (outboundAction e) (flags e) (serviceCallback e) (serviceData e).

(** [wsman_dispatch_create]: the new entry has one user, the table. *)
Definition create_dispatch_entry (inbound outbound : option string) (proc : SoapServiceCallback)
    (data : WsDispatchEndPointInfo) (fl : Z) : SoapDispatch :=
  Dispatch 1 inbound outbound fl proc data.

Definition wsman_dispatch_create (inbound outbound : option string) (proc : SoapServiceCallback)
    (data : WsDispatchEndPointInfo) (fl : Z) (s : soap_rt) : positive * soap_rt :=
  let p := fresh (dom (r_heap s)) in
  (p, with_heap (<[p := create_dispatch_entry inbound outbound proc data fl]> (r_heap s)) s).

(** Without a list one is made, but the handle does not get it. *)
Definition wsman_dispatch_start (p : positive) (s : soap_rt) : soap_rt :=
  match dispatchList s with
  | Some l => with_dispatchList (l ++ [p]) s
  | None => SoapRt (r_heap s) None (lost_lists s ++ [[p]])
  end.

(** The node of the list is the first member of the entry, so [lnode_destroy]
    of an entry that is in the list frees it before it is read again. *)
Definition destroy_dispatch_entry (p : positive) (s : soap_rt) : option soap_rt :=
  e ← r_heap s !! p;
  let n := sint 32 (usageCount e - 1) in
  if n =? 0 then
    if bool_decide (p ∈ default [] (dispatchList s)) then None
    else Some (with_heap (delete p (r_heap s)) s)
  else Some (with_heap (<[p := with_usage n e]> (r_heap s)) s).

(** [usageCount++] of the entry the dispatcher chose, without the lock. *)
Definition get_dispatch_entry (p : positive) (s : soap_rt) : option soap_rt :=
  e ← r_heap s !! p;
  Some (with_heap (<[p := with_usage (sint 32 (usageCount e + 1)) e]> (r_heap s)) s).

(** An operation is its entry; its end takes the entry off the list. *)
Definition destroy_op_entry (op : option positive) (s : soap_rt) : option soap_rt :=
  match op with
  | None => Some s
  | Some p =>
      _ ← r_heap s !! p;
      let s := match dispatchList s with
               | Some l => with_dispatchList (filter (λ q, q ≠ p) l) s
               | None => s
               end in
      destroy_dispatch_entry p s
  end.

Definition soap_create_op (inbound outbound : option string) (proc : SoapServiceCallback)
    (data : WsDispatchEndPointInfo) (fl : Z) (s : soap_rt) : positive * soap_rt :=
  wsman_dispatch_create inbound outbound proc data fl s.

(** What [soap_destroy] does with the entries: those in the list are destroyed,
    each call one use less.  The fuel is the number of uses. *)
Fixpoint destroy_listed (fuel : nat) (s : soap_rt) : option soap_rt :=
  match dispatchList s with
  | None | Some [] => Some s
  | Some (p :: _) =>
      match fuel with
      | O => None
      | S f => s ← destroy_dispatch_entry p s; destroy_listed f s
      end
  end.

Definition soap_destroy (s : soap_rt) : option soap_rt :=
  destroy_listed (Z.to_nat (map_fold (λ _ e n, usageCount e + n) 0 (r_heap s))) s.

(** ** Registration *)

(** An interface with the flags of its endpoints. *)
Record interface := InterfaceInfo {
  i_resourceUri : option string;
  i_namespaces : option (list (option string));
  i_endPoints : list WsDispatchEndPointInfo;
}.

Definition sizeof_WsManDispatcherInfo : Z := 32.
Definition sizeof_DispatchToEpMap : Z := 16.
Definition offset_map : Z := 16.

Definition calculate_map_count (l : list interface) : Z :=
  let count := foldr (λ i n, Z.of_nat (length (i_endPoints i)) + n) 0 l in
  sint 32 (Z.of_nat (length l) * sizeof_WsManDispatcherInfo + count * sizeof_DispatchToEpMap).

(** The table: its block and the entries written to it. *)
Record dispatch_table := Table {
  t_size : Z;
  t_map : list (ep_pos * positive);
}.

(** [map[mapCount]] is written within the block or not at all. *)
Definition table_append (ep : ep_pos) (p : positive) (t : dispatch_table) : option dispatch_table :=
  if offset_map + sizeof_DispatchToEpMap * (Z.of_nat (length (t_map t)) + 1) <=? t_size t
  then Some (Table (t_size t) (t_map t ++ [(ep, p)])) else None.

Definition wsman_register_endpoint (pos : ep_pos) (ep : WsDispatchEndPointInfo) (t : dispatch_table) (s : soap_rt)
  : option (bool * dispatch_table * soap_rt) :=
  match endpoint_callback ep with
  | None => Some (false, t, s)
  | Some proc =>
      let '(p, s) := wsman_dispatch_create (ep_inAction ep) None proc ep SOAP_CUSTOM_DISPATCHER s in
      t ← table_append pos p t;
      Some (true, t, wsman_dispatch_start p s)
  end.

Fixpoint register_endpoints (i j : nat) (l : list WsDispatchEndPointInfo) (t : dispatch_table) (s : soap_rt)
  : option (bool * dispatch_table * soap_rt) :=
  match l with
  | [] => Some (true, t, s)
  | ep :: l =>
      '(ok, t, s) ← wsman_register_endpoint (i, j) ep t s;
      if ok : bool then register_endpoints i (S j) l t s else Some (false, t, s)
  end.

Definition wsman_register_interface (i : nat) (ifc : interface) (t : dispatch_table) (s : soap_rt)
  : option (bool * dispatch_table * soap_rt) :=
  register_endpoints i 0 (i_endPoints ifc) t s.

Fixpoint register_interfaces (i : nat) (l : list interface) (t : dispatch_table) (s : soap_rt)
  : option (bool * dispatch_table * soap_rt) :=
  match l with
  | [] => Some (true, t, s)
  | ifc :: l =>
      '(ok, t, s) ← wsman_register_interface i ifc t s;
      if ok : bool then register_interfaces (S i) l t s else Some (false, t, s)
  end.

Definition ws_soap_initialize : soap_rt := SoapRt ∅ None [].

Definition routing_interface (i : interface) : WsDispatchInterfaceInfo :=
  Interface (i_resourceUri i) (i_namespaces i) (ep_inAction <$> i_endPoints i).

(** The runtime and what its dispatcher is given; without interfaces there is
    no dispatcher.  The table's header is written before the entries. *)
Definition ws_create_runtime (interfaces : option (list interface))
  : option (option (soap_rt * option (WsManDispatcherInfo (D := positive)))) :=
  let s := ws_soap_initialize in
  match interfaces with
  | None => Some (Some (s, None))
  | Some l =>
      let size := calculate_map_count l in
      if size <? offset_map then None
      else
        '(ok, t, s) ← register_interfaces 0 l (Table size []) s;
        if ok : bool then Some (Some (s, Some (DispatcherInfo (routing_interface <$> l) (t_map t))))
        else '_ ← soap_destroy s; Some None
  end.

(** ** Registration is complete *)

Fixpoint ep_positions (i j : nat) (l : list WsDispatchEndPointInfo) : list (ep_pos * WsDispatchEndPointInfo) :=
  match l with [] => [] | ep :: l => ((i, j), ep) :: ep_positions i (S j) l end.

Fixpoint all_positions (i : nat) (l : list interface) : list (ep_pos * WsDispatchEndPointInfo) :=
  match l with [] => [] | ifc :: l => ep_positions i 0 (i_endPoints ifc) ++ all_positions (S i) l end.

(** The entry that is made for an endpoint. *)
Definition entry_for (ep : WsDispatchEndPointInfo) (proc : SoapServiceCallback) : SoapDispatch :=
  create_dispatch_entry (ep_inAction ep) None proc ep SOAP_CUSTOM_DISPATCHER.

(** A row of the table belongs to an endpoint. *)
Definition row_for (s : soap_rt) (e : ep_pos * WsDispatchEndPointInfo) (r : ep_pos * positive) : Prop :=
  e.1 = r.1 ∧ ∃ proc, endpoint_callback e.2 = Some proc ∧ r_heap s !! r.2 = Some (entry_for e.2 proc).

Record registered (eps : list (ep_pos * WsDispatchEndPointInfo)) (t : dispatch_table) (s : soap_rt) : Prop := {
  reg_rows : Forall2 (row_for s) eps (t_map t);
  reg_distinct : NoDup (t_map t).*2;
  reg_list : dispatchList s = None;
}.

Definition known (ep : WsDispatchEndPointInfo) : bool := bool_decide (is_Some (endpoint_callback ep)).

(** The table has room for [n] more rows. *)
Definition room (t : dispatch_table) (n : nat) : Prop :=
  offset_map + sizeof_DispatchToEpMap * (Z.of_nat (length (t_map t)) + Z.of_nat n) ≤ t_size t.

Lemma register_endpoint_known pos ep eps t s n :
  registered eps t s → known ep = true → room t (S n) →
  ∃ t' s', wsman_register_endpoint pos ep t s = Some (true, t', s') ∧ registered (eps ++ [(pos, ep)]) t' s' ∧
           t_size t' = t_size t ∧ room t' n.
Proof.
  intros [Hr Hd Hl] Hk Hroom. unfold known in Hk. apply bool_decide_eq_true in Hk as [proc Hp].
  unfold wsman_register_endpoint, wsman_dispatch_create, table_append, room, offset_map, sizeof_DispatchToEpMap in *. rewrite Hp.
  rewrite (proj2 (Z.leb_le _ _)) by lia. cbn [mbind option_bind].
  set (p := fresh _). assert (Hp0 : r_heap s !! p = None) by (apply not_elem_of_dom, is_fresh).
  eexists _, _. split; [reflexivity|]. split_and!; [|done|cbn; rewrite length_app; cbn; lia].
  split; cbn [t_map].
  - apply Forall2_app.
    + eapply Forall2_impl; [exact Hr|]. intros e r [He (pr & H1 & H2)]. split; [done|]. exists pr. split; [done|].
      unfold wsman_dispatch_start. cbn. rewrite Hl. cbn. rewrite lookup_insert_ne; [done|congruence].
    + constructor; [|done]. split; [done|]. exists proc. split; [done|]. unfold wsman_dispatch_start. cbn. rewrite Hl. cbn.
      by rewrite lookup_insert_eq.
  - rewrite fmap_app. cbn. apply NoDup_app. split_and!; [done| |apply NoDup_singleton].
    intros q Hq ->%list_elem_of_singleton. apply list_elem_of_fmap in Hq as ([pos' q'] & Hq' & Hin).
    apply list_elem_of_lookup in Hin as [k Hk]. destruct (Forall2_lookup_r _ _ _ _ _ Hr Hk) as (e & _ & _ & pr & _ & Hh).
    cbn in *. congruence.
  - unfold wsman_dispatch_start. cbn. by rewrite Hl.
Qed.

Lemma register_endpoints_known i l : ∀ j eps t s n,
  registered eps t s → forallb known l = true → room t (length l + n) →
  ∃ t' s', register_endpoints i j l t s = Some (true, t', s') ∧ registered (eps ++ ep_positions i j l) t' s' ∧
           t_size t' = t_size t ∧ room t' n.
Proof.
  induction l as [|ep l IH]; intros j eps t s n Hr Hk Hroom; cbn [register_endpoints ep_positions].
  - exists t, s. by rewrite app_nil_r.
  - cbn [forallb] in Hk. apply andb_prop in Hk as [Hk Hks].
    destruct (register_endpoint_known (i, j) ep eps t s (length l + n) Hr Hk Hroom) as (t1 & s1 & E & Hr1 & Hs1 & Hroom1).
    rewrite E. cbn [mbind option_bind]. destruct (IH (S j) _ t1 s1 n Hr1 Hks Hroom1) as (t2 & s2 & E2 & Hr2 & Hs2 & Hroom2).
    exists t2, s2. rewrite <- app_assoc in Hr2. split_and!; [done|done|congruence|done].
Qed.

(** One unknown type ends the registration. *)
Lemma register_endpoints_unknown i l : ∀ j eps t s n,
  registered eps t s → forallb known l = false → room t (length l + n) →
  ∃ t' s' eps', register_endpoints i j l t s = Some (false, t', s') ∧ registered eps' t' s'.
Proof.
  induction l as [|ep l IH]; intros j eps t s n Hr Hk Hroom; [done|]. cbn [register_endpoints forallb] in *.
  destruct (known ep) eqn:E.
  - destruct (register_endpoint_known (i, j) ep eps t s (length l + n) Hr E Hroom) as (t1 & s1 & E1 & Hr1 & Hs1 & Hroom1).
    rewrite E1. cbn [mbind option_bind]. exact (IH (S j) _ t1 s1 n Hr1 Hk Hroom1).
  - unfold wsman_register_endpoint. unfold known in E. apply bool_decide_eq_false in E.
    destruct (endpoint_callback ep); [by destruct E|]. exists t, s, eps. done.
Qed.

Definition total (l : list interface) : nat := foldr (λ i n, (length (i_endPoints i) + n)%nat) 0%nat l.

Definition all_known (l : list interface) : bool := forallb (λ i, forallb known (i_endPoints i)) l.

Lemma register_interfaces_known l : ∀ i eps t s,
  registered eps t s → all_known l = true → room t (total l) →
  ∃ t' s', register_interfaces i l t s = Some (true, t', s') ∧ registered (eps ++ all_positions i l) t' s'.
Proof.
  induction l as [|ifc l IH]; intros i eps t s Hr Hk Hroom; cbn [register_interfaces all_positions].
  - exists t, s. by rewrite app_nil_r.
  - cbn [all_known forallb total foldr] in *. apply andb_prop in Hk as [Hk Hks].
    destruct (register_endpoints_known i (i_endPoints ifc) 0 eps t s _ Hr Hk Hroom) as (t1 & s1 & E1 & Hr1 & _ & Hroom1).
    unfold wsman_register_interface. rewrite E1. cbn [mbind option_bind].
    destruct (IH (S i) _ t1 s1 Hr1 Hks Hroom1) as (t2 & s2 & E2 & Hr2). exists t2, s2. by rewrite <- app_assoc in Hr2.
Qed.

Lemma register_interfaces_unknown l : ∀ i eps t s,
  registered eps t s → all_known l = false → room t (total l) →
  ∃ t' s' eps', register_interfaces i l t s = Some (false, t', s') ∧ registered eps' t' s'.
Proof.
  induction l as [|ifc l IH]; intros i eps t s Hr Hk Hroom; [done|].
  cbn [register_interfaces all_known forallb total foldr] in *. unfold wsman_register_interface.
  destruct (forallb known (i_endPoints ifc)) eqn:E.
  - destruct (register_endpoints_known i (i_endPoints ifc) 0 eps t s _ Hr E Hroom) as (t1 & s1 & E1 & Hr1 & _ & Hroom1).
    rewrite E1. cbn [mbind option_bind]. exact (IH (S i) _ t1 s1 Hr1 Hk Hroom1).
  - destruct (register_endpoints_unknown i (i_endPoints ifc) 0 eps t s _ Hr E Hroom) as (t1 & s1 & eps' & E1 & Hr1).
    rewrite E1. cbn [mbind option_bind]. by exists t1, s1, eps'.
Qed.

(** ** Looking an endpoint up *)

Lemma ep_positions_elem i l : ∀ j pos ep, (pos, ep) ∈ ep_positions i j l → pos.1 = i ∧ (j ≤ pos.2)%nat.
Proof.
  induction l as [|e l IH]; intros j pos ep; [by intros ?%elem_of_nil|]. cbn [ep_positions].
  intros [[= -> ->]|H]%elem_of_cons; [done|]. destruct (IH _ _ _ H). split; [done|]. lia.
Qed.

Lemma all_positions_elem l : ∀ i pos ep, (pos, ep) ∈ all_positions i l → (i ≤ pos.1)%nat.
Proof.
  induction l as [|ifc l IH]; intros i pos ep; [by intros ?%elem_of_nil|]. cbn [all_positions].
  intros [H|H]%elem_of_app; [apply ep_positions_elem in H as [-> _]; done|]. apply IH in H. lia.
Qed.

Lemma positions_NoDup l : ∀ i, NoDup (all_positions i l).*1.
Proof.
  induction l as [|ifc l IH]; intros i; [constructor|]. cbn [all_positions]. rewrite fmap_app. apply NoDup_app. split_and!.
  - generalize 0%nat. induction (i_endPoints ifc) as [|e eps IHe]; intros j; cbn; constructor; [|apply IHe].
    intros ([pos ep] & E & H)%list_elem_of_fmap. apply ep_positions_elem in H as [_ H]. cbn in E. subst. cbn in H. lia.
  - intros pos ([pos1 ep1] & -> & H1)%list_elem_of_fmap ([pos2 ep2] & E & H2)%list_elem_of_fmap.
    apply ep_positions_elem in H1 as [H1 _]. apply all_positions_elem in H2. cbn in *. subst. lia.
  - apply IH.
Qed.

Lemma ep_positions_lookup i l : ∀ j0 j ep, l !! j = Some ep → ((i, (j0 + j)%nat), ep) ∈ ep_positions i j0 l.
Proof.
  induction l as [|e l IH]; intros j0 [|j] ep H; [done..| |]; cbn [ep_positions].
  - injection H as ->. rewrite Nat.add_0_r. by left.
  - right. rewrite <- Nat.add_succ_comm. by apply IH.
Qed.

Lemma all_positions_lookup l : ∀ i0 i ifc j ep,
  l !! i = Some ifc → i_endPoints ifc !! j = Some ep → (((i0 + i)%nat, j), ep) ∈ all_positions i0 l.
Proof.
  induction l as [|x l IH]; intros i0 [|i] ifc j ep H Hj; [done..| |]; cbn [all_positions]; apply elem_of_app.
  - injection H as ->. left. rewrite Nat.add_0_r. by apply (ep_positions_lookup i0 _ 0).
  - right. rewrite <- Nat.add_succ_comm. by eapply IH.
Qed.

Lemma map_loop_In {D} (l : list (ep_pos * D)) pos p : NoDup l.*1 → (pos, p) ∈ l → map_loop l pos = Some p.
Proof.
  induction l as [|[e d] l IH]; [by intros _ ?%elem_of_nil|]. intros [Hne Hn]%NoDup_cons. cbn [map_loop].
  intros [[= -> ->]|H]%elem_of_cons; [by rewrite decide_True|].
  rewrite decide_False; [by apply IH|]. intros ->. apply Hne. by apply (list_elem_of_fmap_2 fst l (pos, p)).
Qed.

Lemma map_loop_elem {D} (l : list (ep_pos * D)) pos p : map_loop l pos = Some p → (pos, p) ∈ l.
Proof.
  induction l as [|[e d] l IH]; [done|]. cbn [map_loop]. destruct (decide (e = pos)) as [->|_].
  - intros [= ->]. by left.
  - intros H. right. by apply IH.
Qed.

Lemma registered_keys eps t s : registered eps t s → (t_map t).*1 = eps.*1.
Proof. intros [H _ _]. induction H as [|e r eps m [He _] _ IH]; [done|]. cbn. by rewrite IH, He. Qed.

Lemma registered_row eps t s pos p :
  registered eps t s → (pos, p) ∈ t_map t →
  ∃ ep proc, (pos, ep) ∈ eps ∧ endpoint_callback ep = Some proc ∧ r_heap s !! p = Some (entry_for ep proc).
Proof.
  intros [H _ _] [k Hk]%list_elem_of_lookup. destruct (Forall2_lookup_r _ _ _ _ _ H Hk) as ([pos' ep] & He & Hpos & proc & H1 & H2).
  cbn in *. subst. exists ep, proc. split_and!; [by eapply list_elem_of_lookup_2|done|done].
Qed.

Lemma size_rooms l :
  l ≠ [] → Z.of_nat (length l) * 32 + Z.of_nat (total l) * 16 < 2 ^ 31 →
  offset_map ≤ calculate_map_count l ∧ room (Table (calculate_map_count l) []) (total l).
Proof.
  intros Hl Hb. unfold calculate_map_count, room, sizeof_WsManDispatcherInfo, sizeof_DispatchToEpMap, offset_map.
  assert (Ht : foldr (λ i n, Z.of_nat (length (i_endPoints i)) + n) 0 l = Z.of_nat (total l)).
  { clear. induction l as [|i l IH]; [done|]. cbn. rewrite IH. unfold total. lia. }
  rewrite Ht, sint_small by lia. destruct l; [done|]. cbn [length t_map t_size] in *. lia.
Qed.

Lemma registered_init size : registered [] (Table size []) ws_soap_initialize.
Proof. split; [constructor|constructor|done]. Qed.


(** Without plugins the header of the dispatcher's table is written to a
    block of no bytes. *)
Theorem runtime_without_plugins : ws_create_runtime (Some []) = None.
Proof. reflexivity. Qed.

Section Dispatch.
Context {LX : Libxml2} (subscriptions : list (string * string)) (get_subscription : string → option xnode).

(** Whatever message arrives, the entry the dispatcher returns is live and
    calls the stub for the type of an endpoint of the plugin that was
    registered. *)
Theorem dispatched_entry_live l s info doc p :
  l ≠ [] → Z.of_nat (length l) * 32 + Z.of_nat (total l) * 16 < 2 ^ 31 →
  ws_create_runtime (Some l) = Some (Some (s, Some info)) →
  wsman_dispatcher subscriptions get_subscription info doc = Some (Some p) →
  ∃ ep proc, (∃ pos, (pos, ep) ∈ all_positions 0 l) ∧ endpoint_callback ep = Some proc ∧
             r_heap s !! p = Some (entry_for ep proc).
Proof.
  intros Hl Hb Hc Hd. destruct (size_rooms l Hl Hb) as [Hs Hroom]. unfold ws_create_runtime in Hc.
  rewrite (proj2 (Z.ltb_ge _ _)) in Hc by done.
  assert (Hk : all_known l = true).
  { destruct (all_known l) eqn:Hk; [done|].
    destruct (register_interfaces_unknown l 0 [] _ _ (registered_init _) Hk Hroom) as (t & s' & eps & E & Hr).
    rewrite E in Hc. cbn [mbind option_bind] in Hc. by destruct (soap_destroy s'). }
  destruct (register_interfaces_known l 0 [] _ _ (registered_init _) Hk Hroom) as (t & s' & E & Hr).
  rewrite E in Hc. cbn [mbind option_bind] in Hc. injection Hc as <- <-.
  assert (∃ pos, map_loop (t_map t) pos = Some p) as [pos Hp].
  { unfold wsman_dispatcher in Hd. destruct (event_uri _ _ _ _) as [uri|]; [|done]. cbn [mbind option_bind] in Hd.
    destruct (wsman_is_identify_request _).
    - destruct (find_identify _ _) as [[i ifc]|]; [|done]. injection Hd as Hd. by eexists.
    - destruct uri as [uri|]; [|done]. destruct (wsman_get_action _ _) as [a|]; [|done]. injection Hd as Hd.
      destruct (find_interface _ _ _) as [[[i r] ns]|]; [|done].
      destruct (endpoint_loop _ _ _ _) as [[j|] [j'|]]; try done; by eexists. }
  destruct (registered_row _ _ _ _ _ Hr (map_loop_elem _ _ _ Hp)) as (ep & proc & H1 & H2 & H3).
  exists ep, proc. split_and!; [by exists pos|done|done].
Qed.
End Dispatch.

(** ** Requests and the use of entries *)

(** What a thread has done with the entry of its request: it has read the
    count, or it has stored it and works on the operation. *)
Inductive use := Counting (p : positive) (n : Z) | Working (p : positive).

#[export] Instance use_eq_dec : EqDecision use.
Proof. solve_decision. Defined.

Inductive event :=
  | ELoad (t : nat) (p : positive)
  | EStore (t : nat)
  | EUse (t : nat)
  | EDestroy (t : nat).

Abbreviation users := (gmap nat use).

(** [get_dispatch_entry] increments in two steps, since it does not take the
    lock that [destroy_dispatch_entry] takes. *)
Definition step (e : event) (s : soap_rt) (u : users) : option (soap_rt * users) :=
  match e with
  | ELoad t p =>
      match u !! t with
      | Some _ => Some (s, u)
      | None => d ← r_heap s !! p; Some (s, <[t := Counting p (usageCount d)]> u)
      end
  | EStore t =>
      match u !! t with
      | Some (Counting p n) =>
          d ← r_heap s !! p;
          Some (with_heap (<[p := with_usage (sint 32 (n + 1)) d]> (r_heap s)) s, <[t := Working p]> u)
      | _ => Some (s, u)
      end
  | EUse t =>
      match u !! t with Some (Working p) => _ ← r_heap s !! p; Some (s, u) | _ => Some (s, u) end
  | EDestroy t =>
      match u !! t with
      | Some (Working p) => s ← destroy_op_entry (Some p) s; Some (s, delete t u)
      | _ => Some (s, u)
      end
  end.

Fixpoint steps (es : list event) (s : soap_rt) (u : users) : option (soap_rt * users) :=
  match es with [] => Some (s, u) | e :: es => '(s, u) ← step e s u; steps es s u end.

(** Histories in which the two steps of an increment are not separated. *)
Fixpoint atomic (es : list event) : bool :=
  match es with
  | [] => true
  | ELoad t _ :: EStore t' :: es => (t =? t')%nat && atomic es
  | ELoad _ _ :: _ => false
  | EStore _ :: _ => false
  | _ :: es => atomic es
  end.

Definition working_on (u : users) (p : positive) : Z :=
  Z.of_nat (size (filter (λ kv, kv.2 = Working p) u)).

Lemma working_insert u t p q :
  u !! t = None → working_on (<[t := Working p]> u) q = working_on u q + (if decide (q = p) then 1 else 0).
Proof.
  intros Ht. unfold working_on. destruct (decide (q = p)) as [->|Hne].
  - rewrite map_filter_insert_True by done. rewrite map_size_insert_None; [lia|].
    apply map_lookup_filter_None. by left.
  - rewrite map_filter_insert_not'; [lia| |].
    + cbn. congruence.
    + intros x Hx. congruence.
Qed.

Lemma working_delete u t p q :
  u !! t = Some (Working p) → working_on (delete t u) q = working_on u q - (if decide (q = p) then 1 else 0).
Proof.
  intros Ht. rewrite <- (insert_delete_id u t (Working p)) at 2 by done.
  rewrite working_insert by apply lookup_delete_eq. lia.
Qed.

Lemma working_bound u p : working_on u p ≤ Z.of_nat (size u).
Proof. unfold working_on. apply inj_le, map_size_filter. Qed.

(** Between atomic steps: threads work on live entries, and the count of an entry is the
    table and its threads. *)
Record use_ok (s : soap_rt) (u : users) : Prop := {
  uo_list : dispatchList s = None;
  uo_live : ∀ t x, u !! t = Some x → ∃ p, x = Working p ∧ is_Some (r_heap s !! p);
  uo_count : ∀ p d, r_heap s !! p = Some d → usageCount d = 1 + working_on u p;
}.

(** The entries but for their counts. *)
Definition entries_of (s : soap_rt) : gmap positive SoapDispatch := with_usage 1 <$> r_heap s.

Lemma entries_of_update s p d n :
  r_heap s !! p = Some d → entries_of (with_heap (<[p := with_usage n d]> (r_heap s)) s) = entries_of s.
Proof.
  intros Hd. unfold entries_of. cbn. rewrite fmap_insert. apply insert_id. rewrite lookup_fmap, Hd. by destruct d.
Qed.

(** The count of one entry follows its threads. *)
Lemma use_ok_update s u u' p d k :
  use_ok s u → r_heap s !! p = Some d → (∀ t x, u' !! t = Some x → u !! t = Some x ∨ x = Working p) →
  (∀ q, working_on u' q = working_on u q + (if decide (q = p) then k else 0)) →
  use_ok (with_heap (<[p := with_usage (usageCount d + k) d]> (r_heap s)) s) u'.
Proof.
  intros [Hl Hv Hc] Hd Hu Hw. split; [done| |].
  - intros t x Hx. destruct (Hu t x Hx) as [H| ->].
    + destruct (Hv t x H) as (q & -> & Hq). exists q. split; [done|]. cbn. destruct (decide (q = p)) as [->|Hne].
      * by rewrite lookup_insert_eq.
      * by rewrite lookup_insert_ne by done.
    + exists p. split; [done|]. cbn. by rewrite lookup_insert_eq.
  - intros q e. cbn. rewrite Hw. destruct (decide (q = p)) as [->|Hne].
    + rewrite lookup_insert_eq. intros [= <-]. cbn. rewrite (Hc p d Hd). lia.
    + rewrite lookup_insert_ne by done. intros He. rewrite (Hc q e He). lia.
Qed.

Lemma count_small s u p d :
  use_ok s u → r_heap s !! p = Some d → Z.of_nat (size u) < 2 ^ 31 - 2 → 1 ≤ usageCount d < 2 ^ 31 - 1.
Proof.
  intros Hok Hd Hs. rewrite (uo_count _ _ Hok p d Hd). pose proof (working_bound u p). unfold working_on in *. lia.
Qed.

Lemma load_store s u t p :
  use_ok s u → is_Some (r_heap s !! p) → Z.of_nat (size u) < 2 ^ 31 - 2 →
  ∃ s' u', steps [ELoad t p; EStore t] s u = Some (s', u') ∧ use_ok s' u' ∧ entries_of s' = entries_of s ∧
           (size u' ≤ S (size u))%nat.
Proof.
  intros Hok [d Hd] Hs. pose proof (count_small s u p d Hok Hd Hs). cbn [steps step].
  destruct (u !! t) as [x|] eqn:Et.
  - destruct (uo_live _ _ Hok t x Et) as (q & -> & _). cbn [mbind option_bind]. rewrite Et. cbn [mbind option_bind].
    exists s, u. split_and!; [done..|lia].
  - rewrite Hd. cbn [mbind option_bind]. rewrite lookup_insert_eq, Hd. cbn [mbind option_bind]. rewrite insert_insert_eq.
    rewrite sint_small by lia. eexists _, _. split; [reflexivity|]. split_and!; [|by apply entries_of_update|].
    + apply use_ok_update with (u := u); [done|done| |by intros q; apply working_insert].
      intros t' x. destruct (decide (t' = t)) as [->|Hne].
      * rewrite lookup_insert_eq. intros [= <-]. by right.
      * rewrite lookup_insert_ne by done. by left.
    + rewrite map_size_insert_None by done. lia.
Qed.

Lemma end_use s u t :
  use_ok s u → Z.of_nat (size u) < 2 ^ 31 - 2 →
  ∃ s' u', step (EDestroy t) s u = Some (s', u') ∧ use_ok s' u' ∧ entries_of s' = entries_of s ∧ (size u' ≤ size u)%nat.
Proof.
  intros Hok Hs. cbn [step]. destruct (u !! t) as [x|] eqn:Et; [|by exists s, u].
  destruct (uo_live _ _ Hok t x Et) as (p & -> & d & Hd). pose proof (count_small s u p d Hok Hd Hs).
  assert (1 ≤ working_on u p).
  { pose proof (working_delete u t p p Et) as Hw. rewrite decide_True in Hw by done. unfold working_on in *. lia. }
  pose proof (uo_count _ _ Hok p d Hd). unfold destroy_op_entry. rewrite Hd. cbn [mbind option_bind].
  rewrite (uo_list _ _ Hok). unfold destroy_dispatch_entry. rewrite Hd. cbn [mbind option_bind].
  rewrite sint_small by lia. rewrite (proj2 (Z.eqb_neq _ 0)) by lia. cbn [mbind option_bind].
  eexists _, _. split; [reflexivity|]. split_and!; [|by apply entries_of_update|].
  - apply (use_ok_update s u (delete t u) p d (-1)); [done|done| |].
    + intros t' x Hx. left. by apply lookup_delete_Some in Hx as [_ Hx].
    + intros q. rewrite (working_delete u t p q Et). destruct (decide (q = p)); lia.
  - rewrite map_size_delete, Et. lia.
Qed.

Definition loads_live (s : soap_rt) (es : list event) : Prop :=
  Forall (λ e, match e with ELoad _ p => is_Some (r_heap s !! p) | _ => True end) es.

Lemma entries_live s s' p : entries_of s' = entries_of s → is_Some (r_heap s !! p) → is_Some (r_heap s' !! p).
Proof.
  intros He Hp. assert (H : is_Some (entries_of s' !! p)); [|by unfold entries_of in H; rewrite lookup_fmap, fmap_is_Some in H].
  rewrite He. unfold entries_of. by rewrite lookup_fmap, fmap_is_Some.
Qed.

Lemma loads_live_entries s s' es : entries_of s' = entries_of s → loads_live s es → loads_live s' es.
Proof.
  intros He Hl. eapply Forall_impl; [exact Hl|]. intros [t p|t|t|t]; try done. by apply entries_live.
Qed.

Lemma atomic_steps n : ∀ es s u,
  (length es ≤ n)%nat → use_ok s u → atomic es = true → loads_live s es →
  Z.of_nat (size u) + Z.of_nat (length es) < 2 ^ 31 - 2 →
  ∃ s' u', steps es s u = Some (s', u') ∧ use_ok s' u' ∧ entries_of s' = entries_of s.
Proof.
  induction n as [|n IH]; intros es s u Hn Hok Hat Hl Hb.
  { destruct es; [|cbn in Hn; lia]. by exists s, u. }
  destruct es as [|[t p|t|t|t] es]; [by exists s, u| |done| |].
  - destruct es as [|[|t'| |] es]; try done. cbn [atomic] in Hat. apply andb_prop in Hat as [->%Nat.eqb_eq Hat].
    apply Forall_cons in Hl as [Hp [_ Hl]%Forall_cons]. cbn [length] in *.
    destruct (load_store s u t' p Hok Hp ltac:(lia)) as (s1 & u1 & E & Hok1 & He1 & Hs1).
    destruct (IH es s1 u1) as (s2 & u2 & E2 & Hok2 & He2); [lia|done|done|by eapply loads_live_entries|lia|].
    exists s2, u2. split_and!; [|done|congruence]. change (ELoad t' p :: EStore t' :: es) with ([ELoad t' p; EStore t'] ++ es).
    clear -E E2. revert E. cbn [steps app]. destruct (step (ELoad t' p) s u) as [[sa ua]|]; [|done]. cbn [mbind option_bind].
    destruct (step (EStore t') sa ua) as [[sb ub]|]; [|done]. cbn [mbind option_bind]. by intros [= -> ->].
  - apply Forall_cons in Hl as [_ Hl]. cbn [atomic length] in *. cbn [steps step].
    destruct (u !! t) as [x|] eqn:Et; [|cbn [mbind option_bind]; apply IH; (done || lia)].
    destruct (uo_live _ _ Hok t x Et) as (p & -> & d & Hd). rewrite Hd. cbn [mbind option_bind]. apply IH; (done || lia).
  - apply Forall_cons in Hl as [_ Hl]. cbn [atomic length] in *.
    destruct (end_use s u t Hok ltac:(lia)) as (s1 & u1 & E & Hok1 & He1 & Hs1).
    destruct (IH es s1 u1) as (s2 & u2 & E2 & Hok2 & He2); [lia|done|done|by eapply loads_live_entries|lia|].
    exists s2, u2. cbn [steps]. rewrite E. split_and!; [done|done|congruence].
Qed.

(** C10: as long as no other thread runs between the load and the store of a
    count, requests in any number and order never touch a freed entry, and the
    entries are what they were when all requests are answered. *)
Theorem requests_keep_entries s es :
  dispatchList s = None → (∀ p d, r_heap s !! p = Some d → usageCount d = 1) →
  atomic es = true → loads_live s es → Z.of_nat (length es) < 2 ^ 31 - 2 →
  ∃ s' u, steps es s ∅ = Some (s', u) ∧ dom (r_heap s') = dom (r_heap s) ∧ (u = ∅ → r_heap s' = r_heap s).
Proof.
  intros Hl Hc Hat Hlive Hb.
  assert (Hok : use_ok s ∅) by (split; [done|by intros t x Ht|intros p d Hd; by rewrite (Hc p d Hd)]).
  destruct (atomic_steps (length es) es s ∅) as (s' & u & E & Hok' & He); [done|done|done|done| |].
  { rewrite map_size_empty. lia. }
  exists s', u. split_and!; [done| |].
  - apply (f_equal dom) in He. unfold entries_of in He. by rewrite !dom_fmap_L in He.
  - intros ->. assert (Hones : ∀ t, use_ok t ∅ → entries_of t = r_heap t).
    { intros t Ht. unfold entries_of. rewrite <- (map_fmap_id (r_heap t)) at 2. apply map_fmap_ext. intros p d Hd.
      destruct d. pose proof (uo_count _ _ Ht _ _ Hd) as H1. cbn in H1. unfold working_on in H1. rewrite map_filter_empty, map_size_empty in H1.
      cbn in H1. by subst. }
    by rewrite <- (Hones s' Hok'), <- (Hones s Hok).
Qed.

(** Two requests for the same endpoint that count at the same time free its
    entry: one increment is lost, the second end of a request takes the count to
    zero, and the next request reads freed memory. *)
Theorem racing_requests_free_entry s p d :
  dispatchList s = None → r_heap s !! p = Some d → usageCount d = 1 →
  ∃ s', steps [ELoad 0 p; ELoad 1 p; EStore 0; EStore 1; EDestroy 0; EDestroy 1] s ∅ = Some (s', ∅) ∧
        r_heap s' !! p = None ∧ ∀ t, step (ELoad t p) s' ∅ = None.
Proof.
  intros Hl Hd Hc. destruct s as [h dl lost], d as [n ia oa fl cb data]. cbn in Hl, Hd, Hc. subst.
  set (D n := Dispatch n ia oa fl cb data). set (St n := SoapRt (<[p := D n]> h) None lost).
  assert (H0 : St 1 = SoapRt h None lost) by (unfold St; by rewrite insert_id). rewrite <- H0.
  assert (Hld : ∀ t n u, u !! t = None → step (ELoad t p) (St n) u = Some (St n, <[t := Counting p n]> u)).
  { intros t n u Hu. cbn [step]. rewrite Hu. unfold St. cbn [r_heap]. rewrite (lookup_insert_eq h p (D n)). done. }
  assert (Hst : ∀ t n k u, u !! t = Some (Counting p n) → step (EStore t) (St k) u = Some (St (sint 32 (n + 1)), <[t := Working p]> u)).
  { intros t n k u Hu. cbn [step]. rewrite Hu. unfold St. cbn [r_heap]. rewrite lookup_insert_eq. cbn [mbind option_bind with_heap].
    unfold with_heap. cbn. by rewrite insert_insert_eq. }
  assert (Hds : ∀ t n u, u !! t = Some (Working p) → sint 32 (n - 1) ≠ 0 →
    step (EDestroy t) (St n) u = Some (St (sint 32 (n - 1)), delete t u)).
  { intros t n u Hu Hn. cbn [step]. rewrite Hu. unfold destroy_op_entry, destroy_dispatch_entry. unfold St. cbn [r_heap dispatchList].
    rewrite !lookup_insert_eq. cbn [mbind option_bind r_heap D usageCount].
    rewrite (proj2 (Z.eqb_neq _ 0)) by done. unfold with_heap. cbn. by rewrite insert_insert_eq. }
  cbn [steps]. rewrite Hld by done. cbn [mbind option_bind]. rewrite Hld by done. cbn [mbind option_bind].
  rewrite (Hst _ 1) by (by rewrite lookup_insert_ne, lookup_insert_eq by done). cbn [mbind option_bind].
  rewrite (Hst _ 1) by (by rewrite lookup_insert_ne, lookup_insert_eq by done). cbn [mbind option_bind].
  rewrite sint_small by lia. rewrite Hds by (by rewrite ?lookup_insert_ne, ?lookup_insert_eq by done). cbn [mbind option_bind].
  change (sint 32 (1 + 1 - 1)) with 1. cbn [step]. rewrite lookup_delete_ne, lookup_insert_eq by done.
  unfold destroy_op_entry, destroy_dispatch_entry. unfold St. cbn [r_heap dispatchList]. rewrite !lookup_insert_eq.
  cbn [mbind option_bind r_heap D usageCount].
  change (sint 32 (1 - 1) =? 0) with true. cbn [mbind option_bind default].
  eexists. split; [|split].
  - reflexivity.
  - cbn. apply lookup_delete_eq.
  - intros t. cbn [step]. rewrite lookup_empty. cbn. by rewrite lookup_delete_eq.
Qed.

(** ** Samples *)

Definition sample_plugins : list interface :=
  [InterfaceInfo (Some "http://example/Disk") None
     [EndPoint WS_DISP_TYPE_GET (Some "http://example/Get"); EndPoint WS_DISP_TYPE_ENUMERATE (Some "http://example/Enumerate")];
   InterfaceInfo None (Some [Some "http://schemas.dmtf.org/wbem/wscim"]) [EndPoint WS_DISP_TYPE_CUSTOM_METHOD None]].

Definition sample_runtime : soap_rt :=
  match ws_create_runtime (Some sample_plugins) with Some (Some (s, _)) => s | _ => ws_soap_initialize end.


Definition sample_info : WsManDispatcherInfo (D := positive) :=
  match ws_create_runtime (Some sample_plugins) with Some (Some (_, Some i)) => i | _ => DispatcherInfo [] [] end.

Lemma dispatched_entry_live_witness :
  ∃ ep proc, (∃ pos, (pos, ep) ∈ all_positions 0 sample_plugins) ∧ endpoint_callback ep = Some proc ∧
             r_heap sample_runtime !! 1%positive = Some (entry_for ep proc).
Proof.
  apply (@dispatched_entry_live TreeXml [] (λ _, None) sample_plugins sample_runtime sample_info sample_request 1%positive);
    [discriminate|vm_compute; reflexivity..].
Defined.

Lemma requests_keep_entries_witness :
  let es := [ELoad 0 1; EStore 0; ELoad 1 1; EStore 1; EUse 0; EDestroy 1; EDestroy 0] in
  ∃ s' u, steps es sample_runtime ∅ = Some (s', u) ∧ (u = ∅ → r_heap s' = r_heap sample_runtime).
Proof.
  intros es. destruct (requests_keep_entries sample_runtime es) as (s' & u & E & _ & H); [reflexivity| |reflexivity| |cbn; lia|].
  - intros p d Hd. apply (elem_of_map_to_list (r_heap sample_runtime)) in Hd. revert Hd.
    assert (Hall : Forall (λ pd, usageCount pd.2 = 1) (map_to_list (r_heap sample_runtime))) by (vm_compute; repeat constructor).
    intros Hd. rewrite Forall_forall in Hall. exact (Hall _ Hd).
  - repeat constructor; vm_compute; by eexists.
  - exists s', u. split; [exact E|exact H].
Defined.

Lemma racing_requests_free_entry_witness :
  ∃ s', steps [ELoad 0 1; ELoad 1 1; EStore 0; EStore 1; EDestroy 0; EDestroy 1] sample_runtime ∅ = Some (s', ∅) ∧
        r_heap s' !! 1%positive = None ∧ ∀ t, step (ELoad t 1) s' ∅ = None.
Proof.
  eapply (racing_requests_free_entry sample_runtime 1); [reflexivity|vm_compute; reflexivity|reflexivity].
Defined.
