(* ===== verification/Transfer.v ===== *)
(** * Contexts and WS-Transfer ([wsman-soap.c])

    The values a plugin keeps in a context, and the stubs that call the typed
    endpoints for Identify, Get, Put and Delete: they read and write C structures
    with the serializer. *)

From S2P Require Import Prelude.
From S2P Require Import CString.
From S2P Require Import Names.
From S2P Require Import Xml.
From S2P Require Import Faults.
From S2P Require Import Store.
From S2P Require Import Envelope.
From S2P Require Import Dispatcher.
From S2P Require Import Serializer.
From S2P Require Import SerializerProofs.
From S2P Require Import StructProofs.

#[local] Open Scope string_scope.
#[local] Open Scope list_scope.
#[local] Open Scope Z_scope.
#[local] Open Scope ow_scope.

(** ** Context values *)

Section Context.
Context {T : Type → Type} {ST : Store T}.

(** The table holds pointers to copies of the values; [c_vals] are the copies
    that were allocated. *)
Record context := Context_ {
  c_entries : T positive;
  c_vals : gmap positive Z;
}.

Definition ws_create_context : option context := t ← @store_new T ST positive; Some (Context_ t ∅).

(** The allocator of the table frees the key and the node, not the value. *)
Definition ws_remove_context_val (c : context) (name : option string) : option (Z * context) :=
  match name with
  | None => Some (1, c)
  | Some name =>
      store_find (c_entries c) name ≫= λ hn : option positive,
      match hn with
      | Some _ => t ← store_del (c_entries c) name; Some (0, Context_ t (c_vals c))
      | None => Some (1, c)
      end
  end.

Definition create_context_entry (c : context) (name : string) (p : positive) : option context :=
  t ← store_add (c_entries c) name p; Some (Context_ t (c_vals c)).

(** [set_context_val] of a value that is copied. *)
Definition set_context_val (c : context) (name : option string) (val : Z) : option (Z * context) :=
  match name with
  | None => Some (1, c)
  | Some n =>
      let p := fresh (dom (c_vals c)) in
      let c := Context_ (c_entries c) (<[p := val]> (c_vals c)) in
      '(_, c) ← ws_remove_context_val c name;
      c ← create_context_entry c n p;
      Some (0, c)
  end.

Definition ws_set_context_ulong_val (c : context) (name : option string) (val : Z) : option (Z * context) :=
  set_context_val c name (wrap64 val).

Definition get_context_val (c : context) (name : option string) : option (option positive) :=
  match name with None => Some None | Some n => store_find (c_entries c) n end.

Definition ws_get_context_ulong_val (c : context) (name : option string) : option Z :=
  get_context_val c name ≫= λ p : option positive,
  match p with Some p => c_vals c !! p | None => Some 0 end.

(** *** What a context means *)

Context {SL : StoreLaws T}.

Record context_ok (c : context) : Prop := {
  co_store : store_ok (c_entries c);
  co_vals : ∀ k p, store_map (c_entries c) !! k = Some p → is_Some (c_vals c !! p);
}.

Definition context_map (c : context) : gmap string Z := omap (λ p, c_vals c !! p) (store_map (c_entries c)).

Lemma context_map_lookup c k : context_map c !! k = p ← store_map (c_entries c) !! k; c_vals c !! p.
Proof. unfold context_map. by rewrite lookup_omap. Qed.

Inductive context_op := CSet (k : string) (v : Z) | CRemove (k : string).

Definition run_context_op (c : context) (o : context_op) : option context :=
  match o with
  | CSet k v => snd <$> ws_set_context_ulong_val c (Some k) v
  | CRemove k => snd <$> ws_remove_context_val c (Some k)
  end.

Definition context_effect (m : gmap string Z) (o : context_op) : gmap string Z :=
  match o with CSet k v => <[k := wrap64 v]> m | CRemove k => delete k m end.

Fixpoint run_context (c : context) (os : list context_op) : option context :=
  match os with [] => Some c | o :: os => c ← run_context_op c o; run_context c os end.

Definition is_set (o : context_op) : bool := match o with CSet _ _ => true | CRemove _ => false end.

Lemma remove_spec c k :
  context_ok c →
  ∃ r c', ws_remove_context_val c (Some k) = Some (r, c') ∧ context_ok c' ∧ c_vals c' = c_vals c ∧
          store_map (c_entries c') = delete k (store_map (c_entries c)).
Proof.
  intros [Hs Hv]. unfold ws_remove_context_val. rewrite store_find_spec by done. cbn [mbind option_bind].
  destruct (store_map (c_entries c) !! k) as [p|] eqn:E.
  - destruct (store_del_spec (c_entries c) k Hs) as (t & -> & Ht & Hm). cbn [mbind option_bind].
    eexists _, _. split; [reflexivity|]. split_and!; [|done|done]. split; [done|]. cbn. rewrite Hm.
    intros k' p' [_ H]%lookup_delete_Some. by eapply Hv.
  - exists 1, c. split_and!; [done|done|done|]. by rewrite delete_id.
Qed.

Lemma set_spec c k v :
  context_ok c → store_count (c_entries c) < store_capacity →
  ∃ c', set_context_val c (Some k) v = Some (0, c') ∧ context_ok c' ∧
        context_map c' = <[k := v]> (context_map c) ∧ size (c_vals c') = S (size (c_vals c)) ∧
        store_count (c_entries c') ≤ store_count (c_entries c) + 1.
Proof.
  intros [Hs Hv] Hcap. unfold set_context_val. set (p := fresh _). set (c1 := Context_ _ _).
  assert (Hp : c_vals c !! p = None) by (apply not_elem_of_dom, is_fresh).
  assert (Hok1 : context_ok c1).
  { split; [done|]. cbn. intros k' p' H. destruct (decide (p' = p)) as [->|Hne]; [by rewrite lookup_insert_eq|].
    rewrite lookup_insert_ne by done. by eapply Hv. }
  destruct (remove_spec c1 k Hok1) as (r & c2 & -> & [Hs2 Hv2] & Hc2 & Hm2). cbn [mbind option_bind].
  cbn [c1 c_vals c_entries] in Hc2, Hm2.
  assert (Hcount : store_count (c_entries c2) ≤ store_count (c_entries c)).
  { rewrite !store_count_spec, Hm2, map_size_delete by done. destruct (store_map (c_entries c) !! k); cbn [id]; lia. }
  destruct (store_add_spec (c_entries c2) k p Hs2) as (t & Et & Ht & Hm).
  { rewrite Hm2. apply lookup_delete_eq. } { lia. }
  unfold create_context_entry. rewrite Et. cbn [mbind option_bind].
  assert (Hm3 : store_map t = <[k := p]> (store_map (c_entries c))) by (by rewrite Hm, Hm2, insert_delete_eq).
  eexists. split; [reflexivity|]. split_and!.
  - split; [done|]. cbn. rewrite Hc2, Hm3. intros k' p'. destruct (decide (k' = k)) as [->|Hne].
    + rewrite lookup_insert_eq. intros [= <-]. by rewrite lookup_insert_eq.
    + rewrite lookup_insert_ne by done. intros H. destruct (decide (p' = p)) as [->|]; [by rewrite lookup_insert_eq|].
      rewrite lookup_insert_ne by done. by eapply Hv.
  - apply map_eq. intros k'. rewrite context_map_lookup. cbn. rewrite Hc2, Hm3.
    destruct (decide (k' = k)) as [->|Hne].
    + rewrite !lookup_insert_eq. cbn. by rewrite lookup_insert_eq.
    + rewrite !lookup_insert_ne, context_map_lookup by done. destruct (store_map (c_entries c) !! k') as [p'|] eqn:E; [|done].
      cbn. destruct (Hv _ _ E) as [v' Hv']. rewrite lookup_insert_ne; [done|congruence].
  - cbn. rewrite Hc2. by apply map_size_insert_None.
  - cbn. rewrite !store_count_spec, Hm3, map_size_insert by done. destruct (store_map (c_entries c) !! k); cbn [id]; lia.
Qed.

Lemma run_context_spec os : ∀ c,
  context_ok c → store_count (c_entries c) + Z.of_nat (length os) < store_capacity →
  ∃ c', run_context c os = Some c' ∧ context_ok c' ∧ context_map c' = foldl context_effect (context_map c) os ∧
        size (c_vals c') = (size (c_vals c) + length (filter (λ o, is_set o = true) os))%nat.
Proof.
  induction os as [|[k v|k] os IH]; intros c Hok Hcap; cbn [run_context length] in *.
  - exists c. split_and!; [done|done|done|]. cbn. lia.
  - unfold run_context_op, ws_set_context_ulong_val.
    destruct (set_spec c k (wrap64 v) Hok ltac:(lia)) as (c1 & -> & Hok1 & Hm1 & Hs1 & Hc1). cbn [fmap option_fmap option_map snd mbind option_bind].
    destruct (IH c1 Hok1 ltac:(lia)) as (c2 & E & Hok2 & Hm2 & Hs2). exists c2. split_and!; [done|done| |].
    + rewrite Hm2, Hm1. done.
    + rewrite Hs2, Hs1. rewrite filter_cons_True by done. cbn [length]. lia.
  - unfold run_context_op. destruct (remove_spec c k Hok) as (r & c1 & -> & Hok1 & Hv1 & Hm1). cbn [fmap option_fmap option_map snd mbind option_bind].
    assert (Hmap : context_map c1 = delete k (context_map c)) by (unfold context_map; by rewrite Hm1, Hv1, omap_delete).
    assert (Hc1 : store_count (c_entries c1) ≤ store_count (c_entries c)).
    { rewrite !store_count_spec, Hm1, map_size_delete by (apply Hok || apply Hok1). destruct (store_map (c_entries c) !! k); cbn [id]; lia. }
    destruct (IH c1 Hok1 ltac:(lia)) as (c2 & E & Hok2 & Hm2 & Hs2). exists c2. split_and!; [done|done| |].
    + rewrite Hm2, Hmap. done.
    + rewrite Hs2, Hv1. by rewrite filter_cons_False by done.
Qed.

Lemma create_context_ok : ∃ c, ws_create_context = Some c ∧ context_ok c ∧ context_map c = ∅ ∧ c_vals c = ∅ ∧ store_count (c_entries c) = 0.
Proof.
  unfold ws_create_context. destruct (@store_new_spec T ST SL positive) as (t & -> & Ht & Hm). cbn [mbind option_bind].
  eexists. split; [reflexivity|]. split_and!.
  - split; [done|]. cbn. rewrite Hm. by intros k p ?.
  - unfold context_map. cbn. by rewrite Hm, omap_empty.
  - done.
  - cbn. by rewrite store_count_spec, Hm, map_size_empty.
Qed.

(** A context is a table of numbers: after any sequence of settings and
    removals the value read for a name is the last one set, or zero when there
    is none.  The copies of all the values that were ever set are still
    allocated. *)
Theorem context_values os :
  Z.of_nat (length os) < store_capacity →
  ∃ c c', ws_create_context = Some c ∧ run_context c os = Some c' ∧
    (∀ k, ws_get_context_ulong_val c' (Some k) = Some (default 0 (foldl context_effect ∅ os !! k))) ∧
    size (c_vals c') = length (filter (λ o, is_set o = true) os).
Proof.
  intros Hcap. destruct create_context_ok as (c & E & Hok & Hm & Hv & Hc).
  destruct (run_context_spec os c Hok ltac:(lia)) as (c' & E' & Hok' & Hm' & Hs').
  exists c, c'. split_and!; [done|done| |].
  - intros k. unfold ws_get_context_ulong_val, get_context_val. rewrite store_find_spec by apply Hok'. cbn [mbind option_bind].
    rewrite <- Hm, <- Hm', context_map_lookup. destruct (store_map (c_entries c') !! k) as [p|] eqn:Ep; [|done].
    cbn [mbind option_bind]. by destruct (co_vals _ Hok' _ _ Ep) as [v ->].
  - rewrite Hs', Hv, map_size_empty. done.
Qed.
End Context.

(** ** The stubs *)

Section Stubs.
Context {LX : Libxml2} (ns_prefix : string → option string).

(** Memory as the serializer's context sees it: objects, break, allocations. *)
Definition smem : Type := gmap Z cell * Z * list Z.

(** The result of [ws_serialize] on the body of a response takes its place. *)
Definition set_soap_body (doc : xnode) (b : option xnode) : xnode :=
  match doc, b with
  | XElement ns name props c, Some b => XElement ns name props (alter_second_element (λ _, b) c)
  | _, _ => doc
  end.

(** A response whose body is the structure at [a], which is then freed. *)
Definition serialize_response (indoc : xnode) (sm : smem) (a : Z) (typeInfo : XmlSerializerInfo) (name : string)
    (ns : option string) : option (xnode * sdata) :=
  let '(m, brk, al) := sm in
  let doc := wsman_create_response_envelope indoc None in
  body ← ws_xml_get_soap_body (Some doc);
  '(_, d) ← ws_serialize m brk al body a typeInfo name ns;
  '(_, d') ← ws_serializer_free_mem a typeInfo d;
  Some (set_soap_body doc (d_node d), d').

(** Endpoints get the request and return the address of their data, or NULL. *)
Definition get_endpoint : Type := xnode → smem → option Z * smem.

Definition new_serializer (m : gmap Z cell) (brk : Z) : smem := (m, brk, []).

(** Whatever status the endpoint sets, its failure is InvalidSelectors. *)
Definition ws_transfer_get_stub (uuid : string) (endPoint : get_endpoint) (typeInfo : XmlSerializerInfo)
    (data : option string) (m : gmap Z cell) (brk : Z) (indoc : xnode) : option (Z * option xnode) :=
  match endPoint indoc (new_serializer m brk) with
  | (None, _) =>
      generate_fault_document ns_prefix uuid (Some indoc) WSMAN_INVALID_SELECTORS WSMAN_DETAIL_OK None ≫=
        λ doc : option xnode, Some (0, doc)
  | (Some a, sm) =>
      '(doc, _) ← serialize_response indoc sm a typeInfo TRANSFER_GET_RESP data; Some (0, Some doc)
  end.

Definition ws_transfer_delete_stub (uuid : string) (endPoint : get_endpoint) (m : gmap Z cell) (brk : Z) (indoc : xnode)
  : option (Z * option xnode) :=
  match endPoint indoc (new_serializer m brk) with
  | (None, _) =>
      generate_fault_document ns_prefix uuid (Some indoc) WSMAN_INVALID_SELECTORS WSMAN_DETAIL_OK None ≫=
        λ doc : option xnode, Some (0, doc)
  | (Some _, _) => Some (0, Some (wsman_create_response_envelope indoc None))
  end.

(** The data is freed once more at the end, which is an error if it was one of
    the serializer's blocks. *)
Definition wsman_identify_stub (uuid : string) (endPoint : get_endpoint) (typeInfo : XmlSerializerInfo)
    (data : option string) (m : gmap Z cell) (brk : Z) (indoc : xnode) : option (Z * option xnode) :=
  match endPoint indoc (new_serializer m brk) with
  | (None, _) =>
      generate_fault_document ns_prefix uuid (Some indoc) WSMAN_INTERNAL_ERROR WSMAN_DETAIL_OK None ≫=
        λ doc : option xnode, Some (0, doc)
  | (Some a, sm) =>
      '(doc, d) ← serialize_response indoc sm a typeInfo WSMID_IDENTIFY_RESPONSE data;
      if bool_decide (a ∈ sm.2) && negb (bool_decide (a ∈ d_allocs d)) then None else Some (0, Some doc)
  end.

(** An endpoint for Put gets the data that was read, or NULL, and the status,
    which the stub does not initialise. *)
Definition put_endpoint : Type := xnode → option Z → WsmanStatus → smem → Z * option Z * WsmanStatus * smem.

(** Without an element in the body there is no name to look for. *)
Definition put_data (typeInfo : XmlSerializerInfo) (data : option string) (m : gmap Z cell) (brk : Z) (indoc : xnode)
  : option (option Z * smem) :=
  let body := ws_xml_get_soap_body (Some indoc) in
  let r := ws_xml_get_child body 0 None None in
  b ← body;
  '(p, d) ← ws_deserialize m brk [] b typeInfo (default "" (ws_xml_get_node_local_name r)) data 0;
  Some (p, (d_mem d, d_brk d, d_allocs d)).

Definition put_answer (uuid : string) (typeInfo : XmlSerializerInfo) (data : option string) (indoc : xnode)
    (r : Z * option Z * WsmanStatus * smem) : option (Z * option xnode) :=
  let '(retVal, outData, status, sm) := r in
  if negb (retVal =? 0) then
    generate_fault_document ns_prefix uuid (Some indoc) (st_code status) (st_detail status) None ≫=
      λ doc : option xnode, Some (retVal, doc)
  else
    match outData with
    | None => Some (retVal, Some (wsman_create_response_envelope indoc None))
    | Some a => '(doc, _) ← serialize_response indoc sm a typeInfo TRANSFER_PUT_RESP data; Some (retVal, Some doc)
    end.

Definition ws_transfer_put_stub (uuid : string) (endPoint : put_endpoint) (typeInfo : XmlSerializerInfo)
    (data : option string) (status : WsmanStatus) (m : gmap Z cell) (brk : Z) (indoc : xnode) : option (Z * option xnode) :=
  '(p, sm) ← put_data typeInfo data m brk indoc;
  put_answer uuid typeInfo data indoc (endPoint indoc p status sm).

(** ** Resources over the wire *)

Context {LL : Libxml2Laws}.

Section Resource.
Variables (ns0 ns : option string) (name0 : string) (size : Z) (l : list (option string * string * field)).
Hypothesis Hsize : 0 < size < 2 ^ 31.
Hypothesis Hw : Forall (λ e, writable e.2) l.
Hypothesis Hfit : fields_end 0 l ≤ size.
Hypothesis Hnames : NoDup ((λ e, e.1.2) <$> l).

Definition resource_type : XmlSerializerInfo := struct_info ns0 name0 size l.

Lemma serialize_response_struct indoc m brk al a name :
  a mod 8 = 0 → a ≠ 0 → all_hold m a l →
  ∃ d, serialize_response indoc (m, brk, al) a resource_type name ns =
       Some (envelope (response_headers indoc None) [struct_node ns name l], d) ∧
       d_allocs d = remove_first a (free_all al (all_strs m a l)).
Proof.
  intros Ha Ha0 Hh. unfold serialize_response, wsman_create_response_envelope. rewrite envelope_body. cbn [mbind option_bind].
  change (ws_serialize m brk al ?P a resource_type name ns) with (ws_serialize m brk al P a (struct_info ns name size l) name ns).
  edestruct (struct_written ns name size l Hsize Hw Hfit m brk al a) as (d1 & E1 & Hn1 & Hm1 & _ & Ha1); [done|done|].
  rewrite E1. cbn [mbind option_bind].
  destruct (struct_freed ns0 name0 size l Hsize Hw Hfit a d1) as (d2 & E2 & H2); [done|done|by rewrite Hm1|].
  unfold resource_type. rewrite E2. cbn [mbind option_bind]. exists d2. rewrite Hn1. split.
  - rewrite !envelope_eq. reflexivity.
  - by rewrite H2, Hm1, Ha1.
Qed.
Lemma body_struct p bns bname name : matching ns (Some name) (XElement bns bname p [struct_node ns name l]) = [struct_node ns name l].
Proof. apply (matching_add ns name [] (all_nodes l) (XElement bns bname p [])). done. Qed.
End Resource.

(** C21: what a plugin returns for a Get arrives at the client: the structure at
    the address the endpoint returns is the body of the response, and a client
    that reads the body has the same value in every field. *)
Theorem transfer_get_roundtrip uuid endPoint ns0 name0 ns size l m0 brk0 indoc a m brk al m' brk' al' :
  0 < size < 2 ^ 31 → Forall (λ e, writable e.2) l → fields_end 0 l ≤ size → NoDup ((λ e, e.1.2) <$> l) →
  endPoint indoc (new_serializer m0 brk0) = (Some a, (m, brk, al)) →
  a mod 8 = 0 → a ≠ 0 → all_hold m a l → brk' mod 16 = 0 → (∀ b, brk' ≤ b → m' !! b = None) →
  ∃ doc body d,
    ws_transfer_get_stub uuid endPoint (struct_info ns0 name0 size l) ns m0 brk0 indoc = Some (0, Some doc) ∧
    ws_xml_get_soap_body (Some doc) = Some body ∧
    ws_deserialize m' brk' al' body (struct_info ns0 name0 size l) TRANSFER_GET_RESP ns 0 = Some (Some brk', d) ∧
    all_hold (d_mem d) brk' l.
Proof.
  intros Hs Hw Hf Hn Hep Ha Ha0 Hh Hb Hz. unfold ws_transfer_get_stub. rewrite Hep.
  destruct (serialize_response_struct ns0 ns name0 size l Hs Hw Hf indoc m brk al a TRANSFER_GET_RESP Ha Ha0 Hh) as (d1 & E1 & _).
  unfold resource_type in E1. rewrite E1. cbn [mbind option_bind].
  destruct (struct_read ns TRANSFER_GET_RESP size l Hs Hw Hf Hn m' brk' al'
    (XElement (Some XML_NS_SOAP_1_2) SOAP_BODY [] [struct_node ns TRANSFER_GET_RESP l]) 0 Hb Hz ltac:(lia))
    as (m2 & brk2 & i & nd & new & E2 & Hh2 & _); [by rewrite body_struct|].
  eexists _, _, _. split_and!; [reflexivity|apply envelope_body|exact E2|exact Hh2].
Qed.

(** What a client puts arrives at the plugin: the endpoint is called with the
    address of a structure that has in every field the value in the body of the
    request, and the stub answers with what the endpoint returns. *)
Theorem transfer_put_delivers uuid endPoint ns0 name0 ns name size l st m brk indoc bns bname p :
  0 < size < 2 ^ 31 → Forall (λ e, writable e.2) l → fields_end 0 l ≤ size → NoDup ((λ e, e.1.2) <$> l) →
  ws_xml_get_soap_body (Some indoc) = Some (XElement bns bname p [struct_node ns name l]) →
  brk mod 16 = 0 → (∀ b, brk ≤ b → m !! b = None) →
  ∃ sm, ws_transfer_put_stub uuid endPoint (struct_info ns0 name0 size l) ns st m brk indoc =
        put_answer uuid (struct_info ns0 name0 size l) ns indoc (endPoint indoc (Some brk) st sm) ∧
        all_hold sm.1.1 brk l.
Proof.
  intros Hs Hw Hf Hn Hbody Hb Hz. unfold ws_transfer_put_stub, put_data. rewrite Hbody. cbn [mbind option_bind].
  assert (Hr : ws_xml_get_child (Some (XElement bns bname p [struct_node ns name l])) 0 None None = Some (struct_node ns name l)) by done.
  rewrite Hr. cbn [ws_xml_get_node_local_name struct_node default id].
  destruct (struct_read ns name size l Hs Hw Hf Hn m brk [] (XElement bns bname p [struct_node ns name l]) 0 Hb Hz ltac:(lia))
    as (m2 & brk2 & i & nd & new & E2 & Hh2 & _); [by rewrite body_struct|].
  change (ws_deserialize m brk [] ?b (struct_info ns0 name0 size l) name ns 0) with
    (ws_deserialize m brk [] b (struct_info ns name size l) name ns 0).
  rewrite E2. cbn [mbind option_bind]. eexists. split; [reflexivity|exact Hh2].
Qed.
End Stubs.

(** ** Witnesses *)

Lemma context_values_witness :
  ∃ c c', @ws_create_context hstore HashStore = Some c ∧ run_context c [CSet "a" 1; CSet "b" 2; CSet "a" 3; CRemove "b"] = Some c' ∧
    ws_get_context_ulong_val c' (Some "a") = Some 3 ∧ ws_get_context_ulong_val c' (Some "b") = Some 0.
Proof.
  destruct (@context_values hstore HashStore _ [CSet "a" 1; CSet "b" 2; CSet "a" 3; CRemove "b"]) as (c & c' & E & E' & H & _);
    [vm_compute; reflexivity|].
  exists c, c'. split; [exact E|]. split; [exact E'|]. split; rewrite H; reflexivity.
Defined.

Definition sample_endpoint : get_endpoint := λ _ _, (Some 4096, (sample_struct, 65536, [])).

Lemma transfer_get_roundtrip_witness :
  ∃ doc body d,
    @ws_transfer_get_stub TreeXml (λ _, None) "uuid:1" sample_endpoint (struct_info None "Disk" 24 sample_fields) None ∅ 16 sample_request =
      Some (0, Some doc) ∧
    ws_xml_get_soap_body (Some doc) = Some body ∧
    @ws_deserialize TreeXml ∅ 32 [] body (struct_info None "Disk" 24 sample_fields) TRANSFER_GET_RESP None 0 = Some (Some 32, d) ∧
    all_hold (d_mem d) 32 sample_fields.
Proof.
  apply (@transfer_get_roundtrip TreeXml (λ _, None) TreeXmlLaws "uuid:1" sample_endpoint None "Disk" None 24 sample_fields ∅ 16
    sample_request 4096 sample_struct 65536 [] ∅ 32 []); try done; try lia.
  - exact sample_fields_writable.
  - exact sample_names.
  - exact sample_holds.
Defined.

Definition sample_put : xnode := @envelope TreeXml [] [@struct_node TreeXml None "Disk" sample_fields].
Definition echo_endpoint : put_endpoint := λ _ p st sm, (0, p, st, sm).

Lemma transfer_put_delivers_witness :
  ∃ sm, @ws_transfer_put_stub TreeXml (λ _, None) "uuid:1" echo_endpoint (struct_info None "Disk" 24 sample_fields) None
          (Status WSMAN_RC_OK WSMAN_DETAIL_OK None) ∅ 32 sample_put =
        @put_answer TreeXml (λ _, None) "uuid:1" (struct_info None "Disk" 24 sample_fields) None sample_put
          (echo_endpoint sample_put (Some 32) (Status WSMAN_RC_OK WSMAN_DETAIL_OK None) sm) ∧
        all_hold sm.1.1 32 sample_fields.
Proof.
  eapply (@transfer_put_delivers TreeXml (λ _, None) TreeXmlLaws "uuid:1" echo_endpoint None "Disk" None "Disk" 24 sample_fields);
    try done; try lia.
  - exact sample_fields_writable.
  - exact sample_names.
Defined.
