(* ===== verification/Ini.v ===== *)
(** * Configuration files

    The dictionaries and the parser of ini files of src/src/lib/u/iniparser.c,
    from which the daemon takes its settings.  A dictionary is three arrays of
    the same length, one slot per index; the theorems show that it is a finite
    map from keys to values, and that loading a file yields the entries that
    its lines state. *)

From S2P Require Import Prelude CString Uri.
From Stdlib Require Import Ascii.
Local Open Scope string_scope.
Local Open Scope list_scope.
Local Open Scope Z_scope.
Local Open Scope ow_scope.

(** ** Strings (strlib.c) *)

Definition ASCIILINESZ : nat := 1024.

(** The first [n] characters. *)
Fixpoint str_take (n : nat) (s : string) : string :=
  match n, s with
  | S n', String a s' => String a (str_take n' s')
  | _, _ => EmptyString
  end.

(** A buffer read as a string: what precedes the first NUL. *)
Fixpoint c_str (s : string) : string :=
  match s with
  | EmptyString => EmptyString
  | String a s' => if code a =? 0 then EmptyString else String a (c_str s')
  end.

Definition strlwc (s : option string) : option string :=
  s ← s; Some (str_lower (str_take ASCIILINESZ s)).

Definition strskp (s : string) : string := skip_space s.

(** The string without the blanks at its end. *)
Fixpoint crop_blanks (s : string) : string :=
  match s with
  | EmptyString => EmptyString
  | String a s' =>
      match crop_blanks s' with
      | EmptyString => if isspace a then EmptyString else String a EmptyString
      | r => String a r
      end
  end.

Definition strcrop (s : option string) : option string :=
  s ← s; Some (crop_blanks (str_take ASCIILINESZ s)).

(** ** Dictionaries *)

Definition DICTMINSZ : Z := 128.

(** The elements of the arrays [key], [val] and [hash] at one index. *)
Record slot := Slot { sl_key : option string; sl_val : option string; sl_hash : Z }.
#[global] Instance slot_eq_dec : EqDecision slot.
Proof. solve_decision. Defined.

Definition empty_slot : slot := Slot None None 0.

Record dictionary := Dictionary { d_n : Z; d_size : Z; d_slots : list slot }.

(** A pointer to characters: NULL, a string, or the token [(char * )-1]. *)
Inductive char_ptr := NULLp | StrP (s : string) | INI_INVALID_KEY.

Definition ptr_of (v : option string) : char_ptr :=
  match v with None => NULLp | Some s => StrP s end.

(** One character is added to the hash; a [char] is signed. *)
Definition hash_char (h : Z) (a : ascii) : Z :=
  let h := wrap32 (h + wrap32 (sint 8 (code a))) in
  let h := wrap32 (h + wrap32 (Z.shiftl h 10)) in
  Z.lxor h (Z.shiftr h 6).

Fixpoint hash_chars (h : Z) (s : string) : Z :=
  match s with
  | EmptyString => h
  | String a s' => hash_chars (hash_char h a) s'
  end.

Definition dictionary_hash (key : string) : Z :=
  let h := hash_chars 0 key in
  let h := wrap32 (h + wrap32 (Z.shiftl h 3)) in
  let h := Z.lxor h (Z.shiftr h 11) in
  wrap32 (h + wrap32 (Z.shiftl h 15)).

Definition dictionary_new (size : Z) : dictionary :=
  let size := if size <? DICTMINSZ then DICTMINSZ else size in
  Dictionary 0 size (replicate (Z.to_nat size) empty_slot).

(** The test of the searches: same hash, then same key. *)
Definition slot_matches (hash : Z) (key : string) (s : slot) : bool :=
  match sl_key s with
  | None => false
  | Some k => if hash =? sl_hash s then str_eqb key k else false
  end.

(** [for (i = 0; i < size; i++)] up to the first slot that passes the test. *)
Fixpoint find_slot (p : slot → bool) (l : list slot) : option nat :=
  match l with
  | [] => None
  | s :: l' => if p s then Some O else S <$> find_slot p l'
  end.

(** The slots a loop up to [d->size] visits. *)
Definition dict_array (d : dictionary) : list slot := take (Z.to_nat (d_size d)) (d_slots d).

Definition dict_search (d : dictionary) (key : string) : option nat :=
  find_slot (slot_matches (dictionary_hash key) key) (dict_array d).

Definition dictionary_get (d : dictionary) (key : string) (def : char_ptr) : char_ptr :=
  match dict_search d key with
  | Some i => default def (ptr_of ∘ sl_val <$> d_slots d !! i)
  | None => def
  end.

(** The arrays are copied to twice their size; the size in bytes is an [int],
    whose overflow is undefined. *)
Definition mem_double (d : dictionary) : option dictionary :=
  assert! (2 * (d_size d * 8) <? 2 ^ 31);
  Some (Dictionary (d_n d) (d_size d * 2)
          (d_slots d ++ replicate (Z.to_nat (d_size d)) empty_slot)).

(** Assignment to the elements of index [i]. *)
Definition slot_put (d : dictionary) (i : nat) (s : slot) : option dictionary :=
  _ ← d_slots d !! i;
  Some (Dictionary (d_n d) (d_size d) (<[i := s]> (d_slots d))).

Definition slot_free (s : slot) : bool := if sl_key s is None then true else false.

(** The part of [dictionary_set] that adds a key. *)
Definition dict_add (d : dictionary) (key : string) (val : option string) : option dictionary :=
  d ← (if d_n d =? d_size d then mem_double d else Some d);
  let i := default (Z.to_nat (d_size d)) (find_slot slot_free (dict_array d)) in
  d ← slot_put d i (Slot (Some key) val (dictionary_hash key));
  Some (Dictionary (d_n d + 1) (d_size d) (d_slots d)).

(** The result and the dictionary; NULL arguments are refused. *)
Definition dictionary_set (d : option dictionary) (key : option string) (val : option string)
  : option (Z * option dictionary) :=
  match d, key with
  | Some d, Some key =>
      match (if 0 <? d_n d then dict_search d key else None) with
      | Some i =>
          s ← d_slots d !! i;
          d ← slot_put d i (Slot (sl_key s) val (sl_hash s));
          Some (0, Some d)
      | None => d ← dict_add d key val; Some (0, Some d)
      end
  | _, _ => Some (1, d)
  end.

Definition dictionary_unset (d : dictionary) (key : string) : option dictionary :=
  match dict_search d key with
  | None => Some d
  | Some i =>
      d ← slot_put d i empty_slot;
      Some (Dictionary (d_n d - 1) (d_size d) (d_slots d))
  end.

(** The strings that [dictionary_del] frees, in order. *)
Definition dictionary_del (d : option dictionary) : list string :=
  match d with
  | None => []
  | Some d => mjoin ((λ s, option_list (sl_key s) ++ option_list (sl_val s)) <$> dict_array d)
  end.

(** ** Access *)

Definition iniparser_add_entry (d : option dictionary) (sec : string) (key val : option string)
  : option (Z * option dictionary) :=
  let longkey :=
    match key with
    | Some key => str_take (2 * ASCIILINESZ + 1) (sec +:+ ":" +:+ key)
    | None => str_take (2 * ASCIILINESZ + 1) sec
    end in
  dictionary_set d (Some longkey) val.

(** [strchr(d->key[i], ':') == NULL] *)
Definition is_section (s : slot) : bool :=
  match sl_key s with
  | None => false
  | Some k => if strchr k (chr 58) is None then true else false
  end.

Fixpoint count_slots (p : slot → bool) (l : list slot) (n : Z) : Z :=
  match l with
  | [] => n
  | s :: l' => count_slots p l' (if p s then n + 1 else n)
  end.

Definition iniparser_getnsec (d : option dictionary) : Z :=
  match d with
  | None => -1
  | Some d => count_slots is_section (dict_array d) 0
  end.

(** The loop of [iniparser_getsecname]: the slot at which it breaks. *)
Fixpoint getsecname_loop (l : list slot) (foundsec n : Z) : option slot :=
  match l with
  | [] => None
  | s :: l' =>
      if is_section s then
        if n <? foundsec + 1 then Some s else getsecname_loop l' (foundsec + 1) n
      else getsecname_loop l' foundsec n
  end.

Definition iniparser_getsecname (d : option dictionary) (n : Z) : option string :=
  match d with
  | None => None
  | Some d => if n <? 0 then None else getsecname_loop (dict_array d) 0 n ≫= sl_key
  end.

Definition iniparser_getstring (d : option dictionary) (key : option string) (def : char_ptr)
  : char_ptr :=
  match d, strlwc key with
  | Some d, Some k => dictionary_get d k def
  | _, _ => def
  end.

Definition iniparser_getstr (d : option dictionary) (key : option string) : char_ptr :=
  iniparser_getstring d key NULLp.

Definition iniparser_getint (d : option dictionary) (key : option string) (notfound : Z)
  : option Z :=
  match iniparser_getstring d key INI_INVALID_KEY with
  | INI_INVALID_KEY => Some notfound
  | StrP s => Some (atoi s)
  | NULLp => None
  end.

Definition first_is (s : string) (cs : list ascii) : bool :=
  match s with EmptyString => false | String a _ => bool_decide (a ∈ cs) end.

Definition iniparser_getboolean (d : option dictionary) (key : option string) (notfound : Z)
  : option Z :=
  match iniparser_getstring d key INI_INVALID_KEY with
  | INI_INVALID_KEY => Some notfound
  | NULLp => None
  | StrP c =>
      Some (if first_is c ["y"; "Y"; "1"; "t"; "T"]%char then 1
            else if first_is c ["n"; "N"; "0"; "f"; "F"]%char then 0
            else notfound)
  end.

Definition iniparser_find_entry (ini : option dictionary) (entry : option string) : bool :=
  match iniparser_getstring ini entry INI_INVALID_KEY with INI_INVALID_KEY => false | _ => true end.

Definition iniparser_setstr (ini : option dictionary) (entry val : option string)
  : option (Z * option dictionary) :=
  dictionary_set ini (strlwc entry) val.

Definition iniparser_unset (ini : option dictionary) (entry : option string)
  : option (option dictionary) :=
  match strlwc entry with
  | None => Some ini
  | Some k => d ← ini; d ← dictionary_unset d k; Some (Some d)
  end.

(** ** The parser *)

Definition newline : ascii := chr 10.

(** [fgets(lin, n + 1, ini)]: a line with its newline, or its first [n]
    characters, and what is left of the file. *)
Fixpoint fgets_loop (n : nat) (s : string) : string * string :=
  match n, s with
  | S n', String a s' =>
      if code a =? 10 then (String a EmptyString, s')
      else let '(l, r) := fgets_loop n' s' in (String a l, r)
  | _, _ => (EmptyString, s)
  end.

Definition fgets (s : string) : option (string * string) :=
  match s with
  | EmptyString => None
  | _ => Some (fgets_loop (ASCIILINESZ - 1) s)
  end.

(** The conversion [%n[^...]] of [sscanf]: at least one character that is not
    in the set; [None] when it does not match. *)
Fixpoint scanset_loop (n : nat) (stop : list Z) (s : string) : string * string :=
  match n, s with
  | S n', String a s' =>
      if bool_decide (code a ∈ stop) then (EmptyString, s)
      else let '(l, r) := scanset_loop n' stop s' in (String a l, r)
  | _, _ => (EmptyString, s)
  end.

Definition scanset (stop : list Z) (s : string) : option (string * string) :=
  match scanset_loop ASCIILINESZ stop s with
  | (EmptyString, _) => None
  | r => Some r
  end.

(** A character of the format that must be matched. *)
Definition scan_lit (c : Z) (s : string) : option string :=
  match s with
  | String a s' => if code a =? c then Some s' else None
  | EmptyString => None
  end.

(** [sscanf(where, "[%1024[^]]", sec) == 1] *)
Definition scan_section (s : string) : option string :=
  s ← scan_lit 91 s; r ← scanset [93] s; Some r.1.

(** [sscanf] of a key, an equals sign between blanks, an opening quote if there
    is one, and a value: the two strings when both are assigned.  What follows
    the value in the format does not change the number of assignments. *)
Definition scan_entry (quote : option Z) (stop : list Z) (s : string) : option (string * string) :=
  '(key, s) ← scanset [61] s;
  s ← scan_lit 61 (skip_space s);
  let s := skip_space s in
  s ← (match quote with Some q => scan_lit q s | None => Some s end);
  '(val, _) ← scanset stop s;
  Some (key, val).

Definition scan_entries (s : string) : option (string * string) :=
  match scan_entry (Some 34) [34] s with
  | Some r => Some r
  | None =>
      match scan_entry (Some 39) [39] s with
      | Some r => Some r
      | None => scan_entry None [59; 35] s
      end
  end.

Definition two_quotes (q : Z) : string := String (chr q) (String (chr q) EmptyString).

(** The value as it is stored. *)
Definition entry_value (val : string) : string :=
  if str_eqb val (two_quotes 34) || str_eqb val (two_quotes 39) then ""
  else default "" (strcrop (Some val)).

(** A line of the file: the result is the new dictionary and section, or
    [None] inside when an entry could not be added. *)
Definition parse_line (d : dictionary) (sec lin : string) : option (option (dictionary * string)) :=
  let added r sec : option (option (dictionary * string)) :=
    match r with
    | (0, Some d) => Some (Some (d, sec))
    | _ => Some None
    end in
  let where_ := strskp lin in
  match where_ with
  | EmptyString => Some (Some (d, sec))
  | String a _ =>
      if (code a =? 59) || (code a =? 35) then Some (Some (d, sec))
      else
        match scan_section where_ with
        | Some name =>
            sec ← strlwc (Some name);
            r ← iniparser_add_entry (Some d) sec None None;
            added r sec
        | None =>
            match scan_entries where_ with
            | Some (key, val) =>
                key ← strlwc (strcrop (Some key));
                r ← iniparser_add_entry (Some d) sec (Some key) (Some (entry_value val));
                added r sec
            | None => Some (Some (d, sec))
            end
        end
  end.

(** The loop of [iniparser_new]; every round takes a character of the file. *)
Fixpoint parse_lines (fuel : nat) (d : dictionary) (sec file : string)
  : option (option dictionary) :=
  match fuel with
  | O => None
  | S fuel =>
      match fgets file with
      | None => Some (Some d)
      | Some (lin, file) =>
          parse_line d sec (c_str lin) ≫= λ r : option (dictionary * string),
          match r with
          | Some (d, sec) => parse_lines fuel d sec file
          | None => Some None
          end
      end
  end.

(** [ini]: the contents of the file, or [None] when it cannot be opened. *)
Definition iniparser_new (ini : option string) : option (option dictionary) :=
  match ini with
  | None => Some None
  | Some file => parse_lines (S (String.length file)) (dictionary_new 0) "" file
  end.

(** ** The dictionary as a finite map *)

Definition slot_entry (s : slot) : option (string * option string) :=
  k ← sl_key s; Some (k, sl_val s).

Definition entries (l : list slot) : list (string * option string) := omap slot_entry l.

Definition dict_map (d : dictionary) : gmap string (option string) :=
  list_to_map (entries (d_slots d)).

(** A slot in use has the hash of its key. *)
Definition slot_ok (s : slot) : Prop :=
  ∀ k, sl_key s = Some k → sl_hash s = dictionary_hash k.

Record dict_ok (d : dictionary) : Prop := {
  ok_size : d_size d = Z.of_nat (length (d_slots d));
  ok_min : DICTMINSZ ≤ d_size d;
  ok_count : d_n d = Z.of_nat (length (entries (d_slots d)));
  ok_keys : NoDup (entries (d_slots d)).*1;
  ok_hash : Forall slot_ok (d_slots d);
}.

Lemma find_slot_Some p l i :
  find_slot p l = Some i → ∃ s, l !! i = Some s ∧ p s = true.
Proof.
  revert i. induction l as [|s l IH]; intros i; simpl; [done|]. destruct (p s) eqn:Hp.
  - intros [= <-]. by exists s.
  - destruct (find_slot p l) as [j|] eqn:Hj; simpl; [|done]. intros [= <-]. by apply IH.
Qed.

Lemma find_slot_None p l : find_slot p l = None → ∀ s, s ∈ l → p s = false.
Proof.
  induction l as [|s l IH]; simpl; intros Hn t; [by intros ?%elem_of_nil|].
  destruct (p s) eqn:Hp; [done|]. destruct (find_slot p l) as [j|]; [done|].
  intros [->|Ht]%elem_of_cons; [done|]. by apply IH.
Qed.

(** What one slot contributes to the entries, before and after an assignment. *)
Lemma entries_put l i s t :
  l !! i = Some s →
  ∃ rest, entries l ≡ₚ option_list (slot_entry s) ++ rest ∧
          entries (<[i := t]> l) ≡ₚ option_list (slot_entry t) ++ rest.
Proof.
  intros Hi. exists (entries (take i l ++ drop (S i) l)). unfold entries.
  assert (Hc : ∀ x, omap slot_entry (take i l ++ x :: drop (S i) l)
    ≡ₚ option_list (slot_entry x) ++ omap slot_entry (take i l ++ drop (S i) l)).
  { intros x. rewrite <- Permutation_middle. cbn [omap list_omap]. by destruct (slot_entry x). }
  split.
  - rewrite <- (take_drop_middle l i s Hi) at 1. apply Hc.
  - rewrite insert_take_drop by by eapply lookup_lt_Some. apply Hc.
Qed.

Lemma entries_app l l' : entries (l ++ l') = entries l ++ entries l'.
Proof. apply omap_app. Qed.

Lemma entries_empty n : entries (replicate n empty_slot) = [].
Proof. induction n; [done|]. done. Qed.

Lemma dict_array_ok d : dict_ok d → dict_array d = d_slots d.
Proof. intros Hok. unfold dict_array. rewrite (ok_size d Hok), Nat2Z.id. apply take_ge. lia. Qed.

Lemma entry_slot l k v :
  (k, v) ∈ entries l ↔ ∃ s, s ∈ l ∧ sl_key s = Some k ∧ sl_val s = v.
Proof.
  unfold entries. rewrite list_elem_of_omap. split.
  - intros (s & Hs & He). exists s. unfold slot_entry in He.
    destruct (sl_key s) as [k'|]; simpl in He; by simplify_eq.
  - intros (s & Hs & Hk & Hv). exists s. unfold slot_entry. rewrite Hk. simpl. by rewrite Hv.
Qed.

Lemma slot_matches_spec key s :
  slot_ok s → slot_matches (dictionary_hash key) key s = true ↔ sl_key s = Some key.
Proof.
  intros Hs. unfold slot_matches. destruct (sl_key s) as [k|] eqn:Hk; [|done]. rewrite (Hs k Hk).
  split.
  - destruct (_ =? _); [|done]. intros He%str_eqb_eq. by subst.
  - intros [= ->]. by rewrite Z.eqb_refl, str_eqb_refl.
Qed.

(** The search finds the slot of a key that is there. *)
Lemma dict_search_spec d key :
  dict_ok d →
  match dict_search d key with
  | Some i => ∃ s, d_slots d !! i = Some s ∧ sl_key s = Some key ∧
                   dict_map d !! key = Some (sl_val s)
  | None => dict_map d !! key = None ∧ key ∉ (entries (d_slots d)).*1
  end.
Proof.
  intros Hok. unfold dict_search. rewrite dict_array_ok by done.
  pose proof (ok_hash d Hok) as Hh. rewrite Forall_forall in Hh.
  destruct (find_slot _ _) as [i|] eqn:Hf.
  - apply find_slot_Some in Hf as (s & Hs & Hm).
    assert (Hin : s ∈ d_slots d) by by eapply list_elem_of_lookup_2.
    apply slot_matches_spec in Hm; [|by apply Hh]. exists s. split_and!; [done..|].
    apply elem_of_list_to_map; [apply Hok|]. apply entry_slot. by exists s.
  - assert (Hn : key ∉ (entries (d_slots d)).*1).
    { rewrite list_elem_of_fmap. intros ([k v] & -> & (s & Hs & Hk & _)%entry_slot).
      apply (find_slot_None _ _ Hf) in Hs as Hm. simpl in *.
      apply not_true_iff_false in Hm. apply Hm, slot_matches_spec; [by apply Hh|done]. }
    split; [|done]. by apply not_elem_of_list_to_map.
Qed.

Definition key_count (s : slot) : Z := if sl_key s is Some _ then 1 else 0.

(** The effect of a slot on the map. *)
Definition drop_entry (s : slot) (m : gmap string (option string)) : gmap string (option string) :=
  match slot_entry s with Some (k, _) => delete k m | None => m end.
Definition add_entry (s : slot) (m : gmap string (option string)) : gmap string (option string) :=
  match slot_entry s with Some (k, v) => <[k := v]> m | None => m end.

Lemma list_to_map_entry s rest (l : list (string * option string)) :
  l ≡ₚ option_list (slot_entry s) ++ rest → NoDup l.*1 →
  (list_to_map l : gmap string (option string)) = add_entry s (list_to_map rest) ∧
  drop_entry s (list_to_map l) = (list_to_map rest : gmap string (option string)).
Proof.
  intros Hl Hnd. rewrite (list_to_map_proper _ _ Hnd Hl). unfold add_entry, drop_entry.
  rewrite Hl in Hnd. destruct (slot_entry s) as [[k v]|]; simpl in *; [|done]. split; [done|].
  apply NoDup_cons in Hnd as [Hk _]. rewrite delete_insert_eq.
  by rewrite delete_id by by apply not_elem_of_list_to_map.
Qed.

Lemma key_count_entry s : key_count s = Z.of_nat (length (option_list (slot_entry s))).
Proof. unfold key_count, slot_entry. by destruct (sl_key s). Qed.

(** An assignment to a slot that keeps the keys distinct. *)
Lemma dict_put d i s t n :
  dict_ok d → d_slots d !! i = Some s → slot_ok t →
  (∀ k, sl_key t = Some k → sl_key s = Some k ∨ k ∉ (entries (d_slots d)).*1) →
  n = d_n d - key_count s + key_count t →
  let d' := Dictionary n (d_size d) (<[i := t]> (d_slots d)) in
  dict_ok d' ∧ dict_map d' = add_entry t (drop_entry s (dict_map d)).
Proof.
  intros [Hs Hm Hc Hk Hh] Hi Ht Hkey -> d'. destruct (entries_put _ i s t Hi) as (rest & H1 & H2).
  destruct (list_to_map_entry s rest _ H1 Hk) as [_ Hdel].
  assert (Hnd : NoDup (entries (<[i:=t]> (d_slots d))).*1).
  { rewrite H2. rewrite H1 in Hk. setoid_rewrite H1 in Hkey. unfold slot_entry in *.
    destruct (sl_key t) as [k|]; simpl in *; [apply NoDup_cons; split|].
    - destruct (Hkey k eq_refl) as [Hsk|Hn].
      + rewrite Hsk in Hk. simpl in Hk. by apply NoDup_cons in Hk as [? _].
      + destruct (sl_key s); set_solver.
    - destruct (sl_key s); simpl in Hk; [by apply NoDup_cons in Hk as [_ ?]|done].
    - destruct (sl_key s); simpl in Hk; [by apply NoDup_cons in Hk as [_ ?]|done]. }
  split; [split; simpl|].
  - by rewrite length_insert.
  - done.
  - rewrite Hc, !key_count_entry.
    apply Permutation_length in H1, H2. rewrite length_app in H1, H2. lia.
  - done.
  - apply Forall_insert; [done|]. by apply Ht.
  - unfold dict_map. simpl. rewrite Hdel. by apply list_to_map_entry.
Qed.

Lemma dict_new_ok size :
  dict_ok (dictionary_new size) ∧ dict_map (dictionary_new size) = ∅.
Proof.
  unfold dictionary_new, dict_map. set (sz := if size <? DICTMINSZ then DICTMINSZ else size).
  assert (DICTMINSZ ≤ sz) by (unfold sz; destruct (size <? DICTMINSZ) eqn:E; lia).
  unfold DICTMINSZ in *. split; [split; cbn [d_n d_size d_slots]|]; rewrite ?entries_empty; simpl; try done.
  - rewrite length_replicate. lia.
  - constructor.
  - by apply Forall_replicate.
  - by rewrite entries_empty.
Qed.

Lemma entries_full l : find_slot slot_free l = None → length (entries l) = length l.
Proof.
  intros Hf. pose proof (find_slot_None _ _ Hf) as Hall. clear Hf. unfold entries, slot_entry.
  induction l as [|s l IH]; [done|]. simpl. specialize (Hall s ltac:(set_solver)) as Hs.
  unfold slot_free in Hs. destruct (sl_key s); [|done]. simpl. f_equal. apply IH. set_solver.
Qed.

(** Room for one more key: the dictionary is as before and has an empty slot. *)
Lemma dict_room d :
  dict_ok d → d_size d < 2 ^ 27 →
  ∃ d' i s, (if d_n d =? d_size d then mem_double d else Some d) = Some d' ∧
    dict_ok d' ∧ entries (d_slots d') = entries (d_slots d) ∧ d_n d' = d_n d ∧
    default (Z.to_nat (d_size d')) (find_slot slot_free (dict_array d')) = i ∧
    d_slots d' !! i = Some s ∧ sl_key s = None.
Proof.
  intros Hok Hsz.
  assert (∃ d', (if d_n d =? d_size d then mem_double d else Some d) = Some d' ∧
    dict_ok d' ∧ entries (d_slots d') = entries (d_slots d) ∧ d_n d' = d_n d ∧
    (length (entries (d_slots d')) ≠ length (d_slots d'))) as (d' & H1 & Hok' & He & Hn & Hlen).
  { destruct Hok as [Hs Hm Hc Hk Hh]. unfold DICTMINSZ in *. destruct (d_n d =? d_size d) eqn:E.
    - unfold mem_double. replace (2 * (d_size d * 8) <? 2 ^ 31) with true by lia. eexists.
      split; [done|]. simpl. rewrite entries_app, entries_empty, app_nil_r, length_app, length_replicate.
      split_and!; try done; [|lia]. split; simpl; rewrite ?entries_app, ?entries_empty, ?app_nil_r; try done.
      + rewrite length_app, length_replicate. lia.
      + unfold DICTMINSZ. lia.
      + apply Forall_app_2; [done|]. by apply Forall_replicate.
    - exists d. apply Z.eqb_neq in E. split_and!; try done. lia. }
  destruct (find_slot slot_free (d_slots d')) as [i|] eqn:Hf.
  - apply find_slot_Some in Hf as Hs. destruct Hs as (s & Hs & Hfree). exists d', i, s.
    rewrite dict_array_ok, Hf by done. unfold slot_free in Hfree. by destruct (sl_key s).
  - by apply entries_full in Hf.
Qed.

Lemma add_entry_fresh key v m :
  add_entry (Slot (Some key) v (dictionary_hash key)) m = <[key := v]> m.
Proof. done. Qed.

(** [dictionary_set] is insertion; it fails only on an overflow. *)
Lemma dict_set_refines d key v :
  dict_ok d → d_size d < 2 ^ 27 →
  ∃ d', dictionary_set (Some d) (Some key) v = Some (0, Some d') ∧ dict_ok d' ∧
        dict_map d' = <[key := v]> (dict_map d) ∧
        d_size d' ≤ (if d_n d =? d_size d then 2 * d_size d else d_size d).
Proof.
  intros Hok Hsz. simpl. pose proof (dict_search_spec d key Hok) as Hsp.
  destruct (if 0 <? d_n d then dict_search d key else None) as [i|] eqn:Hf.
  - destruct (0 <? d_n d); [|done]. rewrite Hf in Hsp. destruct Hsp as (s & Hs & Hk & Hm).
    unfold slot_put. rewrite Hs. simpl.
    destruct (dict_put d i s (Slot (sl_key s) v (sl_hash s)) (d_n d)) as [Hok' Hm']; try done.
    + intros k Hk'. by apply (proj1 (Forall_lookup _ _) (ok_hash d Hok) i s Hs).
    + intros k Hk'. by left.
    + unfold key_count. simpl. destruct (sl_key s); lia.
    + eexists. split_and!; [done..| |].
      * rewrite Hm'. unfold add_entry, drop_entry, slot_entry. rewrite Hk. simpl. by rewrite insert_delete_eq.
      * simpl. destruct (_ =? _); destruct Hok; unfold DICTMINSZ in *; lia.
  - assert (Hn : key ∉ (entries (d_slots d)).*1).
    { destruct (0 <? d_n d) eqn:E; [rewrite Hf in Hsp; apply Hsp|].
      apply Z.ltb_ge in E. rewrite (ok_count d Hok) in E.
      destruct (entries (d_slots d)); simpl in *; [set_solver|lia]. }
    destruct (dict_room d Hok Hsz) as (d1 & i & s & H1 & Hok1 & He & Hn1 & Hi & Hs & Hk).
    unfold dict_add. rewrite H1. cbn [mbind option_bind]. rewrite Hi. unfold slot_put. rewrite Hs.
    cbn [mbind option_bind d_n d_size d_slots].
    destruct (dict_put d1 i s (Slot (Some key) v (dictionary_hash key)) (d_n d1 + 1)) as [Hok' Hm'];
      try done.
    + by intros k [= <-].
    + intros k [= <-]. right. by rewrite He.
    + unfold key_count. rewrite Hk. simpl. lia.
    + eexists. split_and!; [done..| |].
      * rewrite Hm', add_entry_fresh. unfold drop_entry, slot_entry. rewrite Hk. simpl.
        unfold dict_map. by rewrite He.
      * simpl. destruct (_ =? _) in H1 |- *; [|by simplify_eq]. unfold mem_double in H1.
        destruct (_ <? _) in H1; [|done]. simpl in H1. simplify_eq. simpl. lia.
Qed.

Lemma dict_unset_refines d key :
  dict_ok d →
  ∃ d', dictionary_unset d key = Some d' ∧ dict_ok d' ∧
        dict_map d' = delete key (dict_map d) ∧ d_size d' = d_size d.
Proof.
  intros Hok. unfold dictionary_unset. pose proof (dict_search_spec d key Hok) as Hsp.
  destruct (dict_search d key) as [i|].
  - destruct Hsp as (s & Hs & Hk & Hm). unfold slot_put. rewrite Hs. simpl.
    destruct (dict_put d i s empty_slot (d_n d - 1)) as [Hok' Hm']; try done.
    + unfold key_count. rewrite Hk. simpl. lia.
    + eexists. split_and!; [done..| |done]. rewrite Hm'. unfold drop_entry, slot_entry. by rewrite Hk.
  - exists d. split_and!; [done..| |done]. by rewrite delete_id by apply Hsp.
Qed.

Lemma dict_get_refines d key def :
  dict_ok d →
  dictionary_get d key def = match dict_map d !! key with Some v => ptr_of v | None => def end.
Proof.
  intros Hok. unfold dictionary_get. pose proof (dict_search_spec d key Hok) as Hsp.
  destruct (dict_search d key) as [i|].
  - destruct Hsp as (s & Hs & Hk & Hm). by rewrite Hs, Hm.
  - by rewrite (proj1 Hsp).
Qed.

Lemma dict_count d : dict_ok d → d_n d = Z.of_nat (size (dict_map d)).
Proof.
  intros Hok. rewrite (ok_count d Hok). f_equal. unfold dict_map.
  by rewrite map_size_list_to_map by apply Hok.
Qed.

(** ** Sections *)

Definition section_names (l : list slot) : list string := omap sl_key (filter is_section l).

Lemma count_slots_filter p l n : count_slots p l n = n + Z.of_nat (length (filter p l)).
Proof.
  revert n. induction l as [|s l IH]; intros n; simpl; [lia|]. rewrite IH, filter_cons.
  destruct (p s) eqn:E; case_decide as D; simpl in *; [lia|by destruct D|done|lia].
Qed.

Lemma section_names_cons s l k :
  sl_key s = Some k →
  section_names (s :: l) =
  (if is_section s then k :: section_names l else section_names l).
Proof.
  intros Hk. unfold section_names. rewrite filter_cons.
  destruct (is_section s) eqn:E; case_decide as D; simpl in *; [by rewrite Hk|by destruct D|done|done].
Qed.

Lemma section_names_length l : length (section_names l) = length (filter is_section l).
Proof.
  unfold section_names. induction l as [|s l IH]; [done|]. rewrite filter_cons. case_decide as D; [|done].
  simpl. unfold is_section in D. destruct (sl_key s); simpl; [by f_equal|done].
Qed.

Lemma getsecname_loop_spec l c n :
  c ≤ n → getsecname_loop l c n ≫= sl_key = section_names l !! Z.to_nat (n - c).
Proof.
  revert c. induction l as [|s l IH]; intros c Hc; simpl; [done|].
  destruct (sl_key s) as [k|] eqn:Hk.
  - rewrite (section_names_cons s l k Hk). destruct (is_section s); [|by apply IH].
    destruct (n <? c + 1) eqn:E.
    + simpl. replace (n - c) with 0 by lia. done.
    + rewrite IH by lia. replace (Z.to_nat (n - c)) with (S (Z.to_nat (n - (c + 1)))) by lia. done.
  - assert (is_section s = false) as Hs by by unfold is_section; rewrite Hk.
    rewrite Hs, IH by done. unfold section_names. rewrite filter_cons. case_decide as D; [|done].
    by rewrite Hs in D.
Qed.

Lemma elem_of_section_names l k :
  k ∈ section_names l ↔ k ∈ (entries l).*1 ∧ strchr k (chr 58) = None.
Proof.
  unfold section_names. rewrite list_elem_of_omap, list_elem_of_fmap. split.
  - intros (s & [Hs Hin]%list_elem_of_filter & Hk). unfold is_section in Hs. rewrite Hk in Hs.
    destruct (strchr k (chr 58)) eqn:Hc; [done|]. split; [|done].
    exists (k, sl_val s). split; [done|]. apply entry_slot. by exists s.
  - intros [([k' v] & -> & (s & Hs & Hk & _)%entry_slot) Hc]. exists s. split; [|done].
    apply list_elem_of_filter. split; [|done]. unfold is_section. rewrite Hk. simpl in *. by rewrite Hc.
Qed.

Lemma section_names_nodup l : NoDup (entries l).*1 → NoDup (section_names l).
Proof.
  induction l as [|s l IH]; [constructor|]. intros Hnd.
  destruct (sl_key s) as [k|] eqn:Hk.
  - rewrite (section_names_cons s l k Hk). unfold entries in Hnd. simpl in Hnd.
    unfold slot_entry in Hnd at 1. rewrite Hk in Hnd. simpl in Hnd. apply NoDup_cons in Hnd as [Hn Hnd].
    destruct (is_section s); [|by apply IH]. apply NoDup_cons. split; [|by apply IH].
    rewrite elem_of_section_names. naive_solver.
  - unfold entries in Hnd. simpl in Hnd. unfold slot_entry in Hnd at 1. rewrite Hk in Hnd. simpl in Hnd.
    unfold section_names. rewrite filter_cons. case_decide as D; [|by apply IH].
    unfold is_section in D. by rewrite Hk in D.
Qed.

(** ** Access, against the map *)

(** The key a request for [k] looks for. *)
Definition norm_key (k : string) : string := str_lower (str_take ASCIILINESZ k).

Inductive ini_op := OpSet (entry : string) (val : option string) | OpUnset (entry : string).

Definition ini_step (d : dictionary) (o : ini_op) : option dictionary :=
  match o with
  | OpSet e v =>
      '(r, d) ← iniparser_setstr (Some d) (Some e) v; assert! (r =? 0); d
  | OpUnset e => iniparser_unset (Some d) (Some e) ≫= id
  end.

Definition map_step (m : gmap string (option string)) (o : ini_op) : gmap string (option string) :=
  match o with
  | OpSet e v => <[norm_key e := v]> m
  | OpUnset e => delete (norm_key e) m
  end.

Definition ini_run (d : dictionary) (ops : list ini_op) : option dictionary :=
  foldl (λ d o, d ← d; ini_step d o) (Some d) ops.

(** The size stays within twice the number of operations. *)
Definition size_bound (d : dictionary) (c : Z) : Prop := d_n d ≤ c ∧ d_size d ≤ Z.max DICTMINSZ (2 * c).

Lemma dict_set_bound d key v c :
  dict_ok d → size_bound d c → c < 2 ^ 26 →
  ∃ d', dictionary_set (Some d) (Some key) v = Some (0, Some d') ∧ dict_ok d' ∧
        dict_map d' = <[key := v]> (dict_map d) ∧ size_bound d' (c + 1).
Proof.
  intros Hok [Hn Hs] Hc. unfold DICTMINSZ in *.
  destruct (dict_set_refines d key v Hok) as (d' & H1 & Hok' & Hm & Hsz); [lia|].
  exists d'. do 3 (split; [done|]). unfold size_bound. split.
  - rewrite (dict_count d Hok) in Hn. rewrite (dict_count d' Hok'), Hm, map_size_insert. destruct (dict_map d !! key); simpl; lia.
  - unfold DICTMINSZ. destruct (_ =? _) eqn:E; lia.
Qed.

Lemma ini_step_refines d o c :
  dict_ok d → size_bound d c → c < 2 ^ 26 →
  ∃ d', ini_step d o = Some d' ∧ dict_ok d' ∧ dict_map d' = map_step (dict_map d) o ∧
        size_bound d' (c + 1).
Proof.
  intros Hok Hb Hc. destruct o as [e v|e]; cbn [ini_step map_step].
  - destruct (dict_set_bound d (norm_key e) v c Hok Hb Hc) as (d' & H1 & H2). exists d'.
    unfold iniparser_setstr, strlwc. cbn [mbind option_bind]. unfold norm_key in H1. rewrite H1. done.
  - destruct (dict_unset_refines d (norm_key e) Hok) as (d' & H1 & Hok' & Hm & Hs). exists d'.
    unfold iniparser_unset, strlwc. cbn [mbind option_bind]. unfold norm_key in H1. rewrite H1. simpl. split_and!; try done.
    destruct Hb as [Hn Hsz]. split; [|lia]. rewrite (dict_count d Hok) in Hn.
    rewrite (dict_count d' Hok'), Hm, map_size_delete. destruct (dict_map d !! norm_key e); simpl; lia.
Qed.

Lemma ini_run_refines ops d c :
  dict_ok d → size_bound d c → c + Z.of_nat (length ops) ≤ 2 ^ 26 →
  ∃ d', ini_run d ops = Some d' ∧ dict_ok d' ∧ dict_map d' = foldl map_step (dict_map d) ops ∧
        size_bound d' (c + Z.of_nat (length ops)).
Proof.
  revert d c. induction ops as [|o ops IH]; intros d c Hok Hb Hc; simpl in *.
  - exists d. rewrite Z.add_0_r. done.
  - destruct (ini_step_refines d o c Hok Hb ltac:(lia)) as (d1 & H1 & Hok1 & Hm & Hb1).
    unfold ini_run. simpl. rewrite H1. rewrite <- Hm.
    destruct (IH d1 (c + 1) Hok1 Hb1 ltac:(lia)) as (d' & H2 & H3 & H4 & H5).
    exists d'. split_and!; try done; replace (c + Z.of_nat (S (length ops))) with (c + 1 + Z.of_nat (length ops)) by lia; apply H5.
Qed.

Lemma new_bound : size_bound (dictionary_new 0) 0.
Proof. split; [done|]. unfold DICTMINSZ. done. Qed.

Lemma getstring_map d k def :
  dict_ok d →
  iniparser_getstring (Some d) (Some k) def =
  match dict_map d !! norm_key k with Some v => ptr_of v | None => def end.
Proof. intros Hok. by apply dict_get_refines. Qed.

(** ** Files as lists of lines

    The lines a configuration is written with: a section, an entry whose value
    is bare or quoted, a comment, an empty line. *)

Inductive style := Bare | Quoted (q : ascii).

Inductive item :=
| ISection (indent name tail : string)
| IEntry (indent key sp1 sp2 : string) (st : style) (val sp3 tail : string)
| IComment (indent : string) (mark : ascii) (text : string)
| IBlank (indent : string).

Definition str1 (a : ascii) : string := String a EmptyString.

Definition print_value (st : style) (val : string) : string :=
  match st with
  | Bare => val
  | Quoted q => str1 q +:+ val +:+ str1 q
  end.

(** What follows the indentation. *)
Definition print_body (i : item) : string :=
  match i with
  | ISection _ name tail => "[" +:+ name +:+ "]" +:+ tail
  | IEntry _ key sp1 sp2 st val sp3 tail =>
      key +:+ sp1 +:+ "=" +:+ sp2 +:+ print_value st val +:+ sp3 +:+ tail
  | IComment _ mark text => str1 mark +:+ text
  | IBlank _ => ""
  end.

Definition indent_of (i : item) : string :=
  match i with
  | ISection ind _ _ => ind
  | IEntry ind _ _ _ _ _ _ _ => ind
  | IComment ind _ _ => ind
  | IBlank ind => ind
  end.

Definition print_item (i : item) : string := indent_of i +:+ print_body i.

Fixpoint print_items (l : list item) : string :=
  match l with
  | [] => ""
  | i :: l' => print_item i +:+ str1 newline +:+ print_items l'
  end.

Definition none_of (cs : list Z) (a : ascii) : bool := negb (bool_decide (code a ∈ cs)).

Definition starts (p : ascii → bool) (s : string) : bool :=
  match s with String a _ => p a | EmptyString => false end.

Definition starts_or_empty (p : ascii → bool) (s : string) : bool :=
  match s with String a _ => p a | EmptyString => true end.

Definition cropped (s : string) : bool := str_eqb (crop_blanks s) s.

(** A value with the delimiter it is written with. *)
Definition value_ok (st : style) (val tail : string) : bool :=
  match st with
  | Bare =>
      str_all (none_of [59; 35]) val &&
      starts (λ a, negb (isspace a) && none_of [34; 39] a) val && cropped val &&
      starts_or_empty (λ a, negb (none_of [59; 35] a)) tail
  | Quoted q =>
      negb (none_of [34; 39] q) && str_all (λ a, negb (code a =? code q)) val &&
      starts (λ _, true) val && cropped val &&
      negb (str_eqb val (two_quotes 34)) && negb (str_eqb val (two_quotes 39))
  end.

Definition body_ok (i : item) : bool :=
  match i with
  | ISection _ name _ => str_all (none_of [93]) name && starts (λ _, true) name
  | IEntry _ key sp1 sp2 st val sp3 tail =>
      str_all (none_of [61]) key && cropped key &&
      starts (λ a, negb (isspace a) && none_of [59; 35; 91] a) key &&
      str_all isspace sp1 && str_all isspace sp2 && str_all isspace sp3 && value_ok st val tail
  | IComment _ mark _ => negb (none_of [59; 35] mark)
  | IBlank _ => true
  end.

(** The line is one line for the parser, and the body is as the format wants. *)
Definition item_ok (i : item) : bool :=
  str_all (none_of [10; 0]) (print_item i) && (String.length (print_item i) <=? 1022)%nat &&
  str_all isspace (indent_of i) && body_ok i.

(** What the lines mean: the entries so far and the current section. *)
Definition item_step (st : gmap string (option string) * string) (i : item)
  : gmap string (option string) * string :=
  let '(m, sec) := st in
  match i with
  | ISection _ name _ => (<[str_lower name := None]> m, str_lower name)
  | IEntry _ key _ _ _ val _ _ => (<[sec +:+ ":" +:+ str_lower key := Some val]> m, sec)
  | _ => st
  end.

Definition items_map (l : list item) : gmap string (option string) :=
  (foldl item_step (∅, "") l).1.

Lemma dict_map_key d k : is_Some (dict_map d !! k) ↔ k ∈ (entries (d_slots d)).*1.
Proof.
  unfold dict_map. split.
  - intros [v Hv]. apply list_elem_of_fmap. exists (k, v). split; [done|]. by apply elem_of_list_to_map_2.
  - intros Hk. destruct (list_to_map (entries (d_slots d)) !! k) eqn:E; [done|].
    by apply not_elem_of_list_to_map in E.
Qed.

(** *** Lemmas on the scanner *)

Lemma skip_space_blanks a b : str_all isspace a = true → skip_space (a +:+ b) = skip_space b.
Proof.
  induction a as [|c a IH]; simpl; [done|]. intros [-> Ha]%andb_true_iff. by apply IH.
Qed.

Lemma skip_space_starts s : starts (λ a, negb (isspace a)) s = true → skip_space s = s.
Proof. destruct s as [|a s]; simpl; [done|]. by destruct (isspace a). Qed.

Lemma starts_app p a b : starts p a = true → starts p (a +:+ b) = true.
Proof. by destruct a. Qed.

Lemma starts_weaken (p q : ascii → bool) s :
  (∀ a, p a = true → q a = true) → starts p s = true → starts q s = true.
Proof. intros H. destruct s; simpl; auto. Qed.

Lemma str_take_ge n s : (String.length s ≤ n)%nat → str_take n s = s.
Proof.
  revert n. induction s as [|a s IH]; intros [|n]; simpl; try done; intros; [lia|].
  by rewrite IH by lia.
Qed.

Lemma str_lower_length s : String.length (str_lower s) = String.length s.
Proof. induction s; simpl; lia. Qed.

Lemma crop_blanks_all w : str_all isspace w = true → crop_blanks w = "".
Proof.
  induction w as [|c w IH]; simpl; [done|]. intros [Hc Hw]%andb_true_iff. by rewrite IH, Hc.
Qed.

Lemma crop_blanks_app a w : str_all isspace w = true → crop_blanks (a +:+ w) = crop_blanks a.
Proof.
  intros Hw. induction a as [|c a IH]; [by apply crop_blanks_all|]. simpl. by rewrite IH.
Qed.

Lemma c_str_plain s : str_all (none_of [10; 0]) s = true → c_str (s +:+ str1 newline) = s +:+ str1 newline.
Proof.
  induction s as [|a s IH]; simpl; [done|]. intros [Ha Hs]%andb_true_iff.
  destruct (code a =? 0) eqn:E; [|by rewrite IH]. apply Z.eqb_eq in E.
  unfold none_of in Ha. rewrite E in Ha. done.
Qed.

Lemma fgets_line n s rest :
  str_all (none_of [10; 0]) s = true → (String.length s < n)%nat →
  fgets_loop n (s +:+ str1 newline +:+ rest) = (s +:+ str1 newline, rest).
Proof.
  revert n. induction s as [|a s IH]; intros [|n]; simpl; try lia; [done|].
  intros [Ha Hs]%andb_true_iff Hn. destruct (code a =? 10) eqn:E.
  - apply Z.eqb_eq in E. unfold none_of in Ha. by rewrite E in Ha.
  - by rewrite IH by (done || lia).
Qed.

(** A conversion takes what precedes the first character of the set. *)
Lemma scanset_loop_spec n stop a b :
  str_all (none_of stop) a = true → (String.length a < n)%nat →
  starts_or_empty (λ c, negb (none_of stop c)) b = true →
  scanset_loop n stop (a +:+ b) = (a, b).
Proof.
  revert n. induction a as [|c a IH]; intros [|n]; simpl; try lia; intros Ha Hn Hb.
  - destruct b as [|c b]; [done|]. simpl in Hb. unfold none_of in Hb. rewrite negb_involutive in Hb.
    simpl. by rewrite Hb.
  - apply andb_true_iff in Ha as [Hc Ha]. unfold none_of in Hc. apply negb_true_iff in Hc.
    by rewrite Hc, (IH n) by (done || lia).
Qed.

Lemma scanset_spec stop a b :
  str_all (none_of stop) a = true → starts (λ _, true) a = true → (String.length a < 1024)%nat →
  starts_or_empty (λ c, negb (none_of stop c)) b = true →
  scanset stop (a +:+ b) = Some (a, b).
Proof.
  intros. unfold scanset, ASCIILINESZ. rewrite scanset_loop_spec by done. by destruct a.
Qed.

Lemma blank_none_of cs a : (∀ c, c ∈ cs → 33 ≤ c) → isspace a = true → none_of cs a = true.
Proof.
  intros Hcs Ha. unfold none_of. apply negb_true_iff, bool_decide_eq_false. intros Hc%Hcs.
  unfold isspace in Ha. lia.
Qed.

Lemma blanks_none_of cs w :
  (∀ c, c ∈ cs → 33 ≤ c) → str_all isspace w = true → str_all (none_of cs) w = true.
Proof. intros. eapply str_all_impl; [|done]. intros. by apply blank_none_of. Qed.

Lemma cropped_crop s : cropped s = true → crop_blanks s = s.
Proof. by intros ?%str_eqb_eq. Qed.

(** The steps of the three formats up to the value. *)
Lemma scan_entry_spec quote stop key sp1 sp2 v :
  str_all (none_of [61]) key = true → starts (λ _, true) key = true →
  str_all isspace sp1 = true → str_all isspace sp2 = true →
  starts (λ a, negb (isspace a)) v = true → (String.length (key +:+ sp1) < 1024)%nat →
  scan_entry quote stop (key +:+ sp1 +:+ "=" +:+ sp2 +:+ v) =
  (s ← (match quote with Some q => scan_lit q v | None => Some v end);
   '(val, _) ← scanset stop s; Some (key +:+ sp1, val)).
Proof.
  intros Hk Hk1 H1 H2 Hv Hlen. unfold scan_entry. rewrite <- (str_app_assoc key sp1).
  rewrite (scanset_spec [61] (key +:+ sp1)); [|rewrite str_all_app, Hk; by apply blanks_none_of; [set_solver by lia|] |by apply starts_app|done|done].
  cbn [mbind option_bind]. change (skip_space ("=" +:+ sp2 +:+ v)) with ("=" +:+ sp2 +:+ v).
  change (scan_lit 61 ("=" +:+ sp2 +:+ v)) with (Some (sp2 +:+ v)). cbn [mbind option_bind].
  rewrite skip_space_blanks, (skip_space_starts v) by done. done.
Qed.

Lemma starts_true p s : starts p s = true → starts (λ _, true) s = true.
Proof. by apply starts_weaken. Qed.

Lemma none_of_cons c cs a : none_of (c :: cs) a = negb (code a =? c) && none_of cs a.
Proof.
  unfold none_of. rewrite <- negb_orb. f_equal. destruct (code a =? c) eqn:E.
  - apply Z.eqb_eq in E. apply bool_decide_eq_true. set_solver.
  - apply Z.eqb_neq in E. simpl. apply bool_decide_ext. set_solver.
Qed.

Lemma scan_lit_other c s : starts (λ a, negb (code a =? c)) s = true → scan_lit c s = None.
Proof. destruct s as [|a s]; simpl; [done|]. by destruct (code a =? c). Qed.

Lemma entry_value_cropped val w :
  (String.length (val +:+ w) ≤ 1024)%nat → str_all isspace w = true → cropped val = true →
  val +:+ w ≠ two_quotes 34 → val +:+ w ≠ two_quotes 39 → entry_value (val +:+ w) = val.
Proof.
  intros Hlen Hw Hc H1%str_eqb_neq H2%str_eqb_neq. unfold entry_value, strcrop. rewrite H1, H2.
  cbn [orb mbind option_bind default]. rewrite str_take_ge by done. cbn [default id].
  rewrite crop_blanks_app by done. by apply cropped_crop.
Qed.

Lemma entry_value_two q : code (chr q) = q → starts (λ a, negb (code a =? q)) (two_quotes q) = false.
Proof. intros H. simpl. rewrite H, Z.eqb_refl. done. Qed.

(** A bare value: the conversion takes it with the blanks up to a comment or
    the end of the line. *)
Lemma scan_bare key sp1 sp2 val sp3 tail :
  str_all (none_of [61]) key = true → starts (λ _, true) key = true →
  str_all isspace sp1 = true → str_all isspace sp2 = true → str_all isspace sp3 = true →
  value_ok Bare val tail = true →
  (String.length (key +:+ sp1) + String.length (val +:+ sp3) < 1023)%nat →
  ∃ w, scan_entries (key +:+ sp1 +:+ "=" +:+ sp2 +:+ val +:+ sp3 +:+ tail +:+ str1 newline) =
         Some (key +:+ sp1, val +:+ w) ∧ entry_value (val +:+ w) = val.
Proof.
  intros Hk Hk1 H1 H2 H3 Hv Hlen. unfold value_ok in Hv.
  apply andb_true_iff in Hv as [[[Hval Hst]%andb_true_iff Hcr]%andb_true_iff Htail].
  set (rest := val +:+ sp3 +:+ tail +:+ str1 newline).
  assert (Hr : starts (λ a, negb (isspace a) && none_of [34; 39] a) rest = true) by by apply starts_app.
  assert (Hr' : starts (λ a, negb (isspace a)) rest = true).
  { eapply starts_weaken; [|exact Hr]. by intros a [? _]%andb_true_iff. }
  assert (Hq : ∀ c, c ∈ [34; 39] → starts (λ a, negb (code a =? c)) val = true).
  { intros c Hc. eapply starts_weaken; [|exact Hst]. intros a [_ Ha]%andb_true_iff.
    rewrite !none_of_cons in Ha. set_unfold in Hc. destruct (code a =? c) eqn:E; [|done].
    apply Z.eqb_eq in E. rewrite E in Ha. by destruct Hc as [->|[->|?]]. }
  unfold scan_entries. rewrite !scan_entry_spec by (done || lia).
  rewrite !scan_lit_other by (apply starts_app, Hq; set_solver). cbn [mbind option_bind].
  assert (∃ w r, rest = (val +:+ w) +:+ r ∧ str_all isspace w = true ∧
    (String.length w ≤ String.length sp3 + 1)%nat ∧
    starts_or_empty (λ c, negb (none_of [59; 35] c)) r = true) as (w & r & Hw & Hb & Hl & Hstop).
  { destruct tail as [|c tail]; simpl in Htail.
    - exists (sp3 +:+ str1 newline), "". rewrite str_app_nil, str_all_app, H3, str_length_app.
      unfold rest. split_and!; [by rewrite ?str_app_assoc|done|simpl; lia|done].
    - exists sp3, (String c tail +:+ str1 newline). unfold rest. rewrite !str_app_assoc.
      split_and!; try done. lia. }
  rewrite !str_length_app in Hlen. exists w. rewrite Hw, scanset_spec; try done.
  - split; [done|]. apply entry_value_cropped; try done; [rewrite str_length_app; lia|..]; intros He;
      [pose proof (starts_app _ val w (Hq 34 ltac:(set_solver))) as Hs
      |pose proof (starts_app _ val w (Hq 39 ltac:(set_solver))) as Hs];
      rewrite He, entry_value_two in Hs; done.
  - rewrite str_all_app, Hval. by apply blanks_none_of; [set_solver by lia|].
  - by eapply starts_app, starts_true.
  - rewrite str_length_app. lia.
Qed.

(** A quoted value: the conversion takes what is between the quotes. *)
Lemma scan_quoted key sp1 sp2 q val r :
  str_all (none_of [61]) key = true → starts (λ _, true) key = true →
  str_all isspace sp1 = true → str_all isspace sp2 = true →
  value_ok (Quoted q) val "" = true →
  (String.length (key +:+ sp1) + String.length val < 1023)%nat →
  scan_entries (key +:+ sp1 +:+ "=" +:+ sp2 +:+ str1 q +:+ val +:+ str1 q +:+ r) =
    Some (key +:+ sp1, val) ∧ entry_value val = val.
Proof.
  intros Hk Hk1 H1 H2 Hv Hlen. unfold value_ok in Hv.
  apply andb_true_iff in Hv as [[[[[Hq Hval]%andb_true_iff Hst]%andb_true_iff Hcr]%andb_true_iff
    Hn1]%andb_true_iff Hn2].
  assert (Hs : scanset [code q] (val +:+ str1 q +:+ r) = Some (val, str1 q +:+ r)).
  { apply scanset_spec; try done.
    - eapply str_all_impl; [|exact Hval]. intros a Ha. by rewrite none_of_cons, Ha.
    - lia.
    - simpl. by rewrite none_of_cons, Z.eqb_refl. }
  assert (Hl : ∀ c, scan_lit c (str1 q +:+ val +:+ str1 q +:+ r) =
    if code q =? c then Some (val +:+ str1 q +:+ r) else None) by done.
  assert (Hcode : code q = 34 ∨ code q = 39).
  { rewrite !none_of_cons in Hq. destruct (code q =? 34) eqn:?, (code q =? 39) eqn:?; simpl in Hq; try lia. }
  assert (Hsp : isspace q = false) by (unfold isspace; lia).
  split.
  - unfold scan_entries. rewrite !scan_entry_spec by (done || lia || (simpl; by rewrite Hsp)).
    rewrite !Hl. destruct Hcode as [Hc|Hc]; rewrite Hc in Hs |- *; cbn [Z.eqb Pos.eqb mbind option_bind];
      rewrite Hs; done.
  - rewrite <- (str_app_nil val) at 1. apply entry_value_cropped; try done;
      rewrite ?str_app_nil; [lia|apply str_eqb_neq..]; by apply negb_true_iff.
Qed.

(** What [parse_line] does with an entry or a section of a dictionary that has
    room. *)
Lemma set_entry d sec key v c :
  dict_ok d → size_bound d c → c < 2 ^ 26 →
  (String.length sec + String.length (default "" key) < 2049)%nat →
  ∃ d', iniparser_add_entry (Some d) sec key v = Some (0, Some d') ∧ dict_ok d' ∧
    dict_map d' = <[match key with Some k => sec +:+ ":" +:+ k | None => sec end := v]> (dict_map d) ∧
    size_bound d' (c + 1).
Proof.
  intros Hok Hb Hc Hlen. unfold iniparser_add_entry.
  destruct key as [k|]; cbn [default id] in Hlen; rewrite str_take_ge.
  - by apply dict_set_bound.
  - rewrite !str_length_app. simpl. lia.
  - by apply dict_set_bound.
  - simpl. lia.
Qed.

Definition parser_inv (d : dictionary) (sec : string) (m : gmap string (option string)) (c : Z) : Prop :=
  dict_ok d ∧ size_bound d c ∧ dict_map d = m ∧ (String.length sec ≤ 1022)%nat.

Lemma parse_section d sec m c name r :
  parser_inv d sec m c → c < 2 ^ 26 → str_all (none_of [93]) name = true →
  starts (λ _, true) name = true → (String.length name ≤ 1022)%nat →
  ∃ d', parse_line d sec ("[" +:+ name +:+ "]" +:+ r) = Some (Some (d', str_lower name)) ∧
        parser_inv d' (str_lower name) (<[str_lower name := None]> m) (c + 1).
Proof.
  intros (Hok & Hb & <- & Hsec) Hc Hn Hst Hlen. unfold parse_line, strskp.
  rewrite skip_space_starts by done.
  destruct (set_entry d (str_lower name) None None c Hok Hb Hc) as (d' & H1 & Hok' & Hm & Hb').
  { rewrite str_lower_length. simpl. lia. }
  exists d'. assert (Hs : scan_section ("[" +:+ name +:+ "]" +:+ r) = Some name).
  { unfold scan_section. change (scan_lit 91 ("[" +:+ ?s)) with (Some s). cbn [mbind option_bind].
    by rewrite scanset_spec by (done || lia). }
  rewrite Hs. cbn [String.append].
  change ((code "[" =? 59) || (code "[" =? 35)) with false. cbn iota. unfold strlwc.
  cbn [mbind option_bind]. rewrite str_take_ge by (unfold ASCIILINESZ; lia). rewrite H1.
  split; [done|]. split_and!; try done. by rewrite str_lower_length.
Qed.

Lemma parse_entry d sec m c key sp1 val val' r :
  parser_inv d sec m c → c < 2 ^ 26 →
  starts (λ a, negb (isspace a) && none_of [59; 35; 91] a) key = true → cropped key = true →
  str_all isspace sp1 = true → (String.length (key +:+ sp1) ≤ 1022)%nat →
  scan_entries (key +:+ r) = Some (key +:+ sp1, val') → entry_value val' = val →
  ∃ d', parse_line d sec (key +:+ r) = Some (Some (d', sec)) ∧
        parser_inv d' sec (<[sec +:+ ":" +:+ str_lower key := Some val]> m) (c + 1).
Proof.
  intros (Hok & Hb & <- & Hsec) Hc Hst Hcr H1 Hlen Hscan Hval. unfold parse_line, strskp.
  rewrite skip_space_starts.
  2:{ eapply starts_app, starts_weaken; [|exact Hst]. by intros a [? _]%andb_true_iff. }
  destruct (set_entry d sec (Some (str_lower key)) (Some val) c Hok Hb Hc) as (d' & Hset & Hok' & Hm & Hb').
  { cbn [default id]. rewrite str_lower_length. rewrite str_length_app in Hlen. lia. }
  exists d'. rewrite Hscan. destruct (key +:+ r) as [|a s] eqn:E; [by destruct key|].
  assert (Ha : none_of [59; 35; 91] a = true).
  { destruct key as [|k key]; [done|]. simpl in E, Hst. apply andb_true_iff in Hst as [_ Hst]. by injection E as [= -> _]. }
  rewrite !none_of_cons in Ha. apply andb_true_iff in Ha as [Ha1 [Ha2 [Ha3 _]%andb_true_iff]%andb_true_iff].
  apply negb_true_iff in Ha1, Ha2, Ha3. rewrite Ha1, Ha2. cbn [orb].
  unfold scan_section. cbn [scan_lit]. rewrite Ha3. cbn [mbind option_bind].
  unfold strcrop, strlwc. cbn [mbind option_bind].
  rewrite (str_take_ge ASCIILINESZ (key +:+ sp1)) by (unfold ASCIILINESZ; lia).
  rewrite crop_blanks_app, cropped_crop by done. rewrite str_length_app in Hlen.
  rewrite str_take_ge by (unfold ASCIILINESZ; lia). rewrite Hval, Hset. done.
Qed.

Lemma parse_line_indent d sec ind s :
  str_all isspace ind = true → parse_line d sec (ind +:+ s) = parse_line d sec s.
Proof. intros H. unfold parse_line, strskp. by rewrite skip_space_blanks. Qed.

Lemma size_bound_mono d c : size_bound d c → size_bound d (c + 1).
Proof. unfold size_bound. lia. Qed.

Lemma parse_item d sec m c i :
  parser_inv d sec m c → c < 2 ^ 26 → item_ok i = true →
  ∃ d', parse_line d sec (print_item i +:+ str1 newline) = Some (Some (d', (item_step (m, sec) i).2)) ∧
        parser_inv d' (item_step (m, sec) i).2 (item_step (m, sec) i).1 (c + 1).
Proof.
  intros Hinv Hc Hi. unfold item_ok in Hi.
  apply andb_true_iff in Hi as [[[_ Hlen%Nat.leb_le]%andb_true_iff Hind]%andb_true_iff Hbody].
  unfold print_item in *. rewrite str_app_assoc, parse_line_indent by done.
  rewrite str_length_app in Hlen.
  destruct i as [ind name tail|ind key sp1 sp2 st val sp3 tail|ind mark text|ind];
    cbn [print_body indent_of item_step fst snd body_ok] in *.
  - apply andb_true_iff in Hbody as [Hn Hst]. rewrite !str_app_assoc. apply parse_section; try done.
    rewrite !str_length_app in Hlen. lia.
  - apply andb_true_iff in Hbody as [[[[[[Hk Hcr]%andb_true_iff Hst]%andb_true_iff H1]%andb_true_iff
      H2]%andb_true_iff H3]%andb_true_iff Hv].
    rewrite !str_app_assoc. rewrite !str_length_app in Hlen. change (String.length "=") with 1%nat in Hlen.
    destruct st as [|q]; cbn [print_value] in *.
    + destruct (scan_bare key sp1 sp2 val sp3 tail) as (w & Hscan & Hval); try done.
      { by eapply starts_true. }
      { rewrite !str_length_app. lia. }
      apply (parse_entry d sec m c key sp1 val (val +:+ w)); try done. rewrite str_length_app. lia.
    + rewrite !str_length_app in Hlen. change (String.length (str1 q)) with 1%nat in Hlen.
      destruct (scan_quoted key sp1 sp2 q val (sp3 +:+ tail +:+ str1 newline)) as [Hscan Hval]; try done.
      { by eapply starts_true. }
      { rewrite str_length_app. lia. }
      rewrite !str_app_assoc.
      apply (parse_entry d sec m c key sp1 val val); try done. rewrite str_length_app. lia.
  - exists d. destruct Hinv as (? & ? & ? & ?).
    split; [|split_and!; try done; by apply size_bound_mono]. rewrite !none_of_cons in Hbody.
    assert (Hmark : (code mark =? 59) || (code mark =? 35) = true).
    { destruct (code mark =? 59), (code mark =? 35); done. }
    unfold parse_line, strskp. rewrite skip_space_starts.
    + change ((str1 mark +:+ text) +:+ str1 newline) with (String mark (text +:+ str1 newline)). cbv beta iota zeta. by rewrite Hmark.
    + simpl. unfold isspace. lia.
  - exists d. destruct Hinv as (? & ? & ? & ?).
    split; [done|split_and!; try done; by apply size_bound_mono].
Qed.

Lemma parse_items l d sec m c fuel :
  parser_inv d sec m c → c + Z.of_nat (length l) ≤ 2 ^ 26 → Forall (λ i, item_ok i = true) l →
  (String.length (print_items l) < fuel)%nat →
  ∃ d', parse_lines fuel d sec (print_items l) = Some (Some d') ∧ dict_ok d' ∧
        dict_map d' = (foldl item_step (m, sec) l).1.
Proof.
  revert d sec m c fuel. induction l as [|i l IH]; intros d sec m c [|fuel] Hinv Hc Hall Hf; try lia.
  - exists d. by destruct Hinv as (? & ? & ? & ?).
  - apply Forall_cons in Hall as [Hi Hall]. cbn [print_items length foldl] in *.
    destruct (parse_item d sec m c i Hinv ltac:(lia) Hi) as (d1 & H1 & Hinv1).
    unfold item_ok in Hi. apply andb_true_iff in Hi as [[[Hp Hlen%Nat.leb_le]%andb_true_iff _]%andb_true_iff _].
    assert (Hg : fgets (print_item i +:+ str1 newline +:+ print_items l) =
      Some (print_item i +:+ str1 newline, print_items l)).
    { unfold fgets. rewrite fgets_line by (done || (unfold ASCIILINESZ; lia)). by destruct (print_item i). }
    cbn [parse_lines]. rewrite Hg, c_str_plain, H1 by done. cbn [mbind option_bind].
    rewrite !str_length_app in Hf. change (String.length (str1 newline)) with 1%nat in Hf.
    destruct (item_step (m, sec) i) as [m' sec'].
    apply (IH d1 sec' m' (c + 1)); try done; lia.
Qed.

(** A dictionary is a finite map: after any sequence of settings and
    deletions (up to 2^26 of them, each of which succeeds), a string is found
    under every spelling of its key in upper and lower case, an absent key yields
    the default, and the sections are listed once each: those keys that have no
    colon. *)
Theorem dictionary_refines_map (ops : list ini_op) :
  Z.of_nat (length ops) ≤ 2 ^ 26 →
  let m := foldl map_step ∅ ops in
  ∃ d names, ini_run (dictionary_new 0) ops = Some d ∧
    (∀ k def, iniparser_getstring (Some d) (Some k) def =
       match m !! norm_key k with Some v => ptr_of v | None => def end) ∧
    (∀ k, iniparser_find_entry (Some d) (Some k) = bool_decide (is_Some (m !! norm_key k))) ∧
    NoDup names ∧ (∀ k, k ∈ names ↔ is_Some (m !! k) ∧ strchr k (chr 58) = None) ∧
    iniparser_getnsec (Some d) = Z.of_nat (length names) ∧
    (∀ n, iniparser_getsecname (Some d) n = if n <? 0 then None else names !! Z.to_nat n).
Proof.
  intros Hlen m. destruct (dict_new_ok 0) as [Hok0 Hm0].
  destruct (ini_run_refines ops (dictionary_new 0) 0 Hok0 new_bound ltac:(lia)) as (d & Hrun & Hok & Hm & _).
  rewrite Hm0 in Hm. exists d, (section_names (d_slots d)). split; [done|]. fold m in Hm.
  assert (Hget : ∀ k def, iniparser_getstring (Some d) (Some k) def =
    match m !! norm_key k with Some v => ptr_of v | None => def end).
  { intros k def. by rewrite getstring_map, Hm. }
  split_and!; [done|..].
  - intros k. unfold iniparser_find_entry. rewrite Hget. destruct (m !! norm_key k) as [[s|]|]; done.
  - apply section_names_nodup, Hok.
  - intros k. rewrite elem_of_section_names, <- Hm. by rewrite dict_map_key.
  - unfold iniparser_getnsec. rewrite count_slots_filter, section_names_length, dict_array_ok by done. lia.
  - intros n. unfold iniparser_getsecname. destruct (n <? 0) eqn:E; [done|].
    rewrite getsecname_loop_spec, dict_array_ok, Z.sub_0_r by (done || lia). done.
Qed.

(** Loading: the dictionary answers as the lines say. *)
Lemma load_config (l : list item) :
  Forall (λ i, item_ok i = true) l → Z.of_nat (length l) ≤ 2 ^ 26 →
  ∃ d, iniparser_new (Some (print_items l)) = Some (Some d) ∧
       ∀ k def, iniparser_getstring (Some d) (Some k) def =
         match items_map l !! norm_key k with Some v => ptr_of v | None => def end.
Proof.
  intros Hall Hlen. destruct (dict_new_ok 0) as [Hok0 Hm0].
  destruct (parse_items l (dictionary_new 0) "" ∅ 0 (S (String.length (print_items l))))
    as (d & Hnew & Hok & Hm); try done; [|lia|].
  { split_and!; try done. simpl. lia. }
  exists d. split; [done|]. intros k def. by rewrite getstring_map, Hm.
Qed.

(** C26: Loading a configuration written as sections, entries, comments and empty
    lines, with any indentation, spacing, quoting and comment behind a value,
    yields a dictionary that answers each key with the value its last line gave
    it, in the section that the preceding lines put it in. *)
Theorem load_printed_config (l : list item) (k : string) (def : char_ptr) :
  Forall (λ i, item_ok i = true) l → Z.of_nat (length l) ≤ 2 ^ 26 →
  ∃ d, iniparser_new (Some (print_items l)) = Some (Some d) ∧
       iniparser_getstring (Some d) (Some k) def =
       match items_map l !! norm_key k with Some v => ptr_of v | None => def end.
Proof.
  intros Hall Hlen. destruct (load_config l Hall Hlen) as (d & Hnew & Hget). exists d. by rewrite Hget.
Qed.

(** A file with all kinds of lines. *)
Definition sample_items : list item :=
  [ IComment "" "#" " openwsman"; IBlank "  "; ISection "" "Server" " ";
    IEntry " " "Port" " " " " Bare "5985" " " "; http";
    IEntry "" "identify_file" "" "  " (Quoted (chr 34)) "/etc/a;b" "" "";
    IEntry "" "PORT" "" "" (Quoted (chr 39)) "5986" "" "" ].

Lemma load_printed_config_witness :
  Forall (λ i, item_ok i = true) sample_items ∧
  items_map sample_items !! "server:port" = Some (Some "5986") ∧
  ∃ d, iniparser_new (Some (print_items sample_items)) = Some (Some d) ∧
       iniparser_getstring (Some d) (Some "Server:Port") NULLp = StrP "5986".
Proof.
  assert (Forall (λ i, item_ok i = true) sample_items) as H by (repeat constructor).
  assert (items_map sample_items !! "server:port" = Some (Some "5986")) as Hm by (vm_compute; reflexivity).
  split; [exact H|]. split; [exact Hm|].
  destruct (load_printed_config sample_items "Server:Port" NULLp H) as (d & H1 & H2); [vm_compute; discriminate|].
  exists d. split; [exact H1|]. rewrite H2. change (norm_key "Server:Port") with "server:port". rewrite Hm. reflexivity.
Defined.

Lemma dictionary_refines_map_witness :
  ∃ d names, ini_run (dictionary_new 0) [OpSet "A:b" (Some "1"); OpSet "s" None; OpUnset "a:B"] = Some d ∧
    iniparser_getstring (Some d) (Some "a:b") INI_INVALID_KEY = INI_INVALID_KEY ∧
    iniparser_getnsec (Some d) = Z.of_nat (length names) ∧ "s" ∈ names.
Proof.
  destruct (dictionary_refines_map [OpSet "A:b" (Some "1"); OpSet "s" None; OpUnset "a:B"])
    as (d & names & H1 & H2 & _ & _ & H3 & H4 & _); [vm_compute; discriminate|].
  exists d, names. split; [exact H1|]. split; [rewrite H2; reflexivity|]. split; [exact H4|].
  apply H3. split; [eexists; reflexivity|reflexivity].
Defined.
