(* ===== verification/Options.v ===== *)
(** * Command lines

    The options of src/src/lib/u/uoption.c, with which the daemon and the
    command line clients read their arguments.  The parser works on copies of
    the arguments that it cuts with NUL characters while it walks over them; a
    buffer is a string in which NULs may have been written. *)

From S2P Require Import Prelude CString Uri Ini.
From Stdlib Require Import Ascii.
Local Open Scope string_scope.
Local Open Scope list_scope.
Local Open Scope Z_scope.
Local Open Scope ow_scope.

Definition U_OPTION_ARG_NONE : Z := 0.
Definition U_OPTION_ARG_INT : Z := 1.
Definition U_OPTION_ARG_STRING : Z := 2.
Definition U_OPTION_ARG_STRING_ARRAY : Z := 3.

(** An entry; [short_name] is 0 when there is none, [arg_data] says whether
    there is a variable to assign to. *)
Record u_option_entry := Entry {
  name : string; short_name : Z; arg : Z; arg_data : bool;
  descr : option string; arg_descr : option string }.

Record u_option_group := Group {
  g_name : option string; g_descr : option string; g_help_descr : option string;
  g_entries : list u_option_entry; g_ismain : bool }.

Definition U_OPTION_CONTEXT_IGNORE_UNKNOWN : Z := 1.
Definition U_OPTION_CONTEXT_HELP_ENABLED : Z := 2.

Record u_option_context := Context_ {
  usage : option string; groups : list u_option_group; mode : Z; prog_name : option string }.

Definition u_option_group_new (name descr help_descr : option string) : u_option_group :=
  Group name descr help_descr [] false.

(** The entries before the one without a name; an array without it is read
    beyond its end. *)
Fixpoint entries_before_end (l : list (option u_option_entry)) : option (list u_option_entry) :=
  match l with
  | [] => None
  | None :: _ => Some []
  | Some e :: l' => r ← entries_before_end l'; Some (e :: r)
  end.

Definition u_option_group_add_entries (g : u_option_group) (l : list (option u_option_entry))
  : option u_option_group :=
  es ← entries_before_end l;
  Some (Group (g_name g) (g_descr g) (g_help_descr g) es (g_ismain g)).

Definition u_option_context_new (usage : option string) : u_option_context :=
  Context_ usage [] (Z.lor 0 U_OPTION_CONTEXT_HELP_ENABLED) None.

Definition u_option_context_add_group (ctx : u_option_context) (g : option u_option_group)
  : u_option_context :=
  match g with
  | None => ctx
  | Some g => Context_ (usage ctx) (groups ctx ++ [g]) (mode ctx) (prog_name ctx)
  end.

Definition u_option_context_add_main_entries (ctx : u_option_context)
    (options : list (option u_option_entry)) (name : option string) : option u_option_context :=
  g ← u_option_group_add_entries (u_option_group_new name None None) options;
  let g := Group (g_name g) (g_descr g) (g_help_descr g) (g_entries g) true in
  Some (Context_ (usage ctx) (g :: groups ctx) (mode ctx) (prog_name ctx)).

Definition set_mode (ctx : u_option_context) (flag on : Z) : u_option_context :=
  Context_ (usage ctx) (groups ctx)
    (if on =? 1 then Z.lor (mode ctx) flag else Z.ldiff (mode ctx) flag) (prog_name ctx).

Definition u_option_context_set_ignore_unknown_options (ctx : u_option_context) (ignore : Z) :=
  set_mode ctx U_OPTION_CONTEXT_IGNORE_UNKNOWN ignore.

Definition u_option_context_set_help_enabled (ctx : u_option_context) (help_enabled : Z) :=
  set_mode ctx U_OPTION_CONTEXT_HELP_ENABLED help_enabled.

(** All entries, in the order of the searches; an entry is known by its place. *)
Definition all_entries (ctx : u_option_context) : list u_option_entry :=
  mjoin (g_entries <$> groups ctx).

Definition context_get_number_entries (ctx : u_option_context) : nat := length (all_entries ctx).

(** ** Looking for an option *)

Inductive found := FOUND_HELP | NotFound | Found (e : nat).

Definition help_enabled (ctx : u_option_context) : bool :=
  negb (Z.land (mode ctx) U_OPTION_CONTEXT_HELP_ENABLED =? 0).

(** [!strncmp(option, name, nlen)], and the name ends there or before an equals
    sign. *)
Definition long_matches (option : string) (e : u_option_entry) : bool :=
  str_prefix (name e) option &&
  match str_drop (String.length (name e)) option with
  | Some (String c _) => code c =? 61
  | _ => true
  end.

Fixpoint find_entry (p : u_option_entry → bool) (l : list u_option_entry) : option nat :=
  match l with
  | [] => None
  | e :: l' => if p e then Some O else S <$> find_entry p l'
  end.

Definition found_of (r : option nat) : found :=
  match r with Some e => Found e | None => NotFound end.

Definition find_long_opt (ctx : u_option_context) (option : string) : found :=
  if str_prefix "help" option && help_enabled ctx then FOUND_HELP
  else found_of (find_entry (long_matches option) (all_entries ctx)).

Definition find_short_opt (ctx : u_option_context) (option : Z) : found :=
  if (option =? 63) && help_enabled ctx then FOUND_HELP
  else found_of (find_entry (λ e, option =? short_name e) (all_entries ctx)).

(** ** Values *)

Record tmp_buf := TmpBuf { lint : Z; ptr : option string; pptr : list string }.

(** The array of the options that were given: the entry and its value. *)
Definition tmp_data : Type := list (nat * tmp_buf).

Inductive u_error := EUnknownOption (s : string) | EMissingArgument | EBadInteger | EOutOfRange | EUnknownType.

Fixpoint str_all_digits (s : string) : bool :=
  match s with
  | EmptyString => true
  | String a s' => isdigit a && str_all_digits s'
  end.

Definition isstrdigit (str : option string) : bool :=
  match str with
  | None | Some EmptyString => false
  | Some s => str_all_digits s
  end.

Fixpoint tmp_lookup (data : tmp_data) (e : nat) : tmp_buf :=
  match data with
  | [] => TmpBuf 0 None []
  | (e', b) :: data' => if (e' =? e)%nat then b else tmp_lookup data' e
  end.

(** The element of the entry is replaced; a new one goes to the end. *)
Fixpoint tmp_store (data : tmp_data) (e : nat) (b : tmp_buf) : tmp_data :=
  match data with
  | [] => [(e, b)]
  | (e', b') :: data' => if (e' =? e)%nat then (e, b) :: data' else (e', b') :: tmp_store data' e b
  end.

Definition LONG_MAX : Z := 2 ^ 63 - 1.
Definition LONG_MIN : Z := - 2 ^ 63.

(** The new array, or the error; [kind] is the type of the entry's argument. *)
Definition fill_tmp_data (data : tmp_data) (argptr : option string) (e : nat) (kind : Z)
  : option (u_error + tmp_data) :=
  let b := tmp_lookup data e in
  if kind =? U_OPTION_ARG_INT then
    if negb (isstrdigit argptr) then Some (inl EBadInteger)
    else
      s ← argptr;
      let val := (strtol s).1 in
      if (val =? LONG_MIN) || (val =? LONG_MAX) then Some (inl EOutOfRange)
      else Some (inr (tmp_store data e (TmpBuf val (ptr b) (pptr b))))
  else if kind =? U_OPTION_ARG_STRING then
    s ← argptr; Some (inr (tmp_store data e (TmpBuf (lint b) (Some s) (pptr b))))
  else if kind =? U_OPTION_ARG_STRING_ARRAY then
    s ← argptr; Some (inr (tmp_store data e (TmpBuf (lint b) (ptr b) (pptr b ++ [s]))))
  else if kind =? U_OPTION_ARG_NONE then
    Some (inr (tmp_store data e (TmpBuf 1 (ptr b) (pptr b))))
  else Some (inl EUnknownType).

(** What is assigned to the variables of the entries: a [long], a string, an
    array, or a [char]. *)
Inductive assigned := AInt (n : Z) | AString (s : option string) | AArray (l : list string) | AFlag (n : Z).

Definition get_tmp_data (entries : list u_option_entry) (data : tmp_data) : list (nat * assigned) :=
  omap (λ '(e, b),
    en ← entries !! e;
    if arg en =? U_OPTION_ARG_INT then Some (e, AInt (lint b))
    else if arg en =? U_OPTION_ARG_STRING then Some (e, AString (ptr b))
    else if arg en =? U_OPTION_ARG_STRING_ARRAY then Some (e, AArray (pptr b))
    else if arg en =? U_OPTION_ARG_NONE then Some (e, AFlag (lint b))
    else None) data.

(** ** The parser *)

(** The character at an offset, NUL at the end, nothing beyond. *)
Definition buf_at (b : string) (off : nat) : option Z :=
  match str_drop off b with
  | Some (String a _) => Some (code a)
  | Some EmptyString => Some 0
  | None => None
  end.

(** Assignment to a character; at the end only NUL is in place. *)
Fixpoint buf_put (b : string) (off : nat) (c : Z) : option string :=
  match b, off with
  | EmptyString, O => if c =? 0 then Some EmptyString else None
  | EmptyString, S _ => None
  | String _ b', O => Some (String (chr c) b')
  | String a b', S off' => r ← buf_put b' off' c; Some (String a r)
  end.

(** The string at an offset of a buffer. *)
Definition buf_str (b : string) (off : nat) : option string := c_str <$> str_drop off b.

(** [argptr]: NULL, an argument, or a place inside the argument [i]. *)
Inductive arg_ptr := ANull | AArg (j : nat) | AInside (i off : nat).

Record pstate := PState {
  p_i : nat; p_arg_ind : Z; p_argptr : arg_ptr; p_optptr : nat; p_next_shopt : Z;
  p_largv : list string; p_tmp_argv : list string; p_data : tmp_data }.

Inductive presult := PNext (s : pstate) | PHelp (s : pstate) | PError (e : u_error) (s : pstate).

Definition arg_value (largv : list string) (p : arg_ptr) : option (option string) :=
  match p with
  | ANull => Some None
  | AArg j => b ← largv !! j; Some (Some (c_str b))
  | AInside i off => b ← largv !! i; s ← buf_str b off; Some (Some s)
  end.

(** The label [cont]: the index of the next argument, unless more short options
    follow in this one. *)
Definition p_cont (s : pstate) : pstate :=
  if p_next_shopt s =? 0 then
    let same :=
      match p_argptr s with
      | ANull => true
      | AArg j => Z.of_nat j =? Z.of_nat (p_i s) + p_arg_ind s
      | AInside _ _ => false
      end in
    let i := if same then Z.to_nat (Z.of_nat (p_i s) + p_arg_ind s + 1) else S (p_i s) in
    PState i 0 (p_argptr s) (p_optptr s) (p_next_shopt s) (p_largv s) (p_tmp_argv s) (p_data s)
  else s.

(** The search for a long option, and where its argument is. *)
Definition parse_long (ctx : u_option_context) (argc : nat) (s : pstate) : option (found * pstate) :=
  b ← p_largv s !! p_i s;
  option ← buf_str b (p_optptr s + 1);
  match find_long_opt ctx option with
  | Found e =>
      en ← all_entries ctx !! e;
      let nlen := String.length (name en) in
      if negb (String.length option =? nlen)%nat then
        b ← buf_put b (p_optptr s + 1 + nlen) 0;
        Some (Found e, PState (p_i s) (p_arg_ind s) (AInside (p_i s) (p_optptr s + nlen + 2)) (p_optptr s)
          (p_next_shopt s) (<[p_i s := b]> (p_largv s)) (p_tmp_argv s) (p_data s))
      else if (p_i s + 1 <? argc)%nat then
        Some (Found e, PState (p_i s) (p_arg_ind s + 1) (AArg (p_i s + 1)) (p_optptr s)
          (p_next_shopt s) (p_largv s) (p_tmp_argv s) (p_data s))
      else Some (Found e, s)
  | f => Some (f, s)
  end.

(** The search for a short option; the character behind it is kept and replaced
    by the end of the string. *)
Definition parse_short (ctx : u_option_context) (argc : nat) (s : pstate) : option (found * pstate) :=
  b ← p_largv s !! p_i s;
  c ← buf_at b (p_optptr s);
  match find_short_opt ctx c with
  | Found e =>
      let more := p_arg_ind s + Z.of_nat (p_i s) + 1 <? Z.of_nat argc in
      let arg_ind := if more then p_arg_ind s + 1 else p_arg_ind s in
      let argptr := if more then AArg (Z.to_nat (arg_ind + Z.of_nat (p_i s))) else p_argptr s in
      next ← buf_at b (p_optptr s + 1);
      b ← buf_put b (p_optptr s + 1) 0;
      Some (Found e, PState (p_i s) arg_ind argptr (p_optptr s) next
        (<[p_i s := b]> (p_largv s)) (p_tmp_argv s) (p_data s))
  | f => Some (f, s)
  end.

Definition set_data (s : pstate) (d : tmp_data) : pstate :=
  PState (p_i s) (p_arg_ind s) (p_argptr s) (p_optptr s) (p_next_shopt s) (p_largv s) (p_tmp_argv s) d.

(** What follows the search. *)
Definition parse_found (en : u_option_entry) (e : nat) (s : pstate) : option presult :=
  if arg en =? U_OPTION_ARG_NONE then
    let s :=
      match p_argptr s with
      | ANull => s
      | _ => PState (p_i s) (p_arg_ind s - 1) ANull (p_optptr s) (p_next_shopt s) (p_largv s)
               (p_tmp_argv s) (p_data s)
      end in
    if arg_data en then
      r ← fill_tmp_data (p_data s) None e (arg en);
      Some (match r with inl er => PError er s | inr d => PNext (p_cont (set_data s d)) end)
    else Some (PNext (p_cont s))
  else
    match p_argptr s with
    | ANull => Some (PError EMissingArgument s)
    | _ =>
        if negb (arg_data en) then Some (PNext (p_cont s))
        else
          v ← arg_value (p_largv s) (p_argptr s);
          r ← fill_tmp_data (p_data s) v e (arg en);
          Some (match r with inl er => PError er s | inr d => PNext (p_cont (set_data s d)) end)
    end.

(** One round of the loop over the arguments. *)
Definition parse_step (ctx : u_option_context) (argv : list string) (s : pstate) : option presult :=
  let argc := length argv in
  b ← p_largv s !! p_i s;
  c ← buf_at b 0;
  if negb (c =? 45) then
    Some (PNext (p_cont (PState (p_i s) (p_arg_ind s) (p_argptr s) (p_optptr s) (p_next_shopt s)
      (p_largv s) (p_tmp_argv s ++ [c_str b]) (p_data s))))
  else
    s ← (if negb (p_next_shopt s =? 0) then
           b ← buf_put b (p_optptr s + 1) (p_next_shopt s);
           Some (PState (p_i s) (p_arg_ind s) ANull (p_optptr s + 1) 0 (<[p_i s := b]> (p_largv s))
             (p_tmp_argv s) (p_data s))
         else Some (PState (p_i s) (p_arg_ind s) ANull 1 0 (p_largv s) (p_tmp_argv s) (p_data s)));
    b ← p_largv s !! p_i s;
    c ← buf_at b (p_optptr s);
    '(f, s) ← (if (c =? 45) && (p_optptr s =? 1)%nat then parse_long ctx argc s else parse_short ctx argc s);
    match f with
    | FOUND_HELP => Some (PHelp s)
    | NotFound => a ← argv !! p_i s; Some (PError (EUnknownOption a) s)
    | Found e => en ← all_entries ctx !! e; parse_found en e s
    end.

(** The loop; it stops at the end, at a request for help and at an error. *)
Fixpoint parse_loop (fuel : nat) (ctx : u_option_context) (argv : list string) (s : pstate)
  : option presult :=
  if (p_i s <? length argv)%nat then
    match fuel with
    | O => None
    | S fuel =>
        r ← parse_step ctx argv s;
        match r with
        | PNext s => parse_loop fuel ctx argv s
        | r => Some r
        end
    end
  else Some (PNext s).

(** The file name of a path. *)
Definition prog_of (path : string) : string :=
  match strrchr path (chr 47) with
  | Some (String _ r) => r
  | _ => path
  end.

(** The arguments that are no options are moved to the front: for each argument
    the first of [tmp] with the same text tells the place. *)
Fixpoint index_of (s : string) (l : list string) : option nat :=
  match l with
  | [] => None
  | t :: l' => if str_eqb s t then Some O else S <$> index_of s l'
  end.

Fixpoint move_loop (n i : nat) (tmp argv : list string) : list string :=
  match n with
  | O => argv
  | S n =>
      let argv :=
        match argv !! i ≫= λ a, index_of a tmp with
        | Some j => <[S j := default "" (argv !! i)]> argv
        | None => argv
        end in
      move_loop n (S i) tmp argv
  end.

(** The result: the return value, the error, the assignments and the arguments
    that are left. *)
Record parsed := Parsed {
  pr_retval : Z; pr_error : option u_error; pr_assigned : list (nat * assigned); pr_argv : list string }.

Definition parse_fuel (argv : list string) : nat :=
  foldr (λ a n, 2 + String.length a + n)%nat 1%nat argv.

(** [argc] arguments, the first of which is the path of the program. *)
Definition u_option_context_parse (ctx : u_option_context) (argv : list string) : option parsed :=
  let start := PState 1 0 ANull 0 0 argv [] [] in
  r ← parse_loop (parse_fuel argv) ctx argv start;
  let finish help s :=
    Parsed (if help : bool then 2 else 1) None (get_tmp_data (all_entries ctx) (p_data s))
      (take (S (length (p_tmp_argv s)))
         (move_loop (length argv - 1) 1 (p_tmp_argv s) argv)) in
  Some (match r with
        | PError e s => Parsed 0 (Some e) [] (take (S (length (p_tmp_argv s))) argv)
        | PHelp s => finish true s
        | PNext s => finish false s
        end).

(** ** Command lines and what they mean *)

Lemma scan_digits_nonneg s acc : 0 ≤ acc → 0 ≤ (scan_digits acc s).1.
Proof.
  revert acc. induction s as [|a s IH]; intros acc Hacc; simpl; [done|].
  destruct (isdigit a) eqn:E; [|done]. apply IH. unfold isdigit in E. lia.
Qed.

Inductive cl_item :=
| CPlain (s : string)                 (** an argument that is no option *)
| CLong (e : nat)                     (** --flag *)
| CShorts (es : list nat)             (** -abc, flags *)
| CLongVal (e : nat) (v : string)     (** --name value *)
| CLongEq (e : nat) (v : string)      (** --name=value *)
| CShortVal (e : nat) (v : string).   (** -n value *)

Section CommandLine.
Context (ctx : u_option_context) (argv : list string).

Definition name_of (e : nat) : string := default "" (name <$> all_entries ctx !! e).
Definition short_of (e : nat) : Z := default 0 (short_name <$> all_entries ctx !! e).
Definition kind_of (e : nat) : Z := default (-1) (arg <$> all_entries ctx !! e).

Definition shorts (es : list nat) : string :=
  foldr (λ e s, String (chr (short_of e)) s) "" es.

Definition words (c : cl_item) : list string :=
  match c with
  | CPlain s => [s]
  | CLong e => ["--" +:+ name_of e]
  | CShorts es => ["-" +:+ shorts es]
  | CLongVal e v => ["--" +:+ name_of e; v]
  | CLongEq e v => ["--" +:+ name_of e +:+ "=" +:+ v]
  | CShortVal e v => ["-" +:+ shorts [e]; v]
  end.

(** The entry exists, has a variable and takes an argument or not. *)
Definition flag_ok (e : nat) : bool :=
  match all_entries ctx !! e with
  | Some en => (arg en =? U_OPTION_ARG_NONE) && arg_data en
  | None => false
  end.

Definition value_fits (e : nat) (v : string) : bool :=
  match all_entries ctx !! e with
  | Some en =>
      arg_data en && str_eqb (c_str v) v &&
      ((arg en =? U_OPTION_ARG_STRING) || (arg en =? U_OPTION_ARG_STRING_ARRAY) ||
       ((arg en =? U_OPTION_ARG_INT) && isstrdigit (Some v) && negb ((strtol v).1 =? LONG_MAX)))
  | None => false
  end.

Definition finds_long (o : string) (e : nat) : bool :=
  str_eqb (c_str o) o && match find_long_opt ctx o with Found e' => (e' =? e)%nat | _ => false end.

Definition finds_short (e : nat) : bool :=
  (0 <? short_of e) && (short_of e <? 256) &&
  match find_short_opt ctx (short_of e) with Found e' => (e' =? e)%nat | _ => false end.

Definition not_dash (s : string) : bool :=
  match s with String a _ => negb (code a =? 45) | EmptyString => true end.

Definition cl_ok (c : cl_item) : bool :=
  match c with
  | CPlain s => str_eqb (c_str s) s && not_dash s
  | CLong e => flag_ok e && finds_long (name_of e) e
  | CShorts es =>
      negb (bool_decide (es = [])) && forallb (λ e, flag_ok e && finds_short e) es && not_dash (shorts es)
  | CLongVal e v => value_fits e v && finds_long (name_of e) e
  | CLongEq e v => value_fits e v && finds_long (name_of e +:+ "=" +:+ v) e
  | CShortVal e v => value_fits e v && finds_short e && not_dash (shorts [e])
  end.

Definition store_value (d : tmp_data) (e : nat) (v : option string) : tmp_data :=
  match fill_tmp_data d v e (kind_of e) with Some (inr d') => d' | _ => d end.

(** The values after an item. *)
Definition cl_effect (d : tmp_data) (c : cl_item) : tmp_data :=
  match c with
  | CPlain _ => d
  | CLong e => store_value d e None
  | CShorts es => foldl (λ d e, store_value d e None) d es
  | CLongVal e v | CLongEq e v | CShortVal e v => store_value d e (Some v)
  end.

Definition plains (c : cl_item) : list string := match c with CPlain s => [s] | _ => [] end.

(** The state before an item: the rest of the arguments is untouched. *)
Definition before (s : pstate) (rest : list string) (d : tmp_data) (tmp : list string) : Prop :=
  p_arg_ind s = 0 ∧ p_next_shopt s = 0 ∧ drop (p_i s) (p_largv s) = rest ∧
  length (p_largv s) = length argv ∧ p_data s = d ∧ p_tmp_argv s = tmp.

Lemma before_head s w rest d tmp :
  before s (w :: rest) d tmp → p_largv s !! p_i s = Some w ∧ drop (S (p_i s)) (p_largv s) = rest.
Proof.
  intros (_ & _ & Hd & _ & _ & _). assert (Hw : p_largv s !! p_i s = Some w).
  { rewrite <- (Nat.add_0_r (p_i s)), <- lookup_drop, Hd. done. }
  split; [done|]. rewrite (drop_S (p_largv s) w) in Hd by done. by simplify_eq.
Qed.

Lemma flag_entry e :
  flag_ok e = true →
  ∃ en, all_entries ctx !! e = Some en ∧ arg en = U_OPTION_ARG_NONE ∧ arg_data en = true ∧
    kind_of e = U_OPTION_ARG_NONE.
Proof.
  unfold flag_ok, kind_of. destruct (all_entries ctx !! e) as [en|]; [|done].
  intros [Ha%Z.eqb_eq Hd]%andb_true_iff. exists en. simpl. by rewrite Ha.
Qed.

Lemma isstrdigit_min v : isstrdigit (Some v) = true → (strtol v).1 ≠ LONG_MIN.
Proof.
  intros Hv. unfold strtol, scan_int. destruct v as [|a v]; [done|]. simpl in Hv.
  apply andb_true_iff in Hv as [Ha Hv]. unfold isdigit in Ha. unfold LONG_MIN.
  cbn [skip_space]. destruct (isspace a) eqn:Hs; [unfold isspace in Hs; lia|].
  cbn [scan_sign]. destruct (code a =? 45) eqn:E1; [lia|]. destruct (code a =? 43) eqn:E2; [lia|].
  destruct (starts_digit _); [|done].
  destruct (scan_digits 0 (String a v)) as [x r] eqn:E.
  pose proof (scan_digits_nonneg (String a v) 0 ltac:(lia)) as Hn. rewrite E in Hn. cbn [fst] in *. lia.
Qed.

Lemma value_entry e v d :
  value_fits e v = true →
  ∃ en, all_entries ctx !! e = Some en ∧ arg en ≠ U_OPTION_ARG_NONE ∧ arg_data en = true ∧
    c_str v = v ∧ fill_tmp_data d (Some v) e (arg en) = Some (inr (store_value d e (Some v))).
Proof.
  unfold value_fits, store_value, kind_of. destruct (all_entries ctx !! e) as [en|]; [|done].
  intros [[Hd Hc%str_eqb_eq]%andb_true_iff Hk]%andb_true_iff. exists en. cbn [fmap option_fmap option_map default id].
  assert (Hf : ∃ d', fill_tmp_data d (Some v) e (arg en) = Some (inr d') ∧ arg en ≠ U_OPTION_ARG_NONE).
  { unfold fill_tmp_data. apply orb_true_iff in Hk as [[->%Z.eqb_eq| ->%Z.eqb_eq]%orb_true_iff|Hk].
    - by eexists.
    - by eexists.
    - apply andb_true_iff in Hk as [[Ha%Z.eqb_eq Hi]%andb_true_iff Hm]. rewrite Ha, Hi.
      cbn [mbind option_bind negb Z.eqb Pos.eqb U_OPTION_ARG_INT].
      apply isstrdigit_min, Z.eqb_neq in Hi. rewrite Hi. apply negb_true_iff in Hm. rewrite Hm. by eexists. }
  destruct Hf as (d' & Hf & Hn). rewrite Hf. done.
Qed.

Lemma drop_more {A} i (l : list A) w r : drop i l = w :: r → (i < length l)%nat ∧ length r = (length l - i - 1)%nat.
Proof.
  intros H. assert (length (drop i l) = S (length r)) by by rewrite H. rewrite length_drop in *. lia.
Qed.

Lemma step_plain s w rest d tmp :
  before s (w :: rest) d tmp → cl_ok (CPlain w) = true →
  ∃ s', parse_step ctx argv s = Some (PNext s') ∧ before s' rest d (tmp ++ [w]) ∧ (p_i s' = p_i s + 1)%nat.
Proof.
  intros Hb [Hc%str_eqb_eq Hd]%andb_true_iff. destruct (before_head _ _ _ _ _ Hb) as [Hw Hr].
  unfold parse_step. rewrite Hw. cbn [mbind option_bind].
  assert (∃ c, buf_at w 0 = Some c ∧ c ≠ 45) as (c & -> & Hc').
  { unfold buf_at. destruct w as [|a w]; simpl; [by exists 0|]. simpl in Hd. exists (code a). split; [done|]. lia. }
  cbn [mbind option_bind]. apply Z.eqb_neq in Hc'. rewrite Hc'. cbn [negb].
  destruct Hb as (Ha & Hn & Hdr & Hlen & Hda & Ht). eexists. split; [reflexivity|].
  unfold p_cont. cbn [p_i p_arg_ind p_argptr p_optptr p_next_shopt p_largv p_tmp_argv p_data].
  rewrite Hn, Ha, Hc, Ht, Hda. cbn [Z.eqb].
  assert (Hi : (if match p_argptr s with
    | ANull => true | AArg j => Z.of_nat j =? Z.of_nat (p_i s) + 0 | AInside _ _ => false end
    then Z.to_nat (Z.of_nat (p_i s) + 0 + 1) else S (p_i s)) = S (p_i s)).
  { destruct (match p_argptr s with | ANull => _ | _ => _ end); lia. }
  rewrite Hi. split; [|simpl; lia]. unfold before. simpl. done.
Qed.

Lemma buf_at_drop b off a r : str_drop off b = Some (String a r) → buf_at b off = Some (code a).
Proof. unfold buf_at. by intros ->. Qed.

(** The beginning of a round for an argument that begins with a dash. *)
Lemma step_option s w rest d tmp :
  before s (String (chr 45) w :: rest) d tmp →
  parse_step ctx argv s =
  (let s := PState (p_i s) 0 ANull 1 0 (p_largv s) tmp d in
   c ← buf_at w 0;
   '(f, s) ← (if c =? 45 then parse_long ctx (length argv) s else parse_short ctx (length argv) s);
   match f with
   | FOUND_HELP => Some (PHelp s)
   | NotFound => a ← argv !! p_i s; Some (PError (EUnknownOption a) s)
   | Found e => en ← all_entries ctx !! e; parse_found en e s
   end).
Proof.
  intros Hb. destruct (before_head _ _ _ _ _ Hb) as [Hw Hr].
  destruct Hb as (Ha & Hn & Hdr & Hlen & Hda & Ht). unfold parse_step. rewrite Hw. cbn [mbind option_bind].
  change (buf_at (String (chr 45) w) 0) with (Some 45). cbn [mbind option_bind negb Z.eqb Pos.eqb].
  rewrite Hn, Ha, Ht, Hda. cbn [negb Z.eqb mbind option_bind p_largv p_i p_optptr]. rewrite Hw.
  cbn [mbind option_bind]. change (buf_at (String (chr 45) w) 1) with (buf_at w 0).
  destruct (buf_at w 0) as [c|]; [|done]. cbn [mbind option_bind].
  rewrite andb_true_r. done.
Qed.

Lemma finds_long_spec o e :
  finds_long o e = true → c_str o = o ∧ find_long_opt ctx o = Found e.
Proof.
  intros [Hc%str_eqb_eq Hf]%andb_true_iff. split; [done|].
  destruct (find_long_opt ctx o) as [| |e']; try done. by apply Nat.eqb_eq in Hf as ->.
Qed.

(** What the search for a long option leaves, in the argument [--o]. *)
Lemma parse_long_spec s o rest d tmp e en :
  before s (("--" +:+ o) :: rest) d tmp → finds_long o e = true → all_entries ctx !! e = Some en →
  let s1 := PState (p_i s) 0 ANull 1 0 (p_largv s) tmp d in
  parse_step ctx argv s =
  (s2 ← (if negb (String.length o =? String.length (name en))%nat then
           b ← buf_put ("--" +:+ o) (2 + String.length (name en)) 0;
           Some (PState (p_i s) 0 (AInside (p_i s) (3 + String.length (name en))) 1 0
                   (<[p_i s := b]> (p_largv s)) tmp d)
         else if (p_i s + 1 <? length argv)%nat then
           Some (PState (p_i s) 1 (AArg (p_i s + 1)) 1 0 (p_largv s) tmp d)
         else Some s1);
   parse_found en e s2).
Proof.
  intros Hb Hf He s1. destruct (finds_long_spec o e Hf) as [Hc Hfind].
  destruct (before_head _ _ _ _ _ Hb) as [Hw _].
  rewrite (step_option s ("-" +:+ o) rest d tmp Hb). cbv zeta.
  change (buf_at ("-" +:+ o) 0) with (Some 45). cbn [mbind option_bind Z.eqb Pos.eqb].
  unfold parse_long. cbn [p_largv p_i p_optptr p_arg_ind p_next_shopt p_tmp_argv p_data].
  rewrite Hw. cbn [mbind option_bind]. change (buf_str ("--" +:+ o) (1 + 1)) with (Some (c_str o)).
  rewrite Hc. cbn [mbind option_bind]. rewrite Hfind, He. cbn [mbind option_bind].
  replace (1 + String.length (name en) + 2)%nat with (3 + String.length (name en))%nat by lia.
  change (1 + 1 + String.length (name en))%nat with (2 + String.length (name en))%nat.
  destruct (negb _).
  - destruct (buf_put _ _ _); [|done]. cbn [mbind option_bind]. by rewrite He.
  - destruct (_ <? _)%nat; cbn [mbind option_bind]; by rewrite He.
Qed.

Lemma parse_found_flag en e s d :
  all_entries ctx !! e = Some en → flag_ok e = true → p_data s = d →
  ∃ s', parse_found en e s = Some (PNext (p_cont s')) ∧
    s' = PState (p_i s) (if p_argptr s is ANull then p_arg_ind s else p_arg_ind s - 1) ANull (p_optptr s)
           (p_next_shopt s) (p_largv s) (p_tmp_argv s) (store_value d e None).
Proof.
  intros He Hf <-. destruct (flag_entry e Hf) as (en' & He' & Ha & Hd & Hk). simplify_eq.
  unfold parse_found. rewrite Ha, Hd. cbn [Z.eqb U_OPTION_ARG_NONE]. unfold store_value. rewrite Hk.
  destruct s as [i ai ap op ns lv ta da]. destruct ap; eexists; split; reflexivity.
Qed.

(** The next argument, after one or two of them. *)
Lemma cont_null i ai op lv ta da rest :
  ai = 0 → drop (S i) lv = rest → length lv = length argv →
  before (p_cont (PState i ai ANull op 0 lv ta da)) rest da ta ∧
  p_i (p_cont (PState i ai ANull op 0 lv ta da)) = (i + 1)%nat.
Proof.
  intros -> Hd Hl. unfold p_cont. simpl. unfold before. simpl.
  replace (Z.to_nat (Z.of_nat i + 0 + 1)) with (S i) by lia. split; [done|lia].
Qed.

Lemma cont_arg i j ai op lv ta da rest :
  ai = 1 → j = (i + 1)%nat → drop (i + 2) lv = rest → length lv = length argv →
  before (p_cont (PState i ai (AArg j) op 0 lv ta da)) rest da ta ∧
  p_i (p_cont (PState i ai (AArg j) op 0 lv ta da)) = (i + 2)%nat.
Proof.
  intros -> -> Hd Hl. unfold p_cont. cbn [p_next_shopt p_argptr p_i p_arg_ind Z.eqb].
  replace (Z.of_nat (i + 1) =? Z.of_nat i + 1) with true by (symmetry; apply Z.eqb_eq; lia). unfold before. simpl.
  replace (Z.to_nat (Z.of_nat i + 1 + 1)) with (i + 2)%nat by lia. done.
Qed.

Lemma step_long s e rest d tmp :
  before s (words (CLong e) ++ rest) d tmp → cl_ok (CLong e) = true →
  ∃ s', parse_step ctx argv s = Some (PNext s') ∧ before s' rest (cl_effect d (CLong e)) tmp ∧
    (p_i s' = p_i s + 1)%nat.
Proof.
  intros Hb [Hf Hl]%andb_true_iff. destruct (flag_entry e Hf) as (en & He & _).
  assert (Hn : name_of e = name en) by by unfold name_of; rewrite He.
  simpl in Hb. rewrite Hn in Hb, Hl. rewrite (parse_long_spec s (name en) rest d tmp e en) by done.
  rewrite Nat.eqb_refl. cbn [negb]. destruct (before_head _ _ _ _ _ Hb) as [Hw Hr].
  destruct Hb as (Ha & Hns & Hdr & Hlen & Hda & Ht).
  destruct (_ <? _)%nat; cbn [mbind option_bind].
  - destruct (parse_found_flag en e (PState (p_i s) 1 (AArg (p_i s + 1)) 1 0 (p_largv s) tmp d) d He Hf eq_refl)
      as (s' & -> & ->). eexists. split; [reflexivity|]. by apply cont_null.
  - destruct (parse_found_flag en e (PState (p_i s) 0 ANull 1 0 (p_largv s) tmp d) d He Hf eq_refl)
      as (s' & -> & ->). eexists. split; [reflexivity|]. by apply cont_null.
Qed.

Lemma parse_found_value en e s v d :
  value_fits e v = true → all_entries ctx !! e = Some en → p_data s = d →
  p_argptr s ≠ ANull → arg_value (p_largv s) (p_argptr s) = Some (Some v) →
  parse_found en e s = Some (PNext (p_cont (set_data s (store_value d e (Some v))))).
Proof.
  intros Hv He <- Hp Ha. destruct (value_entry e v (p_data s) Hv) as (en' & He' & Hk & Hd & Hc & Hf).
  simplify_eq. unfold parse_found. apply Z.eqb_neq in Hk. rewrite Hk, Hd, Ha. cbn [negb mbind option_bind].
  rewrite Hf. cbn [mbind option_bind]. by destruct (p_argptr s).
Qed.

Lemma before_second s w v rest d tmp :
  before s (w :: v :: rest) d tmp →
  p_largv s !! (p_i s + 1)%nat = Some v ∧ drop (p_i s + 2) (p_largv s) = rest ∧
  (p_i s + 1 < length argv)%nat.
Proof.
  intros (_ & _ & Hd & Hlen & _). split_and!.
  - by rewrite <- lookup_drop, Hd.
  - rewrite <- drop_drop, Hd. done.
  - apply (f_equal length) in Hd. rewrite length_drop in Hd. simpl in Hd. lia.
Qed.

Lemma step_long_val s e v rest d tmp :
  before s (words (CLongVal e v) ++ rest) d tmp → cl_ok (CLongVal e v) = true →
  ∃ s', parse_step ctx argv s = Some (PNext s') ∧ before s' rest (cl_effect d (CLongVal e v)) tmp ∧
    (p_i s' = p_i s + 2)%nat.
Proof.
  intros Hb [Hv Hl]%andb_true_iff. destruct (value_entry e v d Hv) as (en & He & _ & _ & Hc & _).
  assert (Hn : name_of e = name en) by by unfold name_of; rewrite He.
  simpl in Hb. rewrite Hn in Hb, Hl. rewrite (parse_long_spec s (name en) (v :: rest) d tmp e en) by done.
  rewrite Nat.eqb_refl. cbn [negb]. destruct (before_second _ _ _ _ _ _ Hb) as (Hw & Hr & Hlt).
  apply Nat.ltb_lt in Hlt. rewrite Hlt. cbn [mbind option_bind].
  rewrite (parse_found_value en e _ v d Hv He); [|done|done|simpl; rewrite Hw; simpl; by rewrite Hc].
  destruct Hb as (Ha & Hns & Hdr & Hlen & Hda & Ht). eexists. split; [reflexivity|].
  by apply cont_arg.
Qed.

Lemma buf_put_app a c b : buf_put (a +:+ String c b) (String.length a) 0 = Some (a +:+ String (chr 0) b).
Proof. induction a as [|x a IH]; simpl; [done|]. by rewrite IH. Qed.

Lemma str_drop_app a b : str_drop (String.length a) (a +:+ b) = Some b.
Proof. induction a as [|x a IH]; simpl; [|done]. by destruct b. Qed.

Lemma step_long_eq s e v rest d tmp :
  before s (words (CLongEq e v) ++ rest) d tmp → cl_ok (CLongEq e v) = true →
  ∃ s', parse_step ctx argv s = Some (PNext s') ∧ before s' rest (cl_effect d (CLongEq e v)) tmp ∧
    (p_i s' = p_i s + 1)%nat.
Proof.
  intros Hb [Hv Hl]%andb_true_iff. destruct (value_entry e v d Hv) as (en & He & _ & _ & Hc & _).
  assert (Hn : name_of e = name en) by by unfold name_of; rewrite He.
  simpl in Hb. rewrite Hn in Hb, Hl.
  rewrite (parse_long_spec s (name en +:+ "=" +:+ v) rest d tmp e en) by done.
  rewrite !str_length_app. replace (_ =? _)%nat with false by (simpl; symmetry; apply Nat.eqb_neq; lia).
  cbn [negb].
  change ("--" +:+ name en +:+ "=" +:+ v) with (("--" +:+ name en) +:+ String (chr 61) v).
  change (2 + String.length (name en))%nat with (String.length ("--" +:+ name en)).
  rewrite buf_put_app. cbn [mbind option_bind]. destruct (before_head _ _ _ _ _ Hb) as [Hw Hr].
  assert (Hlt : (p_i s < length (p_largv s))%nat) by by eapply lookup_lt_Some.
  set (b := ("--" +:+ name en) +:+ String (chr 0) v).
  rewrite (parse_found_value en e _ v d Hv He); [|done|done|].
  - destruct Hb as (Ha & Hns & Hdr & Hlen & Hda & Ht). eexists. split; [reflexivity|].
    unfold p_cont, before. simpl. split_and!; try done; [|by rewrite length_insert|lia].
    by rewrite drop_insert_lt by lia.
  - cbn [arg_value p_largv p_argptr]. rewrite list_lookup_insert_eq by done. cbn [mbind option_bind].
    assert (Hs : str_drop (3 + String.length (name en)) b = Some v).
    { unfold b. replace (3 + String.length (name en))%nat
        with (String.length ("--" +:+ name en +:+ str1 (chr 0))) by (rewrite !str_length_app; simpl; lia).
      replace (("--" +:+ name en) +:+ String (chr 0) v) with (("--" +:+ name en +:+ str1 (chr 0)) +:+ v)
        by by rewrite !str_app_assoc. apply str_drop_app. }
    unfold buf_str. rewrite Hs. simpl. by rewrite Hc.
Qed.

Lemma finds_short_spec e :
  finds_short e = true →
  0 < short_of e < 256 ∧ find_short_opt ctx (short_of e) = Found e.
Proof.
  intros [[H1%Z.ltb_lt H2%Z.ltb_lt]%andb_true_iff Hf]%andb_true_iff. split; [done|].
  destruct (find_short_opt _ _) as [| |e']; try done. by apply Nat.eqb_eq in Hf as ->.
Qed.

Lemma code_chr z : 0 ≤ z < 256 → code (chr z) = z.
Proof. intros Hz. unfold code, chr. rewrite N_ascii_embedding by lia. lia. Qed.

Lemma buf_at_app a c b : buf_at (a +:+ String c b) (String.length a) = Some (code c).
Proof. apply (buf_at_drop _ _ c b), str_drop_app. Qed.

Lemma buf_put_back a x c b :
  buf_put (a +:+ String x b) (String.length a) c = Some (a +:+ String (chr c) b).
Proof. induction a as [|y a IH]; simpl; [done|]. by rewrite IH. Qed.

(** The buffer with the end of the string put behind a prefix. *)
Definition cut (p q : string) : string :=
  p +:+ match q with String _ q' => String (chr 0) q' | EmptyString => EmptyString end.

Definition first_code (q : string) : Z := match q with String a _ => code a | EmptyString => 0 end.

Lemma cut_spec p q :
  buf_put (p +:+ q) (String.length p) 0 = Some (cut p q) ∧ buf_at (p +:+ q) (String.length p) = Some (first_code q).
Proof.
  destruct q as [|c q]; unfold cut.
  - rewrite str_app_nil. split; induction p as [|y p IH]; simpl; try done. by rewrite IH.
  - split; [apply buf_put_app|apply buf_at_app].
Qed.

(** The argument at the beginning of a round: as it was given, or with the
    option of this round still cut off. *)
Definition round_start (s : pstate) (p' : string) (e : nat) (q : string) : Prop :=
  p_arg_ind s = 0 ∧ length (p_largv s) = length argv ∧
  ((p_next_shopt s = 0 ∧ p' = "" ∧ p_largv s !! p_i s = Some ("-" +:+ p' +:+ String (chr (short_of e)) q)) ∨
   (p_next_shopt s = short_of e ∧ p_optptr s = String.length p' ∧
    p_largv s !! p_i s = Some ("-" +:+ p' +:+ String (chr 0) q))).

Definition option_result (e : nat) (s : pstate) : option presult :=
  en ← all_entries ctx !! e; parse_found en e s.

Lemma step_short s p' e q :
  finds_short e = true → (p' = "" → short_of e ≠ 45) → round_start s p' e q →
  let p := "-" +:+ p' +:+ str1 (chr (short_of e)) in
  let more := (p_i s + 1 <? length argv)%nat in
  parse_step ctx argv s =
  option_result e (PState (p_i s) (if more then 1 else 0) (if more then AArg (p_i s + 1) else ANull)
    (S (String.length p')) (first_code q) (<[p_i s := cut p q]> (p_largv s)) (p_tmp_argv s) (p_data s)).
Proof.
  intros Hf Hd (Ha & Hlen & Hst) p more. destruct (finds_short_spec e Hf) as [Hr Hfind].
  assert (Hc : code (chr (short_of e)) = short_of e) by (apply code_chr; lia).
  set (F := "-" +:+ p' +:+ String (chr (short_of e)) q).
  assert (HF : F = p +:+ q) by by unfold F, p; rewrite !str_app_assoc.
  assert (Hk : String.length ("-" +:+ p') = S (String.length p')) by done.
  assert (Hat : buf_at F (S (String.length p')) = Some (short_of e)).
  { rewrite <- Hk. unfold F. change ("-" +:+ p' +:+ ?x) with (("-" +:+ p') +:+ x). by rewrite buf_at_app, Hc. }
  assert (Hp : String.length p = (S (String.length p') + 1)%nat).
  { unfold p. rewrite !str_length_app. simpl. lia. }
  destruct (cut_spec p q) as [Hput Hnext]. rewrite <- HF, Hp in Hput, Hnext.
  assert (∃ lv, parse_step ctx argv s =
    (let s1 := PState (p_i s) 0 ANull (S (String.length p')) 0 lv (p_tmp_argv s) (p_data s) in
     '(f, s) ← parse_short ctx (length argv) s1;
     match f with
     | FOUND_HELP => Some (PHelp s)
     | NotFound => a ← argv !! p_i s; Some (PError (EUnknownOption a) s)
     | Found e => en ← all_entries ctx !! e; parse_found en e s
     end) ∧ lv !! p_i s = Some F ∧ ∀ x, <[p_i s := x]> lv = <[p_i s := x]> (p_largv s))
    as (lv & Hstep & Hlv & Hins).
  { unfold parse_step. destruct Hst as [(Hn & -> & Hb)|(Hn & Ho & Hb)]; rewrite Hb; cbn [mbind option_bind].
    - exists (p_largv s). split_and!; [|done|done].
      change (buf_at ("-" +:+ "" +:+ ?x) 0) with (Some 45). cbn [mbind option_bind Z.eqb Pos.eqb negb].
      rewrite Hn, Ha. cbn [Z.eqb negb mbind option_bind p_largv p_i p_optptr]. rewrite Hb.
      cbn [mbind option_bind]. fold F. cbn [String.length] in Hat |- *. rewrite Hat.
      cbn [mbind option_bind]. specialize (Hd eq_refl). apply Z.eqb_neq in Hd. by rewrite Hd.
    - exists (<[p_i s := F]> (p_largv s)). split_and!;
        [|by apply list_lookup_insert_eq; eapply lookup_lt_Some|intros x; by rewrite list_insert_insert_eq].
      change (buf_at ("-" +:+ ?x) 0) with (Some 45). cbn [mbind option_bind Z.eqb Pos.eqb negb].
      replace (p_next_shopt s =? 0) with false by lia. cbn [negb]. rewrite Ho, Hn.
      replace (String.length p' + 1)%nat with (String.length ("-" +:+ p')) by (rewrite Hk; lia).
      change ("-" +:+ p' +:+ String (chr 0) q) with (("-" +:+ p') +:+ String (chr 0) q).
      rewrite buf_put_back. cbn [mbind option_bind p_largv p_i p_optptr].
      rewrite list_lookup_insert_eq by by eapply lookup_lt_Some. cbn [mbind option_bind].
      change (("-" +:+ p') +:+ String (chr (short_of e)) q) with F. rewrite Hk, Hat, Ha.
      cbn [mbind option_bind]. destruct (String.length p') as [|k] eqn:Hk'.
      + destruct p'; [|done]. specialize (Hd eq_refl). apply Z.eqb_neq in Hd. by rewrite Hd.
      + by rewrite andb_false_r. }
  rewrite Hstep. cbv zeta. unfold parse_short. cbn [p_largv p_i p_optptr p_arg_ind p_argptr p_tmp_argv p_data].
  rewrite Hlv. cbn [mbind option_bind]. rewrite Hat. cbn [mbind option_bind]. rewrite Hfind, Hnext.
  cbn [mbind option_bind]. rewrite Hput. cbn [mbind option_bind]. rewrite Hins.
  replace (0 + Z.of_nat (p_i s) + 1 <? Z.of_nat (length argv)) with more by (apply eq_true_iff_eq; unfold more; rewrite Nat.ltb_lt, Z.ltb_lt; lia).
  unfold option_result. destruct more; [|done]. by replace (Z.to_nat (0 + 1 + Z.of_nat (p_i s))) with (p_i s + 1)%nat by lia.
Qed.

Lemma parse_loop_step fuel s s' :
  (p_i s < length argv)%nat → parse_step ctx argv s = Some (PNext s') →
  parse_loop (S fuel) ctx argv s = parse_loop fuel ctx argv s'.
Proof.
  intros Hi Hs. cbn [parse_loop]. apply Nat.ltb_lt in Hi. rewrite Hi, Hs. done.
Qed.

(** A run of [n] rounds from one state to another. *)
Definition rounds (n : nat) (s s' : pstate) : Prop :=
  ∀ fuel, parse_loop (n + fuel) ctx argv s = parse_loop fuel ctx argv s'.

Lemma rounds_one s s' :
  (p_i s < length argv)%nat → parse_step ctx argv s = Some (PNext s') → rounds 1 s s'.
Proof. intros Hi Hs fuel. by apply parse_loop_step. Qed.

Lemma rounds_trans n m s s' s'' : rounds n s s' → rounds m s' s'' → rounds (n + m) s s''.
Proof. intros H1 H2 fuel. rewrite <- Nat.add_assoc, H1. apply H2. Qed.

Lemma shorts_first es e : finds_short e = true → first_code (shorts (e :: es)) = short_of e.
Proof. intros Hf. destruct (finds_short_spec e Hf) as [? _]. simpl. apply code_chr. lia. Qed.

Lemma rounds_shorts es : ∀ e p' s rest d,
  forallb (λ e, flag_ok e && finds_short e) (e :: es) = true →
  (p' = "" → short_of e ≠ 45) → round_start s p' e (shorts es) →
  drop (S (p_i s)) (p_largv s) = rest → p_data s = d → (p_i s < length argv)%nat →
  ∃ s', rounds (S (length es)) s s' ∧
    before s' rest (foldl (λ d e, store_value d e None) d (e :: es)) (p_tmp_argv s) ∧ (p_i s' = p_i s + 1)%nat.
Proof.
  induction es as [|e2 es IH]; intros e p' s rest d Hall Hd Hst Hr Hda Hi;
    cbn [forallb] in Hall; apply andb_true_iff in Hall as [[Hfl Hfs]%andb_true_iff Hall];
    destruct (flag_entry e Hfl) as (en & He & _);
    pose proof (step_short s p' e _ Hfs Hd Hst) as Hstep; cbv zeta in Hstep; unfold option_result in Hstep;
    rewrite He in Hstep; cbn [mbind option_bind] in Hstep;
    match type of Hstep with _ = parse_found _ _ ?s2 =>
      destruct (parse_found_flag en e s2 d He Hfl Hda) as (s3 & Hfound & Hs3) end;
    rewrite Hfound in Hstep; cbn [p_i p_argptr p_arg_ind p_optptr p_next_shopt p_largv p_tmp_argv] in Hs3;
    assert (Hai : (if (if (p_i s + 1 <? length argv)%nat then AArg (p_i s + 1) else ANull) is ANull
      then if (p_i s + 1 <? length argv)%nat then 1 else 0
      else (if (p_i s + 1 <? length argv)%nat then 1 else 0) - 1) = 0)
      by (destruct (p_i s + 1 <? length argv)%nat; done);
    rewrite Hai in Hs3; subst s3.
  - eexists. split; [by apply rounds_one|]. apply cont_null; [done| |].
    + by rewrite drop_insert_lt by lia.
    + rewrite length_insert. apply Hst.
  - cbn [forallb] in Hall. pose proof Hall as Hall2. apply andb_true_iff in Hall as [[_ Hfs2]%andb_true_iff _].
    rewrite shorts_first in Hstep by done. destruct (finds_short_spec e2 Hfs2) as [Hr2 _].
    unfold p_cont in Hstep. cbn [p_next_shopt] in Hstep.
    replace (short_of e2 =? 0) with false in Hstep by lia.
    match type of Hstep with _ = Some (PNext ?s3) =>
      destruct (IH e2 (p' +:+ str1 (chr (short_of e))) s3 rest (store_value d e None)) as (s' & Hr' & Hb & Hi');
      try done end.
    + by destruct p'.
    + destruct Hst as (_ & Hlen & _). unfold round_start.
      cbn [p_i p_arg_ind p_argptr p_optptr p_next_shopt p_largv]. rewrite length_insert.
      split_and!; try done. right. split_and!; try done.
      * rewrite str_length_app. simpl. lia.
      * rewrite list_lookup_insert_eq by lia. unfold cut. cbn [shorts foldr]. by rewrite !str_app_assoc.
    + cbn [p_i p_largv]. by rewrite drop_insert_lt by lia.
    + exists s'. split; [|done]. change (S (length (e2 :: es))) with (1 + S (length es))%nat.
      eapply rounds_trans; [|done]. by apply rounds_one.
Qed.

Lemma before_lt s w rest d tmp : before s (w :: rest) d tmp → (p_i s < length argv)%nat.
Proof.
  intros Hb. destruct (before_head _ _ _ _ _ Hb) as [Hw _]. destruct Hb as (_ & _ & _ & <- & _).
  by eapply lookup_lt_Some.
Qed.

Lemma step_short_val s e v rest d tmp :
  before s (words (CShortVal e v) ++ rest) d tmp → cl_ok (CShortVal e v) = true →
  ∃ s', parse_step ctx argv s = Some (PNext s') ∧ before s' rest (cl_effect d (CShortVal e v)) tmp ∧
    (p_i s' = p_i s + 2)%nat.
Proof.
  intros Hb [[Hv Hf]%andb_true_iff Hd]%andb_true_iff.
  destruct (value_entry e v d Hv) as (en & He & _ & _ & Hc & _). simpl in Hb, Hd.
  destruct (finds_short_spec e Hf) as [Hrange _]. rewrite code_chr in Hd by lia.
  destruct (before_second _ _ _ _ _ _ Hb) as (Hw & Hr & Hlt). destruct (before_head _ _ _ _ _ Hb) as [Hw0 _].
  destruct Hb as (Ha & Hns & Hdr & Hlen & Hda & Ht).
  rewrite (step_short s "" e "" Hf); [|intros _; lia|by split_and!; try done; left].
  apply Nat.ltb_lt in Hlt. rewrite Hlt. unfold option_result. rewrite He. cbn [mbind option_bind first_code].
  rewrite (parse_found_value en e _ v d Hv He); [|done|done|].
  - eexists. split; [reflexivity|]. rewrite <- Ht. apply cont_arg; try done.
    + cbn [p_largv]. by rewrite drop_insert_lt by lia.
    + cbn [p_largv]. by rewrite length_insert.
  - cbn [arg_value p_argptr p_largv]. rewrite list_lookup_insert_ne by lia. rewrite Hw. simpl. by rewrite Hc.
Qed.

(** An item is read in as many rounds as it has characters at most. *)
Lemma rounds_item s c rest d tmp :
  before s (words c ++ rest) d tmp → cl_ok c = true →
  ∃ n s', rounds n s s' ∧ before s' rest (cl_effect d c) (tmp ++ plains c) ∧
    (p_i s' = p_i s + length (words c))%nat ∧ (n ≤ foldr (λ a n, 2 + String.length a + n) 0 (words c))%nat.
Proof.
  intros Hb Hok. assert (Hi : (p_i s < length argv)%nat).
  { destruct c; simpl in Hb; by eapply before_lt. }
  destruct c as [w|e|es|e v|e v|e v]; cbn [plains]; rewrite ?app_nil_r.
  - destruct (step_plain s w rest d tmp Hb Hok) as (s' & H1 & H2 & H3). exists 1%nat, s'.
    split_and!; try done; [by apply rounds_one|simpl; lia].
  - destruct (step_long s e rest d tmp Hb Hok) as (s' & H1 & H2 & H3). exists 1%nat, s'.
    split_and!; try done; [by apply rounds_one|simpl; lia].
  - unfold cl_ok in Hok. apply andb_true_iff in Hok as [[Hne Hall]%andb_true_iff Hd].
    destruct es as [|e es]; [done|]. destruct (before_head _ _ _ _ _ Hb) as [Hw Hr].
    destruct (rounds_shorts es e "" s rest d) as (s' & H1 & H2 & H3); try done.
    + intros _. simpl in Hd, Hall. apply andb_true_iff in Hall as [[_ Hfs]%andb_true_iff _].
      destruct (finds_short_spec e Hfs) as [? _]. rewrite code_chr in Hd by lia. lia.
    + destruct Hb as (Ha & Hns & _ & Hlen & _). split_and!; try done. by left.
    + by destruct Hb as (_ & _ & _ & _ & ? & _).
    + exists (S (length es)), s'. replace (p_tmp_argv s) with tmp in H2
        by by destruct Hb as (_ & _ & _ & _ & _ & ?). split_and!; try done.
      cbn [words foldr]. rewrite str_length_app. cbn [shorts foldr String.length].
      assert (Hl : ∀ l, String.length (foldr (λ e s, String (chr (short_of e)) s) "" l) = length l)
        by (induction l; simpl; auto). rewrite Hl. lia.
  - destruct (step_long_val s e v rest d tmp Hb Hok) as (s' & H1 & H2 & H3). exists 1%nat, s'.
    split_and!; try done; [by apply rounds_one|simpl; lia].
  - destruct (step_long_eq s e v rest d tmp Hb Hok) as (s' & H1 & H2 & H3). exists 1%nat, s'.
    split_and!; try done; [by apply rounds_one|simpl; lia].
  - destruct (step_short_val s e v rest d tmp Hb Hok) as (s' & H1 & H2 & H3). exists 1%nat, s'.
    split_and!; try done; [by apply rounds_one|simpl; lia].
Qed.

Definition cost (ws : list string) : nat := foldr (λ a n, 2 + String.length a + n)%nat 0%nat ws.

Lemma cost_app l l' : cost (l ++ l') = (cost l + cost l')%nat.
Proof. unfold cost. induction l as [|a l IH]; [done|]. cbn [app foldr]. rewrite IH. lia. Qed.

Lemma rounds_items cs : ∀ s rest d tmp,
  before s (mjoin (words <$> cs) ++ rest) d tmp → forallb cl_ok cs = true →
  ∃ n s', rounds n s s' ∧ before s' rest (foldl cl_effect d cs) (tmp ++ mjoin (plains <$> cs)) ∧
    (n ≤ cost (mjoin (words <$> cs)))%nat ∧ (p_i s' = p_i s + length (mjoin (words <$> cs)))%nat.
Proof.
  induction cs as [|c cs IH]; intros s rest d tmp Hb Hok.
  - exists 0%nat, s. change (mjoin (words <$> [])) with (@nil string) in *.
    change (mjoin (plains <$> [])) with (@nil string). rewrite app_nil_r. simpl in *. split_and!; try done; lia.
  - cbn [forallb] in Hok. apply andb_true_iff in Hok as [Hc Hok]. simpl in Hb. rewrite <- app_assoc in Hb.
    destruct (rounds_item s c _ d tmp Hb Hc) as (n & s1 & H1 & Hb1 & Hi1 & Hn).
    destruct (IH s1 rest _ _ Hb1 Hok) as (m & s' & H2 & Hb2 & Hm & Hi2).
    exists (n + m)%nat, s'. cbn [fmap list_fmap mjoin list_join foldl].
    rewrite app_assoc, cost_app, length_app. split_and!; [by eapply rounds_trans|done|by apply Nat.add_le_mono|rewrite Hi2, Hi1; apply eq_sym, Nat.add_assoc].
Qed.

(** *** The values *)

Definition occurrences (c : cl_item) : list (nat * option string) :=
  match c with
  | CPlain _ => []
  | CLong e => [(e, None)]
  | CShorts es => (λ e, (e, None)) <$> es
  | CLongVal e v | CLongEq e v | CShortVal e v => [(e, Some v)]
  end.

Definition occurrence_ok (o : nat * option string) : bool :=
  match o with
  | (e, None) => flag_ok e
  | (e, Some v) => value_fits e v
  end.

(** The arguments given for an entry, in order. *)
Definition givens (e : nat) (occs : list (nat * option string)) : list (option string) :=
  omap (λ o, if (o.1 =? e)%nat then Some o.2 else None) occs.

(** What an entry is assigned: flags are set, of numbers and strings the last
    one counts, arrays collect all. *)
Definition value_of (e : nat) (occs : list (nat * option string)) : option assigned :=
  match last (givens e occs) with
  | None => None
  | Some v =>
      if kind_of e =? U_OPTION_ARG_INT then Some (AInt (strtol (default "" v)).1)
      else if kind_of e =? U_OPTION_ARG_STRING then Some (AString v)
      else if kind_of e =? U_OPTION_ARG_STRING_ARRAY then Some (AArray (omap id (givens e occs)))
      else if kind_of e =? U_OPTION_ARG_NONE then Some (AFlag 1)
      else None
  end.

Definition assign_of (e : nat) (b : tmp_buf) : option assigned :=
  if kind_of e =? U_OPTION_ARG_INT then Some (AInt (lint b))
  else if kind_of e =? U_OPTION_ARG_STRING then Some (AString (ptr b))
  else if kind_of e =? U_OPTION_ARG_STRING_ARRAY then Some (AArray (pptr b))
  else if kind_of e =? U_OPTION_ARG_NONE then Some (AFlag (lint b))
  else None.

Fixpoint tmp_get (data : tmp_data) (e : nat) : option tmp_buf :=
  match data with
  | [] => None
  | (e', b) :: data' => if (e' =? e)%nat then Some b else tmp_get data' e
  end.

Lemma tmp_get_store d e b e' :
  tmp_get (tmp_store d e b) e' = if (e =? e')%nat then Some b else tmp_get d e'.
Proof.
  induction d as [|[e1 b1] d IH]; simpl; [done|]. destruct (Nat.eqb_spec e1 e) as [->|Hne]; simpl.
  - by destruct (e =? e')%nat.
  - rewrite IH. destruct (Nat.eqb_spec e1 e') as [->|]; [|done].
    by destruct (Nat.eqb_spec e e') as [->|].
Qed.

Lemma tmp_lookup_get d e : tmp_lookup d e = default (TmpBuf 0 None []) (tmp_get d e).
Proof. induction d as [|[e1 b1] d IH]; simpl; [done|]. by destruct (e1 =? e)%nat. Qed.

Lemma tmp_get_In d e b : NoDup d.*1 → (e, b) ∈ d ↔ tmp_get d e = Some b.
Proof.
  induction d as [|[e1 b1] d IH]; simpl; intros Hnd; [set_solver|].
  apply NoDup_cons in Hnd as [Hn Hnd]. rewrite elem_of_cons, IH by done.
  destruct (Nat.eqb_spec e1 e) as [->|Hne]; [|naive_solver]. split; [|naive_solver].
  intros [?|Hin]; [naive_solver|]. apply IH in Hin; [|done]. destruct Hn.
  apply list_elem_of_fmap. by exists (e, b).
Qed.

Lemma tmp_store_key d e b e' : e' ∈ (tmp_store d e b).*1 → e' = e ∨ e' ∈ d.*1.
Proof.
  induction d as [|[e1 b1] d IH]; simpl; [set_solver|].
  destruct (Nat.eqb_spec e1 e) as [->|]; simpl; set_solver.
Qed.

Lemma tmp_store_keys d e b : NoDup d.*1 → NoDup (tmp_store d e b).*1.
Proof.
  induction d as [|[e1 b1] d IH]; simpl; intros Hnd; [apply NoDup_singleton|].
  apply NoDup_cons in Hnd as [Hn Hnd]. destruct (Nat.eqb_spec e1 e) as [->|Hne]; simpl.
  - by apply NoDup_cons.
  - apply NoDup_cons. split; [|by apply IH]. intros [?|?]%tmp_store_key; [by subst|done].
Qed.

Lemma cl_effect_occurrences d c :
  cl_effect d c = foldl (λ d o, store_value d o.1 o.2) d (occurrences c).
Proof. destruct c; try done. simpl. revert d. induction es as [|e es IH]; intros d; simpl; [done|]. apply IH. Qed.

Lemma effects_occurrences cs d :
  foldl cl_effect d cs = foldl (λ d o, store_value d o.1 o.2) d (mjoin (occurrences <$> cs)).
Proof.
  revert d. induction cs as [|c cs IH]; intros d; [done|]. cbn [foldl fmap list_fmap mjoin list_join].
  by rewrite foldl_app, <- cl_effect_occurrences.
Qed.

Lemma items_occurrences cs :
  forallb cl_ok cs = true → Forall (λ o, occurrence_ok o = true) (mjoin (occurrences <$> cs)).
Proof.
  induction cs as [|c cs IH]; [constructor|]. cbn [forallb fmap list_fmap mjoin list_join].
  intros [Hc Hcs]%andb_true_iff. apply Forall_app_2; [|by apply IH].
  destruct c; simpl in *; repeat constructor; repeat (apply andb_true_iff in Hc as [Hc ?]; try done); try done.
  apply Forall_fmap, Forall_forall. intros e He. simpl.
  rewrite forallb_forall in H0. apply list_elem_of_In, H0, andb_true_iff in He. apply He.
Qed.

Lemma givens_snoc e occs o :
  givens e (occs ++ [o]) = givens e occs ++ (if (o.1 =? e)%nat then [o.2] else []).
Proof. unfold givens. rewrite omap_app. simpl. by destruct (o.1 =? e)%nat. Qed.

(** A value that fits is stored. *)
Lemma store_value_spec d e v :
  occurrence_ok (e, v) = true →
  ∃ b, store_value d e v = tmp_store d e b ∧ ptr b = (if kind_of e =? U_OPTION_ARG_STRING then v else ptr (tmp_lookup d e)) ∧
    pptr b = pptr (tmp_lookup d e) ++ (if kind_of e =? U_OPTION_ARG_STRING_ARRAY then option_list v else []) ∧
    (kind_of e = U_OPTION_ARG_INT → lint b = (strtol (default "" v)).1) ∧
    (kind_of e = U_OPTION_ARG_NONE → lint b = 1) ∧
    (kind_of e = U_OPTION_ARG_INT ∨ kind_of e = U_OPTION_ARG_STRING ∨
     kind_of e = U_OPTION_ARG_STRING_ARRAY ∨ kind_of e = U_OPTION_ARG_NONE).
Proof.
  intros Ho. destruct v as [v|]; simpl in Ho.
  - destruct (value_entry e v d Ho) as (en & He & _ & _ & _ & Hf).
    unfold value_fits in Ho. rewrite He in Ho. apply andb_true_iff in Ho as [_ Hk].
    assert (Hkind : kind_of e = arg en) by by unfold kind_of; rewrite He. rewrite Hkind.
    unfold fill_tmp_data in Hf.
    apply orb_true_iff in Hk as [[Ha%Z.eqb_eq|Ha%Z.eqb_eq]%orb_true_iff
      |[[Ha%Z.eqb_eq Hi]%andb_true_iff Hm]%andb_true_iff]; rewrite Ha in Hf |- *.
    + injection Hf as Hf. eexists. split; [symmetry; exact Hf|]. simpl. rewrite app_nil_r. naive_solver.
    + injection Hf as Hf. eexists. split; [symmetry; exact Hf|]. simpl. naive_solver.
    + cbn [Z.eqb Pos.eqb U_OPTION_ARG_INT mbind option_bind negb] in Hf. rewrite Hi in Hf. cbn [negb] in Hf.
      destruct (_ || _) in Hf; [done|]. injection Hf as Hf. eexists. split; [symmetry; exact Hf|].
      simpl. rewrite app_nil_r. naive_solver.
  - destruct (flag_entry e Ho) as (en & He & _ & _ & Hk). unfold store_value, fill_tmp_data. rewrite Hk.
    eexists. split; [reflexivity|]. simpl. rewrite app_nil_r. naive_solver.
Qed.

Lemma stored_values occs :
  Forall (λ o, occurrence_ok o = true) occs →
  let d := foldl (λ d o, store_value d o.1 o.2) [] occs in
  NoDup d.*1 ∧
  (∀ e, tmp_get d e ≫= assign_of e = value_of e occs) ∧
  (∀ e, kind_of e = U_OPTION_ARG_STRING_ARRAY → pptr (tmp_lookup d e) = omap id (givens e occs)).
Proof.
  induction occs as [|[e1 v1] occs IH] using rev_ind; intros Hall d; [split_and!; [constructor|done|done]|].
  apply Forall_app in Hall as [Hall Ho]. rewrite Forall_singleton in Ho.
  destruct (IH Hall) as (Hnd & Hval & Harr). subst d. rewrite foldl_app. cbn [foldl fst snd].
  set (d := foldl (λ (d : tmp_data) (o : nat * option string), store_value d o.1 o.2) [] occs) in *.
  clearbody d.
  destruct (store_value_spec d e1 v1 Ho) as (b & Hst & Hptr & Hpptr & Hint & Hnone & Hk). rewrite Hst.
  split_and!.
  - by apply tmp_store_keys.
  - intros e. rewrite tmp_get_store. unfold value_of. rewrite givens_snoc. cbn [fst snd].
    destruct (Nat.eqb_spec e1 e) as [->|Hne].
    + rewrite last_snoc. simpl. unfold assign_of.
      destruct Hk as [Hk|[Hk|[Hk|Hk]]]; rewrite Hk in *; simpl in *.
      * by rewrite Hint.
      * by rewrite Hptr.
      * rewrite Hpptr, omap_app, Harr by done. by destruct v1.
      * by rewrite Hnone.
    + rewrite app_nil_r. apply Hval.
  - intros e He. rewrite tmp_lookup_get, tmp_get_store, givens_snoc. cbn [fst snd].
    destruct (Nat.eqb_spec e1 e) as [->|Hne].
    + simpl. rewrite Hpptr, omap_app, Harr, He by done. by destruct v1.
    + rewrite app_nil_r, <- tmp_lookup_get. by apply Harr.
Qed.

Lemma get_tmp_data_spec d e a :
  NoDup d.*1 → (e, a) ∈ get_tmp_data (all_entries ctx) d ↔ tmp_get d e ≫= assign_of e = Some a.
Proof.
  intros Hnd. unfold get_tmp_data. rewrite list_elem_of_omap.
  assert (Hf : ∀ e' b, (en ← all_entries ctx !! e';
    if arg en =? U_OPTION_ARG_INT then Some (e', AInt (lint b))
    else if arg en =? U_OPTION_ARG_STRING then Some (e', AString (ptr b))
    else if arg en =? U_OPTION_ARG_STRING_ARRAY then Some (e', AArray (pptr b))
    else if arg en =? U_OPTION_ARG_NONE then Some (e', AFlag (lint b)) else None) = pair e' <$> assign_of e' b).
  { intros e' b. unfold assign_of, kind_of. destruct (all_entries ctx !! e') as [en|]; [|done]. simpl.
    repeat case_match; done. }
  split.
  - intros ([e' b] & Hin & H). rewrite Hf in H. apply fmap_Some in H as (a' & Ha & [= -> ->]).
    apply tmp_get_In in Hin; [|done]. by rewrite Hin.
  - intros H. destruct (tmp_get d e) as [b|] eqn:Hg; [|done]. exists (e, b).
    split; [by apply tmp_get_In|]. rewrite Hf. simpl in H. by rewrite H.
Qed.

Lemma get_tmp_data_keys d : NoDup d.*1 → NoDup (get_tmp_data (all_entries ctx) d).*1.
Proof.
  induction d as [|[e b] d IH]; intros Hnd; [constructor|]. apply NoDup_cons in Hnd as [Hn Hnd].
  unfold get_tmp_data. cbn [omap list_omap].
  assert (Hk : e ∉ (get_tmp_data (all_entries ctx) d).*1).
  { rewrite list_elem_of_fmap. intros ([e' a] & -> & H). apply get_tmp_data_spec in H; [|done].
    destruct (tmp_get d e') as [b'|] eqn:Hg; [|done]. apply tmp_get_In in Hg; [|done].
    apply Hn, list_elem_of_fmap. by exists (e', b'). }
  destruct (all_entries ctx !! e) as [en|]; simpl; [|by apply IH].
  repeat case_match; simplify_eq; simpl; try (apply NoDup_cons; split; [done|]); by apply IH.
Qed.
End CommandLine.

(** ** The arguments that are left *)

Lemma index_of_app t1 a t2 : a ∉ t1 → index_of a (t1 ++ a :: t2) = Some (length t1).
Proof.
  induction t1 as [|t t1 IH]; intros Hn; simpl.
  - by rewrite str_eqb_refl.
  - destruct (str_eqb a t) eqn:E; [apply str_eqb_eq in E; set_solver|]. rewrite IH by set_solver. done.
Qed.

Lemma index_of_none a t : a ∉ t → index_of a t = None.
Proof.
  induction t as [|x t IH]; intros Hn; simpl; [done|].
  destruct (str_eqb a x) eqn:E; [apply str_eqb_eq in E; set_solver|]. by rewrite IH by set_solver.
Qed.

(** With distinct arguments each one finds its own place: [t1] is in place, [t2]
    is what remains to be found in the suffix. *)
Lemma move_loop_spec suf : ∀ pre t1 t2 prog,
  t2 `sublist_of` suf → NoDup suf → (∀ a, a ∈ t1 → a ∉ suf) →
  take (S (length t1)) pre = prog :: t1 →
  take (S (length (t1 ++ t2))) (move_loop (length suf) (length pre) (t1 ++ t2) (pre ++ suf)) =
    prog :: t1 ++ t2.
Proof.
  induction suf as [|a suf IH]; intros pre t1 t2 prog Hsub Hnd Hdis Hpre.
  - apply sublist_nil_r in Hsub as ->. simpl. rewrite !app_nil_r. by rewrite Hpre.
  - apply NoDup_cons in Hnd as [Ha Hnd]. cbn [length move_loop].
    assert (Hat : (pre ++ a :: suf) !! length pre = Some a) by by apply list_lookup_middle.
    rewrite Hat. cbn [mbind option_bind default id].
    assert (Hshift : S (length pre) = length (pre ++ [a])) by (rewrite length_app; simpl; lia).
    assert (Hlen : (S (length t1) ≤ length pre)%nat).
    { apply (f_equal length) in Hpre. rewrite length_take in Hpre. cbn [length] in Hpre. lia. }
    apply sublist_cons_r in Hsub as [Hsub|(t2' & -> & Hsub)].
    + assert (Ha2 : a ∉ t2) by (intros ?; apply Ha; by eapply sublist_subseteq; [|done]).
      rewrite index_of_none by (rewrite elem_of_app; intros [Hin|Hin]; [apply (Hdis a Hin); set_solver|done]).
      replace (pre ++ a :: suf) with ((pre ++ [a]) ++ suf) by by rewrite <- app_assoc. rewrite Hshift.
      apply IH; try done; [set_solver|]. by rewrite take_app_le by lia.
    + rewrite index_of_app by (intros Hin; apply (Hdis a Hin); set_solver). rewrite cons_middle, app_assoc.
      assert (Hins : ∃ pre', <[S (length t1):=a]> (pre ++ a :: suf) = pre' ++ suf ∧
        length pre' = S (length pre) ∧ take (S (S (length t1))) pre' = prog :: t1 ++ [a]).
      { exists (<[S (length t1) := a]> (pre ++ [a])). rewrite length_insert, length_app. simpl. split_and!.
        - rewrite <- insert_app_l by (rewrite length_app; simpl; lia). by rewrite <- app_assoc.
        - lia.
        - rewrite insert_take_drop by (rewrite length_app; simpl; lia).
          rewrite (take_app_le pre [a]), Hpre by lia. change (prog :: t1 ++ [a]) with ((prog :: t1) ++ [a]).
          rewrite cons_middle, app_assoc, take_app_le by (simpl; rewrite length_app; simpl; lia).
          rewrite take_ge; [done|]. simpl. rewrite length_app. simpl. lia. }
      destruct Hins as (pre' & -> & Hl' & Ht'). rewrite <- Hl'.
      apply IH; try done; [set_solver|]. by rewrite length_app, Nat.add_1_r.
Qed.

(** ** The theorems *)

Section Parsed.
Context (ctx : u_option_context).

(** A well-formed command line, with what follows it. *)
Lemma parse_prefix prog cs rest :
  forallb (cl_ok ctx) cs = true →
  let argv := prog :: mjoin (words ctx <$> cs) ++ rest in
  ∃ n s, (n ≤ cost (mjoin (words ctx <$> cs)))%nat ∧
    rounds ctx argv n (PState 1 0 ANull 0 0 argv [] []) s ∧
    before argv s rest (foldl (cl_effect ctx) [] cs) (mjoin (plains <$> cs)) ∧
    p_i s = S (length (mjoin (words ctx <$> cs))).
Proof.
  intros Hok argv.
  destruct (rounds_items ctx argv cs (PState 1 0 ANull 0 0 argv [] []) rest [] []) as (n & s & H1 & H2 & H3 & H4);
    [done|done|]. exists n, s. split_and!; try done.
Qed.

Lemma parse_fuel_cost argv : parse_fuel argv = S (cost argv).
Proof.
  unfold parse_fuel, cost. induction argv as [|a argv IH]; [done|]. cbn [foldr]. rewrite IH. lia.
Qed.
End Parsed.

(** A command line of options and other arguments in any order, long names
    with the argument attached or apart, short names alone or several flags in
    one, is understood: the parser returns 1 without an error, assigns to each
    entry that was given exactly its value (flags, the last number or string,
    all the strings of an array) and to no other, and leaves the other arguments
    in order when no argument occurs twice. *)
Theorem command_line_understood (ctx : u_option_context) (prog : string) (cs : list cl_item) :
  forallb (cl_ok ctx) cs = true →
  let ws := mjoin (words ctx <$> cs) in
  ∃ r, u_option_context_parse ctx (prog :: ws) = Some r ∧ pr_retval r = 1 ∧ pr_error r = None ∧
    NoDup (pr_assigned r).*1 ∧
    (∀ e a, (e, a) ∈ pr_assigned r ↔ value_of ctx e (mjoin (occurrences <$> cs)) = Some a) ∧
    (NoDup ws → pr_argv r = prog :: mjoin (plains <$> cs)).
Proof.
  intros Hok ws. destruct (parse_prefix ctx prog cs [] Hok) as (n & s & Hn & Hr & Hb & Hi).
  rewrite app_nil_r in Hr, Hb. fold ws in Hn, Hr, Hb, Hi.
  assert (Hloop : parse_loop (parse_fuel (prog :: ws)) ctx (prog :: ws)
    (PState 1 0 ANull 0 0 (prog :: ws) [] []) = Some (PNext s)).
  { rewrite parse_fuel_cost. replace (S (cost (prog :: ws))) with (n + (S (cost (prog :: ws)) - n))%nat.
    - rewrite Hr. destruct (S (cost (prog :: ws)) - n)%nat; cbn [parse_loop]; rewrite Hi;
        by rewrite Nat.ltb_irrefl.
    - cbn [cost foldr]. unfold cost in Hn. lia. }
  unfold u_option_context_parse. rewrite Hloop. cbn [mbind option_bind]. eexists. split; [reflexivity|].
  destruct Hb as (_ & _ & _ & _ & Hd & Ht). cbn [pr_retval pr_error pr_assigned pr_argv].
  rewrite Hd, effects_occurrences, Ht.
  destruct (stored_values ctx _ (items_occurrences ctx cs Hok)) as (Hnd & Hval & _).
  split_and!; try done.
  - by apply get_tmp_data_keys.
  - intros e a. rewrite get_tmp_data_spec by done. by rewrite Hval.
  - intros Hws. pose proof (move_loop_spec ws [prog] [] (mjoin (plains <$> cs)) prog) as Hm.
    simpl in Hm |- *. rewrite Nat.sub_0_r. apply Hm; try done; [|set_solver].
    subst ws. clear. induction cs as [|c cs IH]; [done|]. cbn [fmap list_fmap mjoin list_join].
    apply sublist_app; [|done]. by destruct c; simpl; repeat constructor; apply sublist_nil_l.
Qed.



(** The parser depends on the entries and on whether help is enabled. *)
Section Mode.
Context (ctx ctx' : u_option_context) (argv : list string).
Hypothesis Hg : groups ctx = groups ctx'.
Hypothesis Hh : help_enabled ctx = help_enabled ctx'.

Lemma entries_ext : all_entries ctx = all_entries ctx'.
Proof using Hg. unfold all_entries. by rewrite Hg. Qed.

Lemma parse_step_ext s : parse_step ctx argv s = parse_step ctx' argv s.
Proof using Hg Hh.
  assert (Hl : ∀ o, find_long_opt ctx o = find_long_opt ctx' o)
    by by intros; unfold find_long_opt; rewrite Hh, entries_ext.
  assert (Hs : ∀ o, find_short_opt ctx o = find_short_opt ctx' o)
    by by intros; unfold find_short_opt; rewrite Hh, entries_ext.
  unfold parse_step. rewrite entries_ext. apply option_bind_ext_fun. intros b.
  apply option_bind_ext_fun. intros c. destruct (negb (c =? 45)); [done|].
  apply option_bind_ext_fun. intros s1. apply option_bind_ext_fun. intros b1.
  apply option_bind_ext_fun. intros c1.
  assert (H : (if (c1 =? 45) && (p_optptr s1 =? 1)%nat then parse_long ctx (length argv) s1
      else parse_short ctx (length argv) s1) =
    (if (c1 =? 45) && (p_optptr s1 =? 1)%nat then parse_long ctx' (length argv) s1
      else parse_short ctx' (length argv) s1)); [|by rewrite H].
  destruct (_ && _).
  - unfold parse_long. apply option_bind_ext_fun. intros b2. apply option_bind_ext_fun. intros o.
    by rewrite Hl, entries_ext.
  - unfold parse_short. apply option_bind_ext_fun. intros b2. apply option_bind_ext_fun. intros o.
    by rewrite Hs.
Qed.

Lemma parse_ext : u_option_context_parse ctx argv = u_option_context_parse ctx' argv.
Proof using Hg Hh.
  unfold u_option_context_parse. rewrite entries_ext. f_equal. generalize (parse_fuel argv).
  generalize (PState 1 0 ANull 0 0 argv [] []). intros s fuel. revert s.
  induction fuel as [|fuel IH]; intros s; cbn [parse_loop]; [done|].
  destruct (_ <? _)%nat; [|done]. rewrite parse_step_ext. apply option_bind_ext_fun.
  intros [s'|s'|e s']; [apply IH|done|done].
Qed.
End Mode.

Lemma ignore_mode_help ctx ignore :
  help_enabled (u_option_context_set_ignore_unknown_options ctx ignore) = help_enabled ctx.
Proof.
  unfold help_enabled, u_option_context_set_ignore_unknown_options, set_mode. cbn [mode].
  assert (H : ∀ x, Z.land x 2 = if Z.testbit x 1 then 2 else 0).
  { intros x. apply Z.bits_inj'. intros n Hn. rewrite Z.land_spec. change 2 with (2 ^ 1) at 1.
    rewrite Z.pow2_bits_eqb by lia. destruct (Z.eqb_spec 1 n) as [<-|Hne].
    - rewrite andb_true_r. by destruct (Z.testbit x 1).
    - rewrite andb_false_r. destruct (Z.testbit x 1); [|by rewrite Z.bits_0].
      change 2 with (2 ^ 1). by rewrite Z.pow2_bits_false. }
  unfold U_OPTION_CONTEXT_HELP_ENABLED, U_OPTION_CONTEXT_IGNORE_UNKNOWN. rewrite !H.
  destruct (ignore =? 1); rewrite ?Z.lor_spec, ?Z.ldiff_spec; change (Z.testbit 1 1) with false;
    by rewrite ?orb_false_r, ?andb_true_r.
Qed.

(** An unknown long option ends the parsing wherever it stands, with an error
    that names it: the result is 0 and no variable is assigned, also not those of
    the options that were read before it.  The mode that is meant to ignore
    unknown options makes no difference. *)
Theorem unknown_option_refused (ctx : u_option_context) (prog : string) (cs : list cl_item)
    (o : string) (rest : list string) (ignore : Z) :
  forallb (cl_ok ctx) cs = true → c_str o = o → find_long_opt ctx o = NotFound →
  let argv := prog :: mjoin (words ctx <$> cs) ++ ("--" +:+ o) :: rest in
  ∃ left, u_option_context_parse ctx argv = Some (Parsed 0 (Some (EUnknownOption ("--" +:+ o))) [] left) ∧
    u_option_context_parse (u_option_context_set_ignore_unknown_options ctx ignore) argv =
    u_option_context_parse ctx argv.
Proof.
  intros Hok Hc Hn argv.
  destruct (parse_prefix ctx prog cs (("--" +:+ o) :: rest) Hok) as (n & s & Hle & Hr & Hb & Hi).
  fold argv in Hr, Hb. exists (take (S (length (mjoin (plains <$> cs)))) argv).
  split; [|by apply parse_ext; [|apply ignore_mode_help]].
  assert (Hstep : ∃ s', parse_step ctx argv s = Some (PError (EUnknownOption ("--" +:+ o)) s') ∧
    p_tmp_argv s' = mjoin (plains <$> cs)).
  { rewrite (step_option ctx argv s ("-" +:+ o) rest _ _ Hb). cbv zeta.
    destruct (before_head _ _ _ _ _ _ Hb) as [Hw _].
    change (buf_at ("-" +:+ o) 0) with (Some 45). cbn [mbind option_bind Z.eqb Pos.eqb].
    unfold parse_long. cbn [p_largv p_i p_optptr]. rewrite Hw. cbn [mbind option_bind].
    change (buf_str ("--" +:+ o) (1 + 1)) with (Some (c_str o)). rewrite Hc. cbn [mbind option_bind].
    rewrite Hn. cbn [mbind option_bind p_i]. rewrite Hi.
    assert (Ha : argv !! S (length (mjoin (words ctx <$> cs))) = Some ("--" +:+ o)).
    { unfold argv. cbn [lookup list_lookup]. by apply list_lookup_middle. }
    rewrite Ha. cbn [mbind option_bind]. by eexists. }
  destruct Hstep as (s' & Hstep & Ht). unfold u_option_context_parse.
  assert (Hloop : parse_loop (parse_fuel argv) ctx argv (PState 1 0 ANull 0 0 argv [] []) =
    Some (PError (EUnknownOption ("--" +:+ o)) s')).
  { rewrite parse_fuel_cost.
    assert (∃ k, S (cost argv) = (n + S k)%nat) as (k & ->).
    { exists (cost argv - n)%nat. unfold argv. cbn [cost foldr].
      pose proof (cost_app (mjoin (words ctx <$> cs)) (("--" +:+ o) :: rest)) as Hca. unfold cost in *. lia. }
    rewrite Hr. cbn [parse_loop]. pose proof (before_lt argv s _ _ _ _ Hb) as Hlt. apply Nat.ltb_lt in Hlt.
    rewrite Hlt, Hstep. done. }
  rewrite Hloop. cbn [mbind option_bind]. by rewrite Ht.
Qed.

(** A table with a flag, a number and an array. *)
Definition sample_ctx : u_option_context :=
  Context_ None [Group None None None
    [Entry "ssl" 83 U_OPTION_ARG_NONE true None None; Entry "level" 108 U_OPTION_ARG_INT true None None;
     Entry "define" 68 U_OPTION_ARG_STRING_ARRAY true None None; Entry "quiet" 113 U_OPTION_ARG_NONE true None None]
    true] 2 None.

Definition sample_line : list cl_item :=
  [CPlain "a"; CShorts [0%nat; 3%nat]; CLongEq 1 "7"; CShortVal 2 "x"; CLongVal 2 "-y"; CLong 0; CPlain "b"].

Lemma command_line_understood_witness :
  words sample_ctx <$> sample_line =
    [["a"]; ["-Sq"]; ["--level=7"]; ["-D"; "x"]; ["--define"; "-y"]; ["--ssl"]; ["b"]] ∧
  ∃ r, u_option_context_parse sample_ctx ("p" :: mjoin (words sample_ctx <$> sample_line)) = Some r ∧
    pr_retval r = 1 ∧ (2%nat, AArray ["x"; "-y"]) ∈ pr_assigned r.
Proof.
  split; [reflexivity|].
  destruct (command_line_understood sample_ctx "p" sample_line) as (r & H1 & H2 & _ & _ & H3 & _); [reflexivity|].
  exists r. split; [exact H1|]. split; [exact H2|]. apply H3. reflexivity.
Defined.

Lemma unknown_option_refused_witness :
  ∃ left, u_option_context_parse sample_ctx ["p"; "-S"; "--what"; "x"] =
    Some (Parsed 0 (Some (EUnknownOption "--what")) [] left).
Proof.
  destruct (unknown_option_refused sample_ctx "p" [CShorts [0%nat]] "what" ["x"] 1) as (left & H & _);
    [reflexivity|reflexivity|reflexivity|]. exists left. exact H.
Defined.
