(* ===== verification/Repository.v ===== *)
(** * The repository of subscriptions ([wsman-subscription-repository.c])

    Subscriptions are files in a directory, one per identifier.  The file system
    is a finite map from paths to contents; [writable] says which files can be
    opened for writing, and every file that exists can be read.  The flag
    [LocalSubscriptionInitFlag] is part of the state.  The repository refines a
    finite map from identifiers to documents. *)

From S2P Require Import Prelude CString Names Xml Uri Ini.
From stdpp Require Import sorting.

#[local] Open Scope string_scope.
#[local] Open Scope list_scope.
#[local] Open Scope Z_scope.
#[local] Open Scope ow_scope.

(** [NAME_MAX] of Linux. *)
Definition U_NAME_MAX : nat := 255.

Abbreviation files := (gmap string string).

Record repository := Repo { init_flag : bool; fs : files }.

(** The path that [u_strdup_printf] makes, and that [snprintf] makes in a buffer
    of [U_NAME_MAX] bytes. *)
Definition full_path (dir uuid : string) : string := dir +:+ "/uuid:" +:+ uuid.
Definition cut_path (dir uuid : string) : string := str_take (U_NAME_MAX - 1) (full_path dir uuid).

(** ** Reading *)

Fixpoint str_from (n : nat) (s : string) : string :=
  match n, s with S n, String _ s => str_from n s | _, _ => s end.

(** [while (!feof(fp))]: blocks of up to 511 bytes; the end is seen when a block
    is not full. *)
Fixpoint read_blocks (fuel : nat) (rest buf : string) : option string :=
  match fuel with
  | O => None
  | S fuel =>
      let block := str_take 511 rest in
      let buf := buf +:+ block in
      if (String.length block <? 511)%nat then Some buf else read_blocks fuel (str_from 511 rest) buf
  end.

Definition read_file (contents : string) : option string :=
  read_blocks (S (String.length contents)) contents "".

Definition LocalSubscriptionOpInit (r : repository) : Z * repository := (0, Repo true (fs r)).

Definition LocalSubscriptionOpFinalize (r : repository) : Z := if init_flag r then 0 else -1.

(** The result, the document and its length. *)
Definition LocalSubscriptionOpGet (dir uuid : string) (r : repository) : option (Z * option (string * Z)) :=
  if negb (init_flag r) then Some (-1, None) else
  match fs r !! full_path dir uuid with
  | None => Some (-1, None)
  | Some c => buf ← read_file c; Some (0, Some (buf, Z.of_nat (String.length buf)))
  end.

Definition LocalSubscriptionOpSearch (dir uuid : string) (r : repository) : Z :=
  if negb (init_flag r) then -1 else
  match fs r !! full_path dir uuid with None => -1 | Some _ => 0 end.

(** ** Loading *)

(** The name of a path in the directory. *)
Definition name_in (dir path : string) : option string :=
  if str_prefix (dir +:+ "/") path then
    let n := str_from (S (String.length dir)) path in
    match strchr n (chr 47) with None => Some n | Some _ => None end
  else None.

Definition str_le (a b : string) : Prop := strcmp a b ≤ 0.
#[local] Instance str_le_dec : RelDecision str_le.
Proof. intros a b. apply Z.le_dec. Defined.

(** [scandir] with [alphasort]; "." and ".." are skipped by the caller. *)
Definition scandir (dir : string) (f : files) : list string :=
  merge_sort str_le (omap (λ kv, name_in dir kv.1) (map_to_list f)).

Definition skipped (name : string) : bool :=
  match strstr name "uuid" with None => true | Some _ => (String.length name <? 41)%nat end.

(** The loop from the last name to the first; an entry has the document, its
    length and the name of the file. *)
Fixpoint load_entries (dir : string) (f : files) (names : list string) : option (Z * list (string * Z * string)) :=
  match names with
  | [] => Some (0, [])
  | n :: names =>
      if skipped n then load_entries dir f names
      else
        match f !! (dir +:+ "/" +:+ n) with
        | None => Some (-1, [])
        | Some c =>
            buf ← read_file c;
            '(r, es) ← load_entries dir f names;
            Some (r, (buf, Z.of_nat (String.length buf), n) :: es)
        end
  end.

Definition LocalSubscriptionOpLoad (dir : string) (r : repository) : option (Z * list (string * Z * string)) :=
  if negb (init_flag r) then Some (-1, []) else load_entries dir (fs r) (reverse (scandir dir (fs r))).

(** ** Writing *)

Section Write.
Context (writable : string → bool).

Definition LocalSubscriptionOpSave (dir uuid doc : string) (r : repository) : Z * repository :=
  if negb (init_flag r) then (-1, r) else
  let buf := cut_path dir uuid in
  if writable buf then (0, Repo (init_flag r) (<[buf := doc]> (fs r))) else (-1, r).

(** What [unlink] says is only logged. *)
Definition LocalSubscriptionOpDelete (dir uuid : string) (r : repository) : Z * repository :=
  if negb (init_flag r) then (-1, r) else
  (0, Repo (init_flag r) (delete (cut_path dir uuid) (fs r))).

(** *** The expiry time of a stored subscription *)

Context `{Libxml2} (parse : string → option xnode) (dump : xnode → string).

(** A change of the [i]-th element child that satisfies [P]. *)
Fixpoint change_child (P : xnode → bool) (i : nat) (f : xnode → xnode) (c : list xnode) : list xnode :=
  match c with
  | [] => []
  | n :: c =>
      if is_element n && P n then
        match i with O => f n :: c | S i => n :: change_child P i f c end
      else n :: change_child P i f c
  end.

Definition change_below (P : xnode → bool) (i : nat) (f : xnode → xnode) (n : xnode) : xnode :=
  match n with
  | XElement ns name p c => XElement ns name p (change_child P i f c)
  | XOther _ => n
  end.

Definition is_name (ns name : string) (n : xnode) : bool := ws_xml_is_node_qname (Some n) (Some ns) (Some name).

(** [ws_xml_set_node_text]. *)
Definition set_text (t : string) (n : xnode) : xnode :=
  match n with
  | XElement ns name p _ => XElement ns name p (x_children (xmlNewNodeContent ns name (Some t)))
  | XOther _ => n
  end.

(** The position of the node that [ws_xml_get_soap_body] returns. *)
Definition body_index (doc : xnode) : option nat :=
  match ws_xml_get_soap_body (Some doc) with
  | None => None
  | Some _ =>
      if ws_xml_is_node_qname (ws_xml_get_child (Some doc) 0 None None) (ws_xml_get_node_name_ns (Some doc))
           (Some SOAP_BODY)
      then Some O else Some 1%nat
  end.

(** The document with the new text of its first Expires in the first Subscribe
    of the body; without one it stays as it is. *)
Definition set_expires (expire : string) (doc : xnode) : xnode :=
  match body_index doc with
  | None => doc
  | Some i =>
      change_below (λ _, true) i
        (change_below (is_name XML_NS_EVENTING WSEVENT_SUBSCRIBE) 0
           (change_below (is_name XML_NS_EVENTING WSEVENT_EXPIRES) 0 (set_text expire))) doc
  end.

(** [xml_parser_file_to_doc] of a file that is not there yields NULL. *)
Definition LocalSubscriptionOpUpdate (dir uuid expire : string) (r : repository) : Z * repository :=
  if negb (init_flag r) then (-1, r) else
  let buf := cut_path dir uuid in
  match (c ← fs r !! buf; parse c) with
  | None => (0, r)
  | Some doc =>
      if writable buf then (0, Repo (init_flag r) (<[buf := dump (set_expires expire doc)]> (fs r))) else (-1, r)
  end.
End Write.

(** ** Reading what was written *)

Lemma take_from (n : nat) (s : string) : str_take n s +:+ str_from n s = s.
Proof.
  revert s. induction n as [|n IH]; intros [|a s]; cbn [str_take str_from]; try done.
  by rewrite str_app_cons, IH.
Qed.

Lemma str_take_length (n : nat) (s : string) : String.length (str_take n s) = Nat.min n (String.length s).
Proof. revert s. induction n as [|n IH]; intros [|a s]; cbn [str_take String.length Nat.min]; try done. by f_equal. Qed.

Lemma read_blocks_all (fuel : nat) :
  ∀ rest buf, (String.length rest < fuel)%nat → read_blocks fuel rest buf = Some (buf +:+ rest).
Proof.
  induction fuel as [|fuel IH]; intros rest buf Hf; [lia|]. cbn [read_blocks].
  pose proof (str_take_length 511 rest) as Hl. destruct (Nat.ltb_spec (String.length (str_take 511 rest)) 511).
  - by rewrite str_take_ge by lia.
  - pose proof (take_from 511 rest) as E. rewrite IH, str_app_assoc; [by rewrite E|].
    rewrite <- E, str_length_app in Hf. lia.
Qed.

Lemma read_file_all (c : string) : read_file c = Some c.
Proof. apply (read_blocks_all _ c ""). lia. Qed.

(** ** The abstract repository *)

(** Identifiers as [generate_uuid] makes them. *)
Definition uuid_ok (u : string) : Prop := String.length u = 36%nat ∧ strchr u (chr 47) = None.

Definition file_name (u : string) : string := "uuid:" +:+ u.

Section Refinement.
Context (dir : string) (Hdir : (String.length dir + 42 < U_NAME_MAX)%nat).

(** The files that [LocalSubscriptionOpLoad] would read are the subscriptions. *)
Record represents (f : files) (m : gmap string string) : Prop := Represents {
  rep_ids : ∀ u doc, m !! u = Some doc → uuid_ok u;
  rep_files : ∀ u, uuid_ok u → f !! full_path dir u = m !! u;
  rep_names : ∀ n, strchr n (chr 47) = None → skipped n = false → is_Some (f !! (dir +:+ "/" +:+ n)) →
    ∃ u, uuid_ok u ∧ n = file_name u;
}.

Lemma path_name (u : string) : full_path dir u = dir +:+ "/" +:+ file_name u.
Proof. done. Qed.

Lemma path_uncut (u : string) : uuid_ok u → cut_path dir u = full_path dir u.
Proof.
  intros [Hl _]. apply str_take_ge. unfold full_path. rewrite !str_length_app, Hl. cbn [String.length]. lia.
Qed.

Lemma str_app_inj (a x y : string) : a +:+ x = a +:+ y → x = y.
Proof. induction a as [|b a IH]; [done|]. rewrite !str_app_cons. intros [= E]. by apply IH. Qed.

Lemma full_path_inj (u v : string) : full_path dir u = full_path dir v → u = v.
Proof. intros E. apply str_app_inj in E. by apply (str_app_inj "/uuid:") in E. Qed.

Lemma represents_save (f : files) (m : gmap string string) (u doc : string) :
  uuid_ok u → represents f m → represents (<[full_path dir u := doc]> f) (<[u := doc]> m).
Proof.
  intros Hu [H1 H2 H3]. constructor.
  - intros v d. rewrite lookup_insert_Some. naive_solver.
  - intros v Hv. destruct (decide (v = u)) as [->|Hne]; [by rewrite !lookup_insert_eq|].
    rewrite !lookup_insert_ne; [by apply H2|done|]. by intros E%full_path_inj.
  - intros n Hn Hs. rewrite lookup_insert_is_Some. intros [E|[_ Hf]]; [|by apply H3].
    exists u. split; [done|]. rewrite path_name in E. apply str_app_inj in E. by injection E.
Qed.

Lemma represents_delete (f : files) (m : gmap string string) (u : string) :
  uuid_ok u → represents f m → represents (delete (full_path dir u) f) (delete u m).
Proof.
  intros Hu [H1 H2 H3]. constructor.
  - intros v d. rewrite lookup_delete_Some. naive_solver.
  - intros v Hv. destruct (decide (v = u)) as [->|Hne]; [by rewrite !lookup_delete_eq|].
    rewrite !lookup_delete_ne; [by apply H2|done|]. by intros E%full_path_inj.
  - intros n Hn Hs [d Hd]. apply lookup_delete_Some in Hd as [_ Hd]. apply H3; [done..|by eexists].
Qed.

(** *** Loading *)

Lemma str_from_app (a b : string) : str_from (String.length a) (a +:+ b) = b.
Proof. induction a as [|c a IH]; [by destruct b|]. rewrite str_app_cons. exact IH. Qed.

Lemma name_in_spec (path n : string) :
  name_in dir path = Some n ↔ path = dir +:+ "/" +:+ n ∧ strchr n (chr 47) = None.
Proof.
  unfold name_in.
  assert (Hf : ∀ t, str_from (S (String.length dir)) (dir +:+ "/" +:+ t) = t).
  { intros t. replace (S (String.length dir)) with (String.length (dir +:+ "/"))
      by (rewrite str_length_app; cbn [String.length]; lia).
    rewrite <- str_app_assoc. apply str_from_app. }
  destruct (str_prefix (dir +:+ "/") path) eqn:E.
  - apply str_prefix_spec in E as [t ->]. rewrite str_app_assoc, Hf.
    destruct (strchr t (chr 47)) eqn:Es; split.
    + done.
    + intros [E%str_app_inj%(str_app_inj "/") Hn]. congruence.
    + by intros [= ->].
    + intros [E%str_app_inj%(str_app_inj "/") Hn]. by rewrite E.
  - split; [done|]. intros [-> _]. rewrite <- str_app_assoc, str_prefix_app in E. done.
Qed.

Lemma elem_of_scandir (f : files) (n : string) :
  n ∈ scandir dir f ↔ is_Some (f !! (dir +:+ "/" +:+ n)) ∧ strchr n (chr 47) = None.
Proof.
  unfold scandir. rewrite merge_sort_Permutation, list_elem_of_omap. split.
  - intros ([path c] & Hp%elem_of_map_to_list & [E Hn]%name_in_spec). cbn [fst] in E. subst path.
    split; [by eexists|done].
  - intros [[c Hc] Hn]. exists (dir +:+ "/" +:+ n, c). split; [by apply elem_of_map_to_list|].
    by apply name_in_spec.
Qed.

Lemma scandir_NoDup (f : files) : NoDup (scandir dir f).
Proof.
  unfold scandir. rewrite merge_sort_Permutation. pose proof (NoDup_fst_map_to_list f) as Hnd.
  induction (map_to_list f) as [|[path c] l IH]; [constructor|].
  cbn [fmap list_fmap fst] in Hnd. apply NoDup_cons in Hnd as [Hp Hnd]. cbn [omap list_omap fst].
  destruct (name_in dir path) as [n|] eqn:E; [|by apply IH]. apply NoDup_cons. split; [|by apply IH].
  intros ([path' c'] & Hin & [E' _]%name_in_spec)%list_elem_of_omap. apply name_in_spec in E as [E _].
  destruct Hp. apply list_elem_of_fmap. exists (path', c'). cbn [fst] in *.
  split; [congruence|done].
Qed.

Lemma load_entries_spec (f : files) (names : list string) :
  (∀ n, n ∈ names → is_Some (f !! (dir +:+ "/" +:+ n))) →
  ∃ es, load_entries dir f names = Some (0, es) ∧ snd <$> es = filter (λ n, skipped n = false) names ∧
  ∀ e, e ∈ es → f !! (dir +:+ "/" +:+ e.2) = Some e.1.1 ∧ e.1.2 = Z.of_nat (String.length e.1.1).
Proof.
  induction names as [|n names IH]; intros Hn; [exists []; split_and!; [done..|by intros ? []%not_elem_of_nil]|].
  destruct IH as (es & Hes & Hnames & Hall); [intros n' Hn'; apply Hn; by right|].
  cbn [load_entries]. rewrite filter_cons. destruct (skipped n) eqn:E.
  - exists es. by rewrite decide_False.
  - destruct (Hn n) as [c Hc]; [by left|]. rewrite Hc, read_file_all, Hes. cbn [mbind option_bind].
    eexists. split; [done|]. rewrite decide_True by done. cbn [fmap list_fmap snd]. rewrite Hnames. split; [done|].
    intros e [->|He]%elem_of_cons; [done|by apply Hall].
Qed.

Lemma file_name_loaded (u : string) : uuid_ok u → skipped (file_name u) = false ∧ strchr (file_name u) (chr 47) = None.
Proof.
  intros [Hl Hs]. split; [|exact Hs]. unfold skipped, file_name.
  change (strstr ("uuid:" +:+ u) "uuid") with (Some ("uuid:" +:+ u)). rewrite str_length_app, Hl. done.
Qed.

Lemma load_spec (r : repository) (m : gmap string string) :
  init_flag r = true → represents (fs r) m →
  ∃ es, LocalSubscriptionOpLoad dir r = Some (0, es) ∧ NoDup (snd <$> es) ∧
  ∀ doc len n, (doc, len, n) ∈ es ↔
    ∃ u, m !! u = Some doc ∧ n = file_name u ∧ len = Z.of_nat (String.length doc).
Proof.
  intros Hi [H1 H2 H3]. unfold LocalSubscriptionOpLoad. rewrite Hi. cbn [negb].
  destruct (load_entries_spec (fs r) (reverse (scandir dir (fs r)))) as (es & -> & Hnames & Hall).
  { intros n Hn. rewrite elem_of_reverse in Hn. by apply elem_of_scandir in Hn as [? _]. }
  exists es. split; [done|]. split.
  - rewrite Hnames. apply NoDup_filter. rewrite reverse_Permutation. apply scandir_NoDup.
  - intros doc len n. split.
    + intros He. destruct (Hall _ He) as [Hd Hl]. cbn [fst snd] in *.
      assert (Hn : n ∈ snd <$> es) by (apply list_elem_of_fmap; by exists (doc, len, n)).
      rewrite Hnames, list_elem_of_filter, elem_of_reverse, elem_of_scandir in Hn.
      destruct Hn as (Hs & Hf & Hc). destruct (H3 n Hc Hs Hf) as (u & Hu & ->).
      exists u. rewrite <- path_name, (H2 u Hu) in Hd. done.
    + intros (u & Hu & -> & ->). pose proof (H1 _ _ Hu) as Hok. destruct (file_name_loaded u Hok) as [Hs Hc].
      assert (Hn : file_name u ∈ snd <$> es).
      { rewrite Hnames, list_elem_of_filter, elem_of_reverse, elem_of_scandir.
        rewrite <- path_name, (H2 u Hok), Hu. split_and!; [done|by eexists|done]. }
      apply list_elem_of_fmap in Hn as ([[d l] n] & En & He). cbn [snd] in En. subst n.
      destruct (Hall _ He) as [Hd Hl]. cbn [fst snd] in *. rewrite <- path_name, (H2 u Hok), Hu in Hd.
      injection Hd as ->. by rewrite Hl in He.
Qed.
End Refinement.

(** ** Any sequence of operations *)

Inductive repo_op :=
  | OSave (u doc : string)
  | ODelete (u : string)
  | OUpdate (u expire : string)
  | OGet (u : string)
  | OSearch (u : string)
  | OLoad.

Inductive repo_result :=
  | RCode (z : Z)
  | RDoc (z : Z) (doc : option (string * Z))
  | REntries (z : Z) (es : list (string * Z * string)).

Definition op_uuid (o : repo_op) : option string :=
  match o with OSave u _ | ODelete u | OUpdate u _ | OGet u | OSearch u => Some u | OLoad => None end.

Section Run.
Context `{Libxml2} (parse : string → option xnode) (dump : xnode → string).
Context (dir : string) (Hdir : (String.length dir + 42 < U_NAME_MAX)%nat).
Context (writable : string → bool) (Hw : ∀ u, uuid_ok u → writable (full_path dir u) = true).

Definition repo_step (o : repo_op) (r : repository) : option (repo_result * repository) :=
  match o with
  | OSave u doc => let '(z, r) := LocalSubscriptionOpSave writable dir u doc r in Some (RCode z, r)
  | ODelete u => let '(z, r) := LocalSubscriptionOpDelete dir u r in Some (RCode z, r)
  | OUpdate u e => let '(z, r) := LocalSubscriptionOpUpdate writable parse dump dir u e r in Some (RCode z, r)
  | OGet u => '(z, d) ← LocalSubscriptionOpGet dir u r; Some (RDoc z d, r)
  | OSearch u => Some (RCode (LocalSubscriptionOpSearch dir u r), r)
  | OLoad => '(z, es) ← LocalSubscriptionOpLoad dir r; Some (REntries z es, r)
  end.

Fixpoint repo_run (os : list repo_op) (r : repository) : option (list repo_result * repository) :=
  match os with
  | [] => Some ([], r)
  | o :: os => '(x, r) ← repo_step o r; '(xs, r) ← repo_run os r; Some (x :: xs, r)
  end.

(** What a repository promises: a map from identifiers to documents. *)
Inductive map_step (m : gmap string string) : repo_op → repo_result → gmap string string → Prop :=
  | map_save u doc : map_step m (OSave u doc) (RCode 0) (<[u := doc]> m)
  | map_delete u : map_step m (ODelete u) (RCode 0) (delete u m)
  | map_update u e c d :
      m !! u = Some c → parse c = Some d →
      map_step m (OUpdate u e) (RCode 0) (<[u := dump (set_expires e d)]> m)
  | map_no_update u e : (c ← m !! u; parse c) = None → map_step m (OUpdate u e) (RCode 0) m
  | map_get u doc : m !! u = Some doc → map_step m (OGet u) (RDoc 0 (Some (doc, Z.of_nat (String.length doc)))) m
  | map_no_get u : m !! u = None → map_step m (OGet u) (RDoc (-1) None) m
  | map_search u : map_step m (OSearch u) (RCode (if m !! u is Some _ then 0 else -1)) m
  | map_load es :
      NoDup (snd <$> es) →
      (∀ doc len n, (doc, len, n) ∈ es ↔
        ∃ u, m !! u = Some doc ∧ n = file_name u ∧ len = Z.of_nat (String.length doc)) →
      map_step m OLoad (REntries 0 es) m.

Inductive map_run : gmap string string → list repo_op → list repo_result → gmap string string → Prop :=
  | map_nil m : map_run m [] [] m
  | map_cons m o x m1 os xs m2 :
      map_step m o x m1 → map_run m1 os xs m2 → map_run m (o :: os) (x :: xs) m2.

Definition stored (r : repository) (m : gmap string string) : Prop :=
  init_flag r = true ∧ represents dir (fs r) m.

Lemma repo_step_refines (o : repo_op) (r : repository) (m : gmap string string) :
  stored r m → (∀ u, op_uuid o = Some u → uuid_ok u) →
  ∃ x r' m', repo_step o r = Some (x, r') ∧ map_step m o x m' ∧ stored r' m'.
Proof.
  intros [Hi Hr] Hu. pose proof (rep_files _ _ _ Hr) as Hf.
  destruct o as [u doc|u|u e|u|u|]; cbn [repo_step op_uuid] in *; try (specialize (Hu u eq_refl); specialize (Hf u Hu)).
  - unfold LocalSubscriptionOpSave. rewrite Hi, (path_uncut dir Hdir u Hu), Hw by done. cbn [negb].
    do 3 eexists. split; [done|]. split; [constructor|]. split; [done|]. by apply represents_save.
  - unfold LocalSubscriptionOpDelete. rewrite Hi, (path_uncut dir Hdir u Hu). cbn [negb].
    do 3 eexists. split; [done|]. split; [constructor|]. split; [done|]. by apply represents_delete.
  - unfold LocalSubscriptionOpUpdate. rewrite Hi, (path_uncut dir Hdir u Hu), Hw, Hf by done. cbn [negb].
    destruct (m !! u ≫= parse) as [d|] eqn:E.
    + apply bind_Some in E as (c & Hc & Hd). do 3 eexists. split; [done|]. split; [by econstructor|].
      split; [done|]. by apply represents_save.
    + do 3 eexists. split; [done|]. by split; [constructor|].
  - unfold LocalSubscriptionOpGet. rewrite Hi, Hf. cbn [negb]. destruct (m !! u) as [c|] eqn:E.
    + rewrite read_file_all. cbn [mbind option_bind]. do 3 eexists. split; [done|]. by split; [constructor|].
    + do 3 eexists. split; [done|]. by split; [constructor|].
  - unfold LocalSubscriptionOpSearch. rewrite Hi, Hf. cbn [negb]. do 3 eexists. split; [done|].
    split; [|done]. pose proof (map_search m u) as Hs. by destruct (m !! u).
  - destruct (load_spec dir Hdir r m Hi Hr) as (es & -> & Hnd & Hes). cbn [mbind option_bind].
    do 3 eexists. split; [done|]. by split; [constructor|].
Qed.

(** C38: The repository of subscriptions is a map: over any sequence of saving,
    deleting, updating, getting, searching and loading, in a directory whose
    paths fit the buffers, every operation returns what a finite map from
    identifiers to documents returns, and loading yields every subscription
    once with its document. *)
Theorem repository_refines_map (os : list repo_op) (r : repository) (m : gmap string string) :
  stored r m → Forall (λ o, ∀ u, op_uuid o = Some u → uuid_ok u) os →
  ∃ xs r' m', repo_run os r = Some (xs, r') ∧ map_run m os xs m' ∧ stored r' m'.
Proof.
  intros Hs Hos. revert r m Hs. induction Hos as [|o os Ho _ IH]; intros r m Hs.
  - do 3 eexists. split; [done|]. split; [constructor|done].
  - destruct (repo_step_refines o r m Hs Ho) as (x & r1 & m1 & Hx & Hm1 & Hs1).
    destruct (IH r1 m1 Hs1) as (xs & r2 & m2 & Hxs & Hm2 & Hs2).
    cbn [repo_run]. rewrite Hx. cbn [mbind option_bind]. rewrite Hxs. cbn [mbind option_bind].
    do 3 eexists. split; [done|]. split; [by econstructor|done].
Qed.
End Run.

Lemma repository_refines_map_witness :
  let u := "00000000-0000-0000-0000-000000000001" in
  let r0 := Repo true ∅ in
  ∃ xs r' m', @repo_run TreeXml (λ _, None) (λ _, "") "/var/lib/openwsman" (λ _, true)
                [OSave u "<doc/>"; OGet u; OLoad; ODelete u; OSearch u] r0 = Some (xs, r') ∧
    @map_run TreeXml (λ _, None) (λ _, "") ∅ [OSave u "<doc/>"; OGet u; OLoad; ODelete u; OSearch u] xs m' ∧
    stored "/var/lib/openwsman" r' m'.
Proof.
  intros u r0. subst r0.
  apply (@repository_refines_map TreeXml (λ _, None) (λ _, "") "/var/lib/openwsman").
  - vm_compute. lia.
  - done.
  - split; [done|]. constructor; [done|done|]. intros n _ _ [d Hd]. cbn [fs] in Hd. by rewrite lookup_empty in Hd.
  - apply Forall_forall. intros o Ho v Hv. assert (v = u) as ->; [|done].
    revert Hv. repeat (apply elem_of_cons in Ho as [->|Ho]; [by intros [= <-]|]). by apply not_elem_of_nil in Ho.
Defined.

Example stored_and_loaded :
  let u := "00000000-0000-0000-0000-000000000001" in
  fst <$> @repo_run TreeXml (λ _, None) (λ _, "") "/subs" (λ _, true)
    [OSave u "<doc/>"; OGet u; OLoad; ODelete u; OSearch u] (Repo true {["/subs/README" := "x"]}) =
  Some [RCode 0; RDoc 0 (Some ("<doc/>", 6)); REntries 0 [("<doc/>", 6, "uuid:" +:+ u)]; RCode 0; RCode (-1)].
Proof. vm_compute. reflexivity. Qed.

(** ** The expiry time *)

Section Expires.
Context `{Libxml2Laws}.

(** A change that leaves the kind and the name of a node. *)
Definition keeps_name (f : xnode → xnode) : Prop :=
  ∀ n, is_element (f n) = is_element n ∧
       ∀ ns name, ws_xml_is_node_qname (Some (f n)) ns name = ws_xml_is_node_qname (Some n) ns name.

Lemma change_below_keeps (P : xnode → bool) (i : nat) (f : xnode → xnode) : keeps_name (change_below P i f).
Proof. by intros []. Qed.

Lemma set_text_keeps (t : string) : keeps_name (set_text t).
Proof. by intros []. Qed.

Lemma change_first (P : xnode → bool) (f : xnode → xnode) (c : list xnode) (x : xnode) :
  (∀ n, is_element (f n) = is_element n ∧ P (f n) = P n) →
  filter (λ n, P n = true) (element_children c) !! 0%nat = Some x →
  filter (λ n, P n = true) (element_children (change_child P 0 f c)) !! 0%nat = Some (f x).
Proof.
  intros Hf. induction c as [|n c IH]; intros Hx; [done|]. destruct (Hf n) as [He Hp]. cbn [change_child].
  cbn [element_children] in Hx. destruct (is_element n) eqn:E; cbn [andb].
  - rewrite filter_cons in Hx. destruct (P n) eqn:Ep.
    + rewrite decide_True in Hx by done. injection Hx as <-. cbn [element_children]. rewrite He, filter_cons.
      by rewrite decide_True by done.
    + rewrite decide_False in Hx by done. cbn [element_children]. rewrite E, filter_cons, decide_False by congruence.
      by apply IH.
  - cbn [element_children]. rewrite E. by apply IH.
Qed.

Lemma change_any (f : xnode → xnode) (c : list xnode) :
  (∀ n, is_element (f n) = is_element n) →
  ∀ i, element_children (change_child (λ _, true) i f c) = alter f i (element_children c).
Proof.
  intros Hf. induction c as [|n c IH]; intros i; [done|]. cbn [change_child]. rewrite andb_true_r.
  cbn [element_children]. destruct (is_element n) eqn:E.
  - destruct i as [|i]; cbn [element_children]; rewrite ?Hf, E; [done|]. by rewrite IH.
  - cbn [element_children]. by rewrite E, IH.
Qed.

(** The named child after a change of it. *)
Lemma get_changed (n : xnode) (ns name : string) (f : xnode → xnode) (x : xnode) :
  keeps_name f → ws_xml_get_child (Some n) 0 (Some ns) (Some name) = Some x →
  ws_xml_get_child (Some (change_below (is_name ns name) 0 f n)) 0 (Some ns) (Some name) = Some (f x).
Proof.
  intros Hf. rewrite !ws_xml_get_child_matching by lia. destruct n as [ns0 nm p c|]; [|done].
  intros Hx. unfold matching in *. cbn [change_below x_children] in *.
  apply (change_first (is_name ns name)); [|exact Hx]. intros n. split; apply Hf.
Qed.

Lemma get_any_changed (n : xnode) (f : xnode → xnode) (i j : nat) :
  keeps_name f →
  ws_xml_get_child (Some (change_below (λ _, true) i f n)) (Z.of_nat j) None None =
  (if decide (i = j) then f else id) <$> ws_xml_get_child (Some n) (Z.of_nat j) None None.
Proof.
  intros Hf. rewrite !ws_xml_get_child_matching, !matching_wildcard, !Nat2Z.id by lia.
  destruct n as [ns0 nm p c|]; [|by destruct j]. cbn [change_below x_children].
  rewrite change_any by (intros; apply Hf). destruct (decide (i = j)) as [->|Hne].
  - by rewrite list_lookup_alter_eq.
  - rewrite list_lookup_alter_ne by done. by rewrite option_fmap_id.
Qed.

Lemma qname_changed (f : xnode → xnode) (b : bool) (n : option xnode) (ns name : option string) :
  keeps_name f → ws_xml_is_node_qname ((if b then f else id) <$> n) ns name = ws_xml_is_node_qname n ns name.
Proof. intros Hf. destruct n as [n|]; [|done]. destruct b; [apply Hf|done]. Qed.

(** The body after a change of it. *)
Lemma body_changed (doc body : xnode) (f : xnode → xnode) (i : nat) :
  keeps_name f → body_index doc = Some i → ws_xml_get_soap_body (Some doc) = Some body →
  ws_xml_get_soap_body (Some (change_below (λ _, true) i f doc)) = Some (f body).
Proof.
  intros Hf. unfold body_index. destruct (ws_xml_get_soap_body (Some doc)) as [b|] eqn:Hb; [|done].
  intros Hi [= ->]. unfold ws_xml_get_soap_body, ws_xml_get_soap_element in *.
  set (doc' := change_below (λ _, true) i f doc).
  assert (Henv : ws_xml_get_soap_envelope (Some doc') =
                 (λ _, doc') <$> ws_xml_get_soap_envelope (Some doc)).
  { unfold ws_xml_get_soap_envelope, ws_xml_get_doc_root, doc'.
    rewrite !(proj2 (change_below_keeps (λ _, true) i f doc)). by destruct (_ || _). }
  assert (Hns : ws_xml_get_node_name_ns (Some doc') = ws_xml_get_node_name_ns (Some doc))
    by (subst doc'; by destruct doc).
  assert (Hroot : ∀ e, ws_xml_get_soap_envelope (Some doc) = Some e → e = doc)
    by (intros e; unfold ws_xml_get_soap_envelope, ws_xml_get_doc_root; destruct (_ || _); naive_solver).
  rewrite Henv. destruct (ws_xml_get_soap_envelope (Some doc)) as [e|]; [|done].
  rewrite (Hroot e eq_refl) in Hb. cbn [fmap option_fmap option_map]. rewrite Hns.
  pose proof (get_any_changed doc f i 0 Hf) as Hc0. pose proof (get_any_changed doc f i 1 Hf) as Hc1.
  change (Z.of_nat 0) with 0 in Hc0. change (Z.of_nat 1) with 1 in Hc1. fold doc' in Hc0, Hc1. rewrite Hc0, Hc1.
  destruct (ws_xml_get_child (Some doc) 0 None None) as [c0|] eqn:E0; [|done].
  change (str_eqb SOAP_BODY SOAP_HEADER) with false in *. cbn [negb fmap option_fmap option_map] in *.
  destruct (ws_xml_is_node_qname (Some c0) (ws_xml_get_node_name_ns (Some doc)) (Some SOAP_BODY)) eqn:Eq;
    cbn [negb] in *; injection Hi as <-.
  - injection Hb as ->. rewrite decide_True by done. by rewrite (proj2 (Hf body)), Eq.
  - rewrite decide_False, decide_True by done. cbv [id]. rewrite Eq. cbn [negb].
    destruct (ws_xml_get_child (Some doc) 1 None None) as [c1|]; [|by destruct (ws_xml_is_node_qname None _ _)].
    cbn [fmap option_fmap option_map]. rewrite (proj2 (Hf c1)). destruct (ws_xml_is_node_qname (Some c1) _ _); [|done].
    by injection Hb as ->.
Qed.

(** A stored subscription with an expiry time. *)
Definition expires_node (doc : xnode) : option xnode :=
  body ← ws_xml_get_soap_body (Some doc);
  sub ← ws_xml_get_child (Some body) 0 (Some XML_NS_EVENTING) (Some WSEVENT_SUBSCRIBE);
  ws_xml_get_child (Some sub) 0 (Some XML_NS_EVENTING) (Some WSEVENT_EXPIRES).

Lemma set_expires_read (doc ex : xnode) (e : string) :
  expires_node doc = Some ex → ws_xml_get_node_text (expires_node (set_expires e doc)) = Some e.
Proof.
  unfold expires_node, set_expires. intros Hex. bind_inv Hex. rename x into body, x0 into sub.
  destruct (body_index doc) as [i|] eqn:Hi.
  2:{ unfold body_index in Hi. rewrite E in Hi. by destruct (ws_xml_is_node_qname _ _ _). }
  rewrite (body_changed doc body _ i (change_below_keeps _ _ _) Hi E). cbn [mbind option_bind].
  rewrite (get_changed body _ _ _ sub (change_below_keeps _ _ _) E0). cbn [mbind option_bind].
  rewrite (get_changed sub _ _ _ ex (set_text_keeps e) Hex).
  apply ws_xml_get_child_elem in Hex as (_ & He & _). destruct ex as [ns name p c|]; [|done].
  cbn [ws_xml_get_node_text mbind option_bind set_text].
  destruct (new_node_shape ns name (Some e)) as (c' & Hn & _).
  pose proof (new_node_text ns name e) as Ht. rewrite Hn in Ht. rewrite Hn. cbn [x_children].
  by rewrite (content_of_children ns name p ns name []).
Qed.

(** Renewing a subscription: whatever the stored document is, if it has an
    expiry time then the document that is read afterwards has the new one. *)
Theorem renewed_expiry_stored (parse : string → option xnode) (dump : xnode → string) (writable : string → bool)
    (dir u e c : string) (doc ex : xnode) (f : files) :
  (∀ d, parse (dump d) = Some d) → uuid_ok u → (String.length dir + 42 < U_NAME_MAX)%nat →
  writable (full_path dir u) = true →
  f !! full_path dir u = Some c → parse c = Some doc → expires_node doc = Some ex →
  ∃ r' c' d', LocalSubscriptionOpUpdate writable parse dump dir u e (Repo true f) = (0, r') ∧
    LocalSubscriptionOpGet dir u r' = Some (0, Some (c', Z.of_nat (String.length c'))) ∧
    parse c' = Some d' ∧ ws_xml_get_node_text (expires_node d') = Some e.
Proof.
  intros Hpd Hu Hdir Hw Hf Hp Hex. unfold LocalSubscriptionOpUpdate. cbn [init_flag negb fs].
  rewrite (path_uncut dir Hdir u Hu), Hf. cbn [mbind option_bind]. rewrite Hp, Hw.
  do 3 eexists. split; [done|]. unfold LocalSubscriptionOpGet. cbn [init_flag negb fs].
  rewrite lookup_insert_eq, read_file_all. split; [done|]. split; [apply Hpd|].
  by apply set_expires_read with ex.
Qed.
End Expires.

(** A path that does not fit the buffer: the subscription is written under
    another name and not found again. *)
Example long_path_lost :
  let dir := String.concat "" (replicate 5 "/0123456789012345678901234567890123456789012345678") in
  let u := "00000000-0000-0000-0000-000000000001" in
  let r := snd (LocalSubscriptionOpSave (λ _, true) dir u "<doc/>" (Repo true ∅)) in
  LocalSubscriptionOpSearch dir u r = -1 ∧ size (fs r) = 1%nat.
Proof. vm_compute. done. Qed.
