(* ===== verification/Startup.v ===== *)
(** * Starting the server ([wsman-plugins.c], [wsman-server.c], [wsman-server-api.c])

    The plugins of a directory are loaded, asked for their endpoints and given
    to the runtime; the subscriptions that were stored are checked and handed to
    the dispatcher again.  The dynamic linker and the code of the plugins are
    the class [Linker]; [None] is a read of memory that was not written, or a
    crash below. *)

From S2P Require Import Prelude CString Names Xml Faults Duration Envelope Uri Routing Runtime Ini Repository.
#[local] Open Scope string_scope.
#[local] Open Scope list_scope.
#[local] Open Scope Z_scope.
#[local] Open Scope ow_scope.

(** ** Plugins *)

(** Handles are numbers.  The functions of a plugin: what its [init] returns,
    and the version and the interface that its [get_endpoints] writes. *)
Class Linker := {
  dlopen : string → option positive;
  dlsym : positive → string → bool;
  plugin_init_ok : positive → bool;
  plugin_interface : positive → string * interface;
}.

Definition PLUGIN_EXT : string := ".so".

Inductive WsManPluginError :=
  | PLUGIN_ERROR_OK | PLUGIN_ERROR_NOTLOADED | PLUGIN_ERROR_SYMBOLSNOTFOUND | PLUGIN_ERROR_INITFAILED
  | PLUGIN_ERROR_BADPARMS.

(** Whether the two functions were found; the clean-up function is never
    looked for. *)
Record WsManPlugin := Plugin {
  p_handle : option positive;
  p_name : string;
  p_init : bool;
  p_get_endpoints : bool;
}.

Section Plugins.
Context {LK : Linker}.

Definition plugin_init (p_name : string) : WsManPluginError * WsManPlugin :=
  match dlopen p_name with
  | None => (PLUGIN_ERROR_NOTLOADED, Plugin None p_name false false)
  | Some h =>
      let p := Plugin (Some h) p_name (dlsym h "init") (dlsym h "get_endpoints") in
      (if negb (p_get_endpoints p) && negb (p_init p) then PLUGIN_ERROR_SYMBOLSNOTFOUND else PLUGIN_ERROR_OK, p)
  end.

Definition load_plugin (p_name : string) : Z * WsManPlugin :=
  let '(err, p) := plugin_init p_name in
  (match err with PLUGIN_ERROR_OK => 0 | _ => -1 end, p).

(** [dlclose]: a handle is closed as often as it was opened. *)
Fixpoint close_handle (h : positive) (hs : list positive) : list positive :=
  match hs with
  | [] => []
  | h' :: hs => if decide (h' = h) then hs else h' :: close_handle h hs
  end.

(** The handles that stay open. *)
Definition plugin_free (p : WsManPlugin) (hs : list positive) : list positive :=
  match p_handle p with Some h => close_handle h hs | None => hs end.

(** The names of a directory, sorted by [alphasort], from the last to the
    first; [None] when it cannot be read. *)
Definition scan_files_in_dir (names : option (list string)) : list string :=
  match names with Some l => reverse l | None => [] end.

(** The name ends with the extension and is longer. *)
Definition is_plugin_name (entry_name : string) : bool :=
  (String.length PLUGIN_EXT <? String.length entry_name)%nat &&
  str_eqb (String.substring (String.length entry_name - String.length PLUGIN_EXT) (String.length PLUGIN_EXT) entry_name)
    PLUGIN_EXT.

(** The plugins, and the handles that are open afterwards. *)
Fixpoint scan_loop (dir_name : string) (files : list string) : list WsManPlugin * list positive :=
  match files with
  | [] => ([], [])
  | entry_name :: files =>
      let '(ps, hs) := scan_loop dir_name files in
      if is_plugin_name entry_name then
        let '(retv, p) := load_plugin (dir_name +:+ "/" +:+ entry_name) in
        let hs := option_list (p_handle p) ++ hs in
        if retv =? 0 then (p :: ps, hs) else (ps, plugin_free p hs)
      else (ps, hs)
  end.

Definition scan_plugins_in_directory (dir_name : string) (names : option (list string))
  : list WsManPlugin * list positive :=
  scan_loop dir_name (scan_files_in_dir names).

(** The directory of the configuration, or the default. *)
Definition wsman_plugins_load (config : option dictionary) (plugin_dir : char_ptr)
    (scandir : string → option (list string)) : option (list WsManPlugin * list positive) :=
  match iniparser_getstring config (Some "server:plugin_dir") plugin_dir with
  | StrP dir => Some (scan_plugins_in_directory dir (scandir dir))
  | _ => None
  end.

(** The handles that are still open afterwards. *)
Definition wsman_plugins_unload (plugins : list WsManPlugin) (hs : list positive) : list positive :=
  foldl (λ hs p, plugin_free p hs) hs plugins.

Definition wsman_server_verify_plugin (api_version : string) (version : string) : bool := str_eqb api_version version.

(** One plugin: its interface if it is used.  Without [get_endpoints] the
    version that is compared was never written. *)
Definition plugin_ifc (api_version : string) (p : WsManPlugin) : option (option interface) :=
  match p_handle p with
  | None => Some None
  | Some h =>
      if negb (p_init p) || negb (plugin_init_ok h) then Some None
      else if negb (p_get_endpoints p) then None
      else let '(version, ifc) := plugin_interface h in
           Some (if wsman_server_verify_plugin api_version version then Some ifc else None)
  end.

Definition wsman_init_plugins (api_version : string) (plugins : list WsManPlugin)
  : option (option (soap_rt * option (WsManDispatcherInfo (D := positive)))) :=
  l ← mapM (plugin_ifc api_version) plugins;
  ws_create_runtime (Some (omap id l)).

(** ** What is loaded *)

(** A file that is a usable plugin, with its interface. *)
Definition usable (api_version dir name : string) : option interface :=
  if is_plugin_name name then
    h ← dlopen (dir +:+ "/" +:+ name);
    if dlsym h "init" && dlsym h "get_endpoints" && plugin_init_ok h && str_eqb api_version (plugin_interface h).1
    then Some (plugin_interface h).2 else None
  else None.

(** Every plugin whose [init] succeeds has both functions. *)
Definition complete (dir : string) (names : list string) : Prop :=
  ∀ n h, n ∈ names → is_plugin_name n = true → dlopen (dir +:+ "/" +:+ n) = Some h →
    dlsym h "init" = true → plugin_init_ok h = true → dlsym h "get_endpoints" = true.

Lemma cons_ifc {A B} (f : A → option (option B)) p x (ps : list A) l l' :
  f p = Some x → mapM f ps = Some l → omap id (x :: l) = l' →
  ∃ l0, mapM f (p :: ps) = Some l0 ∧ omap id l0 = l'.
Proof. intros Hp Hps Hl. exists (x :: l). cbn [mapM]. rewrite Hp. cbn [mbind option_bind]. by rewrite Hps. Qed.

(** Unloading closes everything that is open. *)
Lemma unload_all dir names : wsman_plugins_unload (scan_loop dir names).1 (scan_loop dir names).2 = [].
Proof.
  unfold wsman_plugins_unload. induction names as [|n names IH]; [done|]. cbn [scan_loop].
  destruct (scan_loop dir names) as [ps hs]. cbn [fst snd] in IH. destruct (is_plugin_name n); [|done].
  destruct (load_plugin _) as [retv p].
  assert (Hf : plugin_free p (option_list (p_handle p) ++ hs) = hs).
  { unfold plugin_free. destruct (p_handle p) as [h|]; [|done]. cbn. by destruct (decide (h = h)). }
  destruct (retv =? 0); cbn [fst snd foldl]; by rewrite Hf.
Qed.

Lemma plugin_ifc_usable api dir names :
  complete dir names →
  ∃ l, mapM (plugin_ifc api) (scan_loop dir names).1 = Some l ∧ omap id l = omap (usable api dir) names.
Proof.
  induction names as [|n names IH]; intros Hc; [by exists []|]. cbn [scan_loop].
  destruct IH as (l & El & Hl). { intros n' h Hin. apply Hc. by right. }
  specialize (Hc n). destruct (scan_loop dir names) as [ps hs]. cbn [fst] in El.
  cbn [omap list_omap]. unfold usable at 1. destruct (is_plugin_name n) eqn:En; [|by exists l].
  unfold load_plugin, plugin_init. destruct (dlopen (dir +:+ "/" +:+ n)) as [h|] eqn:Eh; [|by exists l].
  specialize (Hc h ltac:(left) eq_refl eq_refl). cbn [p_get_endpoints p_init mbind option_bind].
  destruct (dlsym h "init") eqn:Ei, (dlsym h "get_endpoints") eqn:Eg; cbn [negb andb orb Z.eqb fst snd].
  - eapply (cons_ifc _ _ (if plugin_init_ok h && str_eqb api (plugin_interface h).1 then Some (plugin_interface h).2 else None));
      [|done|rewrite <- Hl; by destruct (plugin_init_ok h && str_eqb api (plugin_interface h).1)].
    unfold plugin_ifc. cbn [p_handle p_init p_get_endpoints negb orb]. destruct (plugin_init_ok h); [|done].
    by destruct (plugin_interface h).
  - destruct (plugin_init_ok h) eqn:Eo; [by specialize (Hc eq_refl eq_refl)|].
    eapply (cons_ifc _ _ None); [|done|done]. unfold plugin_ifc. cbn [p_handle p_init p_get_endpoints negb orb]. by rewrite Eo.
  - by eapply (cons_ifc _ _ None).
  - by exists l.
Qed.

(** Exactly the usable plugins of the directory are registered: the runtime
    is created from the interfaces of the files with the extension of a library
    that can be opened, whose initialisation succeeds and which were built for
    this version, from the last name to the first; no other file is looked at. *)
Theorem usable_plugins_registered api config default_dir dir scandir names :
  iniparser_getstring config (Some "server:plugin_dir") default_dir = StrP dir →
  scandir dir = Some names → complete dir names →
  ∃ plugins hs, wsman_plugins_load config default_dir scandir = Some (plugins, hs) ∧
    wsman_init_plugins api plugins = ws_create_runtime (Some (omap (usable api dir) (reverse names))) ∧
    wsman_plugins_unload plugins hs = [].
Proof.
  intros Hd Hn Hc. unfold wsman_plugins_load. rewrite Hd, Hn. unfold scan_plugins_in_directory. cbn [scan_files_in_dir].
  assert (Hc' : complete dir (reverse names)).
  { intros n h Hin. apply Hc. by rewrite elem_of_reverse in Hin. }
  destruct (plugin_ifc_usable api dir _ Hc') as (l & El & Hl). exists (scan_loop dir (reverse names)).1, (scan_loop dir (reverse names)).2.
  split_and!; [by destruct (scan_loop dir (reverse names))| |apply unload_all].
  unfold wsman_init_plugins. rewrite El. cbn [mbind option_bind]. by rewrite Hl.
Qed.
End Plugins.

(** ** Stored subscriptions *)

Section Restart.
Context {LX : Libxml2} (parse : string → option xnode).
Context (strtod_round : string → Z * string) (mktime : tm → Z) (now isdst : Z) (dir : string).

(** An entry: the document, its length and the name of its file. *)
Definition entry_uuid (e : string * Z * string) : string := str_from 5 e.2.

(** The result, 1 if the subscription was deleted. *)
Definition wsman_clean_subsrepository (e : string * Z * string) (r : repository) : option (Z * repository) :=
  let deleted := (LocalSubscriptionOpDelete dir (entry_uuid e) r).2 in
  match parse e.1.1 with
  | None => Some (0, r)
  | Some doc =>
      match ws_xml_get_soap_body (Some doc) with
      | None => Some (0, r)
      | body =>
          match child (child body XML_NS_EVENTING WSEVENT_SUBSCRIBE) XML_NS_EVENTING WSEVENT_EXPIRES with
          | None => Some (1, deleted)
          | node =>
              '(expire, fault_code) ←
                wsman_set_expiretime strtod_round mktime now isdst (ws_xml_get_node_text node) 0;
              Some (if decide (fault_code = WSMAN_RC_OK) then
                      if time_expired now expire then (1, deleted) else (0, r)
                    else (0, r))
          end
      end
  end.

(** The documents that are dispatched, each under its former identifier
    ([wsman_repos_notification_dispatcher]). *)
Fixpoint event_init_loop (es : list (string * Z * string)) (r : repository)
  : option (list (string * string) * repository) :=
  match es with
  | [] => Some ([], r)
  | e :: es =>
      '(deleted, r) ← wsman_clean_subsrepository e r;
      '(ds, r) ← event_init_loop es r;
      Some (if deleted =? 0 then ((entry_uuid e, e.1.1) :: ds, r) else (ds, r))
  end.

Definition wsman_event_init (r : repository) : option (list (string * string) * repository) :=
  let r := (LocalSubscriptionOpInit r).2 in
  '(rc, es) ← LocalSubscriptionOpLoad dir r;
  if rc =? 0 then event_init_loop es r else Some ([], r).

(** A stored subscription that is taken up again: one whose document cannot be
    read, or with an expiry time that has not passed or cannot be read. *)
Definition survives (doc : string) : bool :=
  match parse doc with
  | None => true
  | Some d =>
      match ws_xml_get_soap_body (Some d) with
      | None => true
      | body =>
          match child (child body XML_NS_EVENTING WSEVENT_SUBSCRIBE) XML_NS_EVENTING WSEVENT_EXPIRES with
          | None => false
          | node =>
              match wsman_set_expiretime strtod_round mktime now isdst (ws_xml_get_node_text node) 0 with
              | Some (expire, WSMAN_RC_OK) => negb (time_expired now expire)
              | _ => true
              end
          end
      end
  end.

Context (Hstrtod : ∀ t, (String.length (strtod_round t).2 ≤ String.length t)%nat).
Context (Hdir : (String.length dir + 42 < U_NAME_MAX)%nat).

Lemma clean_spec e r :
  wsman_clean_subsrepository e r =
  Some (if survives e.1.1 then (0, r) else (1, (LocalSubscriptionOpDelete dir (entry_uuid e) r).2)).
Proof using Hstrtod.
  unfold wsman_clean_subsrepository, survives. destruct (parse e.1.1) as [d|]; [|done].
  destruct (ws_xml_get_soap_body (Some d)) as [b|]; [|done]. destruct (child (child _ _ _) _ _) as [n|]; [|done].
  destruct (expiretime_defined strtod_round mktime now isdst (ws_xml_get_node_text (Some n)) 0 Hstrtod) as [[ex code] ->].
  cbn [mbind option_bind]. destruct (decide (code = WSMAN_RC_OK)) as [->|Hne].
  - by destruct (time_expired now ex).
  - destruct code; done.
Qed.

Lemma file_name_uuid u doc len : entry_uuid (doc, len, file_name u) = u.
Proof. done. Qed.

Lemma file_name_inj u v : file_name u = file_name v → u = v.
Proof. unfold file_name. intros [= H]. done. Qed.

(** One entry after the other; the entries still to come are in the repository. *)
Lemma event_init_loop_spec es : ∀ r m,
  stored dir r m → NoDup (snd <$> es) →
  (∀ doc len n, (doc, len, n) ∈ es → ∃ u, m !! u = Some doc ∧ n = file_name u) →
  ∃ ds r' m', event_init_loop es r = Some (ds, r') ∧ stored dir r' m' ∧
    (∀ u doc, m' !! u = Some doc ↔ m !! u = Some doc ∧ (file_name u ∈ snd <$> es → survives doc = true)) ∧
    (∀ u doc, (u, doc) ∈ ds ↔ m !! u = Some doc ∧ file_name u ∈ snd <$> es ∧ survives doc = true) ∧ NoDup ds.*1.
Proof using Hstrtod Hdir.
  induction es as [|[[doc len] n] es IH]; intros r m Hs Hnd Hes.
  { exists [], r, m. split_and!; [done|done| | |constructor].
    - intros u d. split; [by intros ?; split; [|intros ?%elem_of_nil]|by intros []].
    - intros u d. split; [by intros ?%elem_of_nil|by intros (_ & ?%elem_of_nil & _)]. }
  rewrite fmap_cons in *. cbn [snd] in *. apply NoDup_cons in Hnd as [Hn Hnd].
  destruct (Hes doc len n) as (u0 & Hu0 & ->); [by left|].
  assert (Hes' : ∀ d l n, (d, l, n) ∈ es → ∃ u, u ≠ u0 ∧ m !! u = Some d ∧ n = file_name u).
  { intros d l n Hin. destruct (Hes d l n) as (u & Hu & ->); [by right|]. exists u. split_and!; [|done|done].
    intros ->. apply Hn. apply list_elem_of_fmap. by exists (d, l, file_name u0). }
  cbn [event_init_loop]. rewrite clean_spec, file_name_uuid. cbn [fst mbind option_bind].
  destruct (survives doc) eqn:Esv; cbn [mbind option_bind].
  - destruct (IH r m Hs Hnd) as (ds & r' & m' & E & Hs' & Hm' & Hds & Hnd').
    { intros d l n Hin. destruct (Hes' d l n Hin) as (u & _ & ? & ?). by exists u. }
    exists ((u0, doc) :: ds), r', m'. rewrite E. cbn [mbind option_bind Z.eqb]. split_and!; [done|done| | |].
    + intros u d. rewrite Hm', elem_of_cons. split; intros [H1 H2]; (split; [done|]); [|naive_solver].
      intros [<-%file_name_inj|?]; [by simplify_eq|by apply H2].
    + intros u d. rewrite !elem_of_cons, Hds. split.
      * intros [[= -> ->]|(H1 & H2 & H3)]; [by split_and!; [|left|]|by split_and!; [|right|]].
      * intros (H1 & [<-%file_name_inj|H2] & H3); [left; by simplify_eq|by right].
    + cbn [fmap list_fmap fst]. apply NoDup_cons. split; [|done].
      intros ([u d] & -> & (_ & H2 & _)%Hds)%list_elem_of_fmap. done.
  - destruct Hs as [Hi Hr]. pose proof (rep_ids _ _ _ Hr _ _ Hu0) as Hok.
    set (r1 := (LocalSubscriptionOpDelete dir u0 r).2).
    assert (Hs1 : stored dir r1 (delete u0 m)).
    { unfold r1, LocalSubscriptionOpDelete. rewrite Hi, (path_uncut dir Hdir u0 Hok). cbn [negb snd].
      split; [done|]. by apply represents_delete. }
    destruct (IH r1 (delete u0 m) Hs1 Hnd) as (ds & r' & m' & E & Hs' & Hm' & Hds & Hnd').
    { intros d l n Hin. destruct (Hes' d l n Hin) as (u & Hne & ? & ?). exists u. by rewrite lookup_delete_ne. }
    exists ds, r', m'. rewrite E. cbn [mbind option_bind Z.eqb]. split_and!; [done|done| | |done].
    + intros u d. rewrite Hm', elem_of_cons, lookup_delete_Some. split.
      * intros [[Hne H1] H2]. split; [done|]. intros [->%file_name_inj|?]; [done|by apply H2].
      * intros [H1 H2]. split; [split; [|done]|by intros ?; apply H2; right]. intros <-. simplify_eq.
        rewrite H2 in Esv; [done|by left].
    + intros u d. rewrite elem_of_cons, Hds, lookup_delete_Some. split.
      * intros ([Hne H1] & H2 & H3). by split_and!; [|right|].
      * intros (H1 & [->%file_name_inj|H2] & H3); [congruence|]. split_and!; [|done|done|done].
        intros <-. done.
Qed.

End Restart.

(** ** Examples *)

Definition sample_linker : Linker := {|
  dlopen f := if str_eqb f "/lib/a.so" then Some 1%positive else if str_eqb f "/lib/b.so" then Some 2%positive else None;
  dlsym h f := true;
  plugin_init_ok h := true;
  plugin_interface h := (if decide (h = 1%positive) then "2.4" else "2.3", InterfaceInfo None None []);
|}.

Lemma usable_plugins_registered_witness :
  ∃ plugins hs,
    @wsman_plugins_load sample_linker None (StrP "/lib") (λ _, Some [".."; "a.so"; "b.so"; "c.so"; "x.la"]) = Some (plugins, hs) ∧
    length plugins = 2%nat ∧
    @wsman_init_plugins sample_linker "2.4" plugins = ws_create_runtime (Some [InterfaceInfo None None []]) ∧
    wsman_plugins_unload plugins hs = [].
Proof.
  destruct (@usable_plugins_registered sample_linker "2.4" None (StrP "/lib") "/lib"
    (λ _, Some [".."; "a.so"; "b.so"; "c.so"; "x.la"]) [".."; "a.so"; "b.so"; "c.so"; "x.la"]) as (ps & hs & E & H1 & H2);
    [done|done|by intros|].
  exists ps, hs. split_and!; [exact E| |exact H1|exact H2]. vm_compute in E. by injection E as <- <-.
Defined.

(** Documents of a subscription with an expiry time, or without. *)
Definition subscription_doc (expires : option string) : xnode :=
  XElement (Some XML_NS_SOAP_1_2) SOAP_ENVELOPE []
    [XElement (Some XML_NS_SOAP_1_2) SOAP_HEADER [] [];
     XElement (Some XML_NS_SOAP_1_2) SOAP_BODY []
       [XElement (Some XML_NS_EVENTING) WSEVENT_SUBSCRIBE []
          (match expires with
           | Some t => [@xmlNewNodeContent TreeXml (Some XML_NS_EVENTING) WSEVENT_EXPIRES (Some t)]
           | None => []
           end)]].

Definition sample_parse (s : string) : option xnode :=
  Some (subscription_doc (if str_eqb s "endless" then None else Some s)).

