(* ===== verification/Daemon.v ===== *)
(** * The daemon's settings and its end

    The static variables of src/src/server/wsmand-daemon.c that the
    configuration file sets, the order of shutting down, and what
    src/src/server/wsmand.c does before it starts the listener. *)

From S2P Require Import Prelude CString Uri Ini Options.
From Stdlib Require Import Ascii.
Local Open Scope string_scope.
Local Open Scope list_scope.
Local Open Scope Z_scope.
Local Open Scope ow_scope.

Definition DEFAULT_SERVICE_PATH : string := "/wsman".
Definition ANON_IDENTIFY_PATH : string := "/wsman-anon/identify".
Definition DEFAULT_CIMINDICATION_PATH : string := "/cimindicationlistener".
Definition DEFAULT_PID_PATH : string := "/var/run/wsmand.pid".
Definition DEFAULT_BASIC_AUTH : string := "libwsman_file_auth.so".

(** What the build defines. *)
Record build := Build {
  DEFAULT_SUBSCRIPTION_REPOSITORY : string;
  DEFAULT_CONFIG_FILE : string;
  PACKAGE_AUTH_DIR : string;
  PACKAGE_PLUGIN_DIR : string;
  ENABLE_IPV6 : bool;
  ENABLE_EVENTING_SUPPORT : bool;
}.

Record settings := Settings {
  server_port : Z;
  server_ssl_port : Z;
  use_ipv4 : Z;
  use_ipv6 : Z;
  use_digest : Z;
  ssl_key_file : char_ptr;
  service_path : char_ptr;
  ssl_cert_file : char_ptr;
  ssl_disabled_protocols : char_ptr;
  ssl_cipher_list : char_ptr;
  pid_file : char_ptr;
  uri_subscription_repository : char_ptr;
  daemon_flag : Z;
  no_plugin_flag : Z;
  use_ssl : Z;
  debug_level : Z;
  foreground_debug : Z;
  syslog_level : Z;
  log_location : char_ptr;
  digest_password_file : char_ptr;
  basic_password_file : char_ptr;
  custom_anon_identify_file : char_ptr;
  custom_identify_file : char_ptr;
  basic_authenticator_arg : char_ptr;
  basic_authenticator : char_ptr;
  max_threads : Z;
  enumIdleTimeout : Z;
  thread_stack_size : char_ptr;
  max_connections_per_thread : Z;
  auth_dir : char_ptr;
  plugin_dir : char_ptr;
  config_file : char_ptr;
  (** The repository the server was told, [wsman_server_set_subscription_repos]. *)
  subscription_repos : option char_ptr;
}.

Definition initial_settings (b : build) : settings := {|
  server_port := -1; server_ssl_port := -1; use_ipv4 := 1; use_ipv6 := 0; use_digest := 0;
  ssl_key_file := NULLp; service_path := StrP DEFAULT_SERVICE_PATH; ssl_cert_file := NULLp;
  ssl_disabled_protocols := NULLp; ssl_cipher_list := NULLp; pid_file := StrP DEFAULT_PID_PATH;
  uri_subscription_repository := StrP (DEFAULT_SUBSCRIPTION_REPOSITORY b);
  daemon_flag := 0; no_plugin_flag := 0; use_ssl := 0; debug_level := -1; foreground_debug := 0;
  syslog_level := -1; log_location := NULLp; digest_password_file := NULLp;
  basic_password_file := NULLp; custom_anon_identify_file := NULLp; custom_identify_file := NULLp;
  basic_authenticator_arg := NULLp; basic_authenticator := StrP DEFAULT_BASIC_AUTH;
  max_threads := 1; enumIdleTimeout := 100; thread_stack_size := StrP "0";
  max_connections_per_thread := 20; auth_dir := StrP (PACKAGE_AUTH_DIR b);
  plugin_dir := StrP (PACKAGE_PLUGIN_DIR b); config_file := NULLp; subscription_repos := None |}.

(** The process goes on with a result, or exits with a code. *)
Inductive outcome (A : Type) := Returns (a : A) | Exits (code : Z).
Arguments Returns {A}.
Arguments Exits {A}.

Definition wsmand_read_config (b : build) (ini : option dictionary) (s : settings)
  : option (outcome (Z * settings)) :=
  if negb (iniparser_find_entry ini (Some "server")) then Some (Returns (0, s))
  else
    let getstr k := iniparser_getstr ini (Some k) in
    let getstring k def := iniparser_getstring ini (Some k) def in
    port ← iniparser_getint ini (Some "server:port") 5985;
    ssl_port ← iniparser_getint ini (Some "server:ssl_port") 5986;
    level ← iniparser_getint ini (Some "server:debug_level") 0;
    idle ← iniparser_getint ini (Some "server:enum_idle_timeout") 100;
    ipv4 ← iniparser_getboolean ini (Some "server:ipv4") 1;
    ipv6 ← (if ENABLE_IPV6 b then iniparser_getboolean ini (Some "server:ipv6") 1
            else Some (use_ipv6 s));
    if ENABLE_IPV6 b && (ipv4 =? 0) && (ipv6 =? 0) then Some (Exits 1)
    else
      digest ← iniparser_getboolean ini (Some "server:use_digest") 0;
      threads ← iniparser_getint ini (Some "server:max_threads") 0;
      conns' ← iniparser_getint ini (Some "server:max_connextions_per_thread") 20;
      conns ← iniparser_getint ini (Some "server:max_connections_per_thread") conns';
      let repo := getstring "server:subs_repository" (StrP (DEFAULT_SUBSCRIPTION_REPOSITORY b)) in
      Some (Returns (1, {|
        server_port := port; server_ssl_port := ssl_port; use_ipv4 := ipv4; use_ipv6 := ipv6;
        use_digest := digest; ssl_key_file := getstr "server:ssl_key_file";
        service_path := getstring "server:service_path" (StrP "/wsman");
        ssl_cert_file := getstr "server:ssl_cert_file";
        ssl_disabled_protocols := getstr "server:ssl_disabled_protocols";
        ssl_cipher_list := getstr "server:ssl_cipher_list"; pid_file := pid_file s;
        uri_subscription_repository := repo;
        daemon_flag := daemon_flag s; no_plugin_flag := no_plugin_flag s; use_ssl := use_ssl s;
        debug_level := level; foreground_debug := foreground_debug s; syslog_level := syslog_level s;
        log_location := getstr "server:log_location";
        digest_password_file := getstr "server:digest_password_file";
        basic_password_file := getstring "server:basic_password_file" (basic_password_file s);
        custom_anon_identify_file := getstr "server:anon_identify_file";
        custom_identify_file := getstr "server:identify_file";
        basic_authenticator_arg := getstr "server:basic_authenticator_arg";
        basic_authenticator := getstr "server:basic_authenticator";
        max_threads := threads; enumIdleTimeout := wrap64 idle;
        thread_stack_size := getstring "server:thread_stack_size" (StrP "0");
        max_connections_per_thread := conns; auth_dir := auth_dir s; plugin_dir := plugin_dir s;
        config_file := config_file s;
        subscription_repos :=
          if ENABLE_EVENTING_SUPPORT b then Some repo else subscription_repos s |})).

(** [strtoul(s, NULL, 10)]: the value, or [None] when [errno] is set. *)
Definition strtoul (s : string) : option Z :=
  match scan_int s with
  | Some (v, _) => if Z.abs v <=? ULONG_MAX then Some (wrap64 v) else None
  | None => Some 0
  end.

Definition wsmand_options_get_thread_stack_size (s : settings) : option Z :=
  match thread_stack_size s with
  | StrP t => Some (match strtoul t with Some v => wrap32 v | None => 0 end)
  | _ => None
  end.

(** A path that begins with a dot counts as absolute. *)
Definition u_path_is_absolute (filename : string) : bool :=
  match filename with
  | String a _ => (code a =? 46) || (code a =? 47)
  | EmptyString => false
  end.

(** The settings with the variables of the command line replaced. *)
Definition with_cmdline (s : settings) (ssl fg idle : Z) (cfg pid repo auth pass plug : char_ptr) : settings :=
  {| server_port := server_port s; server_ssl_port := server_ssl_port s; use_ipv4 := use_ipv4 s;
     use_ipv6 := use_ipv6 s; use_digest := use_digest s; ssl_key_file := ssl_key_file s;
     service_path := service_path s; ssl_cert_file := ssl_cert_file s;
     ssl_disabled_protocols := ssl_disabled_protocols s; ssl_cipher_list := ssl_cipher_list s;
     pid_file := pid; uri_subscription_repository := repo;
     daemon_flag := daemon_flag s; no_plugin_flag := no_plugin_flag s; use_ssl := ssl;
     debug_level := debug_level s; foreground_debug := fg;
     syslog_level := syslog_level s; log_location := log_location s;
     digest_password_file := digest_password_file s; basic_password_file := pass;
     custom_anon_identify_file := custom_anon_identify_file s;
     custom_identify_file := custom_identify_file s;
     basic_authenticator_arg := basic_authenticator_arg s; basic_authenticator := basic_authenticator s;
     max_threads := max_threads s; enumIdleTimeout := idle;
     thread_stack_size := thread_stack_size s;
     max_connections_per_thread := max_connections_per_thread s; auth_dir := auth;
     plugin_dir := plug; config_file := cfg; subscription_repos := subscription_repos s |}.

Definition set_config_file (s : settings) (f : char_ptr) : settings :=
  with_cmdline s (use_ssl s) (foreground_debug s) (enumIdleTimeout s) f (pid_file s)
    (uri_subscription_repository s) (auth_dir s) (basic_password_file s) (plugin_dir s).

(** ** The command line *)

Definition option_entry (n : string) (c : ascii) (k : Z) (d : string) (a : option string)
  : option u_option_entry := Some (Entry n (code c) k true (Some d) a).

(** The table of [wsmand_parse_options]. *)
Definition wsmand_entries : list (option u_option_entry) :=
  [ option_entry "ssl" "S" U_OPTION_ARG_NONE "Use SSL port" None;
    option_entry "version" "q" U_OPTION_ARG_NONE "Display application version" None;
    option_entry "debug" "d" U_OPTION_ARG_NONE "Start daemon in foreground and turn on debugging" None;
    option_entry "syslog" "s" U_OPTION_ARG_INT "Set the verbosity of syslog output." (Some "0-6");
    option_entry "enum-idle-timeout" "e" U_OPTION_ARG_INT "Enumeration Idle timeout in secs" (Some "default 100");
    option_entry "config-file" "c" U_OPTION_ARG_STRING "Alternate configuration file" (Some "<file>");
    option_entry "pid-file" "p" U_OPTION_ARG_STRING "PID file" (Some "<file>");
    option_entry "subscription-repository-location" "r" U_OPTION_ARG_STRING "Subscription Repository Location" (Some "<uri>");
    option_entry "auth-dir" "a" U_OPTION_ARG_STRING "Authentication plugin dir (testing)" (Some "<directory>");
    option_entry "basic-password-file" "b" U_OPTION_ARG_STRING "Basic password file (testing)" (Some "<file>");
    option_entry "plugin-dir" "P" U_OPTION_ARG_STRING "Dispatcher plugins directory (testing)" (Some "<directory>");
    None ].

(** The assignment to the variable of an entry.  A [long] is written to
    [syslog_level], an [int], beyond its end.  The boolean is [version != NULL]. *)
Definition assign_option (sv : option (settings * bool)) (a : nat * assigned) : option (settings * bool) :=
  '(s, version) ← sv;
  let upd := with_cmdline s in
  match a with
  | (0%nat, AFlag n) =>
      Some (upd n (foreground_debug s) (enumIdleTimeout s) (config_file s) (pid_file s)
        (uri_subscription_repository s) (auth_dir s) (basic_password_file s) (plugin_dir s), version)
  | (1%nat, AFlag n) => Some (s, negb (n =? 0))
  | (2%nat, AFlag n) =>
      Some (upd (use_ssl s) n (enumIdleTimeout s) (config_file s) (pid_file s)
        (uri_subscription_repository s) (auth_dir s) (basic_password_file s) (plugin_dir s), version)
  | (4%nat, AInt n) =>
      Some (upd (use_ssl s) (foreground_debug s) (wrap64 n) (config_file s) (pid_file s)
        (uri_subscription_repository s) (auth_dir s) (basic_password_file s) (plugin_dir s), version)
  | (5%nat, AString f) =>
      Some (upd (use_ssl s) (foreground_debug s) (enumIdleTimeout s) (ptr_of f) (pid_file s)
        (uri_subscription_repository s) (auth_dir s) (basic_password_file s) (plugin_dir s), version)
  | (6%nat, AString f) =>
      Some (upd (use_ssl s) (foreground_debug s) (enumIdleTimeout s) (config_file s) (ptr_of f)
        (uri_subscription_repository s) (auth_dir s) (basic_password_file s) (plugin_dir s), version)
  | (7%nat, AString f) =>
      Some (upd (use_ssl s) (foreground_debug s) (enumIdleTimeout s) (config_file s) (pid_file s)
        (ptr_of f) (auth_dir s) (basic_password_file s) (plugin_dir s), version)
  | (8%nat, AString f) =>
      Some (upd (use_ssl s) (foreground_debug s) (enumIdleTimeout s) (config_file s) (pid_file s)
        (uri_subscription_repository s) (ptr_of f) (basic_password_file s) (plugin_dir s), version)
  | (9%nat, AString f) =>
      Some (upd (use_ssl s) (foreground_debug s) (enumIdleTimeout s) (config_file s) (pid_file s)
        (uri_subscription_repository s) (auth_dir s) (ptr_of f) (plugin_dir s), version)
  | (10%nat, AString f) =>
      Some (upd (use_ssl s) (foreground_debug s) (enumIdleTimeout s) (config_file s) (pid_file s)
        (uri_subscription_repository s) (auth_dir s) (basic_password_file s) (ptr_of f), version)
  | _ => None
  end.

Definition wsmand_context : option u_option_context :=
  let ctx := u_option_context_new (Some "WS-Management Server") in
  let ctx := u_option_context_set_ignore_unknown_options ctx 0 in
  u_option_context_add_main_entries ctx wsmand_entries (Some "wsman").

Definition wsmand_parse_options (argv : list string) (s : settings) : option (outcome (Z * settings)) :=
  ctx ← wsmand_context;
  r ← u_option_context_parse ctx argv;
  let retval := if pr_error r is Some _ then 0 else pr_retval r in
  '(s, version) ← foldl assign_option (Some (s, false)) (pr_assigned r);
  Some (if version : bool then Exits 0 else Returns (retval, s)).

(** [cwd]: what [getcwd] yields. *)
Definition wsmand_options_get_config_file (b : build) (cwd : option string) (s : settings)
  : string * settings :=
  let f := match config_file s with StrP f => f | _ => DEFAULT_CONFIG_FILE b end in
  let f :=
    if negb (u_path_is_absolute f) then
      match cwd with Some p => p +:+ "/" +:+ f | None => f end
    else f in
  (f, set_config_file s (StrP f)).

Definition wsmand_options_get_foreground_debug (s : settings) : Z :=
  if negb (foreground_debug s =? 0) then 6 else -1.

Definition wsmand_options_disable_use_ipv6 (s : settings) : settings :=
  {| server_port := server_port s; server_ssl_port := server_ssl_port s; use_ipv4 := use_ipv4 s;
     use_ipv6 := 0; use_digest := use_digest s; ssl_key_file := ssl_key_file s;
     service_path := service_path s; ssl_cert_file := ssl_cert_file s;
     ssl_disabled_protocols := ssl_disabled_protocols s; ssl_cipher_list := ssl_cipher_list s;
     pid_file := pid_file s; uri_subscription_repository := uri_subscription_repository s;
     daemon_flag := daemon_flag s; no_plugin_flag := no_plugin_flag s; use_ssl := use_ssl s;
     debug_level := debug_level s; foreground_debug := foreground_debug s;
     syslog_level := syslog_level s; log_location := log_location s;
     digest_password_file := digest_password_file s; basic_password_file := basic_password_file s;
     custom_anon_identify_file := custom_anon_identify_file s;
     custom_identify_file := custom_identify_file s;
     basic_authenticator_arg := basic_authenticator_arg s; basic_authenticator := basic_authenticator s;
     max_threads := max_threads s; enumIdleTimeout := enumIdleTimeout s;
     thread_stack_size := thread_stack_size s;
     max_connections_per_thread := max_connections_per_thread s; auth_dir := auth_dir s;
     plugin_dir := plugin_dir s; config_file := config_file s;
     subscription_repos := subscription_repos s |}.

(** The part of [main] (wsmand.c) that reads the configuration: [files] are the
    files of the system.  It returns the settings the listener is started with,
    or the process ends. *)
Definition main_config (b : build) (files : string → option string) (cwd : option string) (s : settings)
  : option (outcome (settings * dictionary)) :=
  let '(filename, s) := wsmand_options_get_config_file b cwd s in
  iniparser_new (files filename) ≫= λ ini : option dictionary,
  match ini with
  | None => Some (Exits 1)
  | Some ini =>
      r ← wsmand_read_config b (Some ini) s;
      Some (match r with
            | Exits c => Exits c
            | Returns (r, s) => if r =? 0 then Exits 1 else Returns (s, ini)
            end)
  end.

(** [main] up to [daemonize]. *)
Definition main_start (b : build) (files : string → option string) (cwd : option string)
    (argv : list string) : option (outcome (settings * dictionary)) :=
  r ← wsmand_parse_options argv (initial_settings b);
  match r with
  | Exits c => Some (Exits c)
  | Returns (ok, s) => if ok =? 0 then Some (Exits 1) else main_config b files cwd s
  end.

(** ** Shutting down *)

(** A handler: the function and its argument. *)
Record handler := Handler { h_fn : Z; h_data : Z }.

Record shut_state := Shut {
  shutdown_handlers : option (list handler);
  shutdown_counter : Z;
  shutdown_pending : bool;
  shutting_down : bool;
}.

(** The process goes on, or the handlers run, in this order, and then it exits
    or is replaced by a new one. *)
Inductive shut_result :=
| Alive (s : shut_state)
| Ended (calls : list handler) (restart : bool).

(** [fn] is [None] for a NULL pointer. *)
Definition wsmand_shutdown_add_handler (fn : option Z) (user_data : Z) (s : shut_state) : shut_state :=
  match fn with
  | None => s
  | Some f =>
      Shut (Some (Handler f user_data :: default [] (shutdown_handlers s)))
           (shutdown_counter s) (shutdown_pending s) (shutting_down s)
  end.

Definition wsmand_shutdown_block (s : shut_state) : shut_state :=
  if shutdown_counter s <? 0 then s
  else Shut (shutdown_handlers s) (shutdown_counter s + 1) (shutdown_pending s) (shutting_down s).

(** The handlers are called from the first of the list to the last, then
    [exit] or [execv] ends the program. *)
Definition shutdown_idle_cb (restart : bool) (s : shut_state) : shut_result :=
  Ended (default [] (shutdown_handlers s)) restart.

Definition do_shutdown (restart : bool) (s : shut_state) : shut_result :=
  if 0 <? shutdown_counter s then
    Alive (Shut (shutdown_handlers s) (shutdown_counter s) true (shutting_down s))
  else if shutting_down s then Alive s
  else
    shutdown_idle_cb restart
      (Shut (shutdown_handlers s) (shutdown_counter s) (shutdown_pending s) true).

Definition wsmand_shutdown (s : shut_state) : shut_result := do_shutdown false s.
Definition wsmand_restart (s : shut_state) : shut_result := do_shutdown true s.

Definition wsmand_shutdown_allow (s : shut_state) : shut_result :=
  if shutdown_counter s <=? 0 then Alive s
  else
    let s := Shut (shutdown_handlers s) (shutdown_counter s - 1) (shutdown_pending s) (shutting_down s) in
    if (shutdown_counter s =? 0) && shutdown_pending s then wsmand_shutdown s else Alive s.

(** ** Writing the pid file *)

(** The result of a call of [write]. *)
Inductive write_result := Wrote (n : nat) | WAgain | WFail.

(** The bytes that reached the file and the result of [rc_write]; [rs] are the
    results of the calls, [None] when they do not suffice. *)
Fixpoint rc_write_loop (rs : list write_result) (buf : list Z) (out : list Z) : option (list Z * bool) :=
  match buf with
  | [] => Some (out, true)
  | _ =>
      match rs with
      | [] => None
      | WAgain :: rs => rc_write_loop rs buf out
      | WFail :: _ => Some (out, false)
      | Wrote n :: rs => rc_write_loop rs (drop n buf) (out ++ take n buf)
      end
  end.

Definition rc_write (rs : list write_result) (buf : list Z) : option (list Z * bool) :=
  rc_write_loop rs buf [].

(** ** What the settings come from *)

(** A value of the configuration as an integer, a boolean and a string. *)
Definition cfg_int (m : gmap string (option string)) (k : string) (def : Z) : Z :=
  match m !! k with Some (Some v) => atoi v | _ => def end.
Definition cfg_bool (m : gmap string (option string)) (k : string) (def : Z) : Z :=
  match m !! k with
  | Some (Some v) =>
      if first_is v ["y"; "Y"; "1"; "t"; "T"]%char then 1
      else if first_is v ["n"; "N"; "0"; "f"; "F"]%char then 0 else def
  | _ => def
  end.
Definition cfg_str (m : gmap string (option string)) (k : string) (def : char_ptr) : char_ptr :=
  match m !! k with Some v => ptr_of v | None => def end.

(** The keys that are read as numbers and booleans; none may be the name of a
    section. *)
Definition number_keys : list string :=
  ["server:port"; "server:ssl_port"; "server:debug_level"; "server:enum_idle_timeout";
   "server:max_threads"; "server:max_connextions_per_thread"; "server:max_connections_per_thread";
   "server:ipv4"; "server:ipv6"; "server:use_digest"].

Definition values_present (m : gmap string (option string)) : bool :=
  forallb (λ k, negb (bool_decide (m !! k = Some None))) number_keys.

Lemma values_present_spec m k : values_present m = true → k ∈ number_keys → m !! k ≠ Some None.
Proof.
  unfold values_present. intros Hm Hk. rewrite forallb_forall in Hm.
  apply list_elem_of_In, Hm, negb_true_iff, bool_decide_eq_false in Hk. done.
Qed.

Section Config.
Context (d : dictionary) (m : gmap string (option string)).
Hypothesis Hd : ∀ k def, iniparser_getstring (Some d) (Some k) def =
  match m !! norm_key k with Some v => ptr_of v | None => def end.
Hypothesis Hv : values_present m = true.

Lemma getint_cfg k def :
  norm_key k = k → k ∈ number_keys → iniparser_getint (Some d) (Some k) def = Some (cfg_int m k def).
Proof using Hd Hv.
  intros Hk Hin. unfold iniparser_getint, cfg_int. rewrite Hd, Hk.
  pose proof (values_present_spec m k Hv Hin). by destruct (m !! k) as [[v|]|].
Qed.

Lemma getboolean_cfg k def :
  norm_key k = k → k ∈ number_keys → iniparser_getboolean (Some d) (Some k) def = Some (cfg_bool m k def).
Proof using Hd Hv.
  intros Hk Hin. unfold iniparser_getboolean, cfg_bool. rewrite Hd, Hk.
  pose proof (values_present_spec m k Hv Hin). by destruct (m !! k) as [[v|]|].
Qed.

Lemma getstring_cfg k def :
  norm_key k = k → iniparser_getstring (Some d) (Some k) def = cfg_str m k def.
Proof using Hd. intros Hk. by rewrite Hd, Hk. Qed.

Lemma read_config_cfg b s :
  wsmand_read_config b (Some d) s =
  Some (if bool_decide (m !! "server" = None) then Returns (0, s)
        else if ENABLE_IPV6 b && (cfg_bool m "server:ipv4" 1 =? 0) && (cfg_bool m "server:ipv6" 1 =? 0)
        then Exits 1
        else
          let repo := cfg_str m "server:subs_repository" (StrP (DEFAULT_SUBSCRIPTION_REPOSITORY b)) in
          Returns (1, {|
            server_port := cfg_int m "server:port" 5985;
            server_ssl_port := cfg_int m "server:ssl_port" 5986;
            use_ipv4 := cfg_bool m "server:ipv4" 1;
            use_ipv6 := if ENABLE_IPV6 b then cfg_bool m "server:ipv6" 1 else use_ipv6 s;
            use_digest := cfg_bool m "server:use_digest" 0;
            ssl_key_file := cfg_str m "server:ssl_key_file" NULLp;
            service_path := cfg_str m "server:service_path" (StrP "/wsman");
            ssl_cert_file := cfg_str m "server:ssl_cert_file" NULLp;
            ssl_disabled_protocols := cfg_str m "server:ssl_disabled_protocols" NULLp;
            ssl_cipher_list := cfg_str m "server:ssl_cipher_list" NULLp;
            pid_file := pid_file s; uri_subscription_repository := repo;
            daemon_flag := daemon_flag s; no_plugin_flag := no_plugin_flag s; use_ssl := use_ssl s;
            debug_level := cfg_int m "server:debug_level" 0;
            foreground_debug := foreground_debug s; syslog_level := syslog_level s;
            log_location := cfg_str m "server:log_location" NULLp;
            digest_password_file := cfg_str m "server:digest_password_file" NULLp;
            basic_password_file := cfg_str m "server:basic_password_file" (basic_password_file s);
            custom_anon_identify_file := cfg_str m "server:anon_identify_file" NULLp;
            custom_identify_file := cfg_str m "server:identify_file" NULLp;
            basic_authenticator_arg := cfg_str m "server:basic_authenticator_arg" NULLp;
            basic_authenticator := cfg_str m "server:basic_authenticator" NULLp;
            max_threads := cfg_int m "server:max_threads" 0;
            enumIdleTimeout := wrap64 (cfg_int m "server:enum_idle_timeout" 100);
            thread_stack_size := cfg_str m "server:thread_stack_size" (StrP "0");
            max_connections_per_thread :=
              cfg_int m "server:max_connections_per_thread"
                (cfg_int m "server:max_connextions_per_thread" 20);
            auth_dir := auth_dir s; plugin_dir := plugin_dir s; config_file := config_file s;
            subscription_repos :=
              if ENABLE_EVENTING_SUPPORT b then Some repo else subscription_repos s |})).
Proof using Hd Hv.
  unfold wsmand_read_config, iniparser_find_entry. rewrite Hd.
  change (norm_key "server") with "server".
  destruct (m !! "server") as [v|] eqn:Hs; [|done].
  rewrite bool_decide_eq_false_2 by done. assert (negb (match ptr_of v with INI_INVALID_KEY => false | _ => true end) = false) as -> by by destruct v.
  unfold iniparser_getstr. rewrite !getint_cfg by (done || set_solver).
  rewrite !getboolean_cfg by (done || set_solver). cbn [mbind option_bind].
  rewrite !getstring_cfg by done.
  destruct (ENABLE_IPV6 b); cbn [andb mbind option_bind];
    [destruct (_ && _); [done|]|]; rewrite !getint_cfg by (done || set_solver);
    rewrite ?getboolean_cfg by (done || set_solver); done.
Qed.
End Config.

(** The file the daemon reads: the default or the one of the command line, in
    the working directory unless it begins with a slash or a dot. *)
Definition config_path (b : build) (cwd : option string) (s : settings) : string :=
  (wsmand_options_get_config_file b cwd s).1.

(** The daemon configured from a file.  Without the file, without a section
    "server" or with both versions of IP turned off it ends with status 1;
    otherwise each setting is the value of its key or its default, and what only
    the command line sets is kept.  The idle timeout and the subscription
    repository of the command line are lost, and a missing "basic_authenticator"
    leaves no authenticator although the variable was initialised with one. *)
Theorem daemon_configured (b : build) (files : string → option string) (cwd : option string)
    (s : settings) (l : list item) :
  files (config_path b cwd s) = Some (print_items l) →
  Forall (λ i, item_ok i = true) l → Z.of_nat (length l) ≤ 2 ^ 26 →
  values_present (items_map l) = true →
  let m := items_map l in
  let no_ip := ENABLE_IPV6 b && (cfg_bool m "server:ipv4" 1 =? 0) && (cfg_bool m "server:ipv6" 1 =? 0) in
  main_config b (λ _, None) cwd s = Some (Exits 1) ∧
  (m !! "server" = None ∨ no_ip = true → main_config b files cwd s = Some (Exits 1)) ∧
  (is_Some (m !! "server") → no_ip = false →
   ∃ s' d, main_config b files cwd s = Some (Returns (s', d)) ∧
     server_port s' = cfg_int m "server:port" 5985 ∧
     server_ssl_port s' = cfg_int m "server:ssl_port" 5986 ∧
     service_path s' = cfg_str m "server:service_path" (StrP "/wsman") ∧
     ssl_key_file s' = cfg_str m "server:ssl_key_file" NULLp ∧
     ssl_cert_file s' = cfg_str m "server:ssl_cert_file" NULLp ∧
     use_digest s' = cfg_bool m "server:use_digest" 0 ∧
     basic_password_file s' = cfg_str m "server:basic_password_file" (basic_password_file s) ∧
     basic_authenticator s' = cfg_str m "server:basic_authenticator" NULLp ∧
     max_connections_per_thread s' = cfg_int m "server:max_connections_per_thread"
       (cfg_int m "server:max_connextions_per_thread" 20) ∧
     enumIdleTimeout s' = wrap64 (cfg_int m "server:enum_idle_timeout" 100) ∧
     uri_subscription_repository s' =
       cfg_str m "server:subs_repository" (StrP (DEFAULT_SUBSCRIPTION_REPOSITORY b)) ∧
     use_ssl s' = use_ssl s ∧ pid_file s' = pid_file s ∧ plugin_dir s' = plugin_dir s ∧
     auth_dir s' = auth_dir s ∧ foreground_debug s' = foreground_debug s).
Proof.
  intros Hf Hok Hlen Hv m no_ip. unfold config_path in Hf. unfold main_config.
  destruct (wsmand_options_get_config_file b cwd s) as [f s1] eqn:Hcf. simpl in Hf. split; [done|].
  assert (Hs1 : s1 = set_config_file s (StrP f)).
  { unfold wsmand_options_get_config_file in Hcf. by simplify_eq. }
  destruct (load_config l Hok Hlen) as (d & Hnew & Hget). rewrite Hf, Hnew. cbn [mbind option_bind].
  rewrite (read_config_cfg d m Hget Hv). cbn [mbind option_bind]. fold no_ip. split.
  - intros [Hn| ->]; [by rewrite bool_decide_eq_true_2|]. by destruct (bool_decide _).
  - intros [v Hs] ->. rewrite bool_decide_eq_false_2 by by rewrite Hs. cbn iota. eexists _, d.
    split; [reflexivity|]. subst s1. simpl. split_and!; done.
Qed.

Definition sample_build : build := Build "/var/subs" "/etc/openwsman.conf" "/auth" "/plugins" true true.
Definition sample_files (f : string) : option string :=
  if str_eqb f "/etc/openwsman.conf" then Some (print_items sample_items) else None.

Lemma daemon_configured_witness :
  ∃ s d, main_config sample_build sample_files None (initial_settings sample_build) = Some (Returns (s, d)) ∧
         server_port s = 5986 ∧ basic_authenticator s = NULLp.
Proof.
  destruct (daemon_configured sample_build sample_files None (initial_settings sample_build) sample_items)
    as (_ & _ & H); [reflexivity|repeat constructor|vm_compute; discriminate|vm_compute; reflexivity|].
  destruct H as (s & d & H1 & H2 & _ & _ & _ & _ & _ & _ & H3 & _);
    [vm_compute; eexists; reflexivity|vm_compute; reflexivity|].
  exists s, d. split; [exact H1|]. rewrite H2, H3. split; vm_compute; reflexivity.
Defined.

(** A request for help does not end the daemon: the options' parser returns
    2, which [main] takes for success, so that the configuration is read and the
    daemon goes on as without the option. *)
Theorem help_does_not_end (b : build) (files : string → option string) (cwd : option string)
    (prog h : string) :
  h = "--help" ∨ h = "-?" →
  main_start b files cwd [prog; h] = main_start b files cwd [prog] ∧
  main_start b files cwd [prog; h] = main_config b files cwd (initial_settings b).
Proof. intros [-> | ->]; split; reflexivity. Qed.

Lemma help_does_not_end_witness :
  main_start sample_build sample_files None ["wsmand"; "--help"] =
  main_config sample_build sample_files None (initial_settings sample_build).
Proof.
  apply (help_does_not_end sample_build sample_files None "wsmand" "--help"). left. reflexivity.
Defined.

(** ** The order of shutting down *)

Inductive shut_op := OAdd (fn : option Z) (data : Z) | OBlock | OAllow | OShutdown | ORestart.

Definition shut_step (o : shut_op) (s : shut_state) : shut_result :=
  match o with
  | OAdd f u => Alive (wsmand_shutdown_add_handler f u s)
  | OBlock => Alive (wsmand_shutdown_block s)
  | OAllow => wsmand_shutdown_allow s
  | OShutdown => wsmand_shutdown s
  | ORestart => wsmand_restart s
  end.

Definition shut_init : shut_state := Shut None 0 false false.

(** The calls in order; nothing happens after the end of the process. *)
Definition shut_run (ops : list shut_op) : shut_result :=
  foldl (λ r o, match r with Alive s => shut_step o s | e => e end) (Alive shut_init) ops.

(** How often shutting down is blocked. *)
Definition depth (ops : list shut_op) : Z :=
  foldl (λ d o, match o with OBlock => d + 1 | OAllow => Z.max 0 (d - 1) | _ => d end) 0 ops.

Definition is_request (o : shut_op) : bool :=
  match o with OShutdown | ORestart => true | _ => false end.

(** The handlers of a sequence, as they were added. *)
Definition added (ops : list shut_op) : list handler :=
  omap (λ o, match o with OAdd (Some f) u => Some (Handler f u) | _ => None end) ops.

Definition shut_inv (ops : list shut_op) (s : shut_state) : Prop :=
  default [] (shutdown_handlers s) = rev (added ops) ∧ shutdown_counter s = depth ops ∧
  0 ≤ depth ops ∧ shutdown_pending s = existsb is_request ops ∧ shutting_down s = false ∧
  (shutdown_pending s = true → 0 < depth ops).

Lemma shut_snoc ops o :
  shut_run (ops ++ [o]) = match shut_run ops with Alive s => shut_step o s | e => e end.
Proof. unfold shut_run. rewrite foldl_app. simpl. by destruct (foldl _ _ ops). Qed.

Lemma depth_snoc ops o :
  depth (ops ++ [o]) =
  match o with OBlock => depth ops + 1 | OAllow => Z.max 0 (depth ops - 1) | _ => depth ops end.
Proof. unfold depth. by rewrite foldl_app. Qed.

Lemma added_snoc ops o :
  rev (added (ops ++ [o])) =
  match o with OAdd (Some f) u => Handler f u :: rev (added ops) | _ => rev (added ops) end.
Proof.
  unfold added. rewrite omap_app. destruct o as [[f|] u| | | |]; simpl; rewrite ?app_nil_r; try done.
  by rewrite rev_app_distr.
Qed.

(** One more call: the process goes on and the invariant holds, or it ends with
    the handlers run in reverse, unblocked, after a request. *)
Lemma shut_step_spec ops o s :
  shut_inv ops s →
  match shut_step o s with
  | Alive s' => shut_inv (ops ++ [o]) s'
  | Ended calls r =>
      calls = rev (added ops) ∧ depth (ops ++ [o]) = 0 ∧ existsb is_request (ops ++ [o]) = true ∧
      r = (if o is ORestart then true else false)
  end.
Proof.
  destruct s as [h c p sd]. unfold shut_inv. rewrite depth_snoc, added_snoc, existsb_app.
  cbn [shutdown_handlers shutdown_counter shutdown_pending shutting_down existsb is_request].
  intros (Hh & -> & Hd & -> & -> & Hp).
  destruct o as [[f|] u| | | |]; cbn [shut_step is_request]; unfold wsmand_shutdown_block,
    wsmand_shutdown_allow, wsmand_shutdown, wsmand_restart, do_shutdown, wsmand_shutdown_add_handler;
    cbn [shutdown_handlers shutdown_counter shutdown_pending shutting_down].
  - simpl. rewrite Hh, !orb_false_r. done.
  - by rewrite !orb_false_r.
  - destruct (depth ops <? 0) eqn:E; [lia|]. simpl. rewrite orb_false_r. split_and!; try done; lia.
  - rewrite !orb_false_r. destruct (depth ops <=? 0) eqn:E; simpl.
    + split_and!; try done; try lia. intros ?%Hp. lia.
    + destruct (depth ops - 1 =? 0) eqn:E1; simpl; [|split_and!; try done; lia].
      apply Z.eqb_eq in E1. rewrite E1. destruct (existsb is_request ops); simpl; split_and!; try done.
  - rewrite orb_true_r. destruct (0 <? depth ops) eqn:E; simpl; split_and!; try done; lia.
  - rewrite orb_true_r. destruct (0 <? depth ops) eqn:E; simpl; split_and!; try done; lia.
Qed.

(** Shutting down, over every sequence of calls.  While the process lives, a
    request for its end is only outstanding as long as shutting down is
    blocked.  When it ends, the call that ends it is a request or the last
    unblocking after one, nothing blocks any more, and every handler runs once,
    the last added first; it restarts only when that call is the request to
    restart, so a restart that had to wait has become a shutdown. *)
Theorem shutdown_in_order (ops : list shut_op) :
  match shut_run ops with
  | Alive s => existsb is_request ops = true → 0 < depth ops
  | Ended calls r =>
      ∃ pre o post, ops = pre ++ o :: post ∧ calls = rev (added pre) ∧ depth (pre ++ [o]) = 0 ∧
        existsb is_request (pre ++ [o]) = true ∧ (r = true ↔ o = ORestart)
  end.
Proof.
  assert (Hinv : match shut_run ops with
    | Alive s => shut_inv ops s
    | Ended calls r => ∃ pre o post, ops = pre ++ o :: post ∧ calls = rev (added pre) ∧
        depth (pre ++ [o]) = 0 ∧ existsb is_request (pre ++ [o]) = true ∧ (r = true ↔ o = ORestart)
    end).
  { induction ops as [|o ops IH] using rev_ind; [done|]. rewrite shut_snoc.
    destruct (shut_run ops) as [s|calls r].
    - pose proof (shut_step_spec ops o s IH) as Hs. destruct (shut_step o s) as [s'|calls r]; [done|].
      destruct Hs as (-> & H1 & H2 & ->). exists ops, o, []. split_and!; try done. by destruct o.
    - destruct IH as (pre & o' & post & -> & IH). exists pre, o', (post ++ [o]). by rewrite <- app_assoc. }
  destruct (shut_run ops) as [s|calls r]; [|done]. intros Hr.
  destruct Hinv as (_ & _ & _ & Hp & _ & Hd). apply Hd. by rewrite Hp.
Qed.


Definition progresses (r : write_result) : bool := if r is Wrote (S _) then true else false.

Fixpoint progress_count (rs : list write_result) : nat :=
  match rs with
  | [] => 0
  | r :: rs' => (if progresses r then 1 else 0) + progress_count rs'
  end.

Lemma rc_write_loop_spec rs buf out :
  match rc_write_loop rs buf out with
  | Some (out', ok) => ∃ w rest, buf = w ++ rest ∧ out' = out ++ w ∧ (ok = true ↔ rest = [])
  | None => (progress_count rs < length buf)%nat ∧ WFail ∉ rs
  end.
Proof.
  revert buf out. induction rs as [|r rs IH]; intros [|b buf] out.
  - cbn [rc_write_loop]. exists [], []. by rewrite !app_nil_r.
  - simpl. split; [lia|set_solver].
  - cbn [rc_write_loop]. exists [], []. by rewrite !app_nil_r.
  - destruct r as [n| |]; cbn [rc_write_loop].
    + specialize (IH (drop n (b :: buf)) (out ++ take n (b :: buf))).
      destruct (rc_write_loop _ _ _) as [[out' ok]|].
      * destruct IH as (w & rest & Hw & -> & Hok). exists (take n (b :: buf) ++ w), rest.
        rewrite <- !app_assoc, <- Hw, take_drop. done.
      * destruct IH as [IH Hf]. split; [|set_solver]. destruct n; simpl in *; [lia|].
        rewrite length_drop in IH. lia.
    + specialize (IH (b :: buf) out). destruct (rc_write_loop _ _ _) as [[out' ok]|]; [done|].
      simpl in *. split; [lia|set_solver].
    + exists [], (b :: buf). by rewrite app_nil_r.
Qed.

(** Writing the pid file: what reaches the file is the front of the buffer,
    in order and without repetition however [write] splits it up and is
    interrupted; the result is TRUE exactly when all of it was written, and the
    loop goes on only while fewer calls have written something than there are
    bytes and none has failed. *)
Theorem rc_write_in_order (rs : list write_result) (buf : list Z) :
  match rc_write rs buf with
  | Some (out, ok) => ∃ rest, buf = out ++ rest ∧ (ok = true ↔ rest = [])
  | None => (progress_count rs < length buf)%nat ∧ WFail ∉ rs
  end.
Proof.
  pose proof (rc_write_loop_spec rs buf []) as H. unfold rc_write.
  destruct (rc_write_loop rs buf []) as [[out ok]|]; [|done].
  destruct H as (w & rest & -> & -> & H). by exists rest.
Qed.
