(* ===== verification/ShttpdMd5.v ===== *)
(** * Message digests of the HTTP server ([shttpd/md5.c])

    The second MD5 of the program, with the arrays it reorders in place on big
    endian machines, proved against the reference of [Md5]: the two
    implementations compute the same digests. *)

From Stdlib Require Import ZifyNat.
From S2P Require Import Prelude.
From S2P Require Import CString.
From S2P Require Import Base64.
From S2P Require Import Md5.

#[local] Open Scope string_scope.
#[local] Open Scope list_scope.
#[local] Open Scope Z_scope.
#[local] Open Scope ow_scope.

(** ** Byte order *)

Definition reversed_word (b0 b1 b2 b3 : Z) : Z :=
  Z.lor (wrap32 (Z.shiftl (Z.lor (Z.shiftl b3 8) b2) 16)) (Z.lor (Z.shiftl b1 8) b0).

(** Nothing on a little endian machine, elsewhere the loop over [longs] words. *)
Fixpoint byteReverse (le : bool) (longs : nat) (buf : list Z) : list Z :=
  if le then buf else
  match longs, buf with
  | S longs, b0 :: b1 :: b2 :: b3 :: buf => store le (reversed_word b0 b1 b2 b3) ++ byteReverse le longs buf
  | _, _ => buf
  end.

(** ** A block *)

Definition F1 (x y z : Z) : Z := Z.lxor z (Z.land x (Z.lxor y z)).
Definition F2 (x y z : Z) : Z := F1 z x y.
Definition F3 (x y z : Z) : Z := Z.lxor (Z.lxor x y) z.
Definition F4 (x y z : Z) : Z := Z.lxor y (Z.lor x (not32 z)).

(** The value of [w] after the step. *)
Definition MD5STEP (f : Z → Z → Z → Z) (w x y z data s : Z) : Z :=
  let w := wrap32 (w + wrap32 (f x y z + data)) in
  let w := Z.lor (wrap32 (Z.shiftl w s)) (Z.shiftr w (32 - s)) in
  wrap32 (w + x).

(** [in[k] + c]. *)
Definition in_plus (i : list Z) (k : nat) (c : Z) : Z := wrap32 (X_at i k + c).

Definition transform1 (i : list Z) (a b c d : Z) : Z * Z * Z * Z :=
  let a := MD5STEP F1 a b c d (in_plus i 0 0xd76aa478) 7 in
  let d := MD5STEP F1 d a b c (in_plus i 1 0xe8c7b756) 12 in
  let c := MD5STEP F1 c d a b (in_plus i 2 0x242070db) 17 in
  let b := MD5STEP F1 b c d a (in_plus i 3 0xc1bdceee) 22 in
  let a := MD5STEP F1 a b c d (in_plus i 4 0xf57c0faf) 7 in
  let d := MD5STEP F1 d a b c (in_plus i 5 0x4787c62a) 12 in
  let c := MD5STEP F1 c d a b (in_plus i 6 0xa8304613) 17 in
  let b := MD5STEP F1 b c d a (in_plus i 7 0xfd469501) 22 in
  let a := MD5STEP F1 a b c d (in_plus i 8 0x698098d8) 7 in
  let d := MD5STEP F1 d a b c (in_plus i 9 0x8b44f7af) 12 in
  let c := MD5STEP F1 c d a b (in_plus i 10 0xffff5bb1) 17 in
  let b := MD5STEP F1 b c d a (in_plus i 11 0x895cd7be) 22 in
  let a := MD5STEP F1 a b c d (in_plus i 12 0x6b901122) 7 in
  let d := MD5STEP F1 d a b c (in_plus i 13 0xfd987193) 12 in
  let c := MD5STEP F1 c d a b (in_plus i 14 0xa679438e) 17 in
  let b := MD5STEP F1 b c d a (in_plus i 15 0x49b40821) 22 in
  (a, b, c, d).

Definition transform2 (i : list Z) (a b c d : Z) : Z * Z * Z * Z :=
  let a := MD5STEP F2 a b c d (in_plus i 1 0xf61e2562) 5 in
  let d := MD5STEP F2 d a b c (in_plus i 6 0xc040b340) 9 in
  let c := MD5STEP F2 c d a b (in_plus i 11 0x265e5a51) 14 in
  let b := MD5STEP F2 b c d a (in_plus i 0 0xe9b6c7aa) 20 in
  let a := MD5STEP F2 a b c d (in_plus i 5 0xd62f105d) 5 in
  let d := MD5STEP F2 d a b c (in_plus i 10 0x02441453) 9 in
  let c := MD5STEP F2 c d a b (in_plus i 15 0xd8a1e681) 14 in
  let b := MD5STEP F2 b c d a (in_plus i 4 0xe7d3fbc8) 20 in
  let a := MD5STEP F2 a b c d (in_plus i 9 0x21e1cde6) 5 in
  let d := MD5STEP F2 d a b c (in_plus i 14 0xc33707d6) 9 in
  let c := MD5STEP F2 c d a b (in_plus i 3 0xf4d50d87) 14 in
  let b := MD5STEP F2 b c d a (in_plus i 8 0x455a14ed) 20 in
  let a := MD5STEP F2 a b c d (in_plus i 13 0xa9e3e905) 5 in
  let d := MD5STEP F2 d a b c (in_plus i 2 0xfcefa3f8) 9 in
  let c := MD5STEP F2 c d a b (in_plus i 7 0x676f02d9) 14 in
  let b := MD5STEP F2 b c d a (in_plus i 12 0x8d2a4c8a) 20 in
  (a, b, c, d).

Definition transform3 (i : list Z) (a b c d : Z) : Z * Z * Z * Z :=
  let a := MD5STEP F3 a b c d (in_plus i 5 0xfffa3942) 4 in
  let d := MD5STEP F3 d a b c (in_plus i 8 0x8771f681) 11 in
  let c := MD5STEP F3 c d a b (in_plus i 11 0x6d9d6122) 16 in
  let b := MD5STEP F3 b c d a (in_plus i 14 0xfde5380c) 23 in
  let a := MD5STEP F3 a b c d (in_plus i 1 0xa4beea44) 4 in
  let d := MD5STEP F3 d a b c (in_plus i 4 0x4bdecfa9) 11 in
  let c := MD5STEP F3 c d a b (in_plus i 7 0xf6bb4b60) 16 in
  let b := MD5STEP F3 b c d a (in_plus i 10 0xbebfbc70) 23 in
  let a := MD5STEP F3 a b c d (in_plus i 13 0x289b7ec6) 4 in
  let d := MD5STEP F3 d a b c (in_plus i 0 0xeaa127fa) 11 in
  let c := MD5STEP F3 c d a b (in_plus i 3 0xd4ef3085) 16 in
  let b := MD5STEP F3 b c d a (in_plus i 6 0x04881d05) 23 in
  let a := MD5STEP F3 a b c d (in_plus i 9 0xd9d4d039) 4 in
  let d := MD5STEP F3 d a b c (in_plus i 12 0xe6db99e5) 11 in
  let c := MD5STEP F3 c d a b (in_plus i 15 0x1fa27cf8) 16 in
  let b := MD5STEP F3 b c d a (in_plus i 2 0xc4ac5665) 23 in
  (a, b, c, d).

Definition transform4 (i : list Z) (a b c d : Z) : Z * Z * Z * Z :=
  let a := MD5STEP F4 a b c d (in_plus i 0 0xf4292244) 6 in
  let d := MD5STEP F4 d a b c (in_plus i 7 0x432aff97) 10 in
  let c := MD5STEP F4 c d a b (in_plus i 14 0xab9423a7) 15 in
  let b := MD5STEP F4 b c d a (in_plus i 5 0xfc93a039) 21 in
  let a := MD5STEP F4 a b c d (in_plus i 12 0x655b59c3) 6 in
  let d := MD5STEP F4 d a b c (in_plus i 3 0x8f0ccc92) 10 in
  let c := MD5STEP F4 c d a b (in_plus i 10 0xffeff47d) 15 in
  let b := MD5STEP F4 b c d a (in_plus i 1 0x85845dd1) 21 in
  let a := MD5STEP F4 a b c d (in_plus i 8 0x6fa87e4f) 6 in
  let d := MD5STEP F4 d a b c (in_plus i 15 0xfe2ce6e0) 10 in
  let c := MD5STEP F4 c d a b (in_plus i 6 0xa3014314) 15 in
  let b := MD5STEP F4 b c d a (in_plus i 13 0x4e0811a1) 21 in
  let a := MD5STEP F4 a b c d (in_plus i 4 0xf7537e82) 6 in
  let d := MD5STEP F4 d a b c (in_plus i 11 0xbd3af235) 10 in
  let c := MD5STEP F4 c d a b (in_plus i 2 0x2ad7d2bb) 15 in
  let b := MD5STEP F4 b c d a (in_plus i 9 0xeb86d391) 21 in
  (a, b, c, d).

Definition MD5Transform (buf : regs) (i : list Z) : regs :=
  let '(a0, b0, c0, d0) := buf in
  let '(a, b, c, d) := transform1 i a0 b0 c0 d0 in
  let '(a, b, c, d) := transform2 i a b c d in
  let '(a, b, c, d) := transform3 i a b c d in
  let '(a, b, c, d) := transform4 i a b c d in
  (wrap32 (a0 + a), wrap32 (b0 + b), wrap32 (c0 + c), wrap32 (d0 + d)).

(** ** The digest *)

Record MD5_CTX := Md5Ctx { m_buf : regs; m_bits0 : Z; m_bits1 : Z; m_in : list Z }.

(** [i] is what the uninitialised buffer holds. *)
Definition MD5Init (i : list Z) : MD5_CTX :=
  Md5Ctx (0x67452301, 0xefcdab89, 0x98badcfe, 0x10325476) 0 0 i.

(** [byteReverse] of the sixteen words of [ctx->in] and [MD5Transform]: the
    registers and the buffer. *)
Definition transform_in (le : bool) (buf : regs) (i : list Z) : regs * list Z :=
  let i := byteReverse le 16 i in
  (MD5Transform buf (words (load le) i), i).

(** [while (len >= 64)]. *)
Fixpoint update_blocks (le : bool) (fuel : nat) (r : regs) (i buf : list Z) (len : Z)
  : regs * list Z * list Z * Z :=
  match fuel with
  | O => (r, i, buf, len)
  | S fuel =>
      if 64 <=? len then
        let i := write_at i 0 (take 64 buf) in
        let '(r, i) := transform_in le r i in
        update_blocks le fuel r i (drop 64 buf) (len - 64)
      else (r, i, buf, len)
  end.

(** The blocks and the remaining bytes. *)
Definition update_rest (le : bool) (r : regs) (lo hi : Z) (i buf : list Z) (len : Z) : MD5_CTX :=
  let '(r, i, buf, len) := update_blocks le (Z.to_nat len) r i buf len in
  Md5Ctx r lo hi (write_at i 0 (take (Z.to_nat len) buf)).

(** The data, after the bit count: [t] bytes are in the buffer. *)
Definition update_data (le : bool) (r : regs) (lo hi : Z) (i : list Z) (t : Z) (buf : list Z) (len : Z)
  : MD5_CTX :=
  if t =? 0 then update_rest le r lo hi i buf len else
  let p := t in
  let t := wrap32 (64 - t) in
  if len <? t then Md5Ctx r lo hi (write_at i (Z.to_nat p) (take (Z.to_nat len) buf)) else
  let i := write_at i (Z.to_nat p) (take (Z.to_nat t) buf) in
  let '(r, i) := transform_in le r i in
  update_rest le r lo hi i (drop (Z.to_nat t) buf) (len - t).

(** [None]: more bytes asked for than the buffer has.  The length is an
    [unsigned]. *)
Definition MD5Update (le : bool) (ctx : MD5_CTX) (buf : list Z) (len : Z) : option MD5_CTX :=
  let len := wrap32 len in
  assert! len <=? Z.of_nat (length buf);
  let t := m_bits0 ctx in
  let lo := wrap32 (t + wrap32 (Z.shiftl len 3)) in
  let hi := if lo <? t then wrap32 (m_bits1 ctx + 1) else m_bits1 ctx in
  let hi := wrap32 (hi + Z.shiftr len 29) in
  let t := Z.land (Z.shiftr t 3) 0x3f in
  Some (update_data le (m_buf ctx) lo hi (m_in ctx) t buf len).

(** The padding: the registers, and the buffer with the first 56 bytes of the
    last block. *)
Definition final_pad (le : bool) (r : regs) (i : list Z) (count : Z) : regs * list Z :=
  let i := write_at i (Z.to_nat count) [0x80] in
  let p := Z.to_nat (count + 1) in
  let count := wrap32 (64 - 1 - count) in
  if count <? 8 then
    let i := write_at i p (replicate (Z.to_nat count) 0) in
    let '(r, i) := transform_in le r i in
    (r, write_at i 0 (replicate 56 0))
  else (r, write_at i p (replicate (Z.to_nat (count - 8)) 0)).

Definition reverse_regs (le : bool) (r : regs) : list Z :=
  byteReverse le 4 (mjoin (store le <$> regs_words r)).

(** The digest and the context that is left.  [sizeof (ctx)] is the size of a
    pointer, eight bytes: the first two registers. *)
Definition MD5Final (le : bool) (ctx : MD5_CTX) : list Z * MD5_CTX :=
  let count := Z.land (Z.shiftr (m_bits0 ctx) 3) 0x3F in
  let '(r, i) := final_pad le (m_buf ctx) (m_in ctx) count in
  let i := byteReverse le 14 i in
  let i := write_at i 56 (store le (m_bits0 ctx)) in
  let i := write_at i 60 (store le (m_bits1 ctx)) in
  let r := MD5Transform r (words (load le) i) in
  let digest := reverse_regs le r in
  let kept := words (load le) digest in
  (digest, Md5Ctx (0, 0, X_at kept 2, X_at kept 3) (m_bits0 ctx) (m_bits1 ctx) i).

Fixpoint update_all (le : bool) (ctx : MD5_CTX) (chunks : list (list Z)) : option MD5_CTX :=
  match chunks with
  | [] => Some ctx
  | c :: chunks => ctx ← MD5Update le ctx c (Z.of_nat (length c)); update_all le ctx chunks
  end.

Definition shttpd_digest (le : bool) (mem : list Z) (chunks : list (list Z)) : option (list Z) :=
  ctx ← update_all le (MD5Init mem) chunks;
  Some (fst (MD5Final le ctx)).

Example shttpd_test_suite :
  (λ '(le, s), md52char <$> shttpd_digest le (replicate 64 0) [codes s]) <$>
    [(true, ""); (false, "a"); (true, "abc"); (false, "message digest");
     (false, "12345678901234567890123456789012345678901234567890123456789012345678901234567890")] =
  Some <$> ["d41d8cd98f00b204e9800998ecf8427e"; "0cc175b9c0f1b6a831c399e269772661";
            "900150983cd24fb0d6963f7d28e17f72"; "f96b697d7cb7938d525a2f31aaf161d0";
            "57edf4a22be3c955ac49da2e2107b67a"].
Proof. vm_compute. reflexivity. Qed.

(** ** A block *)

Lemma wrap32_bits (x y : Z) : (∀ i, 0 ≤ i < 32 → Z.testbit x i = Z.testbit y i) → wrap32 x = wrap32 y.
Proof.
  intros Hb. unfold wrap. rewrite <- !Z.land_ones by lia. apply Z.bits_inj'. intros i Hi.
  rewrite !Z.land_spec. destruct (decide (i < 32)) as [Hlt|Hge].
  - by rewrite Hb by lia.
  - by rewrite Z.ones_spec_high, !andb_false_r by lia.
Qed.

Lemma not32_spec (x i : Z) : 0 ≤ i < 32 → Z.testbit (not32 x) i = negb (Z.testbit x i).
Proof.
  intros. unfold not32. change T_MASK with (Z.ones 32). rewrite Z.lxor_spec, Z.ones_spec_low by lia. done.
Qed.

Ltac by_bits :=
  let i := fresh "i" in let Hi := fresh "Hi" in
  apply wrap32_bits; intros i Hi;
  rewrite ?Z.lor_spec, ?Z.lxor_spec, ?Z.land_spec, ?Z.lxor_spec, ?(not32_spec _ _ Hi);
  repeat match goal with |- context [Z.testbit ?x i] => destruct (Z.testbit x i) end; done.

(** The optimised functions agree with those of the RFC on 32 bits. *)
Lemma F1_rfc (x y z : Z) : wrap32 (F1 x y z) = wrap32 (F x y z).
Proof. unfold F1, F. by_bits. Qed.

Lemma F2_rfc (x y z : Z) : wrap32 (F2 x y z) = wrap32 (G x y z).
Proof. unfold F2, F1, G. by_bits. Qed.

Lemma MD5STEP_rfc (X : list Z) (f g : Z → Z → Z → Z) (a b c d : Z) (i k : nat) (s co : Z) :
  g = rfc_fun i → k = rfc_k i → s = rfc_s i → co = X_at rfc_T i →
  (∀ x y z, wrap32 (f x y z) = wrap32 (g x y z)) →
  rfc_step X (a, b, c, d) i = (d, MD5STEP f a b c d (in_plus X k co) s, b, c).
Proof.
  intros -> -> -> -> Hfg. unfold rfc_step, MD5STEP, in_plus, ROTATE_LEFT. cbv zeta.
  assert (E : wrap32 (a + wrap32 (f b c d + wrap32 (X_at X (rfc_k i) + X_at rfc_T i))) =
              wrap32 (a + rfc_fun i b c d + X_at X (rfc_k i) + X_at rfc_T i)).
  { rewrite <- (wrap_add_l 32 (f b c d)), Hfg, wrap_add_l, !wrap_add_r by lia.
    rewrite Z.add_assoc, wrap_add_r by lia. f_equal. lia. }
  by rewrite E, Z.add_comm.
Qed.

Lemma transform1_rfc (X : list Z) (a b c d : Z) :
  transform1 X a b c d = foldl (rfc_step X) (a, b, c, d) (seq 0 16).
Proof. run_round transform1 ltac:(by apply MD5STEP_rfc with F; [..|exact F1_rfc]). Qed.

Lemma transform2_rfc (X : list Z) (a b c d : Z) :
  transform2 X a b c d = foldl (rfc_step X) (a, b, c, d) (seq 16 16).
Proof. run_round transform2 ltac:(by apply MD5STEP_rfc with G; [..|exact F2_rfc]). Qed.

Lemma transform3_rfc (X : list Z) (a b c d : Z) :
  transform3 X a b c d = foldl (rfc_step X) (a, b, c, d) (seq 32 16).
Proof. run_round transform3 ltac:(by apply MD5STEP_rfc with H). Qed.

Lemma transform4_rfc (X : list Z) (a b c d : Z) :
  transform4 X a b c d = foldl (rfc_step X) (a, b, c, d) (seq 48 16).
Proof. run_round transform4 ltac:(by apply MD5STEP_rfc with I). Qed.

(** [MD5Transform] on the words of a block. *)
Lemma MD5Transform_rfc (r : regs) (block : list Z) :
  MD5Transform r (words sum4 block) = rfc_block r block.
Proof.
  destruct r as [[[a0 b0] c0] d0]. unfold MD5Transform, rfc_block. rewrite rfc_rounds.
  rewrite transform1_rfc. destruct (foldl _ _ (seq 0 16)) as [[[a1 b1] c1] d1].
  rewrite transform2_rfc. destruct (foldl _ _ (seq 16 16)) as [[[a2 b2] c2] d2].
  rewrite transform3_rfc. destruct (foldl _ _ (seq 32 16)) as [[[a3 b3] c3] d3].
  by rewrite transform4_rfc.
Qed.

(** ** Memory *)

Lemma sum4_le_bytes (w : Z) : sum4 (byte_of w 0) (byte_of w 1) (byte_of w 2) (byte_of w 3) = wrap32 w.
Proof.
  unfold sum4, byte_of, wrap. rewrite !Z.shiftl_mul_pow2, !Z.shiftr_div_pow2 by lia.
  change (2 ^ (8 * 0)) with 1. change (2 ^ (8 * 1)) with 256. change (2 ^ (8 * 2)) with 65536.
  change (2 ^ (8 * 3)) with 16777216. change (2 ^ 8) with 256. change (2 ^ 16) with 65536.
  change (2 ^ 24) with 16777216. change (2 ^ 32) with 4294967296.
  Z.to_euclidean_division_equations. lia.
Qed.

Lemma reversed_word_sum4 (b0 b1 b2 b3 : Z) :
  byte b0 → byte b1 → byte b2 → byte b3 → reversed_word b0 b1 b2 b3 = sum4 b0 b1 b2 b3.
Proof.
  unfold byte. intros. unfold reversed_word, sum4. rewrite (lor_fields b3 b2 8 256), (lor_fields b1 b0 8 256) by (done || lia).
  rewrite wrap_small by (rewrite Z.shiftl_mul_pow2 by lia; lia).
  rewrite (lor_fields _ _ 16 65536), !Z.shiftl_mul_pow2 by (done || lia). lia.
Qed.

Lemma load_stored (le : bool) (w : Z) :
  words (load le) (store le w) = [wrap32 w].
Proof. destruct le; cbn -[byte_of sum4]; by rewrite sum4_le_bytes. Qed.

Lemma length_byteReverse (le : bool) (n : nat) :
  ∀ bs, length (byteReverse le n bs) = length bs.
Proof.
  destruct le; [by destruct n|]. induction n as [|n IH]; intros [|b0 [|b1 [|b2 [|b3 bs]]]]; try done.
  cbn -[byte_of reversed_word]. by rewrite IH.
Qed.

(** Four bytes in front of an array of words. *)
Lemma words_app (f : Z → Z → Z → Z → Z) (n : nat) :
  ∀ bs cs, length bs = (4 * n)%nat → words f (bs ++ cs) = words f bs ++ words f cs.
Proof.
  induction n as [|n IH]; intros [|b0 [|b1 [|b2 [|b3 bs]]]] cs Hl; simpl in Hl; try lia; [done|].
  cbn [app words]. by rewrite IH by lia.
Qed.

(** After [byteReverse] the machine reads the words of the RFC. *)
Lemma byteReverse_words (le : bool) (n : nat) :
  ∀ bs, Forall byte bs → length bs = (4 * n)%nat → words (load le) (byteReverse le n bs) = words sum4 bs.
Proof.
  destruct le; [by destruct n|].
  induction n as [|n IH]; intros [|b0 [|b1 [|b2 [|b3 bs]]]] Hb Hl; simpl in Hl; try lia; [done|].
  decompose_Forall. cbn [byteReverse words]. rewrite sum4_le_bytes, IH by (done || lia).
  rewrite reversed_word_sum4, wrap_small by (done || by apply sum4_range). done.
Qed.

(** The bytes after the reordered words stay as they are. *)
Lemma byteReverse_app (le : bool) (n : nat) :
  ∀ bs cs, length bs = (4 * n)%nat → byteReverse le n (bs ++ cs) = byteReverse le n bs ++ cs.
Proof.
  destruct le; [by destruct n|].
  induction n as [|n IH]; intros [|b0 [|b1 [|b2 [|b3 bs]]]] cs Hl; simpl in Hl; try lia; [done|].
  cbn [app byteReverse]. by rewrite IH, app_assoc by lia.
Qed.

Lemma transform_in_rfc (le : bool) (r : regs) (i : list Z) :
  Forall byte i → length i = 64%nat →
  ∃ i', transform_in le r i = (rfc_block r i, i') ∧ length i' = 64%nat.
Proof.
  intros Hb Hl. eexists. unfold transform_in. rewrite byteReverse_words, MD5Transform_rfc by done.
  split; [done|]. by rewrite length_byteReverse.
Qed.

(** ** Updating *)

Lemma update_blocks_rfc (le : bool) :
  ∀ (fuel n : nat) (r : regs) (i p : list Z),
  (n ≤ fuel)%nat → (n ≤ length p)%nat → Forall byte p → length i = 64%nat →
  ∃ i', update_blocks le fuel r i p (Z.of_nat n) =
          (rfc_blocks (n / 64) r p, i', drop (64 * (n / 64)) p, Z.of_nat (n mod 64)) ∧
        length i' = 64%nat.
Proof.
  induction fuel as [|fuel IH]; intros n r i p Hf Hl Hb Hi; cbn [update_blocks].
  - exists i. by replace n with O by lia.
  - destruct (Z.leb_spec 64 (Z.of_nat n)) as [Hn|Hn].
    + rewrite (fill_buffer i 0) by (rewrite length_take; lia). rewrite take_0. cbn [app].
      destruct (transform_in_rfc le r (take 64 p)) as (i1 & -> & Hi1);
        [by apply Forall_take|rewrite length_take; lia|].
      replace (Z.of_nat n - 64) with (Z.of_nat (n - 64)) by lia.
      destruct (IH (n - 64)%nat (rfc_block r (take 64 p)) i1 (drop 64 p)) as (i' & -> & Hi');
        [lia|rewrite length_drop; lia|by apply Forall_drop|done|].
      exists i'. split; [|done]. replace (n / 64)%nat with (S ((n - 64) / 64)) by lia_div.
      cbn [rfc_blocks]. rewrite drop_drop. do 2 f_equal; [f_equal; lia|]. lia_div.
    + exists i. replace (n / 64)%nat with O by lia_div. cbn [rfc_blocks]. rewrite Nat.mul_0_r, drop_0.
      split; [|done]. do 2 f_equal. lia_div.
Qed.

Lemma update_rest_rfc (le : bool) (lo hi : Z) (r : regs) (i p d : list Z) :
  d `prefix_of` p → Forall byte p → length i = 64%nat →
  ∃ i', update_rest le r lo hi i p (Z.of_nat (length d)) = Md5Ctx (rfc_blocks (length d / 64) r d) lo hi i' ∧
        length i' = 64%nat ∧ take (length d mod 64) i' = drop (64 * (length d / 64)) d.
Proof.
  intros [x ->] Hb Hi. unfold update_rest. rewrite Nat2Z.id.
  destruct (update_blocks_rfc le (length d) (length d) r i (d ++ x)) as (i1 & -> & Hi1);
    [done|rewrite length_app; lia|done|done|].
  assert (Hq : (64 * (length d / 64) ≤ length d)%nat) by lia_div.
  rewrite rfc_blocks_app, drop_app_le, Nat2Z.id, take_app_le by (rewrite ?length_drop; lia_div).
  eexists. split; [done|]. by apply keep_rest.
Qed.

Definition ctx_holds (ctx : MD5_CTX) (m : list Z) : Prop :=
  absorbed (m_bits0 ctx) (m_bits1 ctx) (m_buf ctx) (m_in ctx) m.

Lemma update_data_absorbs (le : bool) (c0 c1 lo hi : Z) (r : regs) (b m data d : list Z) :
  absorbed c0 c1 r b m → Forall byte m → Forall byte data → d `prefix_of` data →
  lo = wrap32 (8 * Z.of_nat (length (m ++ d))) →
  hi = wrap32 (8 * Z.of_nat (length (m ++ d)) / 2 ^ 32) →
  ctx_holds (update_data le r lo hi b (Z.of_nat (length m mod 64)) data (Z.of_nat (length d))) (m ++ d).
Proof.
  intros Hab Hm Hdata [x ->] Hlo Hhi. pose proof (rest_bytes _ _ _ _ _ Hab Hm) as Hrb.
  pose proof (ab_len _ _ _ _ _ Hab) as Hb. set (off := (length m mod 64)%nat) in *.
  pose proof (Nat.mod_upper_bound (length m) 64 ltac:(lia)) as Hoff. fold off in Hoff.
  unfold update_data. destruct (Z.eqb_spec (Z.of_nat off) 0) as [Ho|Ho].
  - destruct (update_rest_rfc le lo hi r b (d ++ x) d) as (i' & -> & Hi' & Hr');
      [by apply prefix_app_r|done|done|].
    apply (absorbed_aligned _ _ _ _ _ _ _ _ _ Hab); [done|done|unfold off in *; lia|done|done].
  - rewrite wrap_small by lia. set (copy := (64 - off)%nat).
    replace (64 - Z.of_nat off) with (Z.of_nat copy) by lia. rewrite !Nat2Z.id.
    destruct (Z.ltb_spec (Z.of_nat (length d)) (Z.of_nat copy)) as [Hs|Hs].
    + rewrite take_app_length. apply (absorbed_short _ _ _ _ _ _ _ _ Hab); [done|done|unfold off in *; lia].
    + rewrite take_app_le, drop_app_le by lia.
      apply Forall_app in Hdata as [Hd Hx].
      rewrite (fill_buffer b off (take copy d)) by (rewrite length_take; lia).
      destruct (transform_in_rfc le r (take off b ++ take copy d)) as (i1 & -> & Hi1);
        [apply Forall_app; split; [done|by apply Forall_take]|rewrite length_app, !length_take; lia|].
      replace (_ - Z.of_nat copy) with (Z.of_nat (length (drop copy d))) by (rewrite length_drop; lia).
      edestruct (update_rest_rfc le lo hi (rfc_block r (take off b ++ take copy d)) i1 (drop copy d ++ x)
        (drop copy d)) as (i' & -> & Hi' & Hr');
        [by apply prefix_app_r|apply Forall_app; split; [by apply Forall_drop|done]|done|].
      apply (absorbed_full _ _ _ _ _ _ _ _ _ Hab); unfold off in *; by try lia.
Qed.

Lemma carry_r (x y : Z) : 0 ≤ x < 2 ^ 32 → 0 ≤ y < 2 ^ 32 → (wrap32 (x + y) <? x) = (2 ^ 32 <=? x + y).
Proof. intros. rewrite Z.add_comm. by apply carry_l. Qed.

Lemma MD5Update_absorbs (le : bool) (ctx : MD5_CTX) (m data d : list Z) :
  ctx_holds ctx m → Forall byte m → Forall byte data → d `prefix_of` data →
  Z.of_nat (length d) < 2 ^ 32 →
  ∃ ctx', MD5Update le ctx data (Z.of_nat (length d)) = Some ctx' ∧ ctx_holds ctx' (m ++ d).
Proof.
  intros Hh Hm Hdata Hpre Hmax. unfold MD5Update. pose proof (prefix_length _ _ Hpre) as Hl.
  rewrite (wrap_small 32 (Z.of_nat (length d))) by lia.
  rewrite (proj2 (Z.leb_le (Z.of_nat (length d)) (Z.of_nat (length data))) ltac:(lia)).
  cbn [c_assert mbind option_bind]. eexists. split; [done|].
  pose proof (ab_lo _ _ _ _ _ Hh) as Hc0. pose proof (ab_hi _ _ _ _ _ Hh) as Hc1.
  rewrite carry_r by (rewrite ?Hc0; apply (wrap_range 32); lia). rewrite Hc0, Hc1, offset_eq.
  apply update_data_absorbs with (wrap32 (8 * Z.of_nat (length m))) (wrap32 (8 * Z.of_nat (length m) / 2 ^ 32));
    try done.
  - unfold ctx_holds in Hh. by rewrite Hc0, Hc1 in Hh.
  - by rewrite count_lo, length_app.
  - rewrite length_app, <- count_hi. cbv zeta. destruct (2 ^ 32 <=? _); [|done].
    rewrite !(wrap_add_l 32) by lia. f_equal. lia.
Qed.

(** ** The end *)

Lemma bytes_of_sum4 (b0 b1 b2 b3 : Z) :
  byte b0 → byte b1 → byte b2 → byte b3 → le_bytes (sum4 b0 b1 b2 b3) = [b0; b1; b2; b3].
Proof.
  unfold byte, le_bytes, sum4, byte_of, wrap. intros. rewrite !Z.shiftl_mul_pow2, !Z.shiftr_div_pow2 by lia.
  change (2 ^ (8 * 0)) with 1. change (2 ^ (8 * 1)) with 256. change (2 ^ (8 * 2)) with 65536.
  change (2 ^ (8 * 3)) with 16777216. change (2 ^ 8) with 256. change (2 ^ 16) with 65536.
  change (2 ^ 24) with 16777216. repeat f_equal; Z.to_euclidean_division_equations; lia.
Qed.

(** The digest is the registers, low byte first. *)
Lemma reverse_store (w : Z) (n : nat) (bs : list Z) :
  byteReverse false (S n) (store false w ++ bs) = le_bytes w ++ byteReverse false n bs.
Proof.
  change (byteReverse false (S n) (store false w ++ bs)) with
    (store false (reversed_word (byte_of w 3) (byte_of w 2) (byte_of w 1) (byte_of w 0)) ++ byteReverse false n bs).
  rewrite reversed_word_sum4 by apply byte_of_byte. unfold store.
  by rewrite bytes_of_sum4 by apply byte_of_byte.
Qed.

Lemma reverse_regs_bytes (le : bool) (r : regs) :
  reverse_regs le r = mjoin (le_bytes <$> regs_words r).
Proof.
  destruct le; [done|]. destruct r as [[[a b] c] d]. unfold reverse_regs.
  cbn [regs_words fmap list_fmap mjoin list_join].
  rewrite !reverse_store by done. done.
Qed.

Lemma take_write_at' (n : nat) (b : list Z) (off : nat) (xs : list Z) :
  n = (off + length xs)%nat → (off ≤ length b)%nat → take n (write_at b off xs) = take off b ++ xs.
Proof. intros ->. apply take_write_at. Qed.

Lemma take_below (n : nat) (b : list Z) (off : nat) (xs : list Z) :
  (n ≤ off ≤ length b)%nat → take n (write_at b off xs) = take n b.
Proof.
  intros Hn. unfold write_at. rewrite take_app_le by (rewrite length_take; lia). rewrite take_take.
  f_equal. lia.
Qed.

Lemma write_at_ge (b : list Z) (off : nat) (xs : list Z) : (length b ≤ length (write_at b off xs))%nat.
Proof. unfold write_at. rewrite !length_app, length_take, length_drop. lia. Qed.

Lemma one_block (r : regs) (x : list Z) : length x = 64%nat → rfc_blocks 1 r x = rfc_block r x.
Proof. intros Hx. cbn [rfc_blocks]. by rewrite take_ge by lia. Qed.

Lemma two_blocks (r : regs) (x y : list Z) :
  length x = 64%nat → length y = 64%nat → rfc_blocks 2 r (x ++ y) = rfc_block (rfc_block r x) y.
Proof. intros Hx Hy. cbn [rfc_blocks]. by rewrite take_app_length', drop_app_length', take_ge by lia. Qed.

(** What the padding leaves in the buffer and the registers: with the eight
    bytes [t] of the length it is the end of the padded message. *)
Lemma final_pad_rfc (le : bool) (r : regs) (i : list Z) (off : nat) :
  (off < 64)%nat → length i = 64%nat → Forall byte (take off i) →
  ∃ r' i', final_pad le r i (Z.of_nat off) = (r', i') ∧ length i' = 64%nat ∧ Forall byte (take 56 i') ∧
  ∀ (z : nat) (t : list Z), length t = 8%nat → z = Z.to_nat ((55 - Z.of_nat off) mod 64) →
    rfc_blocks ((off + 9 + z) / 64) r (take off i ++ 0x80 :: replicate z 0 ++ t) =
    rfc_block r' (take 56 i' ++ t).
Proof.
  intros Hoff Hi Hb. unfold final_pad. rewrite Nat2Z.id, wrap_small by lia.
  set (i1 := write_at i off [0x80]).
  assert (Hi1 : length i1 = 64%nat) by (subst i1; rewrite length_write_at; [done|cbn [length]; lia]).
  assert (Ht1 : take (off + 1) i1 = take off i ++ [0x80]) by exact (take_write_at i off [0x80] ltac:(lia)).
  assert (Hb1 : ∀ n, Forall byte (take (off + 1) i1 ++ replicate n 0)).
  { intros n. rewrite Ht1, <- app_assoc. apply Forall_app. split; [done|]. apply Forall_cons.
    split; [done|by apply Forall_replicate]. }
  replace (Z.to_nat (Z.of_nat off + 1)) with (off + 1)%nat by lia.
  destruct (Z.ltb_spec (64 - 1 - Z.of_nat off) 8) as [Hc|Hc].
  - set (n := Z.to_nat (64 - 1 - Z.of_nat off)).
    rewrite (fill_buffer i1) by (rewrite length_replicate; lia).
    destruct (transform_in_rfc le r (take (off + 1) i1 ++ replicate n 0)) as (i2 & -> & Hi2);
      [done|rewrite length_app, length_take, length_replicate; lia|].
    do 2 eexists. split; [done|]. rewrite length_write_at by (rewrite length_replicate; lia).
    rewrite (take_write_at' 56 i2 0 (replicate 56 0)) by (rewrite ?length_replicate; lia). rewrite take_0, app_nil_l.
    split; [done|]. split; [by apply Forall_replicate|]. intros z t Ht Hz.
    replace ((off + 9 + z) / 64)%nat with 2%nat by lia_div.
    replace (replicate z 0) with (replicate n 0 ++ replicate 56 0)
      by (rewrite <- replicate_add; f_equal; lia_div).
    rewrite <- two_blocks by (rewrite length_app, ?length_take, ?length_replicate; lia).
    rewrite Ht1. by rewrite <- !app_assoc.
  - set (n := Z.to_nat (64 - 1 - Z.of_nat off - 8)).
    assert (Hn : (off + 1 + length (replicate n 0%Z) = 56)%nat) by (rewrite length_replicate; lia).
    do 2 eexists. split; [done|]. rewrite length_write_at by lia.
    rewrite take_write_at' by lia. split; [done|]. split; [done|]. intros z t Ht Hz.
    replace ((off + 9 + z) / 64)%nat with 1%nat by lia_div. replace z with n by lia_div.
    rewrite Ht1, <- one_block by (rewrite !length_app, length_take, !length_replicate; cbn [length]; lia).
    by rewrite <- !app_assoc.
Qed.

(** The last block as the machine reads it, with the bit counts in place. *)
Lemma last_block_words (le : bool) (i : list Z) (lo hi : Z) :
  length i = 64%nat → Forall byte (take 56 i) →
  words (load le) (write_at (write_at (byteReverse le 14 i) 56 (store le lo)) 60 (store le hi)) =
  words sum4 (take 56 i ++ le_bytes lo ++ le_bytes hi).
Proof.
  intros Hi Hb. assert (H56 : length (take 56 i) = 56%nat) by (rewrite length_take; lia).
  rewrite <- (take_drop 56 i) at 1. rewrite byteReverse_app by done.
  set (x := byteReverse le 14 (take 56 i)).
  assert (Hx : length x = 56%nat) by (subst x; by rewrite length_byteReverse).
  assert (Hs : ∀ w, length (store le w) = 4%nat) by (by destruct le).
  rewrite (fill_buffer _ 60) by (rewrite length_write_at; rewrite length_app, length_drop, Hx, !Hs; lia).
  rewrite (take_write_at' 60) by (rewrite ?length_app, ?Hs, ?Hx; lia).
  rewrite take_app_length' by done. rewrite <- app_assoc.
  rewrite (words_app _ 14) by done. rewrite (words_app _ 1), !load_stored by by rewrite Hs.
  rewrite (words_app _ 14) by done. subst x. rewrite byteReverse_words by done.
  cbn [le_bytes app words]. by rewrite !sum4_le_bytes.
Qed.

Lemma MD5Final_digest (le : bool) (ctx : MD5_CTX) (m : list Z) :
  ctx_holds ctx m → Forall byte m → fst (MD5Final le ctx) = rfc_md5 m.
Proof.
  intros Hh Hm. pose proof (rest_bytes _ _ _ _ _ Hh Hm) as Hrb. unfold MD5Final.
  destruct Hh as [Hlo Hhi Hr Hl Hrest]. rewrite Hlo at 1. rewrite offset_eq.
  destruct (final_pad_rfc le (m_buf ctx) (m_in ctx) (length m mod 64)) as (r' & i' & -> & Hi' & Hb' & Hpad);
    [lia_div|done|done|].
  cbn [fst]. rewrite last_block_words, MD5Transform_rfc, reverse_regs_bytes by done.
  set (z := Z.to_nat ((55 - Z.of_nat (length m)) mod 64)).
  rewrite <- (Hpad z) by (done || subst z; lia_div). unfold rfc_md5. do 3 f_equal.
  rewrite Hrest, Hr. unfold rfc_pad. cbv zeta. fold z. rewrite <- Hlo, <- Hhi.
  set (x := 0x80 :: replicate z 0 ++ le_bytes (m_bits0 ctx) ++ le_bytes (m_bits1 ctx)).
  assert (Hx : length x = (9 + z)%nat)
    by (subst x; cbn [length]; rewrite !length_app, length_replicate; cbn [le_bytes length]; lia).
  rewrite length_app, Hx.
  replace ((length m + (9 + z)) / 64)%nat with (length m / 64 + (length m mod 64 + 9 + z) / 64)%nat
    by (subst z; lia_div).
  rewrite rfc_blocks_plus, (rfc_blocks_app (length m / 64)), drop_app_le by lia_div. done.
Qed.

Lemma update_all_absorbs (le : bool) (chunks : list (list Z)) :
  ∀ (ctx : MD5_CTX) (m : list Z),
  ctx_holds ctx m → Forall byte m →
  Forall (λ c, Forall byte c ∧ Z.of_nat (length c) < 2 ^ 32) chunks →
  ∃ ctx', update_all le ctx chunks = Some ctx' ∧ ctx_holds ctx' (m ++ mjoin chunks) ∧
          Forall byte (m ++ mjoin chunks).
Proof.
  induction chunks as [|c chunks IH]; intros ctx m Hh Hm Hc; cbn [update_all mjoin list_join].
  - exists ctx. by rewrite app_nil_r.
  - apply Forall_cons in Hc as [[Hcb Hcl] Hc].
    destruct (MD5Update_absorbs le ctx m c c) as (ctx1 & -> & H1); [done..|]. cbn [mbind option_bind].
    destruct (IH ctx1 (m ++ c)) as (ctx' & -> & H'); [done|by apply Forall_app|done|].
    exists ctx'. by rewrite <- app_assoc in H'.
Qed.

Lemma shttpd_digest_rfc (le : bool) (mem : list Z) (chunks : list (list Z)) :
  length mem = 64%nat → Forall (λ c, Forall byte c ∧ Z.of_nat (length c) < 2 ^ 32) chunks →
  shttpd_digest le mem chunks = Some (rfc_md5 (mjoin chunks)).
Proof.
  intros Hmem Hc. unfold shttpd_digest.
  destruct (update_all_absorbs le chunks (MD5Init mem) []) as (ctx & -> & Hh & Hb);
    [by apply absorbed_init|constructor|done|].
  cbn [mbind option_bind]. by rewrite (MD5Final_digest le ctx (mjoin chunks)).
Qed.

(** C40: The MD5 of the HTTP server and the one of the library compute the same
    digest, that of RFC 1321, for the same message cut into any pieces on either
    side, on machines of either byte order. *)
Theorem md5_implementations_agree (le le' : bool) (mem mem' : list Z) (chunks chunks' : list (list Z)) :
  length mem = 64%nat → length mem' = 64%nat → mjoin chunks = mjoin chunks' →
  Forall (λ c, Forall byte c ∧ Z.of_nat (length c) < 2 ^ 32) chunks →
  Forall (λ c, Forall byte c ∧ Z.of_nat (length c) < 2 ^ 31 - 64) chunks' →
  shttpd_digest le mem chunks = Some (rfc_md5 (mjoin chunks)) ∧
  md5_digest le' mem' chunks' = shttpd_digest le mem chunks.
Proof.
  intros Hm Hm' E Hc Hc'. rewrite shttpd_digest_rfc by done. split; [done|].
  rewrite E. by apply md5_digest_rfc.
Qed.

Lemma md5_implementations_agree_witness :
  md5_digest true (replicate 64 1) [codes "message digest"] =
  shttpd_digest false (replicate 64 0) [codes "mess"; []; codes "age digest"].
Proof.
  apply (md5_implementations_agree false true (replicate 64 0) (replicate 64 1)
    [codes "mess"; []; codes "age digest"] [codes "message digest"]); [reflexivity..| |];
    repeat constructor; vm_compute; discriminate.
Defined.

(** The [memset] at the end clears as many bytes as a pointer has: the last block
    stays in the context, and with it every message shorter than 56 bytes. *)
Theorem final_keeps_message (ctx : MD5_CTX) (m : list Z) :
  ctx_holds ctx m → (length m < 56)%nat →
  take (length m) (m_in (snd (MD5Final true ctx))) = m.
Proof.
  intros Hh Hlen. unfold MD5Final. destruct Hh as [Hlo Hhi Hr Hl Hrest]. rewrite Hlo at 1. rewrite offset_eq.
  replace (length m mod 64)%nat with (length m) in * by lia_div.
  replace (length m / 64)%nat with O in Hrest by lia_div. rewrite Nat.mul_0_r, drop_0 in Hrest.
  unfold final_pad. rewrite wrap_small by lia. rewrite (proj2 (Z.ltb_ge _ 8)) by lia. cbn [snd m_in byteReverse].
  by rewrite !take_below by (split; [lia|]; repeat (etrans; [|apply write_at_ge]); lia).
Qed.
