(* ===== verification/Http.v ===== *)
(** * The HTTP server in front of the daemon

    The parts of the bundled server (src/src/server/shttpd) that decide what
    becomes of a request: the URI is decoded and cleaned, the headers are read,
    the request is authorized and handed to the function registered for its
    URI.  A buffer is a string in which NULs may have been written; the headers
    of a request are such a buffer, which the server cuts while it reads. *)

From S2P Require Import Prelude CString Uri Base64 Ini Options.
From Stdlib Require Import Ascii.
Local Open Scope string_scope.
Local Open Scope list_scope.
Local Open Scope Z_scope.
Local Open Scope ow_scope.

(** ** URIs *)

Definition isxdigit (a : ascii) : bool :=
  isdigit a || ((65 <=? code a) && (code a <=? 70)) || ((97 <=? code a) && (code a <=? 102)).

(** [HEXTOI] of a lower case digit: ['W'] is 87. *)
Definition HEXTOI (a : ascii) : Z := if isdigit a then code a - 48 else code a - 87.

Definition hex_byte (a b : ascii) : ascii :=
  chr (wrap8 (Z.lor (Z.shiftl (HEXTOI (tolower a)) 4) (HEXTOI (tolower b)))).

(** [room] is [dst_len - 1]. *)
Fixpoint url_decode_loop (room : nat) (src : string) : string :=
  match room, src with
  | S room', String c s1 =>
      if code c =? 37 then
        match s1 with
        | String a (String b s2) =>
            if isxdigit a && isxdigit b then String (hex_byte a b) (url_decode_loop room' s2)
            else String c (url_decode_loop room' s1)
        | _ => String c (url_decode_loop room' s1)
        end
      else String c (url_decode_loop room' s1)
  | _, _ => EmptyString
  end.

(** The bytes written and their number. *)
Definition _shttpd_url_decode (src : string) (dst_len : nat) : string * Z :=
  let r := url_decode_loop (dst_len - 1) src in (r, Z.of_nat (String.length r)).

Definition is_sep (a : ascii) : bool := (code a =? 47) || (code a =? 92).

Fixpoint skip_dots (s : string) : string :=
  match s with
  | String a s' => if code a =? 46 then skip_dots s' else s
  | EmptyString => EmptyString
  end.

(** [after] is true behind a separator, where dots and separators are skipped. *)
Fixpoint dots_loop (after : bool) (s : string) : string :=
  match s with
  | EmptyString => EmptyString
  | String a s' =>
      if after && ((code a =? 46) || is_sep a) then dots_loop true s'
      else String a (dots_loop (is_sep a) s')
  end.

Definition remove_all_leading_and_double_dots (s : string) : string := dots_loop false (skip_dots s).

(** ** The end of the headers *)

Definition isprint (a : ascii) : bool := (32 <=? code a) && (code a <=? 126).

Definition char_allowed (a : ascii) : bool :=
  isprint a || (code a =? 13) || (code a =? 10) || negb (code a <? 128).

(** The length of the headers with the empty line, 0 when they are not complete
    and -1 for a character that is not allowed; [n] characters were read. *)
Fixpoint headers_len_loop (n : Z) (s : string) : Z :=
  match s with
  | EmptyString => 0
  | String a EmptyString => 0
  | String a ((String b s2) as s1) =>
      if negb (char_allowed a) then -1
      else if (code a =? 10) && (code b =? 10) then n + 2
      else if (code a =? 10) && (code b =? 13) &&
              match s2 with String c _ => code c =? 10 | EmptyString => false end then n + 3
      else headers_len_loop (n + 1) s1
  end.

Definition _shttpd_get_headers_len (buf : string) : Z := headers_len_loop 0 buf.

(** ** The headers *)

Definition _shttpd_strncasecmp (s1 s2 : string) (len : nat) : bool :=
  str_prefix (str_lower (str_take len s1)) (str_lower s2) && (len <=? String.length s1)%nat.

Inductive hdr_type := HDR_INT | HDR_STRING | HDR_DATE.

(** The known headers. *)
Definition http_headers : list (hdr_type * string) :=
  [ (HDR_INT, "Content-Length: "); (HDR_STRING, "Content-Type: "); (HDR_STRING, "User-Agent: ");
    (HDR_DATE, "If-Modified-Since: "); (HDR_STRING, "Authorization: "); (HDR_STRING, "Referer: ");
    (HDR_STRING, "Cookie: "); (HDR_STRING, "Location: "); (HDR_INT, "Status: ");
    (HDR_STRING, "Range: "); (HDR_STRING, "Connection: "); (HDR_STRING, "Transfer-Encoding: ") ].

(** A [struct vec] into the buffer of the headers. *)
Record vec := Vec { v_off : nat; v_len : Z }.

Record headers := Headers { h_cl : Z; h_vecs : list (string * vec) }.

Fixpoint known_header (l : list (hdr_type * string)) (line : string) : option (hdr_type * string) :=
  match l with
  | [] => None
  | (t, n) :: l' =>
      if (String.length n <? String.length line)%nat && _shttpd_strncasecmp n line (String.length n)
      then Some (t, n) else known_header l' line
  end.

(** The line before the newline, and what follows it. *)
Fixpoint take_line (s : string) : string * string :=
  match s with
  | EmptyString => (EmptyString, EmptyString)
  | String a s' =>
      if code a =? 10 then (EmptyString, s')
      else let '(l, r) := take_line s' in (String a l, r)
  end.

Fixpoint last_is (c : Z) (s : string) : bool :=
  match s with
  | EmptyString => false
  | String a EmptyString => code a =? c
  | String _ s' => last_is c s'
  end.

(** A number as an unsigned long. *)
Definition ulong_of (v : Z) : Z := if Z.abs v <=? ULONG_MAX then wrap64 v else ULONG_MAX.

Definition strtoul_value (s : string) : Z :=
  match scan_int s with Some (v, _) => ulong_of v | None => 0 end.

(** One line at [off]; [rest] is the text from the line to the end.  Dates are
    not used by the daemon. *)
Definition parse_header_line (off : nat) (rest : string) (h : headers) : headers :=
  let line := (take_line rest).1 in
  match known_header http_headers rest with
  | None => h
  | Some (t, n) =>
      let k := String.length n in
      let len := Z.of_nat (String.length line) - Z.of_nat k in
      match t with
      | HDR_STRING =>
          Headers (h_cl h)
            ((n, Vec (off + k) (if last_is 13 line && (0 <? len) then len - 1 else len)) :: h_vecs h)
      | HDR_INT =>
          if str_eqb n "Content-Length: " then
            Headers (strtoul_value (default "" (str_drop k rest))) (h_vecs h)
          else h
      | HDR_DATE => h
      end
  end.

(** The loop over the lines; every round takes a character. *)
Fixpoint parse_headers_loop (fuel off : nat) (rest : string) (h : headers) : headers :=
  match fuel, rest with
  | S fuel, String _ _ =>
      let '(line, rest') := take_line rest in
      parse_headers_loop fuel (off + String.length line + 1) rest' (parse_header_line off rest h)
  | _, _ => h
  end.

Definition _shttpd_parse_headers (s : string) : headers :=
  parse_headers_loop (String.length s) 0 s (Headers 0 []).

(** The last occurrence of a header counts: it was stored over the others. *)
Definition header_vec (h : headers) (n : string) : vec :=
  default (Vec 0 0) (snd <$> find (λ p, str_eqb p.1 n) (h_vecs h)).

(** ** Looking up a header

    The buffer is cut at the end of each line that is visited. *)

(** The position of the first newline of the string at [p] (before a NUL). *)
Fixpoint find_newline (s : string) : option nat :=
  match s with
  | EmptyString => None
  | String a s' =>
      if code a =? 0 then None
      else if code a =? 10 then Some O
      else S <$> find_newline s'
  end.

(** [s[s[-1] == '\r' ? -1 : 0] = '\0'] for the newline of the string at [p]. *)
Definition cut_line (b : string) (p : nat) : option string :=
  r ← str_drop p b;
  match find_newline r with
  | None => Some b
  | Some k =>
      let s := (p + k)%nat in
      prev ← (if (s =? 0)%nat then Some 0 else buf_at b (s - 1));
      if (prev =? 13) && (0 <? s)%nat then buf_put b (s - 1) 0 else buf_put b s 0
  end.

(** The value is the string behind the name, a colon and a space; the new
    contents of the buffer. *)
Fixpoint get_header_loop (fuel : nat) (b : string) (name : string) (p : nat)
  : option (option string * string) :=
  match fuel with
  | O => Some (None, b)
  | S fuel =>
      if (p <? String.length b)%nat then
        b ← cut_line b p;
        r ← str_drop p b;
        if _shttpd_strncasecmp name r (String.length name) then
          v ← buf_str b (p + String.length name + 2);
          Some (Some v, b)
        else get_header_loop fuel b name (p + String.length (c_str r) + 1)
      else Some (None, b)
  end.

Definition shttpd_get_header (b : string) (name : string) : option (option string * string) :=
  get_header_loop (S (String.length b)) b name 0.

(** ** Registered and protected URIs *)

(** [None]: the text is read beyond its end, which happens when no rest of it
    matches what follows a star. *)
Fixpoint match_star (m : string → option bool) (text : string) : option bool :=
  r ← m text;
  if r : bool then Some true
  else match text with EmptyString => None | String _ t => match_star m t end.

Fixpoint match_regexp (regexp text : string) : option bool :=
  match regexp with
  | EmptyString => Some (if text is EmptyString then true else false)
  | String r regexp' =>
      if code r =? 42 then match_star (match_regexp regexp') text
      else
        match text with
        | String t text' => if code r =? code t then match_regexp regexp' text' else Some false
        | EmptyString => Some false
        end
  end.

Inductive auth_type := BASIC_AUTH | DIGEST_AUTH.

(** A protection: the URI, the type and whether there is a callback. *)
Record uri_auth := UriAuth { a_uri : string; a_file : option string; a_type : auth_type; a_cb : bool }.

(** A registered function is known by a number. *)
Record shttpd_ctx := Ctx { registered_uris : list (string * Z); uri_auths : list uri_auth }.

Definition shttpd_register_uri (ctx : shttpd_ctx) (uri : string) (callback : Z) : shttpd_ctx :=
  Ctx (registered_uris ctx ++ [(uri, callback)]) (uri_auths ctx).

Definition shttpd_protect_uri (ctx : shttpd_ctx) (uri : string) (file : option string) (cb : bool)
    (type : auth_type) : shttpd_ctx :=
  Ctx (registered_uris ctx) (UriAuth uri file type cb :: uri_auths ctx).

Fixpoint find_registered (l : list (string * Z)) (uri : string) : option (option Z) :=
  match l with
  | [] => Some None
  | (pat, cb) :: l' => r ← match_regexp pat uri; if r : bool then Some (Some cb) else find_registered l' uri
  end.

Definition _shttpd_is_registered_uri (ctx : shttpd_ctx) (uri : string) : option (option Z) :=
  find_registered (registered_uris ctx) uri.

(** ** Authorization *)

Definition token_end (a : ascii) : bool :=
  (code a =? 32) || (code a =? 9) || (code a =? 13) || (code a =? 10) || (code a =? 0).

Fixpoint skip_blank (s : string) : string :=
  match s with
  | String a s' => if (code a =? 32) || (code a =? 9) then skip_blank s' else s
  | EmptyString => EmptyString
  end.

Fixpoint take_token (s : string) : string :=
  match s with
  | String a s' => if token_end a then EmptyString else String a (take_token s')
  | EmptyString => EmptyString
  end.

Fixpoint str_of_codes (l : list Z) : string :=
  match l with [] => EmptyString | z :: l' => String (chr z) (str_of_codes l') end.

(** What follows a colon. *)
Fixpoint split_colon (s : string) : option (string * string) :=
  match s with
  | EmptyString => None
  | String a s' =>
      if code a =? 58 then Some (EmptyString, s')
      else '(u, p) ← split_colon s'; Some (String a u, p)
  end.

(** The user and the password of the text behind "Basic"; the inner [None] is an
    early return. *)
Definition basic_credentials (text : string) : option (option (string * string)) :=
  match take_token (skip_blank text) with
  | EmptyString => Some None
  | t =>
      '(buf, l) ← ws_base64_decode (codes t) 4095;
      if l <=? 0 then Some None
      else Some (split_colon (c_str (str_of_codes (take (Z.to_nat l) buf))))
  end.

(** Where the end of the string is put behind the token. *)
Definition token_cut (b : string) (off : nat) : option string :=
  text ← str_drop off b;
  let lead := (String.length text - String.length (skip_blank text))%nat in
  match take_token (skip_blank text) with
  | EmptyString => Some b
  | t => buf_put b (off + lead + String.length t) 0
  end.

(** [!strncasecmp(auth_vec->ptr, scheme, n)] for a header that is long enough. *)
Definition scheme_is (b : string) (v : vec) (scheme : string) (min : Z) : bool :=
  (min <? v_len v) &&
  match str_drop (v_off v) b with
  | Some r => _shttpd_strncasecmp scheme r (String.length scheme)
  | None => false
  end.

(** The first protection of which the URI is a prefix. *)
Fixpoint find_auth (l : list uri_auth) (uri : string) : option uri_auth :=
  match l with
  | [] => None
  | a :: l' => if str_prefix uri (a_uri a) then Some a else find_auth l' uri
  end.

(** [cb] is the authenticator.  The result, and the buffer of the headers. *)
Definition _shttpd_check_authorization (cb : string → string → Z) (ctx : shttpd_ctx)
    (uri : string) (b : string) (v : vec) : option (Z * string) :=
  match find_auth (uri_auths ctx) uri with
  | None => Some (1, b)
  | Some a =>
      match a_type a with
      | DIGEST_AUTH => Some (0, b)
      | BASIC_AUTH =>
          if scheme_is b v "Basic " 10 then
            text ← str_drop (v_off v + 5) b;
            basic_credentials text ≫= λ c : option (string * string),
            b ← token_cut b (v_off v + 5);
            match c with
            | None => Some (0, b)
            | Some (user, pwd) => Some (cb user pwd, b)
            end
          else Some (0, b)
      end
  end.

(** The credentials for the plugins, read again from the header. *)
Definition shttpd_get_credentials (b : string) (v : vec) : option (option (string * string) * string) :=
  if scheme_is b v "Basic " 10 then
    text ← str_drop (v_off v + 5) b;
    c ← basic_credentials text;
    b ← token_cut b (v_off v + 5);
    Some (c, b)
  else Some (None, b).

Definition crlf : string := String (chr 13) (String (chr 10) EmptyString).
Definition quote1 (s : string) : string := String (chr 34) (s +:+ String (chr 34) EmptyString).

(** [snprintf(buf + n, sizeof(buf) - n, ...)] into the 512 characters of [buf];
    behind their end it writes over other data. *)
Definition print_512 (st : string * nat) (s : string) : option (string * nat) :=
  let '(buf, n) := st in
  if (512 <? n)%nat then None else Some (buf +:+ str_take (512 - n - 1) s, (n + String.length s)%nat).

Definition digest_challenge (realm : string) (now : Z) : string :=
  "WWW-Authenticate: Digest qop=" +:+ quote1 "auth" +:+ ", realm=" +:+ quote1 realm +:+ ", nonce=" +:+
  quote1 (print_nat (wrap64 now)).

Definition basic_challenge (realm : string) : string := "WWW-Authenticate: Basic realm=" +:+ quote1 realm.

(** [b] and [d]: a challenge of the type has been written. *)
Fixpoint challenges (realm : string) (now : Z) (l : list uri_auth) (b d : bool) (st : string * nat)
  : option (string * nat) :=
  match l with
  | [] => Some st
  | a :: l' =>
      match a_type a with
      | DIGEST_AUTH =>
          if d then challenges realm now l' b d st
          else
            st ← (if b then print_512 st crlf else Some st);
            st ← print_512 st (digest_challenge realm now);
            challenges realm now l' b true st
      | BASIC_AUTH =>
          if b then challenges realm now l' b d st
          else
            st ← (if d then print_512 st crlf else Some st);
            st ← print_512 st (basic_challenge realm);
            challenges realm now l' true d st
      end
  end.

(** The reason of the error 401. *)
Definition _shttpd_send_authorization_request (realm : string) (now : Z) (ctx : shttpd_ctx) : option string :=
  st ← print_512 ("", O) ("Unauthorized" +:+ crlf);
  r ← challenges realm now (uri_auths ctx) false false st;
  Some r.1.

(** ** What becomes of a request *)

Record conn := Conn { c_uri : string; c_headers : string; c_ch : headers }.

Inductive decision := SendError (status : Z) (reason : string) | Embedded (callback : Z) (c : conn).

Definition URI_MAX : nat := 16384.

(** [root]: the length of the option for the root directory; [realm]: the option
    for the realm; [now]: the time.  The path of a file that the URI may be an
    alias of is computed but not used. *)
Definition decide_what_to_do (cb : string → string → Z) (ctx : shttpd_ctx) (root : nat) (realm : string) (now : Z)
    (c : conn)
  : option decision :=
  let uri := match strchr (c_uri c) (chr 63) with
             | Some q => str_before (c_uri c) q
             | None => c_uri c
             end in
  let uri := c_str (_shttpd_url_decode uri (String.length uri + 1)).1 in
  let uri := remove_all_leading_and_double_dots uri in
  if (URI_MAX <=? String.length uri + root)%nat then Some (SendError 400 "URI is too long")
  else
    '(r, b) ← _shttpd_check_authorization cb ctx uri (c_headers c) (header_vec (c_ch c) "Authorization: ");
    if negb (r =? 1) then reason ← _shttpd_send_authorization_request realm now ctx; Some (SendError 401 reason)
    else
      f ← _shttpd_is_registered_uri ctx uri;
      Some (match f : option Z with
            | Some f => Embedded f (Conn uri b (c_ch c))
            | None => SendError 403 "Forbidden"
            end).

(** [sscanf(p, "HTTP/%lu.%lu%n", ...)]: the numbers that are stored, and whether
    both are there with nothing behind them. *)
Definition scan_version (s : string) : option Z * option Z * bool :=
  match (if str_prefix "HTTP/" s then str_drop 5 s ≫= scan_int else None) with
  | None => (None, None, false)
  | Some (major, r) =>
      match scan_lit 46 r ≫= scan_int with
      | None => (Some (ulong_of major), None, false)
      | Some (minor, r) => (Some (ulong_of major), Some (ulong_of minor), str_eqb r "")
      end
  end.

Fixpoint skip_until_space (s : string) : string :=
  match s with
  | String a s' => if code a =? 32 then s else skip_until_space s'
  | EmptyString => EmptyString
  end.

Fixpoint skip_spaces (s : string) : string :=
  match s with
  | String a s' => if code a =? 32 then skip_spaces s' else s
  | EmptyString => EmptyString
  end.

Fixpoint take_word (s : string) : string :=
  match s with
  | String a s' => if isspace a then EmptyString else String a (take_word s')
  | EmptyString => EmptyString
  end.

(** A request that is not complete; one that is answered before its first line
    is read, or later; and one that is parsed. *)
Inductive request_result :=
  | Incomplete
  | Refused (status : Z) (reason : string)
  | Answered (status : Z) (reason : string)
  | Parsed_ (c : conn).

(** The first line of a request is cut at its end and searched in the buffer of
    the whole request; [full] says that the connection's buffer has no more room.
    The method is looked for at the start of that buffer, which may be before the
    data.  The numbers of the version are those that were read. *)
Definition parse_http_request (start data : string) (full : bool) : request_result * (option Z * option Z) :=
  let req_len := _shttpd_get_headers_len data in
  let none := (None, None) in
  if req_len =? 0 then (if full then Refused 400 "Request is too big" else Incomplete, none)
  else if req_len <? 16 then (Refused 400 "Bad request", none)
  else if negb (str_prefix "POST" start) then (Refused 501 "Method Not Implemented", none)
  else
    let req := str_take (Z.to_nat req_len) data in
    let '(line, hdrs) := take_line req in
    let line' := if last_is 13 line then default line (buf_put line (String.length line - 1) 0) else line in
    let buf := line' +:+ String (chr 0) hdrs in
    let p := skip_spaces (skip_until_space buf) in
    let word := take_word p in
    let p' := skip_spaces (default "" (str_drop (String.length word) p)) in
    let '(major, minor, ok) := scan_version (c_str p') in
    (match major, minor with
     | Some ma, Some mi =>
         if negb ok then Answered 400 "Bad HTTP version"
         else if (1 <? ma) || ((ma =? 1) && (1 <? mi)) then Answered 505 "HTTP version not supported"
         else if (String.length word =? 0)%nat then Answered 400 "Bad URI"
         else Parsed_ (Conn (c_str word) hdrs (_shttpd_parse_headers hdrs))
     | _, _ => Answered 400 "Bad HTTP version"
     end, (major, minor)).

(** ** Cleaned URIs *)

(** No separator is followed by a dot or another separator. *)
Fixpoint clean (after : bool) (s : string) : bool :=
  match s with
  | EmptyString => true
  | String a s' => negb (after && ((code a =? 46) || is_sep a)) && clean (is_sep a) s'
  end.

Lemma dots_loop_clean s after : clean after (dots_loop after s) = true.
Proof.
  revert after. induction s as [|a s IH]; intros after; simpl; [done|].
  destruct (after && _) eqn:E.
  - apply andb_true_iff in E as [-> _]. apply IH.
  - simpl. rewrite E, IH. done.
Qed.

Lemma dots_loop_id s after : clean after s = true → dots_loop after s = s.
Proof.
  revert after. induction s as [|a s IH]; intros after; simpl; [done|].
  intros [Ha%negb_true_iff Hs]%andb_true_iff. rewrite Ha. by rewrite IH.
Qed.

Lemma skip_dots_first s a r : skip_dots s = String a r → (code a =? 46) = false.
Proof.
  induction s as [|c s IH]; simpl; [done|]. destruct (code c =? 46) eqn:E; [apply IH|]. by intros [= <- _].
Qed.

(** The path of a URI cannot leave the place it is served from: after
    cleaning it begins with no dot and no separator is followed by a dot or by
    another separator, so that no component is "." or ".."; a clean path is not
    changed, and cleaning twice is cleaning once. *)
Theorem uri_cleaned (s : string) :
  let r := remove_all_leading_and_double_dots s in
  clean false r = true ∧ starts (λ a, code a =? 46) r = false ∧
  remove_all_leading_and_double_dots r = r ∧
  (clean false s = true → starts (λ a, code a =? 46) s = false → r = s).
Proof.
  unfold remove_all_leading_and_double_dots. cbv zeta.
  assert (Hc : clean false (dots_loop false (skip_dots s)) = true) by apply dots_loop_clean.
  assert (Hs : ∀ t, starts (λ a, code a =? 46) t = false → skip_dots t = t).
  { intros [|a t]; simpl; [done|]. by intros ->. }
  assert (Hd : starts (λ a, code a =? 46) (dots_loop false (skip_dots s)) = false).
  { destruct (skip_dots s) as [|a r] eqn:E; [done|]. simpl. by eapply skip_dots_first. }
  split_and!; try done.
  - rewrite (Hs _ Hd). by apply dots_loop_id.
  - intros H1 H2. rewrite (Hs _ H2). by apply dots_loop_id.
Qed.

(** ** Percent encoding *)

Definition hex_digit (n : Z) : ascii := chr (if n <? 10 then 48 + n else 87 + n).

(** Every character as a percent sign and two digits. *)
Fixpoint url_encode (s : string) : string :=
  match s with
  | EmptyString => EmptyString
  | String a s' =>
      String (chr 37) (String (hex_digit (code a / 16)) (String (hex_digit (code a mod 16)) (url_encode s')))
  end.

Definition hex_check (v : Z) : bool :=
  let a := chr v in
  let x := hex_digit (code a / 16) in let y := hex_digit (code a mod 16) in
  isxdigit x && isxdigit y && (code (hex_byte x y) =? v).

Lemma hex_byte_digits a :
  isxdigit (hex_digit (code a / 16)) = true ∧ isxdigit (hex_digit (code a mod 16)) = true ∧
  hex_byte (hex_digit (code a / 16)) (hex_digit (code a mod 16)) = a.
Proof.
  assert (Hall : all_below 256 hex_check = true) by (vm_compute; reflexivity).
  pose proof (code_range a) as Hr. pose proof (all_below_spec _ _ (code a) Hall ltac:(lia)) as H.
  unfold hex_check in H. replace (chr (code a)) with a in H.
  - apply andb_true_iff in H as [[H1 H2]%andb_true_iff H3%Z.eqb_eq]. exact (conj H1 (conj H2 (code_inj _ _ H3))).
  - apply code_inj. by rewrite code_chr.
Qed.

Lemma url_decode_encode s room :
  (String.length s ≤ room)%nat → url_decode_loop room (url_encode s) = s.
Proof.
  revert room. induction s as [|a s IH]; intros [|room] Hr; simpl in Hr; try done; try lia.
  destruct (hex_byte_digits a) as (H1 & H2 & H3). cbn [url_encode url_decode_loop].
  change (code (chr 37) =? 37) with true. cbn iota. rewrite H1, H2, H3. cbn [andb]. by rewrite IH by lia.
Qed.

Lemma url_decode_length room s : (String.length (url_decode_loop room s) ≤ room)%nat.
Proof.
  revert s. induction room as [|room IH]; intros [|a s]; simpl; try lia.
  destruct (code a =? 37); [destruct s as [|b [|c s]]|]; repeat case_match; simpl;
    try (specialize (IH EmptyString); lia); try (specialize (IH s); lia);
    match goal with |- context [url_decode_loop room ?t] => specialize (IH t); lia end.
Qed.

(** URL decoding undoes percent encoding, and never writes more than the
    buffer has, including the NUL. *)
Theorem url_decode_roundtrip (s src : string) (dst_len : nat) :
  (0 < dst_len)%nat →
  _shttpd_url_decode (url_encode s) (String.length s + 1) = (s, Z.of_nat (String.length s)) ∧
  (String.length (_shttpd_url_decode src dst_len).1 + 1 ≤ dst_len)%nat.
Proof.
  intros Hd. unfold _shttpd_url_decode. split.
  - rewrite Nat.add_sub, url_decode_encode by lia. done.
  - cbn [fst]. pose proof (url_decode_length (dst_len - 1) src). lia.
Qed.

(** ** Header buffers

    A line of the headers, as it was received, with its end cut off, or with
    the newline overwritten as well. *)

Inductive tail := TIntact | TCut | TGone.

Definition tail_str (t : tail) : string :=
  match t with
  | TIntact => String (chr 13) (str1 (chr 10))
  | TCut => String (chr 0) (str1 (chr 10))
  | TGone => String (chr 0) (str1 (chr 0))
  end.

Definition cut1 (t : tail) : tail := match t with TIntact => TCut | t => t end.

Definition hline (h : string * string) : string := h.1 +:+ ": " +:+ h.2.

(** The buffer of the headers with the empty line at the end. *)
Fixpoint hbuf (hs : list (string * string * tail)) (e : tail) : string :=
  match hs with
  | [] => tail_str e
  | (h, t) :: hs' => hline h +:+ tail_str t +:+ hbuf hs' e
  end.

Definition plain_char (a : ascii) : bool := none_of [0; 10; 13] a.

Definition header_ok (h : string * string) : bool :=
  starts (λ _, true) h.1 && str_all plain_char h.1 && str_all plain_char h.2.

(** [b] holds the headers [hs]. *)
Definition headers_of (b : string) (hs : list (string * string)) : Prop :=
  ∃ ts e, length ts = length hs ∧ b = hbuf (zip hs ts) e.

(** The header is asked for by its whole name, and no other begins with it. *)
Definition name_ok (name : string) (h : string * string) : bool :=
  str_eqb (str_lower h.1) (str_lower name) || negb (_shttpd_strncasecmp name (hline h) (String.length name)).

Fixpoint hlookup (name : string) (hs : list (string * string)) : option string :=
  match hs with
  | [] => None
  | h :: hs' => if str_eqb (str_lower h.1) (str_lower name) then Some h.2 else hlookup name hs'
  end.

Lemma hline_plain h : header_ok h = true → str_all plain_char (hline h) = true.
Proof.
  unfold header_ok, hline. intros [[_ H1]%andb_true_iff H2]%andb_true_iff.
  rewrite !str_all_app, H1, H2. done.
Qed.

Lemma plain_char_spec a :
  plain_char a = true → (code a =? 0) = false ∧ (code a =? 10) = false ∧ (code a =? 13) = false.
Proof.
  unfold plain_char. rewrite !none_of_cons, !andb_true_iff, !negb_true_iff. naive_solver.
Qed.

Lemma c_str_app s r : str_all plain_char s = true → c_str (s +:+ String (chr 0) r) = s.
Proof.
  induction s as [|a s IH]; simpl; [done|]. intros [(Ha & _)%plain_char_spec Hs]%andb_true_iff.
  by rewrite Ha, IH.
Qed.

Lemma find_newline_plain s r :
  str_all plain_char s = true →
  find_newline (s +:+ r) = (λ k, String.length s + k)%nat <$> find_newline r.
Proof.
  induction s as [|a s IH]; simpl; [intros _; rewrite str_nil_app; by destruct (find_newline r)|].
  intros [(H0 & H10 & _)%plain_char_spec Hs]%andb_true_iff. rewrite H0, H10, IH by done.
  by destruct (find_newline r).
Qed.

Lemma str_drop_app' a b k : str_drop (String.length a + k) (a +:+ b) = str_drop k b.
Proof. induction a as [|c a IH]; [done|]. simpl. by rewrite IH. Qed.

Lemma buf_at_app' a b k : buf_at (a +:+ b) (String.length a + k) = buf_at b k.
Proof. unfold buf_at. by rewrite str_drop_app'. Qed.

Lemma buf_put_app' a b k c : buf_put (a +:+ b) (String.length a + k) c = (λ x, a +:+ x) <$> buf_put b k c.
Proof.
  induction a as [|x a IH]; simpl; [rewrite str_nil_app; by destruct (buf_put b k c)|]. rewrite IH. by destruct (buf_put b k c).
Qed.

(** The end of a line is cut. *)
Lemma cut_line_line P s t R :
  str_all plain_char s = true →
  cut_line (P +:+ s +:+ tail_str t +:+ R) (String.length P) = Some (P +:+ s +:+ tail_str (cut1 t) +:+ R).
Proof.
  intros Hs. unfold cut_line. rewrite str_drop_app. cbn [mbind option_bind]. rewrite find_newline_plain by done.
  destruct t; cbn [tail_str String.append find_newline cut1]; try done.
  change (find_newline (String (chr 13) (str1 (chr 10)) +:+ R)) with (Some 1%nat).
  cbn [fmap option_fmap option_map].
  replace (String.length P + (String.length s + 1) - 1)%nat
    with (String.length P + (String.length s + 0))%nat by lia.
  replace (_ =? 0)%nat with false by (symmetry; apply Nat.eqb_neq; lia).
  rewrite buf_at_app', buf_at_app'. cbn [mbind option_bind].
  change (buf_at (String (chr 13) (str1 (chr 10)) +:+ R) 0) with (Some 13). cbn [mbind option_bind Z.eqb Pos.eqb andb].
  replace (0 <? _)%nat with true by (symmetry; apply Nat.ltb_lt; lia).
  rewrite !buf_put_app'. done.
Qed.

Lemma tolower_plain a : plain_char a = true → plain_char (tolower a) = true.
Proof.
  unfold plain_char. intros H. rewrite !none_of_cons in H |- *. unfold tolower.
  destruct ((65 <=? code a) && (code a <=? 90)) eqn:E; [|done].
  apply andb_true_iff in E as [E1%Z.leb_le E2%Z.leb_le].
  assert (Hc : code (ascii_of_N (Z.to_N (code a + 32))) = code a + 32).
  { apply (code_chr (code a + 32)). lia. }
  rewrite Hc. unfold none_of. rewrite bool_decide_eq_false_2 by set_solver. lia.
Qed.

Lemma lower_plain s : str_all plain_char s = true → str_all plain_char (str_lower s) = true.
Proof.
  induction s as [|a s IH]; simpl; [done|]. intros [Ha Hs]%andb_true_iff.
  by rewrite tolower_plain, IH.
Qed.

Lemma str_lower_app a b : str_lower (a +:+ b) = str_lower a +:+ str_lower b.
Proof. induction a as [|c a IH]; simpl; [done|]. by rewrite IH. Qed.

(** A plain prefix does not reach beyond a NUL. *)
Lemma prefix_before_nul p s r :
  str_all plain_char p = true → str_prefix p (s +:+ String (chr 0) r) = true → str_prefix p s = true.
Proof.
  revert s. induction p as [|a p IH]; intros s Hp; [by destruct s|].
  simpl in Hp. apply andb_true_iff in Hp as [Ha Hp]. destruct s as [|b s]; simpl.
  - apply plain_char_spec in Ha as (Ha & _). change (code (chr 0)) with 0. intros [H _]%andb_true_iff.
    apply Z.eqb_eq in H. rewrite H in Ha. done.
  - intros [-> H]%andb_true_iff. by apply IH in H.
Qed.

Lemma strncasecmp_full name r :
  _shttpd_strncasecmp name r (String.length name) = str_prefix (str_lower name) (str_lower r).
Proof.
  unfold _shttpd_strncasecmp. rewrite str_take_ge by lia.
  by rewrite (proj2 (Nat.leb_le _ _) (le_n _)), andb_true_r.
Qed.

Lemma lower_nul r : str_lower (String (chr 0) r) = String (chr 0) (str_lower r).
Proof. done. Qed.

Section GetHeader.
Context (name : string).
Hypothesis Hname : str_all plain_char name = true.
Hypothesis Hstart : starts (λ _, true) name = true.

Lemma no_match_before_nul s r :
  _shttpd_strncasecmp name s (String.length name) = false →
  _shttpd_strncasecmp name (s +:+ String (chr 0) r) (String.length name) = false.
Proof using Hname.
  rewrite !strncasecmp_full, str_lower_app, lower_nul. intros H. apply not_true_iff_false.
  intros H'%prefix_before_nul; [|by apply lower_plain]. by rewrite H in H'.
Qed.

Lemma no_match_nul r : _shttpd_strncasecmp name (String (chr 0) r) (String.length name) = false.
Proof using Hname Hstart.
  apply (no_match_before_nul "" r). rewrite strncasecmp_full. by destruct name.
Qed.

Lemma match_same h r :
  str_eqb (str_lower h.1) (str_lower name) = true →
  _shttpd_strncasecmp name (hline h +:+ r) (String.length name) = true ∧
  String.length name = String.length h.1.
Proof.
  intros He%str_eqb_eq. rewrite strncasecmp_full. unfold hline. rewrite !str_app_assoc, str_lower_app, He.
  split; [apply str_prefix_app|]. rewrite <- (str_lower_length name), <- He. by rewrite str_lower_length.
Qed.

(** A character that is no more than the rest of a line that was cut. *)
Lemma get_header_rest fuel Q x R :
  last_is 0 Q = true → x = chr 10 ∨ x = chr 0 →
  get_header_loop (S fuel) (Q +:+ str1 x +:+ R) name (String.length Q) =
  get_header_loop fuel (Q +:+ str1 (chr 0) +:+ R) name (String.length Q + 1).
Proof using Hname Hstart.
  intros Hq Hx. cbn [get_header_loop].
  rewrite (proj2 (Nat.ltb_lt _ _)) by (rewrite !str_length_app; simpl; lia).
  assert (Hcut : cut_line (Q +:+ str1 x +:+ R) (String.length Q) = Some (Q +:+ str1 (chr 0) +:+ R)).
  { unfold cut_line. rewrite str_drop_app. cbn [mbind option_bind].
    destruct Hx as [->| ->]; [|done].
    change (find_newline (str1 (chr 10) +:+ R)) with (Some 0%nat). cbv beta iota zeta.
    rewrite Nat.add_0_r. assert (Hl : ∃ Q', Q = Q' +:+ str1 (chr 0)).
    { clear - Hq. induction Q as [|a Q IH]; [done|]. simpl in Hq. destruct Q as [|b Q].
      - apply Z.eqb_eq in Hq. exists "". replace a with (chr 0) by by apply code_inj. done.
      - destruct (IH Hq) as (Q' & ->). by exists (String a Q'). }
    destruct Hl as (Q' & ->). rewrite str_length_app. change (String.length (str1 (chr 0))) with 1%nat.
    replace (_ =? 0)%nat with false by (symmetry; apply Nat.eqb_neq; lia).
    replace (String.length Q' + 1 - 1)%nat with (String.length Q' + 0)%nat by lia.
    rewrite str_app_assoc, buf_at_app'. change (buf_at (str1 (chr 0) +:+ str1 (chr 10) +:+ R) 0) with (Some 0).
    cbn [mbind option_bind Z.eqb andb]. rewrite buf_put_app', str_app_assoc. done. }
  rewrite Hcut. cbn [mbind option_bind]. rewrite str_drop_app. cbn [mbind option_bind].
  change (str1 (chr 0) +:+ R) with (String (chr 0) R). rewrite no_match_nul.
  change (String.length (c_str (String (chr 0) R))) with 0%nat. by rewrite Nat.add_0_r.
Qed.

Lemma get_header_line fuel P h t R :
  header_ok h = true → name_ok name h = true →
  get_header_loop (S (S fuel)) (P +:+ hline h +:+ tail_str t +:+ R) name (String.length P) =
  (if str_eqb (str_lower h.1) (str_lower name) then
     Some (Some h.2, P +:+ hline h +:+ tail_str (cut1 t) +:+ R)
   else get_header_loop fuel ((P +:+ hline h +:+ tail_str TGone) +:+ R) name
          (String.length (P +:+ hline h +:+ tail_str TGone))).
Proof using Hname Hstart.
  intros Hh Hn. remember (S fuel) as fuel1. cbn [get_header_loop].
  rewrite (proj2 (Nat.ltb_lt _ _)) by (rewrite !str_length_app; destruct t; simpl; lia).
  rewrite cut_line_line by by apply hline_plain. cbn [mbind option_bind]. rewrite str_drop_app.
  cbn [mbind option_bind]. assert (Ht : ∃ x, tail_str (cut1 t) = String (chr 0) (str1 x) ∧ (x = chr 10 ∨ x = chr 0))
    by (destruct t; eexists; split; auto). destruct Ht as (x & Ht & Hx). rewrite Ht.
  destruct (str_eqb (str_lower h.1) (str_lower name)) eqn:E.
  - destruct (match_same h (String (chr 0) (str1 x) +:+ R) E) as [-> Hl].
    rewrite Hl. unfold hline. rewrite !str_app_assoc. unfold buf_str.
    replace (String.length P + String.length h.1 + 2)%nat
      with (String.length P + (String.length h.1 + (2 + 0)))%nat by lia.
    rewrite !str_drop_app'. change 2%nat with (String.length ": "). rewrite str_drop_app'. cbn [str_drop].
    assert (Hv : str_all plain_char h.2 = true) by by unfold header_ok in Hh; apply andb_true_iff in Hh as [_ ?].
    destruct (h.2 +:+ String (chr 0) (str1 x) +:+ R) eqn:Ev; [by destruct (h.2)|].
    rewrite <- Ev. cbn [fmap option_fmap option_map mbind option_bind].
    change (String (chr 0) (str1 x) +:+ R) with (String (chr 0) (str1 x +:+ R)). by rewrite c_str_app.
  - unfold name_ok in Hn. rewrite E in Hn. apply negb_true_iff in Hn.
    change (String (chr 0) (str1 x) +:+ R) with (String (chr 0) (str1 x +:+ R)).
    rewrite no_match_before_nul by done. rewrite c_str_app by by apply hline_plain. subst fuel1.
    replace (P +:+ hline h +:+ String (chr 0) (str1 x +:+ R))
      with ((P +:+ hline h +:+ str1 (chr 0)) +:+ str1 x +:+ R) by by rewrite !str_app_assoc.
    replace (String.length P + String.length (hline h) + 1)%nat
      with (String.length (P +:+ hline h +:+ str1 (chr 0))) by (rewrite !str_length_app; simpl; lia).
    rewrite get_header_rest; [|clear|done].
    + f_equal; [by rewrite !str_app_assoc|]. rewrite !str_length_app. simpl. lia.
    + assert (Hlast : ∀ s, last_is 0 (s +:+ str1 (chr 0)) = true).
      { induction s as [|a s IH]; [done|]. simpl. destruct (s +:+ str1 (chr 0)) eqn:Es; [by destruct s|done]. }
      rewrite <- str_app_assoc. apply Hlast.
Qed.
End GetHeader.

Section GetHeaders.
Context (name : string).
Hypothesis Hname : str_all plain_char name = true.
Hypothesis Hstart : starts (λ _, true) name = true.

Lemma get_header_end fuel P e :
  (2 ≤ fuel)%nat →
  get_header_loop (S fuel) (P +:+ tail_str e) name (String.length P) = Some (None, P +:+ tail_str TGone).
Proof using Hname Hstart.
  intros Hf. destruct fuel as [|[|fuel]]; [lia..|]. remember (S (S fuel)) as fuel1. cbn [get_header_loop].
  rewrite (proj2 (Nat.ltb_lt _ _)) by (rewrite str_length_app; destruct e; simpl; lia).
  pose proof (cut_line_line P "" e "" eq_refl) as Hc. rewrite str_app_nil in Hc.
  cbn [String.append] in Hc. rewrite !str_nil_app, str_app_nil in Hc. rewrite Hc.
  cbn [mbind option_bind]. rewrite str_drop_app. cbn [mbind option_bind].
  assert (Ht : ∃ x, tail_str (cut1 e) = String (chr 0) (str1 x) ∧ (x = chr 10 ∨ x = chr 0))
    by (destruct e; eexists; split; auto). destruct Ht as (x & Ht & Hx). rewrite Ht.
  rewrite no_match_nul by done. change (c_str (String (chr 0) (str1 x))) with "". subst fuel1.
  replace (P +:+ String (chr 0) (str1 x)) with ((P +:+ str1 (chr 0)) +:+ str1 x +:+ "")
    by by rewrite !str_app_assoc.
  replace (String.length P + String.length "" + 1)%nat with (String.length (P +:+ str1 (chr 0)))
    by (rewrite str_length_app; simpl; lia).
  rewrite get_header_rest; [|done|done|clear|done].
  - cbn [get_header_loop]. rewrite str_app_nil.
    replace (_ <? _)%nat with false; [|symmetry; apply Nat.ltb_ge; rewrite !str_length_app; simpl; lia].
    by rewrite !str_app_assoc.
  - induction P as [|a P IH]; [done|]. simpl. destruct (P +:+ str1 (chr 0)) eqn:E; [by destruct P|done].
Qed.

Lemma get_header_lines hs : ∀ ts e P fuel,
  length ts = length hs → forallb header_ok hs = true → forallb (name_ok name) hs = true →
  (2 * length hs + 2 ≤ fuel)%nat →
  ∃ ts' e', length ts' = length hs ∧
    get_header_loop (S fuel) (P +:+ hbuf (zip hs ts) e) name (String.length P) =
    Some (hlookup name hs, P +:+ hbuf (zip hs ts') e').
Proof using Hname Hstart.
  induction hs as [|h hs IH]; intros [|t ts] e P fuel Hlen Hh Hn Hf; try done.
  - exists [], TGone. split; [done|]. by apply get_header_end.
  - simpl in Hlen, Hh, Hn. injection Hlen as Hlen. apply andb_true_iff in Hh as [Hh1 Hh], Hn as [Hn1 Hn].
    cbn [zip zip_with hbuf hlookup]. cbn [length] in Hf. destruct fuel as [|[|fuel]]; [lia..|].
    rewrite get_header_line by done. destruct (str_eqb _ _).
    + exists (cut1 t :: ts), e. split; [simpl; lia|]. done.
    + destruct (IH ts e (P +:+ hline h +:+ tail_str TGone) fuel Hlen Hh Hn ltac:(lia)) as (ts' & e' & Hl' & Hr).
      exists (TGone :: ts'), e'. split; [simpl; lia|]. rewrite Hr. cbn [zip zip_with hbuf].
      by rewrite !str_app_assoc.
Qed.

Lemma hbuf_length hs e : (2 * length hs + 2 ≤ String.length (hbuf hs e))%nat.
Proof.
  induction hs as [|[h t] hs IH]; [by destruct e|]. cbn [hbuf length]. rewrite !str_length_app.
  assert (String.length (tail_str t) = 2%nat) by by destruct t. lia.
Qed.

Lemma get_header_of b hs :
  headers_of b hs → forallb header_ok hs = true → forallb (name_ok name) hs = true →
  ∃ b', shttpd_get_header b name = Some (hlookup name hs, b') ∧ headers_of b' hs.
Proof using Hname Hstart.
  intros (ts & e & Hlen & ->) Hh Hn. unfold shttpd_get_header.
  destruct (get_header_lines hs ts e "" (String.length (hbuf (zip hs ts) e)) Hlen Hh Hn) as (ts' & e' & Hl & Hr).
  { pose proof (hbuf_length (zip hs ts) e) as H. rewrite length_zip_with in H. lia. }
  rewrite !str_nil_app in Hr. exists (hbuf (zip hs ts') e'). split; [exact Hr|]. by exists ts', e'.
Qed.
End GetHeaders.

(** The headers of a request can be looked up in any order and again: each
    lookup yields the value of the header with this name, in upper or lower
    case, although it overwrites the ends of the lines it passes, and leaves a
    buffer in which every later lookup yields its own. *)
Theorem headers_looked_up (hs : list (string * string)) (names : list string) :
  forallb header_ok hs = true →
  Forall (λ n, str_all plain_char n = true ∧ starts (λ _, true) n = true ∧ forallb (name_ok n) hs = true) names →
  let b := hbuf (zip hs (replicate (length hs) TIntact)) TIntact in
  foldl (λ r n, '(vs, b) ← r; '(v, b) ← shttpd_get_header b n; Some (vs ++ [v], b)) (Some ([], b)) names
    ≫= (λ r, Some r.1) = Some ((λ n, hlookup n hs) <$> names).
Proof.
  intros Hh Hn b. assert (Hb : headers_of b hs).
  { exists (replicate (length hs) TIntact), TIntact. by rewrite length_replicate. }
  clearbody b. assert (Hg : ∀ vs, foldl (λ r n, '(vs, b) ← r; '(v, b) ← shttpd_get_header b n; Some (vs ++ [v], b))
    (Some (vs, b)) names ≫= (λ r, Some r.1) = Some (vs ++ ((λ n, hlookup n hs) <$> names))); [|apply (Hg [])].
  revert b Hb. induction names as [|n names IH]; intros b Hb vs; [simpl; by rewrite app_nil_r|].
  apply Forall_cons in Hn as [(H1 & H2 & H3) Hn].
  destruct (get_header_of n H1 H2 b hs Hb Hh H3) as (b' & Hr & Hb'). cbn [foldl mbind option_bind].
  rewrite Hr. cbn [mbind option_bind]. rewrite (IH Hn b' Hb'). by rewrite <- app_assoc.
Qed.

Lemma url_decode_roundtrip_witness :
  (0 < 4)%nat ∧ (_shttpd_url_decode (url_encode "a b") 4).1 = "a b" ∧
  (String.length (_shttpd_url_decode "%zz%41BC" 4).1 + 1 ≤ 4)%nat.
Proof.
  split; [lia|]. destruct (url_decode_roundtrip "a b" "%zz%41BC" 4 ltac:(lia)) as [H1 H2].
  split; [change 4%nat with (String.length "a b" + 1)%nat; rewrite H1; reflexivity|exact H2].
Defined.

Definition sample_headers : list (string * string) :=
  [("Host", "h"); ("Content-Type", "application/soap+xml;charset=UTF-8"); ("content-length", "5")].

Lemma headers_looked_up_witness :
  (let b := hbuf (zip sample_headers (replicate 3 TIntact)) TIntact in
   foldl (λ r n, '(vs, b) ← r; '(v, b) ← shttpd_get_header b n; Some (vs ++ [v], b)) (Some ([], b))
     ["Content-Length"; "Content-Type"; "Content-Length"; "Accept"] ≫= (λ r, Some r.1)) =
  Some [Some "5"; Some "application/soap+xml;charset=UTF-8"; Some "5"; None].
Proof.
  exact (headers_looked_up sample_headers ["Content-Length"; "Content-Type"; "Content-Length"; "Accept"]
    ltac:(vm_compute; reflexivity) ltac:(repeat constructor; vm_compute; reflexivity)).
Defined.
