(* ===== verification/HttpSetup.v ===== *)
(** * Setting up the HTTP server ([shttpd/shttpd.c], [shttpd/string.c])

    The options of the server and what setting them does: the ports it listens
    on, the access control list, the worker threads, the tables of types and
    aliases; and which connections are accepted.  The daemon is built with
    NO_CGI and NO_SSI.  Sockets, users, log files and OpenSSL are those of the
    system: an instance of [System].  A fatal error ends the process ([Exits]);
    [Crash] is an access through NULL.  Memory is never exhausted. *)

From S2P Require Import Prelude.
From S2P Require Import CString.
From S2P Require Import Uri.
From S2P Require Import Base64.
From S2P Require Import Ini.
From S2P Require Import Http.
From Stdlib Require Import Ascii.

#[local] Open Scope string_scope.
#[local] Open Scope list_scope.
#[local] Open Scope Z_scope.
#[local] Open Scope ow_scope.

Inductive outcome (A : Type) :=
  | Done (a : A)
  | Exits (msg : string)
  | Crash.
Arguments Done {A} _.
Arguments Exits {A} _.
Arguments Crash {A}.

Definition and_then {A B} (r : outcome A) (f : A → outcome B) : outcome B :=
  match r with Done a => f a | Exits m => Exits m | Crash => Crash end.

(** ** Lists of words *)

(** [DELIM_CHARS]. *)
Definition is_delim (a : ascii) : bool := code a =? 44.

(** [strcspn]: the word and what follows it. *)
Fixpoint span_word (s : string) : string * string :=
  match s with
  | EmptyString => (EmptyString, EmptyString)
  | String a s' => if is_delim a then (EmptyString, s) else let '(w, r) := span_word s' in (String a w, r)
  end.

Fixpoint skip_delims (s : string) : string :=
  match s with
  | String a s' => if is_delim a then skip_delims s' else s
  | EmptyString => s
  end.

(** The positions that [FOR_EACH_WORD_IN_LIST] visits: the word and the string
    from there on. *)
Fixpoint words_loop (fuel : nat) (s : string) : list (string * string) :=
  match fuel with
  | O => []
  | S f =>
      let '(w, r) := span_word s in
      match w with
      | EmptyString => []
      | String _ _ => (w, s) :: words_loop f (skip_delims r)
      end
  end.

Definition words (s : option string) : list (string * string) :=
  match s with Some s => words_loop (S (String.length s)) s | None => [] end.

(** ** Access control *)

Record acl := Acl {
  acl_ip : Z;
  acl_mask : Z;
  acl_flag : ascii;
}.

Definition isbyte (n : Z) : bool := (0 <=? n) && (n <=? 255).

(** [%d] of [sscanf]. *)
Definition scan_d (s : string) : option (Z * string) :=
  match scan_int s with
  | Some _ => let '(v, r) := strtol s in Some (sint 32 v, r)
  | None => None
  end.

(** ["%c%d.%d.%d.%d%n"]. *)
Definition scan_subnet (s : string) : option (ascii * (Z * Z * Z * Z) * string) :=
  match s with
  | EmptyString => None
  | String flag s =>
      '(a, s) ← scan_d s; s ← scan_lit 46 s;
      '(b, s) ← scan_d s; s ← scan_lit 46 s;
      '(c, s) ← scan_d s; s ← scan_lit 46 s;
      '(d, s) ← scan_d s; Some (flag, (a, b, c, d), s)
  end.

(** ["/%d"]; without a number the mask stays 32. *)
Definition scan_mask (s : string) : Z :=
  match scan_lit 47 s with
  | Some s => match scan_d s with Some (m, _) => m | None => 32 end
  | None => 32
  end.

Definition ip_of (a b c d : Z) : Z :=
  Z.lor (Z.lor (Z.lor (Z.shiftl a 24) (Z.shiftl b 16)) (Z.shiftl c 8)) d.

Definition mask_of (mask : Z) : Z :=
  if mask =? 0 then 0 else wrap32 (Z.shiftl 0xffffffff (32 - mask)).

(** One entry of the list. *)
Definition acl_entry (s : string) : outcome acl :=
  match scan_subnet s with
  | None => Exits "subnet must be [+|-]x.x.x.x[/x]"
  | Some (flag, (a, b, c, d), s) =>
      if negb (code flag =? 43) && negb (code flag =? 45) then Exits "flag must be + or -"
      else if negb (isbyte a && isbyte b && isbyte c && isbyte d) then Exits "bad ip address"
      else
        let mask := scan_mask s in
        if (mask <? 0) || (32 <? mask) then Exits "bad subnet mask"
        else Done (Acl (ip_of a b c d) (mask_of mask) flag)
  end.

Fixpoint acl_entries (l : list (string * string)) : outcome (list acl) :=
  match l with
  | [] => Done []
  | (_, s) :: l => and_then (acl_entry s) (λ e, and_then (acl_entries l) (λ es, Done (e :: es)))
  end.

(** The old list is dropped. *)
Definition set_acl (s : option string) : outcome (list acl) := acl_entries (words s).

(** The last entry that matches decides; the address is in host order. *)
Definition is_allowed (l : list acl) (ip : Z) : bool :=
  code (foldl (λ allowed e, if acl_ip e =? Z.land ip (acl_mask e) then acl_flag e else allowed) (chr 43) l) =? 43.

(** ** Types, aliases and extensions *)

Definition builtin_mime_types : list (string * string) :=
  [("html", "text/html"); ("htm", "text/html"); ("txt", "text/plain"); ("css", "text/css");
   ("ico", "image/x-icon"); ("gif", "image/gif"); ("jpg", "image/jpeg"); ("jpeg", "image/jpeg");
   ("png", "image/png"); ("svg", "image/svg+xml"); ("torrent", "application/x-bittorrent");
   ("wav", "audio/x-wav"); ("mp3", "audio/x-mp3"); ("mid", "audio/mid"); ("m3u", "audio/x-mpegurl");
   ("ram", "audio/x-pn-realaudio"); ("ra", "audio/x-pn-realaudio"); ("doc", "application/msword");
   ("exe", "application/octet-stream"); ("zip", "application/x-zip-compressed"); ("xls", "application/excel");
   ("tgz", "application/x-tar-gz"); ("tar.gz", "application/x-tar-gz"); ("tar", "application/x-tar");
   ("gz", "application/x-gunzip"); ("arj", "application/x-arj-compressed");
   ("rar", "application/x-arj-compressed"); ("rtf", "application/rtf"); ("pdf", "application/pdf");
   ("swf", "application/x-shockwave-flash"); ("mpg", "video/mpeg"); ("mpeg", "video/mpeg");
   ("asf", "video/x-ms-asf"); ("avi", "video/x-msvideo"); ("bmp", "image/bmp")].

(** The name ends with a dot and the extension, in any case. *)
Definition has_extension (uri ext : string) : bool :=
  let len := String.length uri in let ext_len := String.length ext in
  (ext_len <? len)%nat &&
  match String.get (len - ext_len - 1) uri with Some a => code a =? 46 | None => false end &&
  _shttpd_strncasecmp ext (String.substring (len - ext_len) ext_len uri) ext_len.

(** A word [name=value] with a name. *)
Definition split_eq (w : string) : option (string * string) :=
  match strchr w (chr 61) with
  | Some (String _ v) =>
      let name := str_before w (String (chr 61) v) in
      if str_eqb name "" then None else Some (name, v)
  | _ => None
  end.

Fixpoint custom_type (l : list (string * string)) (uri : string) : option string :=
  match l with
  | [] => None
  | (w, _) :: l =>
      match split_eq w with
      | Some (ext, t) => if has_extension uri ext then Some t else custom_type l uri
      | None => custom_type l uri
      end
  end.

Fixpoint builtin_type (l : list (string * string)) (uri : string) : string :=
  match l with
  | [] => "text/plain"
  | (ext, t) :: l => if has_extension uri ext then t else builtin_type l uri
  end.

Definition _shttpd_get_mime_type (mime_types : option string) (uri : string) : string :=
  match custom_type (words mime_types) uri with
  | Some t => t
  | None => builtin_type builtin_mime_types uri
  end.

(** The first alias that is a prefix of the URI, and the path it stands for. *)
Fixpoint find_alias (l : list (string * string)) (uri : string) : option (string * string) :=
  match l with
  | [] => None
  | (w, _) :: l =>
      match split_eq w with
      | Some (a_uri, a_path) => if str_prefix a_uri uri then Some (a_uri, a_path) else find_alias l uri
      | None => find_alias l uri
      end
  end.

Definition is_alias (aliases : option string) (uri : string) : option (string * string) :=
  find_alias (words aliases) uri.

Definition _shttpd_match_extension (path : string) (ext_list : option string) : bool :=
  existsb (λ w, has_extension path w.1) (words ext_list).

Definition _shttpd_is_true (str : option string) : bool :=
  match str with Some s => existsb (str_eqb s) ["1"; "yes"; "true"; "jawohl"] | None => false end.

(** ** Protocols of SSL *)

(** [strncasecmp(name, p, n) == 0]. *)
Fixpoint same_prefix (n : nat) (s t : string) : bool :=
  match n with
  | O => true
  | S n =>
      match s, t with
      | String a s, String b t => (code (tolower a) =? code (tolower b)) && same_prefix n s t
      | EmptyString, EmptyString => true
      | _, _ => false
      end
  end.

(** The names that OpenSSL 1.1 knows. *)
Definition protocols : list string := ["SSLv3"; "TLSv1"; "TLSv1_1"; "TLSv1_2"; "TLSv1_3"].

(** The part of [set_ssl] that reads the list of disabled protocols: the
    options it sets, in order.  The list is read word by word, separated by
    single blanks. *)
Fixpoint disabled_loop (fuel : nat) (s : string) : list string :=
  match fuel with
  | O => []
  | S f =>
      if str_eqb s "" then []
      else
        let '(n, rest) := match strchr s (chr 32) with
                          | Some (String _ r) => ((String.length s - String.length r - 1)%nat, Some r)
                          | _ => (String.length s, None)
                          end in
        option_list (find (λ p, same_prefix n p s) protocols) ++
        match rest with Some r => disabled_loop f r | None => [] end
  end.

Definition disabled_protocols (s : option string) : list string :=
  match s with Some s => disabled_loop (S (String.length s)) s | None => [] end.

(** ** The server *)

(** What the server asks of the system: a socket that listens on a port, the
    switch to another user, opening a log file, and loading OpenSSL with the
    certificate of the settings (whether there is a context, and whether all
    went well). *)
Class System := {
  open_listening_port : gset Z → Z → option Z;
  switch_user : string → bool;
  open_log : string → bool;
  load_ssl : bool * bool;
}.

(** A new socket is not one that is open. *)
Class SystemLaws `{System} := {
  open_port_fresh socks p s : open_listening_port socks p = Some s → s ∉ socks;
}.

Inductive setter := SetSsl | SetPorts | SetCfgUri | SetInetd | SetUid | SetAlog | SetElog | SetAcl | SetWorkers.

Inductive opt_index :=
  | OPT_ROOT | OPT_INDEX_FILES | OPT_PORTS | OPT_DIR_LIST | OPT_SSI_EXTENSIONS | OPT_AUTH_REALM
  | OPT_AUTH_GPASSWD | OPT_AUTH_PUT | OPT_ACCESS_LOG | OPT_ERROR_LOG | OPT_MIME_TYPES
  | OPT_SSL_CERTIFICATE | OPT_ALIASES | OPT_ACL | OPT_INETD | OPT_UID | OPT_CFG_URI | OPT_PROTECT
  | OPT_THREADS.

#[global] Instance opt_index_eq_dec : EqDecision opt_index.
Proof. solve_decision. Defined.

Record opt := Opt {
  op_index : opt_index;
  op_name : string;
  op_default : option string;
  op_setter : option setter;
}.

Definition known_options : list opt :=
  [Opt OPT_ROOT "root" (Some ".") None;
   Opt OPT_INDEX_FILES "index_files" (Some "index.html,index.htm,index.php,index.cgi") None;
   Opt OPT_SSL_CERTIFICATE "ssl_cert" None (Some SetSsl);
   Opt OPT_PORTS "ports" None (Some SetPorts);
   Opt OPT_DIR_LIST "dir_list" (Some "no") None;
   Opt OPT_CFG_URI "cfg_uri" None (Some SetCfgUri);
   Opt OPT_PROTECT "protect" None None;
   Opt OPT_SSI_EXTENSIONS "ssi_ext" (Some "shtml,shtm") None;
   Opt OPT_AUTH_REALM "auth_realm" (Some "mydomain.com") None;
   Opt OPT_AUTH_GPASSWD "auth_gpass" None None;
   Opt OPT_AUTH_PUT "auth_PUT" None None;
   Opt OPT_INETD "inetd" (Some "no") (Some SetInetd);
   Opt OPT_UID "uid" None (Some SetUid);
   Opt OPT_ACCESS_LOG "access_log" None (Some SetAlog);
   Opt OPT_ERROR_LOG "error_log" None (Some SetElog);
   Opt OPT_MIME_TYPES "mime_types" None None;
   Opt OPT_ALIASES "aliases" None None;
   Opt OPT_ACL "acl" None (Some SetAcl);
   Opt OPT_THREADS "threads" (Some "1") (Some SetWorkers)].

Record listener := Listener_ { l_sock : Z; l_is_ssl : bool }.
Record worker := Worker { num_conns : Z; threaded : bool }.

(** The context; [socks] is the set of the sockets that are open. *)
Record server := Server {
  s_options : list (opt_index * option string);
  s_acl : list acl;
  s_listeners : list listener;
  s_workers : list worker;
  s_ssl : bool;
  s_logs : bool * bool;
  s_http : shttpd_ctx;
  socks : gset Z;
}.

Definition with_options v (s : server) :=
  Server v (s_acl s) (s_listeners s) (s_workers s) (s_ssl s) (s_logs s) (s_http s) (socks s).
Definition with_acl v (s : server) :=
  Server (s_options s) v (s_listeners s) (s_workers s) (s_ssl s) (s_logs s) (s_http s) (socks s).
Definition with_listeners v o (s : server) :=
  Server (s_options s) (s_acl s) v (s_workers s) (s_ssl s) (s_logs s) (s_http s) o.
Definition with_workers v (s : server) :=
  Server (s_options s) (s_acl s) (s_listeners s) v (s_ssl s) (s_logs s) (s_http s) (socks s).
Definition with_ssl v (s : server) :=
  Server (s_options s) (s_acl s) (s_listeners s) (s_workers s) v (s_logs s) (s_http s) (socks s).
Definition with_logs v (s : server) :=
  Server (s_options s) (s_acl s) (s_listeners s) (s_workers s) (s_ssl s) v (s_http s) (socks s).
Definition with_http v (s : server) :=
  Server (s_options s) (s_acl s) (s_listeners s) (s_workers s) (s_ssl s) (s_logs s) v (socks s).

Definition get_option (s : server) (i : opt_index) : option string :=
  match find (λ kv, bool_decide (kv.1 = i)) (s_options s) with Some (_, v) => v | None => None end.

Definition put_option (i : opt_index) (v : option string) (s : server) : server :=
  with_options ((λ kv, if decide (kv.1 = i) then (i, v) else kv) <$> s_options s) s.

Section Setup.
Context {SY : System}.

(** Every listener is closed and freed. *)
Definition free_listeners (s : server) : server :=
  with_listeners [] (socks s ∖ list_to_set (l_sock <$> s_listeners s)) s.

(** A port that ends with the letter s is one for SSL.  A failure closes all
    of them; [false] is the result FALSE. *)
Fixpoint set_ports_loop (l : list (string * string)) (s : server) : bool * server :=
  match l with
  | [] => (true, s)
  | (w, p) :: l =>
      let is_ssl := last_is 115 w in
      let port := atoi p in
      match open_listening_port (socks s) port with
      | None => (false, free_listeners s)
      | Some sock =>
          if is_ssl && negb (s_ssl s) then (false, free_listeners s)
          else set_ports_loop l
                 (with_listeners (s_listeners s ++ [Listener_ sock is_ssl]) ({[sock]} ∪ socks s) s)
      end
  end.

Definition set_ports (p : option string) (s : server) : bool * server :=
  set_ports_loop (words p) (free_listeners s).

Definition add_worker (th : bool) (s : server) : server :=
  with_workers (s_workers s ++ [Worker 0 th]) s.

(** [while (new_num > 1 && new_num > old_num)]. *)
Definition add_threads (n : nat) (s : server) : server := Nat.iter n (add_worker true) s.

(** Threads that are told to stop leave the list. *)
Definition set_workers (value : string) (s : server) : server :=
  let new_num := atoi value in
  let old_num := Z.of_nat (length (s_workers s)) in
  if new_num =? 1 then
    add_worker false (if 1 <? old_num then with_workers [] s else s)
  else if 1 <? new_num then add_threads (Z.to_nat (new_num - old_num)) s else s.

(** The function [show_cfg_page] is registered under the number 0. *)
Definition set_cfg_uri (uri : option string) (s : server) : server :=
  let h := Ctx [] (uri_auths (s_http s)) in
  with_http (match uri with Some u => shttpd_register_uri h u 0 | None => h end) s.

(** Opening a log file: the result and whether there is a file. *)
Definition open_log_file (path : option string) : bool * bool :=
  match path with
  | None => (true, false)
  | Some p => if open_log p then (true, true) else (false, false)
  end.

(** [set_inetd] overwrites its context with NULL before it uses it. *)
Definition call_setter (st : setter) (v : option string) (s : server) : outcome (bool * server) :=
  match st with
  | SetSsl => let '(ctx, ok) := load_ssl in Done (ok, if ctx : bool then with_ssl true s else s)
  | SetPorts => Done (set_ports v s)
  | SetCfgUri => Done (true, set_cfg_uri v s)
  | SetInetd => if _shttpd_is_true v then Crash else Done (true, s)
  | SetUid =>
      match v with
      | None => Crash
      | Some u => if switch_user u then Done (true, s) else Exits "unknown user"
      end
  | SetAlog => let '(ok, f) := open_log_file v in Done (ok, with_logs (f, (s_logs s).2) s)
  | SetElog => let '(ok, f) := open_log_file v in Done (ok, with_logs ((s_logs s).1, f) s)
  | SetAcl => and_then (set_acl v) (λ l, Done (true, with_acl l s))
  | SetWorkers => match v with Some v => Done (true, set_workers v s) | None => Crash end
  end.

Fixpoint find_opt (l : list opt) (opt_name : string) : option opt :=
  match l with
  | [] => None
  | o :: l => if str_eqb opt_name (op_name o) then Some o else find_opt l opt_name
  end.

(** The setter is called before the value is stored. *)
Definition shttpd_set_option (name : string) (val : option string) (s : server) : outcome (bool * server) :=
  match find_opt known_options name with
  | None => Exits "no such option"
  | Some o =>
      and_then match op_setter o with Some st => call_setter st val s | None => Done (true, s) end
        (λ '(r, s), Done (r, put_option (op_index o) val s))
  end.

Definition num_workers (s : server) : Z :=
  match get_option s OPT_THREADS with Some p => atoi p | None => 1 end.

(** The setters of the options that have a value; FALSE gives up, and what was
    made is freed. *)
Fixpoint call_setters (l : list opt) (s : server) : outcome (option server) :=
  match l with
  | [] => Done (Some s)
  | o :: l =>
      match op_setter o, get_option s (op_index o) with
      | Some st, Some v =>
          and_then (call_setter st (Some v) s)
            (λ '(r, s), if r : bool then call_setters l s else Done None)
      | _, _ => call_setters l s
      end
  end.

(** Without arguments, as the daemon calls it. *)
Definition shttpd_init (open : gset Z) : outcome (option server) :=
  let s := Server ((λ o, (op_index o, op_default o)) <$> known_options) [] [] [] false (false, false) (Ctx [] []) open in
  and_then (call_setters known_options s)
    (λ r, Done (s ← r; Some (if num_workers s =? 1 then add_worker false s else s))).

(** ** Connections *)

Definition FD_SETSIZE : Z := 1024.

(** A worker with the fewest connections: the first one of them. *)
Fixpoint least_busy (best : nat) (best_n : Z) (i : nat) (l : list worker) : nat :=
  match l with
  | [] => best
  | w :: l => if num_conns w <? best_n then least_busy i (num_conns w) (S i) l else least_busy best best_n (S i) l
  end.

(** The position of the worker that gets the socket. *)
Definition pass_socket (s : server) : option nat :=
  match s_workers s with
  | [] => None
  | w :: _ => Some (least_busy 0 (num_conns w) 0 (s_workers s))
  end.

Inductive connected := Discarded | Passed (i : nat) | Added (i : nat).

(** [None] is an access to a worker that is not there. *)
Definition handle_connected_socket (s : server) (ip sock : Z) : option connected :=
  if FD_SETSIZE <=? sock then Some Discarded
  else if negb (is_allowed (s_acl s) ip) then Some Discarded
  else if 1 <? num_workers s then Passed <$> pass_socket s
  else match s_workers s with [] => None | _ => Some (Added 0) end.
End Setup.

(** ** The access control list *)

Fixpoint comma_list (ws : list string) : string :=
  match ws with
  | [] => ""
  | [w] => w
  | w :: ws => w +:+ "," +:+ comma_list ws
  end.

(** The words of a list and where they stand. *)
Fixpoint comma_words (ws : list string) : list (string * string) :=
  match ws with
  | [] => []
  | w :: ws' => (w, comma_list ws) :: comma_words ws'
  end.

Definition is_word (w : string) : bool :=
  negb (str_eqb w "") && match strchr w (chr 44) with None => true | Some _ => false end.

Lemma span_word_app w rest :
  strchr w (chr 44) = None → (rest = "" ∨ ∃ r, rest = String (chr 44) r) → span_word (w +:+ rest) = (w, rest).
Proof.
  intros Hw Hr. induction w as [|a w IH].
  - rewrite str_nil_app. destruct Hr as [->|[r ->]]; reflexivity.
  - rewrite str_app_cons. cbn [span_word strchr] in *. unfold is_delim. change (code (chr 44)) with 44 in Hw.
    destruct (code a =? 44); [done|]. by rewrite IH.
Qed.

Lemma is_word_inv w : is_word w = true → w ≠ "" ∧ strchr w (chr 44) = None.
Proof.
  unfold is_word. intros [Hn Hc]%andb_prop. split; [|by destruct (strchr w (chr 44))].
  intros ->. done.
Qed.

Lemma skip_delims_word w rest : is_word w = true → skip_delims (w +:+ rest) = w +:+ rest.
Proof.
  intros [Hn Hc]%is_word_inv. destruct w as [|a w]; [done|]. rewrite str_app_cons. cbn [skip_delims strchr] in *.
  unfold is_delim. change (code (chr 44)) with 44 in Hc. by destruct (code a =? 44).
Qed.

Lemma comma_list_cons w ws :
  comma_list (w :: ws) = w +:+ match ws with [] => "" | _ => String (chr 44) (comma_list ws) end.
Proof. destruct ws; [cbn; by rewrite str_app_nil|done]. Qed.

Lemma words_loop_comma ws : ∀ f,
  Forall (λ w, is_word w = true) ws → (length ws < f)%nat → words_loop f (comma_list ws) = comma_words ws.
Proof.
  induction ws as [|w ws IH]; intros [|f] Hw Hf; cbn [length] in Hf; try lia; [done|].
  apply Forall_cons in Hw as [Hw Hws]. cbn [comma_words words_loop].
  destruct (is_word_inv w Hw) as [Hn Hc]. rewrite comma_list_cons, span_word_app; [|done|destruct ws; eauto].
  destruct w as [|a w]; [done|]. f_equal. rewrite <- IH with (f := f); [|done|lia]. f_equal.
  destruct ws as [|w2 ws]; [done|]. apply Forall_cons in Hws as [Hw2 _].
  change (skip_delims (comma_list (w2 :: ws)) = comma_list (w2 :: ws)).
  rewrite comma_list_cons. by apply skip_delims_word.
Qed.

Lemma comma_list_length ws : Forall (λ w, is_word w = true) ws → (length ws ≤ String.length (comma_list ws))%nat.
Proof.
  induction 1 as [|w ws [Hn _]%is_word_inv _ IH]; [done|]. rewrite comma_list_cons, str_length_app.
  destruct w; [done|]. destruct ws; cbn [String.length length] in *; lia.
Qed.

(** A list of words is read back. *)
Lemma words_comma_list ws : Forall (λ w, is_word w = true) ws → words (Some (comma_list ws)) = comma_words ws.
Proof. intros Hw. unfold words. apply words_loop_comma; [done|]. pose proof (comma_list_length ws Hw). lia. Qed.

(** A rule: whether it allows, a network and the length of its prefix. *)
Record rule := Rule { r_allow : bool; r_a : Z; r_b : Z; r_c : Z; r_d : Z; r_len : Z }.

Definition rule_ok (r : rule) : Prop :=
  0 ≤ r_a r < 256 ∧ 0 ≤ r_b r < 256 ∧ 0 ≤ r_c r < 256 ∧ 0 ≤ r_d r < 256 ∧ 0 ≤ r_len r ≤ 32.

Definition rule_net (r : rule) : Z := r_a r * 2 ^ 24 + r_b r * 2 ^ 16 + r_c r * 2 ^ 8 + r_d r.

(** No bit of the network is outside the prefix. *)
Definition rule_clean (r : rule) : bool := rule_net r `mod` 2 ^ (32 - r_len r) =? 0.

Definition rule_matches (r : rule) (ip : Z) : bool :=
  ip / 2 ^ (32 - r_len r) =? rule_net r / 2 ^ (32 - r_len r).

(** The last rule for the address decides; without one it is allowed. *)
Definition rules_allow (rs : list rule) (ip : Z) : bool :=
  foldl (λ allowed r, if rule_matches r ip then r_allow r else allowed) true rs.

Definition print_rule (r : rule) : string :=
  String (if r_allow r then chr 43 else chr 45)
    (print_nat (r_a r) +:+ "." +:+ print_nat (r_b r) +:+ "." +:+ print_nat (r_c r) +:+ "." +:+
     print_nat (r_d r) +:+ "/" +:+ print_nat (r_len r)).

Definition rule_acl (r : rule) : acl :=
  Acl (rule_net r) (mask_of (r_len r)) (if r_allow r then chr 43 else chr 45).

Lemma scan_d_print x rest : 0 ≤ x < 2 ^ 31 → starts_digit rest = false → scan_d (print_nat x +:+ rest) = Some (x, rest).
Proof.
  intros Hx Hr. unfold scan_d. rewrite scan_int_print, strtol_print by (done || lia). by rewrite sint_small by lia.
Qed.

Lemma scan_lit_here a s : scan_lit (code a) (String a s) = Some s.
Proof. cbn [scan_lit]. by rewrite Z.eqb_refl. Qed.

Lemma ip_of_net r : rule_ok r → ip_of (r_a r) (r_b r) (r_c r) (r_d r) = rule_net r.
Proof.
  intros (Ha & Hb & Hc & Hd & _). unfold ip_of, rule_net.
  assert (Hor : ∀ x y n, 0 ≤ n → 0 ≤ y < 2 ^ n → Z.lor (x * 2 ^ n) y = x * 2 ^ n + y).
  { intros x y n Hn Hy. rewrite <- Z.shiftl_mul_pow2 at 1 by done. by apply lor_fields. }
  rewrite !Z.shiftl_mul_pow2, (Hor (r_a r)) by lia.
  replace (r_a r * 2 ^ 24 + r_b r * 2 ^ 16) with ((r_a r * 2 ^ 8 + r_b r) * 2 ^ 16) by lia. rewrite Hor by lia.
  replace ((r_a r * 2 ^ 8 + r_b r) * 2 ^ 16 + r_c r * 2 ^ 8) with ((r_a r * 2 ^ 16 + r_b r * 2 ^ 8 + r_c r) * 2 ^ 8) by lia.
  rewrite Hor by lia. lia.
Qed.

(** The mask keeps the prefix. *)
Lemma land_prefix ip len :
  0 ≤ ip < 2 ^ 32 → 0 ≤ len ≤ 32 → Z.land ip (mask_of len) = ip / 2 ^ (32 - len) * 2 ^ (32 - len).
Proof.
  intros Hip Hl. unfold mask_of. destruct (Z.eqb_spec len 0) as [->|Hne].
  { rewrite Z.land_0_r. change (2 ^ (32 - 0)) with (2 ^ 32). by rewrite Z.div_small by lia. }
  set (k := 32 - len). assert (0 ≤ k < 32) by lia. rewrite <- Z.shiftr_div_pow2, <- Z.shiftl_mul_pow2 by lia.
  apply Z.bits_inj'. intros i Hi. change (wrap32 ?x) with (x `mod` 2 ^ 32). change 4294967295 with (Z.ones 32).
  rewrite Z.land_spec, Z.testbit_mod_pow2, !Z.shiftl_spec by lia. destruct (Z.lt_ge_cases i k).
  { rewrite !(Z.testbit_neg_r _ (i - k)) by lia. by rewrite !andb_false_r. }
  rewrite Z.shiftr_spec, Z.sub_add, Z.testbit_ones by lia. destruct (Z.ltb_spec i 32).
  - assert (0 <=? i - k = true) as -> by (apply Z.leb_le; lia). assert (i - k <? 32 = true) as -> by (apply Z.ltb_lt; lia).
    by rewrite andb_true_r.
  - rewrite andb_false_r. symmetry. rewrite <- (Z.mod_small ip (2 ^ 32)) by done. apply Z.mod_pow2_bits_high. lia.
Qed.

Lemma rule_net_range r : rule_ok r → 0 ≤ rule_net r < 2 ^ 32.
Proof. unfold rule_ok, rule_net. lia. Qed.

(** The entry of a rule matches exactly the addresses of the rule, unless the
    network has bits outside its prefix: then it matches none. *)
Lemma rule_acl_matches r ip :
  rule_ok r → 0 ≤ ip < 2 ^ 32 →
  (acl_ip (rule_acl r) =? Z.land ip (acl_mask (rule_acl r))) = rule_clean r && rule_matches r ip.
Proof.
  intros Hr Hip. cbn [rule_acl acl_ip acl_mask]. assert (0 ≤ r_len r ≤ 32) as Hl by (unfold rule_ok in Hr; lia).
  rewrite land_prefix by done. unfold rule_clean, rule_matches. set (p := 2 ^ (32 - r_len r)).
  assert (0 < p) by (apply Z.pow_pos_nonneg; lia).
  pose proof (Z.div_mod (rule_net r) p ltac:(lia)). pose proof (Z.mod_pos_bound (rule_net r) p ltac:(lia)).
  destruct (Z.eqb_spec (rule_net r) (ip / p * p)) as [E|E], (Z.eqb_spec (rule_net r `mod` p) 0) as [Em|Em],
    (Z.eqb_spec (ip / p) (rule_net r / p)) as [Ed|Ed]; cbn [andb]; try done; exfalso.
  - apply Ed. rewrite E, Z.div_mul by lia. done.
  - apply Em. rewrite E. apply Z.mod_mul. lia.
  - apply Em. rewrite E. apply Z.mod_mul. lia.
  - apply E. rewrite Ed. lia.
Qed.

Lemma print_rule_word r : rule_ok r → is_word (print_rule r) = true.
Proof.
  intros Hr. unfold is_word, print_rule. cbn [str_eqb].
  assert (strchr (String (if r_allow r then chr 43 else chr 45)
    (print_nat (r_a r) +:+ "." +:+ print_nat (r_b r) +:+ "." +:+ print_nat (r_c r) +:+ "." +:+
     print_nat (r_d r) +:+ "/" +:+ print_nat (r_len r))) (chr 44) = None) as ->; [|done].
  cbn [strchr]. assert (code (if r_allow r then chr 43 else chr 45) =? code (chr 44) = false) as -> by (by destruct (r_allow r)).
  unfold rule_ok in Hr. rewrite !strchr_none_app. split_and!; try done; apply print_nat_chr; try done; lia.
Qed.

(** Reading a printed rule, whatever follows its word. *)
Lemma acl_entry_print r rest :
  rule_ok r → (rest = "" ∨ ∃ t, rest = String (chr 44) t) → acl_entry (print_rule r +:+ rest) = Done (rule_acl r).
Proof.
  intros Hr Hrest. assert (starts_digit rest = false) as Hd by (destruct Hrest as [->|[t ->]]; reflexivity).
  pose proof (ip_of_net r Hr) as Hnet. unfold rule_ok in Hr. unfold acl_entry, print_rule. rewrite str_app_cons.
  cbn [scan_subnet]. rewrite !str_app_assoc.
  assert (Hlit : ∀ c s, scan_lit (code c) (String c EmptyString +:+ s) = Some s) by (intros; apply scan_lit_here).
  rewrite (scan_d_print (r_a r)) by (lia || reflexivity). cbn [mbind option_bind]. rewrite (Hlit "."%char). cbn [mbind option_bind].
  rewrite (scan_d_print (r_b r)) by (lia || reflexivity). cbn [mbind option_bind]. rewrite (Hlit "."%char). cbn [mbind option_bind].
  rewrite (scan_d_print (r_c r)) by (lia || reflexivity). cbn [mbind option_bind]. rewrite (Hlit "."%char). cbn [mbind option_bind].
  rewrite (scan_d_print (r_d r)) by (lia || reflexivity). cbn [mbind option_bind].
  unfold scan_mask. rewrite (Hlit "/"%char), scan_d_print by (lia || done). unfold rule_acl. rewrite Hnet.
  assert (isbyte (r_a r) && isbyte (r_b r) && isbyte (r_c r) && isbyte (r_d r) = true) as ->.
  { unfold isbyte. rewrite !andb_true_iff, !Z.leb_le. lia. }
  assert ((r_len r <? 0) || (32 <? r_len r) = false) as -> by (rewrite orb_false_iff, !Z.ltb_ge; lia).
  by destruct (r_allow r).
Qed.

Lemma acl_entries_print rs :
  Forall rule_ok rs → acl_entries (comma_words (print_rule <$> rs)) = Done (rule_acl <$> rs).
Proof.
  induction 1 as [|r rs Hr _ IH]; [done|]. rewrite !fmap_cons. cbn [comma_words acl_entries].
  rewrite comma_list_cons, acl_entry_print; [|done|destruct rs; [by left|right; by eexists]].
  cbn [and_then]. by rewrite IH.
Qed.

Lemma set_acl_print rs :
  Forall rule_ok rs → set_acl (Some (comma_list (print_rule <$> rs))) = Done (rule_acl <$> rs).
Proof.
  intros Hr. unfold set_acl. rewrite words_comma_list; [by apply acl_entries_print|].
  apply Forall_fmap. eapply Forall_impl; [exact Hr|]. intros r. apply print_rule_word.
Qed.

(** C31: the access control list that an administrator writes is the one that is
    enforced: the text of a list of rules is read without an error, and a
    connection from an address is accepted exactly if the last rule whose
    network holds the address allows it, or there is none.  A rule whose network has
    bits outside its prefix (as 10.1.2.3/8) counts for nothing. *)
Theorem acl_enforced rs :
  Forall rule_ok rs →
  ∃ l, set_acl (Some (comma_list (print_rule <$> rs))) = Done l ∧
    ∀ ip, 0 ≤ ip < 2 ^ 32 → is_allowed l ip = rules_allow (filter (λ r, rule_clean r = true) rs) ip.
Proof.
  intros Hr. eexists. split; [by apply set_acl_print|]. intros ip Hip. unfold is_allowed, rules_allow.
  assert (Hgo : ∀ b c, (code c =? 43) = b →
    (code (foldl (λ allowed e, if acl_ip e =? Z.land ip (acl_mask e) then acl_flag e else allowed) c (rule_acl <$> rs)) =? 43)
    = foldl (λ allowed r, if rule_matches r ip then r_allow r else allowed) b (filter (λ r, rule_clean r = true) rs)).
  { induction Hr as [|r rs Hr _ IH]; intros b c Hc; [done|]. rewrite fmap_cons. cbn [foldl].
    rewrite (rule_acl_matches r ip Hr Hip), filter_cons. destruct (rule_clean r); cbn [andb].
    - rewrite decide_True by done. cbn [foldl]. apply IH. destruct (rule_matches r ip); [|done].
      cbn [rule_acl acl_flag]. by destruct (r_allow r).
    - rewrite decide_False by done. by apply IH. }
  by apply Hgo.
Qed.

(** ** Listening *)

(** The options that [create_shttpd_context] sets; their results are not
    looked at. *)
Definition AUTHENTICATION_REALM : string := "OPENWSMAN".

Definition listen_options {SY : System} (use_ssl : bool) (cert : option string) (port : Z) (s : server) : outcome server :=
  and_then (if use_ssl then shttpd_set_option "ssl_cert" cert s else Done (true, s)) (λ '(_, s),
  and_then (shttpd_set_option "ports" (Some (print_int port +:+ if use_ssl then "s" else "")) s) (λ '(_, s),
  and_then (shttpd_set_option "auth_realm" (Some AUTHENTICATION_REALM) s) (λ '(_, s), Done s))).

Section Listening.
Context {SY : System} {SYL : SystemLaws}.

Definition listening (s : server) : gset Z := list_to_set (l_sock <$> s_listeners s).

(** The open sockets are those of others and one for each listener. *)
Record owned (others : gset Z) (s : server) : Prop := {
  owned_socks : socks s = others ∪ listening s;
  owned_disj : others ## listening s;
  owned_nodup : NoDup (l_sock <$> s_listeners s);
}.

Lemma free_listeners_owned others s : owned others s → owned others (free_listeners s).
Proof.
  intros [Hs Hd Hn]. unfold free_listeners. split; cbn [socks s_listeners with_listeners listening].
  - fold (listening s). unfold listening at 2. cbn. set_solver.
  - unfold listening. cbn. set_solver.
  - constructor.
Qed.

Lemma add_listener_owned others s sock ssl :
  owned others s → sock ∉ socks s →
  owned others (with_listeners (s_listeners s ++ [Listener_ sock ssl]) ({[sock]} ∪ socks s) s).
Proof.
  intros [Hs Hd Hn] Hf. assert (Hl : listening (with_listeners (s_listeners s ++ [Listener_ sock ssl]) ({[sock]} ∪ socks s) s)
    = {[sock]} ∪ listening s).
  { unfold listening. cbn. rewrite fmap_app. cbn. set_solver. }
  split; cbn [socks s_listeners with_listeners]; rewrite ?Hl; [set_solver..|].
  rewrite fmap_app. cbn. apply NoDup_app. split_and!; [done| |apply NoDup_singleton].
  intros x Hx ->%list_elem_of_singleton. apply Hf. rewrite Hs. unfold listening. set_solver.
Qed.

Lemma set_ports_loop_spec others l : ∀ s,
  owned others s →
  let '(ok, s') := set_ports_loop l s in
  owned others s' ∧
  l_is_ssl <$> s_listeners s' = if ok then (l_is_ssl <$> s_listeners s) ++ (last_is 115 <$> l.*1) else [].
Proof.
  induction l as [|[w p] l IH]; intros s Ho; cbn [set_ports_loop]; [by rewrite app_nil_r|].
  destruct (open_listening_port (socks s) (atoi p)) as [sock|] eqn:E; [|by split; [apply free_listeners_owned|]].
  destruct (last_is 115 w && negb (s_ssl s)) eqn:Es; [by split; [apply free_listeners_owned|]|].
  specialize (IH _ (add_listener_owned others s sock (last_is 115 w) Ho (open_port_fresh _ _ _ E))).
  destruct (set_ports_loop l _) as [ok s']. destruct IH as [Ho' Hl]. split; [done|]. rewrite Hl.
  destruct ok; [|done]. cbn [s_listeners with_listeners]. rewrite fmap_app, !fmap_cons, <- app_assoc. done.
Qed.

(** Setting the ports leaks no socket: whatever the text and whichever ports
    cannot be opened, afterwards the open sockets are those of others and one for
    each listener; the old listeners are closed.  On success there is a listener
    for each word, with SSL if the word ends with the letter s; otherwise there is
    none. *)
Theorem set_ports_no_leak others p s ok s' :
  owned others s → set_ports p s = (ok, s') →
  owned others s' ∧ l_is_ssl <$> s_listeners s' = if ok then last_is 115 <$> (words p).*1 else [].
Proof.
  intros Ho H. unfold set_ports in H.
  pose proof (set_ports_loop_spec others (words p) (free_listeners s) (free_listeners_owned others s Ho)) as Hs.
  rewrite H in Hs. destruct Hs as [? Hl]. split; [done|]. rewrite Hl. by destruct ok.
Qed.
End Listening.

(** ** The daemon listens *)

Lemma last_is_in c s : last_is (code c) s = true → strchr s c ≠ None.
Proof.
  induction s as [|a s IH]; [done|]. cbn [last_is strchr]. destruct (code a =? code c) eqn:E; [done|].
  destruct s; [done|exact IH].
Qed.

Lemma last_is_app c a s : (code a =? c) = true → last_is c (s +:+ String a EmptyString) = true.
Proof.
  intros Ha. induction s as [|b s IH]; [by rewrite str_nil_app|]. rewrite str_app_cons. cbn [last_is].
  destruct (s +:+ String a EmptyString) eqn:E; [by destruct s|done].
Qed.

(** The text of the port: one word, the port and the letter. *)
Lemma port_text port (ssl : bool) :
  0 ≤ port < 2 ^ 31 →
  let t := print_int port +:+ (if ssl then "s" else "") in
  words (Some t) = [(t, t)] ∧ atoi t = port ∧ last_is 115 t = ssl.
Proof.
  intros Hp t. unfold t, print_int. assert (port <? 0 = false) as -> by (apply Z.ltb_ge; lia). split_and!.
  - apply (words_comma_list [print_nat port +:+ (if ssl then "s" else "")]). constructor; [|constructor]. unfold is_word.
    assert (Hc : strchr (print_nat port +:+ (if ssl then "s" else "")) (chr 44) = None).
    { apply strchr_none_app. split; [apply print_nat_chr; [lia|done]|by destruct ssl]. }
    rewrite Hc. destruct (print_nat_scan port (if ssl then "s" else "") ltac:(lia) ltac:(by destruct ssl)) as [_ Hs].
    by destruct (print_nat port +:+ (if ssl then "s" else "")).
  - unfold atoi. rewrite strtol_print by (try lia; by destruct ssl). apply sint_small; lia.
  - destruct ssl; [by apply last_is_app|]. rewrite str_app_nil. apply not_true_iff_false. intros H.
    apply (last_is_in (chr 115)) in H. apply H. apply print_nat_chr; [lia|done].
Qed.

Section Daemon.
Context {SY : System}.

(** What starts the server: the default options and two workers. *)
Definition initial_server (open : gset Z) : server :=
  Server ((λ o, (op_index o, op_default o)) <$> known_options) [] [] [Worker 0 false; Worker 0 false] false
    (false, false) (Ctx [] []) open.

Lemma shttpd_init_eq open : shttpd_init open = Done (Some (initial_server open)).
Proof. reflexivity. Qed.

Lemma set_option_ssl v s :
  shttpd_set_option "ssl_cert" v s =
  Done (load_ssl.2, put_option OPT_SSL_CERTIFICATE v (if load_ssl.1 then with_ssl true s else s)).
Proof.
  unfold shttpd_set_option.
  change (find_opt known_options "ssl_cert") with (Some (Opt OPT_SSL_CERTIFICATE "ssl_cert" None (Some SetSsl))).
  cbn [op_setter call_setter op_index]. by destruct load_ssl as [[] ok].
Qed.

Lemma set_option_ports v s :
  shttpd_set_option "ports" v s = Done ((set_ports v s).1, put_option OPT_PORTS v (set_ports v s).2).
Proof.
  unfold shttpd_set_option.
  change (find_opt known_options "ports") with (Some (Opt OPT_PORTS "ports" None (Some SetPorts))).
  cbn [op_setter call_setter op_index and_then]. by destruct (set_ports v s).
Qed.

Lemma set_option_realm v s : shttpd_set_option "auth_realm" v s = Done (true, put_option OPT_AUTH_REALM v s).
Proof. reflexivity. Qed.

(** Storing another option leaves an option alone. *)
Lemma get_put_option s i j v : i ≠ j → get_option (put_option i v s) j = get_option s j.
Proof.
  intros Hne. unfold get_option, put_option. cbn [s_options with_options]. induction (s_options s) as [|[k w] l IH]; [done|].
  rewrite fmap_cons. cbn [find fst]. destruct (decide (k = i)) as [->|]; cbn [fst].
  - by rewrite !bool_decide_false by done.
  - destruct (bool_decide (k = j)); [done|exact IH].
Qed.

(** A single port: the listener, or none. *)
Lemma set_single_port t port (ssl : bool) s :
  words (Some t) = [(t, t)] → atoi t = port → last_is 115 t = ssl → s_listeners s = [] →
  (set_ports (Some t) s).2 =
  match open_listening_port (socks s) port with
  | Some sock =>
      if ssl && negb (s_ssl s) then free_listeners (free_listeners s)
      else with_listeners [Listener_ sock ssl] ({[sock]} ∪ socks (free_listeners s)) s
  | None => free_listeners (free_listeners s)
  end.
Proof.
  intros Hw <- <- Hs. unfold set_ports. rewrite Hw. cbn [set_ports_loop].
  assert (socks (free_listeners s) = socks s) as E.
  { unfold free_listeners. cbn [socks with_listeners]. rewrite Hs. cbn. apply leibniz_equiv, difference_empty. }
  rewrite E. destruct (open_listening_port (socks s) (atoi t)); [|done].
  cbn [s_ssl free_listeners with_listeners]. destruct (last_is 115 t && negb (s_ssl s)); [done|].
  cbn [s_listeners with_listeners app snd]. by destruct s.
Qed.

(** Only the listeners change. *)
Lemma set_ports_frame p s :
  let s' := (set_ports p s).2 in s_acl s' = s_acl s ∧ s_options s' = s_options s ∧ s_workers s' = s_workers s.
Proof.
  unfold set_ports. assert (∀ l s, let s' := (set_ports_loop l s).2 in
    s_acl s' = s_acl s ∧ s_options s' = s_options s ∧ s_workers s' = s_workers s) as H; [|exact (H _ (free_listeners s))].
  clear. induction l as [|[w q] l IH]; intros s; cbn [set_ports_loop]; [done|].
  destruct (open_listening_port _ _); [|done]. destruct (_ && _); [done|]. exact (IH (with_listeners _ _ s)).
Qed.

(** The context of the daemon listens on the port of its settings, and
    only there, with SSL if they say so, and a connection from any address is
    accepted by the first worker.  If the port cannot be opened, or there is no
    SSL library, the context is made all the same, and listens nowhere. *)
Theorem daemon_listens open port use_ssl cert :
  0 ≤ port < 2 ^ 31 →
  ∃ s0 s, shttpd_init open = Done (Some s0) ∧ listen_options use_ssl cert port s0 = Done s ∧
    s_listeners s =
      match open_listening_port open port with
      | Some sock => if use_ssl && negb load_ssl.1 then [] else [Listener_ sock use_ssl]
      | None => []
      end ∧
    ∀ ip sock, sock < FD_SETSIZE → handle_connected_socket s ip sock = Some (Added 0).
Proof.
  intros Hp. exists (initial_server open). destruct (port_text port use_ssl Hp) as (Hw & Ha & Hl).
  unfold listen_options. set (t := print_int port +:+ _) in *.
  set (s1 := if use_ssl then put_option OPT_SSL_CERTIFICATE cert
               (if load_ssl.1 then with_ssl true (initial_server open) else initial_server open) else initial_server open).
  assert (Hs1 : socks s1 = open ∧ s_ssl s1 = use_ssl && load_ssl.1 ∧ s_listeners s1 = [] ∧ s_acl s1 = [] ∧
    get_option s1 OPT_THREADS = Some "1" ∧ s_workers s1 = [Worker 0 false; Worker 0 false]).
  { unfold s1. destruct use_ssl; [|done]. by destruct load_ssl as [[] ok]. }
  destruct Hs1 as (Ho & Hssl & Hli & Hacl & Hth & Hwk).
  set (s2 := (set_ports (Some t) s1).2).
  exists (put_option OPT_AUTH_REALM (Some AUTHENTICATION_REALM) (put_option OPT_PORTS (Some t) s2)). split_and!.
  - done.
  - destruct use_ssl; [rewrite set_option_ssl|]; cbn [and_then]; rewrite set_option_ports; cbn [and_then];
      rewrite set_option_realm; done.
  - change (s_listeners s2 = match open_listening_port open port with
      | Some sock => if use_ssl && negb load_ssl.1 then [] else [Listener_ sock use_ssl] | None => [] end).
    unfold s2. rewrite (set_single_port t port use_ssl s1 Hw Ha Hl Hli), Ho, Hssl.
    destruct (open_listening_port open port); [|done]. by destruct use_ssl, load_ssl as [[] ok].
  - intros ip sock Hsock. unfold handle_connected_socket. rewrite (proj2 (Z.leb_gt _ _) Hsock).
    destruct (set_ports_frame (Some t) s1) as (Fa & Fo & Fw). fold s2 in Fa, Fo, Fw.
    cbn [s_acl s_workers put_option with_options]. rewrite Fa, Hacl, Fw, Hwk. cbn [is_allowed foldl negb].
    unfold num_workers. rewrite !get_put_option by done.
    assert (get_option s2 OPT_THREADS = Some "1") as -> by (unfold get_option in *; by rewrite Fo). done.
Qed.
End Daemon.

(** ** Workers and protocols *)

Lemma least_busy_spec l : ∀ best best_n i,
  let j := least_busy best best_n i l in
  (j = best ∧ Forall (λ w, best_n ≤ num_conns w) l) ∨
  ∃ k w, j = (i + k)%nat ∧ l !! k = Some w ∧ num_conns w < best_n ∧ Forall (λ w', num_conns w ≤ num_conns w') l.
Proof.
  induction l as [|w l IH]; intros best n i; cbn [least_busy]; [by left|].
  destruct (Z.ltb_spec (num_conns w) n) as [Hlt|Hge].
  - right. destruct (IH i (num_conns w) (S i)) as [[-> HF]|(k & v & -> & Hk & Hv & HF)].
    + exists O, w. split_and!; [lia|done|done|]. constructor; [lia|done].
    + exists (S k), v. split_and!; [lia|done|lia|]. constructor; [lia|done].
  - destruct (IH best n (S i)) as [[-> HF]|(k & v & -> & Hk & Hv & HF)].
    + left. split; [done|]. by constructor.
    + right. exists (S k), v. split_and!; [lia|done|done|]. constructor; [lia|done].
Qed.

(** A connection goes to a worker with the fewest connections, when there
    are several threads. *)
Theorem least_busy_worker s :
  s_workers s ≠ [] →
  ∃ i w, pass_socket s = Some i ∧ s_workers s !! i = Some w ∧
    Forall (λ w', num_conns w ≤ num_conns w') (s_workers s).
Proof.
  unfold pass_socket. destruct (s_workers s) as [|w l] eqn:E; [done|]. intros _.
  destruct (least_busy_spec (w :: l) 0 (num_conns w) 0) as [[-> HF]|(k & v & -> & Hk & _ & HF)].
  - by exists O, w.
  - by exists k, v.
Qed.

(** The list that disables protocols by their names. *)
Fixpoint blank_list (ws : list string) : string :=
  match ws with
  | [] => ""
  | [w] => w
  | w :: ws => w +:+ " " +:+ blank_list ws
  end.

Lemma blank_list_cons w ws :
  blank_list (w :: ws) = w +:+ match ws with [] => "" | _ => String (chr 32) (blank_list ws) end.
Proof. destruct ws; [cbn; by rewrite str_app_nil|done]. Qed.

Lemma same_prefix_app n p w rest : (n ≤ String.length w)%nat → same_prefix n p (w +:+ rest) = same_prefix n p w.
Proof.
  revert p w. induction n as [|n IH]; intros p [|a w] H; cbn [String.length] in H; try lia; try done.
  rewrite str_app_cons. cbn [same_prefix]. destruct p as [|b p]; [done|]. by rewrite IH by lia.
Qed.

Lemma protocol_found w rest :
  w ∈ protocols → find (λ p, same_prefix (String.length w) p (w +:+ rest)) protocols = Some w.
Proof.
  intros Hw. assert (find (λ p, same_prefix (String.length w) p w) protocols = Some w) as <-.
  { unfold protocols in Hw. repeat (apply elem_of_cons in Hw as [->|Hw]; [reflexivity|]). by apply not_elem_of_nil in Hw. }
  assert (∀ l, find (λ p, same_prefix (String.length w) p (w +:+ rest)) l = find (λ p, same_prefix (String.length w) p w) l) as H.
  { induction l as [|p l IH]; [done|]. cbn [find]. rewrite same_prefix_app by done. by rewrite IH. }
  apply H.
Qed.

Lemma disabled_loop_names ws : ∀ f,
  Forall (λ w, w ∈ protocols) ws → (length ws < f)%nat → disabled_loop f (blank_list ws) = ws.
Proof.
  induction ws as [|w ws IH]; intros [|f] Hw Hf; cbn [length] in Hf; try lia; [done|].
  apply Forall_cons in Hw as [Hw Hws]. rewrite blank_list_cons. set (rest := match ws with [] => _ | _ => _ end).
  assert (Hp : w ≠ "" ∧ strchr w (chr 32) = None).
  { unfold protocols in Hw. repeat (apply elem_of_cons in Hw as [->|Hw]; [done|]). by apply not_elem_of_nil in Hw. }
  destruct Hp as [Hne Hc]. cbn [disabled_loop].
  assert (str_eqb (w +:+ rest) "" = false) as -> by (by destruct w).
  destruct ws as [|w2 ws]; unfold rest.
  - pose proof (protocol_found w "" Hw) as E. rewrite str_app_nil in *. by rewrite Hc, E.
  - rewrite strchr_app by done. rewrite str_length_app. cbn [String.length].
    replace (_ + _ - _ - 1)%nat with (String.length w) by lia. rewrite protocol_found by done.
    rewrite IH; [done|done|cbn in *; lia].
Qed.

(** The protocols that the settings name, separated by single blanks, are
    the ones that are disabled. *)
Theorem named_protocols_disabled ws :
  Forall (λ w, w ∈ protocols) ws → disabled_protocols (Some (blank_list ws)) = ws.
Proof.
  intros Hw. apply disabled_loop_names; [done|]. induction Hw as [|w ws Hw _ IH]; [cbn; lia|].
  rewrite blank_list_cons, str_length_app.
  assert (1 ≤ String.length w)%nat.
  { unfold protocols in Hw. repeat (apply elem_of_cons in Hw as [->|Hw]; [cbn; lia|]). by apply not_elem_of_nil in Hw. }
  destruct ws; cbn [length String.length] in *; lia.
Qed.

(** A second blank disables SSLv3. *)
Example double_blank_disables : disabled_protocols (Some "TLSv1  TLSv1_1") = ["TLSv1"; "SSLv3"; "TLSv1_1"].
Proof. reflexivity. Qed.

(** ** Examples *)

(** Port 80 is taken. *)
Definition sample_system : System := {|
  open_listening_port socks p := if p =? 80 then None else Some (fresh socks);
  switch_user u := str_eqb u "wsman";
  open_log p := true;
  load_ssl := (true, true);
|}.

Lemma sample_system_laws : @SystemLaws sample_system.
Proof.
  split. intros socks p s. cbn. destruct (p =? 80); [done|]. intros [= <-]. apply is_fresh.
Qed.

(** Everyone but a network, of which one host may connect; the last rule is
    written with bits outside its prefix. *)
Definition sample_rules : list rule :=
  [Rule false 10 0 0 0 8; Rule true 10 1 2 3 32; Rule false 192 168 1 1 16].

Lemma acl_enforced_witness :
  ∃ l, set_acl (Some "-10.0.0.0/8,+10.1.2.3/32,-192.168.1.1/16") = Done l ∧
    is_allowed l (10 * 2 ^ 24 + 5) = false ∧ is_allowed l (10 * 2 ^ 24 + 2 ^ 16 + 2 * 2 ^ 8 + 3) = true ∧
    is_allowed l (192 * 2 ^ 24 + 168 * 2 ^ 16 + 2 ^ 8 + 1) = true.
Proof.
  destruct (acl_enforced sample_rules) as (l & E & H).
  - unfold rule_ok. repeat constructor; cbn; lia.
  - exists l. split; [exact E|]. rewrite !H by lia. vm_compute. done.
Defined.

Lemma set_ports_no_leak_witness :
  let s := with_listeners [Listener_ 3 false] {[1; 3]} (initial_server ∅) in
  owned {[1]} s ∧ owned {[1]} (@set_ports sample_system (Some "8080,80") s).2 ∧
  s_listeners (@set_ports sample_system (Some "8080,80") s).2 = [].
Proof.
  intros s. assert (Ho : owned {[1]} s).
  { split; cbn; [unfold listening; cbn; set_solver..|]. apply NoDup_singleton. }
  destruct (@set_ports_no_leak sample_system sample_system_laws {[1]} (Some "8080,80") s
    (@set_ports sample_system (Some "8080,80") s).1 (@set_ports sample_system (Some "8080,80") s).2 Ho) as [H1 H2];
    [by destruct (set_ports _ _)|].
  split_and!; [done..|]. by vm_compute.
Defined.

Lemma daemon_listens_witness :
  ∃ s0 s, @shttpd_init sample_system ∅ = Done (Some s0) ∧ @listen_options sample_system true (Some "cert") 5986 s0 = Done s ∧
    l_is_ssl <$> s_listeners s = [true].
Proof.
  destruct (@daemon_listens sample_system ∅ 5986 true (Some "cert")) as (s0 & s & E0 & E & Hl & _); [lia|].
  exists s0, s. split_and!; [done..|]. by rewrite Hl.
Defined.

Lemma least_busy_worker_witness :
  let s := with_workers [Worker 2 true; Worker 1 true; Worker 1 true] (initial_server ∅) in
  pass_socket s = Some 1%nat ∧ ∃ i w, pass_socket s = Some i ∧ s_workers s !! i = Some w.
Proof.
  intros s. split; [reflexivity|]. destruct (least_busy_worker s) as (i & w & H1 & H2 & _); [done|]. by exists i, w.
Defined.

Lemma named_protocols_disabled_witness :
  disabled_protocols (Some "SSLv3 TLSv1 TLSv1_1") = ["SSLv3"; "TLSv1"; "TLSv1_1"].
Proof.
  apply (named_protocols_disabled ["SSLv3"; "TLSv1"; "TLSv1_1"]). repeat constructor; unfold protocols; set_solver.
Defined.
