(* ===== verification/Digest.v ===== *)
(** * Digest authentication ([shttpd/auth.c])

    The part of auth.c that reads a Digest header, looks the user up in a file
    of passwords and compares the response, and the editor of that file.  A
    vector is the string it points to; the memory the header is in is a string
    that goes on behind the header.  Files are their contents. *)

From S2P Require Import Prelude CString Uri Base64 Ini Md5 ShttpdMd5 Http.
From Stdlib Require Import Ascii.
Local Open Scope string_scope.
Local Open Scope list_scope.
Local Open Scope Z_scope.
Local Open Scope ow_scope.

(** ** Hashes of vectors *)

Definition hex_of (v : Z) : ascii := default Ascii.zero (String.get (Z.to_nat v) "0123456789abcdef").

Fixpoint bin2str (p : list Z) : string :=
  match p with
  | [] => EmptyString
  | b :: p => String (hex_of (Z.shiftr b 4)) (String (hex_of (Z.land b 0x0f)) (bin2str p))
  end.

(** The calls of [MD5Update]: an empty vector is skipped but counted. *)
Fixpoint md5_updates (i : nat) (vs : list string) : list (list Z) :=
  match vs with
  | [] => []
  | v :: vs =>
      if (String.length v =? 0)%nat then md5_updates (S i) vs
      else (if (0 <? i)%nat then [codes ":"] else []) ++ codes v :: md5_updates (S i) vs
  end.

(** [le] and [mem] are the byte order and the uninitialised context. *)
Definition md5 (le : bool) (mem : list Z) (vs : list string) : option string :=
  bin2str <$> shttpd_digest le mem (md5_updates 0 vs).

(** ** The header *)

Record digest := Dig {
  d_user : string; d_uri : string; d_nonce : string; d_cnonce : string;
  d_resp : string; d_qop : string; d_nc : string;
}.

Definition no_digest : digest := Dig "" "" "" "" "" "" "".

(** The fields of the structure, by the keyword that sets them. *)
Inductive field := FUser | FCnonce | FResp | FUri | FQop | FNc | FNonce.

Definition known_auth_keywords : list (field * string) :=
  [(FUser, "username="); (FCnonce, "cnonce="); (FResp, "response="); (FUri, "uri=");
   (FQop, "qop="); (FNc, "nc="); (FNonce, "nonce=")].

Definition set_field (f : field) (v : string) (d : digest) : digest :=
  match f with
  | FUser => Dig v (d_uri d) (d_nonce d) (d_cnonce d) (d_resp d) (d_qop d) (d_nc d)
  | FUri => Dig (d_user d) v (d_nonce d) (d_cnonce d) (d_resp d) (d_qop d) (d_nc d)
  | FNonce => Dig (d_user d) (d_uri d) v (d_cnonce d) (d_resp d) (d_qop d) (d_nc d)
  | FCnonce => Dig (d_user d) (d_uri d) (d_nonce d) v (d_resp d) (d_qop d) (d_nc d)
  | FResp => Dig (d_user d) (d_uri d) (d_nonce d) (d_cnonce d) v (d_qop d) (d_nc d)
  | FQop => Dig (d_user d) (d_uri d) (d_nonce d) (d_cnonce d) (d_resp d) v (d_nc d)
  | FNc => Dig (d_user d) (d_uri d) (d_nonce d) (d_cnonce d) (d_resp d) (d_qop d) v
  end.

Definition is_char (c : Z) (a : ascii) : bool := code a =? c.
Definition blank_or_comma (a : ascii) : bool := is_char 32 a || is_char 44 a.

(** The loop that moves [p] while [p < e] and its character does not stop it, on
    the text at [p] with [n] bytes up to [e]: what was passed, the text and the
    bytes that remain. *)
Fixpoint scan_to (stop : ascii → bool) (t : string) (n : nat) : string * string * nat :=
  match n, t with
  | S n', String a t' =>
      if stop a then (EmptyString, t, n)
      else let '(x, r, m) := scan_to stop t' n' in (String a x, r, m)
  | _, _ => (EmptyString, t, n)
  end.

(** [p++]; [None] behind the end of the memory. *)
Definition next_char (t : string) (n : nat) : option (string * nat) :=
  match t with String _ t' => Some (t', pred n) | EmptyString => None end.

Definition at_char (c : Z) (t : string) : bool :=
  match t with String a _ => is_char c a | EmptyString => false end.

Definition find_keyword (p : string) (len : nat) : option field :=
  fst <$> find (λ kw, (String.length kw.2 <=? len)%nat && str_prefix kw.2 p) known_auth_keywords.

(** One field: the keyword if it is known, the value and the text behind. *)
Definition parse_field (p : string) (n : nat) : option (option field * string * string * nat) :=
  let '(_, p, n) := scan_to (λ a, negb (blank_or_comma a)) p n in
  let '(key, s, m) := scan_to (is_char 61) p n in
  '(s, m) ← next_char s m;
  let kw := find_keyword p (S (String.length key)) in
  if at_char 34 s then
    '(s, m) ← next_char s m;
    let '(v, p, m) := scan_to (is_char 34) s m in
    if at_char 34 p then '(p, m) ← next_char p m; Some (kw, v, p, m) else Some (kw, v, p, m)
  else
    let '(v, p, m) := scan_to blank_or_comma s m in
    if at_char 34 p then '(p, m) ← next_char p m; Some (kw, v, p, m) else Some (kw, v, p, m).

(** [while (p < e)]; every round moves [p]. *)
Fixpoint parse_fields (fuel : nat) (p : string) (n : nat) (dig : digest) : option digest :=
  match fuel, n with
  | _, O => Some dig
  | O, _ => None
  | S fuel, _ =>
      '(kw, v, p, n) ← parse_field p n;
      parse_fields fuel p n (match kw with Some f => set_field f v dig | None => dig end)
  end.

(** [t] is the memory from the header on, [len] the length of the header. *)
Definition parse_authorization_header (t : string) (len : nat) : option digest :=
  if (len <=? 7)%nat then Some no_digest else
  p ← str_drop 7 t;
  parse_fields len p (len - 7) no_digest.

(** ** Passwords *)

Definition check_password (le : bool) (mem : list Z) (method ha1 : string) (d : digest) : option Z :=
  if negb (String.length (d_resp d) =? 32)%nat then Some 0 else
  a2 ← md5 le mem [method; d_uri d];
  resp ← md5 le mem [ha1; d_nonce d; d_nc d; d_cnonce d; d_qop d; a2];
  Some (if str_eqb resp (d_resp d) then 1 else 0).

Fixpoint take_word (s : string) : string :=
  match s with
  | String a s' => if isspace a then EmptyString else String a (take_word s')
  | EmptyString => EmptyString
  end.

(** The user, the domain and the hash of a line that has all three. *)
Definition parse_htpasswd_line (s : string) : option (string * string * string) :=
  '(user, s) ← split_colon s;
  '(domain, s) ← split_colon s;
  let ha1 := take_word s in
  if (0 <? String.length user)%nat && (0 <? String.length domain)%nat && (0 <? String.length ha1)%nat
  then Some (user, domain, ha1) else None.

(** [fgets] until the end of the file: a line ends behind a newline or when [max]
    characters are read, one less than the size of the buffer; [room] more fit
    the current line. *)
Fixpoint fgets_lines (max room : nat) (s : string) : list string :=
  match s with
  | EmptyString => []
  | String a s' =>
      if is_char 10 a || (room <=? 1)%nat then String a EmptyString :: fgets_lines max max s'
      else match fgets_lines max (pred room) s' with
           | [] => [String a EmptyString]
           | l :: ls => String a l :: ls
           end
  end.

(** The loop over the lines: the first line of the user whose domain the realm
    starts with decides. *)
Fixpoint find_password (le : bool) (mem : list Z) (realm method : string) (d : digest) (lines : list string)
  : option Z :=
  match lines with
  | [] => Some 0
  | line :: lines =>
      match parse_htpasswd_line line with
      | Some (user, domain, ha1) =>
          if str_eqb (d_user d) user && str_prefix domain realm
          then check_password le mem method ha1 d
          else find_password le mem realm method d lines
      | None => find_password le mem realm method d lines
      end
  end.

Definition authorize_digest (le : bool) (mem : list Z) (realm method : string) (t : string) (len : nat)
    (fp : string) : option Z :=
  d ← parse_authorization_header t len;
  find_password le mem realm method d (fgets_lines 255 255 fp).

(** The file is opened; [None] inside is one that cannot be. *)
Definition _shttpd_is_authorized_for_put (le : bool) (mem : list Z) (realm method : string) (t : string)
    (len : nat) (file : option string) : option Z :=
  match file with
  | Some fp => authorize_digest le mem realm method t len fp
  | None => Some 0
  end.

(** ** Editing the file *)

Definition newline : string := String (chr 10) EmptyString.

Definition password_line (user domain ha1 : string) : string :=
  user +:+ ":" +:+ domain +:+ ":" +:+ ha1 +:+ newline.

(** The user and the domain of a line with two colons. *)
Definition line_key (line : string) : option (string * string) :=
  '(u, s) ← split_colon line;
  '(d, _) ← split_colon s;
  Some (u, d).

(** The lines written and how many were the user's.  A line without two colons
    is not copied. *)
Fixpoint copy_lines (le : bool) (mem : list Z) (domain user pass : string) (lines : list string)
  : option (string * nat) :=
  match lines with
  | [] => Some (EmptyString, O)
  | line :: lines =>
      match line_key line with
      | None => copy_lines le mem domain user pass lines
      | Some (u, d) =>
          if str_eqb user u && str_eqb domain d then
            ha1 ← md5 le mem [u; d; pass];
            '(out, found) ← copy_lines le mem domain user pass lines;
            Some (password_line user domain ha1 +:+ out, S found)
          else
            '(out, found) ← copy_lines le mem domain user pass lines;
            Some (line +:+ out, found)
      end
  end.

(** The contents of the file before and after. *)
Definition _shttpd_edit_passwords (le : bool) (mem : list Z) (fname domain user pass : string) : option string :=
  '(out, found) ← copy_lines le mem domain user pass (fgets_lines 511 511 fname);
  if (found =? 0)%nat then
    ha1 ← md5 le mem [user; domain; pass];
    Some (out +:+ password_line user domain ha1)
  else Some out.

(** The example of RFC 2617. *)
Definition rfc2617_header (response : string) : string :=
  let q := String (chr 34) EmptyString in
  "Digest username=" +:+ q +:+ "Mufasa" +:+ q +:+ ", realm=" +:+ q +:+ "testrealm@host.com" +:+ q +:+
  ", nonce=" +:+ q +:+ "dcd98b7102dd2f0e8b11d0f600bfb0c093" +:+ q +:+ ", uri=" +:+ q +:+ "/dir/index.html" +:+ q +:+
  ", qop=auth, nc=00000001, cnonce=" +:+ q +:+ "0a4f113b" +:+ q +:+ ", response=" +:+ q +:+ response +:+ q.

Example rfc2617_authorized :
  let h := rfc2617_header "6629fae49393a05397450978507c4ef1" in
  (f ← _shttpd_edit_passwords true (replicate 64 0) "" "testrealm@host.com" "Mufasa" "Circle Of Life";
   authorize_digest true (replicate 64 0) "testrealm@host.com" "GET" (h +:+ newline) (String.length h) f) = Some 1.
Proof. vm_compute. reflexivity. Qed.
