(* ===== verification/Listener.v ===== *)
(** * The listener

    src/src/server/wsmand-listener.c: the function that the HTTP server calls
    for every piece of a request and for every piece of room for the response,
    and the set-up of authentication, port and URIs before it. *)

From S2P Require Import Prelude CString Uri Base64 Client Ini Options Daemon Http.
From Stdlib Require Import Ascii.
Local Open Scope string_scope.
Local Open Scope list_scope.
Local Open Scope Z_scope.
Local Open Scope ow_scope.

Definition WSMAN_STATUS_OK : Z := 200.
Definition WSMAN_STATUS_FORBIDDEN : Z := 403.
Definition WSMAN_STATUS_UNSUPPORTED_MEDIA_TYPE : Z := 415.
Definition SOAP_CONTENT_TYPE : string := "application/soap+xml".

(** ** Output *)

(** [shttpd_printf] with [room] bytes in the buffer, of which [out] are in use:
    [vsnprintf] ends what does not fit with a NUL. *)
Definition shttpd_printf (room : nat) (out : list Z) (s : string) : list Z :=
  let buflen := (room - length out)%nat in
  if (buflen =? 0)%nat then out
  else if (String.length s <? buflen)%nat then out ++ codes s
  else out ++ take (buflen - 1) (codes s) ++ [0].

(** [struct state] of [server_callback]; [response] is NULL until there is one. *)
Record rstate := RState {
  cl : Z; nread : Z; request : list Z; response : option (list Z); index : nat; rtype : Z }.

(** One call: what has arrived, the room for output, and whether the connection
    broke. *)
Record call := Call { in_buf : list Z; out_len : nat; conn_error : bool }.

(** What a call leaves: the output, whether it is complete, the state of the
    connection, its headers, and the rest of the program. *)
Record answer (W : Type) := Answer {
  an_out : list Z; an_end : bool; an_consumed : nat; an_state : option rstate; an_headers : string; an_w : W }.
Arguments Answer {W}.
Arguments an_out {W}.
Arguments an_end {W}.
Arguments an_consumed {W}.
Arguments an_state {W}.
Arguments an_headers {W}.
Arguments an_w {W}.

Definition check_request_content_type (b : string) : option (Z * string) :=
  '(ct, b) ← shttpd_get_header b "Content-Type";
  Some (match ct with
        | Some ct => if str_prefix SOAP_CONTENT_TYPE ct then WSMAN_STATUS_OK
                     else WSMAN_STATUS_UNSUPPORTED_MEDIA_TYPE
        | None => WSMAN_STATUS_OK
        end, b).

(** What follows "charset" and one more character; nothing follows when the
    header ends with "charset", and the string is read beyond its end. *)
Definition get_request_encoding (b : string) : option (string * string) :=
  '(ct, b) ← shttpd_get_header b "Content-Type";
  match ct with
  | Some ct =>
      match strstr ct "charset" with
      | Some p => e ← str_drop 8 p; Some (e, b)
      | None => Some ("UTF-8", b)
      end
  | None => Some ("UTF-8", b)
  end.

Section Callback.
Context {W : Type}.

(** What the listener calls: [dispatch_inbound_call] with the request, its
    encoding and the credentials yields the status and the response;
    [wsman_check_identify]; [CIM_Indication_call] with the request, its
    encoding and the last segment of the URI yields the status, the error if
    there is one and the response; [u_buf_load] of a file that is not empty. *)
Variable dispatch_inbound_call : W → list Z → string → option (string * string) → option (W * Z * list Z).
Variable wsman_check_identify : list Z → string → bool.
Variable CIM_Indication_call : W → list Z → string → option string → option (W * Z * option (Z * string) * list Z).
Variable load : string → option (list Z).
Variables (identify_file anon_identify_file : char_ptr) (package : string).

(** The label [CONTINUE]: as much of the response as there is room for. *)
Definition send_body (room : nat) (out : list Z) (st : rstate) (consumed : nat) (b : string) (w : W)
  : option (answer W) :=
  let k := (room - length out)%nat in
  let body := default [] (response st) in
  let rest := drop (index st) body in
  if (k <=? length body - index st)%nat then
    Some (Answer (out ++ take k rest) false consumed
      (Some (RState (cl st) (nread st) (request st) (response st) (index st + k) (rtype st))) b w)
  else Some (Answer (out ++ rest) true consumed None b w).

(** The label [DONE]: the headers of the response; the reason is always NULL,
    which is printed as "(null)". *)
Definition send_head (room : nat) (status : Z) (encoding : string) (st : rstate) : list Z :=
  let len := Z.of_nat (length (default [] (response st))) in
  let print := shttpd_printf room in
  let out := print [] ("HTTP/1.1 " +:+ print_int status +:+ " (null)" +:+ crlf) in
  let out := print out ("Server: " +:+ package +:+ crlf) in
  let out :=
    if rtype st =? 1 then
      let out := print out ("Content-Type: application/xml; charset=" +:+ quote1 "utf-8" +:+ crlf) in
      print out ("CIMExport: MethodResponse" +:+ crlf)
    else print out ("Content-Type: application/soap+xml;charset=" +:+ encoding +:+ crlf) in
  let out := print out ("Content-Length: " +:+ print_int (sint 32 len) +:+ crlf) in
  let out := print out ("Connection: Close" +:+ crlf) in
  print out crlf.

Definition set_response (st : rstate) (r : list Z) (t : Z) : rstate :=
  RState (cl st) (nread st) (request st) (Some r) 0 t.

(** The request is complete and for "/wsman". *)
Definition serve_wsman (room consumed : nat) (auth : vec) (st : rstate) (b : string) (w : W)
  : option (answer W) :=
  '(status, b) ← check_request_content_type b;
  if negb (status =? WSMAN_STATUS_OK) then
    send_body room (send_head room status "UTF-8" st) st consumed b w
  else
    '(encoding, b) ← get_request_encoding b;
    '(creds, b) ← shttpd_get_credentials b auth;
    '(w, status, r) ←
      (match identify_file with
       | StrP f =>
           if wsman_check_identify (request st) encoding then
             match load f with
             | Some r => Some (w, status, r)
             | None => dispatch_inbound_call w (request st) encoding creds
             end
           else dispatch_inbound_call w (request st) encoding creds
       | _ => dispatch_inbound_call w (request st) encoding creds
       end);
    let st := set_response st r 0 in
    send_body room (send_head room status encoding st) st consumed b w.

Definition last_segment (uri : string) : option string :=
  match strrchr uri (chr 47) with Some (String _ r) => Some r | _ => None end.

(** The request is complete and for the indication listener. *)
Definition serve_indication (room consumed : nat) (uri : string) (st : rstate) (b : string) (w : W)
  : option (answer W) :=
  '(encoding, b) ← get_request_encoding b;
  '(cimexport, b) ← shttpd_get_header b "CIMExport";
  '(cimexportmethod, b) ← shttpd_get_header b "CIMExportMethod";
  match cimexport, cimexportmethod with
  | Some _, Some _ =>
      '(w, status, err, r) ← CIM_Indication_call w (request st) encoding (last_segment uri);
      match err : option (Z * string) with
      | Some (code, msg) =>
          let out := shttpd_printf room [] ("HTTP/1.1 " +:+ print_int status +:+ " (null)" +:+ crlf) in
          let out := shttpd_printf room out ("CIMError:" +:+ print_int code +:+ ":" +:+ msg +:+ crlf) in
          send_body room out st consumed b w
      | None =>
          let st := set_response st r 1 in
          send_body room (send_head room status encoding st) st consumed b w
      end
  | _, _ => send_body room (send_head room WSMAN_STATUS_FORBIDDEN encoding st) st consumed b w
  end.

(** The request is complete and for anonymous identification; the status is
    still the initial one. *)
Definition serve_anonymous (room consumed : nat) (st : rstate) (b : string) (w : W) : option (answer W) :=
  match (match anon_identify_file with StrP f => load f | _ => None end) with
  | Some r =>
      let st := set_response st r (rtype st) in
      send_body room (send_head room WSMAN_STATUS_OK "UTF-8" st) st consumed b w
  | None =>
      Some (Answer (shttpd_printf room [] ("HTTP/1.0 404 Not foundn" +:+ str1 newline)) true consumed (Some st) b w)
  end.

(** A piece of the request is added. *)
Definition receive (st : rstate) (piece : list Z) : rstate :=
  RState (cl st) (nread st + Z.of_nat (length piece))
    (if 0 <? nread st then request st ++ piece else piece) (response st) (index st) (rtype st).

Definition server_callback (c : conn) (st : option rstate) (ca : call) (w : W) : option (answer W) :=
  let b := c_headers c in
  let room := out_len ca in
  if conn_error ca && (if st is Some _ then true else false) then Some (Answer [] false 0 None b w)
  else
    '(len, b) ← shttpd_get_header b "Content-Length";
    match len with
    | None =>
        Some (Answer (shttpd_printf room [] ("HTTP/1.0 411 Length Required" +:+ str1 newline +:+ str1 newline))
                true 0 st b w)
    | Some s =>
        let st := default (RState (strtoul_value s) 0 [] None 0 0) st in
        match response st with
        | Some _ => send_body room [] st 0 b w
        | None =>
            let st := receive st (in_buf ca) in
            let consumed := length (in_buf ca) in
            if nread st <? cl st then Some (Answer [] false consumed (Some st) b w)
            else if str_eqb (c_uri c) "/wsman" then
              serve_wsman room consumed (header_vec (c_ch c) "Authorization: ") st b w
            else if str_prefix DEFAULT_CIMINDICATION_PATH (c_uri c) then
              serve_indication room consumed (c_uri c) st b w
            else if str_eqb (c_uri c) ANON_IDENTIFY_PATH then
              serve_anonymous room consumed st b w
            else
              Some (Answer (shttpd_printf room [] ("HTTP/1.0 404 Not foundn" +:+ str1 newline)) true consumed
                      (Some st) b w)
        end
    end.

(** The calls for a connection, until the output is complete; the output is
    collected. *)
Fixpoint serve (c : conn) (st : option rstate) (cas : list call) (w : W) : option (list Z * bool * W) :=
  match cas with
  | [] => Some ([], false, w)
  | ca :: cas' =>
      a ← server_callback c st ca w;
      if an_end a then Some (an_out a, true, an_w a)
      else
        '(out, fin, w) ← serve (Conn (c_uri c) (an_headers a) (c_ch c)) (an_state a) cas' (an_w a);
        Some (an_out a ++ out, fin, w)
  end.
End Callback.

(** ** Set-up *)

Definition ptr_null (p : char_ptr) : bool := if p is StrP _ then false else true.
Definition ptr_opt (p : char_ptr) : option string := if p is StrP s then Some s else None.

(** The plugin of a path: [None] when it cannot be loaded, otherwise whether it
    has the function [authorize] and what [initialize] returns, if it is there. *)
Definition plugins : Type := string → option (bool * option (char_ptr → Z)).

(** The result and whether there is a callback. *)
Definition initialize_basic_authenticator (dl : plugins) (s : settings) : Z * bool :=
  let default_auth := DEFAULT_BASIC_AUTH in
  let load auth arg :=
    match auth with
    | StrP auth =>
        let path :=
          match auth with
          | String a _ => if code a =? 47 then auth else default "(null)" (ptr_opt (auth_dir s)) +:+ "/" +:+ auth
          | EmptyString => default "(null)" (ptr_opt (auth_dir s)) +:+ "/" +:+ auth
          end in
        match dl path with
        | None => (1, false)
        | Some (false, _) => (1, false)
        | Some (true, None) => (0, true)
        | Some (true, Some init) => (init arg, true)
        end
    | _ => (0, false)
    end in
  if negb (ptr_null (basic_password_file s)) then
    if (match basic_authenticator s with StrP a => negb (str_eqb default_auth a) | _ => false end) ||
       negb (ptr_null (basic_authenticator_arg s))
    then (1, false)
    else load (StrP default_auth) (basic_password_file s)
  else load (basic_authenticator s) (basic_authenticator_arg s).

(** The result and whether there is a callback for Basic. *)
Definition get_server_auth (dl : plugins) (s : settings) : bool * bool :=
  let '(r, cb) := initialize_basic_authenticator dl s in
  if negb (r =? 0) then (false, cb)
  else if ptr_null (digest_password_file s) && negb cb then (false, cb)
  else (true, cb).

Definition get_server_port (s : settings) : Z :=
  if negb (use_ssl s =? 0) then
    if negb (ptr_null (ssl_cert_file s)) && negb (ptr_null (ssl_key_file s)) && (0 <? server_ssl_port s)
    then server_ssl_port s
    else 0
  else server_port s.

Definition protect_uri (s : settings) (cb : bool) (ctx : shttpd_ctx) (uri : string) : shttpd_ctx :=
  let ctx :=
    if negb (ptr_null (digest_password_file s)) then
      shttpd_protect_uri ctx uri (ptr_opt (digest_password_file s)) false DIGEST_AUTH
    else ctx in
  if cb then shttpd_protect_uri ctx uri (ptr_opt (basic_password_file s)) true BASIC_AUTH else ctx.

(** The function [server_callback] is registered under the number 1. *)
Definition create_shttpd_context (b : build) (s : settings) (cb : bool) : shttpd_ctx :=
  let path := default "" (ptr_opt (service_path s)) in
  let ctx := Ctx [] [] in
  let ctx := shttpd_register_uri ctx path 1 in
  let ctx := protect_uri s cb ctx path in
  let ctx := shttpd_register_uri ctx ANON_IDENTIFY_PATH 1 in
  if ENABLE_EVENTING_SUPPORT b then
    let ctx := shttpd_register_uri ctx (DEFAULT_CIMINDICATION_PATH +:+ "/*") 1 in
    protect_uri s cb ctx DEFAULT_CIMINDICATION_PATH
  else ctx.

(** The part of [wsmand_start_server] that decides whether the server listens:
    the port and the context, or an early return. *)
Definition start_listening (b : build) (dl : plugins) (s : settings) (plugins_ok : bool)
  : option (Z * shttpd_ctx) :=
  if negb (max_threads s =? 0) && (max_connections_per_thread s =? 0) then None
  else if negb plugins_ok then None
  else
    let port := get_server_port s in
    if port =? 0 then None
    else
      let '(ok, cb) := get_server_auth dl s in
      if ok then Some (port, create_shttpd_context b s cb) else None.

(** ** Sending and receiving in pieces *)

Lemma codes_app s t : codes (s +:+ t) = codes s ++ codes t.
Proof. induction s as [|a s IH]; simpl; [done|]. by rewrite IH. Qed.

Lemma codes_length s : length (codes s) = String.length s.
Proof. induction s; simpl; auto. Qed.

Lemma printf_fits room out s :
  (length out + String.length s < room)%nat → shttpd_printf room out s = out ++ codes s.
Proof.
  intros H. unfold shttpd_printf.
  rewrite (proj2 (Nat.eqb_neq _ _)), (proj2 (Nat.ltb_lt _ _)) by lia. done.
Qed.

Lemma prints_fit room strs out :
  (length out + foldr (λ s n, String.length s + n) 0 strs < room)%nat →
  foldl (shttpd_printf room) out strs = out ++ codes (foldr String.append "" strs).
Proof.
  revert out. induction strs as [|s strs IH]; intros out H; cbn [foldl foldr] in *; [by rewrite app_nil_r|].
  rewrite printf_fits by lia. rewrite IH by (rewrite length_app, codes_length; lia).
  by rewrite codes_app, app_assoc.
Qed.

(** The pieces the headers are printed in. *)
Definition head_pieces (package : string) (status : Z) (encoding : string) (len t : Z) : list string :=
  [ "HTTP/1.1 " +:+ print_int status +:+ " (null)" +:+ crlf; "Server: " +:+ package +:+ crlf ] ++
  (if t =? 1 then [ "Content-Type: application/xml; charset=" +:+ quote1 "utf-8" +:+ crlf;
                    "CIMExport: MethodResponse" +:+ crlf ]
   else [ "Content-Type: application/soap+xml;charset=" +:+ encoding +:+ crlf ]) ++
  [ "Content-Length: " +:+ print_int (sint 32 len) +:+ crlf; "Connection: Close" +:+ crlf; crlf ].

Definition head_text (package : string) (status : Z) (encoding : string) (len t : Z) : string :=
  foldr String.append "" (head_pieces package status encoding len t).

Section Pieces.
Context {W : Type}.
Variable dispatch : W → list Z → string → option (string * string) → option (W * Z * list Z).
Variable check_identify : list Z → string → bool.
Variable cim_call : W → list Z → string → option string → option (W * Z * option (Z * string) * list Z).
Variable load : string → option (list Z).
Variables (idfile anonfile : char_ptr) (package : string).

Notation callback := (server_callback dispatch check_identify cim_call load idfile anonfile package).
Notation serve' := (serve dispatch check_identify cim_call load idfile anonfile package).

Lemma send_head_fits room status encoding st :
  let len := Z.of_nat (length (default [] (response st))) in
  (String.length (head_text package status encoding len (rtype st)) < room)%nat →
  send_head package room status encoding st = codes (head_text package status encoding len (rtype st)).
Proof.
  intros len Hlen. unfold send_head, head_text, head_pieces in *. fold len.
  assert (Hsum : ∀ l, String.length (foldr String.append "" l) = foldr (λ s n, String.length s + n)%nat 0%nat l).
  { induction l as [|x l IH]; [done|]. cbn [foldr]. by rewrite str_length_app, IH. }
  rewrite Hsum in Hlen. destruct (rtype st =? 1); cbn [app] in Hlen |- *;
    match goal with |- _ = codes (foldr _ _ ?l) => pose proof (prints_fit room l [] Hlen) as H end;
    rewrite app_nil_l in H; rewrite <- H; reflexivity.
Qed.

(** The headers of the connection say how long the request is, and no call
    finds it broken. *)
Context (hs : list (string * string)).
Hypothesis Hhs : forallb header_ok hs = true.
Hypothesis Hlen : forallb (name_ok "Content-Length") hs = true.

Definition quiet (cas : list call) : Prop := Forall (λ ca, conn_error ca = false) cas.

Definition rooms (cas : list call) : nat := foldr (λ ca n, (out_len ca + n)%nat) 0%nat cas.

Lemma get_length b :
  headers_of b hs →
  ∃ b', shttpd_get_header b "Content-Length" = Some (hlookup "Content-Length" hs, b') ∧ headers_of b' hs.
Proof using Hhs Hlen. intros Hb. by apply get_header_of. Qed.

(** The rest of a response, over any sequence of calls. *)
Lemma serve_rest cas : ∀ c st body w s,
  headers_of (c_headers c) hs → hlookup "Content-Length" hs = Some s → quiet cas →
  response st = Some body → (index st ≤ length body)%nat →
  serve' c (Some st) cas w =
    Some (take (rooms cas) (drop (index st) body), (length body - index st <? rooms cas)%nat, w).
Proof using Hhs Hlen.
  induction cas as [|ca cas IH]; intros c st body w s Hb Hs Hq Hr Hi.
  - cbn [serve rooms foldr]. by rewrite (proj2 (Nat.ltb_ge _ _)) by lia.
  - apply Forall_cons in Hq as [Hq1 Hq]. cbn [serve]. unfold server_callback. rewrite Hq1. cbn [andb].
    destruct (get_length _ Hb) as (b' & Hg & Hb'). rewrite Hg, Hs. cbn [mbind option_bind default id].
    rewrite Hr. unfold send_body. rewrite Hr. cbn [default id length]. rewrite Nat.sub_0_r.
    set (k := out_len ca). cbn [rooms foldr]. fold (rooms cas). fold k.
    destruct (k <=? length body - index st)%nat eqn:E.
    + apply Nat.leb_le in E. cbn [mbind option_bind an_end an_out an_state an_headers an_w c_uri c_ch].
      rewrite (IH _ _ body w s) by (done || (simpl; lia)). cbn [mbind option_bind index app]. f_equal. f_equal. f_equal.
      * rewrite <- drop_drop. by rewrite take_take_drop.
      * apply eq_true_iff_eq. rewrite !Nat.ltb_lt. lia.
    + apply Nat.leb_gt in E. cbn [mbind option_bind an_end an_out an_w app].
      rewrite take_ge by (rewrite length_drop; lia). by rewrite (proj2 (Nat.ltb_lt _ _)) by lia.
Qed.

(** What has been received so far. *)
Definition collected (n : Z) (st : option rstate) (acc : list Z) : Prop :=
  default (RState n 0 [] None 0 0) st = RState n (Z.of_nat (length acc)) acc None 0 0.

Lemma receive_collected n acc piece :
  receive (RState n (Z.of_nat (length acc)) acc None 0 0) piece =
  RState n (Z.of_nat (length (acc ++ piece))) (acc ++ piece) None 0 0.
Proof.
  unfold receive. cbn [cl nread request response index rtype]. rewrite length_app, Nat2Z.inj_add.
  destruct acc as [|z acc]; [done|]. by rewrite (proj2 (Z.ltb_lt _ _)) by (simpl; lia).
Qed.

Definition pieces (cas : list call) : list Z := mjoin (in_buf <$> cas).

Lemma serve_collect cas : ∀ c st acc w s rest,
  headers_of (c_headers c) hs → hlookup "Content-Length" hs = Some s → quiet cas →
  collected (strtoul_value s) st acc → Z.of_nat (length (acc ++ pieces cas)) < strtoul_value s →
  ∃ b st', headers_of b hs ∧ collected (strtoul_value s) st' (acc ++ pieces cas) ∧
    serve' c st (cas ++ rest) w = serve' (Conn (c_uri c) b (c_ch c)) st' rest w.
Proof using Hhs Hlen.
  induction cas as [|ca cas IH]; intros c st acc w s rest Hb Hs Hq Hst Hn.
  - unfold pieces in *. simpl in *. rewrite app_nil_r in *. exists (c_headers c), st.
    split_and!; try done. by destruct c.
  - apply Forall_cons in Hq as [Hq1 Hq]. change (pieces (ca :: cas)) with (in_buf ca ++ pieces cas) in *.
    rewrite app_assoc in Hn |- *. cbn [app serve]. unfold server_callback. rewrite Hq1. cbn [andb].
    destruct (get_length _ Hb) as (b' & Hg & Hb'). rewrite Hg, Hs. cbn [mbind option_bind]. rewrite Hst.
    cbn [response]. rewrite receive_collected. cbn [nread cl].
    rewrite (proj2 (Z.ltb_lt _ _)) by (rewrite !length_app, !Nat2Z.inj_add in *; lia).
    cbn [mbind option_bind an_end an_out an_state an_headers an_w].
    destruct (IH (Conn (c_uri c) b' (c_ch c))
      (Some (RState (strtoul_value s) (Z.of_nat (length (acc ++ in_buf ca))) (acc ++ in_buf ca) None 0 0))
      (acc ++ in_buf ca) w s rest) as (b2 & st2 & Hb2 & Hst2 & Hserve); try done.
    exists b2, st2. split_and!; try done. rewrite Hserve. cbn [c_uri c_ch].
    destruct (serve' _ st2 rest w) as [[[out fin] w2]|]; done.
Qed.

(** The encoding that the content type states. *)
Definition encoding_of (ct : option string) : option string :=
  match ct with
  | Some ct => match strstr ct "charset" with Some p => str_drop 8 p | None => Some "UTF-8" end
  | None => Some "UTF-8"
  end.

Definition content_type_ok (ct : option string) : bool :=
  match ct with Some ct => str_prefix SOAP_CONTENT_TYPE ct | None => true end.

Hypothesis Htype : forallb (name_ok "Content-Type") hs = true.

Lemma get_type b :
  headers_of b hs →
  ∃ b', shttpd_get_header b "Content-Type" = Some (hlookup "Content-Type" hs, b') ∧ headers_of b' hs.
Proof using Hhs Htype. intros Hb. by apply get_header_of. Qed.

(** The call that completes a request for "/wsman". *)
Lemma serve_wsman_dispatches room consumed auth st b w enc creds w' status resp :
  headers_of b hs → content_type_ok (hlookup "Content-Type" hs) = true →
  encoding_of (hlookup "Content-Type" hs) = Some enc →
  (∀ b, headers_of b hs → ∃ b', shttpd_get_credentials b auth = Some (creds, b') ∧ headers_of b' hs) →
  (ptr_null idfile = true ∨ check_identify (request st) enc = false) →
  dispatch w (request st) enc creds = Some (w', status, resp) →
  (String.length (head_text package status enc (Z.of_nat (length resp)) 0) < room)%nat →
  ∃ b', headers_of b' hs ∧
    serve_wsman dispatch check_identify load idfile package room consumed auth st b w =
    send_body room (codes (head_text package status enc (Z.of_nat (length resp)) 0))
      (RState (cl st) (nread st) (request st) (Some resp) 0 0) consumed b' w'.
Proof using Hhs Htype.
  intros Hb Hct Henc Hcred Hid Hdisp Hroom. unfold serve_wsman, check_request_content_type, get_request_encoding.
  destruct (get_type b Hb) as (b1 & Hg1 & Hb1). rewrite Hg1. cbn [mbind option_bind].
  assert (Hst : match hlookup "Content-Type" hs with
    | Some ct => if str_prefix SOAP_CONTENT_TYPE ct then WSMAN_STATUS_OK else WSMAN_STATUS_UNSUPPORTED_MEDIA_TYPE
    | None => WSMAN_STATUS_OK end = WSMAN_STATUS_OK).
  { unfold content_type_ok in Hct. destruct (hlookup _ hs); [by rewrite Hct|done]. }
  rewrite Hst. cbn [negb Z.eqb Pos.eqb WSMAN_STATUS_OK].
  destruct (get_type b1 Hb1) as (b2 & Hg2 & Hb2). rewrite Hg2. cbn [mbind option_bind].
  assert (He : match hlookup "Content-Type" hs with
    | Some ct => match strstr ct "charset" with
                 | Some p => e ← str_drop 8 p; Some (e, b2) | None => Some ("UTF-8", b2) end
    | None => Some ("UTF-8", b2) end = Some (enc, b2)).
  { unfold encoding_of in Henc. destruct (hlookup _ hs) as [ct|]; [|by simplify_eq].
    destruct (strstr ct "charset") as [q|]; [|by simplify_eq]. by rewrite Henc. }
  rewrite He. cbn [mbind option_bind]. destruct (Hcred b2 Hb2) as (b3 & Hc & Hb3). rewrite Hc.
  cbn [mbind option_bind]. exists b3. split; [done|].
  assert (Hd : match idfile with
    | StrP f => if check_identify (request st) enc then
        match load f with Some r => Some (w, WSMAN_STATUS_OK, r) | None => dispatch w (request st) enc creds end
        else dispatch w (request st) enc creds
    | _ => dispatch w (request st) enc creds end = Some (w', status, resp)).
  { destruct idfile; try done. destruct Hid as [?|Hid]; [done|]. by rewrite Hid. }
  rewrite Hd. cbn [mbind option_bind]. unfold set_response. f_equal.
  apply (send_head_fits room status enc (RState (cl st) (nread st) (request st) (Some resp) 0 0)). exact Hroom.
Qed.

(** A whole exchange: [pre] are the calls before the request is complete. *)
Lemma serve_exchange c pre ca post w s enc creds w' status resp :
  let auth := header_vec (c_ch c) "Authorization: " in
  let body := pieces (pre ++ [ca]) in
  let head := head_text package status enc (Z.of_nat (length resp)) 0 in
  c_uri c = "/wsman" → headers_of (c_headers c) hs → hlookup "Content-Length" hs = Some s →
  quiet (pre ++ ca :: post) →
  Z.of_nat (length (pieces pre)) < strtoul_value s ∨ pre = [] →
  strtoul_value s ≤ Z.of_nat (length body) →
  content_type_ok (hlookup "Content-Type" hs) = true → encoding_of (hlookup "Content-Type" hs) = Some enc →
  (∀ b, headers_of b hs → ∃ b', shttpd_get_credentials b auth = Some (creds, b') ∧ headers_of b' hs) →
  (ptr_null idfile = true ∨ check_identify body enc = false) →
  dispatch w body enc creds = Some (w', status, resp) →
  (String.length head < out_len ca)%nat →
  serve' c None (pre ++ ca :: post) w =
    Some (take (rooms (ca :: post)) (codes head ++ resp),
          (String.length head + length resp <? rooms (ca :: post))%nat, w').
Proof using Hhs Hlen Htype.
  intros auth body head Huri Hb Hs Hq Hpre Hbody Hct Henc Hcred Hid Hdisp Hroom.
  apply Forall_app in Hq as [Hq1 Hq2]. apply Forall_cons in Hq2 as [Hq2 Hq3].
  assert (∃ b st, headers_of b hs ∧ collected (strtoul_value s) st (pieces pre) ∧
    serve' c None (pre ++ ca :: post) w = serve' (Conn (c_uri c) b (c_ch c)) st (ca :: post) w)
    as (b & st & Hb1 & Hst & ->).
  { destruct Hpre as [Hpre| ->].
    - destruct (serve_collect pre c None [] w s (ca :: post) Hb Hs Hq1 eq_refl Hpre) as (b & st & H). by exists b, st.
    - exists (c_headers c), None. split_and!; try done. }
  assert (Hbd : body = pieces pre ++ in_buf ca).
  { unfold body, pieces. rewrite fmap_app, join_app. simpl. by rewrite app_nil_r. }
  cbn [serve]. unfold server_callback. rewrite Hq2. cbn [andb c_headers c_uri c_ch].
  destruct (get_length _ Hb1) as (b2 & Hg & Hb2). rewrite Hg, Hs. cbn [mbind option_bind].
  red in Hst. rewrite !Hst. cbn [response]. rewrite receive_collected, <- Hbd. cbn [nread cl].
  rewrite (proj2 (Z.ltb_ge _ _)) by done. rewrite Huri. change (str_eqb "/wsman" "/wsman") with true. cbn iota.
  fold auth.
  destruct (serve_wsman_dispatches (out_len ca) (length (in_buf ca)) auth
    (RState (strtoul_value s) (Z.of_nat (length body)) body None 0 0) b2 w enc creds w' status resp)
    as (b3 & Hb3 & Hserve); try done.
  rewrite Hserve. cbn [cl nread request]. fold head. unfold send_body.
  cbn [default id response index]. rewrite codes_length, Nat.sub_0_r, drop_0.
  set (k := (out_len ca - String.length head)%nat).
  assert (Hrooms : rooms (ca :: post) = (String.length head + (k + rooms post))%nat).
  { cbn [rooms foldr]. fold (rooms post). unfold k. lia. }
  rewrite Hrooms, take_app_add'; [|by rewrite codes_length].
  destruct (k <=? length resp)%nat eqn:E.
  - apply Nat.leb_le in E. cbn [mbind option_bind an_end an_out an_state an_headers an_w c_uri c_ch].
    erewrite serve_rest; try done. cbn [mbind option_bind index Nat.add]. f_equal. f_equal. f_equal.
    + by rewrite <- app_assoc, take_take_drop.
    + apply eq_true_iff_eq. rewrite !Nat.ltb_lt. lia.
  - apply Nat.leb_gt in E. cbn [mbind option_bind an_end an_out an_w].
    rewrite take_ge by lia. by rewrite (proj2 (Nat.ltb_lt _ _)) by lia.
Qed.

(** What is refused is not dispatched: a request without a length is
    answered with 411 before its body is read; one for "/wsman" of another
    content type with 415 and one for an unknown path with 404 when it is
    complete; the answer is complete and the rest of the program unchanged. *)
Theorem refused_undispatched c ca w :
  headers_of (c_headers c) hs → conn_error ca = false →
  (hlookup "Content-Length" hs = None →
   ∃ b, callback c None ca w = Some (Answer (shttpd_printf (out_len ca) []
     ("HTTP/1.0 411 Length Required" +:+ str1 newline +:+ str1 newline)) true 0 None b w)) ∧
  (∀ s, hlookup "Content-Length" hs = Some s → strtoul_value s ≤ Z.of_nat (length (in_buf ca)) →
   (c_uri c = "/wsman" → content_type_ok (hlookup "Content-Type" hs) = false →
    let head := head_text package WSMAN_STATUS_UNSUPPORTED_MEDIA_TYPE "UTF-8" 0 0 in
    (String.length head < out_len ca)%nat →
    ∃ b, callback c None ca w = Some (Answer (codes head) true (length (in_buf ca)) None b w)) ∧
   (c_uri c ≠ "/wsman" → str_prefix DEFAULT_CIMINDICATION_PATH (c_uri c) = false → c_uri c ≠ ANON_IDENTIFY_PATH →
    ∃ b st, callback c None ca w = Some (Answer (shttpd_printf (out_len ca) []
      ("HTTP/1.0 404 Not foundn" +:+ str1 newline)) true (length (in_buf ca)) (Some st) b w))).
Proof using Hhs Hlen Htype.
  intros Hb Hq. unfold server_callback. rewrite Hq. cbn [andb].
  destruct (get_length _ Hb) as (b1 & Hg & Hb1). rewrite Hg. cbn [mbind option_bind]. split.
  - intros ->. by exists b1.
  - intros s Hs Hn. rewrite Hs. cbn [default id response receive nread cl].
    change (Z.of_nat (length (in_buf ca))) with (0 + Z.of_nat (length (in_buf ca))) in Hn.
    rewrite (proj2 (Z.ltb_ge _ _) Hn). split.
    + intros Hu Hct Hroom. set (head := head_text _ _ _ _ _) in *. rewrite Hu. change (str_eqb "/wsman" "/wsman") with true. cbn iota.
      unfold serve_wsman, check_request_content_type. destruct (get_type b1 Hb1) as (b2 & Hg2 & Hb2). rewrite Hg2.
      cbn [mbind option_bind]. unfold content_type_ok in Hct. destruct (hlookup "Content-Type" hs); [|done]. rewrite Hct.
      cbn [negb Z.eqb Pos.eqb WSMAN_STATUS_OK WSMAN_STATUS_UNSUPPORTED_MEDIA_TYPE]. exists b2.
      assert (Hst : ∀ st, response st = None → index st = 0%nat → rtype st = 0 →
        send_body (out_len ca) (send_head package (out_len ca) 415 "UTF-8" st) st (length (in_buf ca)) b2 w =
        Some (Answer (codes head) true (length (in_buf ca)) None b2 w)); [|by apply Hst].
      intros st Hr Hi Ht. rewrite send_head_fits by by rewrite Hr, Ht. rewrite Hr, Ht. cbn [default length].
      change (head_text _ 415 _ _ _) with head.
      unfold send_body. rewrite Hr, Hi. cbn [default length Nat.sub]. rewrite codes_length.
      rewrite (proj2 (Nat.leb_gt _ _)) by lia. by rewrite drop_nil, app_nil_r.
    + intros Hu1 Hu2 Hu3. rewrite (proj2 (str_eqb_neq _ _) Hu1), Hu2, (proj2 (str_eqb_neq _ _) Hu3). by eexists _, _.
Qed.
End Pieces.

Lemma refused_undispatched_witness :
  ∃ b, server_callback (λ (w : nat) _ _ _, Some (S w, 200, [])) (λ _ _, false) (λ w _ _ _, Some (w, 0, None, []))
    (λ _, None) NULLp NULLp "Openwsman" (Conn "/wsman" (hbuf [(("Content-Length", "2"), TIntact); (("Content-Type", "text/xml"), TIntact)] TIntact)
      (Headers 2 [])) None (Call (codes "<a") 4096 false) 0%nat =
    Some (Answer (codes (head_text "Openwsman" 415 "UTF-8" 0 0)) true 2 None b 0%nat).
Proof.
  destruct (refused_undispatched (λ (w : nat) _ _ _, Some (S w, 200, [])) (λ _ _, false)
    (λ w _ _ _, Some (w, 0, None, [])) (λ _, None) NULLp NULLp "Openwsman"
    [("Content-Length", "2"); ("Content-Type", "text/xml")] ltac:(vm_compute; reflexivity)
    ltac:(vm_compute; reflexivity) ltac:(vm_compute; reflexivity)
    (Conn "/wsman" (hbuf [(("Content-Length", "2"), TIntact); (("Content-Type", "text/xml"), TIntact)] TIntact)
      (Headers 2 [])) (Call (codes "<a") 4096 false) 0%nat) as [_ H];
    [exists [TIntact; TIntact], TIntact; split; reflexivity|reflexivity|].
  destruct (H "2" ltac:(vm_compute; reflexivity) ltac:(vm_compute; discriminate)) as [H1 _].
  apply H1; [reflexivity|vm_compute; reflexivity|]. apply Nat.ltb_lt. vm_compute. reflexivity.
Defined.
