(* ===== verification/IndicationProofs.v ===== *)
(** * Indications at the listener

    The composition of [Listener] and [Indication]: what an export message that
    is posted to the path of the indication listener does to the event pool, and
    what its sender is told. *)

From S2P Require Import Prelude CString Names Xml EventPool Subscribe Uri Base64 Ini Options Daemon Http Listener Indication.

Local Open Scope string_scope.
Local Open Scope list_scope.
Local Open Scope Z_scope.
Local Open Scope ow_scope.

Section Service.
Context `{Libxml2}.

(** The call as the listener makes it, and the fields it reads of the message:
    the error is there when there is a fault message. *)
Definition indication_service (parse : list Z → string → option xnode) (dump : xnode → list Z)
    (subs : list (WsSubscribeInfo * list (string * string))) (p : event_pool) (request : list Z) (charset : string)
    (uuid : option string) : option (event_pool * Z * option (Z * string) * list Z) :=
  '(p, m) ← CIM_Indication_call parse dump subs p request charset uuid;
  Some (p, cm_http_code m, (λ f, (cm_code m, f)) <$> cm_fault_msg m, cm_response m).

Context {LL : Libxml2Laws}.

(** C35: An indication that is posted to the listener for a known subscription puts
    one event per request of the message into the queue of that subscription, in
    order, whose action names the class and whose document has the class as its
    root and one element per property of the instance; other queues are
    unchanged, and a queue that is pulled drops what is above its limit.  The
    sender gets the response message, but with the status 0. *)
Theorem indications_queued (parse : list Z → string → option xnode) (dump : xnode → list Z)
    (subs : list (WsSubscribeInfo * list (string * string))) (package path charset uuid uri b b1 b2 b3 : string)
    (x y : string) (room consumed : nat) (st : rstate) (p : event_pool) (doc msg : xnode) (s : WsSubscribeInfo)
    (vendor : list (string * string)) (exps : list (string * xnode)) :
  get_request_encoding b = Some (charset, b1) →
  shttpd_get_header b1 "CIMExport" = Some (Some x, b2) →
  shttpd_get_header b2 "CIMExportMethod" = Some (Some y, b3) →
  last_segment path = Some uuid →
  parse (request st) charset = Some doc →
  cim_child (Some doc) 0 CIMXML_MESSAGE = Some msg → isvalidCIMIndicationExport (Some doc) = true →
  find_subscription subs uuid = Some (s, vendor) → s_uri s = Some uri →
  pool_ok p → EventPool.fits (subsId s) p →
  Forall2 (λ n e, exports n e.1 e.2) (requests msg) exps →
  let r := dump (cimxml_build_response_msg doc) in
  let head := head_text package 0 charset (Z.of_nat (length r)) 1 in
  (String.length head + length r < room)%nat →
  ∃ p', serve_indication (indication_service parse dump subs) package room consumed path st b p =
          Some (Answer (codes head ++ r) true consumed None b3 p') ∧
        queued (deliveryMode s) (subsId s) (event_of uri vendor <$> exps) p p'.
Proof.
  intros Henc Hx Hy Hseg Hparse Hmsg Hval Hfind Huri Hp Hf He r head Hroom.
  destruct (indication_call_queued parse dump subs p (request st) charset uuid uri doc msg s vendor exps)
    as (p' & Hcall & Hq); [done..|].
  exists p'. split; [|done]. unfold serve_indication, indication_service.
  rewrite Henc. cbn [mbind option_bind]. rewrite Hx. cbn [mbind option_bind]. rewrite Hy. cbn [mbind option_bind].
  rewrite Hseg, Hcall. cbn [mbind option_bind cm_http_code cm_fault_msg cm_response fmap option_fmap option_map].
  fold r. rewrite (send_head_fits package room 0 charset (set_response st r 1)) 
    by (change (String.length head < room)%nat; lia).
  unfold send_body. cbn [response set_response default index rtype from_option id]. fold head.
  rewrite codes_length. destruct (Nat.leb_spec (room - String.length head) (length r - 0)); [lia|].
  by rewrite drop_0.
Qed.
End Service.

#[local] Existing Instance TreeXml.

Definition export_headers : string :=
  "CIMExport: MethodRequest" +:+ crlf +:+ "CIMExportMethod: ExportIndication" +:+ crlf.

Lemma indications_queued_witness :
  ∃ p' b3, serve_indication
      (indication_service (λ _ _, Some (cim_el CIMXML_CIM [] [alert_message 2])) (λ _, codes "<CIM/>")
         [(alert_subscription, [])]) "openwsman" 1000 7 "/cimindicationlistener/u-1" (RState 0 0 [] None 0 0)
      export_headers (EventPool [] 16) =
    Some (Answer (codes (head_text "openwsman" 0 "UTF-8" 6 1) ++ codes "<CIM/>") true 7 None b3 p') ∧
    length (queue "u-1" p') = 2%nat ∧ queue "u-2" p' = [].
Proof.
  destruct (get_request_encoding export_headers) as [[enc b1]|] eqn:E1; vm_compute in E1; [|discriminate].
  destruct (shttpd_get_header b1 "CIMExport") as [[[x|] b2]|] eqn:E2; injection E1 as <- <-; vm_compute in E2;
    try discriminate.
  destruct (shttpd_get_header b2 "CIMExportMethod") as [[[y|] b3]|] eqn:E3; injection E2 as <- <-; vm_compute in E3;
    try discriminate.
  injection E3 as <- <-.
  edestruct (indications_queued (λ _ _, Some (cim_el CIMXML_CIM [] [alert_message 2])) (λ _, codes "<CIM/>")
    [(alert_subscription, [])] "openwsman" "/cimindicationlistener/u-1" "UTF-8" "u-1" XML_NS_CIM_CLASS
    export_headers) with (room := 1000%nat) (consumed := 7%nat) (st := RState 0 0 [] None 0 0)
    (doc := cim_el CIMXML_CIM [] [alert_message 2]) (msg := alert_message 2) (s := alert_subscription)
    (p := EventPool [] 16) (vendor := @nil (string * string))
    (exps := [("CIM_AlertIndication", alert_instance); ("CIM_AlertIndication", alert_instance)])
    as (p' & Hc & _ & _ & _ & Hq);
    [vm_compute; reflexivity|vm_compute; reflexivity|vm_compute; reflexivity|reflexivity|reflexivity|reflexivity
    |reflexivity|reflexivity|reflexivity|split; constructor|by left|repeat constructor|vm_compute; lia|].
  eexists p', _. split; [exact Hc|]. rewrite !Hq. split; [|by rewrite bool_decide_eq_false_2 by done].
  rewrite bool_decide_eq_true_2 by done. reflexivity.
Defined.
