(* ===== verification/HttpProofs.v ===== *)
(** * A request from the wire to the dispatcher

    The composition of the HTTP server and the listener: the text of a request
    is parsed, its credentials are checked, and it is served.  The credentials
    are read twice from a buffer that is cut in between. *)

From S2P Require Import Prelude CString Uri Base64 Ini Options Daemon Http Listener.
From Stdlib Require Import Ascii.
Local Open Scope string_scope.
Local Open Scope list_scope.
Local Open Scope Z_scope.
Local Open Scope ow_scope.

(** ** Credentials as text *)

Definition b64_code (z : Z) : bool := bool_decide (z ∈ 61 :: ETable).

Definition token_char (a : ascii) : bool := negb (token_end a) && char_allowed a.

Lemma codes_of_str_of_codes l : Forall byte l → codes (str_of_codes l) = l.
Proof. induction 1 as [|z l Hz _ IH]; simpl; [done|]. by rewrite IH, code_chr. Qed.

Lemma str_of_codes_codes s : str_of_codes (codes s) = s.
Proof.
  induction s as [|a s IH]; simpl; [done|]. rewrite IH. f_equal. apply code_inj. by rewrite code_chr by apply code_range.
Qed.

Lemma codes_byte s : Forall byte (codes s).
Proof. induction s; simpl; constructor; [apply code_range|done]. Qed.

Lemma enc_b64 v : six v → b64_code (enc v) = true.
Proof.
  intros Hv. apply (all_below_spec 64 (λ v, b64_code (enc v)) v); [vm_compute; reflexivity|done].
Qed.

Lemma encode_block_b64 n a b c :
  byte a → byte b → byte c → Forall (λ z, b64_code z = true) (encode_block n (char_of a) (char_of b) (char_of c)).
Proof.
  intros Ha Hb Hc. destruct (values_six a b c Ha Hb Hc) as (S0 & S1 & S2 & S3). unfold encode_block.
  fold (v0 (char_of a)) (v1 (char_of a) (char_of b)) (v2 (char_of b) (char_of c)) (v3 (char_of c)).
  repeat constructor; try (by apply enc_b64); case_match; try done; by apply enc_b64.
Qed.

Lemma encode_loop_b64 s : ∀ i1 i2,
  Forall byte s → byte i1 → byte i2 →
  Forall (λ z, b64_code z = true) (encode_loop s (char_of i1) (char_of i2)).
Proof.
  induction s as [|a|a b|a b c s IH] using list_ind3; intros i1 i2 Hs H1 H2; cbn [encode_loop];
    repeat match goal with H : Forall byte (_ :: _) |- _ => apply Forall_cons in H as [? H] end.
  - constructor.
  - by apply encode_block_b64.
  - by apply encode_block_b64.
  - apply Forall_app. split; [by apply encode_block_b64|by apply IH].
Qed.

(** The characters of a text in base64 are printable, and none ends a token. *)
Lemma b64_char z : b64_code z = true → byte z ∧ token_char (chr z) = true.
Proof.
  intros Hz. assert (Hall : all_below 256 (λ z, negb (b64_code z) || token_char (chr z)) = true)
    by (vm_compute; reflexivity).
  assert (Hb : byte z).
  { unfold b64_code in Hz. apply bool_decide_eq_true in Hz.
    assert (H : forallb (λ z, (0 <=? z) && (z <? 256)) (61 :: ETable) = true) by (vm_compute; reflexivity).
    rewrite forallb_forall in H. apply list_elem_of_In, H in Hz. unfold byte. lia. }
  split; [done|]. pose proof (all_below_spec _ _ z Hall Hb) as H. cbv beta in H. by rewrite Hz in H.
Qed.

Lemma b64_text l :
  Forall (λ z, b64_code z = true) l → Forall byte l ∧ str_all token_char (str_of_codes l) = true.
Proof.
  induction 1 as [|z l Hz _ [IH1 IH2]]; simpl; [done|]. destruct (b64_char z Hz) as [Hb Ht].
  split; [by constructor|]. by rewrite Ht.
Qed.

Definition b64 (s : string) : string := str_of_codes (ws_base64_encode (codes s)).

Lemma b64_spec s :
  str_all token_char (b64 s) = true ∧ codes (b64 s) = ws_base64_encode (codes s) ∧
  Z.of_nat (String.length (b64 s)) = (Z.of_nat (String.length s) + 2) / 3 * 4.
Proof.
  pose proof (encode_loop_b64 (codes s) 0 0 (codes_byte s) ltac:(done) ltac:(done)) as Hc.
  change (char_of 0) with 0 in Hc. fold (ws_base64_encode (codes s)) in Hc. destruct (b64_text _ Hc) as [Hb Ht].
  destruct (decode_encode_loop (codes s) 0 0 (codes_byte s)) as [_ Hl]; [done..|].
  change (char_of 0) with 0 in Hl. fold (ws_base64_encode (codes s)) in Hl.
  assert (Hcb : codes (b64 s) = ws_base64_encode (codes s)) by by apply codes_of_str_of_codes.
  split_and!; [done..|]. rewrite <- codes_length, Hcb, Hl. by rewrite codes_length.
Qed.

Lemma take_token_app t x r :
  str_all token_char t = true → token_end x = true → take_token (t +:+ String x r) = t.
Proof.
  intros Ht Hx. induction t as [|a t IH]; [rewrite str_nil_app; cbn [take_token]; by rewrite Hx|].
  cbn [str_all] in Ht. apply andb_true_iff in Ht as [[Ha%negb_true_iff _]%andb_true_iff Ht].
  rewrite str_app_cons. cbn [take_token]. by rewrite Ha, IH.
Qed.

Lemma skip_blank_token t x r :
  str_all token_char t = true → starts (λ _, true) t = true → skip_blank (t +:+ String x r) = t +:+ String x r.
Proof.
  destruct t as [|a t]; [done|]. cbn [str_all]. intros [[Ha%negb_true_iff _]%andb_true_iff _]%andb_true_iff _.
  rewrite str_app_cons. cbn [skip_blank]. unfold token_end in Ha.
  apply orb_false_iff in Ha as [[[Ha _]%orb_false_iff _]%orb_false_iff _]. by rewrite Ha.
Qed.

Lemma split_colon_app user pwd :
  str_all (none_of [58]) user = true → split_colon (user +:+ ":" +:+ pwd) = Some (user, pwd).
Proof.
  induction user as [|a u IH]; [done|]. cbn [str_all]. intros [Ha Hu]%andb_true_iff.
  rewrite str_app_cons. cbn [split_colon]. rewrite none_of_cons in Ha.
  apply andb_true_iff in Ha as [Ha%negb_true_iff _]. rewrite Ha, IH by done. done.
Qed.

Lemma c_str_no_nul s : str_all (none_of [0]) s = true → c_str s = s.
Proof.
  induction s as [|a s IH]; [done|]. cbn [str_all c_str]. intros [Ha Hs]%andb_true_iff.
  rewrite none_of_cons in Ha. apply andb_true_iff in Ha as [Ha%negb_true_iff _]. by rewrite Ha, IH.
Qed.

(** Names and passwords that Basic authentication can carry. *)
Definition user_ok (user pwd : string) : bool :=
  str_all (none_of [0; 58]) user && str_all (none_of [0]) pwd &&
  (2 <? String.length user + String.length pwd)%nat && (String.length user + String.length pwd <? 4095)%nat.

Definition pair_text (user pwd : string) : string := user +:+ ":" +:+ pwd.

Section Credentials.
Context (user pwd : string).
Hypothesis Huser : user_ok user pwd = true.

Lemma user_ok_spec :
  str_all (none_of [58]) user = true ∧ str_all (none_of [0]) (pair_text user pwd) = true ∧
  (4 ≤ String.length (pair_text user pwd) ≤ 4095)%nat.
Proof using Huser.
  unfold user_ok in Huser. apply andb_true_iff in Huser as [[[H1 H2]%andb_true_iff H3%Nat.ltb_lt]%andb_true_iff H4%Nat.ltb_lt].
  assert (Hu : str_all (none_of [58]) user = true ∧ str_all (none_of [0]) user = true).
  { split; eapply str_all_impl; try exact H1; intros a; rewrite !none_of_cons, !andb_true_iff; naive_solver. }
  destruct Hu as [Hu1 Hu2]. unfold pair_text. rewrite !str_all_app, !str_length_app, Hu2, H2. split_and!; [done|done|simpl; lia..].
Qed.

Lemma b64_starts : starts (λ _, true) (b64 (pair_text user pwd)) = true ∧ 4 < Z.of_nat (String.length (b64 (pair_text user pwd))).
Proof using Huser.
  destruct user_ok_spec as (_ & _ & Hl), (b64_spec (pair_text user pwd)) as (_ & _ & Hb).
  assert (4 < Z.of_nat (String.length (b64 (pair_text user pwd)))).
  { rewrite Hb. Z.to_euclidean_division_equations. lia. }
  split; [|done]. destruct (b64 _); [simpl in *; lia|done].
Qed.

(** The text behind "Basic" yields the user and the password. *)
Lemma basic_credentials_text x r :
  token_end x = true →
  basic_credentials (" " +:+ b64 (pair_text user pwd) +:+ String x r) = Some (Some (user, pwd)).
Proof using Huser.
  intros Hx. destruct user_ok_spec as (Hu & Hp & Hl), (b64_spec (pair_text user pwd)) as (Ht & Hc & _), b64_starts as [Hs _].
  unfold basic_credentials. change (skip_blank (" " +:+ ?s)) with (skip_blank s).
  rewrite skip_blank_token, take_token_app by done.
  assert (Hd : ws_base64_decode (codes (b64 (pair_text user pwd))) 4095
    = Some (codes (pair_text user pwd), Z.of_nat (String.length (pair_text user pwd)))).
  { rewrite Hc, base64_roundtrip; [by rewrite codes_length|apply codes_byte|].
    rewrite codes_length. Z.to_euclidean_division_equations. lia. }
  destruct (b64 (pair_text user pwd)) eqn:E; [done|]. rewrite Hd. cbn [mbind option_bind].
  rewrite (proj2 (Z.leb_gt _ _)) by lia.
  rewrite take_ge by (rewrite codes_length; lia). rewrite str_of_codes_codes, c_str_no_nul by done.
  unfold pair_text. by rewrite split_colon_app.
Qed.
End Credentials.

(** ** Credentials in the headers *)

(** The length of lines, whatever became of their ends. *)
Fixpoint lines_len (hs : list (string * string)) : nat :=
  match hs with [] => 0 | h :: hs' => String.length (hline h) + 2 + lines_len hs' end.

Lemma hbuf_split hs1 h hs2 : ∀ b,
  headers_of b (hs1 ++ h :: hs2) →
  ∃ P t R, b = P +:+ hline h +:+ tail_str t +:+ R ∧ String.length P = lines_len hs1 ∧
    ∀ t', headers_of (P +:+ hline h +:+ tail_str t' +:+ R) (hs1 ++ h :: hs2).
Proof.
  induction hs1 as [|h1 hs1 IH]; intros b (ts & e & Hlen & ->); destruct ts as [|t ts]; try done.
  - injection Hlen as Hlen. exists "", t, (hbuf (zip hs2 ts) e). split_and!; [done..|].
    intros t'. exists (t' :: ts), e. split; [simpl; by rewrite Hlen|done].
  - injection Hlen as Hlen. destruct (IH (hbuf (zip (hs1 ++ h :: hs2) ts) e)) as (P & t1 & R & Hb & HP & Hput).
    { by exists ts, e. }
    exists (hline h1 +:+ tail_str t +:+ P), t1, R. split_and!.
    + cbn [app zip zip_with hbuf]. fold (zip (hs1 ++ h :: hs2) ts). by rewrite Hb, !str_app_assoc.
    + rewrite !str_length_app, HP. cbn [lines_len]. assert (String.length (tail_str t) = 2%nat) by by destruct t. lia.
    + intros t'. destruct (Hput t') as (ts' & e' & Hl' & Hb'). exists (t :: ts'), e'. split; [simpl; by rewrite Hl'|].
      cbn [app zip zip_with hbuf]. fold (zip (hs1 ++ h :: hs2) ts'). by rewrite <- Hb', !str_app_assoc.
Qed.

Section AuthHeader.
Context (user pwd name : string) (hs1 hs2 : list (string * string)).
Hypothesis Huser : user_ok user pwd = true.

Definition basic_value : string := "Basic " +:+ b64 (pair_text user pwd).
Definition auth_header : string * string := (name, basic_value).
Definition auth_headers : list (string * string) := hs1 ++ auth_header :: hs2.

(** The value as [parse_headers] finds it. *)
Definition auth_vec : vec :=
  Vec (lines_len hs1 + (String.length name + 2)) (Z.of_nat (String.length basic_value)).

Lemma auth_text b :
  headers_of b auth_headers →
  ∃ P t R, b = P +:+ "Basic" +:+ " " +:+ b64 (pair_text user pwd) +:+ tail_str t +:+ R ∧
    String.length P = v_off auth_vec ∧
    ∀ t', headers_of (P +:+ "Basic" +:+ " " +:+ b64 (pair_text user pwd) +:+ tail_str t' +:+ R) auth_headers.
Proof.
  intros Hb. destruct (hbuf_split hs1 auth_header hs2 b Hb) as (P & t & R & -> & HP & Hput).
  exists (P +:+ name +:+ ": "), t, R. unfold auth_header, hline, basic_value in *. cbn [fst snd] in *. split_and!.
  - change "Basic " with ("Basic" +:+ " "). by rewrite !str_app_assoc.
  - rewrite !str_length_app, HP. cbn. done.
  - intros t'. specialize (Hput t'). change "Basic " with ("Basic" +:+ " ") in Hput.
    by rewrite !str_app_assoc in Hput |- *.
Qed.

Lemma scheme_basic P r :
  String.length P = v_off auth_vec → scheme_is (P +:+ "Basic" +:+ " " +:+ r) auth_vec "Basic " 10 = true.
Proof using Huser.
  intros HP. unfold scheme_is. rewrite <- HP, str_drop_app. change ("Basic" +:+ " " +:+ r) with ("Basic " +:+ r).
  rewrite strncasecmp_full, str_lower_app, str_prefix_app, andb_true_r. apply Z.ltb_lt.
  unfold auth_vec, basic_value. cbn [v_len]. rewrite str_length_app. destruct (b64_starts user pwd Huser) as [_ Hl].
  cbn [String.length]. lia.
Qed.

(** Reading the credentials ends the token with a NUL, which leaves a buffer
    with the same headers. *)
Lemma read_credentials b :
  headers_of b auth_headers →
  ∃ b' text, scheme_is b auth_vec "Basic " 10 = true ∧ str_drop (v_off auth_vec + 5) b = Some text ∧
    basic_credentials text = Some (Some (user, pwd)) ∧ token_cut b (v_off auth_vec + 5) = Some b' ∧
    headers_of b' auth_headers.
Proof using Huser.
  intros Hb. destruct (auth_text b Hb) as (P & t & R & -> & HP & Hput).
  set (T := b64 (pair_text user pwd)) in *.
  destruct (b64_spec (pair_text user pwd)) as (Ht & _ & _), (b64_starts user pwd Huser) as [Hs _]. fold T in Ht, Hs.
  assert (Hx : ∃ x r, tail_str t = String x r ∧ token_end x = true ∧ String (chr 0) r = tail_str (cut1 t))
    by (destruct t; eexists _, _; split_and!; reflexivity).
  destruct Hx as (x & r & Hx & Hend & Hcut).
  exists (P +:+ "Basic" +:+ " " +:+ T +:+ tail_str (cut1 t) +:+ R), (" " +:+ T +:+ tail_str t +:+ R).
  assert (Hdrop : str_drop (v_off auth_vec + 5) (P +:+ "Basic" +:+ " " +:+ T +:+ tail_str t +:+ R)
    = Some (" " +:+ T +:+ tail_str t +:+ R)).
  { rewrite <- HP, str_drop_app'. change 5%nat with (String.length "Basic"). by rewrite str_drop_app. }
  split_and!; [by apply scheme_basic|done|..|by apply Hput].
  - rewrite Hx, str_app_cons. by apply basic_credentials_text.
  - unfold token_cut. rewrite Hdrop. cbn [mbind option_bind]. change (skip_blank (" " +:+ ?s)) with (skip_blank s).
    rewrite Hx, str_app_cons, skip_blank_token, take_token_app by done.
    destruct T as [|c T'] eqn:ET; [done|]. rewrite <- ET in *.
    match goal with |- buf_put _ ?k _ = _ =>
      replace k with (String.length P + (String.length "Basic" + (String.length " " + (String.length T + 0))))%nat
        by (rewrite HP, !str_length_app; cbn [String.length]; lia) end.
    rewrite !buf_put_app', <- Hcut. done.
Qed.

Lemma get_credentials_of b :
  headers_of b auth_headers →
  ∃ b', shttpd_get_credentials b auth_vec = Some (Some (user, pwd), b') ∧ headers_of b' auth_headers.
Proof using Huser.
  intros Hb. destruct (read_credentials b Hb) as (b' & text & H1 & H2 & H3 & H4 & H5). exists b'. split; [|done].
  unfold shttpd_get_credentials. rewrite H1, H2. cbn [mbind option_bind]. rewrite H3. cbn [mbind option_bind].
  by rewrite H4.
Qed.
End AuthHeader.

(** ** Parsing the headers *)

Definition intact (hs : list (string * string)) : string := hbuf (zip hs (replicate (length hs) TIntact)) TIntact.

Definition no_colon (s : string) : bool := str_all (none_of [58]) s.

Definition eol : string := tail_str TIntact.

Lemma intact_cons h hs : intact (h :: hs) = hline h +:+ eol +:+ intact hs.
Proof. done. Qed.

Lemma take_line_eol s r :
  str_all plain_char s = true → take_line (s +:+ eol +:+ r) = (s +:+ str1 (chr 13), r).
Proof.
  induction s as [|a s IH]; [done|]. cbn [str_all]. intros [(_ & Ha & _)%plain_char_spec Hs]%andb_true_iff.
  rewrite str_app_cons. cbn [take_line]. by rewrite Ha, IH.
Qed.

Lemma tolower_colon a : none_of [58] a = true → code (tolower a) ≠ 58.
Proof.
  unfold none_of. intros Ha%negb_true_iff%bool_decide_eq_false. rewrite list_elem_of_singleton in Ha. unfold tolower.
  destruct ((65 <=? code a) && (code a <=? 90)) eqn:E; [|done].
  apply andb_true_iff in E as [E1%Z.leb_le E2%Z.leb_le].
  change (code (chr (code a + 32)) ≠ 58). rewrite code_chr by lia. lia.
Qed.

(** A name with its colon is a prefix of a line exactly when it is its name. *)
Lemma colon_prefix m h r :
  no_colon m = true → no_colon h = true →
  str_prefix (str_lower (m +:+ ": ")) (str_lower (h +:+ ": " +:+ r)) = str_eqb (str_lower m) (str_lower h).
Proof.
  revert h. induction m as [|a m IH]; intros h Hm Hh.
  - destruct h as [|b h]; [done|]. cbn [no_colon str_all] in Hh. apply andb_true_iff in Hh as [Hb _].
    rewrite str_nil_app, str_app_cons. cbn [str_lower str_prefix]. apply tolower_colon, Z.eqb_neq in Hb.
    change (code (tolower ":")) with 58. rewrite Z.eqb_sym, Hb. done.
  - unfold no_colon in Hm. cbn [str_all] in Hm. apply andb_true_iff in Hm as [Ha Hm].
    rewrite str_app_cons. destruct h as [|b h]; [|rewrite str_app_cons]; cbn [str_lower str_prefix].
    + rewrite str_nil_app. change (": " +:+ r) with (String ":" (" " +:+ r)). cbn [str_lower str_prefix]. apply tolower_colon, Z.eqb_neq in Ha. change (code (tolower ":")) with 58. rewrite Ha. symmetry. by apply str_eqb_neq.
    + unfold no_colon in Hh. cbn [str_all] in Hh. apply andb_true_iff in Hh as [Hb Hh]. rewrite IH by done.
      destruct (code (tolower a) =? code (tolower b)) eqn:E.
      * apply Z.eqb_eq, code_inj in E. rewrite E. cbn [andb]. apply eq_true_iff_eq. rewrite !str_eqb_eq. split; congruence.
      * apply Z.eqb_neq in E. symmetry. apply str_eqb_neq. intros [=]. congruence.
Qed.

Definition AUTH : string := "authorization".
Definition is_auth (h : string * string) : bool := str_eqb (str_lower h.1) AUTH.

(** The known headers, by name. *)
Definition known_names : list (hdr_type * string) :=
  [ (HDR_INT, "Content-Length"); (HDR_STRING, "Content-Type"); (HDR_STRING, "User-Agent");
    (HDR_DATE, "If-Modified-Since"); (HDR_STRING, "Authorization"); (HDR_STRING, "Referer");
    (HDR_STRING, "Cookie"); (HDR_STRING, "Location"); (HDR_INT, "Status");
    (HDR_STRING, "Range"); (HDR_STRING, "Connection"); (HDR_STRING, "Transfer-Encoding") ].

Lemma known_header_find l h r :
  forallb (λ p, no_colon p.2) l = true → no_colon h.1 = true → r ≠ "" →
  known_header ((λ p, (p.1, p.2 +:+ ": ")) <$> l) (hline h +:+ r) =
  (λ p, (p.1, p.2 +:+ ": ")) <$> find (λ p, str_eqb (str_lower p.2) (str_lower h.1)) l.
Proof.
  intros Hl Hh Hr. induction l as [|[t m] l IH]; [done|]. cbn [forallb snd] in Hl. apply andb_true_iff in Hl as [Hm Hl].
  rewrite fmap_cons. cbn [find known_header fst snd].
  rewrite strncasecmp_full. unfold hline at 2. rewrite !str_app_assoc, colon_prefix by done.
  destruct (str_eqb_spec (str_lower m) (str_lower h.1)) as [E|E]; [|rewrite andb_false_r; by apply IH].
  replace (_ <? _)%nat with true; [done|]. symmetry. apply Nat.ltb_lt. unfold hline. rewrite !str_length_app.
  rewrite <- (str_lower_length m), E, str_lower_length. destruct r; [done|]. simpl. lia.
Qed.

Lemma http_headers_named : http_headers = (λ p, (p.1, p.2 +:+ ": ")) <$> known_names.
Proof. reflexivity. Qed.

(** What a line does to the vector of the Authorization header. *)
Lemma header_line_auth off h r hd :
  header_ok h = true → no_colon h.1 = true →
  header_vec (parse_header_line off (hline h +:+ eol +:+ r) hd) "Authorization: " =
  if is_auth h then Vec (off + (String.length h.1 + 2)) (Z.of_nat (String.length h.2))
  else header_vec hd "Authorization: ".
Proof.
  intros Hh Hc. unfold parse_header_line. rewrite take_line_eol by by apply hline_plain. cbn [fst].
  rewrite http_headers_named, known_header_find by done.
  assert (Hlen : Z.of_nat (String.length (hline h +:+ str1 (chr 13)))
    = Z.of_nat (String.length h.1) + 2 + Z.of_nat (String.length h.2) + 1).
  { unfold hline. rewrite !str_length_app. cbn [String.length str1]. lia. }
  assert (Hlast : last_is 13 (hline h +:+ str1 (chr 13)) = true).
  { generalize (hline h) as s. induction s as [|a s IH]; [done|]. rewrite str_app_cons. cbn [last_is].
    destruct (s +:+ str1 (chr 13)) eqn:E; [by destruct s|done]. }
  rewrite Hlast, Hlen. unfold is_auth, AUTH.
  destruct (str_eqb_spec (str_lower h.1) "authorization") as [E|E].
  - assert (Hl : String.length h.1 = 13%nat) by by rewrite <- (str_lower_length h.1), E.
    rewrite E. replace (find _ known_names) with (Some (HDR_STRING, "Authorization")) by (vm_compute; reflexivity).
    cbn [fmap option_fmap option_map fst snd]. change (String.length ("Authorization" +:+ ": ")) with 15%nat.
    rewrite (proj2 (Z.ltb_lt _ _)) by lia. rewrite Hl. unfold header_vec. cbn [h_vecs find fst snd].
    change (str_eqb ("Authorization" +:+ ": ") "Authorization: ") with true.
    cbn [andb fmap option_fmap option_map snd default id]. f_equal; lia.
  - assert (Hf : ∀ p, find (λ p, str_eqb (str_lower p.2) (str_lower h.1)) known_names = Some p → p.2 ≠ "Authorization").
    { intros p [_ Hp]%find_some Hp2. rewrite Hp2 in Hp. apply str_eqb_eq in Hp. by rewrite <- Hp in E. }
    destruct (find _ known_names) as [[t m]|] eqn:Ef; [|done]. specialize (Hf _ eq_refl). cbn [snd] in Hf.
    assert (Hneq : str_eqb (m +:+ ": ") "Authorization: " = false).
    { apply find_some in Ef as [Hin _]. apply str_eqb_neq. intros Heq. apply Hf. clear - Hin Heq.
      unfold known_names in Hin. simpl in Hin. destruct_or! Hin; simplify_eq; done. }
    cbn [fmap option_fmap option_map fst snd]. destruct t; [by destruct (str_eqb _ "Content-Length: ")| |done].
    unfold header_vec. cbn [h_vecs find fst]. by rewrite Hneq.
Qed.

(** The last Authorization header counts. *)
Fixpoint last_auth (off : nat) (hs : list (string * string)) (v : vec) : vec :=
  match hs with
  | [] => v
  | h :: hs' =>
      last_auth (off + (String.length (hline h) + 2)) hs'
        (if is_auth h then Vec (off + (String.length h.1 + 2)) (Z.of_nat (String.length h.2)) else v)
  end.

Lemma intact_length hs : String.length (intact hs) = (lines_len hs + 2)%nat.
Proof.
  induction hs as [|h hs IH]; [done|]. rewrite intact_cons, !str_length_app, IH. cbn [lines_len eol tail_str String.length str1]. lia.
Qed.

Lemma parse_headers_auth hs : ∀ fuel off hd,
  forallb header_ok hs = true → forallb (λ h, no_colon h.1) hs = true →
  (String.length (intact hs) ≤ fuel)%nat →
  header_vec (parse_headers_loop fuel off (intact hs) hd) "Authorization: " =
  last_auth off hs (header_vec hd "Authorization: ").
Proof.
  induction hs as [|h hs IH]; intros fuel off hd Hh Hc Hf.
  - change (intact []) with eol in *. destruct fuel as [|fuel]; [simpl in Hf; lia|]. by destruct fuel.
  - cbn [forallb] in Hh, Hc. apply andb_true_iff in Hh as [Hh1 Hh], Hc as [Hc1 Hc].
    rewrite intact_cons in *. rewrite !str_length_app in Hf. change (String.length eol) with 2%nat in Hf.
    destruct fuel as [|fuel]; [lia|].
    assert (Hne : ∃ a s, hline h +:+ eol +:+ intact hs = String a s).
    { destruct (hline h); [by eexists _, _|by eexists _, _]. }
    destruct Hne as (a & s & Hne). cbn [parse_headers_loop]. rewrite Hne at 1. rewrite take_line_eol by by apply hline_plain.
    rewrite IH by (done || lia). rewrite header_line_auth by done. cbn [last_auth]. f_equal.
    rewrite str_length_app. cbn [String.length str1]. lia.
Qed.

Lemma last_auth_none hs : ∀ off v, forallb (λ h, negb (is_auth h)) hs = true → last_auth off hs v = v.
Proof.
  induction hs as [|h hs IH]; intros off v; [done|]. cbn [forallb last_auth]. intros [Hh%negb_true_iff Hs]%andb_true_iff.
  by rewrite Hh, IH.
Qed.

Lemma last_auth_app hs1 hs2 : ∀ off v,
  last_auth off (hs1 ++ hs2) v = last_auth (off + lines_len hs1) hs2 (last_auth off hs1 v).
Proof.
  induction hs1 as [|h hs1 IH]; intros off v; cbn [app last_auth lines_len]; [by rewrite Nat.add_0_r|].
  rewrite IH. f_equal. lia.
Qed.

(** ** Parsing the request *)

Definition request_line : string := "POST /wsman HTTP/1.1".

Definition request_text (hs : list (string * string)) (rest : string) : string :=
  request_line +:+ eol +:+ intact hs +:+ rest.

Definition line_ok (s : string) : bool := str_all (λ a, plain_char a && char_allowed a) s.

Lemma headers_len_step n a b s :
  char_allowed a = true → (code a =? 10) = false →
  headers_len_loop n (String a (String b s)) = headers_len_loop (n + 1) (String b s).
Proof. intros Ha H10. cbn [headers_len_loop]. by rewrite Ha, H10. Qed.

(** A line does not end the headers. *)
Lemma headers_len_line s r : ∀ n,
  line_ok s = true →
  headers_len_loop n (s +:+ String (chr 13) (String (chr 10) r)) =
  headers_len_loop (n + Z.of_nat (String.length s) + 1) (String (chr 10) r).
Proof.
  induction s as [|a s IH]; intros n Hs.
  - rewrite str_nil_app. replace (n + _ + 1) with (n + 1) by (cbn [String.length]; lia). reflexivity.
  - unfold line_ok in Hs. cbn [str_all] in Hs. apply andb_true_iff in Hs as [[Hp Ha]%andb_true_iff Hs].
    apply plain_char_spec in Hp as (_ & H10 & _). rewrite str_app_cons.
    assert (Hne : ∃ b r', s +:+ String (chr 13) (String (chr 10) r) = String b r')
      by (destruct s; eexists _, _; reflexivity).
    destruct Hne as (b & r' & Hne). rewrite Hne, headers_len_step, <- Hne, IH by done.
    f_equal. cbn [String.length]. lia.
Qed.

Lemma headers_len_next n a r :
  (code a =? 10) = false → (code a =? 13) = false →
  headers_len_loop n (String (chr 10) (String a r)) = headers_len_loop (n + 1) (String a r).
Proof.
  intros H1 H2. cbn [headers_len_loop]. change (char_allowed (chr 10)) with true. change (code (chr 10)) with 10.
  cbn [negb Z.eqb Pos.eqb andb]. by rewrite H1, H2.
Qed.

Lemma headers_len_intact hs rest : ∀ s n,
  line_ok s = true → forallb header_ok hs = true → forallb (λ h, line_ok (hline h)) hs = true →
  headers_len_loop n (s +:+ eol +:+ intact hs +:+ rest) =
  n + Z.of_nat (String.length s + 2 + String.length (intact hs)).
Proof.
  induction hs as [|h hs IH]; intros s n Hs Hh Hl;
    change (eol +:+ ?r) with (String (chr 13) (String (chr 10) r)); rewrite headers_len_line by done.
  - change (intact [] +:+ rest) with (String (chr 13) (String (chr 10) rest)).
    cbn [headers_len_loop]. change (char_allowed (chr 10)) with true. change (code (chr 10)) with 10.
    change (code (chr 13)) with 13. cbn [negb Z.eqb Pos.eqb andb]. change (String.length (intact [])) with 2%nat. lia.
  - cbn [forallb] in Hh, Hl. apply andb_true_iff in Hh as [Hh1 Hh], Hl as [Hl1 Hl].
    rewrite intact_cons, !str_app_assoc. pose proof Hh1 as Hh2. unfold header_ok in Hh2.
    apply andb_true_iff in Hh2 as [[Hst Hp]%andb_true_iff _].
    assert (Hne : ∃ a r, hline h +:+ eol +:+ intact hs +:+ rest = String a r ∧ plain_char a = true).
    { unfold hline. destruct h as [[|a n1] v]; [done|]. cbn [fst snd] in *. rewrite !str_app_cons. eexists _, _. split; [done|].
      cbn [str_all] in Hp. by apply andb_true_iff in Hp as [? _]. }
    destruct Hne as (a & r & Hne & (_ & H10 & H13)%plain_char_spec). rewrite Hne, headers_len_next, <- Hne by done.
    rewrite IH by done. rewrite !str_length_app. change (String.length eol) with 2%nat. lia.
Qed.

Lemma str_take_app a b : str_take (String.length a) (a +:+ b) = a.
Proof. induction a as [|x a IH]; [by destruct b|]. rewrite str_app_cons. cbn [String.length str_take]. by rewrite IH. Qed.

Lemma parse_request hs rest start full :
  str_prefix "POST" start = true → forallb header_ok hs = true → forallb (λ h, line_ok (hline h)) hs = true →
  parse_http_request start (request_text hs rest) full =
  (Parsed_ (Conn "/wsman" (intact hs) (_shttpd_parse_headers (intact hs))), (Some 1, Some 1)).
Proof.
  intros Hstart Hh Hl. unfold parse_http_request, _shttpd_get_headers_len, request_text.
  rewrite headers_len_intact by done. set (k := 0 + _).
  assert (Hk : k = Z.of_nat (String.length (request_line +:+ eol +:+ intact hs))).
  { unfold k. rewrite !str_length_app. change (String.length eol) with 2%nat. lia. }
  assert (Hk2 : 16 < k) by (unfold k; change (String.length request_line) with 20%nat; lia). clearbody k.
  rewrite (proj2 (Z.eqb_neq _ _)), (proj2 (Z.ltb_ge _ _)) by lia.
  rewrite Hstart. cbn [negb].
  rewrite Hk, Nat2Z.id.
  replace (request_line +:+ eol +:+ intact hs +:+ rest) with ((request_line +:+ eol +:+ intact hs) +:+ rest)
    by by rewrite !str_app_assoc. rewrite str_take_app.
  rewrite take_line_eol by (vm_compute; reflexivity).
  change (last_is 13 (request_line +:+ str1 (chr 13))) with true. cbn iota.
  change (default (request_line +:+ str1 (chr 13)) _) with (request_line +:+ str1 (chr 0)).
  change (skip_spaces (skip_until_space _)) with
    ("/wsman" +:+ " HTTP/1.1" +:+ String (chr 0) (String (chr 0) (intact hs))).
  change (take_word ("/wsman" +:+ _)) with "/wsman".
  change (default "" _) with (" HTTP/1.1" +:+ String (chr 0) (String (chr 0) (intact hs))).
  change (skip_spaces _) with ("HTTP/1.1" +:+ String (chr 0) (String (chr 0) (intact hs))).
  change (c_str ("HTTP/1.1" +:+ _)) with "HTTP/1.1".
  change (scan_version "HTTP/1.1") with (Some 1, Some 1, true). reflexivity.
Qed.

(** ** Deciding *)

Definition served_settings (s : settings) : Prop := service_path s = StrP "/wsman".

Lemma wsman_basic bd s :
  served_settings s →
  ∃ f, find_auth (uri_auths (create_shttpd_context bd s true)) "/wsman" = Some (UriAuth "/wsman" f BASIC_AUTH true).
Proof.
  unfold served_settings, create_shttpd_context, protect_uri. intros ->.
  exists (ptr_opt (basic_password_file s)).
  destruct (ENABLE_EVENTING_SUPPORT bd), (negb (ptr_null (digest_password_file s))); reflexivity.
Qed.

Lemma wsman_registered bd s cb :
  served_settings s → _shttpd_is_registered_uri (create_shttpd_context bd s cb) "/wsman" = Some (Some 1).
Proof.
  unfold served_settings, create_shttpd_context, protect_uri. intros ->.
  destruct (ENABLE_EVENTING_SUPPORT bd), (negb (ptr_null (digest_password_file s))), cb; reflexivity.
Qed.

Section Decide.
Context (user pwd name : string) (hs1 hs2 : list (string * string)) (bd : build) (s : settings).
Context (cb : string → string → Z) (root : nat) (realm : string) (now : Z).
Hypothesis Huser : user_ok user pwd = true.
Hypothesis Hset : served_settings s.
Hypothesis Hroot : (6 + root < URI_MAX)%nat.

Notation hs := (auth_headers user pwd name hs1 hs2).

(** The request goes to the function of the listener exactly when the
    authenticator accepts the user and the password. *)
Lemma decide_wsman b ch :
  headers_of b hs → header_vec ch "Authorization: " = auth_vec user pwd name hs1 →
  ∃ b', headers_of b' hs ∧
    decide_what_to_do cb (create_shttpd_context bd s true) root realm now (Conn "/wsman" b ch) =
    if cb user pwd =? 1 then Some (Embedded 1 (Conn "/wsman" b' ch))
    else reason ← _shttpd_send_authorization_request realm now (create_shttpd_context bd s true);
         Some (SendError 401 reason).
Proof using Huser Hset Hroot.
  intros Hb Hv. destruct (read_credentials user pwd name hs1 hs2 Huser b Hb) as (b' & text & H1 & H2 & H3 & H4 & H5).
  exists b'. split; [done|]. unfold decide_what_to_do. cbn [c_uri c_headers c_ch].
  change (strchr "/wsman" (chr 63)) with (@None string). cbv beta iota zeta.
  change (remove_all_leading_and_double_dots _) with "/wsman". change (String.length "/wsman") with 6%nat.
  rewrite (proj2 (Nat.leb_gt _ _) Hroot).
  destruct (wsman_basic bd s Hset) as (f & Hf). unfold _shttpd_check_authorization. rewrite Hf. cbn [a_type].
  rewrite Hv, H1, H2. cbn [mbind option_bind]. rewrite H3. cbn [mbind option_bind]. rewrite H4. cbn [mbind option_bind].
  rewrite wsman_registered by done. by destruct (cb user pwd =? 1).
Qed.
End Decide.

(** ** From the wire to the dispatcher *)

(** Headers that a client may send. *)
Definition wire_ok (h : string * string) : bool :=
  header_ok h && no_colon h.1 && line_ok (hline h) && name_ok "Content-Length" h && name_ok "Content-Type" h.

Lemma wire_ok_all hs :
  forallb wire_ok hs = true →
  forallb header_ok hs = true ∧ forallb (λ h, no_colon h.1) hs = true ∧ forallb (λ h, line_ok (hline h)) hs = true ∧
  forallb (name_ok "Content-Length") hs = true ∧ forallb (name_ok "Content-Type") hs = true.
Proof.
  intros H. assert (Hi : ∀ f : string * string → bool, (∀ h, wire_ok h = true → f h = true) → forallb f hs = true).
  { intros f Hf. rewrite forallb_forall in *. auto. }
  split_and!; apply Hi; intros h Hw; unfold wire_ok in Hw; rewrite !andb_true_iff in Hw; naive_solver.
Qed.

Lemma parsed_auth user pwd name hs1 hs2 :
  let hs := auth_headers user pwd name hs1 hs2 in
  forallb header_ok hs = true → forallb (λ h, no_colon h.1) hs = true →
  str_lower name = AUTH → forallb (λ h, negb (is_auth h)) hs2 = true →
  header_vec (_shttpd_parse_headers (intact hs)) "Authorization: " = auth_vec user pwd name hs1.
Proof.
  intros hs Hh Hc Hn H2. unfold _shttpd_parse_headers. rewrite parse_headers_auth by done.
  unfold hs, auth_headers. rewrite last_auth_app. cbn [last_auth Nat.add]. rewrite last_auth_none by done.
  unfold is_auth, auth_header. cbn [fst snd]. by rewrite Hn.
Qed.

(** C11: A request from the wire to the dispatcher and back.  The text of a POST
    request for "/wsman" with an Authorization header of the Basic scheme is
    parsed, whatever has arrived behind its headers.  When the authenticator
    does not accept the user and the password, it is answered with 401.  When
    it does, the listener collects the body over any number of calls, hands it
    once to the dispatcher with the encoding of the content type and the same
    user and password, and the output of the calls is the head of the response
    and the response, as far as there is room, and is reported complete exactly
    when there is room left. *)
Theorem request_served {W} (dispatch : W → list Z → string → option (string * string) → option (W * Z * list Z))
    check_identify cim_call load idfile anonfile package bd s cb root realm now user pwd name hs1 hs2 rest full
    pre ca post (w : W) cl enc w' status resp :
  let hs := auth_headers user pwd name hs1 hs2 in
  let body := pieces (pre ++ [ca]) in
  let head := head_text package status enc (Z.of_nat (length resp)) 0 in
  user_ok user pwd = true → served_settings s → (6 + root < URI_MAX)%nat →
  forallb wire_ok hs = true → str_lower name = AUTH → forallb (λ h, negb (is_auth h)) hs2 = true →
  hlookup "Content-Length" hs = Some cl →
  content_type_ok (hlookup "Content-Type" hs) = true → encoding_of (hlookup "Content-Type" hs) = Some enc →
  quiet (pre ++ ca :: post) → Z.of_nat (length (pieces pre)) < strtoul_value cl ∨ pre = [] →
  strtoul_value cl ≤ Z.of_nat (length body) →
  ptr_null idfile = true ∨ check_identify body enc = false →
  dispatch w body enc (Some (user, pwd)) = Some (w', status, resp) → (String.length head < out_len ca)%nat →
  ∃ c, parse_http_request (request_text hs rest) (request_text hs rest) full = (Parsed_ c, (Some 1, Some 1)) ∧
    (cb user pwd ≠ 1 → decide_what_to_do cb (create_shttpd_context bd s true) root realm now c =
      (reason ← _shttpd_send_authorization_request realm now (create_shttpd_context bd s true);
       Some (SendError 401 reason))) ∧
    (cb user pwd = 1 → ∃ c',
      decide_what_to_do cb (create_shttpd_context bd s true) root realm now c = Some (Embedded 1 c') ∧
      serve dispatch check_identify cim_call load idfile anonfile package c' None (pre ++ ca :: post) w =
        Some (take (rooms (ca :: post)) (codes head ++ resp),
              (String.length head + length resp <? rooms (ca :: post))%nat, w')).
Proof.
  intros hs body head Huser Hset Hroot Hwire Hname Hlast Hcl Hct Henc Hq Hpre Hbody Hid Hdisp Hroom.
  destruct (wire_ok_all hs Hwire) as (H1 & H2 & H3 & H4 & H5).
  eexists. split; [by apply parse_request|].
  assert (Hb : headers_of (intact hs) hs).
  { exists (replicate (length hs) TIntact), TIntact. by rewrite length_replicate. }
  assert (Hv : header_vec (_shttpd_parse_headers (intact hs)) "Authorization: " = auth_vec user pwd name hs1)
    by by apply parsed_auth.
  destruct (decide_wsman user pwd name hs1 hs2 bd s cb root realm now Huser Hset Hroot _ _ Hb Hv) as (b' & Hb' & Hdec).
  split; intros Hcb; rewrite Hdec.
  - by rewrite (proj2 (Z.eqb_neq _ _)).
  - rewrite Hcb. eexists. split; [done|].
    eapply (serve_exchange dispatch check_identify cim_call load idfile anonfile package hs); try done.
    cbn [c_ch]. rewrite Hv. intros b Hbb. by apply (get_credentials_of user pwd name hs1 hs2).
Qed.

(** C13: Without credentials the listener cannot be reached under the path of
    the service: whatever the request looks like, when it is handed to the
    listener for "/wsman", its header holds a user and a password that the
    authenticator accepted. *)
Theorem wsman_needs_credentials bd s cb root realm now c f c' :
  served_settings s →
  decide_what_to_do cb (create_shttpd_context bd s true) root realm now c = Some (Embedded f c') → c_uri c' = "/wsman" →
  let v := header_vec (c_ch c) "Authorization: " in
  ∃ user pwd text, scheme_is (c_headers c) v "Basic " 10 = true ∧
    str_drop (v_off v + 5) (c_headers c) = Some text ∧ basic_credentials text = Some (Some (user, pwd)) ∧
    cb user pwd = 1.
Proof.
  intros Hset Hdec Huri v. unfold decide_what_to_do in Hdec. fold v in Hdec.
  set (uri := remove_all_leading_and_double_dots _) in Hdec.
  destruct (_ <=? _)%nat; [done|].
  destruct (_shttpd_check_authorization _ _ _ _ _) as [[r b]|] eqn:Ha; [|done]. cbn [mbind option_bind] in Hdec.
  destruct (r =? 1) eqn:Er; [|by destruct (_shttpd_send_authorization_request _ _ _)]. apply Z.eqb_eq in Er. subst r. cbn [negb] in Hdec.
  destruct (_shttpd_is_registered_uri _ _) as [[g|]|]; try done. cbn [mbind option_bind] in Hdec.
  simplify_eq. cbn [c_uri] in Huri. rewrite Huri in Ha. unfold _shttpd_check_authorization in Ha.
  destruct (wsman_basic bd s Hset) as (file & Hf). rewrite Hf in Ha. cbn [a_type] in Ha.
  destruct (scheme_is _ _ _ _); [|done]. destruct (str_drop _ _) as [text|]; [|done]. cbn [mbind option_bind] in Ha.
  destruct (basic_credentials text) as [[[user pwd]|]|] eqn:Hc; try done; cbn [mbind option_bind] in Ha;
    destruct (token_cut _ _); try done; cbn [mbind option_bind] in Ha; simplify_eq.
  by exists user, pwd, text.
Qed.

(** A URI that nothing is decoded or removed from. *)
Definition plain_uri (s : string) : bool := str_all (none_of [0; 37; 63]) s.

Lemma plain_uri_cons a s :
  plain_uri (String a s) = true →
  (code a =? 0) = false ∧ (code a =? 37) = false ∧ (code a =? 63) = false ∧ plain_uri s = true.
Proof.
  unfold plain_uri. cbn [str_all]. rewrite !none_of_cons, !andb_true_iff, !negb_true_iff. naive_solver.
Qed.

Lemma plain_uri_decoded s :
  plain_uri s = true →
  strchr s (chr 63) = None ∧ ∀ room, (String.length s ≤ room)%nat → c_str (url_decode_loop room s) = s.
Proof.
  induction s as [|a s IH]; [intros _; split; [done|by intros [|room]]|].
  intros (H0 & H37 & H63 & [IH1 IH2]%IH)%plain_uri_cons. split.
  - cbn [strchr]. change (code (chr 63)) with 63. by rewrite H63.
  - intros [|room] Hr; [simpl in Hr; lia|]. cbn [url_decode_loop]. rewrite H37. cbn [c_str]. rewrite H0, IH2; [done|].
    simpl in Hr. lia.
Qed.

Lemma match_star_end text : match_star (match_regexp "") text = Some true.
Proof. induction text as [|a t IH]; [done|]. cbn [match_star match_regexp]. cbn. exact IH. Qed.

(** C14: The protection of the indication listener does not reach the requests
    that are sent to it: when the built-in listener for indications is there, a
    request for any clean URI below its path is handed to the listener,
    whatever the authenticator says and without any credentials. *)
Theorem indications_unprotected bd s cb root realm now b ch dest :
  ENABLE_EVENTING_SUPPORT bd = true → served_settings s →
  plain_uri dest = true → clean true dest = true →
  let uri := "/cimindicationlistener/" +:+ dest in
  (String.length uri + root < URI_MAX)%nat →
  decide_what_to_do cb (create_shttpd_context bd s true) root realm now (Conn uri b ch) = Some (Embedded 1 (Conn uri b ch)).
Proof.
  intros Hev Hset Hplain Hclean uri Hlen. unfold decide_what_to_do. cbn [c_uri c_headers c_ch].
  destruct (plain_uri_decoded uri) as [Hq Hd]; [exact Hplain|]. rewrite Hq. unfold _shttpd_url_decode. cbn [fst].
  rewrite Hd by lia. replace (remove_all_leading_and_double_dots uri) with uri.
  2: { symmetry. change (dots_loop false uri = uri). by apply dots_loop_id. }
  rewrite (proj2 (Nat.leb_gt _ _) Hlen). unfold _shttpd_check_authorization, create_shttpd_context, protect_uri.
  rewrite Hset, Hev. cbn [default id ptr_opt].
  assert (Hauth : ∀ a, a_uri a = "/wsman" ∨ a_uri a = DEFAULT_CIMINDICATION_PATH → str_prefix uri (a_uri a) = false)
    by (intros a [-> | ->]; reflexivity).
  assert (Hm : find_registered
      [("/wsman", 1); (ANON_IDENTIFY_PATH, 1); (DEFAULT_CIMINDICATION_PATH +:+ "/*", 1)] uri = Some (Some 1)).
  { cbn [find_registered]. change (match_regexp (DEFAULT_CIMINDICATION_PATH +:+ "/*") uri)
      with (match_star (match_regexp "") dest). by rewrite match_star_end. }
  destruct (negb (ptr_null (digest_password_file s))); cbn [shttpd_protect_uri shttpd_register_uri uri_auths find_auth];
    rewrite !Hauth by auto; cbn [mbind option_bind Z.eqb Pos.eqb negb]; unfold _shttpd_is_registered_uri;
    change (registered_uris _) with [("/wsman", 1); (ANON_IDENTIFY_PATH, 1); (DEFAULT_CIMINDICATION_PATH +:+ "/*", 1)]; by rewrite Hm.
Qed.

(** ** Instances *)

Definition echo (w : nat) (body : list Z) (enc : string) (creds : option (string * string))
  : option (nat * Z * list Z) :=
  Some (S w, WSMAN_STATUS_OK, body).

Definition admin_only (user pwd : string) : Z := if str_eqb user "admin" && str_eqb pwd "secret" then 1 else 0.

Definition wire_headers : list (string * string) :=
  [("Content-Type", "application/soap+xml;charset=UTF-8"); ("Content-Length", "5")].

Definition reply_head : string := head_text "Openwsman" WSMAN_STATUS_OK "UTF-8" 5 0.

Lemma request_served_witness :
  let text := request_text (auth_headers "admin" "secret" "Authorization" wire_headers []) "<a" in
  ∃ c c', parse_http_request text text false
      = (Parsed_ c, (Some 1, Some 1)) ∧
    decide_what_to_do admin_only (create_shttpd_context sample_build (initial_settings sample_build) true) 1 "Openwsman" 0 c
      = Some (Embedded 1 c') ∧
    serve echo (λ _ _, false) (λ w _ _ _, Some (w, 0, None, [])) (λ _, None) NULLp NULLp "Openwsman" c' None
      [Call (codes "<a") 4096 false; Call (codes "/>.") 4096 false] 0%nat =
      Some (codes (reply_head +:+ "<a/>."), true, 1%nat).
Proof.
  intros text. destruct (request_served echo (λ _ _, false) (λ w _ _ _, Some (w, 0, None, [])) (λ _, None) NULLp NULLp "Openwsman"
    sample_build (initial_settings sample_build) admin_only 1 "Openwsman" 0 "admin" "secret" "Authorization" wire_headers [] "<a" false
    [Call (codes "<a") 4096 false] (Call (codes "/>.") 4096 false) [] 0%nat "5" "UTF-8" 1%nat WSMAN_STATUS_OK
    (codes "<a/>."))
    as (c & Hp & _ & Hs);
    [vm_compute; reflexivity|reflexivity|apply Nat.ltb_lt; vm_compute; reflexivity|vm_compute; reflexivity
    |vm_compute; reflexivity|reflexivity|vm_compute; reflexivity|vm_compute; reflexivity|vm_compute; reflexivity
    |repeat constructor|left; vm_compute; reflexivity|vm_compute; discriminate|left; reflexivity|reflexivity
    |apply Nat.ltb_lt; vm_compute; reflexivity|].
  destruct (Hs eq_refl) as (c' & Hd & Hr). exists c, c'. split; [exact Hp|]. split; [exact Hd|].
  etransitivity; [exact Hr|]. vm_compute; reflexivity.
Defined.

Lemma wsman_needs_credentials_witness :
  let hs := auth_headers "admin" "secret" "Authorization" wire_headers [] in
  let c := Conn "//.wsman" (intact hs) (_shttpd_parse_headers (intact hs)) in
  ∃ user pwd text, basic_credentials text = Some (Some (user, pwd)) ∧ admin_only user pwd = 1.
Proof.
  intros hs c.
  destruct (wsman_needs_credentials sample_build (initial_settings sample_build) admin_only 1 "Openwsman" 0 c 1
    (match decide_what_to_do admin_only (create_shttpd_context sample_build (initial_settings sample_build) true) 1 "Openwsman" 0 c
     with Some (Embedded _ c') => c' | _ => c end)) as (user & pwd & text & _ & _ & H1 & H2);
    [reflexivity|vm_compute; reflexivity|vm_compute; reflexivity|].
  exists user, pwd, text. exact (conj H1 H2).
Defined.

Lemma indications_unprotected_witness :
  decide_what_to_do (λ _ _, 0) (create_shttpd_context sample_build (initial_settings sample_build) true) 1 "Openwsman" 0
    (Conn "/cimindicationlistener/7" eol (Headers 0 [])) =
  Some (Embedded 1 (Conn "/cimindicationlistener/7" eol (Headers 0 []))).
Proof.
  exact (indications_unprotected sample_build (initial_settings sample_build) (λ _ _, 0) 1 "Openwsman" 0 eol (Headers 0 []) "7"
    eq_refl eq_refl eq_refl eq_refl ltac:(apply Nat.ltb_lt; vm_compute; reflexivity)).
Defined.
