(* ===== verification/DigestProofs.v ===== *)
(** * What digest authentication accepts

    The passwords that [_shttpd_edit_passwords] stores and the responses that
    [authorize_digest] accepts, in terms of the hash of RFC 1321. *)

From S2P Require Import Prelude CString Uri Base64 Ini Md5 ShttpdMd5 Http Listener HttpProofs Digest.
From Stdlib Require Import Ascii.
Local Open Scope string_scope.
Local Open Scope list_scope.
Local Open Scope Z_scope.
Local Open Scope ow_scope.

(** ** Hashes *)

(** The hash of a text, in hexadecimal. *)
Definition H_ (s : string) : string := bin2str (rfc_md5 (codes s)).

(** The text that [md5] hashes: the vectors with colons before all but the first
    of them that are not empty. *)
Fixpoint joined (i : nat) (vs : list string) : string :=
  match vs with
  | [] => EmptyString
  | v :: vs =>
      if (String.length v =? 0)%nat then joined (S i) vs
      else (if (0 <? i)%nat then ":" else "") +:+ v +:+ joined (S i) vs
  end.

Definition short (s : string) : Prop := Z.of_nat (String.length s) < 2 ^ 31.

Lemma codes_bytes (s : string) : Forall byte (codes s).
Proof. induction s; simpl; constructor; [apply code_range|done]. Qed.

Lemma md5_updates_joined (vs : list string) : ∀ i, mjoin (md5_updates i vs) = codes (joined i vs).
Proof.
  induction vs as [|v vs IH]; intros i; [done|]. cbn [md5_updates joined].
  destruct (String.length v =? 0)%nat; [apply IH|].
  destruct (0 <? i)%nat; cbn [app mjoin list_join]; by rewrite IH, !codes_app.
Qed.

Lemma md5_updates_short (vs : list string) :
  Forall short vs → ∀ i, Forall (λ c, Forall byte c ∧ Z.of_nat (length c) < 2 ^ 32) (md5_updates i vs).
Proof.
  induction 1 as [|v vs Hv _ IH]; intros i; cbn [md5_updates]; [constructor|].
  destruct (String.length v =? 0)%nat; [apply IH|].
  apply Forall_app. split; [destruct (0 <? i)%nat; repeat constructor; vm_compute; done|].
  constructor; [|apply IH]. split; [apply codes_bytes|]. rewrite codes_length. unfold short in Hv. lia.
Qed.

Lemma md5_hash (le : bool) (mem : list Z) (vs : list string) :
  length mem = 64%nat → Forall short vs → md5 le mem vs = Some (H_ (joined 0 vs)).
Proof.
  intros Hm Hs. unfold md5. rewrite shttpd_digest_rfc by (done || by apply md5_updates_short).
  cbn [fmap option_fmap option_map]. unfold H_. by rewrite md5_updates_joined.
Qed.

Lemma H_length (s : string) : String.length (H_ s) = 32%nat.
Proof.
  unfold H_, rfc_md5. destruct (rfc_blocks _ _ _) as [[[a b] c] d]. reflexivity.
Qed.

(** The response RFC 2617 defines for a request with quality of protection. *)
Definition expected_response (method ha1 : string) (d : digest) : string :=
  H_ (joined 0 [ha1; d_nonce d; d_nc d; d_cnonce d; d_qop d; H_ (joined 0 [method; d_uri d])]).

Definition short_digest (d : digest) : Prop :=
  short (d_nonce d) ∧ short (d_nc d) ∧ short (d_cnonce d) ∧ short (d_qop d) ∧ short (d_uri d).

Lemma check_password_spec (le : bool) (mem : list Z) (method ha1 : string) (d : digest) :
  length mem = 64%nat → short method → short ha1 → short_digest d →
  check_password le mem method ha1 d = Some (if str_eqb (expected_response method ha1 d) (d_resp d) then 1 else 0).
Proof.
  intros Hm Hme Hh (H1 & H2 & H3 & H4 & H5). unfold check_password.
  destruct (Nat.eqb_spec (String.length (d_resp d)) 32) as [E|E]; cbn [negb].
  - rewrite md5_hash by (done || by repeat constructor). cbn [mbind option_bind].
    rewrite md5_hash; [done|done|]. repeat constructor; try done. unfold short. by rewrite H_length.
  - destruct (str_eqb_spec (expected_response method ha1 d) (d_resp d)) as [E'|]; [|done].
    destruct E. rewrite <- E'. apply H_length.
Qed.

(** ** Files of lines *)

Fixpoint contents (ls : list string) : string :=
  match ls with [] => EmptyString | l :: ls => l +:+ contents ls end.

Definition no_char (c : Z) (s : string) : bool := str_all (λ a, negb (is_char c a)) s.

(** A line of at most [max] characters with its newline. *)
Definition line_ok (max : nat) (l : string) : Prop :=
  ∃ b, l = b +:+ newline ∧ no_char 10 b = true ∧ (String.length b < max)%nat.

Lemma fgets_password_line (max : nat) (b s : string) :
  no_char 10 b = true → ∀ room, (String.length b < room)%nat →
  fgets_lines max room (b +:+ newline +:+ s) = (b +:+ newline) :: fgets_lines max max s.
Proof.
  induction b as [|a b IH]; intros Hb room Hr.
  - done.
  - cbn [no_char str_all] in Hb. apply andb_true_iff in Hb as [Ha Hb]. apply negb_true_iff in Ha.
    rewrite !str_app_cons. cbn [fgets_lines String.length] in *. rewrite Ha.
    destruct (Nat.leb_spec room 1); [lia|]. cbn [orb]. by rewrite IH by (done || lia).
Qed.

Lemma fgets_contents (max : nat) (ls : list string) :
  Forall (line_ok max) ls → fgets_lines max max (contents ls) = ls.
Proof.
  induction 1 as [|l ls (b & -> & Hb & Hl) _ IH]; [done|]. cbn [contents].
  by rewrite str_app_assoc, fgets_password_line, IH.
Qed.

Lemma contents_app (ls ls' : list string) : contents (ls ++ ls') = contents ls +:+ contents ls'.
Proof. induction ls as [|l ls IH]; [done|]. cbn [app contents]. by rewrite IH, str_app_assoc. Qed.

Lemma line_ok_mono (n m : nat) (l : string) : (n ≤ m)%nat → line_ok n l → line_ok m l.
Proof. intros Hnm (b & -> & Hb & Hl). exists b. split; [done|]. split; [done|lia]. Qed.

(** ** The password of a user *)

Lemma split_colon_first (u s : string) : no_char 58 u = true → split_colon (u +:+ ":" +:+ s) = Some (u, s).
Proof.
  intros Hu. apply split_colon_app. eapply str_all_impl; [|exact Hu].
  intros a Ha. by rewrite none_of_cons, andb_true_r.
Qed.

Definition hex_text (s : string) : bool := str_all (λ a, negb (isspace a)) s.

Lemma hex_of_spec (v : Z) : isspace (hex_of v) = false ∧ is_char 10 (hex_of v) = false.
Proof.
  unfold hex_of. destruct (Z.to_nat v) as [|[|[|[|[|[|[|[|[|[|[|[|[|[|[|[|n]]]]]]]]]]]]]]]]; by vm_compute.
Qed.

Lemma bin2str_hex (p : list Z) : hex_text (bin2str p) = true ∧ no_char 10 (bin2str p) = true.
Proof.
  induction p as [|b p [IH1 IH2]]; [done|]. unfold hex_text, no_char in *. cbn [bin2str str_all].
  destruct (hex_of_spec (Z.shiftr b 4)) as [-> ->]. destruct (hex_of_spec (Z.land b 0x0f)) as [-> ->].
  by rewrite IH1, IH2.
Qed.

Lemma take_word_hex (h s : string) : hex_text h = true → take_word (h +:+ newline +:+ s) = h.
Proof.
  induction h as [|a h IH]; intros Hh; [done|]. unfold hex_text in *. cbn [str_all] in Hh.
  apply andb_true_iff in Hh as [Ha Hh]. apply negb_true_iff in Ha.
  rewrite str_app_cons. cbn [take_word]. by rewrite Ha, IH.
Qed.

Definition name_ok (s : string) : Prop :=
  s ≠ "" ∧ no_char 58 s = true ∧ no_char 10 s = true.

Section password.
Context (le : bool) (mem : list Z) (user realm pass : string).
Context (Hmem : length mem = 64%nat) (Hu : name_ok user) (Hr : name_ok realm) (Hp : short pass).
Context (Hlen : (String.length user + String.length realm < 220)%nat).

Definition ha1 : string := H_ (joined 0 [user; realm; pass]).
Definition the_line : string := password_line user realm ha1.

Lemma the_line_ok : line_ok 255 the_line.
Proof.
  destruct Hu as (_ & _ & Hu10), Hr as (_ & _ & Hr10).
  exists (user +:+ ":" +:+ realm +:+ ":" +:+ ha1). split; [unfold the_line, password_line; by rewrite !str_app_assoc|].
  split.
  - unfold no_char in *. rewrite !str_all_app, Hu10, Hr10. cbn [andb]. apply (proj2 (bin2str_hex _)).
  - rewrite !str_length_app. unfold ha1. rewrite H_length. cbn [String.length]. lia.
Qed.

Lemma name_length (s : string) : name_ok s → (0 <? String.length s)%nat = true.
Proof. intros (Hs & _). apply Nat.ltb_lt. destruct s; [done|]. cbn [String.length]. lia. Qed.

Lemma the_line_parse : parse_htpasswd_line the_line = Some (user, realm, ha1).
Proof.
  unfold the_line, password_line, parse_htpasswd_line.
  rewrite split_colon_first by apply Hu. cbn [mbind option_bind].
  rewrite split_colon_first by apply Hr. cbn [mbind option_bind].
  rewrite <- (str_app_nil newline), take_word_hex by apply (proj1 (bin2str_hex _)).
  rewrite !name_length by done. unfold ha1 at 1. rewrite H_length. done.
Qed.

Lemma line_key_parse (l u d h : string) :
  parse_htpasswd_line l = Some (u, d, h) → line_key l = Some (u, d).
Proof.
  unfold parse_htpasswd_line, line_key. destruct (split_colon l) as [[u' s]|]; [|done].
  cbn [mbind option_bind]. destruct (split_colon s) as [[d' s']|]; [|done]. cbn [mbind option_bind].
  case_match; naive_solver.
Qed.

(** No line of the user has a domain that the realm merely starts with. *)
Definition unshadowed (l : string) : Prop :=
  ∀ d h, parse_htpasswd_line l = Some (user, d, h) → str_prefix d realm = true → d = realm.

Lemma user_password : md5 le mem [user; realm; pass] = Some ha1.
Proof. apply md5_hash; [done|]. repeat constructor; [unfold short; lia..|done]. Qed.

Lemma find_the_line (method : string) (d : digest) (ls : list string) :
  d_user d = user → find_password le mem realm method d (the_line :: ls) = check_password le mem method ha1 d.
Proof.
  intros Hd. cbn [find_password]. rewrite the_line_parse, Hd, str_eqb_refl.
  pose proof (str_prefix_app realm "") as Hpre. rewrite str_app_nil in Hpre. by rewrite Hpre.
Qed.

Lemma find_other_line (method : string) (d : digest) (l : string) (ls : list string) :
  d_user d = user → unshadowed l → line_key l ≠ Some (user, realm) →
  find_password le mem realm method d (l :: ls) = find_password le mem realm method d ls.
Proof.
  intros Hd Hl Hk. cbn [find_password]. destruct (parse_htpasswd_line l) as [[[u dom] h]|] eqn:E; [|done].
  destruct (str_eqb_spec (d_user d) u) as [<-|]; [|done].
  destruct (str_prefix dom realm) eqn:Hpre; [|done]. rewrite Hd in E.
  destruct Hk. by rewrite (line_key_parse _ _ _ _ E), (Hl _ _ E Hpre).
Qed.

(** The copy keeps every other line and holds the new password where the user had
    one. *)
Lemma copy_lines_spec (ls : list string) :
  Forall (line_ok 255) ls → Forall unshadowed ls →
  ∃ ls' n, copy_lines le mem realm user pass ls = Some (contents ls', n) ∧ Forall (line_ok 255) ls' ∧
  ∀ method d rest, d_user d = user →
    find_password le mem realm method d (ls' ++ rest) =
    if (n =? 0)%nat then find_password le mem realm method d rest else check_password le mem method ha1 d.
Proof.
  induction ls as [|l ls IH]; intros Hok Hun; [by exists [], O|].
  apply Forall_cons in Hok as [Hl Hok]. apply Forall_cons in Hun as [Hul Hun].
  destruct (IH Hok Hun) as (ls' & n & Hc & Hok' & Hfind). cbn [copy_lines].
  destruct (line_key l) as [[u dom]|] eqn:Hk; [|by exists ls', n].
  destruct (str_eqb user u && str_eqb realm dom) eqn:E.
  - apply andb_true_iff in E as [<-%str_eqb_eq <-%str_eqb_eq].
    exists (the_line :: ls'), (S n). rewrite user_password, Hc. split; [done|].
    split; [constructor; [apply the_line_ok|done]|]. intros method d rest Hd. by apply find_the_line.
  - exists (l :: ls'), n. rewrite Hc. split; [done|]. split; [by constructor|]. intros method d rest Hd.
    cbn [app]. rewrite find_other_line, Hfind; [done..|]. rewrite Hk. intros [= -> ->].
    by rewrite !str_eqb_refl in E.
Qed.

Lemma edit_authorizes (ls : list string) :
  Forall (line_ok 255) ls → Forall unshadowed ls →
  ∃ f, _shttpd_edit_passwords le mem (contents ls) realm user pass = Some f ∧
  ∀ method d, d_user d = user →
    find_password le mem realm method d (fgets_lines 255 255 f) = check_password le mem method ha1 d.
Proof.
  intros Hok Hun. destruct (copy_lines_spec ls Hok Hun) as (ls' & n & Hc & Hok' & Hfind).
  unfold _shttpd_edit_passwords. rewrite fgets_contents, Hc
    by (eapply Forall_impl; [exact Hok|]; intros l; apply line_ok_mono; lia).
  cbn [mbind option_bind]. destruct (Nat.eqb_spec n 0) as [->|Hn].
  - rewrite user_password. cbn [mbind option_bind]. eexists. split; [done|]. intros method d Hd.
    assert (E : contents ls' +:+ password_line user realm ha1 = contents (ls' ++ [the_line]))
      by (rewrite contents_app; cbn [contents]; by rewrite str_app_nil).
    assert (Hok2 : Forall (line_ok 255) (ls' ++ [the_line]))
      by (apply Forall_app; split; [done|]; repeat constructor; apply the_line_ok).
    rewrite E, fgets_contents, Hfind by done.
    by apply find_the_line.
  - eexists. split; [done|]. intros method d Hd. rewrite fgets_contents by done.
    pose proof (Hfind method d [] Hd) as HF. rewrite app_nil_r in HF. by destruct n.
Qed.

End password.

(** ** The header of a client *)

Definition dquote : string := String (chr 34) EmptyString.

Definition quoted (key v : string) : string := key +:+ "=" +:+ dquote +:+ v +:+ dquote.

(** The order of RFC 2617: qop and nc are not quoted. *)
Definition client_header (realm : string) (d : digest) : string :=
  "Digest " +:+ quoted "username" (d_user d) +:+ ", " +:+ quoted "realm" realm +:+ ", " +:+
  quoted "nonce" (d_nonce d) +:+ ", " +:+ quoted "uri" (d_uri d) +:+ ", qop=" +:+ d_qop d +:+ ", nc=" +:+ d_nc d +:+
  ", " +:+ quoted "cnonce" (d_cnonce d) +:+ ", " +:+ quoted "response" (d_resp d).

Lemma scan_to_stop (stop : ascii → bool) (x : string) (a : ascii) (y : string) (m : nat) :
  str_all (λ b, negb (stop b)) x = true → stop a = true →
  scan_to stop (x +:+ String a y) (String.length x + S m) = (x, String a y, S m).
Proof.
  intros Hx Ha. induction x as [|b x IH]; cbn [String.length Nat.add].
  - rewrite str_nil_app. cbn [scan_to]. by rewrite Ha.
  - cbn [str_all] in Hx. apply andb_true_iff in Hx as [Hb Hx]. apply negb_true_iff in Hb.
    rewrite str_app_cons. cbn [scan_to]. by rewrite Hb, IH.
Qed.

Lemma str_one (a : ascii) (x : string) : String a EmptyString +:+ x = String a x.
Proof. done. Qed.

(** The text of a keyword, as the scan for its [=] finds it. *)
Definition keyword (key : string) : Prop :=
  no_char 61 key = true ∧ match key with String a _ => blank_or_comma a = false | EmptyString => False end.

Lemma skip_lead (lead key y : string) (m : nat) :
  str_all blank_or_comma lead = true → keyword key →
  scan_to (λ a, negb (blank_or_comma a)) (lead +:+ key +:+ y) (String.length lead + (String.length key + m)) =
  (lead, key +:+ y, (String.length key + m)%nat).
Proof.
  intros Hl [_ Hk]. destruct key as [|a key]; [done|]. rewrite str_app_cons. cbn [String.length Nat.add].
  apply scan_to_stop; [|by rewrite Hk].
  eapply str_all_impl; [|exact Hl]. intros b Hb. by rewrite Hb.
Qed.

Lemma parse_quoted (lead key v rest : string) (r : nat) :
  str_all blank_or_comma lead = true → keyword key → no_char 34 v = true →
  parse_field (lead +:+ quoted key v +:+ rest)
    (String.length lead + (String.length key + S (S (String.length v + S r)))) =
  Some (find_keyword (quoted key v +:+ rest) (S (String.length key)), v, rest, r).
Proof.
  intros Hl Hk Hv. unfold parse_field, quoted, dquote.
  rewrite !str_app_assoc, !str_one, skip_lead by done.
  rewrite (scan_to_stop (is_char 61) key) by (done || apply Hk). cbn [next_char mbind option_bind pred].
  change (at_char 34 (String (chr 34) (v +:+ String (chr 34) rest))) with true.
  cbv iota. cbn [next_char mbind option_bind pred]. rewrite scan_to_stop by done.
  change (at_char 34 (String (chr 34) rest)) with true. done.
Qed.

Lemma parse_token (lead key v rest : string) (r : nat) :
  str_all blank_or_comma lead = true → keyword key →
  str_all (λ a, negb (blank_or_comma a)) v = true → at_char 34 v = false → v ≠ "" →
  parse_field (lead +:+ key +:+ "=" +:+ v +:+ "," +:+ rest)
    (String.length lead + (String.length key + S (String.length v + S r))) =
  Some (find_keyword (key +:+ "=" +:+ v +:+ "," +:+ rest) (S (String.length key)), v, "," +:+ rest, S r).
Proof.
  intros Hl Hk Hv Hq He. unfold parse_field. rewrite !str_one, skip_lead by done.
  rewrite (scan_to_stop (is_char 61) key) by (done || apply Hk). cbn [next_char mbind option_bind pred].
  replace (at_char 34 (v +:+ String "," rest)) with false by (by destruct v).
  rewrite scan_to_stop by done. done.
Qed.

Definition set_known (kw : option field) (v : string) (dig : digest) : digest :=
  match kw with Some f => set_field f v dig | None => dig end.

Lemma fields_quoted (fuel : nat) (lead key v tail rest : string) (kw : option field) (dig : digest) :
  str_all blank_or_comma lead = true → keyword key → no_char 34 v = true →
  (∀ x, find_keyword (key +:+ "=" +:+ x) (S (String.length key)) = kw) →
  parse_fields (S fuel) ((lead +:+ quoted key v +:+ tail) +:+ rest)
    (String.length (lead +:+ quoted key v +:+ tail)) dig =
  parse_fields fuel (tail +:+ rest) (String.length tail) (set_known kw v dig).
Proof.
  intros Hl Hk Hv Hkw. pose proof (parse_quoted lead key v (tail +:+ rest) (String.length tail) Hl Hk Hv) as Hp.
  replace (String.length (lead +:+ quoted key v +:+ tail))
    with (String.length lead + (String.length key + S (S (String.length v + S (String.length tail)))))%nat
    by (unfold quoted, dquote; rewrite !str_length_app; cbn [String.length]; lia).
  rewrite !str_app_assoc. destruct (_ + _)%nat as [|n] eqn:En; [lia|]. cbn [parse_fields]. rewrite Hp.
  cbn [mbind option_bind]. unfold quoted at 1. by rewrite !str_app_assoc, Hkw.
Qed.

Definition token (v : string) : Prop :=
  str_all (λ a, negb (blank_or_comma a)) v = true ∧ at_char 34 v = false ∧ v ≠ "".

Lemma fields_token (fuel : nat) (lead key v tail rest : string) (kw : option field) (dig : digest) :
  str_all blank_or_comma lead = true → keyword key → token v →
  (∀ x, find_keyword (key +:+ "=" +:+ x) (S (String.length key)) = kw) →
  parse_fields (S fuel) ((lead +:+ key +:+ "=" +:+ v +:+ "," +:+ tail) +:+ rest)
    (String.length (lead +:+ key +:+ "=" +:+ v +:+ "," +:+ tail)) dig =
  parse_fields fuel (("," +:+ tail) +:+ rest) (String.length ("," +:+ tail)) (set_known kw v dig).
Proof.
  intros Hl Hk (Hv & Hq & He) Hkw.
  pose proof (parse_token lead key v (tail +:+ rest) (String.length tail) Hl Hk Hv Hq He) as Hp.
  replace (String.length (lead +:+ key +:+ "=" +:+ v +:+ "," +:+ tail))
    with (String.length lead + (String.length key + S (String.length v + S (String.length tail))))%nat
    by (rewrite !str_length_app; cbn [String.length]; lia).
  rewrite !str_app_assoc. destruct (_ + _)%nat as [|n] eqn:En; [lia|]. cbn [parse_fields]. rewrite Hp.
  cbn [mbind option_bind]. by rewrite Hkw, str_length_app.
Qed.

Lemma comma_space (x : string) : "," +:+ " " +:+ x = ", " +:+ x.
Proof. done. Qed.

Record fields_ok (realm : string) (d : digest) : Prop := FieldsOk {
  f_user : no_char 34 (d_user d) = true; f_realm : no_char 34 realm = true;
  f_nonce : no_char 34 (d_nonce d) = true; f_uri : no_char 34 (d_uri d) = true;
  f_qop : token (d_qop d); f_nc : token (d_nc d);
  f_cnonce : no_char 34 (d_cnonce d) = true; f_resp : no_char 34 (d_resp d) = true;
}.

(** The header of a client is read back field by field, whatever follows it in
    memory. *)
Lemma header_parsed (realm : string) (d : digest) (rest : string) :
  fields_ok realm d →
  parse_authorization_header (client_header realm d +:+ rest) (String.length (client_header realm d)) = Some d.
Proof.
  intros [Hu Hr Hn Hi Hq Hc Hcn Hre]. unfold parse_authorization_header.
  set (fs := "" +:+ quoted "username" (d_user d) +:+ ", " +:+ quoted "realm" realm +:+ ", " +:+
    quoted "nonce" (d_nonce d) +:+ ", " +:+ quoted "uri" (d_uri d) +:+ ", " +:+ "qop" +:+ "=" +:+ d_qop d +:+
    "," +:+ " " +:+ "nc" +:+ "=" +:+ d_nc d +:+ "," +:+ " " +:+ quoted "cnonce" (d_cnonce d) +:+
    ", " +:+ quoted "response" (d_resp d) +:+ "").
  assert (E : client_header realm d = "Digest " +:+ fs) by (unfold client_header, fs; by rewrite str_app_nil).
  assert (Hlen : ∃ k, String.length (client_header realm d) = (8 + k)%nat).
  { rewrite E. exists (String.length fs - 1)%nat. rewrite str_length_app. subst fs. unfold quoted.
    rewrite !str_length_app. cbn [String.length]. lia. }
  destruct Hlen as [k Hk]. rewrite Hk.
  replace (8 + k <=? 7)%nat with false by (symmetry; apply Nat.leb_gt; lia).
  replace (8 + k - 7)%nat with (String.length fs)
    by (rewrite E, str_length_app in Hk; cbn [String.length] in Hk; lia).
  rewrite E. change (str_drop 7 (("Digest " +:+ fs) +:+ rest)) with (Some (fs +:+ rest)).
  cbn [mbind option_bind Nat.add]. subst fs. clear E Hk.
  rewrite (fields_quoted _ _ _ _ _ _ (Some FUser)) by done.
  rewrite (fields_quoted _ _ _ _ _ _ None) by done.
  rewrite (fields_quoted _ _ _ _ _ _ (Some FNonce)) by done.
  rewrite (fields_quoted _ _ _ _ _ _ (Some FUri)) by done.
  rewrite (fields_token _ _ _ _ _ _ (Some FQop)), comma_space by done.
  rewrite (fields_token _ _ _ _ _ _ (Some FNc)), comma_space by done.
  rewrite (fields_quoted _ _ _ _ _ _ (Some FCnonce)) by done.
  rewrite (fields_quoted _ _ _ _ _ _ (Some FResp)) by done.
  destruct d. by destruct k.
Qed.


