(* ===== verification/FileAuth.v ===== *)
(** * The authenticator with a file of passwords ([authenticators/file/file_auth.c])

    The default authenticator of the daemon: the user is looked up in a file
    whose lines hold a name and a hash, and the password is hashed with
    [crypt], which is a parameter.  A file is its contents; [None] is an access
    through NULL or past the end of a string. *)

From S2P Require Import Prelude CString Uri Base64 Ini Http Digest DigestProofs Options Daemon Listener HttpProofs.
From Stdlib Require Import Ascii.
#[local] Open Scope string_scope.
#[local] Open Scope list_scope.
#[local] Open Scope Z_scope.
#[local] Open Scope ow_scope.

(** ** The program *)

(** The differences of all characters are collected, so that the time does not
    depend on them. *)
Fixpoint safe_cmp_loop (len : nat) (s1 s2 : string) (result : Z) : option Z :=
  match len with
  | O => Some result
  | S n =>
      match s1, s2 with
      | String a s1, String b s2 => safe_cmp_loop n s1 s2 (Z.lor result (Z.lxor (code a) (code b)))
      | _, _ => None
      end
  end.

Definition safe_cmp (s1 s2 : string) (len : nat) : option Z := safe_cmp_loop len s1 s2 0.

(** [%128s]: at most so many characters that are no blanks. *)
Fixpoint word_upto (n : nat) (s : string) : string :=
  match n, s with
  | S n, String a s => if isspace a then EmptyString else String a (word_upto n s)
  | _, _ => EmptyString
  end.

(** ["%64[^:]:%128s"] when both are assigned. *)
Definition parse_line (l : string) : option (string * string) :=
  match scanset_loop 64 [58] l with
  | (EmptyString, _) => None
  | (u, s) =>
      s ← scan_lit 58 s;
      match word_upto 128 (skip_space s) with
      | EmptyString => None
      | passwd => Some (u, passwd)
      end
  end.

(** Only the shorter of the two lengths is compared. *)
Definition same_start (s1 s2 : string) : option bool :=
  r ← safe_cmp s1 s2 (Nat.min (String.length s1) (String.length s2)); Some (r =? 0).

Section FileAuth.
Context (crypt : string → string → option string).

(** The first line for the user decides. *)
Fixpoint authorize_loop (username password : string) (lines : list string) : option Z :=
  match lines with
  | [] => Some 0
  | l :: lines =>
      match parse_line l with
      | None => authorize_loop username password lines
      | Some (u, passwd) =>
          same ← same_start username u;
          if same : bool then
            newpw ← crypt password passwd;
            ok ← same_start newpw passwd;
            Some (if ok : bool then 1 else 0)
          else authorize_loop username password lines
      end
  end.

(** [filename] is the file that [initialize] was given, if it can be opened. *)
Definition authorize (filename : option string) (username password : option string) : option Z :=
  match username, password with
  | Some u, Some p =>
      match filename with
      | None => Some 0
      | Some fp => authorize_loop u p (fgets_lines 255 255 fp)
      end
  | _, _ => Some 0
  end.
End FileAuth.

(** The result: 1 is a failure. *)
Definition initialize (arg : option string) (fopen : string → option string) : Z :=
  match arg with
  | None => 1
  | Some f => match fopen f with None => 1 | Some _ => 0 end
  end.

(** ** Comparing *)

(** One of the strings is the beginning of the other. *)
Definition agree (s t : string) : bool := str_prefix s t || str_prefix t s.

Lemma lor_zero x y : Z.lor x y = 0 ↔ x = 0 ∧ y = 0.
Proof. apply Z.lor_eq_0_iff. Qed.

(** Nothing of a difference is lost on the way. *)
Lemma safe_cmp_spec len : ∀ s1 s2 r,
  len = Nat.min (String.length s1) (String.length s2) →
  ∃ r', safe_cmp_loop len s1 s2 r = Some r' ∧ (r' = 0 ↔ r = 0 ∧ agree s1 s2 = true).
Proof.
  induction len as [|len IH]; intros s1 s2 r Hlen.
  - exists r. split; [done|]. unfold agree. destruct s1 as [|a s1], s2 as [|b s2]; cbn in *; try lia; naive_solver.
  - destruct s1 as [|a s1], s2 as [|b s2]; cbn [String.length] in Hlen; try lia. cbn [safe_cmp_loop].
    destruct (IH s1 s2 (Z.lor r (Z.lxor (code a) (code b))) ltac:(lia)) as (r' & -> & Hr). exists r'. split; [done|].
    rewrite Hr, lor_zero, Z.lxor_eq_0_iff. unfold agree. cbn [str_prefix]. rewrite (Z.eqb_sym (code b)).
    destruct (Z.eqb_spec (code a) (code b)); cbn [andb orb]; naive_solver.
Qed.

Lemma same_start_agree s1 s2 : same_start s1 s2 = Some (agree s1 s2).
Proof.
  unfold same_start, safe_cmp.
  destruct (safe_cmp_spec (Nat.min (String.length s1) (String.length s2)) s1 s2 0 eq_refl) as (r & -> & Hr).
  cbn [mbind option_bind]. f_equal. destruct (Z.eqb_spec r 0) as [E|E], (agree s1 s2); naive_solver.
Qed.

(** ** The file *)

(** A line that a file of passwords should have. *)
Definition entry_line (e : string * string) : string := e.1 +:+ ":" +:+ e.2 +:+ newline.

Definition entry_ok (e : string * string) : bool :=
  (0 <? String.length e.1)%nat && (String.length e.1 <=? 64)%nat && no_char 58 e.1 && no_char 10 e.1 &&
  (0 <? String.length e.2)%nat && (String.length e.2 <=? 128)%nat && str_all (λ a, negb (isspace a)) e.2.

Definition password_file (es : list (string * string)) : string := contents (entry_line <$> es).

Lemma scanset_name n s : ∀ k,
  (String.length n ≤ k)%nat → no_char 58 n = true →
  scanset_loop k [58] (n +:+ String (chr 58) s) = (n, String (chr 58) s).
Proof.
  induction n as [|a n IH]; intros k Hk Hn.
  - rewrite str_nil_app. by destruct k.
  - destruct k as [|k]; cbn [String.length] in Hk; [lia|]. cbn [no_char str_all] in Hn.
    apply andb_true_iff in Hn as [Ha Hn]. apply negb_true_iff, Z.eqb_neq in Ha.
    rewrite str_app_cons. cbn [scanset_loop]. rewrite bool_decide_false by set_solver. by rewrite IH by (done || lia).
Qed.

Lemma word_upto_all h s : ∀ k,
  (String.length h ≤ k)%nat → str_all (λ a, negb (isspace a)) h = true →
  word_upto k (h +:+ newline +:+ s) = h.
Proof.
  induction h as [|a h IH]; intros k Hk Hh.
  - by destruct k.
  - destruct k as [|k]; cbn [String.length] in Hk; [lia|]. cbn [str_all] in Hh.
    apply andb_true_iff in Hh as [Ha Hh]. apply negb_true_iff in Ha. rewrite str_app_cons. cbn [word_upto]. rewrite Ha.
    by rewrite IH by (done || lia).
Qed.

Lemma parse_entry_line e : entry_ok e = true → parse_line (entry_line e) = Some e.
Proof.
  destruct e as [n h]. unfold entry_ok, entry_line, parse_line. cbn [fst snd].
  rewrite !andb_true_iff, !Nat.ltb_lt, !Nat.leb_le. intros ((((((H1 & H2) & H3) & H4) & H5) & H6) & H7).
  rewrite (scanset_name n (h +:+ newline)) by done. destruct n as [|a n]; [cbn in H1; lia|].
  change (scan_lit 58 (String (chr 58) (h +:+ newline))) with (Some (h +:+ newline)). cbn [mbind option_bind].
  assert (skip_space (h +:+ newline) = h +:+ newline) as ->.
  { destruct h as [|b h]; [cbn in H5; lia|]. cbn [str_all] in H7. apply andb_true_iff in H7 as [Hb _].
    apply negb_true_iff in Hb. rewrite str_app_cons. cbn [skip_space]. by rewrite Hb. }
  pose proof (word_upto_all h "" 128 H6 H7) as Hw. rewrite str_app_nil in Hw. rewrite Hw.
  by destruct h; [cbn in H5; lia|].
Qed.

Lemma no_space_no_newline h : str_all (λ a, negb (isspace a)) h = true → no_char 10 h = true.
Proof.
  induction h as [|a h IH]; [done|]. cbn [str_all no_char]. rewrite !andb_true_iff, !negb_true_iff.
  intros [Ha Hh]. split; [|by apply IH]. unfold is_char. apply Z.eqb_neq. intros E. unfold isspace in Ha. by rewrite E in Ha.
Qed.

Lemma no_char_app c s t : no_char c (s +:+ t) = no_char c s && no_char c t.
Proof. apply str_all_app. Qed.

Lemma entry_line_ok e : entry_ok e = true → DigestProofs.line_ok 255 (entry_line e).
Proof.
  destruct e as [n h]. unfold entry_ok, entry_line. cbn [fst snd].
  rewrite !andb_true_iff, !Nat.ltb_lt, !Nat.leb_le. intros ((((((H1 & H2) & H3) & H4) & H5) & H6) & H7).
  exists (n +:+ ":" +:+ h). split_and!.
  - by rewrite !str_app_assoc.
  - rewrite !no_char_app, H4, (no_space_no_newline h) by done. done.
  - rewrite !str_length_app. cbn [String.length]. lia.
Qed.

Section Deciding.
Context (crypt : string → string → option string).

(** The first name that agrees with the user on the shorter length decides. *)
Lemma authorize_first es u p :
  Forall (λ e, entry_ok e = true) es →
  authorize crypt (Some (password_file es)) (Some u) (Some p) =
  match find (λ e, agree u e.1) es with
  | None => Some 0
  | Some (_, h) => newpw ← crypt p h; Some (if agree newpw h then 1 else 0)
  end.
Proof.
  intros Hes. unfold authorize, password_file. rewrite fgets_contents.
  - induction Hes as [|e es He _ IH]; [done|]. rewrite fmap_cons. cbn [authorize_loop find].
    rewrite parse_entry_line by done. destruct e as [n h]. rewrite same_start_agree. cbn [mbind option_bind fst].
    destruct (agree u n); [|exact IH]. destruct (crypt p h) as [newpw|]; [|done]. cbn [mbind option_bind].
    by rewrite same_start_agree.
  - apply Forall_fmap. eapply Forall_impl; [exact Hes|]. intros e. apply entry_line_ok.
Qed.

Lemma prefix_length_eq s t : str_prefix s t = true → String.length s = String.length t → s = t.
Proof.
  revert t. induction s as [|a s IH]; intros [|b t] H Hl; cbn in *; try done; try lia.
  apply andb_true_iff in H as [Ha%Z.eqb_eq H]. f_equal; [by apply code_inj|]. apply IH; [done|lia].
Qed.

Lemma agree_same_length s t : String.length s = String.length t → agree s t = str_eqb s t.
Proof.
  intros Hl. apply eq_true_iff_eq. unfold agree. rewrite orb_true_iff, str_eqb_eq. split.
  - intros [H|H]; [by apply prefix_length_eq|symmetry; by apply prefix_length_eq].
  - intros ->. left. rewrite <- (str_app_nil t) at 2. apply str_prefix_app.
Qed.

Lemma agree_refl s : agree s s = true.
Proof. rewrite agree_same_length by done. apply str_eqb_refl. Qed.

(** The file authenticator accepts exactly the passwords whose hash is
    stored, for the users of a file in which no name is the beginning of another
    (and hashes have the length that [crypt] gives them), and refuses a user whose
    name neither begins nor continues a name of the file. *)
Theorem file_authenticates es :
  Forall (λ e, entry_ok e = true) es →
  (∀ e1 e2, e1 ∈ es → e2 ∈ es → agree e1.1 e2.1 = true → e1 = e2) →
  (∀ u h p c, (u, h) ∈ es → crypt p h = Some c → String.length c = String.length h →
     authorize crypt (Some (password_file es)) (Some u) (Some p) = Some (if str_eqb c h then 1 else 0)) ∧
  (∀ u p, Forall (λ e, agree u e.1 = false) es →
     authorize crypt (Some (password_file es)) (Some u) (Some p) = Some 0).
Proof.
  intros Hes Hfree. split.
  - intros u h p c Hin Hc Hl. rewrite authorize_first by done.
    destruct (find (λ e, agree u e.1) es) as [[n h']|] eqn:E.
    + apply find_some in E as [Hin' Ha]. apply list_elem_of_In in Hin'.
      assert ((u, h) = (n, h')) as [= <- <-] by (by apply Hfree).
      rewrite Hc. cbn [mbind option_bind]. by rewrite agree_same_length.
    + apply list_elem_of_In in Hin. pose proof (find_none _ _ E _ Hin) as Hn. cbn in Hn. by rewrite agree_refl in Hn.
  - intros u p Hu. rewrite authorize_first by done. induction Hu as [|e es Ha _ IH]; [done|]. cbn [find].
    rewrite Ha. apply IH; [by apply Forall_cons in Hes as [_ ?]|]. intros e1 e2 H1 H2. apply Hfree; by right.
Qed.
End Deciding.

(** ** Behind the HTTP server *)

Section Service.
Context (crypt : string → string → option string).

(** The authenticator as the server calls it. *)
Definition file_callback (file : string) (user pwd : string) : Z :=
  default 0 (authorize crypt (Some file) (Some user) (Some pwd)).

(** C32: a part of a name is enough.  With the file authenticator, a request for the service
    whose user is a beginning of the first name in the file, down to the
    empty name, is handed to the listener with the password of that name; so is
    one with a user that continues it. *)
Theorem part_of_name_reaches_service es n h bd s root realm now user pwd c name hs1 hs2 rest start full :
  let hs := auth_headers user pwd name hs1 hs2 in
  Forall (λ e, entry_ok e = true) ((n, h) :: es) → agree user n = true → crypt pwd h = Some c → agree c h = true →
  user_ok user pwd = true → served_settings s → (6 + root < URI_MAX)%nat →
  str_prefix "POST" start = true → forallb wire_ok hs = true → str_lower name = AUTH →
  forallb (λ h, negb (is_auth h)) hs2 = true →
  ∃ cn cn', parse_http_request start (request_text hs rest) full = (Parsed_ cn, (Some 1, Some 1)) ∧
    decide_what_to_do (file_callback (password_file ((n, h) :: es))) (create_shttpd_context bd s true) root realm now cn
      = Some (Embedded 1 cn').
Proof.
  intros hs Hes Ha Hc Hch Huser Hset Hroot Hstart Hwire Hname Hlast.
  destruct (wire_ok_all hs Hwire) as (H1 & H2 & H3 & _). eexists. 
  assert (Hb : headers_of (intact hs) hs).
  { exists (replicate (length hs) TIntact), TIntact. by rewrite length_replicate. }
  assert (Hv : header_vec (_shttpd_parse_headers (intact hs)) "Authorization: " = auth_vec user pwd name hs1)
    by by apply parsed_auth.
  destruct (decide_wsman user pwd name hs1 hs2 bd s (file_callback (password_file ((n, h) :: es))) root realm now
    Huser Hset Hroot _ _ Hb Hv) as (b' & _ & Hdec).
  eexists. split; [by apply parse_request|]. rewrite Hdec.
  assert (file_callback (password_file ((n, h) :: es)) user pwd = 1) as ->; [|done].
  unfold file_callback. rewrite authorize_first by done. cbn [find fst]. rewrite Ha, Hc. cbn [mbind option_bind].
  by rewrite Hch.
Qed.
End Service.

(** ** Examples *)

(** A hash that starts with the salt. *)
Definition toy_crypt (p salt : string) : option string := Some (str_take 2 salt +:+ p).

Definition sample_passwords : list (string * string) := [("admin", "ab1234"); ("guest", "cdguest")].

Lemma file_authenticates_witness :
  authorize toy_crypt (Some (password_file sample_passwords)) (Some "guest") (Some "guest") = Some 1 ∧
  authorize toy_crypt (Some (password_file sample_passwords)) (Some "guest") (Some "Guest") = Some 0 ∧
  authorize toy_crypt (Some (password_file sample_passwords)) (Some "root") (Some "1234") = Some 0.
Proof.
  destruct (file_authenticates toy_crypt sample_passwords) as [Hok Hno].
  - by repeat constructor.
  - intros e1 e2 H1 H2 Ha. unfold sample_passwords in H1, H2.
    repeat (apply elem_of_cons in H1 as [->|H1]; [|]); try by apply not_elem_of_nil in H1.
    all: repeat (apply elem_of_cons in H2 as [->|H2]; [|]); try by apply not_elem_of_nil in H2.
    all: first [reflexivity|discriminate Ha].
  - split_and!.
    + exact (Hok "guest" "cdguest" "guest" "cdguest" ltac:(right; left) eq_refl eq_refl).
    + exact (Hok "guest" "cdguest" "Guest" "cdGuest" ltac:(right; left) eq_refl eq_refl).
    + apply Hno. by repeat constructor.
Defined.

(** The second of two names of which one begins the other cannot log in. *)
Example longer_name_shadowed :
  authorize toy_crypt (Some (password_file [("admin", "ab1234"); ("admin2", "cdsecret")])) (Some "admin2") (Some "secret")
  = Some 0.
Proof. vm_compute. reflexivity. Qed.

Lemma part_of_name_reaches_service_witness :
  ∃ cn cn', parse_http_request "POST" (request_text (auth_headers "" "1234" "Authorization" wire_headers []) "") false
      = (Parsed_ cn, (Some 1, Some 1)) ∧
    decide_what_to_do (file_callback toy_crypt (password_file sample_passwords))
      (create_shttpd_context sample_build (initial_settings sample_build) true) 1 "Openwsman" 0 cn = Some (Embedded 1 cn').
Proof.
  apply (part_of_name_reaches_service toy_crypt [("guest", "cdguest")] "admin" "ab1234" sample_build
    (initial_settings sample_build) 1 "Openwsman" 0 "" "1234" "ab1234" "Authorization" wire_headers [] "" "POST" false);
    try (vm_compute; reflexivity).
  - by repeat constructor.
  - apply Nat.ltb_lt. vm_compute. reflexivity.
Defined.
