(* ===== verification/Connection.v ===== *)
(** * Connections

    src/src/server/shttpd: a connection of the HTTP server has a stream to the
    client and one to the function that serves it, each with a buffer (io.h).
    [process_connection] moves bytes between them whenever the server finds
    something to do (shttpd.c, io_emb.c, io_socket.c). *)

From S2P Require Import Prelude CString Uri Base64 Ini Options Client Http Listener.
From Stdlib Require Import Ascii.
Local Open Scope string_scope.
Local Open Scope list_scope.
Local Open Scope Z_scope.
Local Open Scope ow_scope.

(** ** Faults

    The asserts are compiled in: one that fails ends the process. *)

Inductive fault := AssertFails | WritesOutOfBounds | Undefined | Loops.

Inductive res (A : Type) := Ok (a : A) | Bad (f : fault).
Arguments Ok {A}.
Arguments Bad {A}.

Global Instance res_bind : MBind res := λ A B f m, match m with Ok a => f a | Bad x => Bad x end.

Definition assert (b : bool) : res () := if b then Ok () else Bad AssertFails.

Definition defined {A} (o : option A) : res A := match o with Some a => Ok a | None => Bad Undefined end.

(** ** Buffers *)

(** [struct io]; the size is the length of [io_buf]. *)
Record io := Io { io_buf : list Z; io_head : Z; io_tail : Z; io_total : Z }.

Definition io_size (i : io) : Z := Z.of_nat (length (io_buf i)).

Definition io_clear (i : io) : io := Io (io_buf i) 0 0 0.

Definition io_space_len (i : io) : Z := io_size i - io_head i.

Definition io_data_len (i : io) : Z := io_head i - io_tail i.

Definition io_data (i : io) : list Z :=
  take (Z.to_nat (io_data_len i)) (drop (Z.to_nat (io_tail i)) (io_buf i)).

Definition io_inc_tail (i : io) (n : Z) : res io :=
  _ ← assert ((io_tail i <=? io_head i) && (io_head i <=? io_size i));
  let tail := wrap64 (io_tail i + wrap64 n) in
  _ ← assert (tail <=? io_head i);
  Ok (if tail =? io_head i then Io (io_buf i) 0 0 (io_total i) else Io (io_buf i) (io_head i) tail (io_total i)).

Definition io_inc_head (i : io) (n : Z) : res io :=
  _ ← assert (io_tail i <=? io_head i);
  let head := wrap64 (io_head i + n) in
  _ ← assert (head <=? io_size i);
  Ok (Io (io_buf i) head (io_tail i) (wrap64 (io_total i + n))).

(** Bytes are stored at [io_space]. *)
Definition io_store (i : io) (l : list Z) : res io :=
  let h := Z.to_nat (io_head i) in
  if io_size i <? io_head i + Z.of_nat (length l) then Bad WritesOutOfBounds
  else Ok (Io (take h (io_buf i) ++ l ++ drop (h + length l) (io_buf i)) (io_head i) (io_tail i) (io_total i)).

(** ** Streams *)

(** FLAG_HEADERS_PARSED, FLAG_CLOSED, FLAG_DONT_CLOSE, FLAG_R, FLAG_W and
    FLAG_ALWAYS_READY. *)
Record flags := Flags {
  f_parsed : bool; f_closed : bool; f_dont_close : bool; f_r : bool; f_w : bool; f_ready : bool }.

Definition no_flags : flags := Flags false false false false false false.

(** [s_open]: [io_class] is not NULL. *)
Record stream := Stream { s_io : io; s_open : bool; s_content_len : Z; s_flags : flags }.

(** What [recv] finds in the socket: the bytes that have arrived, and whether the
    client has closed its side. *)
Record socket := Socket { rx : list Z; rx_eof : bool }.

(** What [send] does: it takes at most so many bytes, takes none for now, or
    fails. *)
Inductive send_result := STakes (n : nat) | SAgain | SFails.

(** A connection.  [sent] are the bytes the client gets and [calls] the calls of
    the function, in order: the history of the connection. *)
Record connection (W : Type) := Connection {
  rem : stream; loc : stream; sock : socket; req : option conn; version : Z * Z;
  emb_state : option rstate; expire_time : Z; status : Z; freed : bool; sent : list Z; calls : list call; world : W }.
Arguments Connection {W}.
Arguments rem {W}.
Arguments loc {W}.
Arguments sock {W}.
Arguments req {W}.
Arguments version {W}.
Arguments emb_state {W}.
Arguments expire_time {W}.
Arguments status {W}.
Arguments freed {W}.
Arguments sent {W}.
Arguments calls {W}.
Arguments world {W}.

Definition set_rem {W} (c : connection W) (s : stream) : connection W :=
  Connection s (loc c) (sock c) (req c) (version c) (emb_state c) (expire_time c) (status c) (freed c) (sent c) (calls c) (world c).
Definition set_loc {W} (c : connection W) (s : stream) : connection W :=
  Connection (rem c) s (sock c) (req c) (version c) (emb_state c) (expire_time c) (status c) (freed c) (sent c) (calls c) (world c).
Definition set_sock {W} (c : connection W) (s : socket) : connection W :=
  Connection (rem c) (loc c) s (req c) (version c) (emb_state c) (expire_time c) (status c) (freed c) (sent c) (calls c) (world c).
Definition set_req {W} (c : connection W) (r : option conn) : connection W :=
  Connection (rem c) (loc c) (sock c) r (version c) (emb_state c) (expire_time c) (status c) (freed c) (sent c) (calls c) (world c).
Definition set_version {W} (c : connection W) (v : Z * Z) : connection W :=
  Connection (rem c) (loc c) (sock c) (req c) v (emb_state c) (expire_time c) (status c) (freed c) (sent c) (calls c) (world c).
Definition set_expire {W} (c : connection W) (t : Z) : connection W :=
  Connection (rem c) (loc c) (sock c) (req c) (version c) (emb_state c) t (status c) (freed c) (sent c) (calls c) (world c).
Definition set_status {W} (c : connection W) (z : Z) : connection W :=
  Connection (rem c) (loc c) (sock c) (req c) (version c) (emb_state c) (expire_time c) z (freed c) (sent c) (calls c) (world c).
Definition set_freed {W} (c : connection W) : connection W :=
  Connection (rem c) (loc c) (sock c) (req c) (version c) (emb_state c) (expire_time c) (status c) true (sent c) (calls c) (world c).
Definition set_sent {W} (c : connection W) (l : list Z) : connection W :=
  Connection (rem c) (loc c) (sock c) (req c) (version c) (emb_state c) (expire_time c) (status c) (freed c) l (calls c) (world c).
Definition set_emb {W} (c : connection W) (r : option conn) (st : option rstate) (l : list call) (w : W) : connection W :=
  Connection (rem c) (loc c) (sock c) r (version c) st (expire_time c) (status c) (freed c) (sent c) l w.

Definition set_io (s : stream) (i : io) : stream := Stream i (s_open s) (s_content_len s) (s_flags s).
Definition set_flags (s : stream) (f : flags) : stream := Stream (s_io s) (s_open s) (s_content_len s) f.
Definition set_content_len (s : stream) (n : Z) : stream := Stream (s_io s) (s_open s) n (s_flags s).

Definition EXPIRE_TIME : Z := 3600.

(** [add_socket]: a new connection with two buffers. *)
Definition new_io : io := Io (replicate URI_MAX 0) 0 0 0.

Definition add_socket {W} (now : Z) (w : W) : connection W :=
  Connection (Stream new_io true 0 no_flags) (Stream new_io false 0 no_flags) (Socket [] false) None (0, 0) None
    (now + EXPIRE_TIME) 0 false [] [] w.

Section Server.
Context {W : Type}.

(** The function that serves requests, [server_callback] of the listener; what
    becomes of a parsed request, [decide_what_to_do]. *)
Variable user : conn → option rstate → call → W → option (answer W).
Variable decide : conn → option decision.

(** ** The stream to the function *)

Definition call_user (c : connection W) (err : bool) : res (connection W) :=
  r ← defined (req c);
  let li := s_io (loc c) in
  let ri := s_io (rem c) in
  let ca := Call (io_data ri) (Z.to_nat (io_space_len li)) err in
  a ← defined (user r (emb_state c) ca (world c));
  li ← io_store li (an_out a);
  li ← io_inc_head li (Z.of_nat (length (an_out a)));
  ri ← io_inc_tail ri (Z.of_nat (an_consumed a));
  let f := s_flags (loc c) in
  let f := Flags (f_parsed f) (f_closed f) (negb (an_end a)) (f_r f) (f_w f) (f_ready f) in
  let c := set_loc (set_rem c (set_io (rem c) ri)) (set_flags (set_io (loc c) li) f) in
  Ok (set_emb c (Some (Conn (c_uri r) (an_headers a) (c_ch r))) (an_state a) (calls c ++ [ca]) (an_w a)).

Definition close_embedded (c : connection W) : res (connection W) :=
  if f_dont_close (s_flags (loc c)) then call_user c true else Ok c.

Definition stopped (s : stream) : stream :=
  Stream (s_io s) false (s_content_len s)
    (Flags (f_parsed (s_flags s)) true (f_dont_close (s_flags s)) false false false).

(** [_shttpd_stop_stream] of the local and of the remote stream. *)
Definition stop_loc (c : connection W) : res (connection W) :=
  c ← (if s_open (loc c) then close_embedded c else Ok c);
  Ok (set_loc c (stopped (loc c))).

Definition stop_rem (c : connection W) : connection W := set_rem c (stopped (rem c)).

Definition _shttpd_setup_embedded_stream (c : connection W) (r : conn) : connection W :=
  let f := s_flags (loc c) in
  let c := set_emb c (Some r) None (calls c) (world c) in
  set_loc c (Stream (s_io (loc c)) true (s_content_len (loc c))
    (Flags (f_parsed f) (f_closed f) (f_dont_close f) true true true)).

Definition pad3 (s : string) : string :=
  match String.length s with 1%nat => "00" +:+ s | 2%nat => "0" +:+ s | _ => s end.

(** The daemon registers no handlers for errors. *)
Definition error_text (status : Z) (reason : string) : string :=
  "HTTP/1.1 " +:+ print_int status +:+ " " +:+ reason +:+ crlf +:+ "Content-Type: text/plain" +:+ crlf +:+
  "Content-Length: 12" +:+ crlf +:+ crlf +:+ "Error: " +:+ pad3 (print_int status) +:+ crlf.

Definition _shttpd_send_server_error (c : connection W) (st : Z) (reason : string) : res (connection W) :=
  let i := io_clear (s_io (loc c)) in
  let text := str_take (Z.to_nat (io_size i) - 1) (error_text st reason) in
  i ← io_store i (codes text);
  let i := Io (io_buf i) (Z.of_nat (String.length text)) 0 0 in
  stop_loc (set_status (set_loc c (set_content_len (set_io (loc c) i) 10)) st).

(** ** Requests *)

Definition new_version (old : Z * Z) (v : option Z * option Z) : Z * Z :=
  (default old.1 v.1, default old.2 v.2).

Definition parse_request (c : connection W) : res (connection W) :=
  let i := s_io (rem c) in
  let data := str_of_codes (io_data i) in
  let req_len := _shttpd_get_headers_len data in
  let '(r, v) := parse_http_request (str_of_codes (io_buf i)) data (io_space_len i =? 0) in
  match r with
  | Incomplete => Ok c
  | Refused st reason =>
      if req_len =? 0 then _shttpd_send_server_error (set_rem c (set_io (rem c) (io_clear i))) st reason
      else
        c ← _shttpd_send_server_error c st reason;
        i ← io_inc_tail (s_io (rem c)) req_len;
        Ok (set_rem c (set_io (rem c) i))
  | _ =>
      i ← io_inc_tail i req_len;
      if f_closed (s_flags (loc c)) then Ok (set_rem c (set_io (rem c) i))
      else
        let f := s_flags (rem c) in
        let f := Flags true (f_closed f) (f_dont_close f) (f_r f) (f_w f) (f_ready f) in
        let c := set_version c (new_version (version c) v) in
        match r with
        | Parsed_ q =>
            _ ← assert (req_len <=? io_total i);
            let i := Io (io_buf i) (io_head i) (io_tail i) (io_total i - req_len) in
            let c := set_req (set_rem c (Stream i (s_open (rem c)) (h_cl (c_ch q)) f)) (Some q) in
            d ← defined (decide q);
            match d with
            | SendError st reason => _shttpd_send_server_error c st reason
            | Embedded _ q => Ok (_shttpd_setup_embedded_stream c q)
            end
        | Answered st reason => _shttpd_send_server_error (set_rem c (set_flags (set_io (rem c) i) f)) st reason
        | _ => Ok c
        end
  end.

(** ** Moving bytes *)

(** How much [read_stream] asks for: [len] is an int. *)
Definition read_len (s : stream) : Z :=
  let i := s_io s in
  let len := sint 32 (io_space_len i) in
  if (0 <? s_content_len s) && (s_content_len s <? wrap64 (io_total i + len))
  then sint 32 (s_content_len s - io_total i) else len.

(** [recv] with a length that was converted to [size_t]: the result, the bytes
    and what is left. *)
Definition recv (s : socket) (len : Z) : Z * list Z * socket :=
  let k := Z.to_nat (Z.min (wrap64 len) (Z.of_nat (length (rx s)))) in
  if (k =? 0)%nat then (if (wrap64 len =? 0) || rx_eof s then 0 else -1, [], s)
  else (Z.of_nat k, take k (rx s), Socket (drop k (rx s)) (rx_eof s)).

Definition read_rem (now : Z) (c : connection W) : res (connection W) :=
  let s := rem c in
  _ ← assert (0 <? sint 32 (io_space_len (s_io s)));
  _ ← assert (s_open s);
  let '(n, l, sk) := recv (sock c) (read_len s) in
  let c := set_sock c sk in
  c ← (if 0 <? n then
         i ← io_store (s_io s) l;
         i ← io_inc_head i n;
         Ok (set_rem c (set_io s i))
       else if n =? -1 then Ok c
       else if f_dont_close (s_flags s) then Ok c
       else Ok (stop_rem c));
  Ok (set_expire c (now + EXPIRE_TIME)).

(** The function's stream always reads and writes 0 bytes itself: the function
    fills and empties the buffers. *)
Definition read_loc (now : Z) (c : connection W) : res (connection W) :=
  _ ← assert (0 <? sint 32 (io_space_len (s_io (loc c))));
  _ ← assert (s_open (loc c));
  c ← call_user c false;
  c ← (if f_dont_close (s_flags (loc c)) then Ok c else stop_loc c);
  c ← (if 0 <? s_content_len (loc c) then
         _ ← assert (io_total (s_io (loc c)) <=? s_content_len (loc c));
         if io_total (s_io (loc c)) =? s_content_len (loc c) then stop_loc c else Ok c
       else Ok c);
  Ok (set_expire c (now + EXPIRE_TIME)).

Definition write_loc (now : Z) (c : connection W) : res (connection W) :=
  _ ← assert (0 <? sint 32 (io_data_len (s_io (rem c))));
  c ← call_user c false;
  let c := set_expire c (now + EXPIRE_TIME) in
  if f_dont_close (s_flags (loc c)) then Ok c else stop_loc c.

Definition write_rem (now : Z) (sr : send_result) (c : connection W) : res (connection W) :=
  let i := s_io (loc c) in
  let len := sint 32 (io_data_len i) in
  _ ← assert (0 <? len);
  let c := set_expire c (now + EXPIRE_TIME) in
  match sr with
  | STakes (S k) =>
      let n := Z.min (Z.of_nat (S k)) len in
      let l := take (Z.to_nat n) (io_data i) in
      i ← io_inc_tail i n;
      Ok (set_sent (set_loc c (set_io (loc c) i)) (sent c ++ l))
  | SAgain => Ok c
  | _ => if f_dont_close (s_flags (rem c)) then Ok c else Ok (stop_rem c)
  end.

(** ** The end of a request *)

Definition wants_close (c : connection W) : bool :=
  let v := match req c with Some r => header_vec (c_ch r) "Connection: " | None => Vec 0 0 end in
  let text := match req c with Some r => default "" (str_drop (v_off v) (c_headers r)) | None => "" end in
  f_closed (s_flags (rem c)) ||
  ((5 <=? v_len v) && _shttpd_strncasecmp "close" text 5) ||
  ((version c).1 <? 1) || ((1 <=? (version c).1) && ((version c).2 <? 1)).

(** The connection is kept for another request, or freed; the result says
    whether there is more to process. *)
Definition keep_or_free (c : connection W) : res (bool * connection W) :=
  if negb (wants_close c) && (0 <? s_content_len (loc c)) then
    let rs := Stream (s_io (rem c)) (s_open (rem c)) (s_content_len (rem c))
                (Flags false false false true true false) in
    let ls := Stream (io_clear (s_io (loc c))) false 0 no_flags in
    let c := set_req (set_loc (set_rem c rs) ls) None in
    Ok (0 <? io_data_len (s_io (rem c)), c)
  else Ok (false, set_freed c).

Definition connection_desctructor (c : connection W) : res (bool * connection W) :=
  c ← (if s_open (loc c) then close_embedded c else Ok c);
  keep_or_free c.

(** One round; the [goto again] is a round with nothing ready. *)
Fixpoint process_connection (fuel : nat) (now : Z) (sr : send_result) (remote_ready local_ready : bool)
    (c : connection W) : res (connection W) :=
  match fuel with
  | O => Bad Loops
  | S fuel =>
      c ← (if remote_ready && negb (io_space_len (s_io (rem c)) =? 0) then read_rem now c else Ok c);
      c ← (if f_parsed (s_flags (rem c)) then Ok c else parse_request c);
      c ← (if local_ready && negb (io_space_len (s_io (loc c)) =? 0) then read_loc now c else Ok c);
      c ← (if (0 <? io_data_len (s_io (rem c))) && f_w (s_flags (loc c)) && s_open (loc c) then write_loc now c
           else Ok c);
      c ← (if (0 <? io_data_len (s_io (loc c))) && s_open (rem c) then write_rem now sr c else Ok c);
      if (expire_time c <? now) || f_closed (s_flags (rem c)) ||
         (f_closed (s_flags (loc c)) && (io_data_len (s_io (loc c)) =? 0))
      then
        '(again, c) ← connection_desctructor c;
        if again : bool then process_connection fuel now sr false false c else Ok c
      else Ok c
  end.

(** One turn of the server's loop for the connection: bytes arrive and the
    client may close its side; the socket is ready when there is something to
    read and room for it. *)
Record event := Event { ev_now : Z; ev_in : list Z; ev_eof : bool; ev_send : send_result }.

Definition arrive (ev : event) (s : socket) : socket := Socket (rx s ++ ev_in ev) (rx_eof s || ev_eof ev).

Definition turn (c : connection W) (ev : event) : res (connection W) :=
  if freed c then Ok c
  else
    let c := set_sock c (arrive ev (sock c)) in
    let readable := negb (io_space_len (s_io (rem c)) =? 0) &&
                    ((0 <? length (rx (sock c)))%nat || rx_eof (sock c)) in
    process_connection (S (S (Z.to_nat (io_size (s_io (rem c)))))) (ev_now ev) (ev_send ev) readable
      (s_open (loc c) && f_ready (s_flags (loc c))) c.

Fixpoint turns (c : connection W) (evs : list event) : res (connection W) :=
  match evs with
  | [] => Ok c
  | ev :: evs' => c ← turn c ev; turns c evs'
  end.
End Server.
