(* ===== verification/ConnectionProofs.v ===== *)
(** * Connections move bytes without loss

    The buffers of a connection are queues; a connection agrees with the history
    of the calls of the function that serves it, over any sequence of turns; and
    a request that arrives in pieces is served from the first byte to the last
    (see Connection). *)

From S2P Require Import Prelude CString Uri Base64 Ini Options Client Daemon Http Listener HttpProofs Connection.
From Stdlib Require Import Ascii.
Local Open Scope string_scope.
Local Open Scope list_scope.
Local Open Scope Z_scope.
Local Open Scope ow_scope.

(** ** Buffers as queues *)

#[local] Arguments Z.add : simpl never.
#[local] Arguments Z.sub : simpl never.
#[local] Arguments Z.of_nat : simpl never.

Definition io_ok (i : io) : Prop :=
  0 ≤ io_tail i ∧ io_tail i ≤ io_head i ∧ io_head i ≤ io_size i ∧ io_size i < 2147483648 ∧
  (io_tail i = io_head i → io_head i = 0).

Lemma int_small z : 0 ≤ z < 2147483648 → sint 32 z = z.
Proof. intros Hz. apply sint_small; simpl; lia. Qed.

Lemma io_data_length i : io_ok i → Z.of_nat (length (io_data i)) = io_data_len i.
Proof.
  unfold io_ok, io_data, io_data_len, io_size. intros H. rewrite length_take, length_drop. lia.
Qed.

(** Storing bytes and moving the head appends them. *)
Lemma io_append i l :
  io_ok i → Z.of_nat (length l) ≤ io_space_len i →
  ∃ i1 i', io_store i l = Ok i1 ∧ io_inc_head i1 (Z.of_nat (length l)) = Ok i' ∧
    io_data i' = io_data i ++ l ∧ io_ok i' ∧ io_size i' = io_size i ∧
    io_total i' = wrap64 (io_total i + Z.of_nat (length l)) ∧ io_tail i' = io_tail i ∧
    take (Z.to_nat (io_head i)) (io_buf i') = take (Z.to_nat (io_head i)) (io_buf i).
Proof.
  unfold io_ok, io_space_len. intros (H1 & H2 & H3 & H4 & H5) Hl.
  set (h := Z.to_nat (io_head i)). set (b := take h (io_buf i) ++ l ++ drop (h + length l) (io_buf i)).
  assert (Hh : (h + length l ≤ length (io_buf i))%nat) by (unfold h, io_size in *; lia).
  assert (Hb : length b = length (io_buf i)).
  { unfold b. rewrite !length_app, length_take, length_drop. lia. }
  exists (Io b (io_head i) (io_tail i) (io_total i)),
    (Io b (io_head i + Z.of_nat (length l)) (io_tail i) (wrap64 (io_total i + Z.of_nat (length l)))).
  unfold io_store. rewrite (proj2 (Z.ltb_ge _ _)) by lia. split; [done|].
  unfold io_inc_head, io_size in *. cbn [io_head io_tail io_buf io_total]. rewrite Hb.
  rewrite wrap_small by lia. rewrite !(proj2 (Z.leb_le _ _)) by lia. cbn [assert mbind res_bind].
  assert (Htake : take h b = take h (io_buf i)).
  { unfold b. rewrite take_app_le by (rewrite length_take; lia). rewrite take_take. f_equal. lia. }
  split_and!; try done; try lia. unfold io_data, io_data_len. cbn [io_head io_tail io_buf].
  set (t := Z.to_nat (io_tail i)). assert (Ht : (t ≤ h)%nat) by (unfold t, h; lia).
  replace (Z.to_nat (io_head i + Z.of_nat (length l) - io_tail i)) with ((h - t) + length l)%nat by (unfold t, h; lia).
  replace (Z.to_nat (io_head i - io_tail i)) with (h - t)%nat by (unfold t, h; lia).
  unfold b. rewrite drop_app_le by (rewrite length_take; lia).
  rewrite skipn_firstn_comm. rewrite take_app_ge by (rewrite length_take, length_drop; lia).
  f_equal. rewrite length_take, length_drop. replace (_ - _)%nat with (length l) by lia. by rewrite take_app_length.
Qed.

Lemma io_consume i n :
  io_ok i → 0 ≤ n ≤ io_data_len i →
  ∃ i', io_inc_tail i n = Ok i' ∧ io_data i' = drop (Z.to_nat n) (io_data i) ∧ io_ok i' ∧
    io_size i' = io_size i ∧ io_total i' = io_total i ∧ io_buf i' = io_buf i.
Proof.
  unfold io_ok, io_data_len. intros (H1 & H2 & H3 & H4 & H5) Hn. unfold io_inc_tail, io_size in *.
  rewrite !(wrap_small 64 n), (wrap_small 64) by lia.
  rewrite !(proj2 (Z.leb_le _ _)) by lia. cbn [andb assert mbind res_bind].
  destruct (io_tail i + n =? io_head i) eqn:E; (eexists; split; [reflexivity|]); cbn [io_buf io_head io_tail io_total];
    split_and!; try done; try lia; unfold io_data, io_data_len; cbn [io_buf io_head io_tail].
  - apply Z.eqb_eq in E. symmetry. apply drop_ge. rewrite length_take. lia.
  - rewrite skipn_firstn_comm, drop_drop. f_equal; [lia|]. f_equal. lia.
Qed.

(** ** A request that is being served

    The history of a connection is replayed: the output, what was consumed, and
    the state after the calls; [fin] says that the last call ended the output. *)

Record run (W : Type) := Run {
  run_out : list Z; run_in : list Z; run_req : conn; run_state : option rstate; run_end : bool; run_w : W }.
Arguments Run {W}.
Arguments run_out {W}.
Arguments run_in {W}.
Arguments run_req {W}.
Arguments run_state {W}.
Arguments run_end {W}.
Arguments run_w {W}.

(** What the server relies on in a function that serves requests: it stays
    within the buffers it is given. *)
Class Callback {W} (user : conn → option rstate → call → W → option (answer W)) := callback_bounds :
  ∀ r st ca w a, user r st ca w = Some a →
    (an_consumed a ≤ length (in_buf ca))%nat ∧ (length (an_out a) ≤ out_len ca)%nat.

Section Serving.
Context {W : Type}.
Context (user : conn → option rstate → call → W → option (answer W)) `{!Callback user}.
Context (decide : conn → option decision) (r0 : conn) (w0 : W).

Definition replay1 (x : option (run W)) (ca : call) : option (run W) :=
  x ← x;
  if run_end x then None
  else
    a ← user (run_req x) (run_state x) ca (run_w x);
    Some (Run (run_out x ++ an_out a) (run_in x ++ take (an_consumed a) (in_buf ca))
      (Conn (c_uri (run_req x)) (an_headers a) (c_ch (run_req x))) (an_state a) (an_end a) (an_w a)).

Definition replay (cas : list call) : option (run W) := foldl replay1 (Some (Run [] [] r0 None false w0)) cas.

Lemma replay_snoc cas ca : replay (cas ++ [ca]) = replay1 (replay cas) ca.
Proof. unfold replay. by rewrite foldl_app. Qed.

(** The connection agrees with its history [x]; [got] is what was received of
    the body. *)
Record agrees (c : connection W) (x : run W) (got : list Z) : Prop := {
  ag_replay : replay (calls c) = Some x;
  ag_req : req c = Some (run_req x);
  ag_state : emb_state c = run_state x;
  ag_world : world c = run_w x;
  ag_out : sent c ++ io_data (s_io (loc c)) = run_out x;
  ag_in : run_in x ++ io_data (s_io (rem c)) = got;
  ag_loc : io_ok (s_io (loc c));
  ag_rem : io_ok (s_io (rem c));
  ag_len : s_content_len (loc c) = 0;
  ag_freed : freed c = false;
}.

(** The function is called. *)
Lemma call_user_agrees c x got err :
  agrees c x got → run_end x = false →
  ((call_user user c err = Bad Undefined ∧
    user (run_req x) (run_state x) (Call (io_data (s_io (rem c))) (Z.to_nat (io_space_len (s_io (loc c)))) err)
      (run_w x) = None) ∨
   ∃ c' x', call_user user c err = Ok c' ∧ agrees c' x' got ∧ sent c' = sent c ∧
     calls c' = calls c ++ [Call (io_data (s_io (rem c))) (Z.to_nat (io_space_len (s_io (loc c)))) err] ∧
     io_size (s_io (loc c')) = io_size (s_io (loc c)) ∧
     f_dont_close (s_flags (loc c')) = negb (run_end x') ∧
     sock c' = sock c ∧ expire_time c' = expire_time c ∧ s_open (loc c') = s_open (loc c) ∧
     f_closed (s_flags (loc c')) = f_closed (s_flags (loc c)) ∧
     f_r (s_flags (loc c')) = f_r (s_flags (loc c)) ∧ f_w (s_flags (loc c')) = f_w (s_flags (loc c)) ∧
     f_ready (s_flags (loc c')) = f_ready (s_flags (loc c)) ∧
     s_open (rem c') = s_open (rem c) ∧ s_flags (rem c') = s_flags (rem c) ∧
     s_content_len (rem c') = s_content_len (rem c) ∧ io_total (s_io (rem c')) = io_total (s_io (rem c))).
Proof using Callback0.
  intros [Hrep Hreq Hst Hw Hout Hin Hloc Hrem Hlen Hfr] Hend. unfold call_user. rewrite Hreq. cbn [defined mbind res_bind].
  set (ca := Call _ _ _). rewrite Hst, Hw.
  destruct (user (run_req x) (run_state x) ca (run_w x)) as [a|] eqn:Hu; [|by left]. right.
  destruct (callback_bounds _ _ _ _ _ Hu) as [Hb1 Hb2]. cbn [defined mbind res_bind].
  cbn [ca in_buf out_len] in Hb1, Hb2.
  assert (Hsp : 0 ≤ io_space_len (s_io (loc c))) by (unfold io_ok, io_space_len in *; lia).
  destruct (io_append (s_io (loc c)) (an_out a) Hloc ltac:(lia)) as (i1 & i2 & E1 & E2 & Hd & Hok & Hsz & _).
  rewrite E1. cbn [mbind res_bind]. rewrite E2. cbn [mbind res_bind].
  pose proof (io_data_length _ Hrem) as Hdl.
  destruct (io_consume (s_io (rem c)) (Z.of_nat (an_consumed a)) Hrem ltac:(lia))
    as (i3 & E3 & Hd3 & Hok3 & Hsz3 & Htot & _).
  rewrite E3. cbn [mbind res_bind]. eexists _, (Run (run_out x ++ an_out a) (run_in x ++ take (an_consumed a) (in_buf ca))
    (Conn (c_uri (run_req x)) (an_headers a) (c_ch (run_req x))) (an_state a) (an_end a) (an_w a)).
  split; [reflexivity|]. cbn. split_and!; try done. split; cbn; try done.
  - rewrite replay_snoc, Hrep. unfold replay1. cbn [mbind option_bind]. by rewrite Hend, Hu.
  - rewrite Hd, app_assoc. by rewrite Hout.
  - rewrite Hd3, Nat2Z.id, <- app_assoc, take_drop. done.
Qed.

(** ** Every turn agrees with the history *)

(** [d]: the function is defined wherever it is called.  A step either is cut
    short by the function itself, or ends well. *)
Context (d : bool).

Definition wp {A} (m : res A) (Q : A → Prop) : Prop :=
  match m with Ok a => Q a | Bad Undefined => d = false | Bad _ => False end.

Lemma wp_bind {A B} (m : res A) (f : A → res B) Q : wp m (λ a, wp (f a) Q) → wp (m ≫= f) Q.
Proof. by destruct m as [|[]]. Qed.

Lemma wp_mono {A} (m : res A) (P Q : A → Prop) : wp m P → (∀ a, P a → Q a) → wp m Q.
Proof. destruct m as [|[]]; simpl; auto. Qed.

Lemma wp_if {A} (b : bool) (m : res A) (a : A) (Q : A → Prop) :
  (b = true → wp m Q) → (b = false → Q a) → wp (if b then m else Ok a) Q.
Proof. destruct b; simpl; auto. Qed.

(** The announced length of the body, what arrives of it, and the size of the
    buffer for the output. *)
Context (L : Z) (A : list Z) (SZ : Z).
Hypothesis HL : 0 < L < 2 ^ 63.
Hypothesis HA : Z.of_nat (length A) ≤ L.

(** A call in its place in the history: it has the whole buffer as long as
    there is no output. *)
Definition call_ok (pre : list call) (ca : call) : Prop :=
  conn_error ca = false ∧
  ∀ y, replay pre = Some y → run_end y = false ∧
    (run_out y = [] → out_len ca = Z.to_nat SZ) ∧ (run_in y ++ in_buf ca) `prefix_of` A.

Definition history_ok (cas : list call) : Prop := ∀ pre ca post, cas = pre ++ ca :: post → call_ok pre ca.

Hypothesis Hdef : d = true → ∀ cas x ca, history_ok cas → replay cas = Some x → call_ok cas ca →
  is_Some (user (run_req x) (run_state x) ca (run_w x)).

Lemma history_snoc cas ca : history_ok cas → call_ok cas ca → history_ok (cas ++ [ca]).
Proof.
  intros Hh Hc pre ca' post E. destruct post as [|ca'' post] using rev_ind.
  - apply app_inj_tail in E as [-> ->]. done.
  - rewrite app_comm_cons, app_assoc in E. apply app_inj_tail in E as [-> _]. by apply (Hh pre ca' post).
Qed.

Record serves (c : connection W) (x : run W) (got : list Z) : Prop := {
  sv_agrees : agrees c x got;
  sv_open : s_open (loc c) = negb (run_end x);
  sv_w : f_w (s_flags (loc c)) = negb (run_end x);
  sv_closed : f_closed (s_flags (loc c)) = run_end x;
  sv_rem : s_open (rem c) = negb (f_closed (s_flags (rem c)));
  sv_parsed : f_parsed (s_flags (rem c)) = true;
  sv_dont : f_dont_close (s_flags (rem c)) = false;
  sv_len : s_content_len (rem c) = L;
  sv_total : io_total (s_io (rem c)) = Z.of_nat (length got);
  sv_rx : got ++ rx (sock c) = A;
  sv_size : io_size (s_io (loc c)) = SZ;
  sv_hist : history_ok (calls c);
}.

(** [b]: nothing is lost, neither by the client nor by waiting until after [T],
    when connections expire. *)
Context (b : bool) (T : Z).
Hypothesis Hdb : d = true → b = true.

Definition calm (c : connection W) : Prop :=
  b = true → f_closed (s_flags (rem c)) = false ∧ rx_eof (sock c) = false ∧ T ≤ expire_time c.

Definition in_time (now : Z) : Prop := b = true → now ≤ T ≤ now + EXPIRE_TIME.

Definition well (c : connection W) : Prop := (∃ x got, serves c x got) ∧ calm c.

Lemma got_bound c x got : serves c x got → 0 ≤ Z.of_nat (length got) ≤ L - Z.of_nat (length (rx (sock c))).
Proof using HA.
  intros H. pose proof (sv_rx _ _ _ H) as Hr. rewrite <- Hr, length_app in HA. lia.
Qed.

(** What [read_stream] asks for fits into the buffer and does not go beyond the
    body. *)
Lemma read_len_fits c x got :
  serves c x got →
  read_len (rem c) = Z.min (io_space_len (s_io (rem c))) (L - Z.of_nat (length got)).
Proof using HL HA.
  intros H. pose proof (got_bound _ _ _ H) as Hb. pose proof (ag_rem _ _ _ (sv_agrees _ _ _ H)) as (H1 & H2 & H3 & H4 & H5).
  unfold read_len. rewrite (sv_len _ _ _ H), (sv_total _ _ _ H). unfold io_space_len in *.
  rewrite int_small by lia. rewrite (proj2 (Z.ltb_lt 0 L)) by lia. cbn [andb]. rewrite wrap_small by lia.
  destruct (L <? _) eqn:E.
  - apply Z.ltb_lt in E. rewrite int_small by lia. lia.
  - apply Z.ltb_ge in E. lia.
Qed.

Lemma read_rem_well now c :
  in_time now → well c → io_space_len (s_io (rem c)) ≠ 0 → f_closed (s_flags (rem c)) = false →
  rx (sock c) ≠ [] ∨ rx_eof (sock c) = true →
  wp (read_rem now c) (λ c', well c' ∧ loc c' = loc c).
Proof using HL HA.
  intros Ht [(x & got & H) Hcalm] Hsp Hcl Hrx. pose proof (got_bound _ _ _ H) as Hb.
  pose proof (sv_agrees _ _ _ H) as Ha. pose proof (ag_rem _ _ _ Ha) as Hok. pose proof Hok as (H1 & H2 & H3 & H4 & H5).
  unfold read_rem. rewrite int_small by (unfold io_space_len in *; lia).
  rewrite (proj2 (Z.ltb_lt _ _)) by (unfold io_space_len in *; lia). rewrite (sv_rem _ _ _ H), Hcl. cbn [assert negb mbind res_bind].
  unfold recv. rewrite (read_len_fits _ _ _ H). set (len := Z.min (io_space_len _) _).
  assert (Hlen : 0 ≤ len ≤ io_space_len (s_io (rem c))) by (unfold len, io_space_len in *; lia).
  rewrite wrap_small by (unfold io_space_len in *; lia).
  set (k := Z.to_nat (Z.min len (Z.of_nat (length (rx (sock c)))))).
  destruct (k =? 0)%nat eqn:Ek.
  - (* nothing was read: the client closed its side *)
    apply Nat.eqb_eq in Ek. assert (Hrx0 : rx (sock c) = []).
    { destruct (rx (sock c)) as [|z l] eqn:El; [done|]. exfalso. unfold k, len in Ek. cbn [length] in *.
      unfold io_space_len in *. lia. }
    destruct Hrx as [Hrx|Hrx]; [done|]. rewrite Hrx, orb_true_r.
    cbn [Z.ltb Z.eqb]. rewrite (sv_dont _ _ _ H). cbn [mbind res_bind wp].
    split; [|done]. split; [|intros Hbt; destruct (Hcalm Hbt) as (_ & Hn & _); congruence].
    exists x, got. destruct Ha, H. split; cbn; done.
  - apply Nat.eqb_neq in Ek. cbn [mbind res_bind].
    rewrite (proj2 (Z.ltb_lt 0 (Z.of_nat k))) by lia.
    assert (Hk : (k ≤ length (rx (sock c)))%nat) by (unfold k; lia).
    destruct (io_append (s_io (rem c)) (take k (rx (sock c))) Hok) as (i1 & i2 & E1 & E2 & Hd & Hok2 & Hsz & Htot & _).
    { rewrite length_take. unfold k. lia. }
    rewrite length_take, Nat.min_l in E2, Htot by done. rewrite E1. cbn [mbind res_bind]. rewrite E2. cbn [mbind res_bind wp].
    split; [|done]. split; [|intros Hbt; destruct (Hcalm Hbt) as (? & ? & ?), (Ht Hbt); done].
    exists x, (got ++ take k (rx (sock c))). destruct Ha, H. split; cbn; try done.
    + split; cbn; try done. by rewrite Hd, app_assoc, ag_in0.
    + rewrite Htot, sv_total0, length_app, length_take, Nat.min_l, Nat2Z.inj_add by done. apply wrap_small.
      pose proof (f_equal length sv_rx0) as Hlr. rewrite length_app in Hlr. lia.
    + by rewrite <- app_assoc, take_drop.
Qed.

(** After a call, before the stream is stopped. *)
Record called (c : connection W) (x : run W) (got : list Z) : Prop := {
  cd_agrees : agrees c x got;
  cd_open : s_open (loc c) = true;
  cd_w : f_w (s_flags (loc c)) = true;
  cd_closed : f_closed (s_flags (loc c)) = false;
  cd_dont : f_dont_close (s_flags (loc c)) = negb (run_end x);
  cd_rem : s_open (rem c) = negb (f_closed (s_flags (rem c)));
  cd_parsed : f_parsed (s_flags (rem c)) = true;
  cd_rdont : f_dont_close (s_flags (rem c)) = false;
  cd_len : s_content_len (rem c) = L;
  cd_total : io_total (s_io (rem c)) = Z.of_nat (length got);
  cd_rx : got ++ rx (sock c) = A;
  cd_size : io_size (s_io (loc c)) = SZ;
  cd_hist : history_ok (calls c);
}.

(** The next call is in its place. *)
Lemma next_call_ok c x got :
  serves c x got → run_end x = false →
  call_ok (calls c) (Call (io_data (s_io (rem c))) (Z.to_nat (io_space_len (s_io (loc c)))) false).
Proof.
  intros H Hend. pose proof (sv_agrees _ _ _ H) as Ha. split; [done|]. intros y Hy.
  rewrite (ag_replay _ _ _ Ha) in Hy. injection Hy as <-. split_and!; [done| |].
  - intros Hout. cbn [out_len]. f_equal. unfold io_space_len. rewrite (sv_size _ _ _ H).
    pose proof (ag_out _ _ _ Ha) as Ho. rewrite Hout in Ho. apply app_eq_nil in Ho as [_ Ho].
    pose proof (io_data_length _ (ag_loc _ _ _ Ha)) as Hl. rewrite Ho in Hl.
    destruct (ag_loc _ _ _ Ha) as (H1 & H2 & H3 & H4 & H5). unfold io_data_len in Hl. cbn in Hl. rewrite H5; lia.
  - cbn [in_buf]. rewrite (ag_in _ _ _ Ha), <- (sv_rx _ _ _ H). by apply prefix_app_r.
Qed.

Lemma call_user_called c x got :
  serves c x got → run_end x = false → calm c →
  wp (call_user user c false) (λ c', (∃ x', called c' x' got) ∧ calm c').
Proof using Callback0 Hdef.
  intros H Hend Hcalm. pose proof (next_call_ok _ _ _ H Hend) as Hnext.
  destruct (call_user_agrees c x got false (sv_agrees _ _ _ H) Hend) as [[-> Hu]|(c' & x' & -> & Ha & _ & Fc & Fs & F)].
  { cbn [wp]. apply not_true_is_false. intros Ed.
    destruct (Hdef Ed _ _ _ (sv_hist _ _ _ H) (ag_replay _ _ _ (sv_agrees _ _ _ H)) Hnext) as [a Hu']. congruence. }
  destruct F as (F1 & F2 & F3 & F4 & F5 & F6 & F7 & F8 & F9 & F10 & F11 & F12). destruct H. cbn [wp]. split.
  - exists x'. split; try done; try congruence; [..|rewrite Fc; by apply history_snoc].
    + rewrite F4. by rewrite sv_open0, Hend.
    + rewrite F7. by rewrite sv_w0, Hend.
  - intros Hb. rewrite F10, F2, F3. by apply Hcalm.
Qed.

Lemma called_stop c x got :
  called c x got → calm c →
  wp (if f_dont_close (s_flags (loc c)) then Ok c else stop_loc user c) well.
Proof.
  intros H Hcalm. rewrite (cd_dont _ _ _ H). destruct (run_end x) eqn:E; cbn [negb].
  - unfold stop_loc, close_embedded. rewrite (cd_open _ _ _ H), (cd_dont _ _ _ H), E. cbn [negb mbind res_bind wp].
    split; [|exact Hcalm]. exists x, got. destruct H as [Ha]. destruct Ha. split; cbn; try done; try by rewrite E.
  - split; [|exact Hcalm]. exists x, got. destruct H. split; try done; by rewrite E.
Qed.

Lemma calm_expire now c : in_time now → calm c → calm (set_expire c (now + EXPIRE_TIME)).
Proof. intros Ht H Hb. destruct (H Hb) as (? & ? & ?), (Ht Hb). done. Qed.

Lemma called_expire c x got t : called c x got → called (set_expire c t) x got.
Proof. intros [[]]. by split. Qed.

Lemma serves_expire c x got t : serves c x got → serves (set_expire c t) x got.
Proof. intros [[]]. by split. Qed.

Lemma well_expire now c : in_time now → well c → well (set_expire c (now + EXPIRE_TIME)).
Proof. intros Ht [(x & got & H) Hc]. split; [exists x, got; by apply serves_expire|by apply calm_expire]. Qed.

Lemma serves_len c x got : serves c x got → s_content_len (loc c) = 0.
Proof. intros H. apply (ag_len _ _ _ (sv_agrees _ _ _ H)). Qed.

Lemma read_loc_well now c x got :
  in_time now → serves c x got → run_end x = false → calm c → io_space_len (s_io (loc c)) ≠ 0 →
  wp (read_loc user now c) well.
Proof using Callback0 Hdef.
  intros Ht H Hend Hcalm Hsp. pose proof (ag_loc _ _ _ (sv_agrees _ _ _ H)) as (H1 & H2 & H3 & H4 & H5). unfold read_loc.
  rewrite int_small by (unfold io_space_len in *; lia).
  rewrite (proj2 (Z.ltb_lt _ _)) by (unfold io_space_len in *; lia). rewrite (sv_open _ _ _ H), Hend.
  cbn [assert negb mbind res_bind]. apply wp_bind. eapply wp_mono; [by eapply call_user_called|].
  intros c1 [(x1 & Hc1) Hcalm1]. apply wp_bind. eapply wp_mono; [by eapply called_stop|].
  intros c2 Hw. pose proof Hw as [(x2 & got2 & Hs2) _]. rewrite (serves_len _ _ _ Hs2). cbn [Z.ltb mbind res_bind].
  by apply well_expire.
Qed.

Lemma write_loc_well now c x got :
  in_time now → serves c x got → run_end x = false → calm c → 0 < io_data_len (s_io (rem c)) →
  wp (write_loc user now c) well.
Proof using Callback0 Hdef.
  intros Ht H Hend Hcalm Hd. pose proof (ag_rem _ _ _ (sv_agrees _ _ _ H)) as (H1 & H2 & H3 & H4 & H5). unfold write_loc.
  rewrite int_small by (unfold io_data_len in *; lia). rewrite (proj2 (Z.ltb_lt _ _)) by lia.
  cbn [assert mbind res_bind]. apply wp_bind. eapply wp_mono; [by eapply call_user_called|].
  intros c1 [(x1 & Hc1) Hcalm1]. cbv zeta. eapply called_stop; [by apply called_expire|by apply calm_expire].
Qed.

(** [send] takes bytes or asks to wait. *)
Definition send_ok (sr : send_result) : bool := match sr with STakes (S _) | SAgain => true | _ => false end.

Lemma write_rem_well now sr c :
  in_time now → well c → (b = true → send_ok sr = true) → 0 < io_data_len (s_io (loc c)) →
  wp (write_rem now sr c) well.
Proof.
  intros Ht Hw Hsr Hd. pose proof Hw as [(x & got & H) Hcalm].
  pose proof (sv_agrees _ _ _ H) as Ha. pose proof (ag_loc _ _ _ Ha) as Hok. pose proof Hok as (H1 & H2 & H3 & H4 & H5).
  unfold write_rem. rewrite int_small by (unfold io_data_len in *; lia). rewrite (proj2 (Z.ltb_lt _ _)) by lia.
  cbn [assert mbind res_bind].
  assert (Hstop : b = false → well (stop_rem (set_expire c (now + EXPIRE_TIME)))).
  { intros Hbf. split; [|intros Hbt; congruence]. exists x, got. destruct Ha, H. split; cbn; done. }
  destruct sr as [[|k]| |].
  - cbn [rem set_expire]. rewrite (sv_dont _ _ _ H). cbn [wp]. apply Hstop. destruct b; [by specialize (Hsr eq_refl)|done].
  - set (n := Z.min (Z.of_nat (S k)) (io_data_len (s_io (loc c)))).
    destruct (io_consume (s_io (loc c)) n Hok ltac:(unfold n; lia)) as (i & E & Hdd & Hok' & Hsz & _ & _).
    rewrite E. cbn [mbind res_bind wp]. split.
    + exists x, got. destruct Ha, H. split; cbn; try done; [|by rewrite Hsz]. split; cbn; try done.
      rewrite Hdd, <- app_assoc, take_drop. done.
    + intros Hbt. destruct (Hcalm Hbt) as (? & ? & ?), (Ht Hbt). done.
  - by apply well_expire.
  - cbn [rem set_expire]. rewrite (sv_dont _ _ _ H). cbn [wp]. apply Hstop. destruct b; [by specialize (Hsr eq_refl)|done].
Qed.

(** The end of the connection: what was sent is the beginning of what the
    function put out, and all of it, to the end, when nothing was lost. *)
Definition ended (c : connection W) : Prop :=
  freed c = true ∧ ∃ cas x, cas `prefix_of` calls c ∧ replay cas = Some x ∧
    sent c `prefix_of` run_out x ∧ run_in x `prefix_of` A ∧
    (b = true → run_end x = true ∧ sent c = run_out x ∧ cas = calls c ∧ history_ok cas ∧ world c = run_w x).

Lemma destructor_ends c :
  well c →
  (b = true → f_closed (s_flags (loc c)) = true ∧ io_data_len (s_io (loc c)) = 0) →
  wp (connection_desctructor user c) (λ p, p.1 = false ∧ ended p.2).
Proof using Callback0 HA Hdef Hdb.
  intros [(x & got & H) Hcalm] Hb. pose proof (sv_agrees _ _ _ H) as Ha. unfold connection_desctructor.
  assert (Hfin : ∀ c', sent c' = sent c → calls c `prefix_of` calls c' → (b = true → calls c' = calls c ∧ world c' = world c) →
    s_content_len (loc c') = 0 →
    negb (wants_close c') && (0 <? s_content_len (loc c')) = false ∧ ended (set_freed c')).
  { intros c' Hs Hc Hcb Hlen. rewrite Hlen, andb_false_r. split; [done|]. split; [done|].
    exists (calls c), x. cbn [calls sent set_freed]. rewrite Hs. split_and!; [done|apply (ag_replay _ _ _ Ha)|..].
    - rewrite <- (ag_out _ _ _ Ha). by eexists.
    - rewrite <- (sv_rx _ _ _ H), <- (ag_in _ _ _ Ha), <- app_assoc. by eexists.
    - intros Hbt. destruct (Hb Hbt) as [Hcl Hd], (Hcb Hbt) as [Hc1 Hc2]. rewrite (sv_closed _ _ _ H) in Hcl.
      split_and!; [done| |by rewrite Hc1|apply (sv_hist _ _ _ H)|cbn [world set_freed]; by rewrite Hc2, (ag_world _ _ _ Ha)].
      rewrite <- (ag_out _ _ _ Ha). pose proof (io_data_length _ (ag_loc _ _ _ Ha)) as Hl. rewrite Hd in Hl.
      destruct (io_data (s_io (loc c))); [by rewrite app_nil_r|simpl in Hl; lia]. }
  assert (Hend : ∀ c', negb (wants_close c') && (0 <? s_content_len (loc c')) = false ∧ ended (set_freed c') →
    wp (keep_or_free c') (λ p, p.1 = false ∧ ended p.2)) by (intros c' [He ?]; unfold keep_or_free; by rewrite He).
  rewrite (sv_open _ _ _ H). destruct (run_end x) eqn:E; cbn [negb].
  - apply Hend, Hfin; [done|done|done|by eapply serves_len].
  - unfold close_embedded. destruct (f_dont_close _).
    + destruct (call_user_agrees c x got true Ha E) as [[-> _]|(c' & x' & -> & Ha' & Hs & Hc & _)].
      { cbn [wp]. apply not_true_is_false. intros Hbt%Hdb%Hb. destruct Hbt as [Hbt _]. by rewrite (sv_closed _ _ _ H), E in Hbt. }
      apply Hend, Hfin; [done|rewrite Hc; by eexists| |apply (ag_len _ _ _ Ha')].
      intros Hbt. destruct (Hb Hbt) as [Hcl _]. rewrite (sv_closed _ _ _ H) in Hcl. congruence.
    + apply Hend, Hfin; [done|done|done|by eapply serves_len].
Qed.

Definition alive (c : connection W) : Prop :=
  well c ∧ f_closed (s_flags (rem c)) = false.

Lemma process_well now sr rr lr fuel c :
  in_time now → alive c → (b = true → send_ok sr = true) →
  (rr = true → rx (sock c) ≠ [] ∨ rx_eof (sock c) = true) → (lr = true → s_open (loc c) = true) →
  wp (process_connection user decide (S fuel) now sr rr lr c) (λ c', alive c' ∨ ended c').
Proof using Callback0 HL HA Hdef Hdb.
  intros Ht [Hw Hcl] Hsr Hrr Hlr. cbn [process_connection]. apply wp_bind.
  eapply (wp_mono _ (λ c1, well c1 ∧ loc c1 = loc c)).
  { destruct (rr && _) eqn:E; [|done]. apply andb_true_iff in E as [-> Hsp%negb_true_iff%Z.eqb_neq].
    apply read_rem_well; auto. }
  intros c1 [Hw1 Hl1]. pose proof Hw1 as [(x1 & got1 & H1) Hc1]. rewrite (sv_parsed _ _ _ H1). cbn [mbind res_bind].
  apply wp_bind. eapply (wp_mono _ well).
  { destruct (lr && _) eqn:E; [|done]. apply andb_true_iff in E as [-> Hsp%negb_true_iff%Z.eqb_neq].
    eapply read_loc_well; try done. specialize (Hlr eq_refl). rewrite <- Hl1, (sv_open _ _ _ H1) in Hlr.
    by destruct (run_end x1). }
  intros c2 Hw2. pose proof Hw2 as [(x2 & got2 & H2) Hc2]. apply wp_bind. eapply (wp_mono _ well).
  { destruct (_ && _ && _) eqn:E; [|done].
    apply andb_true_iff in E as [[Hd%Z.ltb_lt _]%andb_true_iff Ho]. eapply write_loc_well; try done.
    rewrite (sv_open _ _ _ H2) in Ho. by destruct (run_end x2). }
  intros c3 Hw3. apply wp_bind. eapply (wp_mono _ well).
  { destruct (_ && _) eqn:E; [|done]. apply andb_true_iff in E as [Hd%Z.ltb_lt _]. by apply write_rem_well. }
  intros c4 Hw4. destruct (_ || _) eqn:E.
  - apply wp_bind. eapply wp_mono; [eapply destructor_ends; [done|]|].
    + intros Hb. destruct Hw4 as [_ Hc4]. destruct (Hc4 Hb) as (C1 & _ & C3). destruct (Ht Hb). rewrite C1, (proj2 (Z.ltb_ge (expire_time c4) now)) in E by lia.
      cbn [orb] in E. apply andb_true_iff in E as [-> Hd%Z.eqb_eq]. done.
    + intros [again c5]. cbn [fst snd]. intros [-> He]. cbn [wp]. by right.
  - apply orb_false_iff in E as [[_ E]%orb_false_iff _]. left. done.
Qed.
End Serving.

Section Turns.
Context {W : Type}.
Context (user : conn → option rstate → call → W → option (answer W)) `{!Callback user}.
Context (decide : conn → option decision) (r0 : conn) (w0 : W) (d : bool) (L SZ : Z) (b : bool) (T : Z).
Hypothesis HL : 0 < L < 2 ^ 63.
Hypothesis Hdb : d = true → b = true.

(** All of what arrives; the function is defined on what may happen until
    then. *)
Context (F : list Z).
Hypothesis HF : Z.of_nat (length F) ≤ L.
Hypothesis Hdef : d = true → ∀ cas x ca, history_ok user r0 w0 F SZ cas → replay user r0 w0 cas = Some x →
  call_ok user r0 w0 F SZ cas ca → is_Some (user (run_req x) (run_state x) ca (run_w x)).

(** An event in which nothing is lost. *)
Definition event_ok (ev : event) : Prop :=
  in_time b T (ev_now ev) ∧ (b = true → send_ok (ev_send ev) = true ∧ ev_eof ev = false).

Notation alive' A := (alive user r0 w0 L A SZ b T).
Notation ended' A := (ended user r0 w0 A SZ b).

Lemma history_more A A' cas : history_ok user r0 w0 A SZ cas → history_ok user r0 w0 (A ++ A') SZ cas.
Proof.
  intros H pre ca post E. destruct (H pre ca post E) as [H1 H2]. split; [done|]. intros y Hy.
  destruct (H2 y Hy) as (H3 & H4 & H5). split_and!; [done..|]. by apply prefix_app_r.
Qed.

Lemma alive_arrive A c ev :
  event_ok ev → alive' A c → alive' (A ++ ev_in ev) (set_sock c (arrive ev (sock c))).
Proof.
  intros [_ Hev] [[(x & got & H) Hcalm] Hcl]. split; [|done]. split.
  - exists x, got. destruct H as [Ha]. destruct Ha. split; try done; cbn; [by rewrite app_assoc, sv_rx0|].
    by apply (history_more A).
  - intros Hb. destruct (Hcalm Hb) as (H1 & H2 & H3), (Hev Hb) as [_ H4]. cbn. by rewrite H2, H4.
Qed.

Lemma ended_more A A' c : ended' A c → ended' (A ++ A') c.
Proof.
  intros (Hf & cas & x & H1 & H2 & H3 & H4 & H5). split; [done|]. exists cas, x. split_and!; try done.
  - by apply prefix_app_r.
  - intros Hb. destruct (H5 Hb) as (? & ? & ? & ? & ?). split_and!; try done. by apply history_more.
Qed.

Lemma process_serves A c now sr rr lr fuel :
  in_time b T now → (b = true → send_ok sr = true) → A `prefix_of` F → alive' A c →
  (rr = true → rx (sock c) ≠ [] ∨ rx_eof (sock c) = true) → (lr = true → s_open (loc c) = true) →
  wp d (process_connection user decide (S fuel) now sr rr lr c) (λ c', alive' A c' ∨ ended' A c').
Proof using Callback0 HL Hdb Hdef HF.
  intros Ht Hsr HA Hal Hrr Hlr. apply process_well; try done.
  - apply prefix_length in HA. lia.
  - intros Hd cas x' ca Hh Hrep Hc. destruct HA as [F' HA]. apply (Hdef Hd cas); [|done|].
    + rewrite HA. by apply history_more.
    + destruct Hc as [H1 H2]. split; [done|]. intros y Hy. destruct (H2 y Hy) as (H3 & H4 & H5). split_and!; [done..|].
      rewrite HA. by apply prefix_app_r.
Qed.

Lemma turn_serves A c ev :
  event_ok ev → A ++ ev_in ev `prefix_of` F → alive' A c →
  wp d (turn user decide c ev) (λ c', alive' (A ++ ev_in ev) c' ∨ ended' (A ++ ev_in ev) c').
Proof using Callback0 HL Hdb Hdef HF.
  intros Hev HA Hal. pose proof Hal as [[(x & got & H) _] _]. unfold turn.
  rewrite (ag_freed _ _ _ _ _ _ (sv_agrees _ _ _ _ _ _ _ _ _ H)).
  pose proof (alive_arrive A c ev Hev Hal) as Hal'. destruct Hev as [Ht Hev].
  apply process_serves; try done.
  - intros Hb. by destruct (Hev Hb).
  - intros [_ Hr]%andb_true_iff. apply orb_true_iff in Hr as [Hr|Hr]; [left|by right].
    apply Nat.ltb_lt in Hr. intros He. rewrite He in Hr. simpl in Hr. lia.
  - by intros [? _]%andb_true_iff.
Qed.

Lemma turns_freed c evs : freed c = true → turns user decide c evs = Ok c.
Proof. intros Hf. induction evs as [|ev evs IH]; [done|]. cbn [turns]. unfold turn. rewrite Hf. done. Qed.

(** What arrives in a sequence of turns. *)
Definition arrivals (evs : list event) : list Z := mjoin (ev_in <$> evs).

Lemma turns_serve evs : ∀ A c,
  Forall event_ok evs → A ++ arrivals evs `prefix_of` F → alive' A c →
  wp d (turns user decide c evs) (λ c', alive' (A ++ arrivals evs) c' ∨ ended' (A ++ arrivals evs) c').
Proof using Callback0 HL Hdb Hdef HF.
  induction evs as [|ev evs IH]; intros A c Hevs HA Hal; cbn [turns].
  - unfold arrivals. cbn. rewrite app_nil_r. by left.
  - apply Forall_cons in Hevs as [Hev Hevs]. change (arrivals (ev :: evs)) with (ev_in ev ++ arrivals evs) in *.
    rewrite app_assoc in *. apply wp_bind. eapply wp_mono; [apply (turn_serves A); try done|].
    { by eapply prefix_app_l. }
    intros c' [Hc'|Hc']; [by apply IH|]. rewrite turns_freed by apply Hc'. right. by apply ended_more.
Qed.
End Turns.

(** A connection whose request has just been handed to the function: [got] of
    the body is in its buffer, and more has arrived. *)
Definition accepted {W} (c : connection W) (r : conn) (w : W) (L : Z) (got : list Z) : Prop :=
  req c = Some r ∧ emb_state c = None ∧ world c = w ∧ calls c = [] ∧ sent c = [] ∧ freed c = false ∧
  io_data (s_io (loc c)) = [] ∧ io_ok (s_io (loc c)) ∧ s_content_len (loc c) = 0 ∧
  s_open (loc c) = true ∧ f_w (s_flags (loc c)) = true ∧ f_closed (s_flags (loc c)) = false ∧
  io_data (s_io (rem c)) = got ∧ io_ok (s_io (rem c)) ∧ io_total (s_io (rem c)) = Z.of_nat (length got) ∧
  s_content_len (rem c) = L ∧ s_open (rem c) = true ∧ f_parsed (s_flags (rem c)) = true ∧
  f_closed (s_flags (rem c)) = false ∧ f_dont_close (s_flags (rem c)) = false.

Lemma accepted_alive {W} user (c : connection W) r w L got b T :
  accepted c r w L got → (b = true → rx_eof (sock c) = false ∧ T ≤ expire_time c) →
  alive user r w L (got ++ rx (sock c)) (io_size (s_io (loc c))) b T c.
Proof.
  intros (?&?&?&Hc&Hs&?&Hd&?&?&?&?&?&?&?&?&?&Ho&?&Hcl&?) Hb.
  split; [|done]. split; [|intros Hbt; destruct (Hb Hbt); done].
  exists (Run [] [] r None false w), got. split; try done; [|by rewrite Ho, Hcl|].
  2: { rewrite Hc. by intros [] ? ?. }
  split; cbn; try done; [by rewrite Hc|by rewrite Hs, Hd].
Qed.


(** ** The listener keeps to its buffers *)

Lemma printf_bound room out s : (length out ≤ room)%nat → (length (shttpd_printf room out s) ≤ room)%nat.
Proof.
  intros H. unfold shttpd_printf. destruct (_ =? 0)%nat eqn:E; [done|]. apply Nat.eqb_neq in E.
  destruct (_ <? _)%nat eqn:E2; rewrite !length_app, ?length_take, ?codes_length; cbn [length].
  - apply Nat.ltb_lt in E2. lia.
  - lia.
Qed.

Lemma send_head_bound package room status enc st : (length (send_head package room status enc st) ≤ room)%nat.
Proof.
  unfold send_head. destruct (rtype st =? 1); repeat apply printf_bound; simpl; lia.
Qed.

Definition bounded {W} (room avail : nat) (o : option (answer W)) : Prop :=
  ∀ a, o = Some a → (an_consumed a ≤ avail)%nat ∧ (length (an_out a) ≤ room)%nat.

Lemma bounded_bind {W X} room avail (o : option X) (f : X → option (answer W)) :
  (∀ x, bounded room avail (f x)) → bounded room avail (o ≫= f).
Proof. intros H a. destruct o as [x|]; [apply H|done]. Qed.

Lemma send_body_bounded {W} room out st consumed b (w : W) :
  (length out ≤ room)%nat → bounded room consumed (send_body room out st consumed b w).
Proof.
  intros Ho a. unfold send_body. destruct (_ <=? _)%nat eqn:E; intros [= <-]; cbn [an_consumed an_out];
    (split; [done|]); rewrite length_app, ?length_take, ?length_drop; [lia|]. apply Nat.leb_gt in E. lia.
Qed.

Lemma answer_bounded {W} room avail out fin consumed st b (w : W) :
  (length out ≤ room)%nat → (consumed ≤ avail)%nat →
  bounded room avail (Some (Answer out fin consumed st b w)).
Proof. intros Ho Hc a [= <-]. done. Qed.

Create HintDb bounds.
#[export] Hint Resolve printf_bound send_head_bound send_body_bounded answer_bounded Nat.le_0_l : bounds.

Global Instance server_callback_bounded {W} dispatch check cim load idf anonf package :
  Callback (W := W) (server_callback dispatch check cim load idf anonf package).
Proof.
  intros r st ca w a.
  enough (H : bounded (out_len ca) (length (in_buf ca)) (server_callback dispatch check cim load idf anonf package r st ca w))
    by apply H.
  unfold server_callback. destruct (conn_error ca && _); [auto with bounds|].
  apply bounded_bind. intros [[s|] b]; [|apply answer_bounded; [apply printf_bound; simpl; lia|lia]].
  destruct (response _); [|destruct (_ <? _); [auto with bounds|]].
  { intros a' Ha. apply send_body_bounded in Ha; [|simpl; lia]. lia. }
  destruct (str_eqb _ "/wsman"); [|destruct (str_prefix _ _); [|destruct (str_eqb _ _)]].
  - unfold serve_wsman. apply bounded_bind. intros [status' b1]. destruct (negb _); [auto with bounds|].
    apply bounded_bind. intros [enc b2]. apply bounded_bind. intros [cr b3]. apply bounded_bind. intros [[w' status2] resp].
    auto with bounds.
  - unfold serve_indication. apply bounded_bind. intros [enc b1]. apply bounded_bind. intros [h1 b2].
    apply bounded_bind. intros [h2 b3]. destruct h1, h2; [|auto with bounds..].
    apply bounded_bind. intros [[[w' status2] [[code msg]|]] resp]; [|auto with bounds].
    apply send_body_bounded. repeat apply printf_bound. simpl. lia.
  - unfold serve_anonymous. destruct (match anonf with StrP _ => _ | _ => _ end); [auto with bounds|].
    apply answer_bounded; [apply printf_bound; simpl; lia|done].
  - apply answer_bounded; [apply printf_bound; simpl; lia|done].
Qed.

(** ** Reading the first bytes *)

(** A connection that waits for a request, of which [got] has been read. *)
Record waiting {W} (c : connection W) (got : list Z) : Prop := {
  wt_freed : freed c = false;
  wt_rem : io_ok (s_io (rem c));
  wt_data : io_data (s_io (rem c)) = got;
  wt_size : io_size (s_io (rem c)) = 16384;
  wt_tail : io_tail (s_io (rem c)) = 0;
  wt_total : io_total (s_io (rem c)) = Z.of_nat (length got);
  wt_clen : s_content_len (rem c) = 0;
  wt_open : s_open (rem c) = true;
  wt_flags : s_flags (rem c) = no_flags;
  wt_loc : s_open (loc c) = false;
  wt_lflags : s_flags (loc c) = no_flags;
  wt_lclen : s_content_len (loc c) = 0;
  wt_lio : io_ok (s_io (loc c));
  wt_ldata : io_data (s_io (loc c)) = [];
  wt_lsize : io_size (s_io (loc c)) = 16384;
  wt_calls : calls c = [];
  wt_sent : sent c = [];
}.

Lemma add_socket_waits {W} now (w : W) : waiting (add_socket now w) [].
Proof.
  assert (Hs : io_size new_io = 16384) by (unfold io_size, new_io; cbn [io_buf]; rewrite length_replicate; reflexivity).
  assert (Hok : io_ok new_io) by (unfold io_ok; rewrite Hs; cbn; lia).
  exact (Build_waiting _ (add_socket now w) [] eq_refl Hok eq_refl Hs eq_refl eq_refl eq_refl eq_refl eq_refl eq_refl
    eq_refl eq_refl Hok eq_refl Hs eq_refl eq_refl).
Qed.

(** Before the length of a body is known, as much is read as there is room
    for. *)
Lemma read_rem_start {W} now (c : connection W) :
  io_ok (s_io (rem c)) → s_content_len (rem c) = 0 → s_open (rem c) = true →
  io_space_len (s_io (rem c)) ≠ 0 → rx (sock c) ≠ [] →
  let k := Z.to_nat (Z.min (io_space_len (s_io (rem c))) (Z.of_nat (length (rx (sock c))))) in
  ∃ i, read_rem now c = Ok (set_expire (set_rem (set_sock c (Socket (drop k (rx (sock c))) (rx_eof (sock c))))
                             (set_io (rem c) i)) (now + EXPIRE_TIME)) ∧
    io_data i = io_data (s_io (rem c)) ++ take k (rx (sock c)) ∧ io_ok i ∧ io_size i = io_size (s_io (rem c)) ∧
    io_total i = wrap64 (io_total (s_io (rem c)) + Z.of_nat k) ∧ (0 < k)%nat ∧ io_tail i = io_tail (s_io (rem c)).
Proof.
  intros Hok Hlen Hopen Hsp Hrx k. pose proof Hok as (H1 & H2 & H3 & H4 & H5). unfold io_space_len in *.
  assert (Hk : (0 < k ≤ length (rx (sock c)))%nat).
  { unfold k. destruct (rx (sock c)); [done|]. cbn [length]. lia. }
  assert (Hrl : read_len (rem c) = io_size (s_io (rem c)) - io_head (s_io (rem c))).
  { unfold read_len, io_space_len. rewrite Hlen, int_small by lia. done. }
  unfold read_rem. rewrite Hrl. unfold io_space_len. rewrite int_small by lia.
  rewrite (proj2 (Z.ltb_lt 0 (io_size (s_io (rem c)) - io_head (s_io (rem c))))) by lia. rewrite Hopen. cbn [assert mbind res_bind].
  unfold recv. rewrite wrap_small by lia. fold k. rewrite (proj2 (Nat.eqb_neq _ _)) by lia.
  rewrite (proj2 (Z.ltb_lt 0 (Z.of_nat k))) by lia.
  destruct (io_append (s_io (rem c)) (take k (rx (sock c))) Hok) as (i1 & i & E1 & E2 & Hd & Hok' & Hsz & Ht & Htl & Hbf).
  { rewrite length_take. unfold io_space_len, k. lia. }
  rewrite length_take, Nat.min_l in E2, Ht by lia. exists i. rewrite E1. cbn [mbind res_bind]. rewrite E2.
  cbn [mbind res_bind]. split_and!; try done; lia.
Qed.

(** An error is put into an empty buffer. *)
Lemma send_server_error_ok {W} user (c : connection W) st reason :
  s_open (loc c) = false → 0 < io_size (s_io (loc c)) →
  ∃ c', _shttpd_send_server_error user c st reason = Ok c' ∧ rem c' = rem c ∧ sock c' = sock c ∧
    f_closed (s_flags (loc c')) = true ∧ s_open (loc c') = false ∧ s_content_len (loc c') = 10 ∧ f_w (s_flags (loc c')) = false.
Proof.
  intros Ho Hs. unfold _shttpd_send_server_error, io_store. cbn [io_head io_clear].
  assert (Hlen : ∀ n s, (String.length (str_take n s) ≤ n)%nat).
  { induction n as [|n IH]; intros [|a s]; cbn [str_take String.length]; try lia. specialize (IH s). lia. }
  pose proof (Hlen (Z.to_nat (io_size (io_clear (s_io (loc c)))) - 1)%nat (error_text st reason)) as Hl.
  rewrite (proj2 (Z.ltb_ge _ _)) by (rewrite codes_length; unfold io_size in *; cbn [io_buf io_clear] in *; lia).
  cbn [mbind res_bind]. unfold stop_loc. cbn [loc set_status set_loc set_content_len set_io s_open]. rewrite Ho.
  cbn [mbind res_bind]. eexists. split; [reflexivity|]. cbn. done.
Qed.

(** A turn of a connection that waits begins with reading. *)
Lemma turn_reads {W} user decide (c : connection W) got ev :
  waiting c got → Z.of_nat (length got) < 16384 → rx (sock c) ++ ev_in ev ≠ [] →
  let l := rx (sock c) ++ ev_in ev in
  let k := Z.to_nat (Z.min (16384 - Z.of_nat (length got)) (Z.of_nat (length l))) in
  ∃ c1, waiting c1 (got ++ take k l) ∧ sock c1 = Socket (drop k l) (rx_eof (sock c) || ev_eof ev) ∧
    expire_time c1 = ev_now ev + EXPIRE_TIME ∧ world c1 = world c ∧ (0 < k)%nat ∧
    turn user decide c ev = process_connection user decide (S (S (Z.to_nat 16384))) (ev_now ev) (ev_send ev) false false c1.
Proof.
  intros Hw Hlen Hne l k. destruct Hw. unfold turn. rewrite wt_freed0.
  set (c0 := set_sock c (arrive ev (sock c))).
  assert (Hsp : io_space_len (s_io (rem c)) = 16384 - Z.of_nat (length got)).
  { unfold io_space_len. rewrite wt_size0, <- wt_data0, (io_data_length _ wt_rem0). unfold io_data_len. rewrite wt_tail0. lia. }
  assert (Hrx : rx (sock c0) = l) by done.
  destruct (read_rem_start (ev_now ev) c0) as (i & E & Hd & Hok & Hsz & Htot & Hk & Htl); try done.
  { change (rem c0) with (rem c). lia. }
  change (rem c0) with (rem c) in *. rewrite Hrx, Hsp in *. fold k in E, Hd, Htot, Hk.
  eexists. split_and!.
  6: { rewrite wt_size0. generalize (S (Z.to_nat 16384)) as fuel. intros fuel. cbn [process_connection].
       change (loc c0) with (loc c). rewrite wt_loc0. rewrite (proj2 (Z.eqb_neq _ _)) by lia.
       replace (0 <? length l)%nat with true by (symmetry; apply Nat.ltb_lt; destruct l; [done|simpl; lia]).
       change (rem c0) with (rem c). rewrite Hsp, (proj2 (Z.eqb_neq _ _)) by lia. cbn [negb andb orb]. rewrite E. reflexivity. }
  - split; cbn; try done; try congruence.
    rewrite Htot, wt_total0, length_app, length_take, Nat.min_l, Nat2Z.inj_add by (unfold k; lia).
    apply wrap_small. unfold k. lia.
  - done.
  - done.
  - done.
  - done.
Qed.

Lemma chr_code a : chr (code a) = a.
Proof. apply code_inj. by rewrite code_chr by apply code_range. Qed.

(** Two bytes end the server: a client that sends a control character and
    one more byte on a new connection makes an assertion of the buffers fail,
    whatever follows and without any credentials. *)
Theorem control_character_ends_server {W} user decide now (w : W) a z l ev :
  char_allowed a = false → ev_in ev = code a :: z :: l →
  turn user decide (add_socket now w) ev = Bad AssertFails.
Proof.
  intros Ha Hin.
  destruct (turn_reads user decide (add_socket now w) [] ev (add_socket_waits now w)) as (c1 & Hw & _ & _ & _ & Hk & ->);
    [done|by rewrite Hin|]. cbn [rx sock add_socket app] in *. rewrite Hin in Hw, Hk.
  set (k := Z.to_nat _) in *. assert (Hk2 : ∃ k', k = S (S k')).
  { unfold k in *. cbn [length] in *. exists (Z.to_nat (Z.min 16384 (Z.of_nat (S (S (length l))))) - 2)%nat. lia. }
  destruct Hk2 as (k' & Hk2). rewrite Hk2 in Hw. cbn [take] in Hw. destruct Hw. generalize (S (Z.to_nat 16384)) as fuel.
  intros fuel. cbn [process_connection andb mbind res_bind].
  rewrite wt_flags0. cbn [f_parsed no_flags]. unfold parse_request, parse_http_request.
  rewrite wt_data0. cbn [str_of_codes]. rewrite chr_code. unfold _shttpd_get_headers_len. cbn [headers_len_loop].
  rewrite Ha. cbn [negb Z.eqb Z.ltb Z.compare].
  destruct (send_server_error_ok user c1 400 "Bad request" wt_loc0 ltac:(lia)) as (c' & -> & Hr & _).
  cbn [mbind res_bind]. rewrite Hr. unfold io_inc_tail at 1. destruct wt_rem0 as (H1 & H2 & H3 & H4 & H5).
  rewrite (proj2 (Z.leb_le _ _) H2), (proj2 (Z.leb_le _ _) H3). cbn [andb assert mbind res_bind]. rewrite wt_tail0.
  change (wrap64 (0 + wrap64 (-1))) with (2 ^ 64 - 1). rewrite (proj2 (Z.leb_gt _ _)) by lia. done.
Qed.

Lemma control_character_ends_server_witness :
  char_allowed (chr 1) = false ∧
  turn (λ _ _ _ _, None) (λ _, None) (add_socket 0 ()) (Event 0 [1; 65] false SAgain) = Bad AssertFails.
Proof.
  split; [reflexivity|].
  exact (control_character_ends_server (λ _ _ _ _, None) (λ _, None) 0 () (chr 1) 65 [] (Event 0 [1; 65] false SAgain)
    eq_refl eq_refl).
Defined.

(** A request without credentials that sends more than the length it
    announces. *)
Definition overlong_request : string :=
  "POST /wsman HTTP/1.1" +:+ crlf +:+ "Content-Length: 1" +:+ crlf +:+ crlf +:+ "0123456789".


Lemma new_io_ok : io_ok new_io ∧ io_size new_io = 16384.
Proof.
  destruct (add_socket_waits 0 ()) as [_ Hok _ Hs]. exact (conj Hok Hs).
Qed.

Definition sample_connection : connection nat :=
  Connection (Stream new_io true 5 (Flags true false false true true false))
    (Stream new_io true 0 (Flags false false false true true true)) (Socket [] false)
    (Some (Conn "/wsman" (intact wire_headers) (_shttpd_parse_headers (intact wire_headers)))) (1, 1) None 3600 0
    false [] [] 0%nat.

Definition sample_callback : conn → option rstate → call → nat → option (answer nat) :=
  server_callback echo (λ _ _, false) (λ w _ _ _, Some (w, 0, None, [])) (λ _, None) NULLp NULLp "Openwsman".

Global Instance sample_callback_bounded : Callback sample_callback.
Proof. apply server_callback_bounded. Qed.

