(* ===== verification/Exchange.v ===== *)
(** * A whole exchange on the wire

    A client sends a request with its body, in pieces of any size, to a new
    connection; the server reads it, checks the credentials, dispatches it once
    and sends the response back in pieces of any size.  This composes the
    connection (Connection), the HTTP server (Http) and the listener (Listener):
    the bytes the client gets are those of the response. *)

From S2P Require Import Prelude CString Uri Base64 Ini Options Client Daemon Http Listener HttpProofs Connection ConnectionProofs.
From Stdlib Require Import Ascii.
Local Open Scope string_scope.
Local Open Scope list_scope.
Local Open Scope Z_scope.
Local Open Scope ow_scope.

(** ** Requests that are not complete *)

Lemma headers_len_cons n a b t : headers_len_loop n (String a (String b t)) =
  if negb (char_allowed a) then -1 else if (code a =? 10) && (code b =? 10) then n + 2
  else if (code a =? 10) && (code b =? 13) && match t with String c _ => code c =? 10 | EmptyString => false end
  then n + 3 else headers_len_loop (n + 1) (String b t).
Proof. done. Qed.

Lemma headers_len_range s : ∀ n, 0 ≤ n →
  headers_len_loop n s = 0 ∨ headers_len_loop n s = -1 ∨ n + 2 ≤ headers_len_loop n s.
Proof.
  induction s as [|a s IH]; intros n Hn; [by left|]. destruct s as [|b s]; [by left|].
  specialize (IH (n + 1) ltac:(lia)). rewrite headers_len_cons.
  destruct (negb _); [lia|]. destruct (_ && (code b =? 10)); [lia|]. destruct (_ && _ && _); lia.
Qed.

(** Where the headers end does not depend on what follows, and what is shorter
    has no end. *)
Lemma headers_len_take s : ∀ n k, 0 ≤ n → 0 < headers_len_loop n s →
  headers_len_loop n (str_take k s) =
  if n + Z.of_nat k <? headers_len_loop n s then 0 else headers_len_loop n s.
Proof.
  induction s as [|a s IH]; intros n k Hn Hr; [cbn in Hr; lia|].
  destruct s as [|b s2]; [cbn in Hr; lia|]. pose proof (headers_len_range (String a (String b s2)) n Hn) as Hg.
  destruct k as [|[|j]].
  1,2: rewrite (proj2 (Z.ltb_lt _ _)) by lia; done.
  change (str_take (S (S j)) (String a (String b s2))) with (String a (String b (str_take j s2))).
  pose proof (IH (n + 1) (S j) ltac:(lia)) as IHj. cbn [str_take] in IHj.
  rewrite !headers_len_cons in *. destruct (negb (char_allowed a)); [lia|].
  destruct ((code a =? 10) && (code b =? 10)); [by rewrite (proj2 (Z.ltb_ge _ _)) by lia|].
  replace (n + 1 + Z.of_nat (S j)) with (n + Z.of_nat (S (S j))) in IHj by lia.
  destruct ((code a =? 10) && (code b =? 13)); cbn [andb] in *; [|by apply IHj].
  destruct s2 as [|c s3]; [by destruct j; apply IHj|]. destruct j as [|j]; cbn [str_take] in *.
  - destruct (code c =? 10); [|by apply IHj]. rewrite (proj2 (Z.ltb_lt _ _)) by lia. done.
  - destruct (code c =? 10); [|by apply IHj]. by rewrite (proj2 (Z.ltb_ge _ _)) by lia.
Qed.

(** ** The phases of an exchange *)

Section Phases.
Context {W : Type}.
Context (dispatch : W → list Z → string → option (string * string) → option (W * Z * list Z)).
Context (check_identify : list Z → string → bool).
Context (cim_call : W → list Z → string → option string → option (W * Z * option (Z * string) * list Z)).
Context (load : string → option (list Z)) (idfile anonfile : char_ptr) (package : string).
Notation user := (server_callback dispatch check_identify cim_call load idfile anonfile package).

(** The request: its headers, its body and its credentials; the response. *)
Context (hs : list (string * string)) (F : list Z) (auth : vec) (creds : option (string * string)) (lt enc : string).
Context (w w' : W) (status : Z) (resp : list Z).
Hypothesis Hhs : forallb header_ok hs = true.
Hypothesis Hlen : forallb (name_ok "Content-Length") hs = true.
Hypothesis Htype : forallb (name_ok "Content-Type") hs = true.
Hypothesis Hcl : hlookup "Content-Length" hs = Some lt.
Hypothesis HF : strtoul_value lt = Z.of_nat (length F).
Hypothesis HF0 : F ≠ [].
Hypothesis Hct : content_type_ok (hlookup "Content-Type" hs) = true.
Hypothesis Henc : encoding_of (hlookup "Content-Type" hs) = Some enc.
Hypothesis Hcred : ∀ b, headers_of b hs → ∃ b', shttpd_get_credentials b auth = Some (creds, b') ∧ headers_of b' hs.
Hypothesis Hid : ptr_null idfile = true ∨ check_identify F enc = false.
Hypothesis Hdisp : dispatch w F enc creds = Some (w', status, resp).

Definition reply_head_text : string := head_text package status enc (Z.of_nat (length resp)) 0.
Definition reply : list Z := codes reply_head_text ++ resp.

Hypothesis Hroom : Z.of_nat (String.length reply_head_text) < 16384.

(** The body is collected; the response is on its way; it is complete. *)
Inductive phase (x : run W) : Prop :=
  | Collecting :
      run_end x = false → run_out x = [] → run_w x = w → Z.of_nat (length (run_in x)) < Z.of_nat (length F) →
      default (RState (strtoul_value lt) 0 [] None 0 0) (run_state x) =
        RState (strtoul_value lt) (Z.of_nat (length (run_in x))) (run_in x) None 0 0 →
      phase x
  | Responding st :
      run_end x = false → run_state x = Some st → response st = Some resp → (index st ≤ length resp)%nat →
      run_out x = codes reply_head_text ++ take (index st) resp → run_w x = w' → phase x
  | Complete : run_end x = true → run_out x = reply → run_w x = w' → phase x.

Definition exchange_ok (x : run W) : Prop :=
  c_uri (run_req x) = "/wsman" ∧ headers_of (c_headers (run_req x)) hs ∧
  header_vec (c_ch (run_req x)) "Authorization: " = auth ∧ phase x.

Definition next_run (x : run W) (ca : call) (a : answer W) : run W :=
  Run (run_out x ++ an_out a) (run_in x ++ take (an_consumed a) (in_buf ca))
    (Conn (c_uri (run_req x)) (an_headers a) (c_ch (run_req x))) (an_state a) (an_end a) (an_w a).

(** What [send_body] does to a response of which a part has been sent. *)
Lemma send_body_phase room out st consumed b (x : run W) ca :
  (length out ≤ room)%nat → response st = Some resp → (index st ≤ length resp)%nat →
  c_uri (run_req x) = "/wsman" → headers_of b hs → header_vec (c_ch (run_req x)) "Authorization: " = auth →
  run_out x ++ out = codes reply_head_text ++ take (index st) resp →
  ∃ a, send_body room out st consumed b w' = Some a ∧ exchange_ok (next_run x ca a).
Proof.
  intros Ho Hr Hi Hu Hb Hv Hout. unfold send_body. rewrite Hr. cbn [default id].
  set (k := (room - length out)%nat). destruct (k <=? _)%nat eqn:E; eexists; (split; [reflexivity|]);
    (split_and!; [done..|]); unfold next_run; cbn [an_out an_end an_state an_w an_headers an_consumed].
  - apply Nat.leb_le in E.
    eapply Responding; cbn [run_end run_state run_out run_w]; try reflexivity; cbn [response index]; [lia|].
    rewrite app_assoc, Hout, <- app_assoc. f_equal. by rewrite take_take_drop.
  - apply Complete; cbn [run_end run_out run_w]; try done. rewrite app_assoc, Hout, <- app_assoc, take_drop. done.
Qed.

Lemma phase_step x ca :
  exchange_ok x → run_end x = false → conn_error ca = false →
  (run_out x = [] → out_len ca = Z.to_nat 16384) → run_in x ++ in_buf ca `prefix_of` F →
  ∃ a, user (run_req x) (run_state x) ca (run_w x) = Some a ∧ exchange_ok (next_run x ca a).
Proof using All.
  intros (Hu & Hb & Hv & Hp) Hend Herr Hout Hin. unfold server_callback. rewrite Herr. cbn [andb].
  destruct (get_length hs Hhs Hlen _ Hb) as (b1 & Hg & Hb1). rewrite Hg, Hcl. cbn [mbind option_bind].
  destruct Hp as [_ Ho Hw Hl Hst|st _ Hst Hr Hi Ho Hw|?]; [| |congruence].
  - rewrite !Hst. cbn [response]. rewrite receive_collected. cbn [nread cl].
    pose proof (prefix_length _ _ Hin) as Hpl. rewrite Hu. change (str_eqb "/wsman" "/wsman") with true. cbn iota. rewrite HF.
    destruct (_ <? _) eqn:E.
    + eexists. split; [reflexivity|]. split_and!; [done..|]. apply Collecting; cbn [next_run run_end run_out run_w run_in run_state
        an_out an_end an_state an_w an_consumed]; try done.
      * by rewrite Ho.
      * rewrite take_ge by done. apply Z.ltb_lt in E. done.
      * rewrite take_ge by done. cbn [default]. by rewrite HF.
    + apply Z.ltb_ge in E. assert (HinF : run_in x ++ in_buf ca = F).
      { destruct Hin as [r Hin]. rewrite Hin in E |- *. rewrite length_app in E. destruct r; [by rewrite app_nil_r|].
        cbn [length] in E. lia. }
      rewrite HinF, Hv, Hw.
      destruct (serve_wsman_dispatches dispatch check_identify load idfile package hs Hhs Htype (out_len ca)
        (length (in_buf ca)) auth (RState (Z.of_nat (length F)) (Z.of_nat (length F)) F None 0 0) b1 w enc creds w' status resp)
        as (b2 & Hb2 & Hs); try done.
      { cbn [request]. unfold reply_head_text in Hroom. rewrite Hout by done. lia. }
      rewrite Hs. cbn [cl nread request]. fold reply_head_text. apply send_body_phase; try done.
      * rewrite codes_length. rewrite Hout by done. lia.
      * cbn. lia.
      * rewrite Ho. by rewrite app_nil_r.
  - rewrite Hst. cbn [default id]. rewrite Hr, Hw. apply send_body_phase; try done; [simpl; lia|].
    by rewrite app_nil_r.
Qed.

Lemma replay_phase r cas : ∀ x,
  exchange_ok (Run [] [] r None false w) → history_ok user r w F 16384 cas → replay user r w cas = Some x → exchange_ok x.
Proof using All.
  induction cas as [|ca cas IH] using rev_ind; intros x H0 Hh Hr; [by injection Hr as <-|].
  rewrite replay_snoc in Hr. unfold replay1 in Hr. destruct (replay user r w cas) as [y|] eqn:Ey; [|done]. cbn [mbind option_bind] in Hr.
  destruct (run_end y) eqn:Ee; [done|].
  assert (Hy : exchange_ok y).
  { apply IH; [done| |done]. intros pre ca' post ->. apply (Hh pre ca' (post ++ [ca])). by rewrite <- app_assoc. }
  destruct (Hh cas ca [] eq_refl) as [Herr Hc]. destruct (Hc y Ey) as (_ & Hout & Hin).
  destruct (phase_step y ca Hy Ee Herr Hout Hin) as (a & Ha & Hx). rewrite Ha in Hr. cbn [mbind option_bind] in Hr.
  by injection Hr as <-.
Qed.

(** Every call that may happen is defined. *)
Lemma calls_defined r :
  exchange_ok (Run [] [] r None false w) →
  ∀ cas x ca, history_ok user r w F 16384 cas → replay user r w cas = Some x → call_ok user r w F 16384 cas ca →
    is_Some (user (run_req x) (run_state x) ca (run_w x)).
Proof using All.
  intros H0 cas x ca Hh Hr [Herr Hc]. destruct (Hc x Hr) as (He & Hout & Hin).
  destruct (phase_step x ca (replay_phase r cas x H0 Hh Hr) He Herr Hout Hin) as (a & Ha & _). by exists a.
Qed.
End Phases.

(** ** The announced length *)

Definition is_length (h : string * string) : bool := str_eqb (str_lower h.1) "content-length".

Lemma header_line_length off h r hd :
  header_ok h = true → no_colon h.1 = true →
  h_cl (parse_header_line off (hline h +:+ eol +:+ r) hd) =
  if is_length h then strtoul_value (h.2 +:+ eol +:+ r) else h_cl hd.
Proof.
  intros Hh Hc. unfold parse_header_line. rewrite take_line_eol by by apply hline_plain. cbn [fst].
  rewrite http_headers_named, known_header_find by done. unfold is_length.
  destruct (str_eqb_spec (str_lower h.1) "content-length") as [E|E].
  - assert (Hl : String.length h.1 = 14%nat) by by rewrite <- (str_lower_length h.1), E.
    rewrite E. replace (find _ known_names) with (Some (HDR_INT, "Content-Length")) by (vm_compute; reflexivity).
    cbn [fmap option_fmap option_map fst snd]. change (str_eqb ("Content-Length" +:+ ": ") "Content-Length: ") with true.
    cbn [h_cl]. f_equal. unfold hline. rewrite !str_app_assoc.
    replace (String.length ("Content-Length" +:+ ": ")) with (String.length h.1 + (String.length ": " + 0))%nat
      by (rewrite Hl; reflexivity).
    rewrite !str_drop_app'. done.
  - destruct (find _ known_names) as [[t n]|] eqn:Ef; [|done].
    apply find_some in Ef as [Hin Heq]. cbn [snd] in Heq. apply str_eqb_eq in Heq. rewrite <- Heq in E.
    unfold known_names in Hin. simpl in Hin. destruct_or! Hin; simplify_eq; done.
Qed.

Lemma parse_headers_length hs L : ∀ fuel off hd,
  forallb header_ok hs = true → forallb (λ h, no_colon h.1) hs = true →
  forallb (λ h, negb (is_length h) || str_eqb h.2 (print_nat L)) hs = true → 0 ≤ L < 2 ^ 64 →
  (String.length (intact hs) ≤ fuel)%nat → h_cl hd = L ∨ existsb is_length hs = true →
  h_cl (parse_headers_loop fuel off (intact hs) hd) = L.
Proof.
  induction hs as [|h hs IH]; intros fuel off hd Hh Hc Hv HL Hf Hl.
  - change (intact []) with eol in *. destruct fuel as [|fuel]; [simpl in Hf; lia|]. destruct Hl as [Hl|Hl]; [|done].
    by destruct fuel.
  - cbn [forallb existsb] in *. apply andb_true_iff in Hh as [Hh1 Hh], Hc as [Hc1 Hc], Hv as [Hv1 Hv].
    rewrite intact_cons in *. rewrite !str_length_app in Hf. change (String.length eol) with 2%nat in Hf.
    destruct fuel as [|fuel]; [lia|].
    assert (Hne : ∃ a s, hline h +:+ eol +:+ intact hs = String a s) by (destruct (hline h); by eexists _, _).
    destruct Hne as (a & s & Hne). cbn [parse_headers_loop]. rewrite Hne at 1. rewrite take_line_eol by by apply hline_plain.
    apply IH; try done; [lia|]. rewrite header_line_length by done. destruct (is_length h); cbn [negb orb] in *.
    + left. apply str_eqb_eq in Hv1. rewrite Hv1. unfold strtoul_value. rewrite scan_int_print by (done || lia).
      unfold ulong_of. rewrite (proj2 (Z.leb_le _ _)) by (unfold ULONG_MAX; lia). by apply wrap_small.
    + done.
Qed.

(** ** The request arrives *)

Lemma str_of_codes_app l1 l2 : str_of_codes (l1 ++ l2) = str_of_codes l1 +:+ str_of_codes l2.
Proof. induction l1 as [|z l1 IH]; [done|]. cbn [app str_of_codes]. by rewrite str_app_cons, IH. Qed.

Lemma str_take_codes k s : str_of_codes (take k (codes s)) = str_take k s.
Proof.
  revert s. induction k as [|k IH]; intros [|a s]; cbn [codes take str_of_codes str_take]; try done. by rewrite chr_code, IH.
Qed.

Lemma take_codes k s : take k (codes s) = codes (str_take k s).
Proof. revert s. induction k as [|k IH]; intros [|a s]; cbn [codes take str_take]; try done. by rewrite IH. Qed.

(** While the headers are not complete the connection goes on waiting. *)
Lemma waits_on {W} user decide fuel (c : connection W) got now sr :
  waiting c got → _shttpd_get_headers_len (str_of_codes got) = 0 → Z.of_nat (length got) < 16384 →
  now ≤ expire_time c → process_connection user decide (S fuel) now sr false false c = Ok c.
Proof.
  intros Hw Hh Hl Ht. destruct Hw. cbn [process_connection andb mbind res_bind]. rewrite wt_flags. cbn [f_parsed no_flags].
  assert (Hsp : io_space_len (s_io (rem c)) = 16384 - Z.of_nat (length got)).
  { unfold io_space_len. rewrite wt_size, <- wt_data, (io_data_length _ wt_rem). unfold io_data_len. rewrite wt_tail. lia. }
  assert (Hp : parse_request user decide c = Ok c).
  { unfold parse_request, parse_http_request. rewrite wt_data, Hh, Hsp. cbn [Z.eqb]. rewrite (proj2 (Z.eqb_neq _ _)) by lia. done. }
  rewrite Hp. cbn [mbind res_bind]. rewrite wt_lflags, wt_loc. cbn [f_w no_flags]. rewrite andb_false_r. cbn [andb mbind res_bind].
  assert (Hd : io_data_len (s_io (loc c)) = 0) by by rewrite <- (io_data_length _ wt_lio), wt_ldata.
  rewrite Hd. cbn [Z.ltb andb mbind res_bind Z.compare]. rewrite wt_lflags, wt_flags. cbn [f_closed no_flags andb].
  rewrite (proj2 (Z.ltb_ge _ _)) by lia. done.
Qed.

(** When they are, the request is handed to the function. *)
Lemma request_accepted {W} user decide (c : connection W) hs rest q r :
  waiting c (codes (request_text hs rest)) →
  forallb header_ok hs = true → forallb (λ h, line_ok (hline h)) hs = true →
  q = Conn "/wsman" (intact hs) (_shttpd_parse_headers (intact hs)) → decide q = Some (Embedded 1 r) →
  ∃ c2, parse_request user decide c = Ok c2 ∧ accepted c2 r (world c) (h_cl (c_ch q)) (codes rest) ∧
    sock c2 = sock c ∧ expire_time c2 = expire_time c ∧ io_size (s_io (loc c2)) = 16384.
Proof.
  intros Hw Hh Hl Hq Hdec. destruct Hw. set (text := request_text hs rest) in *.
  assert (Hstart : str_prefix "POST" (str_of_codes (io_buf (s_io (rem c)))) = true).
  { unfold io_data in wt_data. rewrite wt_tail, drop_0 in wt_data.
    rewrite <- (take_drop (Z.to_nat (io_data_len (s_io (rem c)))) (io_buf (s_io (rem c)))), wt_data.
    rewrite str_of_codes_app, str_of_codes_codes. done. }
  set (k := String.length (request_line +:+ eol +:+ intact hs)).
  assert (Hk : _shttpd_get_headers_len text = Z.of_nat k).
  { unfold _shttpd_get_headers_len, text, request_text. rewrite headers_len_intact by done. unfold k.
    rewrite !str_length_app. change (String.length eol) with 2%nat. lia. }
  assert (Hk16 : (16 < k)%nat) by (unfold k; rewrite str_length_app; change (String.length request_line) with 20%nat; lia).
  assert (Htl : Z.of_nat (length (codes text)) = Z.of_nat k + Z.of_nat (String.length rest)).
  { rewrite codes_length. unfold text, request_text, k. rewrite !str_length_app. lia. }
  assert (Hdl : io_data_len (s_io (rem c)) = Z.of_nat k + Z.of_nat (String.length rest)).
  { by rewrite <- (io_data_length _ wt_rem), wt_data. }
  destruct (io_consume (s_io (rem c)) (Z.of_nat k) wt_rem ltac:(lia)) as (i & Ei & Hd & Hok & Hsz & Htot & _).
  assert (Hdata : io_data i = codes rest).
  { rewrite Hd, wt_data, Nat2Z.id. unfold text, request_text, k.
    replace (request_line +:+ eol +:+ intact hs +:+ rest) with ((request_line +:+ eol +:+ intact hs) +:+ rest)
      by by rewrite !str_app_assoc. rewrite codes_app, drop_app_length'; [done|by rewrite codes_length]. }
  unfold parse_request. rewrite wt_data, str_of_codes_codes, Hk. unfold text.
  rewrite HttpProofs.parse_request by done. rewrite <- Hq. fold text. cbn [new_version fst snd default id].
  rewrite Ei. cbn [mbind res_bind]. rewrite wt_lflags. cbn [f_closed no_flags]. rewrite Htot, wt_total.
  rewrite (proj2 (Z.leb_le _ _)) by lia. cbn [assert mbind res_bind]. rewrite Hdec. cbn [defined mbind res_bind].
  eexists. split; [reflexivity|]. unfold accepted. cbn. rewrite wt_lflags, wt_flags. cbn.
  repeat match goal with |- _ ∧ _ => split end; try done. rewrite Htl, codes_length. lia.
Qed.

Lemma process_after_parse {W} user decide fuel now sr (c c2 : connection W) :
  f_parsed (s_flags (rem c)) = false → f_parsed (s_flags (rem c2)) = true → parse_request user decide c = Ok c2 →
  process_connection user decide (S fuel) now sr false false c =
  process_connection user decide (S fuel) now sr false false c2.
Proof. intros H1 H2 H3. cbn [process_connection andb mbind res_bind]. rewrite H1, H2, H3. done. Qed.

(** ** The exchange *)

Section Wire.
Context {W : Type}.
Context (dispatch : W → list Z → string → option (string * string) → option (W * Z * list Z)).
Context (check_identify : list Z → string → bool).
Context (cim_call : W → list Z → string → option string → option (W * Z * option (Z * string) * list Z)).
Context (load : string → option (list Z)) (idfile anonfile : char_ptr) (package : string).
Context (decide : conn → option decision) (hs : list (string * string)) (body : string) (r : conn).
Context (w w' : W) (reply : list Z) (T : Z).
Notation user := (server_callback dispatch check_identify cim_call load idfile anonfile package).
Notation F := (codes body).
Notation L := (Z.of_nat (length F)).

Hypothesis Hhs : forallb header_ok hs = true.
Hypothesis Hline : forallb (λ h, line_ok (hline h)) hs = true.
Hypothesis HL : 0 < L < 2 ^ 63.
Hypothesis Hfit : Z.of_nat (String.length (request_line +:+ eol +:+ intact hs)) < 16384.

Let q : conn := Conn "/wsman" (intact hs) (_shttpd_parse_headers (intact hs)).
Hypothesis Hdec : decide q = Some (Embedded 1 r).
Hypothesis Hclen : h_cl (c_ch q) = L.

(** The run of the function, as [replay_phase] and [calls_defined] describe it. *)
Hypothesis Hphase : ∀ cas x, history_ok user r w F 16384 cas → replay user r w cas = Some x →
  (run_out x `prefix_of` reply) ∧ (run_w x = w ∨ run_w x = w') ∧ (run_end x = true → run_out x = reply ∧ run_w x = w').
Hypothesis Hcalls : ∀ cas x ca, history_ok user r w F 16384 cas → replay user r w cas = Some x →
  call_ok user r w F 16384 cas ca → is_Some (user (run_req x) (run_state x) ca (run_w x)).

(** What the client has got. *)
Definition outcome_ok (c : connection W) : Prop :=
  sent c `prefix_of` reply ∧ (world c = w ∨ world c = w') ∧ (freed c = true → sent c = reply ∧ world c = w').

Lemma served_outcome A c :
  A `prefix_of` F → alive user r w L A 16384 true T c ∨ ended user r w A 16384 true c → outcome_ok c.
Proof using Hphase.
  intros [F' HA] [[[(x & got & H) _] _]|(Hf & cas & x & _ & Hr & _ & _ & He)].
  - pose proof (sv_agrees _ _ _ _ _ _ _ _ _ H) as Ha. destruct Ha.
    destruct (Hphase (calls c) x) as (H1 & H2 & _); [rewrite HA; by apply history_more, (sv_hist _ _ _ _ _ _ _ _ _ H)|done|].
    split_and!; [|by rewrite ag_world|by rewrite ag_freed]. rewrite <- ag_out in H1. by eapply prefix_app_l.
  - destruct (He eq_refl) as (E1 & E2 & E3 & E4 & E5).
    destruct (Hphase cas x) as (_ & _ & H3); [rewrite HA; by apply history_more|done|].
    destruct (H3 E1) as [H4 H5]. split_and!; [by rewrite E2, H4|right; congruence|]. intros _. split; congruence.
Qed.

Abbreviation k0 := (String.length (request_line +:+ eol +:+ intact hs)).

(** The end of the headers is not found before it is there. *)
Lemma headers_incomplete n :
  (n < k0)%nat → _shttpd_get_headers_len (str_take n (request_text hs body)) = 0.
Proof using Hhs Hline.
  intros Hn.
  assert (Hk0 : _shttpd_get_headers_len (request_text hs body) = Z.of_nat k0).
  { unfold _shttpd_get_headers_len, request_text. rewrite headers_len_intact by done.
    rewrite !str_length_app. change (String.length eol) with 2%nat. lia. }
  unfold _shttpd_get_headers_len in *. rewrite headers_len_take by lia. by rewrite (proj2 (Z.ltb_lt _ _)) by lia.
Qed.

(** What has arrived is a beginning of the request. *)
Lemma part_of_request g l :
  g ++ l `prefix_of` codes (request_text hs body) → g = codes (str_take (length g) (request_text hs body)).
Proof. intros [x Hx]. rewrite <- take_codes, Hx, <- app_assoc. by rewrite take_app_length. Qed.

(** A turn in which nothing arrives. *)
Lemma idle_turn c got ev :
  waiting c got → rx (sock c) = [] → rx_eof (sock c) = false → T ≤ expire_time c → ev_now ev ≤ T →
  ev_in ev = [] → ev_eof ev = false → (length got < k0)%nat → got = codes (str_take (length got) (request_text hs body)) →
  turn user decide c ev = Ok (set_sock c (arrive ev (sock c))).
Proof using Hhs Hline Hfit.
  intros Hw Hrx Heof Hexp Ht Hin Heof' Hgot Hpart.
  unfold turn. destruct Hw. rewrite wt_freed. cbn [sock set_sock rx rx_eof arrive]. rewrite Hrx, Heof, Hin, Heof'.
  cbn [app length Nat.ltb Nat.leb orb]. rewrite andb_false_r. cbn [loc set_sock]. rewrite wt_loc. cbn [andb].
  apply (waits_on user decide _ _ got); [by split| |lia|cbn; lia].
  rewrite Hpart, str_of_codes_codes. by apply headers_incomplete.
Qed.

(** The turn in which the headers are complete, and those that follow. *)
Lemma handed_over c1 rest now sr evs :
  waiting c1 (codes (request_text hs rest)) → rx_eof (sock c1) = false → T ≤ expire_time c1 → world c1 = w →
  now ≤ T → T ≤ now + EXPIRE_TIME → send_ok sr = true →
  (codes rest ++ rx (sock c1)) ++ arrivals evs `prefix_of` F → Forall (event_ok true T) evs →
  ∃ c', (process_connection user decide (S (S (Z.to_nat 16384))) now sr false false c1
          ≫= λ c, turns user decide c evs) = Ok c' ∧ outcome_ok c'.
Proof using All.
  intros Hw1 Heof Hexp Hwd Ht1 Ht2 Hsr HpF Hevs.
  destruct (request_accepted user decide c1 hs rest q r Hw1 Hhs Hline eq_refl Hdec)
    as (c2 & Hp & Hacc & Hs2 & He2 & Hsz2). rewrite Hclen in Hacc.
  rewrite (process_after_parse user decide _ _ _ c1 c2); [|by rewrite (wt_flags _ _ Hw1)|apply Hacc|done].
  rewrite Hwd in Hacc. rewrite <- Hs2 in HpF.
  assert (Hal : alive user r w L (codes rest ++ rx (sock c2)) 16384 true T c2).
  { rewrite <- Hsz2. apply accepted_alive; [done|]. intros _. rewrite Hs2, He2. split; [done|lia]. }
  assert (Hrun : wp true (process_connection user decide (S (S (Z.to_nat 16384))) now sr false false c2
    ≫= λ c, turns user decide c evs) (λ c', alive user r w L ((codes rest ++ rx (sock c2)) ++ arrivals evs) 16384 true T c' ∨
      ended user r w ((codes rest ++ rx (sock c2)) ++ arrivals evs) 16384 true c')).
  { apply wp_bind. eapply wp_mono; [apply (process_serves user decide r w true L 16384 true T HL ltac:(done) F ltac:(done)
      (λ _, Hcalls) (codes rest ++ rx (sock c2))); try done; by eapply prefix_app_l|].
    intros c3 [Hc3|Hc3]; [by apply (turns_serve user decide r w true L 16384 true T HL ltac:(done) F ltac:(done) (λ _, Hcalls))|].
    rewrite turns_freed by apply Hc3. right. by apply ended_more. }
  destruct (_ ≫= _) as [c'|[]]; try done. exists c'. split; [done|]. by eapply served_outcome.
Qed.

(** What arrived with the headers is a beginning of the body. *)
Lemma split_request g l :
  (k0 ≤ length g)%nat → g ++ l `prefix_of` codes (request_text hs body) →
  let rest := str_take (length g - k0) body in
  g = codes (request_text hs rest) ∧ codes rest ++ l `prefix_of` F.
Proof.
  intros Hge Hpre rest. set (H0 := request_line +:+ eol +:+ intact hs) in *.
  assert (Htext : ∀ x, request_text hs x = H0 +:+ x) by (intros x; unfold request_text, H0; by rewrite !str_app_assoc).
  assert (Hg : g = codes (request_text hs rest)).
  { rewrite (part_of_request _ _ Hpre) at 1.
    rewrite !Htext, <- take_codes, !codes_app, take_app_ge by (rewrite codes_length; lia).
    rewrite codes_length. unfold rest. by rewrite take_codes. }
  split; [done|]. rewrite Hg, !Htext, !codes_app, <- !app_assoc in Hpre. by apply prefix_app_inv in Hpre.
Qed.

Lemma turns_exchange evs : ∀ c got,
  waiting c got → rx (sock c) = [] → rx_eof (sock c) = false → T ≤ expire_time c → world c = w →
  Z.of_nat (length got) < Z.of_nat k0 →
  got ++ arrivals evs `prefix_of` codes (request_text hs body) → Forall (event_ok true T) evs →
  ∃ c', turns user decide c evs = Ok c' ∧ outcome_ok c'.
Proof using All.
  induction evs as [|ev evs IH]; intros c got Hw Hrx Heof Hexp Hwd Hgot Hpre Hevs; cbn [turns].
  { exists c. split; [done|]. destruct Hw. split_and!; [rewrite wt_sent; apply prefix_nil|by left|by rewrite wt_freed]. }
  apply Forall_cons in Hevs as [[Ht Hev] Hevs]. destruct (Ht eq_refl) as [Ht1 Ht2], (Hev eq_refl) as [Hsr Heof'].
  change (arrivals (ev :: evs)) with (ev_in ev ++ arrivals evs) in Hpre.
  destruct (decide_rel (=) (ev_in ev) []) as [Hin|Hin].
  - rewrite (idle_turn c got ev) by (done || lia || by eapply part_of_request). cbn [mbind res_bind].
    rewrite Hin in Hpre. apply (IH _ got); try done; [by destruct Hw|cbn; by rewrite Hrx, Hin|cbn; by rewrite Heof, Heof'].
  - destruct (turn_reads user decide c got ev Hw ltac:(lia)) as (c1 & Hw1 & Hs1 & He1 & Hwd1 & Hk & ->); [by rewrite Hrx|].
    rewrite Hrx in *. cbn [app] in *. set (k := Z.to_nat _) in *.
    assert (Hlk : (k ≤ length (ev_in ev))%nat) by (unfold k; lia).
    assert (Hpre1 : (got ++ take k (ev_in ev)) ++ (drop k (ev_in ev) ++ arrivals evs) `prefix_of` codes (request_text hs body)).
    { rewrite <- app_assoc, (app_assoc (take k _)), take_drop. done. }
    assert (Hn : length (got ++ take k (ev_in ev)) = (length got + k)%nat) by (rewrite length_app, length_take; lia).
    assert (Heof1 : rx_eof (sock c1) = false) by (rewrite Hs1; cbn; by rewrite Heof, Heof').
    assert (Hexp1 : T ≤ expire_time c1) by (rewrite He1; lia). rewrite Hwd in Hwd1.
    destruct (Nat.ltb_spec (length got + k) k0) as [Hlt|Hge].
    + (* the headers are not complete *)
      assert (Hall : k = length (ev_in ev)) by (unfold k in *; lia).
      rewrite (waits_on user decide _ c1 _ _ _ Hw1);
        [|rewrite (part_of_request _ _ Hpre1), str_of_codes_codes; apply headers_incomplete; lia|lia
         |rewrite He1; unfold EXPIRE_TIME in *; lia].
      rewrite Hall, drop_all in Hpre1. cbn [mbind res_bind].
      apply (IH c1 (got ++ take k (ev_in ev))); try done; [rewrite Hs1, Hall; cbn; by rewrite drop_all|lia|by rewrite Hall].
    + (* the request is handed over *)
      destruct (split_request _ _ ltac:(rewrite Hn; exact Hge) Hpre1) as [Hg HpF]. rewrite Hg in Hw1.
      eapply handed_over; try done. rewrite Hs1. cbn [rx]. by rewrite <- app_assoc.
Qed.
End Wire.

(** The request of a client: its credentials, its headers with those around
    them, and its body. *)
Record client_request := ClientRequest {
  cr_user : string; cr_pwd : string; cr_auth : string; cr_before : list (string * string);
  cr_after : list (string * string); cr_body : string }.

Definition cr_headers (cr : client_request) : list (string * string) :=
  auth_headers (cr_user cr) (cr_pwd cr) (cr_auth cr) (cr_before cr) (cr_after cr).

Definition cr_length (cr : client_request) : Z := Z.of_nat (String.length (cr_body cr)).

(** What is asked of a request: credentials that Basic can carry in its only
    Authorization header, headers in order and within the buffer, and a length
    that is that of the body. *)
Record request_ok (cr : client_request) (enc : string) : Prop := {
  rq_user : user_ok (cr_user cr) (cr_pwd cr) = true;
  rq_wire : forallb wire_ok (cr_headers cr) = true;
  rq_auth : str_lower (cr_auth cr) = AUTH;
  rq_only : forallb (λ h, negb (is_auth h)) (cr_after cr) = true;
  rq_fit : Z.of_nat (String.length (request_line +:+ eol +:+ intact (cr_headers cr))) < 16384;
  rq_length : hlookup "Content-Length" (cr_headers cr) = Some (print_nat (cr_length cr));
  rq_lengths : forallb (λ h, negb (is_length h) || str_eqb h.2 (print_nat (cr_length cr))) (cr_headers cr) = true;
  rq_type : content_type_ok (hlookup "Content-Type" (cr_headers cr)) = true;
  rq_enc : encoding_of (hlookup "Content-Type" (cr_headers cr)) = Some enc;
  rq_body : 0 < cr_length cr < 2 ^ 63;
}.

Lemma printed_length n : 0 ≤ n < 2 ^ 63 → strtoul_value (print_nat n) = n.
Proof.
  intros Hn. unfold strtoul_value. rewrite <- (str_app_nil (print_nat _)), scan_int_print by (done || lia).
  unfold ulong_of. rewrite (proj2 (Z.leb_le _ _)) by (unfold ULONG_MAX; lia). apply wrap_small. lia.
Qed.

Lemma hlookup_exists n hs v : hlookup n hs = Some v → existsb (λ h, str_eqb (str_lower h.1) (str_lower n)) hs = true.
Proof.
  induction hs as [|h hs IH]; [done|]. cbn [hlookup existsb]. destruct (str_eqb _ _); [done|]. apply IH.
Qed.


Definition sample_request : client_request := ClientRequest "admin" "secret" "Authorization" wire_headers [] "<a/>.".

Definition sample_events : list event :=
  let text := codes (request_text (cr_headers sample_request) (cr_body sample_request)) in
  [Event 0 (take 30 text) false SAgain; Event 1 (take 150 (drop 30 text)) false (STakes 5);
   Event 7 (drop 180 text) false (STakes 100); Event 9 [] false (STakes 1000)].

